(* ===== verification/_CoqProject ===== *)
-Q . S2P
Prelude.v
Threads.v
GoStd.v
Float.v
TimeText.v
JsonText.v
Sha256.v
Intent.v
Override.v
Arbiter.v
ArbiterFacts.v
Bridge.v
BridgeFacts.v
Model.v
ModelHealth.v
HealthV3.v
HealthV3Facts.v
HealthDecisions.v
Health.v
HealthSettings.v
HealthStages.v
AccountTypes.v
AccountQueue.v
Requests.v
Effects.v
AccountGuard.v
AccountProjection.v
AccountService.v
AccountRecovery.v
AccountProtocol.v
AccountSandbox.v
AccountSteps.v
AccountSubmitFacts.v
AccountRecoveryFacts.v
AccountStored.v
AccountArbitration.v
AccountLifetime.v
Barrier.v
AccountLocks.v
Sql.v
Journal.v
JournalFacts.v
JournalRefinement.v
OverrideExpiry.v
Coordinator.v
MutationError.v
ModelFailover.v
JsonRecords.v
Json.v
AgentGrants.v
AgentGate.v
FailoverPolicy.v
FailoverController.v
TrafficStats.v
FailoverSandbox.v
FailoverTraffic.v
FailoverSafety.v
FailoverEvidence.v
BalanceCalls.v
CostRouting.v
BalanceSources.v
GroupTransition.v
GroupExecution.v
GroupPolicies.v
GroupSafety.v
GroupSteps.v
BalanceSandbox.v
GroupProtocol.v
CostRoutingFacts.v
Matcher.v
EngineCalls.v
EngineHealth.v
EngineControl.v
EngineAccounts.v
EnginePass.v
EngineSandbox.v
EngineSafety.v
EngineCommands.v
AgentCommands.v
AgentWorker.v
