(* ===== verification/Prelude.v ===== *)
(** * A verification library of the account scheduler

    The program (Go, under [src/internal] and [src/cmd]) decides, account by account,
    whether the upstream accounts of a Sub2API deployment may be scheduled and with what
    load, and moves upstream keys between groups. Several producers submit intents: the
    health policy, the balance and cost controllers, the failover controller, an agent
    and the administrators. The parts modelled here and how they interact:

    - the control plane ([internal/controlplane]) says what an intent is and picks, per
      account and operation, the one that wins; the bridge ([controlplanebridge]) turns the
      actions of the older code into intents with a derived identity;
    - account control ([accountcontrol]) takes one intent through arbitration, a journal
      ([store/accountcontrol.go]), the safety guard, the write to Sub2API and its
      verification, and repeats what a crash interrupted;
    - the automation barrier ([automation]) and the account locks order those writes
      against freezes and against each other;
    - the health package ([health]) turns monitor checks and real traffic into decisions;
      the reconciliation engine ([reconcile]) matches accounts with monitors, keeps the
      stage of every account and asks account control for pauses, resumptions and loads;
      the coordinator decides when a pass runs, a worker ends overrides that expire;
    - the balance manager ([balance]) reads upstream accounts, routes by cost and carries
      out transitions of keys between groups, which the failover controller ([failover])
      asks for when a pool has failed;
    - the agent ([agent]) acts through capabilities: a gate checks each call, an
      administrator's grant admits one call of one step, and scheduled commands are kept in
      the store and executed by a worker under leases.

    ** The files

    Shared: [Prelude] (results, record update, tactics, sorting), [Threads] (goroutines
    taking turns over shared state), [GoStd], [Float], [TimeText], [JsonText],
    [JsonRecords], [Json], [Sha256] (the standard library: strings, UTF-8, quoting, int64,
    time and RFC 3339, binary64, JSON, digests), [Sql] (tables and their statements),
    [Requests] (programs that make requests to an environment, their traces, protocols over
    traces and a weakest precondition), [Model], [ModelHealth], [ModelFailover] (the records
    of [internal/model]).

    - [Intent], [Override], [Arbiter], [ArbiterFacts]: [controlplane/*.go]. Every function
      is a definition of the same name (a method [T.M] is [T_M] where [M] alone is
      ambiguous); Go's string enumerations stay strings. Shown: constructors return exactly
      the valid, normal intents; an override lease is active exactly in its lifetime;
      [Arbitrate] accounts for every intent once, its winner is valid, uncontested and
      outranked by none, and the result does not depend on the order of submission.
    - [Bridge], [BridgeFacts]: [controlplanebridge/*.go]. A conversion is exact and its
      identity identifies the business action, up to a SHA-256 collision that the theorem
      returns as a pair of messages.
    - [HealthV3], [HealthV3Facts], [HealthDecisions], [Health], [HealthSettings],
      [HealthStages]: [health/v3.go] and [health.go]. Shown: the verdict of [EvaluateV3] is
      coherent, bounded and explained, a pause rests on hard evidence alone, settings are
      repaired, and a quarantined monitor returns in stages unless its readings freeze it.
    - [AccountTypes], [AccountQueue], [AccountGuard], [AccountProjection],
      [AccountService], [AccountRecovery]: [accountcontrol/*.go], programs over the requests
      of [Effects]; nothing is assumed of a reply, errors included. [AccountProtocol] is the
      abstract specification, a protocol over traces: what must have been journaled, locked
      and checked before a write. [AccountSteps], [AccountSubmitFacts],
      [AccountRecoveryFacts]: every run of [Submit] and of [recoverOne], stopped anywhere,
      keeps it. [AccountLifetime]: over a submission and any number of crashes and recoveries
      at most two writes reach the account. [AccountStored], [AccountArbitration]: what is
      journaled is rebuilt exactly, and how the winner of a submission is chosen.
      [AccountSandbox] is a concrete environment in which the witnesses run.
    - [Journal], [JournalFacts], [JournalRefinement]: [store/accountcontrol.go] over the
      tables of [Sql]. The tables implement the abstract journal of [AccountLifetime], so
      what it says of writes holds over the store; preparation is atomic; rows are read back.
    - [OverrideExpiry]: [ExpireActiveAccountOverrides] and [reconcile/override_expiry.go].
      What expires is marked, up to the second, and the worker's loop comes to wait.
    - [Barrier], [AccountLocks], [Coordinator]: [automation/barrier.go],
      [accountcontrol/lock.go], [reconcile/coordinator.go] as machines of [Threads]:
      exclusion in every reachable state, no lost wake-up, and every run of the coordinator
      without ticks serves what is pending within the turns its goroutines have left.
    - [MutationError]: [mutation/error.go], with the regular expression of the code matched
      and proved against its language.
    - [FailoverPolicy], [FailoverController], [TrafficStats], [FailoverSandbox],
      [FailoverTraffic], [FailoverSafety], [FailoverEvidence]: [failover/controller.go] and
      the statistics of [store/agent.go]. A cycle asks for a transition only on its grounds;
      evidence is counted once and only when it is about the transition.
    - [BalanceCalls], [CostRouting], [CostRoutingFacts], [BalanceSources],
      [GroupTransition], [GroupExecution], [GroupPolicies], [GroupSafety], [GroupSteps],
      [GroupProtocol], [BalanceSandbox]: [balance/*.go]. A group is written at most once per
      request and only after everything was read, journaled and marked; cost routing leaves
      an account serving, at a rate below which no source is of use.
    - [Matcher], [EngineCalls], [EngineHealth], [EngineControl], [EngineAccounts],
      [EnginePass], [EngineCommands], [EngineSandbox], [EngineSafety]: [reconcile/*.go]. The
      bindings are those of a reference definition; a locked account whose load the
      policy owns earns it back in stages; a pass submits only on grounds; a repeated command is the same intent.
    - [AgentGrants]: [agent/administrator_grant.go] from the matching of a call with the
      administrator's intent. A minted grant is accepted for its call, which a clause of the
      intent allows; the identifier of a grant identifies one call.
    - [AgentGate]: [agent/capabilities.go], [ExecuteCapability] of
      [agent/capability_executor.go] and [ConsumeAdministratorGrant] of
      [store/agent_v2.go]. A body runs only on the grounds of the gate, and two writes under
      one grant are the same call of the same step while the retention has not forgotten
      that it was consumed.
    - [AgentCommands]: the table of scheduled commands of [store/agent_v2.go], with the
      retention and the completion of old rows. Every history of calls keeps the commands
      valid; the gate of a mutation is reopened only after a
      call that releases it.
    - [AgentWorker]: [executeScheduledCommand] of [agent/runtime_v2.go]. Each run executes
      at most once and reports once, by the answer; over the life of the table executions are
      bounded by the attempts of the command and its deferrals.

    ** Conventions

    An [int], [int64] or [time.Duration] is a [Z]; where the code can leave 64 bits the
    wrap-around [wrap64] is written out. A [time.Time] is its nanoseconds since the Unix
    epoch (locations and the monotonic reading are not modelled). A [float64] is IEEE
    binary64; its text is an argument ([JsonFloats]). A map is a [gmap], and where the source
    iterates over one without sorting, the order is a reply of the environment. A pointer is
    an [option], or an index into a list where aliasing matters. An error is the value the
    code returns with the text it renders. The tables of Unicode, the folding of letters, the
    parsing of addresses and the texts of decoding errors are arguments ([UnicodeTables],
    [FoldTable], [UrlParser], [DecodeCauses]), with concrete instances in the witnesses. The
    engine of the database may refuse any statement, and a statement or commit that came back
    with an error may have been carried out.

    ** Bounds and fuel

    Loops are folds over the data they range over, retries are counted by the journal
    ([attempt_count], at most two), and goroutines are relations whose progress is shown by
    the number of turns left. [Json.read_value] has fuel, as much as twice the length of the
    text and one, which is shown to be enough for every text; the depth of ten thousand is the
    standard library's. [AgentGrants.resource_keys] follows nested schedules with the depth of
    the arguments as fuel, shown to be enough. The loops of [JsonText.json_items] and
    [Sha256.blocks] have the length of their input. The expiry worker is run for a number of
    rounds, and is shown to come to wait after some number. The ninetieth percentile is shown
    for up to a thousand latencies; the engine reads sixty records.

    ** Not modelled

    Of the modelled components: the worker goroutines of [refreshAll] and of
    [ReconcilePendingAccountMutations], the callback of [RunExclusive], encryption of
    credentials and the HTTP of the fetcher, the older wrappers of [mutation.Wrap], and the
    options that replace the clock in tests. Of the agent: the reading of an administrator's
    message (regular expressions over Chinese text), the bodies of the capabilities, the
    read-back of uncertain work, the goal lanes of the runtime, and everything that talks to a
    language model or renders text for it. Of the store: the migrations but for what
    they change in scheduled commands, goals, steps, events,
    memories, telemetry and policies, which are single statements, and the JSON
    normalisation of a new scheduled command's lists, which rewrites floats. The client of
    Sub2API, telemetry, the HTTP server, configuration and the commands are input and output;
    the frontend is not Go. *)

From stdpp Require Export pretty sorting numbers strings gmap.
From stdpp Require Export base list.

Declare Scope go_scope.
Delimit Scope go_scope with go.
#[global] Open Scope go_scope.

(** The hint database of the development: facts about validated data, sorted
    slices and journalled states that close the routine goals. *)
Create HintDb sched.
Create Rewrite HintDb sched.

(** ** Go results: a value, or an error *)

Inductive result (E A : Type) : Type :=
  | Ok (a : A)
  | Err (e : E).
Arguments Ok {E A} a.
Arguments Err {E A} e.

#[export] Instance result_ret E : MRet (result E) := λ A a, Ok a.
#[export] Instance result_bind E : MBind (result E) := λ A B f m,
  match m with Ok a => f a | Err e => Err e end.

#[export] Instance result_eq_dec `{EqDecision E, EqDecision A} : EqDecision (result E A).
Proof. solve_decision. Defined.

(** [if cond { return err }] *)
Definition fail_if {E} (cond : bool) (e : E) : result E unit :=
  if cond then Err e else Ok tt.

Definition is_ok {E A} (r : result E A) : bool :=
  match r with Ok _ => true | Err _ => false end.

Lemma bind_ok {E A B} (m : result E A) (f : A → result E B) b :
  (m ≫= f) = Ok b ↔ ∃ a, m = Ok a ∧ f a = Ok b.
Proof.
  destruct m as [a|e]; simpl; split; intros H.
  - by exists a.
  - by destruct H as (a' & [= ->] & H).
  - done.
  - by destruct H as (a' & H & _).
Qed.

Lemma fail_if_ok {E} (cond : bool) (e : E) u :
  fail_if cond e = Ok u ↔ cond = false.
Proof. destruct cond, u; simpl; split; done. Qed.

Lemma fail_if_unit {E} (cond : bool) (e : E) : fail_if cond e = Ok () ↔ cond = false.
Proof. apply fail_if_ok. Qed.

(** A sequence succeeds when each of its checks does. *)
Lemma then_ok {E B} (m : result E unit) (k : result E B) b :
  (m;; k) = Ok b ↔ m = Ok () ∧ k = Ok b.
Proof. destruct m as [[]|e]; simpl; naive_solver. Qed.

(** ** Functional record update

    [r <| f := v |>] is the struct [r] with field [f] assigned. The update function
    of a field is derived where it is used, as a match on the record. *)
Class Update {R T : Type} (field : R → T) := update : T → R → R.
Arguments update {R T} field {_} v r.

Ltac assign_field field v r :=
  let whole := fresh "whole" in
  pose (whole := r); destruct r;
  lazymatch goal with
  | whole := ?c |- _ =>
      let old := eval cbn in (field c) in
      let ctx := eval pattern old in c in
      lazymatch ctx with ?g _ => let t := eval cbv beta in (g v) in exact t end
  end.

Ltac derive_update :=
  lazymatch goal with
  | |- @Update ?R ?T ?field =>
      let f := constr:(λ (v : T) (r : R), ltac:(assign_field field v r) : R) in
      let f := eval cbv beta zeta in f in exact f
  end.
#[export] Hint Extern 1 (Update _) => derive_update : typeclass_instances.

Notation "r <| f := v |>" := (update f v r)
  (at level 1, left associativity, f constr, format "r  <| f  :=  v |>") : go_scope.

(** Evaluates updates and the fields read from them. *)
Tactic Notation "upd" := unfold update; cbn.
Tactic Notation "upd" "in" hyp(H) := unfold update in H; cbn in H.

(** A field read from an updated record whose value is not known: the assigned
    value, or the field of the record before the update. *)
Ltac read_field g f v r :=
  first
    [ let H := fresh in
      assert (H : g (update f v r) = v) by (generalize r; intros []; reflexivity);
      rewrite !H; clear H
    | let H := fresh in
      assert (H : g (update f v r) = g r) by (generalize r; intros []; reflexivity);
      rewrite !H; clear H ].
Ltac read_fields :=
  repeat match goal with
  | |- context [?g (update ?f ?v ?r)] => read_field g f v r
  end.

(** ** Tactics *)

(** Names the value of the first [let] of the goal, so that what is known of it can
    be stated before the body is looked at. *)
Ltac name_let y :=
  lazymatch goal with
  | |- context C [let x := ?v in @?b x] =>
      pose (y := v); let body := eval cbv beta in (b y) in
      let g := context C [body] in change g
  end.

(** Splits the monadic equations of the context into their steps. *)
Ltac inv_result :=
  repeat match goal with
  | H : Ok _ = Ok _ |- _ => injection H as H; subst
  | H : Err _ = Err _ |- _ => injection H as H; subst
  | H : Ok _ = Err _ |- _ => discriminate H
  | H : Err _ = Ok _ |- _ => discriminate H
  | H : mret _ = Ok _ |- _ => unfold mret, result_ret in H
  | H : fail_if _ _ = Ok _ |- _ => apply fail_if_ok in H
  | H : (_ ≫= _) = Ok _ |- _ =>
      let a := fresh "a" in let Ha := fresh "Hstep" in
      apply bind_ok in H; destruct H as (a & Ha & H)
  | u : unit |- _ => destruct u
  end.

(** Boolean facts of the context as propositions. *)
Ltac bool_facts :=
  repeat match goal with
  | H : _ || _ = false |- _ => apply orb_false_iff in H; destruct H
  | H : _ && _ = true |- _ => apply andb_true_iff in H; destruct H
  | H : negb _ = false |- _ => apply negb_false_iff in H
  | H : negb _ = true |- _ => apply negb_true_iff in H
  | H : bool_decide _ = true |- _ => apply bool_decide_eq_true in H
  | H : bool_decide _ = false |- _ => apply bool_decide_eq_false in H
  | H : ¬ (_ ≠ _) |- _ => apply dec_stable in H
  | H : (_ <? _)%Z = true |- _ => apply Z.ltb_lt in H
  | H : (_ <? _)%Z = false |- _ => apply Z.ltb_ge in H
  | H : (_ <=? _)%Z = true |- _ => apply Z.leb_le in H
  | H : (_ <=? _)%Z = false |- _ => apply Z.leb_gt in H
  | H : (_ =? _)%Z = true |- _ => apply Z.eqb_eq in H
  | H : (_ =? _)%Z = false |- _ => apply Z.eqb_neq in H
  end.

(** Case analysis on the scrutinee of the first match or if of the goal. *)
Ltac case_goal :=
  match goal with
  | |- context [match ?x with _ => _ end] => destruct x eqn:?
  end.

(** Membership of a literal list. *)
Ltac listed := first [left; reflexivity | right; listed].

(** ** Lists *)

Lemma bind_permute {A B} (f g : A → list B) l :
  (∀ x, x ∈ l → f x ≡ₚ g x) → l ≫= f ≡ₚ l ≫= g.
Proof.
  induction l as [|x l IH]; intros Hfg; [done|]. rewrite !bind_cons.
  f_equiv; [apply Hfg; by left|]. apply IH. intros y Hy. apply Hfg. by right.
Qed.

Lemma bind_bind {A B C} (f : A → list B) (g : B → list C) l :
  (l ≫= f) ≫= g = l ≫= (λ x, f x ≫= g).
Proof. induction l as [|x l IH]; [done|]. by rewrite !bind_cons, bind_app, IH. Qed.

(** A list split by the values of a key. *)
Lemma filter_groups {A} `{EqDecision K} (key : A → K) (ks : list K) (L : list A) :
  NoDup ks → (∀ i, i ∈ L → key i ∈ ks) →
  ks ≫= (λ k, filter (λ i, key i = k) L) ≡ₚ L.
Proof.
  revert L. induction ks as [|k ks IH]; intros L Hnd Hall.
  - destruct L as [|x L]; [done|]. exfalso. eapply elem_of_nil, (Hall x). by left.
  - apply NoDup_cons in Hnd as [Hk Hnd]. rewrite bind_cons.
    etrans; [|apply (filter_app_complement (λ i, key i = k) L)]. f_equiv.
    etrans; [|apply (IH (filter (λ i, key i ≠ k) L)); [done|]].
    + apply bind_permute. intros k' Hk'. rewrite list_filter_filter.
      apply reflexive_eq, list_filter_iff. intros i. naive_solver.
    + intros i [Hne Hi]%list_elem_of_filter. specialize (Hall i Hi).
      by apply elem_of_cons in Hall as [?|?].
Qed.

(** ** Strict orders given by boolean comparison functions *)

(** The contract [sort.Slice] places on its [less] argument. *)
Class StrictWeak {A} (less : A → A → bool) : Prop := {
  less_irrefl x : less x x = false;
  less_trans x y z : less x y = true → less y z = true → less x z = true;
  less_cotrans x y z : less x z = true → less x y = true ∨ less y z = true;
}.

Class StrictTotal {A} (less : A → A → bool) : Prop := {
  strict_total_weak :: StrictWeak less;
  less_connex x y : less x y = false → less y x = false → x = y;
}.

Lemma less_asym `{StrictWeak A less} x y : less x y = true → less y x = false.
Proof.
  intros H1. destruct (less y x) eqn:H2; [|done].
  pose proof (less_trans x y x H1 H2) as H3. by rewrite less_irrefl in H3.
Qed.

(** Comparing by a key. *)
Lemma strict_weak_key {A B} (less : B → B → bool) (key : A → B) :
  StrictWeak less → StrictWeak (λ x y, less (key x) (key y)).
Proof.
  intros H. split.
  - intros x. apply less_irrefl.
  - intros x y z. apply less_trans.
  - intros x y z. apply less_cotrans.
Qed.

(** Lexicographic comparison: [l1] decides, and [l2] breaks the ties, which is
    [if a != b { return a < b }; return ...] of the source. *)
Definition lex_less {A} (l1 l2 : A → A → bool) (x y : A) : bool :=
  l1 x y || negb (l1 y x) && l2 x y.

Lemma strict_weak_lex {A} (l1 l2 : A → A → bool) :
  StrictWeak l1 → StrictWeak l2 → StrictWeak (lex_less l1 l2).
Proof.
  intros H1 H2. unfold lex_less. split.
  - intros x. by rewrite !less_irrefl.
  - intros x y z.
    destruct (l1 x y) eqn:Exy, (l1 y x) eqn:Eyx, (l1 y z) eqn:Eyz, (l1 z y) eqn:Ezy;
      simpl; intros Ha Hb; try discriminate; try (by rewrite (less_trans x y z)).
    + destruct (less_cotrans x z y Exy) as [->|Hzy]; [done|congruence].
    + destruct (less_cotrans x z y Exy) as [->|Hzy]; [done|congruence].
    + destruct (less_cotrans y x z Eyz) as [?| ->]; [congruence|done].
    + destruct (less_cotrans y x z Eyz) as [?| ->]; [congruence|done].
    + destruct (l1 x z) eqn:Exz; [done|]. destruct (l1 z x) eqn:Ezx; simpl.
      * destruct (less_cotrans z y x Ezx); congruence.
      * by apply (less_trans x y z).
  - intros x y z.
    destruct (l1 x y) eqn:Exy; [by left|]. destruct (l1 y z) eqn:Eyz; [by right|].
    destruct (l1 x z) eqn:Exz; simpl.
    { destruct (less_cotrans x y z Exz); congruence. }
    destruct (l1 y x) eqn:Eyx, (l1 z y) eqn:Ezy, (l1 z x) eqn:Ezx; simpl; try done;
      try (destruct (less_cotrans z y x Ezx); congruence);
      try (destruct (less_cotrans y z x Eyx); congruence);
      try (destruct (less_cotrans z x y Ezy); congruence).
    apply less_cotrans.
Qed.

(** ** Sorting a slice

    [sort.Slice]: the elements are taken from the left and moved left past the
    greater ones, as [insertionSort] of the library does. Elements the comparison
    does not order keep their order; [sort_slice_unique] shows that where no two
    distinct elements are left unordered, this is the only sorted arrangement, so
    the choice of algorithm is not observable. *)
Section sort_slice.
Context {A : Type} (less : A → A → bool).

Fixpoint insert_slice (x : A) (l : list A) : list A :=
  match l with
  | [] => [x]
  | y :: l' => if less x y then x :: l else y :: insert_slice x l'
  end.

Definition sort_slice (l : list A) : list A :=
  foldl (λ sorted x, insert_slice x sorted) [] l.

(** [x] may stand before [y]. *)
Definition not_after (x y : A) : Prop := less y x = false.

Lemma insert_slice_Permutation x l : insert_slice x l ≡ₚ x :: l.
Proof.
  induction l as [|y l IH]; simpl; [done|].
  destruct (less x y); [done|]. by rewrite IH, Permutation_swap.
Qed.

Lemma sort_slice_Permutation l : sort_slice l ≡ₚ l.
Proof.
  unfold sort_slice. rewrite <-(app_nil_r l) at 2. generalize (@nil A).
  induction l as [|x l IH]; intros acc; simpl; [done|].
  rewrite IH, insert_slice_Permutation. apply Permutation_sym, Permutation_middle.
Qed.

Context `{!StrictWeak less}.

Lemma insert_slice_sorted x l :
  StronglySorted not_after l → StronglySorted not_after (insert_slice x l).
Proof.
  induction 1 as [|y l Hl IH Hy]; simpl; [by repeat constructor|].
  destruct (less x y) eqn:Hxy.
  - constructor; [by constructor|]. constructor; [by apply less_asym|].
    eapply List.Forall_impl; [|exact Hy]. unfold not_after. intros z Hz.
    destruct (less z x) eqn:Hzx; [|done].
    by rewrite (less_trans z x y Hzx Hxy) in Hz.
  - constructor; [done|]. rewrite insert_slice_Permutation. by constructor.
Qed.

Lemma sort_slice_sorted l : StronglySorted not_after (sort_slice l).
Proof.
  unfold sort_slice.
  cut (∀ acc, StronglySorted not_after acc →
    StronglySorted not_after (foldl (λ s x, insert_slice x s) acc l)).
  { intros H. apply H. constructor. }
  induction l as [|x l IH]; intros acc Hacc; simpl; [done|].
  by apply IH, insert_slice_sorted.
Qed.

Lemma sort_slice_unique l1 l2 :
  l1 ≡ₚ l2 →
  (∀ x y, x ∈ l1 → y ∈ l1 → less x y = false → less y x = false → x = y) →
  sort_slice l1 = sort_slice l2.
Proof.
  intros Hperm Heq.
  apply (StronglySorted_unique_strong not_after);
    [|apply sort_slice_sorted..|by rewrite !sort_slice_Permutation].
  intros x y Hx Hy Hxy Hyx. rewrite sort_slice_Permutation in Hx, Hy.
  rewrite <-Hperm in Hy. by apply Heq.
Qed.

(** The first element of a sorted slice is preceded by no other. *)
Lemma sort_slice_head x l rest :
  sort_slice l = x :: rest → x ∈ l ∧ ∀ y, y ∈ l → less y x = false.
Proof.
  intros Hsort. pose proof (sort_slice_sorted l) as Hsorted.
  pose proof (sort_slice_Permutation l) as Hperm. rewrite Hsort in Hsorted, Hperm.
  split; [rewrite <-Hperm; by left|].
  intros y Hy. rewrite <-Hperm in Hy. inv Hsorted as [|? ? ? Hall].
  inv Hy as [|? ? ? Hy']; [apply less_irrefl|].
  rewrite Forall_forall in Hall. by apply Hall.
Qed.
End sort_slice.

Lemma elem_of_sort_slice {A} (less : A → A → bool) x l : x ∈ sort_slice less l ↔ x ∈ l.
Proof. by rewrite sort_slice_Permutation. Qed.

Lemma length_sort_slice {A} (less : A → A → bool) (l : list A) : length (sort_slice less l) = length l.
Proof. apply Permutation_length, sort_slice_Permutation. Qed.

#[export] Hint Resolve sort_slice_sorted : sched.
#[export] Hint Rewrite @elem_of_sort_slice @length_sort_slice : sched.

(** ** The order of Go strings: bytewise, a proper prefix first *)

Definition code (c : Ascii.ascii) : N := Ascii.N_of_ascii c.

Fixpoint string_less (a b : string) : bool :=
  match a, b with
  | _, EmptyString => false
  | EmptyString, String _ _ => true
  | String c a', String d b' =>
      (code c <? code d)%N || ((code c =? code d)%N && string_less a' b')
  end.

Lemma code_inj c d : code c = code d → c = d.
Proof.
  intros H. rewrite <-(Ascii.ascii_N_embedding c), <-(Ascii.ascii_N_embedding d).
  unfold code in H. by rewrite H.
Qed.

Lemma string_less_cons c a d b :
  string_less (String c a) (String d b) = true ↔
  (code c < code d)%N ∨ code c = code d ∧ string_less a b = true.
Proof. simpl. rewrite orb_true_iff, andb_true_iff, N.ltb_lt, N.eqb_eq. done. Qed.

#[export] Instance string_less_strict : StrictTotal string_less.
Proof.
  split; [split|].
  - induction x as [|c x IH]; [done|]. simpl. rewrite N.ltb_irrefl, IH, andb_false_r. done.
  - induction x as [|c x IH]; intros [|d y] [|e z]; try done.
    rewrite !string_less_cons. intros [Hcd|[Hcd Hxy]] [Hde|[Hde Hyz]]; [left; lia..|].
    right. split; [lia|eauto].
  - induction x as [|c x IH]; intros [|d y] [|e z]; try done; auto.
    rewrite !string_less_cons. intros [Hce|[Hce Hxz]].
    + destruct (N.lt_trichotomy (code c) (code d)) as [?|[?|?]]; [auto| |]; right; left; lia.
    + destruct (N.lt_trichotomy (code c) (code d)) as [?|[?|?]]; [auto| |right; left; lia].
      destruct (IH y z Hxz); [left|right]; right; split; done || lia.
  - induction x as [|c x IH]; intros [|d y]; try done.
    intros Hxy Hyx. apply not_true_iff_false in Hxy, Hyx. rewrite string_less_cons in Hxy, Hyx.
    assert (code c = code d) as Hcd by lia. apply code_inj in Hcd as ->.
    f_equal. apply IH; apply not_true_iff_false; naive_solver.
Qed.

#[export] Instance Z_less_strict : StrictTotal Z.ltb.
Proof.
  split; [split|]; intros *; rewrite ?Z.ltb_irrefl; try done;
    rewrite ?Z.ltb_lt, ?Z.ltb_ge; lia.
Qed.

(** ** Folds *)

Lemma foldl_keeps {A B} (I : B → Prop) (f : B → A → B) l b :
  I b → (∀ x b, x ∈ l → I b → I (f b x)) → I (foldl f b l).
Proof.
  revert b. induction l as [|x l IH]; intros b Hb Hf; [done|]. cbn. apply IH; [apply Hf; [by left|done]|].
  intros y b' Hy. apply Hf. by right.
Qed.

(** The same with the elements already taken. *)
Lemma foldl_done {A B} (I : list A → B → Prop) (f : B → A → B) l b :
  I [] b → (∀ done x b, I done b → I (done ++ [x]) (f b x)) → I l (foldl f b l).
Proof.
  intros Hb Hf. cut (∀ done b, I done b → I (done ++ l) (foldl f b l)); [intros H; by apply (H [])|].
  induction l as [|x l IH]; intros done b' Hi; [by rewrite app_nil_r|].
  cbn. rewrite (assoc_L (++) done [x] l : done ++ x :: l = _). by apply IH, Hf.
Qed.
