(* ===== verification/Threads.v ===== *)
(** * Goroutines over shared state

    A concurrent component is a machine: the state its goroutines share, the phases a
    goroutine goes through, and what a goroutine in a phase does to the state in one
    atomic turn, a critical section or a channel operation. The goroutines of a
    system are the list of their phases; they take turns in any interleaving, and new
    ones arrive at any time. *)

From S2P Require Import Prelude.

(** What moves a goroutine: its own next operation, its context, or its timer. *)
Inductive action := Proceed | Cancel | Fire.

Record machine := mkMachine {
  shared : Type;
  phase : Type;
  initial : shared;
  arrives : phase → bool;
  turn : action → shared → phase → option (shared * phase);
}.

Section machine.
Context (M : machine).

Definition system : Type := shared M * list (phase M).

Inductive step : system → system → Prop :=
  | step_turn s ps t a p s' p' :
      ps !! t = Some p → turn M a s p = Some (s', p') → step (s, ps) (s', <[t := p']> ps)
  | step_arrival s ps p : arrives M p = true → step (s, ps) (s, ps ++ [p]).

Inductive reachable : system → Prop :=
  | reachable_start : reachable (initial M, [])
  | reachable_step s s' : reachable s → step s s' → reachable s'.

(** Rule induction, for an invariant that turns and arrivals preserve. *)
Lemma reachable_invariant (I : system → Prop) :
  I (initial M, []) →
  (∀ s ps t a p s' p', I (s, ps) → ps !! t = Some p → turn M a s p = Some (s', p') →
    I (s', <[t := p']> ps)) →
  (∀ s ps p, I (s, ps) → arrives M p = true → I (s, ps ++ [p])) →
  ∀ s, reachable s → I s.
Proof.
  intros Hstart Hturn Harrival s Hr. induction Hr as [|s s' _ IH Hs]; [done|].
  destruct Hs as [s ps t a p s' p' Ht Hp|s ps p Hp]; eauto.
Qed.

(** A turn of goroutine [t]. *)
Definition advance (t : nat) (s s' : system) : Prop :=
  ∃ p s1 p1, s.2 !! t = Some p ∧ turn M Proceed s.1 p = Some (s1, p1) ∧ s' = (s1, <[t := p1]> s.2).

Lemma advance_once t s ps p s' p' :
  ps !! t = Some p → turn M Proceed s p = Some (s', p') →
  rtc (advance t) (s, ps) (s', <[t := p']> ps) ∧ <[t := p']> ps !! t = Some p'.
Proof.
  intros Hp Ht. split; [apply rtc_once; by exists p, s', p'|].
  apply list_lookup_insert_eq. by eapply lookup_lt_Some.
Qed.

Lemma advance_turn t s ps p :
  ps !! t = Some p → is_Some (turn M Proceed s p) → ∃ t s', advance t (s, ps) s'.
Proof. intros Hp [[s' p'] Ht]. exists t, (s', <[t := p']> ps), p, s', p'. done. Qed.

Lemma rtc_advance_first t s s' p :
  rtc (advance t) s s' → s'.2 !! t = Some p → s.2 !! t ≠ Some p → ∃ s1, advance t s s1.
Proof. intros [|s0 s1 s2 Hs _] Hp Hn; [done|by exists s1]. Qed.

(** A turn of any goroutine already there, of those that are allowed. *)
Section moves.
Context (allowed : action → phase M → bool).

Definition moves (s s' : system) : Prop :=
  ∃ t a p s1 p1, allowed a p = true ∧ s.2 !! t = Some p ∧ turn M a s.1 p = Some (s1, p1) ∧ s' = (s1, <[t := p1]> s.2).

Lemma moves_step s s' : moves s s' → step s s'.
Proof. destruct s. intros (t & a & p & s1 & p1 & _ & Ht & Hp & ->). by eapply step_turn. Qed.

Lemma moves_then t a s ps p s1 p1 n (P : system → Prop) :
  allowed a p = true → ps !! t = Some p → turn M a s p = Some (s1, p1) →
  (∃ s2, bsteps moves n (s1, <[t := p1]> ps) s2 ∧ P s2) → ∃ s2, bsteps moves (S n) (s, ps) s2 ∧ P s2.
Proof.
  intros Ha Hp Ht (s2 & Hs & HP). exists s2. split; [|done].
  eapply bsteps_l; [|exact Hs]. exists t, a, p, s1, p1. done.
Qed.

(** What is left to do, by the state and by the phases. *)
Context (due : shared M → nat) (weight : phase M → nat).
Definition budget (s : system) : nat := due s.1 + sum_list_with weight s.2.

Lemma weight_insert ps t p p' :
  ps !! t = Some p → sum_list_with weight (<[t := p']> ps) + weight p = sum_list_with weight ps + weight p'.
Proof.
  revert t. induction ps as [|q ps IH]; intros [|t] Ht; try done; [cbn in *; simplify_eq; lia|].
  change (<[S t:=p']> (q :: ps)) with (q :: <[t:=p']> ps). cbn in Ht |- *. specialize (IH t Ht). lia.
Qed.

(** Turns that each leave less to do come to an end. *)
Lemma moves_spend n s s' :
  (∀ a s p s' p', allowed a p = true → turn M a s p = Some (s', p') → due s' + weight p' < due s + weight p) →
  nsteps moves n s s' → n + budget s' ≤ budget s.
Proof.
  intros Hless. induction 1 as [s|n s s1 s2 (t & a & p & b & p' & Ha & Ht & Hturn & ->) _ IH]; [done|].
  pose proof (Hless _ _ _ _ _ Ha Hturn). pose proof (weight_insert _ _ _ p' Ht). unfold budget in *. cbn in *. lia.
Qed.
End moves.

(** ** Executions *)

Inductive move := Call (p : phase M) | Turn (t : nat) (a : action).

Definition play (s : system) (m : move) : option system :=
  match m with
  | Call p => if arrives M p then Some (s.1, s.2 ++ [p]) else None
  | Turn t a =>
      p ← s.2 !! t;
      '(s', p') ← turn M a s.1 p;
      Some (s', <[t := p']> s.2)
  end.

Fixpoint plays (s : system) (ms : list move) : option system :=
  match ms with
  | [] => Some s
  | m :: ms => s ← play s m; plays s ms
  end.

Lemma play_step s m s' : play s m = Some s' → step s s'.
Proof.
  destruct s as [b ps], m as [p|t a]; cbn.
  - destruct (arrives M p) eqn:Hp; [|done]. intros [= <-]. by apply step_arrival.
  - intros Hp. destruct (ps !! t) as [p|] eqn:Ht; cbn in Hp; [|done].
    destruct (turn M a b p) as [[b' p']|] eqn:E; cbn in Hp; [|done]. simplify_eq. by econstructor.
Qed.

Lemma plays_reachable s ms s' : reachable s → plays s ms = Some s' → reachable s'.
Proof.
  revert s. induction ms as [|m ms IH]; cbn; intros s Hr; [by intros [= <-]|].
  destruct (play s m) as [s1|] eqn:E; cbn; [|done]. apply IH.
  eapply reachable_step; [done|by eapply play_step].
Qed.
End machine.
Arguments Call {M} p.
Arguments Turn {M} t a.

(** ** Counting goroutines *)

Section count.
Context {A : Type} (P : A → bool).

Fixpoint count (l : list A) : Z :=
  match l with
  | [] => 0
  | x :: l => Z.b2z (P x) + count l
  end.

Lemma count_insert l i x y :
  l !! i = Some x → count (<[i := y]> l) = (count l - Z.b2z (P x) + Z.b2z (P y))%Z.
Proof.
  revert i. induction l as [|z l IH]; intros [|i] Hi; try done.
  - cbn in *. simplify_eq. lia.
  - change (<[S i:=y]> (z :: l)) with (z :: <[i:=y]> l). cbn in Hi |- *. rewrite (IH i Hi). lia.
Qed.

Lemma count_snoc l x : count (l ++ [x]) = (count l + Z.b2z (P x))%Z.
Proof. induction l as [|y l IH]; cbn; lia. Qed.

Lemma count_nonneg l : (0 ≤ count l)%Z.
Proof. induction l as [|x l IH]; cbn; [done|]. destruct (P x); cbn; lia. Qed.

Lemma count_lookup l i x : l !! i = Some x → P x = true → (1 ≤ count l)%Z.
Proof.
  revert i. induction l as [|y l IH]; intros [|i] Hi Hx; try done; cbn in *.
  - simplify_eq. rewrite Hx. pose proof (count_nonneg l). cbn. lia.
  - pose proof (IH i Hi Hx). destruct (P y); cbn; lia.
Qed.

Lemma count_lookup_two l i j x y :
  l !! i = Some x → l !! j = Some y → P x = true → P y = true → i ≠ j → (2 ≤ count l)%Z.
Proof.
  revert i j. induction l as [|z l IH]; intros [|i] [|j] Hi Hj Hx Hy Hij; try done; cbn in *.
  - simplify_eq. pose proof (count_lookup _ _ _ Hj Hy). rewrite Hx. cbn. lia.
  - simplify_eq. pose proof (count_lookup _ _ _ Hi Hx). rewrite Hy. cbn. lia.
  - pose proof (IH i j Hi Hj Hx Hy ltac:(congruence)). destruct (P z); cbn; lia.
Qed.

Lemma count_exists l : (1 ≤ count l)%Z → ∃ i x, l !! i = Some x ∧ P x = true.
Proof.
  induction l as [|x l IH]; cbn; [lia|]. destruct (P x) eqn:Hx.
  - intros _. by exists 0%nat, x.
  - intros Hc. destruct IH as (i & y & ? & ?); [cbn in Hc; lia|]. by exists (S i), y.
Qed.
Lemma count_none l : (∀ t x, l !! t = Some x → P x = false) → count l = 0%Z.
Proof.
  intros HP. pose proof (count_nonneg l). destruct (decide (1 ≤ count l)%Z) as [Hn|]; [|lia].
  apply count_exists in Hn as (i & x & Hi & Hx). by rewrite (HP i x Hi) in Hx.
Qed.

End count.

(** A phase of the updated list is the new one, or an old one elsewhere. *)
Lemma lookup_insert_phase {A} (l : list A) i j x y :
  <[i := y]> l !! j = Some x → j = i ∧ x = y ∨ j ≠ i ∧ l !! j = Some x.
Proof.
  destruct (decide (j = i)) as [->|]; [|rewrite list_lookup_insert_ne by done; auto].
  intros Hx. left. split; [done|].
  apply list_lookup_insert_Some in Hx as [(_ & -> & _)|[? _]]; done.
Qed.
Lemma lookup_snoc_phase {A} (l : list A) j x y :
  (l ++ [y]) !! j = Some x → x = y ∨ l !! j = Some x.
Proof.
  intros [Hx|[_ Hx]]%lookup_app_Some; [by right|]. left.
  by apply list_lookup_singleton_Some in Hx as [_ ->].
Qed.
