(* ===== verification/GoStd.v ===== *)
(** * The parts of Go's standard library the scheduler computes with

    Strings are byte strings, as in Go: [strings.TrimSpace], [strings.ToLower],
    [strings.Contains], [strconv.Itoa]/[FormatInt]/[FormatBool]/[Quote]. The two
    Unicode tables that matter beyond ASCII (printability for [Quote], lower case
    for [ToLower]) are the class [UnicodeTables]; no result depends on their
    contents. Instants are nanoseconds since the Unix epoch, durations are int64
    nanoseconds. *)

From S2P Require Import Prelude.
From Stdlib Require Import Ascii.

(** ** Bytes *)

Definition bytes_of (s : string) : list N := map code (String.list_ascii_of_string s).
Definition string_of_bytes (l : list N) : string :=
  String.string_of_list_ascii (map Ascii.ascii_of_N l).

Lemma string_of_bytes_of s : string_of_bytes (bytes_of s) = s.
Proof.
  induction s as [|c s IH]; [done|]. unfold string_of_bytes, bytes_of in *. simpl.
  unfold code at 1. by rewrite Ascii.ascii_N_embedding, IH.
Qed.

Definition is_byte (b : N) : Prop := (b < 256)%N.

Lemma code_ascii_of_N b : is_byte b → code (Ascii.ascii_of_N b) = b.
Proof. apply Ascii.N_ascii_embedding. Qed.

Lemma bytes_of_string_of l : Forall is_byte l → bytes_of (string_of_bytes l) = l.
Proof.
  induction 1 as [|b l Hb _ IH]; [done|]. unfold string_of_bytes, bytes_of in *. simpl.
  by rewrite IH, code_ascii_of_N.
Qed.

Lemma bytes_of_bytes s : Forall is_byte (bytes_of s).
Proof.
  induction s as [|c s IH]; unfold bytes_of in *; simpl; constructor; [|done].
  apply Ascii.N_ascii_bounded.
Qed.

#[export] Instance bytes_of_inj : Inj (=) (=) bytes_of.
Proof. intros s t H. by rewrite <-(string_of_bytes_of s), H, string_of_bytes_of. Qed.

Lemma bytes_of_app s t : bytes_of (s +:+ t) = bytes_of s ++ bytes_of t.
Proof. induction s as [|c s IH]; unfold bytes_of in *; simpl; [done|]. by rewrite IH. Qed.

Lemma length_bytes_of s : length (bytes_of s) = String.length s.
Proof. induction s as [|c s IH]; unfold bytes_of in *; simpl; [done|]. by rewrite IH. Qed.

(** ** [strings.TrimSpace]

    The white space of Unicode, by its UTF-8 encodings: six ASCII bytes, U+0085
    and U+00A0 on two bytes, U+1680, U+2000..U+200A, U+2028, U+2029, U+202F, U+205F
    and U+3000 on three. An encoding at either end of the string is the rune the
    library decodes there, since no encoding is a prefix or a suffix of another. *)
Definition space1 (a : N) : bool :=
  bool_decide (a ∈ [9; 10; 11; 12; 13; 32]%N).
Definition space2 (a b : N) : bool :=
  (a =? 0xC2)%N && ((b =? 0x85)%N || (b =? 0xA0)%N).
Definition space3 (a b c : N) : bool :=
  (a =? 0xE1)%N && (b =? 0x9A)%N && (c =? 0x80)%N
  || (a =? 0xE2)%N && (b =? 0x80)%N &&
     ((0x80 <=? c)%N && (c <=? 0x8A)%N || (c =? 0xA8)%N || (c =? 0xA9)%N || (c =? 0xAF)%N)
  || (a =? 0xE2)%N && (b =? 0x81)%N && (c =? 0x9F)%N
  || (a =? 0xE3)%N && (b =? 0x80)%N && (c =? 0x80)%N.

Section strip.
Context (s1 : N → bool) (s2 : N → N → bool) (s3 : N → N → N → bool).

Fixpoint strip (l : list N) : list N :=
  match l with
  | [] => []
  | a :: l1 =>
      if s1 a then strip l1 else
      match l1 with
      | [] => l
      | b :: l2 =>
          if s2 a b then strip l2 else
          match l2 with
          | [] => l
          | c :: l3 => if s3 a b c then strip l3 else l
          end
      end
  end.

(** No white space at the front. *)
Definition stripped (l : list N) : bool :=
  match l with
  | [] => true
  | [a] => negb (s1 a)
  | [a; b] => negb (s1 a || s2 a b)
  | a :: b :: c :: _ => negb (s1 a || s2 a b || s3 a b c)
  end.

Lemma strip_stripped : ∀ l, stripped (strip l) = true.
Proof.
  fix IH 1. intros [|a l]; [done|]. simpl strip.
  destruct (s1 a) eqn:E1; [apply IH|].
  destruct l as [|b l]; [simpl; by rewrite E1|].
  destruct (s2 a b) eqn:E2; [apply IH|].
  destruct l as [|c l]; [simpl; by rewrite E1, E2|].
  destruct (s3 a b c) eqn:E3; [apply IH|]. simpl. by rewrite E1, E2, E3.
Qed.

Lemma strip_suffix : ∀ l, ∃ p, l = p ++ strip l.
Proof.
  fix IH 1. intros [|a l]; [by exists []|]. simpl strip.
  destruct (s1 a); [destruct (IH l) as [p Hp]; exists (a :: p); simpl; congruence|].
  destruct l as [|b l]; [by exists []|].
  destruct (s2 a b); [destruct (IH l) as [p Hp]; exists (a :: b :: p); simpl; congruence|].
  destruct l as [|c l]; [by exists []|].
  destruct (s3 a b c); [|by exists []].
  destruct (IH l) as [p Hp]; exists (a :: b :: c :: p); simpl; congruence.
Qed.

Lemma strip_fixed l : stripped l = true → strip l = l.
Proof.
  destruct l as [|a [|b [|c l]]]; simpl; rewrite ?negb_true_iff; [done| | |];
    intros H; bool_facts; by repeat match goal with H : _ = false |- _ => rewrite H end.
Qed.

Lemma stripped_prefix l r : stripped (l ++ r) = true → stripped l = true.
Proof.
  destruct l as [|a [|b [|c l]]]; simpl; [done| | |done];
    [destruct r as [|b [|c r]]|destruct r as [|c r]]; simpl; try done;
    rewrite ?negb_true_iff; intros H; bool_facts; rewrite ?orb_false_iff; done.
Qed.
End strip.

Definition trim_left : list N → list N := strip space1 space2 space3.
Definition trim_right (l : list N) : list N :=
  reverse (strip space1 (λ b a, space2 a b) (λ c b a, space3 a b c) (reverse l)).

Definition trim_space (s : string) : string :=
  string_of_bytes (trim_right (trim_left (bytes_of s))).

#[global] Arguments trim_space : simpl never.

Lemma trim_right_prefix l : ∃ q, l = trim_right l ++ q.
Proof.
  unfold trim_right.
  destruct (strip_suffix space1 (λ b a, space2 a b) (λ c b a, space3 a b c) (reverse l)) as [p Hp].
  exists (reverse p). rewrite <-reverse_app, <-Hp. by rewrite reverse_involutive.
Qed.

Lemma bytes_of_trim_space s : bytes_of (trim_space s) = trim_right (trim_left (bytes_of s)).
Proof.
  unfold trim_space. apply bytes_of_string_of.
  pose proof (bytes_of_bytes s) as H.
  destruct (strip_suffix space1 space2 space3 (bytes_of s)) as [p Hp].
  unfold trim_left. rewrite Hp in H. apply Forall_app in H as [_ H].
  destruct (trim_right_prefix (strip space1 space2 space3 (bytes_of s))) as [q Hq].
  rewrite Hq in H. by apply Forall_app in H as [H _].
Qed.

Lemma trim_space_idemp s : trim_space (trim_space s) = trim_space s.
Proof.
  unfold trim_space at 1. rewrite bytes_of_trim_space.
  set (l := trim_left (bytes_of s)).
  destruct (trim_right_prefix l) as [q Hq].
  assert (stripped space1 space2 space3 l = true) as Hl by apply strip_stripped.
  assert (trim_left (trim_right l) = trim_right l) as ->.
  { apply strip_fixed. rewrite Hq in Hl. by eapply stripped_prefix. }
  unfold trim_space. fold l. f_equal.
  unfold trim_right. rewrite reverse_involutive. f_equal.
  apply strip_fixed, strip_stripped.
Qed.
#[export] Hint Rewrite trim_space_idemp : sched.

(** Text of visible ASCII characters has nothing to trim. *)
Definition visible (b : N) : Prop := (0x21 ≤ b < 0x7F)%N.

Lemma visible_not_space a b c : visible a →
  space1 a = false ∧ space2 a b = false ∧ space2 b a = false ∧ space3 a b c = false
  ∧ space3 c b a = false.
Proof.
  unfold visible, space1, space2, space3. intros Ha.
  rewrite bool_decide_false.
  2:{ rewrite !elem_of_cons, elem_of_nil. lia. }
  rewrite (proj2 (N.eqb_neq a 0xC2)), (proj2 (N.eqb_neq a 0xE1)), (proj2 (N.eqb_neq a 0xE2)),
    (proj2 (N.eqb_neq a 0xE3)), (proj2 (N.eqb_neq a 0x85)), (proj2 (N.eqb_neq a 0xA0)),
    (proj2 (N.eqb_neq a 0x80)), (proj2 (N.leb_gt 0x80 a)), (proj2 (N.eqb_neq a 0xA8)),
    (proj2 (N.eqb_neq a 0xA9)), (proj2 (N.eqb_neq a 0xAF)), (proj2 (N.eqb_neq a 0x9F)) by lia.
  simpl. rewrite !andb_false_r. done.
Qed.

Lemma trim_space_visible s : Forall visible (bytes_of s) → trim_space s = s.
Proof.
  intros Hv. apply (inj bytes_of). rewrite bytes_of_trim_space. unfold trim_left.
  assert (∀ s1 s2 s3 l, (∀ a b c, visible a → s1 a = false ∧ s2 a b = false ∧ s3 a b c = false) →
    Forall visible l → strip s1 s2 s3 l = l) as Hstrip.
  { intros s1 s2 s3 l Hs Hl. apply strip_fixed.
    destruct Hl as [|a l Ha Hl]; [done|].
    destruct l as [|b [|c l]]; simpl.
    - by destruct (Hs a 0%N 0%N Ha) as (-> & _ & _).
    - by destruct (Hs a b 0%N Ha) as (-> & -> & _).
    - by destruct (Hs a b c Ha) as (-> & -> & ->). }
  rewrite Hstrip; [|by intros a b c (?&?&?&?&?)%(visible_not_space a b c)|done].
  unfold trim_right. rewrite Hstrip; [by rewrite reverse_involutive| |by apply Forall_reverse].
  intros a b c Ha. by destruct (visible_not_space a b c Ha) as (?&?&?&?&?).
Qed.

Example trim_space_ascii : trim_space (String "009" "  main  ") = "main".
Proof. vm_compute. done. Qed.
Example trim_space_wide : trim_space (string_of_bytes [0xE3; 0x80; 0x80; 0x6D; 0xC2; 0xA0]%N) = "m".
Proof. vm_compute. done. Qed.

(** ** UTF-8 *)

Definition rune_error : N := 0xFFFD.
Definition cont (b lo hi : N) : bool := (lo <=? b)%N && (b <=? hi)%N.

(** [utf8.DecodeRuneInString]: the rune and its width; width 1 with U+FFFD is an
    invalid byte. *)
Definition decode_rune (l : list N) : N * nat :=
  match l with
  | [] => (rune_error, 0)
  | b0 :: t =>
      if (b0 <? 0x80)%N then (b0, 1) else
      if (b0 <? 0xC2)%N then (rune_error, 1) else
      if (b0 <? 0xE0)%N then
        match t with
        | b1 :: _ => if cont b1 0x80 0xBF
                     then (((b0 - 0xC0) * 64 + (b1 - 0x80))%N, 2) else (rune_error, 1)
        | _ => (rune_error, 1)
        end else
      if (b0 <? 0xF0)%N then
        let lo := if (b0 =? 0xE0)%N then 0xA0%N else 0x80%N in
        let hi := if (b0 =? 0xED)%N then 0x9F%N else 0xBF%N in
        match t with
        | b1 :: b2 :: _ =>
            if cont b1 lo hi && cont b2 0x80 0xBF
            then (((b0 - 0xE0) * 4096 + (b1 - 0x80) * 64 + (b2 - 0x80))%N, 3) else (rune_error, 1)
        | _ => (rune_error, 1)
        end else
      if (b0 <? 0xF5)%N then
        let lo := if (b0 =? 0xF0)%N then 0x90%N else 0x80%N in
        let hi := if (b0 =? 0xF4)%N then 0x8F%N else 0xBF%N in
        match t with
        | b1 :: b2 :: b3 :: _ =>
            if cont b1 lo hi && cont b2 0x80 0xBF && cont b3 0x80 0xBF
            then (((b0 - 0xF0) * 262144 + (b1 - 0x80) * 4096 + (b2 - 0x80) * 64 + (b3 - 0x80))%N, 4)
            else (rune_error, 1)
        | _ => (rune_error, 1)
        end
      else (rune_error, 1)
  end.

(** [utf8.AppendRune], first for the code points UTF-8 can carry. *)
Definition encode_valid (r : N) : list N :=
  if (r <? 0x80)%N then [r] else
  if (r <? 0x800)%N then [0xC0 + r / 64; 0x80 + r mod 64]%N else
  if (r <? 0x10000)%N then
    [0xE0 + r / 4096; 0x80 + (r / 64) mod 64; 0x80 + r mod 64]%N
  else [0xF0 + r / 262144; 0x80 + (r / 4096) mod 64; 0x80 + (r / 64) mod 64; 0x80 + r mod 64]%N.

Definition surrogate (r : N) : bool := (0xD800 <=? r)%N && (r <=? 0xDFFF)%N.

Definition encode_rune (r : N) : list N :=
  encode_valid (if surrogate r || (0x10FFFF <? r)%N then rune_error else r).

(** The two Unicode tables consulted beyond ASCII: [unicode.IsPrint] and
    [unicode.ToLower]. *)
Class UnicodeTables := {
  print_table : N → bool;
  lower_table : N → N;
}.

(** A table that knows the letters outside ASCII whose lower case is ASCII. *)
Definition plain_tables : UnicodeTables :=
  {| print_table := λ r, (0xA1 <=? r)%N && negb (r =? 0xAD)%N;
     lower_table := λ r, if (r =? 0x130)%N then 0x69%N else
                         if (r =? 0x212A)%N then 0x6B%N else r |}.

(** A byte with its ASCII letter in lower case. *)
Definition fold_byte (b : N) : N := if (0x41 <=? b)%N && (b <=? 0x5A)%N then (b + 32)%N else b.

(** [strings.EqualFold] with a second argument in lower case and ASCII. The runes
    outside ASCII that fold to an ASCII letter are U+017F and U+212A. *)
Fixpoint equal_fold_bytes (t l : list N) : bool :=
  match t, l with
  | [], l => match l with [] => true | _ => false end
  | b :: t, a :: l =>
      if (fold_byte a =? b)%N then equal_fold_bytes t l else
      match l with
      | a2 :: l =>
          if (b =? 0x73)%N && (a =? 0xC5)%N && (a2 =? 0xBF)%N then equal_fold_bytes t l else
          match l with
          | a3 :: l =>
              if (b =? 0x6B)%N && (a =? 0xE2)%N && (a2 =? 0x84)%N && (a3 =? 0xAA)%N
              then equal_fold_bytes t l else false
          | [] => false
          end
      | [] => false
      end
  | _ :: _, [] => false
  end.
Definition equal_fold (s t : string) : bool := equal_fold_bytes (bytes_of t) (bytes_of s).

Section unicode.
Context `{UnicodeTables}.

Definition lower_rune (r : N) : N :=
  if (r <? 0x80)%N then
    if (0x41 <=? r)%N && (r <=? 0x5A)%N then (r + 32)%N else r
  else lower_table r.

Definition is_print (r : N) : bool :=
  if (r <? 0x80)%N then (0x20 <=? r)%N && (r <? 0x7F)%N else print_table r.

(** [strings.ToLower], a rune at a time; [skip] counts the remaining bytes of
    the rune already emitted. *)
Fixpoint to_lower_bytes (skip : nat) (l : list N) : list N :=
  match l with
  | [] => []
  | _ :: t =>
      match skip with
      | S k => to_lower_bytes k t
      | O => let '(r, w) := decode_rune l in
             encode_rune (lower_rune r) ++ to_lower_bytes (pred w) t
      end
  end.
Definition to_lower (s : string) : string := string_of_bytes (to_lower_bytes 0 (bytes_of s)).

(** *** [strconv.Quote] *)

Definition hex_digit (d : N) : N := if (d <? 10)%N then (0x30 + d)%N else (0x57 + d)%N.
Definition hex_byte (b : N) : list N := [hex_digit (b / 16); hex_digit (b mod 16)]%N.
Definition hex16 (r : N) : list N := hex_byte (r / 256)%N ++ hex_byte (r mod 256)%N.

Definition escaped_rune (r : N) : list N :=
  if (r =? 0x22)%N || (r =? 0x5C)%N then [0x5C; r]%N else
  if is_print r then encode_rune r else
  if (r =? 7)%N then [0x5C; 0x61]%N else
  if (r =? 8)%N then [0x5C; 0x62]%N else
  if (r =? 12)%N then [0x5C; 0x66]%N else
  if (r =? 10)%N then [0x5C; 0x6E]%N else
  if (r =? 13)%N then [0x5C; 0x72]%N else
  if (r =? 9)%N then [0x5C; 0x74]%N else
  if (r =? 11)%N then [0x5C; 0x76]%N else
  if (r <? 0x20)%N || (r =? 0x7F)%N then [0x5C; 0x78]%N ++ hex_byte r else
  if (r <? 0x10000)%N then [0x5C; 0x75]%N ++ hex16 r
  else [0x5C; 0x55]%N ++ hex16 (r / 65536)%N ++ hex16 (r mod 65536)%N.

Fixpoint quote_bytes (skip : nat) (l : list N) : list N :=
  match l with
  | [] => []
  | b :: t =>
      match skip with
      | S k => quote_bytes k t
      | O => let '(r, w) := decode_rune l in
             if (w =? 1)%nat && (r =? rune_error)%N
             then [0x5C; 0x78]%N ++ hex_byte b ++ quote_bytes 0 t
             else escaped_rune r ++ quote_bytes (pred w) t
      end
  end.
Definition quote (s : string) : string :=
  string_of_bytes ([0x22]%N ++ quote_bytes 0 (bytes_of s) ++ [0x22]%N).
End unicode.
#[global] Arguments to_lower {_} _ : simpl never.
#[global] Arguments quote {_} _ : simpl never.

Example to_lower_plain : @to_lower plain_tables " MAIN-é" = " main-é".
Proof. vm_compute. done. Qed.

(** ** [Quote] loses nothing

    [unquote_bytes] reads back the body of a quoted string: escapes are undone and
    every other byte stands for itself. *)
Definition hex_value (d : N) : N := if (d <? 0x61)%N then (d - 0x30)%N else (d - 0x57)%N.
Definition hex_join (h l : N) : N := (hex_value h * 16 + hex_value l)%N.

Fixpoint unquote_bytes (l : list N) : list N :=
  match l with
  | [] => []
  | a :: t =>
      if negb (a =? 0x5C)%N then a :: unquote_bytes t else
      match t with
      | [] => [a]
      | c :: t =>
          if (c =? 0x78)%N then
            match t with h :: k :: t => hex_join h k :: unquote_bytes t | _ => [] end
          else if (c =? 0x75)%N then
            match t with
            | h :: k :: m :: n :: t =>
                encode_rune (hex_join h k * 256 + hex_join m n) ++ unquote_bytes t
            | _ => [] end
          else if (c =? 0x55)%N then
            match t with
            | h :: k :: m :: n :: h' :: k' :: m' :: n' :: t =>
                encode_rune ((hex_join h k * 256 + hex_join m n) * 65536
                             + (hex_join h' k' * 256 + hex_join m' n')) ++ unquote_bytes t
            | _ => [] end
          else
            (if (c =? 0x61)%N then 7 else if (c =? 0x62)%N then 8 else
             if (c =? 0x66)%N then 12 else if (c =? 0x6E)%N then 10 else
             if (c =? 0x72)%N then 13 else if (c =? 0x74)%N then 9 else
             if (c =? 0x76)%N then 11 else c)%N :: unquote_bytes t
      end
  end.

Ltac N_facts :=
  repeat match goal with
  | H : (_ <? _)%N = true |- _ => apply N.ltb_lt in H
  | H : (_ <? _)%N = false |- _ => apply N.ltb_ge in H
  | H : (_ <=? _)%N = true |- _ => apply N.leb_le in H
  | H : (_ <=? _)%N = false |- _ => apply N.leb_gt in H
  | H : (_ =? _)%N = true |- _ => apply N.eqb_eq in H
  | H : (_ =? _)%N = false |- _ => apply N.eqb_neq in H
  end.
Ltac div_lia := zify; Z.to_euclidean_division_equations; lia.
Ltac each_element := repeat (apply List.Forall_cons; [div_lia|]); apply List.Forall_nil.

(** Evaluates the comparisons of the goal that the context decides. *)
Ltac settle := cbv zeta;
  repeat (match goal with
  | |- context [(?a <? ?b)%N] =>
      first [rewrite (proj2 (N.ltb_lt a b)) by lia | rewrite (proj2 (N.ltb_ge a b)) by lia]
  | |- context [(?a <=? ?b)%N] =>
      first [rewrite (proj2 (N.leb_le a b)) by lia | rewrite (proj2 (N.leb_gt a b)) by lia]
  | |- context [(?a =? ?b)%N] =>
      first [rewrite (proj2 (N.eqb_eq a b)) by lia | rewrite (proj2 (N.eqb_neq a b)) by lia]
  end; cbn [andb orb negb]).

Lemma hex_value_digit d : (d < 16)%N → hex_value (hex_digit d) = d.
Proof.
  unfold hex_value, hex_digit. intros Hd.
  destruct (d <? 10)%N eqn:E; N_facts; settle; lia.
Qed.

Lemma hex_join_byte b : (b < 256)%N → hex_join (hex_digit (b / 16)) (hex_digit (b mod 16)) = b.
Proof.
  intros Hb. unfold hex_join. rewrite !hex_value_digit by div_lia. div_lia.
Qed.

Lemma decode_rune_width l : l ≠ [] → (1 ≤ (decode_rune l).2 ≤ length l)%nat.
Proof.
  destruct l as [|b0 t]; [done|]. intros _. cbn [decode_rune].
  repeat (case_goal; simpl; try lia).
Qed.

Lemma encode_rune_valid r :
  (r < 0xD800 ∨ 0xDFFF < r < 0x110000)%N → encode_rune r = encode_valid r.
Proof.
  intros Hr. unfold encode_rune, surrogate.
  destruct (0xD800 <=? r)%N eqn:E1; N_facts; settle; [|done].
  destruct Hr; [lia|]. by settle.
Qed.

(** A decoded rune, an invalid byte apart, is a Unicode scalar value whose
    encoding is the bytes it was read from. *)
Lemma encode_decode_rune l r w :
  l ≠ [] → decode_rune l = (r, w) → ¬ (w = 1%nat ∧ r = rune_error) →
  (r < 0x110000)%N ∧ encode_rune r = take w l.
Proof.
  destruct l as [|b0 t]; [done|]. intros _. cbn [decode_rune]. unfold cont.
  destruct (b0 <? 0x80)%N eqn:E0.
  { intros [= <- <-] _. N_facts. rewrite encode_rune_valid by lia.
    unfold encode_valid. settle. split; [lia|done]. }
  intros Hd Hne.
  assert (∀ P : Prop, (rune_error, 1%nat) = (r, w) → P) as Hinv.
  { intros P [= <- <-]. by destruct Hne. }
  destruct (b0 <? 0xC2)%N eqn:E1; [by apply Hinv|].
  destruct (b0 <? 0xE0)%N eqn:E2.
  { destruct t as [|b1 t]; [by apply Hinv|].
    destruct ((0x80 <=? b1)%N && (b1 <=? 0xBF)%N) eqn:Eb; [|by apply Hinv].
    clear Hinv. simplify_eq. bool_facts. N_facts. rewrite encode_rune_valid by lia.
    unfold encode_valid. settle.
    split; [lia|]. cbn [take]. repeat f_equal; div_lia. }
  destruct (b0 <? 0xF0)%N eqn:E3.
  { destruct t as [|b1 [|b2 t]]; [by apply Hinv..|].
    destruct (_ && _) eqn:Eb; [|by apply Hinv].
    clear Hinv. simplify_eq. bool_facts. N_facts.
    destruct (b0 =? 0xE0)%N eqn:Ea; destruct (b0 =? 0xED)%N eqn:Ec; N_facts;
      (rewrite encode_rune_valid by lia); unfold encode_valid; settle;
      (split; [lia|]); cbn [take]; repeat f_equal; div_lia. }
  destruct (b0 <? 0xF5)%N eqn:E4; [|by apply Hinv].
  destruct t as [|b1 [|b2 [|b3 t]]]; [by apply Hinv..|].
  destruct (_ && _) eqn:Eb; [|by apply Hinv].
  clear Hinv. simplify_eq. bool_facts. N_facts.
  destruct (b0 =? 0xF0)%N eqn:Ea; destruct (b0 =? 0xF4)%N eqn:Ec; N_facts;
    (rewrite encode_rune_valid by lia); unfold encode_valid; settle;
    (split; [lia|]); cbn [take]; repeat f_equal; div_lia.
Qed.

Lemma unquote_raw l more :
  Forall (λ b, b ≠ 0x5C%N) l → unquote_bytes (l ++ more) = l ++ unquote_bytes more.
Proof.
  induction 1 as [|b l Hb _ IH]; [done|]. cbn [app unquote_bytes].
  rewrite (proj2 (N.eqb_neq _ _) Hb). cbn [negb]. by rewrite IH.
Qed.

Lemma encode_rune_raw r : r ≠ 0x5C%N → Forall (λ b, b ≠ 0x5C%N) (encode_rune r).
Proof.
  intros Hr. unfold encode_rune.
  set (r' := if surrogate r || _ then _ else r).
  assert (r' ≠ 0x5C)%N as Hr' by (unfold r', rune_error; by case_goal).
  clearbody r'. unfold encode_valid.
  repeat case_goal; N_facts; each_element.
Qed.

Lemma unquote_hex16 (r : N) t :
  (r < 65536)%N →
  ∃ h k m n, hex16 r ++ t = h :: k :: m :: n :: t ∧ (hex_join h k * 256 + hex_join m n)%N = r.
Proof.
  intros Hr. unfold hex16, hex_byte. do 4 eexists. split; [done|].
  rewrite !hex_join_byte by div_lia. div_lia.
Qed.

Section quote_facts.
Context `{UnicodeTables}.

Lemma unquote_escaped r more :
  (r < 0x110000)%N →
  unquote_bytes (escaped_rune r ++ more) = encode_rune r ++ unquote_bytes more.
Proof.
  intros Hr. unfold escaped_rune.
  destruct ((r =? 0x22)%N || (r =? 0x5C)%N) eqn:Eq.
  { apply orb_true_iff in Eq as [Eq|Eq]; apply N.eqb_eq in Eq as ->; done. }
  apply orb_false_iff in Eq as [_ E5c]. N_facts.
  destruct (is_print r); [by apply unquote_raw, encode_rune_raw|].
  do 7 (case_match eqn:E; [apply N.eqb_eq in E as ->; done|clear E]).
  destruct ((r <? 0x20)%N || (r =? 0x7F)%N) eqn:Ex.
  { assert (r < 0x80)%N by (apply orb_true_iff in Ex as [?|?]; N_facts; lia).
    unfold hex_byte. cbn [app unquote_bytes]. rewrite hex_join_byte by lia.
    rewrite encode_rune_valid by lia. unfold encode_valid. by settle. }
  destruct (r <? 0x10000)%N eqn:E16; N_facts.
  - destruct (unquote_hex16 r more) as (h & k & m & n & Heq & Hv); [lia|].
    rewrite <-!app_assoc. rewrite Heq. cbn [app unquote_bytes]. simpl.
    by rewrite Hv.
  - rewrite <-!app_assoc.
    destruct (unquote_hex16 (r mod 65536) more) as (h & k & m & n & Heq & Hv); [div_lia|].
    rewrite Heq.
    destruct (unquote_hex16 (r / 65536) (h :: k :: m :: n :: more))
      as (h' & k' & m' & n' & Heq' & Hv'); [div_lia|].
    rewrite Heq'. simpl. rewrite Hv, Hv'.
    do 2 f_equal. div_lia.
Qed.

Lemma quote_bytes_skip k l : quote_bytes k l = quote_bytes 0 (drop k l).
Proof.
  revert l. induction k as [|k IH]; intros l; [done|]. destruct l as [|b t]; [done|].
  simpl. apply IH.
Qed.

Lemma unquote_quote_bytes l : Forall is_byte l → unquote_bytes (quote_bytes 0 l) = l.
Proof.
  remember (length l) as n eqn:Hn. revert l Hn.
  induction (lt_wf n) as [n _ IH]. intros l -> Hl.
  destruct l as [|b t]; [done|]. cbn [quote_bytes].
  pose proof (decode_rune_width (b :: t)) as Hw.
  destruct (decode_rune (b :: t)) as [r w] eqn:Hd. simpl in Hw.
  inv Hl as [|? ? Hb Ht].
  destruct ((w =? 1)%nat && (r =? rune_error)%N) eqn:Ebad.
  { unfold hex_byte. cbn [app unquote_bytes]. simpl. rewrite hex_join_byte by done.
    f_equal. apply (IH (length t)); [simpl; lia|done|done]. }
  assert (¬ (w = 1%nat ∧ r = rune_error)) as Hok.
  { intros [-> ->]. by rewrite Nat.eqb_refl, N.eqb_refl in Ebad. }
  destruct (encode_decode_rune (b :: t) r w) as [Hr Henc]; [done..|].
  rewrite unquote_escaped, Henc by done. rewrite quote_bytes_skip.
  specialize (Hw ltac:(done)).
  rewrite (IH (length (drop (pred w) t))); [| |done|by apply Forall_drop].
  - destruct w as [|w]; [lia|]. simpl. by rewrite take_drop.
  - rewrite length_drop. simpl. lia.
Qed.

Lemma hex_byte_bytes b : (b < 256)%N → Forall is_byte (hex_byte b).
Proof.
  intros Hb. unfold hex_byte, hex_digit, is_byte.
  repeat (apply List.Forall_cons; [case_goal; N_facts; div_lia|]). apply List.Forall_nil.
Qed.

Lemma encode_rune_bytes r : Forall is_byte (encode_rune r).
Proof.
  unfold encode_rune, is_byte.
  set (r' := if surrogate r || _ then _ else r).
  assert (r' < 0x110000)%N.
  { unfold r', rune_error. case_goal; [lia|]. bool_facts. N_facts. lia. }
  clearbody r'. unfold encode_valid.
  repeat case_goal; N_facts; each_element.
Qed.

Lemma hex16_bytes r : (r < 65536)%N → Forall is_byte (hex16 r).
Proof. intros Hr. apply Forall_app; split; apply hex_byte_bytes; div_lia. Qed.

Lemma escaped_rune_bytes r : (r < 0x110000)%N → Forall is_byte (escaped_rune r).
Proof.
  intros Hr. unfold escaped_rune.
  destruct ((r =? 0x22)%N || (r =? 0x5C)%N) eqn:Eq.
  { apply orb_true_iff in Eq as [Eq|Eq]; apply N.eqb_eq in Eq as ->; by repeat constructor. }
  case_match; [apply encode_rune_bytes|].
  do 7 (case_match; [by repeat constructor|]).
  case_match eqn:Ex.
  { assert (r < 0x80)%N by (apply orb_true_iff in Ex as [?|?]; N_facts; lia).
    constructor; [done|]. constructor; [done|]. apply hex_byte_bytes. lia. }
  case_match; N_facts; do 2 (constructor; [done|]); [apply hex16_bytes; lia|].
  apply Forall_app; split; apply hex16_bytes; div_lia.
Qed.

Lemma quote_bytes_bytes k l : Forall is_byte l → Forall is_byte (quote_bytes k l).
Proof.
  intros Hl. revert k. induction Hl as [|b t Hb Ht IH]; intros k; [done|].
  destruct k as [|k]; [|apply IH]. cbn [quote_bytes].
  destruct (decode_rune (b :: t)) as [r w] eqn:Hd.
  destruct ((w =? 1)%nat && (r =? rune_error)%N) eqn:Ebad.
  { constructor; [done|]. constructor; [done|].
    apply Forall_app; split; [by apply hex_byte_bytes|apply IH]. }
  apply Forall_app; split; [apply escaped_rune_bytes|apply IH].
  destruct (encode_decode_rune (b :: t) r w) as [Hr _]; [done..| |done].
  intros [-> ->]. by rewrite Nat.eqb_refl, N.eqb_refl in Ebad.
Qed.

#[export] Instance quote_inj : Inj (=) (=) quote.
Proof.
  intros s t Hq. unfold quote in Hq. apply (inj bytes_of).
  assert (∀ u, Forall is_byte ([0x22]%N ++ quote_bytes 0 (bytes_of u) ++ [0x22]%N)) as Hb.
  { intros u. constructor; [done|]. apply Forall_app; split; [|by repeat constructor].
    apply quote_bytes_bytes, bytes_of_bytes. }
  apply (f_equal bytes_of) in Hq. rewrite !bytes_of_string_of in Hq by done.
  injection Hq as Hq. apply app_inj_2 in Hq as [Hq _]; [|done].
  apply (f_equal unquote_bytes) in Hq.
  by rewrite !unquote_quote_bytes in Hq by apply bytes_of_bytes.
Qed.
End quote_facts.

Example quote_plain : @quote plain_tables "k-1 é" =
  string_of_bytes [0x22; 0x6B; 0x2D; 0x31; 0x20; 0xC3; 0xA9; 0x22]%N.
Proof. vm_compute. done. Qed.

(** ** Numbers as text *)

Definition format_int (z : Z) : string := pretty z.
#[global] Arguments format_int : simpl never.
Definition format_bool (b : bool) : string := if b then "true" else "false".

#[export] Instance format_int_inj : Inj (=) (=) format_int.
Proof. unfold format_int. apply _. Qed.

(** Decimal text is made of digits and the minus sign. *)
Definition numeric_char (c : Ascii.ascii) : bool :=
  bool_decide (c = "-"%char) || (0x30 <=? code c)%N && (code c <=? 0x39)%N.
Fixpoint numeric (s : string) : bool :=
  match s with EmptyString => true | String c s => numeric_char c && numeric s end.

Lemma numeric_pretty_N_go x s : numeric s = true → numeric (pretty_N_go x s) = true.
Proof.
  revert s. induction (N.lt_wf_0 x) as [x _ IH]; intros s Hs.
  assert (x = 0 ∨ 0 < x)%N as [->|Hx] by lia; [by rewrite pretty_N_go_0|].
  rewrite pretty_N_go_step by done. apply IH; [by apply N.div_lt|].
  simpl. rewrite Hs, andb_true_r. unfold pretty_N_char. by repeat case_match.
Qed.

Lemma numeric_format_int z : numeric (format_int z) = true.
Proof.
  assert (∀ x : N, numeric (pretty x) = true) as HN.
  { intros x. unfold pretty, pretty_N. case_decide; [done|]. by apply numeric_pretty_N_go. }
  destruct z; [done|apply HN|apply HN].
Qed.

Lemma string_cons_inj c d s t : String c s = String d t → c = d ∧ s = t.
Proof. by intros [= -> ->]. Qed.

(** Text up to a separator that is not numeric determines both sides. *)
Lemma numeric_split c a1 a2 b1 b2 :
  numeric_char c = false → numeric a1 = true → numeric a2 = true →
  a1 +:+ String c b1 = a2 +:+ String c b2 → a1 = a2 ∧ b1 = b2.
Proof.
  intros Hc. revert a2. induction a1 as [|x a1 IH]; intros [|y a2]; simpl; intros H1 H2 Heq.
  - by simplify_eq.
  - apply string_cons_inj in Heq as [<- _]. by rewrite Hc in H2.
  - apply string_cons_inj in Heq as [-> _]. by rewrite Hc in H1.
  - apply string_cons_inj in Heq as [-> Heq]. bool_facts.
    destruct (IH a2) as [-> ->]; done.
Qed.

Lemma string_app_assoc (a b c : string) : (a +:+ b) +:+ c = a +:+ b +:+ c.
Proof.
  induction a as [|x a IH]; [done|].
  change (String x ((a +:+ b) +:+ c) = String x (a +:+ b +:+ c)). by rewrite IH.
Qed.

Lemma string_app_inj_len (a1 a2 b1 b2 : string) :
  String.length a1 = String.length a2 → a1 +:+ b1 = a2 +:+ b2 → a1 = a2 ∧ b1 = b2.
Proof.
  revert a2. induction a1 as [|x a1 IH]; intros [|y a2]; simpl; try done.
  intros [= Hlen] [= -> Heq]. by destruct (IH a2 Hlen Heq) as [-> ->].
Qed.

(** ** int64 and time *)

Definition wrap64 (z : Z) : Z := ((z + 2 ^ 63) mod 2 ^ 64 - 2 ^ 63)%Z.
Definition in_int64 (z : Z) : Prop := (- 2 ^ 63 ≤ z < 2 ^ 63)%Z.

Lemma wrap64_id z : in_int64 z → wrap64 z = z.
Proof. unfold in_int64, wrap64. intros H. rewrite Z.mod_small by lia. lia. Qed.

(** [time.Time] as nanoseconds since the Unix epoch; the zero value is the first
    instant of year 1. *)
Abbreviation time := Z (only parsing).
Definition zero_time : time := (-62135596800 * 1000000000)%Z.
Definition is_zero_time (t : time) : bool := (t =? zero_time)%Z.
Definition before (t u : time) : bool := (t <? u)%Z.
Definition after (t u : time) : bool := (u <? t)%Z.
Definition unix_nano (t : time) : Z := wrap64 t.

(** [time.Duration], an int64 of nanoseconds; [t.Sub(u)] saturates. *)
Abbreviation duration := Z (only parsing).
Definition millisecond : duration := 1000000%Z.
Definition second : duration := 1000000000%Z.
Definition minute : duration := (60 * second)%Z.
Definition hour : duration := (60 * minute)%Z.
Definition sub_time (t u : time) : duration :=
  Z.max (- 2 ^ 63) (Z.min (2 ^ 63 - 1) (t - u)).

(** ** Substrings *)

(** [strings.TrimPrefix] *)
Fixpoint trim_prefix (s prefix : string) : string :=
  match prefix, s with
  | EmptyString, _ => s
  | String c p, String d t => if bool_decide (c = d) && String.prefix p t then trim_prefix t p else s
  | String _ _, EmptyString => s
  end.

(** [strings.Contains] *)
Fixpoint contains (s sub : string) : bool :=
  String.prefix sub s || match s with EmptyString => false | String _ t => contains t sub end.

Lemma prefix_iff p s : String.prefix p s = true ↔ ∃ rest, s = p +:+ rest.
Proof.
  revert s. induction p as [|c p IH]; intros s; [split; [by exists s|by destruct s]|]. destruct s as [|d s]; cbn; [split; [done|by intros [? ?]]|].
  destruct (ascii_dec c d) as [->|Hne]; [|split; [done|intros [rest [= ? _]]; congruence]].
  rewrite IH. split; intros [rest E]; exists rest; [by rewrite E|by injection E].
Qed.

(** The text occurs. *)
Lemma contains_iff s sub : contains s sub = true ↔ ∃ before after, s = before +:+ sub +:+ after.
Proof.
  induction s as [|c s IH]; cbn [contains]; rewrite orb_true_iff, prefix_iff.
  - split.
    + intros [[rest E]|?]; [by exists "", rest|done].
    + intros ([|] & after & E); [left; by exists after|done].
  - rewrite IH. split.
    + intros [[rest E]|(before & after & ->)]; [by exists "", rest|by exists (String c before), after].
    + intros ([|d before] & after & E); [left; by exists after|]. injection E as -> ->. right. by exists before, after.
Qed.

Example trim_prefix_command : trim_prefix "cmd-4f" "cmd-" = "4f" ∧ trim_prefix "cm-4f" "cmd-" = "cm-4f".
Proof. by vm_compute. Qed.
Example contains_status : contains "server returned 503" "returned 5" = true.
Proof. by vm_compute. Qed.

(** * Addresses, and strings that differ by case

    What the source uses of [net/url], [net] and [strings.EqualFold]. *)

(** [net/url.Parse]: scheme, host name and port, of the addresses it accepts. *)
Class UrlParser := url_parse : string → option (string * string * string).

(** [net.JoinHostPort] *)
Definition join_host_port (host port : string) : string :=
  if contains host ":" then "[" +:+ host +:+ "]:" +:+ port else host +:+ ":" +:+ port.

(** The scheme and the host of an address in lower case, and the port unless it is the
    scheme's own. *)
Definition strip_default_port (scheme port : string) : string :=
  if (bool_decide (scheme = "https") && bool_decide (port = "443"))
     || (bool_decide (scheme = "http") && bool_decide (port = "80")) then "" else port.
Definition origin_of (scheme host port : string) : string :=
  let port := strip_default_port scheme port in
  scheme +:+ "://" +:+ (if bool_decide (port = "") then host else join_host_port host port).

(** The least rune of the orbit of [unicode.SimpleFold], for the runes beyond ASCII. *)
Class FoldTable := fold_table : N → N.

(** Knows the two runes that fold to an ASCII letter. *)
Definition plain_folds : FoldTable := λ r,
  if (r =? 0x17F)%N then 0x53%N else if (r =? 0x212A)%N then 0x4B%N else r.

Section fold.
Context `{FoldTable}.

Definition fold_rune (r : N) : N :=
  if (r <? 0x80)%N then if (0x61 <=? r)%N && (r <=? 0x7A)%N then (r - 32)%N else r
  else fold_table r.

(** The folded runes of a text; [skip] counts the bytes left of the rune before. *)
Fixpoint folded (skip : nat) (l : list N) : list N :=
  match l with
  | [] => []
  | _ :: t =>
      match skip with
      | S k => folded k t
      | O => let '(r, w) := decode_rune l in fold_rune r :: folded (pred w) t
      end
  end.

(** [strings.EqualFold] *)
Definition EqualFold (s t : string) : bool :=
  bool_decide (folded 0 (bytes_of s) = folded 0 (bytes_of t)).
End fold.

Example EqualFold_case : @EqualFold plain_folds "OpenAI" "oPENai" = true.
Proof. vm_compute. done. Qed.
Example EqualFold_kelvin : @EqualFold plain_folds (string_of_bytes [0xE2; 0x84; 0xAA]%N) "k" = true.
Proof. vm_compute. done. Qed.
