(* ===== verification/Float.v ===== *)
(** * Go's [float64]

    IEEE 754 binary64 with rounding to nearest even, on the executable arithmetic of
    [SpecFloat]: the operators of the language, the comparisons (false on NaN), and
    the parts of package [math] the source calls. A constant of the source is the
    nearest double. *)

From S2P Require Import Prelude.
From Stdlib Require Export SpecFloat.

(** [float64] *)
Abbreviation float64 := spec_float (only parsing).

Declare Scope float_scope.
Delimit Scope float_scope with float.

Definition precision : Z := 53.
Definition max_exponent : Z := 1024.

(** [m * 2^e], rounded. *)
Definition dyadic (m e : Z) : float64 := binary_normalize precision max_exponent m e false.

(** [float64(n)] of an integer. *)
Definition of_int (n : Z) : float64 := dyadic n 0.

Definition fadd : float64 → float64 → float64 := SFadd precision max_exponent.
Definition fsub : float64 → float64 → float64 := SFsub precision max_exponent.
Definition fmul : float64 → float64 → float64 := SFmul precision max_exponent.
Definition fdiv : float64 → float64 → float64 := SFdiv precision max_exponent.

Definition flt (x y : float64) : bool := SFltb x y.
Definition fle (x y : float64) : bool := SFleb x y.

Notation "x + y" := (fadd x y) : float_scope.
Notation "x - y" := (fsub x y) : float_scope.
Notation "x * y" := (fmul x y) : float_scope.
Notation "x / y" := (fdiv x y) : float_scope.
Notation "x <? y" := (flt x y) : float_scope.
Notation "x <=? y" := (fle x y) : float_scope.
Notation "x >? y" := (flt y x) (only parsing) : float_scope.
Notation "x >=? y" := (fle y x) (only parsing) : float_scope.

(** [math.Max] and [math.Min]: an infinity wins over NaN, and the zeros are ordered
    by their signs. *)
Definition fmax (x y : float64) : float64 :=
  match x, y with
  | S754_infinity false, _ | _, S754_infinity false => S754_infinity false
  | S754_nan, _ | _, S754_nan => S754_nan
  | S754_zero sx, S754_zero _ => if sx then y else x
  | _, _ => if flt y x then x else y
  end.
Definition fmin (x y : float64) : float64 :=
  match x, y with
  | S754_infinity true, _ | _, S754_infinity true => S754_infinity true
  | S754_nan, _ | _, S754_nan => S754_nan
  | S754_zero sx, S754_zero _ => if sx then x else y
  | _, _ => if flt x y then x else y
  end.

(** [int(math.Ceil(x))] of a finite [x]; the conversion of anything else is not
    specified by the language. *)
Definition ceil_int (x : float64) : Z :=
  match x with
  | S754_finite s m e =>
      let m := if s then Z.neg m else Z.pos m in
      if (0 <=? e)%Z then (m * 2 ^ e)%Z else (- (- m / 2 ^ (- e)))%Z
  | _ => 0
  end.


#[global] Arguments dyadic _ _ : simpl never.
#[global] Arguments of_int _ : simpl never.
#[global] Arguments fadd _ _ : simpl never.
#[global] Arguments fsub _ _ : simpl never.
#[global] Arguments fmul _ _ : simpl never.
#[global] Arguments fdiv _ _ : simpl never.
#[global] Arguments flt _ _ : simpl never.
#[global] Arguments fle _ _ : simpl never.
#[global] Arguments fmax _ _ : simpl never.
#[global] Arguments fmin _ _ : simpl never.
#[global] Arguments ceil_int _ : simpl never.

Example ceil_of_fraction : ceil_int (dyadic 9 (-2)) = 3%Z ∧ ceil_int (dyadic (-9) (-2)) = (-2)%Z.
Proof. by vm_compute. Qed.
Example third : fmul (fdiv (of_int 1) (of_int 3)) (of_int 3) = of_int 1.
Proof. by vm_compute. Qed.

#[export] Instance float64_eq_dec : EqDecision float64.
Proof. solve_decision. Defined.

(** ** Shares

    [float64(part) / float64(whole) * 100], the percentage of the source. *)
Definition percentage (part whole : Z) : float64 :=
  (of_int part / of_int whole * of_int 100)%float.
#[global] Arguments percentage _ _ : simpl never.

(** ** Order

    [flt] compares exponents before mantissas, so it is transitive on all values. *)
Lemma flt_trans x y z : flt x y = true → flt y z = true → flt x z = true.
Proof.
  assert (∀ m n, PosDef.Pos.compare_cont Eq m n = Pos.compare m n) as Hcmp by done.
  unfold flt, SFltb, SFcompare.
  destruct x as [[]|[]| |[] m1 e1], y as [[]|[]| |[] m2 e2], z as [[]|[]| |[] m3 e3]; cbn; try done;
  destruct (Z.compare_spec e1 e2), (Z.compare_spec e2 e3), (Z.compare_spec e1 e3); try done; try lia;
  rewrite (Hcmp m1 m2), (Hcmp m2 m3), (Hcmp m1 m3); destruct (Pos.compare_spec m1 m2), (Pos.compare_spec m2 m3), (Pos.compare_spec m1 m3); try done; try lia.
Qed.
