(* ===== verification/TimeText.v ===== *)
(** * Instants as text

    [time.Time.Format] and [time.Parse] with [time.RFC3339Nano], as [formatTime] and
    [parseTime] of [internal/store/store.go] use them: the store keeps every instant as
    such a text and compares the texts. The date is the proleptic Gregorian one; the
    fraction of a second is written without its trailing zeros. *)

From S2P Require Import Prelude GoStd.
From Stdlib Require Import Ascii.

(** ** Calendar dates

    A day is counted from 0000-03-01, so that the leap day ends the year: eras of 400
    years, centuries, groups of four years and years; then months of the year that
    begins in March. *)

Definition epoch_shift : Z := 719468.  (* days from 0000-03-01 to 1970-01-01 *)

Record march_date := mkMarch { md_year : Z; md_day : Z (* of the year, from 0 *) }.

Definition march_of_days (z : Z) : march_date :=
  let era := (z / 146097)%Z in
  let doe := (z mod 146097)%Z in
  let c := Z.min (doe / 36524) 3 in
  let doc := (doe - c * 36524)%Z in
  let q := (doc / 1461)%Z in
  let doq := (doc mod 1461)%Z in
  let y := Z.min (doq / 365) 3 in
  mkMarch (400 * era + 100 * c + 4 * q + y) (doq - y * 365).

Definition days_of_march (d : march_date) : Z :=
  (365 * md_year d + md_year d / 4 - md_year d / 100 + md_year d / 400 + md_day d)%Z.

(** Months counted from January of year 0, and the day of the month from 1. *)
Definition month_day (d : march_date) : Z * Z :=
  let mp := ((5 * md_day d + 2) / 153)%Z in
  (12 * md_year d + mp + 2, md_day d - (153 * mp + 2) / 5 + 1)%Z.

Definition march_of_month (month day : Z) : march_date :=
  let y := ((month - 2) / 12)%Z in
  let mp := ((month - 2) mod 12)%Z in
  mkMarch y ((153 * mp + 2) / 5 + day - 1).

Lemma march_parts z :
  ∃ era c q y, (0 ≤ c ≤ 3 ∧ 0 ≤ q ≤ 24 ∧ 0 ≤ y ≤ 3)%Z
  ∧ md_year (march_of_days z) = (400 * era + 100 * c + 4 * q + y)%Z
  ∧ (0 ≤ md_day (march_of_days z) ≤ 365)%Z
  ∧ (md_day (march_of_days z) = 365 → y = 3 ∧ (q < 24 ∨ c = 3))%Z
  ∧ (z = 146097 * era + 36524 * c + 1461 * q + 365 * y + md_day (march_of_days z))%Z.
Proof.
  unfold march_of_days. cbn [md_year md_day].
  set (era := (z / 146097)%Z). set (doe := (z mod 146097)%Z).
  set (c := Z.min (doe / 36524) 3). set (doc := (doe - c * 36524)%Z).
  set (q := (doc / 1461)%Z). set (doq := (doc mod 1461)%Z). set (y := Z.min (doq / 365) 3).
  exists era, c, q, y.
  assert (0 ≤ doe < 146097 ∧ z = 146097 * era + doe)%Z as [Hdoe Hz]
    by (unfold era, doe; Z.to_euclidean_division_equations; lia).
  assert (0 ≤ c ≤ 3 ∧ 0 ≤ doc < 36525)%Z as [Hc Hdoc]
    by (unfold doc, c; Z.to_euclidean_division_equations; lia).
  assert (0 ≤ q ≤ 24 ∧ 0 ≤ doq < 1461 ∧ doc = 1461 * q + doq)%Z as (Hq & Hdoq & Hdq)
    by (unfold q, doq; Z.to_euclidean_division_equations; lia).
  assert (0 ≤ y ≤ 3 ∧ 0 ≤ doq - y * 365 ≤ 365)%Z as [Hy Hd]
    by (unfold y; Z.to_euclidean_division_equations; lia).
  assert (doq - y * 365 = 365 → y = 3 ∧ (q < 24 ∨ c = 3))%Z
    by (unfold y, doc, c in *; Z.to_euclidean_division_equations; lia).
  split_and!; try lia.
Qed.

(** A count of days from its parts. *)
Lemma days_of_march_parts n era c q y day :
  (0 ≤ c ≤ 3 ∧ 0 ≤ q ≤ 24 ∧ 0 ≤ y ≤ 3)%Z → n = (400 * era + 100 * c + 4 * q + y)%Z →
  days_of_march (mkMarch n day) = (146097 * era + 36524 * c + 1461 * q + 365 * y + day)%Z.
Proof.
  intros Hb Hn. unfold days_of_march. cbn [md_year md_day].
  assert (n / 4 = 100 * era + 25 * c + q)%Z as ->
    by (symmetry; apply (Z.div_unique_pos _ _ _ y); lia).
  assert (n / 100 = 4 * era + c)%Z as ->
    by (symmetry; apply (Z.div_unique_pos _ _ _ (4 * q + y)); lia).
  assert (n / 400 = era)%Z as ->
    by (symmetry; apply (Z.div_unique_pos _ _ _ (100 * c + 4 * q + y)); lia).
  lia.
Qed.

Lemma days_of_march_of_days z : days_of_march (march_of_days z) = z.
Proof.
  destruct (march_parts z) as (era & c & q & y & Hb & Hyear & _ & _ & Hz).
  destruct (march_of_days z) as [n day] eqn:E. cbn [md_year md_day] in *.
  rewrite (days_of_march_parts n era c q y day Hb Hyear). lia.
Qed.

(** Every year but a leap one has 365 days. *)
Lemma march_of_days_of_march d :
  (0 ≤ md_day d ≤ 364)%Z → march_of_days (days_of_march d) = d.
Proof.
  destruct d as [n day]. cbn [md_day]. intros Hd.
  set (era := (n / 400)%Z). set (c := (n mod 400 / 100)%Z).
  set (q := (n mod 100 / 4)%Z). set (y := (n mod 4)%Z).
  assert ((0 ≤ c ≤ 3 ∧ 0 ≤ q ≤ 24 ∧ 0 ≤ y ≤ 3) ∧ n = 400 * era + 100 * c + 4 * q + y)%Z as [Hb Hn]
    by (unfold era, c, q, y; Z.to_euclidean_division_equations; lia).
  rewrite (days_of_march_parts n era c q y day Hb Hn). clearbody era c q y.
  unfold march_of_days.
  assert ((146097 * era + 36524 * c + 1461 * q + 365 * y + day) / 146097 = era)%Z as ->
    by (symmetry; apply (Z.div_unique_pos _ _ _ (36524 * c + 1461 * q + 365 * y + day)); lia).
  assert ((146097 * era + 36524 * c + 1461 * q + 365 * y + day) mod 146097
    = 36524 * c + 1461 * q + 365 * y + day)%Z as ->
    by (symmetry; apply (Z.mod_unique_pos _ _ era); lia).
  assert (Z.min ((36524 * c + 1461 * q + 365 * y + day) / 36524) 3 = c)%Z as -> by
    (Z.to_euclidean_division_equations; lia).
  replace (36524 * c + 1461 * q + 365 * y + day - c * 36524)%Z with (1461 * q + 365 * y + day)%Z by lia.
  assert ((1461 * q + 365 * y + day) / 1461 = q)%Z as ->
    by (symmetry; apply (Z.div_unique_pos _ _ _ (365 * y + day)); lia).
  assert ((1461 * q + 365 * y + day) mod 1461 = 365 * y + day)%Z as ->
    by (symmetry; apply (Z.mod_unique_pos _ _ q); lia).
  assert (Z.min ((365 * y + day) / 365) 3 = y)%Z as -> by (Z.to_euclidean_division_equations; lia).
  f_equal; lia.
Qed.

Lemma month_day_bounds d :
  (0 ≤ md_day d ≤ 365)%Z →
  let '(month, day) := month_day d in
  (1 ≤ day ≤ 31)%Z ∧ march_of_month month day = d
  ∧ (12 * md_year d + 2 ≤ month ≤ 12 * md_year d + 13)%Z.
Proof.
  intros Hd. unfold month_day, march_of_month. destruct d as [y n]; cbn [md_year md_day] in *.
  set (mp := ((5 * n + 2) / 153)%Z).
  assert (0 ≤ mp ≤ 11 ∧ 0 ≤ n - (153 * mp + 2) / 5 ≤ 30)%Z as [Hmp Hday]
    by (unfold mp; Z.to_euclidean_division_equations; lia).
  split_and!; try lia.
  assert ((12 * y + mp + 2 - 2) / 12 = y)%Z as ->
    by (symmetry; apply (Z.div_unique_pos _ _ _ mp); lia).
  assert ((12 * y + mp + 2 - 2) mod 12 = mp)%Z as ->
    by (symmetry; apply (Z.mod_unique_pos _ _ y); lia).
  f_equal. lia.
Qed.

(** The days of a year precede the next year. *)
Lemma march_year_start n m : (n ≤ m)%Z → (days_of_march (mkMarch n 0) ≤ days_of_march (mkMarch m 0))%Z.
Proof. unfold days_of_march. cbn [md_year md_day]. intros. Z.to_euclidean_division_equations. lia. Qed.

Lemma march_year_end z :
  (days_of_march (mkMarch (md_year (march_of_days z)) 0) ≤ z
   < days_of_march (mkMarch (md_year (march_of_days z) + 1) 0))%Z.
Proof.
  destruct (march_parts z) as (e & c & q & y & Hb & Hy & Hd & Hl & Hz).
  rewrite (days_of_march_parts _ e c q y 0 Hb Hy). split; [lia|].
  destruct (decide (y = 3)%Z); [|rewrite (days_of_march_parts _ e c q (y + 1) 0) by lia; lia].
  destruct (decide (q = 24)%Z); [|rewrite (days_of_march_parts _ e c (q + 1) 0 0) by lia; lia].
  destruct (decide (c = 3)%Z); [|rewrite (days_of_march_parts _ e (c + 1) 0 0 0) by lia; lia].
  rewrite (days_of_march_parts _ (e + 1) 0 0 0 0) by lia. lia.
Qed.

(** Lexicographic order on years and days, and on months and days, is the order of the
    days. *)
Lemma march_order z1 z2 :
  (z1 < z2)%Z →
  (md_year (march_of_days z1) < md_year (march_of_days z2)
   ∨ md_year (march_of_days z1) = md_year (march_of_days z2)
     ∧ md_day (march_of_days z1) < md_day (march_of_days z2))%Z.
Proof.
  intros Hz. pose proof (march_year_end z1) as H1. pose proof (march_year_end z2) as H2.
  pose proof (days_of_march_of_days z1) as E1. pose proof (days_of_march_of_days z2) as E2.
  destruct (march_of_days z1) as [n1 d1], (march_of_days z2) as [n2 d2]. cbn [md_year md_day] in *.
  destruct (Z.lt_trichotomy n1 n2) as [?|[->|?]]; [by left| |].
  - right. split; [done|]. unfold days_of_march in E1, E2. cbn [md_year md_day] in E1, E2. lia.
  - pose proof (march_year_start (n2 + 1) n1). lia.
Qed.

Lemma month_day_order z1 z2 :
  (z1 < z2)%Z →
  ((month_day (march_of_days z1)).1 < (month_day (march_of_days z2)).1
   ∨ (month_day (march_of_days z1)).1 = (month_day (march_of_days z2)).1
     ∧ (month_day (march_of_days z1)).2 < (month_day (march_of_days z2)).2)%Z.
Proof.
  intros Hz%march_order.
  destruct (march_parts z1) as (? & ? & ? & ? & _ & _ & Hd1 & _).
  destruct (march_parts z2) as (? & ? & ? & ? & _ & _ & Hd2 & _).
  destruct (march_of_days z1) as [n1 d1], (march_of_days z2) as [n2 d2]. cbn [md_year md_day] in *.
  unfold month_day. cbn [fst snd md_year md_day]. Z.to_euclidean_division_equations. lia.
Qed.

(** The days of a month, the first of which is that of the month. *)
Definition days_in (month : Z) : Z :=
  (days_of_march (march_of_month (month + 1) 1) - days_of_march (march_of_month month 1))%Z.

Example days_in_months :
  map days_in (seqZ (12 * 2023) 12) = [31; 28; 31; 30; 31; 30; 31; 31; 30; 31; 30; 31]%Z
  ∧ map days_in [12 * 2024 + 1; 12 * 1900 + 1; 12 * 2000 + 1]%Z = [29; 28; 29]%Z.
Proof. by vm_compute. Qed.

Lemma march_of_month_day month :
  (0 ≤ md_day (march_of_month month 1) ≤ 337)%Z.
Proof. unfold march_of_month. cbn [md_day]. Z.to_euclidean_division_equations. lia. Qed.

Lemma month_day_of_month month : month_day (march_of_month month 1) = (month, 1%Z).
Proof.
  unfold month_day, march_of_month. cbn [md_year md_day].
  set (y := ((month - 2) / 12)%Z). set (mp := ((month - 2) mod 12)%Z).
  assert (month = 12 * y + mp + 2 ∧ 0 ≤ mp ≤ 11)%Z as [Hm Hmp]
    by (unfold y, mp; Z.to_euclidean_division_equations; lia). clearbody y mp. subst month.
  assert ((5 * ((153 * mp + 2) / 5 + 1 - 1) + 2) / 153 = mp)%Z as ->
    by (Z.to_euclidean_division_equations; lia).
  f_equal. lia.
Qed.

Lemma month_day_in_month z :
  ((month_day (march_of_days z)).2 ≤ days_in (month_day (march_of_days z)).1)%Z.
Proof.
  destruct (march_parts z) as (? & ? & ? & ? & _ & _ & Hd & _).
  pose proof (month_day_bounds (march_of_days z) Hd) as Hb.
  destruct (month_day (march_of_days z)) as [month day] eqn:E. destruct Hb as (_ & Hm & _). cbn [fst snd].
  assert (z = days_of_march (march_of_month month 1) + day - 1)%Z as Hz.
  { rewrite <-(days_of_march_of_days z), <-Hm. unfold days_of_march, march_of_month. cbn [md_year md_day]. lia. }
  destruct (decide (day ≤ days_in month)%Z) as [|Hlt]; [done|]. exfalso.
  set (next := days_of_march (march_of_month (month + 1) 1)).
  assert (month_day (march_of_days next) = (month + 1, 1)%Z) as Hnext.
  { unfold next. rewrite march_of_days_of_march, month_day_of_month; [done|].
    pose proof (march_of_month_day (month + 1)). lia. }
  destruct (decide (next = z)) as [<-|Hne]; [rewrite Hnext in E; injection E; lia|].
  assert (next < z)%Z as Hlt' by (unfold days_in in Hlt; fold next in Hlt; lia).
  apply month_day_order in Hlt'. rewrite Hnext, E in Hlt'. cbn in Hlt'. lia.
Qed.

(** ** Decimal digits, the most significant first *)

Definition digit (d : Z) : ascii := ascii_of_N (0x30 + Z.to_N d).
Definition is_digit (c : ascii) : bool := (0x30 <=? code c)%N && (code c <=? 0x39)%N.
Definition digit_value (c : ascii) : Z := (Z.of_N (code c) - 0x30)%Z.

Fixpoint digits (w : nat) (n : Z) : string :=
  match w with
  | O => ""
  | S w => String (digit (n / 10 ^ Z.of_nat w)) (digits w (n mod 10 ^ Z.of_nat w))
  end.

(** The digits of a fraction of [w] places, without trailing zeros. *)
Fixpoint fraction (w : nat) (n : Z) : string :=
  match w with
  | O => ""
  | S w => if (n =? 0)%Z then ""
           else String (digit (n / 10 ^ Z.of_nat w)) (fraction w (n mod 10 ^ Z.of_nat w))
  end.

Fixpoint read_digits (w : nat) (acc : Z) (s : string) : option (Z * string) :=
  match w, s with
  | O, _ => Some (acc, s)
  | S w, String c s => if is_digit c then read_digits w (acc * 10 + digit_value c) s else None
  | S _, EmptyString => None
  end.

(** All the digits that follow; those past the [w]th are not significant. *)
Fixpoint read_fraction (w : nat) (s : string) : Z * string :=
  match s with
  | EmptyString => (0%Z, s)
  | String c rest =>
      if is_digit c then
        match w with
        | O => read_fraction O rest
        | S w => let '(n, rest) := read_fraction w rest in
                 ((digit_value c * 10 ^ Z.of_nat w + n)%Z, rest)
        end
      else (0%Z, s)
  end.

Lemma string_cons_app c (s t : string) : String c s +:+ t = String c (s +:+ t).
Proof. done. Qed.

Lemma string_nil_app (s : string) : "" +:+ s = s.
Proof. done. Qed.

Lemma code_digit d : (0 ≤ d < 10)%Z → code (digit d) = (0x30 + Z.to_N d)%N.
Proof. intros Hd. unfold code, digit. rewrite N_ascii_embedding; [done|lia]. Qed.

Lemma digit_read d : (0 ≤ d < 10)%Z → is_digit (digit d) = true ∧ digit_value (digit d) = d.
Proof. intros Hd. unfold is_digit, digit_value. rewrite (code_digit d Hd). split; [apply andb_true_iff; split; apply N.leb_le|]; lia. Qed.

(** The leading digit of a number of [S w] digits, and the rest. *)
Lemma leading_digit w n :
  (0 ≤ n < 10 ^ Z.of_nat (S w))%Z →
  (0 ≤ n / 10 ^ Z.of_nat w < 10 ∧ 0 ≤ n mod 10 ^ Z.of_nat w < 10 ^ Z.of_nat w)%Z.
Proof.
  intros Hn. assert (0 < 10 ^ Z.of_nat w)%Z as Hp by lia.
  split; [|by apply Z.mod_pos_bound].
  replace (Z.of_nat (S w)) with (Z.of_nat w + 1)%Z in Hn by lia. rewrite Z.pow_add_r in Hn by lia.
  split; [apply Z.div_pos; lia|]. apply Z.div_lt_upper_bound; lia.
Qed.

Lemma read_digits_of w n acc s :
  (0 ≤ n < 10 ^ Z.of_nat w)%Z →
  read_digits w acc (digits w n +:+ s) = Some ((acc * 10 ^ Z.of_nat w + n)%Z, s).
Proof.
  revert n acc. induction w as [|w IH]; intros n acc Hn.
  - cbn in *. do 2 f_equal. lia.
  - destruct (leading_digit w n Hn) as [Hd Hm]. destruct (digit_read _ Hd) as [Hi Hv].
    cbn [digits]. rewrite string_cons_app. cbn [read_digits]. rewrite Hi, Hv, IH by done. do 2 f_equal.
    replace (Z.of_nat (S w)) with (Z.of_nat w + 1)%Z by lia. rewrite Z.pow_add_r by lia.
    pose proof (Z.div_mod n (10 ^ Z.of_nat w)). lia.
Qed.

Lemma read_fraction_of w n s :
  (0 ≤ n < 10 ^ Z.of_nat w)%Z → (∀ c s', s = String c s' → is_digit c = false) →
  read_fraction w (fraction w n +:+ s) = (n, s).
Proof.
  assert (∀ w, (∀ c s', s = String c s' → is_digit c = false) → read_fraction w s = (0%Z, s)) as Hend.
  { intros w' Hs. destruct s as [|c s']; [by destruct w'|]. cbn. destruct w'; by rewrite (Hs c s'). }
  intros Hn Hs. revert n Hn. induction w as [|w IH]; intros n Hn.
  - cbn in Hn. assert (n = 0)%Z as -> by lia. by apply Hend.
  - destruct (leading_digit w n Hn) as [Hd Hm]. destruct (digit_read _ Hd) as [Hi Hv].
    cbn [fraction]. destruct (n =? 0)%Z eqn:E; [assert (n = 0)%Z as -> by lia; by apply Hend|].
    rewrite string_cons_app. cbn [read_fraction]. rewrite Hi, Hv, IH by done.
    f_equal. pose proof (Z.div_mod n (10 ^ Z.of_nat w)). lia.
Qed.

Lemma string_less_prefix p a b : string_less (p +:+ a) (p +:+ b) = string_less a b.
Proof. induction p as [|c p IH]; [done|]. rewrite !string_cons_app. cbn. by rewrite N.ltb_irrefl, N.eqb_refl, IH. Qed.

(** Numbers of the same width are ordered as their digits are. *)
Lemma digits_less w n m a b :
  (0 ≤ n < m)%Z → (m < 10 ^ Z.of_nat w)%Z → string_less (digits w n +:+ a) (digits w m +:+ b) = true.
Proof.
  revert n m. induction w as [|w IH]; intros n m Hn Hm; [cbn in Hm; lia|].
  destruct (leading_digit w n) as [Hdn Hmn]; [lia|]. destruct (leading_digit w m) as [Hdm Hmm]; [lia|].
  cbn [digits]. rewrite !string_cons_app. apply string_less_cons. rewrite !code_digit by done.
  assert (0 < 10 ^ Z.of_nat w)%Z as Hp by lia.
  pose proof (Z.div_le_mono n m _ Hp) as Hle.
  destruct (decide (n / 10 ^ Z.of_nat w = m / 10 ^ Z.of_nat w)%Z) as [Heq|]; [right|left; lia].
  split; [lia|]. apply IH; [|lia]. split; [lia|].
  pose proof (Z.div_mod n (10 ^ Z.of_nat w)). pose proof (Z.div_mod m (10 ^ Z.of_nat w)). lia.
Qed.

(** Two fields, the first of which decides unless it is the same in both. *)
Lemma field_less w n m (sep a b : string) :
  (0 ≤ n)%Z → (m < 10 ^ Z.of_nat w)%Z → (n < m ∨ n = m ∧ string_less a b = true)%Z →
  string_less (digits w n +:+ sep +:+ a) (digits w m +:+ sep +:+ b) = true.
Proof.
  intros Hn Hm [Hlt|[-> Hab]]; [by apply digits_less|]. by rewrite !string_less_prefix.
Qed.

(** ** Instants *)

(** Year, month from January as 1, day, hour, minute, second, nanosecond. *)
Record date_time := mkDateTime {
  dt_year : Z; dt_month : Z; dt_day : Z; dt_hour : Z; dt_minute : Z; dt_second : Z; dt_nano : Z;
}.

Definition date_of (t : time) : date_time :=
  let seconds := (t / second)%Z in
  let '(month, day) := month_day (march_of_days (seconds / 86400 + epoch_shift)) in
  let clock := (seconds mod 86400)%Z in
  mkDateTime (month / 12) (month mod 12 + 1) day
    (clock / 3600) (clock / 60 mod 60) (clock mod 60) (t mod second).

Definition time_of (d : date_time) : time :=
  let days := (days_of_march (march_of_month (12 * dt_year d + dt_month d - 1) (dt_day d)) - epoch_shift)%Z in
  ((days * 86400 + dt_hour d * 3600 + dt_minute d * 60 + dt_second d) * second + dt_nano d)%Z.

(** [appendInt]: at least [w] digits. *)
Definition append_int (w : nat) (n : Z) : string :=
  let u := Z.abs n in
  (if (n <? 0)%Z then "-" else "") +:+
  (if (u <? 10 ^ Z.of_nat w)%Z then digits w u else format_int u).

(** [appendNano] *)
Definition append_nano (n : Z) : string := if (n =? 0)%Z then "" else "." +:+ fraction 9 n.

Definition format_date (d : date_time) : string :=
  append_int 4 (dt_year d) +:+ "-" +:+ append_int 2 (dt_month d) +:+ "-" +:+ append_int 2 (dt_day d)
  +:+ "T" +:+ append_int 2 (dt_hour d) +:+ ":" +:+ append_int 2 (dt_minute d)
  +:+ ":" +:+ append_int 2 (dt_second d) +:+ append_nano (dt_nano d) +:+ "Z".

Definition formatTime (value : time) : string := format_date (date_of value).

Definition expect (c : ascii) (s : string) : option string :=
  match s with String d s => if bool_decide (d = c) then Some s else None | EmptyString => None end.

(** [w] digits of a value between [lo] and [hi], then [rest]. *)
Definition field {A} (w : nat) (lo hi : Z) (s : string) (rest : Z → string → option A) : option A :=
  '(n, s) ← read_digits w 0 s; guard (lo ≤ n ≤ hi)%Z;; rest n s.

Definition read_nano (s : string) : Z * string :=
  match s with
  | String "." (String c _ as rest) => if is_digit c then read_fraction 9 rest else (0%Z, s)
  | _ => (0%Z, s)
  end.

(** The zone's offset in seconds. *)
Definition read_zone (s : string) : option Z :=
  if bool_decide (s = "Z") then Some 0%Z else
  match s with
  | String sign s =>
      guard (sign = "+" ∨ sign = "-")%char;;
      field 2 0 23 s (λ hours s, s ← expect ":" s;
      field 2 0 59 s (λ minutes s,
      guard (s = "");;
      let offset := ((hours * 60 + minutes) * 60)%Z in
      Some (if bool_decide (sign = "-"%char) then (- offset)%Z else offset)))
  | EmptyString => None
  end.

(** [parseRFC3339]. [time.Parse] falls back on its general parser for texts that this
    one refuses; no text the store writes is one of them. *)
Definition parse_rfc3339 (s : string) : option time :=
  field 4 0 9999 s (λ year s, s ← expect "-" s;
  field 2 1 12 s (λ month s, s ← expect "-" s;
  field 2 1 (days_in (12 * year + month - 1)) s (λ day s, s ← expect "T" s;
  field 2 0 23 s (λ hour s, s ← expect ":" s;
  field 2 0 59 s (λ minute s, s ← expect ":" s;
  field 2 0 59 s (λ seconds s,
  let '(nano, s) := read_nano s in
  offset ← read_zone s;
  Some (time_of (mkDateTime year month day hour minute seconds nano) - offset * second)%Z)))))).

Definition parseTime (value : string) : time := default zero_time (parse_rfc3339 value).

(** The years that four digits can write: 0 to 9999. *)
Definition four_digit_year (t : time) : Prop := (0 ≤ dt_year (date_of t) ≤ 9999)%Z.
#[export] Instance four_digit_year_dec t : Decision (four_digit_year t) := _.

Example time_texts :
  formatTime zero_time = "0001-01-01T00:00:00Z"
  ∧ formatTime 1709210096120000000 = "2024-02-29T12:34:56.12Z"
  ∧ parseTime "2024-02-29T14:04:56.12+01:30" = 1709210096120000000%Z
  ∧ parseTime "2023-02-29T12:34:56Z" = zero_time
  ∧ parseTime "" = zero_time.
Proof. by vm_compute. Qed.

(** ** What is written is read back *)

Lemma date_of_bounds t :
  (1 ≤ dt_month (date_of t) ≤ 12 ∧ 1 ≤ dt_day (date_of t) ≤ 31
   ∧ dt_day (date_of t) ≤ days_in (12 * dt_year (date_of t) + dt_month (date_of t) - 1)
   ∧ 0 ≤ dt_hour (date_of t) ≤ 23 ∧ 0 ≤ dt_minute (date_of t) ≤ 59
   ∧ 0 ≤ dt_second (date_of t) ≤ 59 ∧ 0 ≤ dt_nano (date_of t) < 1000000000)%Z.
Proof.
  unfold date_of.
  set (z := (t / second / 86400 + epoch_shift)%Z). pose proof (month_day_in_month z) as Hin.
  destruct (march_parts z) as (? & ? & ? & ? & _ & _ & Hd & _).
  pose proof (month_day_bounds _ Hd) as Hb. destruct (month_day (march_of_days z)) as [month day].
  destruct Hb as (Hday & _). cbn in *.
  replace (12 * (month / 12) + (month mod 12 + 1) - 1)%Z with month by (Z.to_euclidean_division_equations; lia).
  unfold second. Z.to_euclidean_division_equations. lia.
Qed.

Lemma time_of_date_of t : time_of (date_of t) = t.
Proof.
  unfold date_of, time_of.
  set (z := (t / second / 86400 + epoch_shift)%Z).
  destruct (march_parts z) as (? & ? & ? & ? & _ & _ & Hd & _).
  pose proof (month_day_bounds _ Hd) as Hb. destruct (month_day (march_of_days z)) as [month day].
  destruct Hb as (_ & Hm & _).
  cbn [dt_year dt_month dt_day dt_hour dt_minute dt_second dt_nano].
  replace (12 * (month / 12) + (month mod 12 + 1) - 1)%Z with month by (Z.to_euclidean_division_equations; lia).
  rewrite Hm, days_of_march_of_days. unfold z, second. Z.to_euclidean_division_equations. lia.
Qed.

Lemma append_int_digits w n : (0 ≤ n < 10 ^ Z.of_nat w)%Z → append_int w n = digits w n.
Proof.
  intros Hn. unfold append_int. rewrite Z.abs_eq by lia.
  replace (n <? 0)%Z with false by lia. replace (n <? 10 ^ Z.of_nat w)%Z with true by lia. done.
Qed.

Lemma field_digits {A} w lo hi n (s : string) (rest : Z → string → option A) :
  (0 ≤ n < 10 ^ Z.of_nat w)%Z → (lo ≤ n ≤ hi)%Z →
  field w lo hi (append_int w n +:+ s) rest = rest n s.
Proof.
  intros Hn Hr. unfold field. rewrite append_int_digits, read_digits_of by done.
  cbn [mbind option_bind]. replace (0 * 10 ^ Z.of_nat w + n)%Z with n by lia.
  case_guard; [done|lia].
Qed.

Lemma field_then {A} w lo hi n c (s : string) (rest : Z → string → option A) :
  (0 ≤ n < 10 ^ Z.of_nat w)%Z → (lo ≤ n ≤ hi)%Z →
  field w lo hi (append_int w n +:+ String c "" +:+ s) (λ n s, s ← expect c s; rest n s) = rest n s.
Proof.
  intros Hn Hr. rewrite field_digits by done. rewrite string_cons_app, string_nil_app. cbn.
  by rewrite bool_decide_true.
Qed.

Lemma read_nano_of n : (0 ≤ n < 1000000000)%Z → read_nano (append_nano n +:+ "Z") = (n, "Z"%string).
Proof.
  intros Hn. unfold append_nano. destruct (n =? 0)%Z eqn:E; [by assert (n = 0)%Z as -> by lia|].
  assert (read_fraction 9 (fraction 9 n +:+ "Z") = (n, "Z"%string)) as Hread
    by (apply read_fraction_of; [done|by intros ? ? [= <- <-]]).
  destruct (leading_digit 8 n) as [Hd _]; [done|].
  assert (∃ r, fraction 9 n = String (digit (n / 10 ^ Z.of_nat 8)) r) as [r Hr]
    by (cbn [fraction]; rewrite E; by eexists).
  rewrite Hr in *. rewrite string_cons_app in Hread. rewrite string_app_assoc, (string_cons_app _ r).
  destruct (digit_read _ Hd) as [Hi _]. set (c := digit _) in *. clearbody c.
  rewrite string_cons_app, string_nil_app. cbn -[read_fraction]. by rewrite Hi.
Qed.

Lemma parse_format_date d :
  (0 ≤ dt_year d ≤ 9999)%Z → (1 ≤ dt_month d ≤ 12)%Z →
  (1 ≤ dt_day d ≤ 31)%Z → (dt_day d ≤ days_in (12 * dt_year d + dt_month d - 1))%Z →
  (0 ≤ dt_hour d ≤ 23)%Z → (0 ≤ dt_minute d ≤ 59)%Z → (0 ≤ dt_second d ≤ 59)%Z →
  (0 ≤ dt_nano d < 1000000000)%Z →
  parse_rfc3339 (format_date d) = Some (time_of d).
Proof.
  intros ? ? ? ? ? ? ? Hn. unfold parse_rfc3339, format_date.
  do 5 (rewrite field_then by (lia || (cbn; lia))). rewrite field_digits by (lia || (cbn; lia)).
  rewrite read_nano_of by done. change (read_zone "Z") with (Some 0%Z).
  cbn [mbind option_bind]. f_equal. destruct d. cbn [dt_year dt_month dt_day dt_hour dt_minute dt_second dt_nano]. lia.
Qed.

(** Every instant of a year from 0 to 9999 is read back from its text. *)
Lemma parse_rfc3339_formatTime t : four_digit_year t → parse_rfc3339 (formatTime t) = Some t.
Proof.
  intros Hy. unfold formatTime. destruct (date_of_bounds t) as (? & ? & ? & ? & ? & ? & ?).
  rewrite parse_format_date by done. f_equal. apply time_of_date_of.
Qed.
Lemma parseTime_formatTime t : four_digit_year t → parseTime (formatTime t) = t.
Proof. intros Hy. unfold parseTime. by rewrite parse_rfc3339_formatTime. Qed.

Lemma formatTime_inj t u :
  four_digit_year t → four_digit_year u → formatTime t = formatTime u → t = u.
Proof. intros Ht Hu H. by rewrite <-(parseTime_formatTime t), <-(parseTime_formatTime u), H. Qed.

(** ** The order of the texts *)

(** Up to the second, the texts are ordered as the instants. *)
Lemma formatTime_less t u :
  four_digit_year t → four_digit_year u → (t / second < u / second)%Z →
  string_less (formatTime t) (formatTime u) = true.
Proof.
  intros Ht Hu Hlt. unfold formatTime, format_date, four_digit_year in *.
  destruct (date_of_bounds t) as (? & ? & ? & ? & ? & ? & ?).
  destruct (date_of_bounds u) as (? & ? & ? & ? & ? & ? & ?).
  enough (let '(mkDateTime y1 m1 d1 h1 i1 s1 _) := date_of t in
          let '(mkDateTime y2 m2 d2 h2 i2 s2 _) := date_of u in
          y1 < y2 ∨ y1 = y2 ∧ (m1 < m2 ∨ m1 = m2 ∧ (d1 < d2 ∨ d1 = d2 ∧ (h1 < h2 ∨ h1 = h2 ∧
            (i1 < i2 ∨ i1 = i2 ∧ s1 < s2)))))%Z as Hlex.
  { destruct (date_of t), (date_of u). cbn in *. rewrite !append_int_digits by (cbn; lia).
    do 5 (apply field_less; [lia|cbn; lia|]; destruct Hlex as [|[-> Hlex]]; [by left|right; split; [done|]]).
    apply digits_less; cbn; lia. }
  clear -Hlt. unfold date_of.
  set (a := (t / second)%Z) in *. set (b := (u / second)%Z) in *. clearbody a b.
  assert (month_day (march_of_days (a / 86400 + epoch_shift)) = month_day (march_of_days (b / 86400 + epoch_shift))
      ∧ a mod 86400 < b mod 86400
    ∨ (month_day (march_of_days (a / 86400 + epoch_shift))).1 < (month_day (march_of_days (b / 86400 + epoch_shift))).1
    ∨ (month_day (march_of_days (a / 86400 + epoch_shift))).1 = (month_day (march_of_days (b / 86400 + epoch_shift))).1
      ∧ (month_day (march_of_days (a / 86400 + epoch_shift))).2 < (month_day (march_of_days (b / 86400 + epoch_shift))).2)%Z
    as Hd.
  { destruct (decide (a / 86400 = b / 86400)%Z) as [E|Hne].
    - left. rewrite E. split; [done|]. Z.to_euclidean_division_equations. lia.
    - right. apply month_day_order. Z.to_euclidean_division_equations. lia. }
  destruct (month_day (march_of_days (a / 86400 + epoch_shift))) as [m1 d1],
    (month_day (march_of_days (b / 86400 + epoch_shift))) as [m2 d2]. cbn in *.
  destruct Hd as [[[= -> ->] Hc]|Hd].
  - right. split; [done|]. right. split; [done|]. right. split; [done|]. Z.to_euclidean_division_equations. lia.
  - Z.to_euclidean_division_equations. lia.
Qed.

(** Within a second the fractions are compared as texts, in which [Z] follows the
    digits and the point precedes them. *)
Lemma formatTime_same_second t u :
  (t / second = u / second)%Z →
  string_less (formatTime t) (formatTime u)
  = string_less (append_nano (t mod second) +:+ "Z") (append_nano (u mod second) +:+ "Z").
Proof.
  intros E. unfold formatTime, format_date, date_of. rewrite E.
  destruct (month_day _) as [month day].
  cbn [dt_year dt_month dt_day dt_hour dt_minute dt_second dt_nano]. by rewrite !string_less_prefix.
Qed.

(** What the texts' order says of the instants: it is at most a second off. *)
Lemma formatTime_order t u :
  four_digit_year t → four_digit_year u →
  string_less (formatTime u) (formatTime t) = false → (t / second ≤ u / second)%Z.
Proof.
  intros Ht Hu Hle. destruct (Z.le_gt_cases (t / second) (u / second)) as [?|Hlt]; [done|].
  by rewrite (formatTime_less u t) in Hle by (done || lia).
Qed.

(** Half a second past the minute is written before the minute itself. *)
Example texts_out_of_order :
  formatTime (60 * second) = "1970-01-01T00:01:00Z"
  ∧ formatTime (60 * second + 500 * millisecond) = "1970-01-01T00:01:00.5Z"
  ∧ string_less (formatTime (60 * second + 500 * millisecond)) (formatTime (60 * second)) = true.
Proof. by vm_compute. Qed.
