(* ===== verification/JsonText.v ===== *)
(** * JSON texts

    [json.Marshal] and [json.Unmarshal] of [encoding/json] on slices of strings, as the
    store keeps evidence and the health package keeps reasons. *)

From S2P Require Import Prelude GoStd.

(** ** Writing *)

Definition json_escape (r : N) (w : nat) (raw : list N) : list N :=
  if (w =? 1)%nat && (r =? rune_error)%N then bytes_of "\ufffd" else
  if (r =? 0x22)%N || (r =? 0x5C)%N then [0x5C; r]%N else
  if (r =? 8)%N then bytes_of "\b" else
  if (r =? 12)%N then bytes_of "\f" else
  if (r =? 10)%N then bytes_of "\n" else
  if (r =? 13)%N then bytes_of "\r" else
  if (r =? 9)%N then bytes_of "\t" else
  if (r <? 0x20)%N || (r =? 0x3C)%N || (r =? 0x3E)%N || (r =? 0x26)%N
  then bytes_of "\u00" ++ hex_byte r else
  if (r =? 0x2028)%N || (r =? 0x2029)%N then bytes_of "\u202" ++ [hex_digit (r mod 16)] else
  raw.
Fixpoint json_bytes (skip : nat) (l : list N) : list N :=
  match l with
  | [] => []
  | _ :: t =>
      match skip with
      | S k => json_bytes k t
      | O => let '(r, w) := decode_rune l in
             json_escape r w (take w l) ++ json_bytes (pred w) t
      end
  end.
Definition json_string (s : string) : string :=
  string_of_bytes ([0x22]%N ++ json_bytes 0 (bytes_of s) ++ [0x22]%N).
(** A slice that is not [nil]. *)
Definition json_array (l : list string) : string :=
  "[" +:+ String.concat "," (json_string <$> l) +:+ "]".

(** A slice that is [nil] when it is empty. *)
Definition json_slice (l : list string) : string :=
  if bool_decide (l = []) then "null" else json_array l.

(** An object, its members in the order they are written, their values as texts. *)
Definition json_object (members : list (string * string)) : string :=
  "{" +:+ String.concat "," ((λ m, json_string m.1 +:+ ":" +:+ m.2) <$> members) +:+ "}".
Definition json_pointer {A} (render : A → string) (value : option A) : string :=
  match value with None => "null" | Some a => render a end.

(** ** Reading *)

(** The contents of a string up to the closing quote, and what follows it. *)
Fixpoint json_read (l : list N) : option (list N * list N) :=
  match l with
  | [] => None
  | a :: t =>
      if (a =? 0x22)%N then Some ([], t) else
      if negb (a =? 0x5C)%N then
        if (a <? 0x20)%N then None else prod_map (cons a) id <$> json_read t else
      match t with
      | [] => None
      | c :: t =>
          if (c =? 0x75)%N then
            match t with
            | h :: k :: m :: n :: t =>
                prod_map (app (encode_rune (hex_join h k * 256 + hex_join m n)%N)) id <$> json_read t
            | _ => None
            end
          else
            let b := (if (c =? 0x62)%N then 8 else if (c =? 0x66)%N then 12 else
                      if (c =? 0x6E)%N then 10 else if (c =? 0x72)%N then 13 else
                      if (c =? 0x74)%N then 9 else c)%N in
            prod_map (cons b) id <$> json_read t
      end
  end.

(** The strings of an array after its first string has been opened; [fuel] bounds the
    number of strings. *)
Fixpoint json_items (fuel : nat) (l : list N) : option (list string) :=
  match fuel with
  | O => None
  | S fuel =>
      match json_read l with
      | Some (s, 0x2C :: 0x22 :: t)%N => cons (string_of_bytes s) <$> json_items fuel t
      | Some (s, [0x5D])%N => Some [string_of_bytes s]
      | _ => None
      end
  end.

(** [json.Unmarshal] into a [nil] slice, for the texts [json.Marshal] writes; its error
    is ignored where it is used, and another text leaves the slice [nil]. *)
Definition json_strings (text : string) : list string :=
  match bytes_of text with
  | (0x5B :: 0x22 :: t)%N => default [] (json_items (length t) t)
  | _ => []
  end.

(** ** Round trip *)

(** The string with its invalid bytes replaced by U+FFFD. *)
Fixpoint to_valid_bytes (skip : nat) (l : list N) : list N :=
  match l with
  | [] => []
  | _ :: t =>
      match skip with
      | S k => to_valid_bytes k t
      | O => let '(r, w) := decode_rune l in encode_rune r ++ to_valid_bytes (pred w) t
      end
  end.

Definition valid_utf8 (s : string) : Prop := to_valid_bytes 0 (bytes_of s) = bytes_of s.
#[export] Instance valid_utf8_dec s : Decision (valid_utf8 s) := _.

Lemma json_bytes_skip k l : json_bytes k l = json_bytes 0 (drop k l).
Proof.
  revert l. induction k as [|k IH]; intros l; [done|]. destruct l as [|b t]; [done|]. apply IH.
Qed.
Lemma to_valid_bytes_skip k l : to_valid_bytes k l = to_valid_bytes 0 (drop k l).
Proof.
  revert l. induction k as [|k IH]; intros l; [done|]. destruct l as [|b t]; [done|]. apply IH.
Qed.

Definition json_plain (b : N) : Prop := (0x20 ≤ b)%N ∧ b ≠ 0x22%N ∧ b ≠ 0x5C%N.

Lemma json_read_plain l more :
  Forall json_plain l → json_read (l ++ more) = prod_map (app l) id <$> json_read more.
Proof.
  induction 1 as [|b l (Hb & Hq & Hs) _ IH]; [cbn [app]; by destruct (json_read more) as [[]|]|].
  cbn [app json_read]. settle. rewrite IH. by destruct (json_read more) as [[]|].
Qed.

Lemma encode_rune_plain r :
  json_plain r → Forall json_plain (encode_rune r).
Proof.
  unfold json_plain. intros Hr. unfold encode_rune.
  set (r' := if surrogate r || _ then _ else r).
  assert (json_plain r') as Hr' by (unfold json_plain, r', rune_error; case_goal; lia).
  unfold json_plain in Hr'. clearbody r'. unfold encode_valid.
  repeat case_goal; N_facts;
    repeat (apply List.Forall_cons; [cbv beta; div_lia|]); apply List.Forall_nil.
Qed.

(** What is written of a rune is read as the rune. *)
Lemma json_read_escape r w raw more :
  encode_rune r = raw → (r < 0x110000)%N → ¬ (w = 1%nat ∧ r = rune_error) →
  json_read (json_escape r w raw ++ more) = prod_map (app raw) id <$> json_read more.
Proof.
  intros Henc Hr Hok. unfold json_escape.
  rewrite (proj2 (andb_false_iff _ _)) by (rewrite Nat.eqb_neq, N.eqb_neq; lia).
  destruct ((r =? 0x22)%N || (r =? 0x5C)%N) eqn:Eq.
  { apply orb_true_iff in Eq as [Eq|Eq]; apply N.eqb_eq in Eq as ->; by rewrite <-Henc. }
  apply orb_false_iff in Eq as [E22 E5c]. N_facts.
  do 5 (case_match eqn:E; [apply N.eqb_eq in E as ->; by rewrite <-Henc|clear E]).
  case_match eqn:Ex.
  { assert (r < 0x80)%N by (rewrite !orb_true_iff in Ex; naive_solver (N_facts; lia)).
    change (bytes_of "\u00") with [0x5C; 0x75; 0x30; 0x30]%N. unfold hex_byte. cbn [app json_read].
    rewrite hex_join_byte by lia. rewrite <-Henc. by settle. }
  rewrite !orb_false_iff in Ex. destruct Ex as [[[Ex _] _] _]. N_facts.
  case_match eqn:El.
  { apply orb_true_iff in El as [El|El]; apply N.eqb_eq in El as ->; by rewrite <-Henc. }
  rewrite <-Henc. by apply json_read_plain, encode_rune_plain.
Qed.

Lemma json_read_bytes l more :
  json_read (json_bytes 0 l ++ 0x22%N :: more) = Some (to_valid_bytes 0 l, more).
Proof.
  remember (length l) as n eqn:Hn. revert l Hn.
  induction (lt_wf n) as [n _ IH]. intros l ->. destruct l as [|b t]; [done|].
  cbn [json_bytes to_valid_bytes]. pose proof (decode_rune_width (b :: t) ltac:(done)) as Hw.
  destruct (decode_rune (b :: t)) as [r w] eqn:Hd. cbn [snd] in Hw.
  rewrite json_bytes_skip, to_valid_bytes_skip, <-app_assoc.
  assert (length (drop (pred w) t) < length (b :: t))%nat as Hlen by (rewrite length_drop; cbn; lia).
  specialize (IH _ Hlen _ eq_refl).
  destruct (decide (w = 1%nat ∧ r = rune_error)) as [[-> ->]|Hok].
  { unfold json_escape. cbn [Nat.eqb andb]. rewrite N.eqb_refl.
    change (bytes_of "\ufffd") with [0x5C; 0x75; 0x66; 0x66; 0x66; 0x64]%N.
    cbn [app json_read]. rewrite IH.
    by replace (hex_join 0x66 0x66 * 256 + hex_join 0x66 0x64)%N with rune_error by reflexivity. }
  destruct (encode_decode_rune (b :: t) r w) as [Hr Henc]; [done..|].
  rewrite (json_read_escape r w (take w (b :: t))), IH by done. cbn. by rewrite Henc.
Qed.

Lemma json_items_of l t fuel :
  (length l < fuel)%nat →
  json_items fuel (json_bytes 0 (bytes_of t) ++ 0x22%N
    :: (l ≫= λ s, [0x2C; 0x22]%N ++ json_bytes 0 (bytes_of s) ++ [0x22]%N) ++ [0x5D]%N)
  = Some ((λ s, string_of_bytes (to_valid_bytes 0 (bytes_of s))) <$> (t :: l)).
Proof.
  revert t fuel. induction l as [|s l IH]; intros t [|fuel] Hf; cbn in Hf; try lia.
  - cbn [json_items]. by rewrite json_read_bytes.
  - cbn [json_items]. rewrite json_read_bytes. rewrite bind_cons. cbn [app].
    rewrite <-!app_assoc. cbn [app]. rewrite IH by lia. done.
Qed.

Lemma json_escape_bytes r w raw :
  (r < 0x110000)%N → Forall is_byte raw → Forall is_byte (json_escape r w raw).
Proof.
  intros Hr Hraw. unfold json_escape, is_byte in *.
  destruct (_ && _); [by apply bytes_of_bytes|].
  destruct ((r =? 0x22)%N || (r =? 0x5C)%N) eqn:Eq.
  { apply orb_true_iff in Eq as [Eq|Eq]; apply N.eqb_eq in Eq as ->; by repeat constructor. }
  do 5 (case_match; [apply bytes_of_bytes|]).
  case_match eqn:Ex.
  { apply Forall_app; split; [apply bytes_of_bytes|]. apply hex_byte_bytes.
    rewrite !orb_true_iff in Ex. naive_solver (N_facts; lia). }
  case_match; [|done]. apply Forall_app; split; [apply bytes_of_bytes|].
  repeat constructor. unfold hex_digit. case_match; div_lia.
Qed.

Lemma json_bytes_bytes l : Forall is_byte l → Forall is_byte (json_bytes 0 l).
Proof.
  intros Hl. generalize 0%nat. induction Hl as [|b t Hb Ht IH]; intros k; [done|].
  destruct k as [|k]; [|apply IH]. cbn [json_bytes].
  destruct (decode_rune (b :: t)) as [r w] eqn:Hd.
  apply Forall_app; split; [|apply IH]. apply json_escape_bytes; [|by apply Forall_take; constructor].
  destruct (decide (w = 1%nat ∧ r = rune_error)) as [[-> ->]|Hok]; [done|].
  by destruct (encode_decode_rune (b :: t) r w) as [Hr _].
Qed.

Lemma bytes_of_json_string s :
  bytes_of (json_string s) = [0x22]%N ++ json_bytes 0 (bytes_of s) ++ [0x22]%N.
Proof.
  apply bytes_of_string_of. constructor; [done|].
  apply Forall_app; split; [apply json_bytes_bytes, bytes_of_bytes|by repeat constructor].
Qed.

Lemma bytes_of_concat t l :
  bytes_of (String.concat "," (json_string <$> t :: l))
  = [0x22]%N ++ json_bytes 0 (bytes_of t) ++ 0x22%N
      :: (l ≫= λ s, [0x2C; 0x22]%N ++ json_bytes 0 (bytes_of s) ++ [0x22]%N).
Proof.
  revert t. induction l as [|s l IH]; intros t; [apply bytes_of_json_string|].
  change (String.concat "," (json_string <$> t :: s :: l))
    with (json_string t +:+ "," +:+ String.concat "," (json_string <$> s :: l)).
  rewrite !bytes_of_app, bytes_of_json_string, IH, bind_cons.
  change (bytes_of ",") with [0x2C]%N. cbn [app]. by rewrite <-!app_assoc.
Qed.

Lemma bytes_of_json_array t l :
  bytes_of (json_array (t :: l)) = [0x5B; 0x22]%N ++ json_bytes 0 (bytes_of t) ++ 0x22%N
    :: (l ≫= λ s, [0x2C; 0x22]%N ++ json_bytes 0 (bytes_of s) ++ [0x22]%N) ++ [0x5D]%N.
Proof.
  unfold json_array. rewrite !bytes_of_app, bytes_of_concat. change (bytes_of "[") with [0x5B]%N.
  change (bytes_of "]") with [0x5D]%N. cbn [app]. by rewrite <-!app_assoc.
Qed.

(** A slice of valid texts is read back from its JSON text. *)
Lemma json_strings_slice l : Forall valid_utf8 l → json_strings (json_slice l) = l.
Proof.
  intros Hl. unfold json_slice. destruct l as [|t l]; [done|]. rewrite bool_decide_false by done.
  unfold json_strings. rewrite bytes_of_json_array. cbn [app]. rewrite json_items_of.
  - cbn [default]. rewrite <-(list_fmap_id (t :: l)) at 2. apply list_fmap_ext. intros i s Hs.
    assert (valid_utf8 s) as -> by (rewrite Forall_forall in Hl; eapply Hl, list_elem_of_lookup_2, Hs).
    apply string_of_bytes_of.
  - rewrite length_app. cbn. rewrite length_app.
    enough (∀ f : string → list N, (∀ s, f s ≠ []) → length l ≤ length (l ≫= f))%nat as Hle.
    { specialize (Hle (λ s, 0x2C :: 0x22 :: json_bytes 0 (bytes_of s) ++ [0x22])%N ltac:(done)). lia. }
    clear. intros f Hf. induction l as [|s l IH]; [done|]. rewrite bind_cons, length_app.
    specialize (Hf s). destruct (f s); [done|]. cbn [length]. lia.
Qed.

Example json_texts :
  json_slice ["a<b"; "line" +:+ string_of_bytes [10]%N] = "[" +:+ json_string "a<b" +:+ "," +:+ json_string ("line" +:+ string_of_bytes [10]%N) +:+ "]"
  ∧ bytes_of (json_string "a<b") = [0x22; 0x61; 0x5C; 0x75; 0x30; 0x30; 0x33; 0x63; 0x62; 0x22]%N
  ∧ json_slice [] = "null" ∧ json_strings "null" = [] ∧ json_strings "[]" = [].
Proof. by vm_compute. Qed.
