(* ===== verification/Sha256.v ===== *)
(** * SHA-256 and the textual digests of the scheduler

    [crypto/sha256] as FIPS 180-4 defines it, on 32-bit words with their
    wrap-around written out, executable; and [hex.EncodeToString]. The theorems of
    the development never assume the digest injective: they return the pair of
    distinct messages whenever two digests agree for another reason. *)

From S2P Require Import Prelude GoStd.
Local Open Scope N_scope.

Definition word (x : N) : N := x mod 2 ^ 32.
Definition add32 (x y : N) : N := word (x + y).
Definition rotr (n x : N) : N := N.lor (N.shiftr x n) (word (N.shiftl x (32 - n))).
Definition not32 (x : N) : N := N.lxor x (2 ^ 32 - 1).

Definition choose (x y z : N) : N := N.lxor (N.land x y) (N.land (not32 x) z).
Definition majority (x y z : N) : N :=
  N.lxor (N.land x y) (N.lxor (N.land x z) (N.land y z)).
Definition big_sigma0 (x : N) : N := N.lxor (rotr 2 x) (N.lxor (rotr 13 x) (rotr 22 x)).
Definition big_sigma1 (x : N) : N := N.lxor (rotr 6 x) (N.lxor (rotr 11 x) (rotr 25 x)).
Definition sigma0 (x : N) : N := N.lxor (rotr 7 x) (N.lxor (rotr 18 x) (N.shiftr x 3)).
Definition sigma1 (x : N) : N := N.lxor (rotr 17 x) (N.lxor (rotr 19 x) (N.shiftr x 10)).

Definition round_constants : list N :=
  [1116352408; 1899447441; 3049323471; 3921009573; 961987163; 1508970993; 2453635748; 2870763221;
   3624381080; 310598401; 607225278; 1426881987; 1925078388; 2162078206; 2614888103; 3248222580;
   3835390401; 4022224774; 264347078; 604807628; 770255983; 1249150122; 1555081692; 1996064986;
   2554220882; 2821834349; 2952996808; 3210313671; 3336571891; 3584528711; 113926993; 338241895;
   666307205; 773529912; 1294757372; 1396182291; 1695183700; 1986661051; 2177026350; 2456956037;
   2730485921; 2820302411; 3259730800; 3345764771; 3516065817; 3600352804; 4094571909; 275423344;
   430227734; 506948616; 659060556; 883997877; 958139571; 1322822218; 1537002063; 1747873779;
   1955562222; 2024104815; 2227730452; 2361852424; 2428436474; 2756734187; 3204031479; 3329325298].

Definition initial_hash : list N :=
  [1779033703; 3144134277; 1013904242; 2773480762; 1359893119; 2600822924; 528734635; 1541459225].

(** The message schedule, kept as its last sixteen words: the oldest word is used
    and the next one of the recurrence is appended. *)
Definition next_word (window : list N) : N :=
  add32 (add32 (sigma1 (nth 14 window 0)) (nth 9 window 0))
        (add32 (sigma0 (nth 1 window 0)) (nth 0 window 0)).

Definition one_round (h : list N) (k w : N) : list N :=
  match h with
  | [a; b; c; d; e; f; g; hh] =>
      let t1 := add32 (add32 (add32 hh (big_sigma1 e)) (choose e f g)) (add32 k w) in
      let t2 := add32 (big_sigma0 a) (majority a b c) in
      [add32 t1 t2; a; b; c; add32 d t1; e; f; g]
  | _ => h
  end.

Fixpoint rounds (ks : list N) (window : list N) (h : list N) : list N :=
  match ks with
  | [] => h
  | k :: ks =>
      rounds ks (tail window ++ [next_word window]) (one_round h k (nth 0 window 0))
  end.

Definition compress (h : list N) (block : list N) : list N :=
  zip_with add32 h (rounds round_constants block h).

Fixpoint words_of (bytes : list N) : list N :=
  match bytes with
  | a :: b :: c :: d :: t => (((a * 256 + b) * 256 + c) * 256 + d) :: words_of t
  | _ => []
  end.

Fixpoint bytes_be (n : nat) (x : N) : list N :=
  match n with O => [] | S n => bytes_be n (x / 256) ++ [x mod 256] end.

(** One bit, zeros up to 56 modulo 64, and the bit length on eight bytes. *)
Definition padded (msg : list N) : list N :=
  let len := length msg in
  msg ++ [128] ++ replicate (((119 - len mod 64) mod 64)%nat) 0
      ++ bytes_be 8 (8 * N.of_nat len).

Fixpoint blocks (fuel : nat) (ws : list N) (h : list N) : list N :=
  match fuel with
  | O => h
  | S fuel =>
      match ws with
      | [] => h
      | _ => blocks fuel (drop 16 ws) (compress h (take 16 ws))
      end
  end.

Definition sha256 (msg : list N) : list N :=
  let ws := words_of (padded msg) in
  mjoin (bytes_be 4 <$> blocks (length ws) ws initial_hash).

(** [hex.EncodeToString] *)
Definition hex_string (l : list N) : string := string_of_bytes (mjoin (hex_byte <$> l)).

Definition sha256_hex (s : string) : string := hex_string (sha256 (bytes_of s)).

#[global] Arguments sha256 : simpl never.
#[global] Arguments sha256_hex : simpl never.

Example sha256_abc :
  sha256_hex "abc" = "ba7816bf8f01cfea414140de5dae2223b00361a396177a9cb410ff61f20015ad".
Proof. vm_compute. done. Qed.
Example sha256_two_blocks :
  sha256_hex "abcdbcdecdefdefgefghfghighijhijkijkljklmklmnlmnomnopnopq" =
  "248d6a61d20638b8e5c026930c3e6039a33ce45964ff2167f6ecedd419db06c1".
Proof. vm_compute. done. Qed.

(** ** Every digest is a list of bytes *)

Lemma bytes_be_bytes n x : Forall is_byte (bytes_be n x).
Proof.
  revert x. induction n as [|n IH]; intros x; simpl; [constructor|].
  apply Forall_app; split; [apply IH|]. constructor; [|constructor]. by apply N.mod_lt.
Qed.

Lemma sha256_bytes msg : Forall is_byte (sha256 msg).
Proof.
  unfold sha256. apply Forall_join, Forall_fmap, Forall_true. intros x. apply bytes_be_bytes.
Qed.

(** A digest is 32 bytes, its text 64 digits. *)
Lemma length_rounds ks window h : length (rounds ks window h) = length h.
Proof.
  revert window h. induction ks as [|k ks IH]; intros window h; [done|]. cbn [rounds]. rewrite IH.
  by destruct h as [|? [|? [|? [|? [|? [|? [|? [|? [|? ?]]]]]]]]].
Qed.

Lemma length_blocks fuel ws h : length (blocks fuel ws h) = length h.
Proof.
  revert ws h. induction fuel as [|fuel IH]; intros ws h; [done|]. cbn [blocks]. destruct ws; [done|].
  rewrite IH. unfold compress. rewrite length_zip_with, length_rounds. lia.
Qed.

Lemma length_sha256_hex s : String.length (sha256_hex s) = 64%nat.
Proof.
  unfold sha256_hex, hex_string. rewrite <-length_bytes_of, bytes_of_string_of.
  2:{ apply Forall_join, Forall_fmap. eapply List.Forall_impl; [|apply sha256_bytes]. intros b. apply hex_byte_bytes. }
  assert (∀ l, length (mjoin (hex_byte <$> l)) = 2 * length l)%nat as Hhex.
  { induction l as [|b l IH]; [done|]. change (mjoin (hex_byte <$> b :: l)) with (hex_byte b ++ mjoin (hex_byte <$> l)).
    rewrite length_app, IH. cbn [length hex_byte]. lia. }
  rewrite Hhex. unfold sha256. set (ws := words_of _). pose proof (length_blocks (length ws) ws initial_hash) as Hb.
  assert (∀ l : list N, length (mjoin (bytes_be 4 <$> l)) = 4 * length l)%nat as Hbe.
  { induction l as [|x l IH]; [done|]. change (mjoin (bytes_be 4 <$> x :: l)) with (bytes_be 4 x ++ mjoin (bytes_be 4 <$> l)).
    rewrite length_app, IH. change (length (bytes_be 4 x)) with 4%nat. cbn [length]. lia. }
  rewrite Hbe, Hb. done.
Qed.

Lemma hex_bytes_inj l1 l2 :
  Forall is_byte l1 → Forall is_byte l2 →
  mjoin (hex_byte <$> l1) = mjoin (hex_byte <$> l2) → l1 = l2.
Proof.
  intros H1. revert l2. induction H1 as [|a l1 Ha _ IH]; intros [|b l2] H2 Heq; try done.
  apply Forall_cons in H2 as [Hb H2']. cbn [fmap list_fmap mjoin list_join] in Heq.
  apply app_inj_1 in Heq as [Hab Heq]; [|done]. injection Hab as Hhi Hlo.
  f_equal; [|by apply IH].
  rewrite <-(hex_join_byte a), <-(hex_join_byte b) by done. by rewrite Hhi, Hlo.
Qed.

Lemma hex_string_inj l1 l2 :
  Forall is_byte l1 → Forall is_byte l2 → hex_string l1 = hex_string l2 → l1 = l2.
Proof.
  intros H1 H2 Heq. apply (f_equal bytes_of) in Heq. unfold hex_string in Heq.
  assert (∀ l, Forall is_byte l → Forall is_byte (mjoin (hex_byte <$> l))) as Hb.
  { intros l Hl. apply Forall_join, Forall_fmap. eapply List.Forall_impl; [|exact Hl].
    intros b. apply hex_byte_bytes. }
  rewrite !bytes_of_string_of in Heq by auto. by apply hex_bytes_inj.
Qed.

(** Two texts with the same digest are the same text, or a collision of SHA-256. *)
Definition sha256_collision (s t : string) : Prop :=
  s ≠ t ∧ sha256 (bytes_of s) = sha256 (bytes_of t).

Lemma sha256_hex_inj_or_collision s t :
  sha256_hex s = sha256_hex t → s = t ∨ sha256_collision s t.
Proof.
  intros Heq. destruct (decide (s = t)) as [->|Hne]; [by left|right]. split; [done|].
  apply hex_string_inj; [apply sha256_bytes..|done].
Qed.

(** ** The hexadecimal digest is visible text *)

Lemma hex_digit_visible d : (d < 16)%N → visible (hex_digit d).
Proof. unfold visible, hex_digit. intros Hd. case_match; bool_facts; lia. Qed.

Lemma sha256_hex_visible s : Forall visible (bytes_of (sha256_hex s)).
Proof.
  unfold sha256_hex, hex_string.
  assert (Forall (λ b, is_byte b ∧ visible b) (mjoin (hex_byte <$> sha256 (bytes_of s)))) as Hb.
  { apply Forall_join, Forall_fmap. eapply List.Forall_impl; [|apply sha256_bytes].
    intros b Hb. unfold is_byte in Hb.
    assert (∀ d, (d < 16)%N → is_byte (hex_digit d) ∧ visible (hex_digit d)) as Hd.
    { intros d Hd%hex_digit_visible. split; [|done]. unfold is_byte, visible in *. lia. }
    repeat constructor; apply Hd; div_lia. }
  apply Forall_and in Hb as [Hb Hv]. by rewrite bytes_of_string_of.
Qed.

Lemma trim_space_digest prefix s :
  Forall visible (bytes_of prefix) → trim_space (prefix +:+ sha256_hex s) = prefix +:+ sha256_hex s.
Proof.
  intros Hp. apply trim_space_visible. rewrite bytes_of_app, Forall_app.
  split; [done|apply sha256_hex_visible].
Qed.
