(* ===== verification/Intent.v ===== *)
(** * Control-plane intents: the data and its validation

    [internal/controlplane/types.go] and [intent.go]: producers, authorities,
    resources, operations, desired states, the intent record, its constructors and
    [Validate]. Go's string enumerations stay strings, since any string can reach
    [Valid]; errors are the [ValidationError] values the code returns. *)

From S2P Require Import Prelude GoStd.

(** ** Enumerations *)

Abbreviation Producer := string (only parsing).
Definition ProducerPolicyScheduler : Producer := "policy_scheduler".
Definition ProducerAgentOperator : Producer := "agent_operator".
Definition ProducerAdminUI : Producer := "admin_ui".
Definition ProducerFailoverController : Producer := "failover_controller".
Definition ProducerCostOptimizer : Producer := "cost_optimizer".

Definition Producer_Valid (p : Producer) : bool :=
  bool_decide (p ∈ [ProducerPolicyScheduler; ProducerAgentOperator; ProducerAdminUI;
                    ProducerFailoverController; ProducerCostOptimizer]).

Abbreviation Authority := string (only parsing).
Definition AuthorityManualHold : Authority := "manual_hold".
Definition AuthorityAdministratorCommand : Authority := "administrator_command".
Definition AuthorityEmergencyAutomation : Authority := "emergency_automation".
Definition AuthorityAutonomousAgent : Authority := "autonomous_agent".
Definition AuthorityActivePolicy : Authority := "active_policy".
Definition AuthorityOptimization : Authority := "optimization".

(** The rank, and whether the authority is known; an unknown one has rank 0. *)
Definition authorityRank (a : Authority) : Z * bool :=
  if bool_decide (a = AuthorityManualHold) then (0%Z, true) else
  if bool_decide (a = AuthorityAdministratorCommand) then (1%Z, true) else
  if bool_decide (a = AuthorityEmergencyAutomation) then (2%Z, true) else
  if bool_decide (a = AuthorityAutonomousAgent) then (3%Z, true) else
  if bool_decide (a = AuthorityActivePolicy) then (4%Z, true) else
  if bool_decide (a = AuthorityOptimization) then (5%Z, true) else (0%Z, false).

Definition Authority_Valid (a : Authority) : bool := (authorityRank a).2.

Abbreviation ResourceKind := string (only parsing).
Definition ResourceAccount : ResourceKind := "account".
Definition ResourceUpstreamKey : ResourceKind := "upstream_key".

Abbreviation Operation := string (only parsing).
Definition OperationSetAccountSchedulable : Operation := "set_account_schedulable".
Definition OperationSetAccountLoadFactor : Operation := "set_account_load_factor".
Definition OperationSetUpstreamKeyGroupTier : Operation := "set_upstream_key_group_tier".

Definition Operation_Valid (o : Operation) : bool :=
  bool_decide (o ∈ [OperationSetAccountSchedulable; OperationSetAccountLoadFactor;
                    OperationSetUpstreamKeyGroupTier]).

Definition GroupTierMain : string := "main".
Definition GroupTierBackup : string := "backup".
Definition GroupTierEmergency : string := "emergency".

(** ** Errors *)

Record ValidationError := mkValidationError { ve_Field : string; ve_Message : string }.
#[export] Instance ValidationError_eq_dec : EqDecision ValidationError.
Proof. solve_decision. Defined.
Definition invalidIntent (field message : string) : ValidationError :=
  mkValidationError field message.
Definition ValidationError_Error (e : ValidationError) : string :=
  ve_Field e +:+ ": " +:+ ve_Message e.

(** ** Resources *)

Record Resource := mkResource {
  r_kind : ResourceKind;
  r_accountID : Z;
  r_upstreamSourceID : Z;
  r_upstreamKeyID : string;
}.

#[export] Instance Resource_eq_dec : EqDecision Resource.
Proof. solve_decision. Defined.
#[export] Instance Resource_countable : Countable Resource.
Proof.
  refine (inj_countable' (λ r, (r_kind r, r_accountID r, r_upstreamSourceID r, r_upstreamKeyID r))
            (λ x, mkResource x.1.1.1 x.1.1.2 x.1.2 x.2) _).
  by intros [].
Defined.

Definition Resource_Validate (r : Resource) : result ValidationError unit :=
  if bool_decide (r_kind r = ResourceAccount) then
    fail_if ((r_accountID r <=? 0)%Z || bool_decide (r_upstreamSourceID r ≠ 0%Z)
             || bool_decide (r_upstreamKeyID r ≠ ""))
      (invalidIntent "resource" "account resource requires one positive account ID")
  else if bool_decide (r_kind r = ResourceUpstreamKey) then
    fail_if (bool_decide (r_accountID r ≠ 0%Z) || (r_upstreamSourceID r <=? 0)%Z
             || bool_decide (trim_space (r_upstreamKeyID r) = ""))
      (invalidIntent "resource" "upstream key resource requires source ID and key ID")
  else Err (invalidIntent "resource" "unknown resource kind").

Definition NewAccountResource (accountID : Z) : result ValidationError Resource :=
  let resource := mkResource ResourceAccount accountID 0 "" in
  Resource_Validate resource;; mret resource.

Definition NewUpstreamKeyResource (sourceID : Z) (keyID : string) : result ValidationError Resource :=
  let resource := mkResource ResourceUpstreamKey 0 sourceID (trim_space keyID) in
  Resource_Validate resource;; mret resource.

(** [AccountID] returns the identifier and whether this is an account. *)
Definition Resource_AccountID (r : Resource) : Z * bool :=
  (r_accountID r, bool_decide (r_kind r = ResourceAccount)).

(** ** Desired states *)

Inductive desiredStateKind :=
  | desiredStateUnset
  | desiredStateSchedulable
  | desiredStateLoadFactor
  | desiredStateGroupTier.
#[export] Instance desiredStateKind_eq_dec : EqDecision desiredStateKind.
Proof. solve_decision. Defined.

Record DesiredState := mkDesiredState {
  ds_kind : desiredStateKind;
  ds_schedulable : bool;
  ds_loadFactor : Z;
  ds_loadFactorSet : bool;
  ds_groupTier : string;
}.
#[export] Instance DesiredState_eq_dec : EqDecision DesiredState.
Proof. solve_decision. Defined.

Definition schedulableState (value : bool) : DesiredState :=
  mkDesiredState desiredStateSchedulable value 0 false "".

Definition loadFactorState (value : option Z) : result ValidationError DesiredState :=
  match value with
  | None => Ok (mkDesiredState desiredStateLoadFactor false 0 false "")
  | Some v =>
      fail_if (v <? 1)%Z
        (invalidIntent "desired_state.load_factor" "load factor must be nil or positive");;
      mret (mkDesiredState desiredStateLoadFactor false v true "")
  end.

Definition Schedulable (s : DesiredState) : bool * bool :=
  (ds_schedulable s, bool_decide (ds_kind s = desiredStateSchedulable)).
Definition LoadFactor (s : DesiredState) : Z * bool * bool :=
  (ds_loadFactor s, ds_loadFactorSet s, bool_decide (ds_kind s = desiredStateLoadFactor)).
Definition GroupTier (s : DesiredState) : string * bool :=
  (ds_groupTier s, bool_decide (ds_kind s = desiredStateGroupTier)).

(** ** Intents *)

Record IntentMetadata := mkIntentMetadata {
  md_ID : string;
  md_IdempotencyKey : string;
  md_Producer : Producer;
  md_Authority : Authority;
  md_Actor : string;
  md_Reason : string;
  md_EvidenceRefs : list string;
  md_PolicyVersion : string;
  md_SnapshotVersion : string;
  md_CreatedAt : time;
  md_ExpiresAt : option time;
}.

Record Intent := mkIntent {
  in_ID : string;
  in_IdempotencyKey : string;
  in_Producer : Producer;
  in_Authority : Authority;
  in_Resource : Resource;
  in_Operation : Operation;
  in_DesiredState : DesiredState;
  in_Actor : string;
  in_Reason : string;
  in_EvidenceRefs : list string;
  in_PolicyVersion : string;
  in_SnapshotVersion : string;
  in_CreatedAt : time;
  in_ExpiresAt : option time;
}.
#[export] Instance Intent_eq_dec : EqDecision Intent.
Proof. solve_decision. Defined.

(** [ConflictKey]: the resource and the operation an intent competes for. *)
Abbreviation ConflictKey := (Resource * string)%type (only parsing).
Definition Intent_ConflictKey (i : Intent) : ConflictKey := (in_Resource i, in_Operation i).

Definition Expired (i : Intent) (now : time) : bool :=
  match in_ExpiresAt i with
  | Some e => negb (before now e)
  | None => false
  end.

Definition isAutomationAuthority (a : Authority) : bool :=
  bool_decide (a ∈ [AuthorityEmergencyAutomation; AuthorityAutonomousAgent;
                    AuthorityActivePolicy; AuthorityOptimization]).

(** Copies of evidence and expiration: values are immutable here, so the copy is
    the value. *)
Definition cloneIntent (i : Intent) : Intent := i.

(** The adjacent duplicates of a sorted slice removed in place. *)
Definition compact (sorted : list string) : list string :=
  foldl (λ (unique : list string) (reference : string),
    if bool_decide (last unique = Some reference) then unique else unique ++ [reference])
    [] sorted.

Definition canonicalEvidenceRefs (references : list string) : list string :=
  compact (sort_slice string_less (trim_space <$> references)).

#[global] Arguments canonicalEvidenceRefs : simpl never.

Definition normalizeMetadata (m : IntentMetadata) : IntentMetadata :=
  m <| md_ID := trim_space (md_ID m) |>
    <| md_IdempotencyKey := trim_space (md_IdempotencyKey m) |>
    <| md_Actor := trim_space (md_Actor m) |>
    <| md_Reason := trim_space (md_Reason m) |>
    <| md_PolicyVersion := trim_space (md_PolicyVersion m) |>
    <| md_SnapshotVersion := trim_space (md_SnapshotVersion m) |>
    <| md_EvidenceRefs := canonicalEvidenceRefs (md_EvidenceRefs m) |>.

Section with_unicode.
Context `{UnicodeTables}.

Definition Producer_String (p : Producer) : string :=
  if Producer_Valid p then p else "unknown_producer(" +:+ quote p +:+ ")".
Definition Authority_String (a : Authority) : string :=
  if Authority_Valid a then a else "unknown_authority(" +:+ quote a +:+ ")".
Definition Operation_String (o : Operation) : string :=
  if Operation_Valid o then o else "unknown_operation(" +:+ quote o +:+ ")".

Definition Resource_String (r : Resource) : string :=
  if bool_decide (r_kind r = ResourceAccount) then "account:" +:+ format_int (r_accountID r)
  else if bool_decide (r_kind r = ResourceUpstreamKey) then
    "upstream_key:" +:+ format_int (r_upstreamSourceID r) +:+ ":" +:+ quote (r_upstreamKeyID r)
  else "unknown_resource(" +:+ quote (r_kind r) +:+ ")".

Definition ConflictKey_String (k : ConflictKey) : string :=
  Resource_String k.1 +:+ "#" +:+ Operation_String k.2.

Definition groupTierState (tier : string) : result ValidationError DesiredState :=
  let tier := to_lower (trim_space tier) in
  if bool_decide (tier ∈ [GroupTierMain; GroupTierBackup; GroupTierEmergency])
  then Ok (mkDesiredState desiredStateGroupTier false 0 false tier)
  else Err (invalidIntent "desired_state.group_tier" "group tier must use an existing model tier").

Definition validateFor (s : DesiredState) (resource : Resource) (operation : Operation)
    : result ValidationError unit :=
  Resource_Validate resource;;
  if bool_decide (operation = OperationSetAccountSchedulable) then
    fail_if (bool_decide (r_kind resource ≠ ResourceAccount)
             || bool_decide (ds_kind s ≠ desiredStateSchedulable))
      (invalidIntent "desired_state" "schedulable operation requires account and schedulable state")
  else if bool_decide (operation = OperationSetAccountLoadFactor) then
    fail_if (bool_decide (r_kind resource ≠ ResourceAccount)
             || bool_decide (ds_kind s ≠ desiredStateLoadFactor))
      (invalidIntent "desired_state" "load-factor operation requires account and load-factor state");;
    fail_if (ds_loadFactorSet s && (ds_loadFactor s <? 1)%Z)
      (invalidIntent "desired_state.load_factor" "load factor must be nil or positive")
  else if bool_decide (operation = OperationSetUpstreamKeyGroupTier) then
    fail_if (bool_decide (r_kind resource ≠ ResourceUpstreamKey)
             || bool_decide (ds_kind s ≠ desiredStateGroupTier))
      (invalidIntent "desired_state" "group-tier operation requires upstream key and group-tier state");;
    groupTierState (ds_groupTier s);;
    mret ()
  else Err (invalidIntent "operation" "unknown operation").

Definition canonical (s : DesiredState) : string :=
  match ds_kind s with
  | desiredStateSchedulable => "schedulable:" +:+ format_bool (ds_schedulable s)
  | desiredStateLoadFactor =>
      if negb (ds_loadFactorSet s) then "load_factor:default"
      else "load_factor:" +:+ format_int (ds_loadFactor s)
  | desiredStateGroupTier => "group_tier:" +:+ ds_groupTier s
  | desiredStateUnset => "invalid_desired_state"
  end.

Definition blank (s : string) : bool := bool_decide (trim_space s = "").

Definition Intent_Validate (i : Intent) : result ValidationError unit :=
  fail_if (blank (in_ID i)) (invalidIntent "id" "ID is required");;
  fail_if (blank (in_IdempotencyKey i))
    (invalidIntent "idempotency_key" "idempotency key is required");;
  fail_if (negb (Producer_Valid (in_Producer i))) (invalidIntent "producer" "unknown producer");;
  fail_if (negb (Authority_Valid (in_Authority i))) (invalidIntent "authority" "unknown authority");;
  Resource_Validate (in_Resource i);;
  fail_if (negb (Operation_Valid (in_Operation i))) (invalidIntent "operation" "unknown operation");;
  validateFor (in_DesiredState i) (in_Resource i) (in_Operation i);;
  fail_if (blank (in_Actor i)) (invalidIntent "actor" "actor is required");;
  fail_if (blank (in_Reason i)) (invalidIntent "reason" "reason is required");;
  fail_if (is_zero_time (in_CreatedAt i))
    (invalidIntent "created_at" "created time must be explicit");;
  fail_if (match in_ExpiresAt i with Some e => negb (after e (in_CreatedAt i)) | None => false end)
    (invalidIntent "expires_at" "expiration must be after creation");;
  fail_if (isAutomationAuthority (in_Authority i) && blank (in_SnapshotVersion i))
    (invalidIntent "snapshot_version" "automation intent requires snapshot version");;
  fail_if (bool_decide (in_Authority i = AuthorityActivePolicy) && blank (in_PolicyVersion i))
    (invalidIntent "policy_version" "active policy intent requires policy version");;
  (if bool_decide (in_Authority i = AuthorityAutonomousAgent)
      || bool_decide (in_Authority i = AuthorityEmergencyAutomation) then
     fail_if (bool_decide (in_EvidenceRefs i = []))
       (invalidIntent "evidence_refs" "authority requires evidence");;
     fail_if (existsb blank (in_EvidenceRefs i))
       (invalidIntent "evidence_refs" "evidence reference cannot be empty")
   else mret ());;
  let noTTL := bool_decide (in_ExpiresAt i = None) in
  if bool_decide (in_Authority i = AuthorityAutonomousAgent) then
    fail_if noTTL (invalidIntent "expires_at" "autonomous agent override must be temporary")
  else if bool_decide (in_Authority i = AuthorityOptimization) then
    fail_if noTTL (invalidIntent "expires_at" "optimization override must be temporary")
  else if bool_decide (in_Authority i = AuthorityAdministratorCommand) then
    fail_if noTTL (invalidIntent "expires_at"
      "administrator command requires TTL; use ManualHold for a permanent hold")
  else mret ().

Definition newIntent (metadata : IntentMetadata) (resource : Resource) (operation : Operation)
    (desired : DesiredState) : result ValidationError Intent :=
  let metadata := normalizeMetadata metadata in
  let intent := mkIntent (md_ID metadata) (md_IdempotencyKey metadata) (md_Producer metadata)
    (md_Authority metadata) resource operation desired (md_Actor metadata) (md_Reason metadata)
    (md_EvidenceRefs metadata) (md_PolicyVersion metadata) (md_SnapshotVersion metadata)
    (md_CreatedAt metadata) (md_ExpiresAt metadata) in
  Intent_Validate intent;; mret intent.

Definition NewAccountSchedulableIntent (metadata : IntentMetadata) (accountID : Z)
    (schedulable : bool) : result ValidationError Intent :=
  resource ← NewAccountResource accountID;
  newIntent metadata resource OperationSetAccountSchedulable (schedulableState schedulable).

Definition NewAccountLoadFactorIntent (metadata : IntentMetadata) (accountID : Z)
    (loadFactor : option Z) : result ValidationError Intent :=
  resource ← NewAccountResource accountID;
  desired ← loadFactorState loadFactor;
  newIntent metadata resource OperationSetAccountLoadFactor desired.

Definition NewUpstreamKeyGroupTierIntent (metadata : IntentMetadata) (sourceID : Z)
    (keyID targetTier : string) : result ValidationError Intent :=
  resource ← NewUpstreamKeyResource sourceID keyID;
  desired ← groupTierState targetTier;
  newIntent metadata resource OperationSetUpstreamKeyGroupTier desired.
End with_unicode.

(** ** What an intent must satisfy

    The obligations each authority carries, as a table. *)
Record authority_terms := mkTerms {
  needs_snapshot : bool;
  needs_policy : bool;
  needs_evidence : bool;
  needs_ttl : bool;
}.

Definition terms_of (a : Authority) : option authority_terms :=
  if bool_decide (a = AuthorityManualHold) then Some (mkTerms false false false false) else
  if bool_decide (a = AuthorityAdministratorCommand) then Some (mkTerms false false false true) else
  if bool_decide (a = AuthorityEmergencyAutomation) then Some (mkTerms true false true false) else
  if bool_decide (a = AuthorityAutonomousAgent) then Some (mkTerms true false true true) else
  if bool_decide (a = AuthorityActivePolicy) then Some (mkTerms true true false false) else
  if bool_decide (a = AuthorityOptimization) then Some (mkTerms true false false true) else None.

Definition nonblank (s : string) : Prop := trim_space s ≠ "".

Section intent_spec.
Context `{UnicodeTables}.

(** A well-typed target: the resource, the operation and the desired state agree. *)
Inductive target : Resource → Operation → DesiredState → Prop :=
  | target_schedulable id ds :
      (0 < id)%Z → ds_kind ds = desiredStateSchedulable →
      target (mkResource ResourceAccount id 0 "") OperationSetAccountSchedulable ds
  | target_load_factor id ds :
      (0 < id)%Z → ds_kind ds = desiredStateLoadFactor →
      (ds_loadFactorSet ds = true → (1 ≤ ds_loadFactor ds)%Z) →
      target (mkResource ResourceAccount id 0 "") OperationSetAccountLoadFactor ds
  | target_group_tier source key ds :
      (0 < source)%Z → nonblank key → ds_kind ds = desiredStateGroupTier →
      to_lower (trim_space (ds_groupTier ds)) ∈ [GroupTierMain; GroupTierBackup; GroupTierEmergency] →
      target (mkResource ResourceUpstreamKey 0 source key) OperationSetUpstreamKeyGroupTier ds.

Record valid_intent (i : Intent) (t : authority_terms) : Prop := {
  vi_terms : terms_of (in_Authority i) = Some t;
  vi_ID : nonblank (in_ID i);
  vi_key : nonblank (in_IdempotencyKey i);
  vi_producer : Producer_Valid (in_Producer i) = true;
  vi_target : target (in_Resource i) (in_Operation i) (in_DesiredState i);
  vi_actor : nonblank (in_Actor i);
  vi_reason : nonblank (in_Reason i);
  vi_created : in_CreatedAt i ≠ zero_time;
  vi_expires e : in_ExpiresAt i = Some e → (in_CreatedAt i < e)%Z;
  vi_snapshot : needs_snapshot t = true → nonblank (in_SnapshotVersion i);
  vi_policy : needs_policy t = true → nonblank (in_PolicyVersion i);
  vi_evidence : needs_evidence t = true →
    in_EvidenceRefs i ≠ [] ∧ Forall nonblank (in_EvidenceRefs i);
  vi_ttl : needs_ttl t = true → is_Some (in_ExpiresAt i);
}.

Lemma Resource_Validate_account r :
  r_kind r = ResourceAccount →
  Resource_Validate r = Ok () ↔ ∃ id, (0 < id)%Z ∧ r = mkResource ResourceAccount id 0 "".
Proof.
  destruct r as [k a u key]; simpl. intros ->. unfold Resource_Validate; simpl.
  rewrite fail_if_unit. split; [intros Hf; bool_facts; subst; eauto|].
  intros (id & Hid & [= -> -> ->]). rewrite (proj2 (Z.leb_gt _ _)) by done. done.
Qed.

Lemma Resource_Validate_key r :
  r_kind r = ResourceUpstreamKey →
  Resource_Validate r = Ok () ↔
  ∃ source key, (0 < source)%Z ∧ nonblank key ∧ r = mkResource ResourceUpstreamKey 0 source key.
Proof.
  destruct r as [k a u key]; simpl. intros ->. unfold Resource_Validate; simpl.
  rewrite fail_if_unit. split; [intros Hf; bool_facts; subst; eauto 10|].
  intros (source & key' & Hs & Hk & [= -> -> ->]). rewrite (proj2 (Z.leb_gt _ _)) by done.
  by rewrite (bool_decide_false _ Hk).
Qed.

Lemma validateFor_ok ds r op : validateFor ds r op = Ok () ↔ target r op ds.
Proof.
  unfold validateFor. rewrite then_ok. split.
  - intros [Hr Hop].
    case_bool_decide as E1; [|case_bool_decide as E2; [|case_bool_decide as E3; [|done]]]; subst op.
    + apply fail_if_ok in Hop. bool_facts.
      apply Resource_Validate_account in Hr as (id & ? & ->); [|done].
      constructor; [done|done].
    + rewrite then_ok, !fail_if_unit in Hop. destruct Hop as [Hk Hlf]. bool_facts.
      apply Resource_Validate_account in Hr as (id & ? & ->); [|done].
      constructor; [done|done|]. intros Hset. rewrite Hset in Hlf. simpl in Hlf.
      by bool_facts.
    + rewrite then_ok, fail_if_unit in Hop. destruct Hop as [Hk Htier]. bool_facts.
      apply Resource_Validate_key in Hr as (s & k & ? & ? & ->); [|done].
      constructor; [done|done|done|].
      unfold groupTierState in Htier. by case_bool_decide.
  - destruct 1 as [id ds Hid Hk|id ds Hid Hk Hlf|s k ds Hs Hkey Hk Ht].
    + split; [apply Resource_Validate_account; eauto|]. simpl.
      apply fail_if_ok. by rewrite Hk.
    + split; [apply Resource_Validate_account; eauto|]. simpl.
      rewrite then_ok, !fail_if_unit, Hk. split; [done|].
      destruct (ds_loadFactorSet ds); [|done]. apply Z.ltb_ge. auto.
    + split; [apply Resource_Validate_key; eauto|]. simpl.
      rewrite then_ok, fail_if_unit, Hk. split; [done|].
      unfold groupTierState. by rewrite bool_decide_true.
Qed.

Lemma terms_of_valid a : Authority_Valid a = true ↔ is_Some (terms_of a).
Proof.
  unfold Authority_Valid, authorityRank, terms_of. repeat case_bool_decide; simpl;
    (split; intros Hok; [by eauto || done|done || by destruct Hok]).
Qed.

Lemma existsb_blank l : existsb blank l = false ↔ Forall nonblank l.
Proof.
  rewrite <-not_true_iff_false, existsb_exists, Forall_forall. unfold blank, nonblank.
  setoid_rewrite bool_decide_eq_true. setoid_rewrite <-list_elem_of_In. naive_solver.
Qed.

Lemma blank_false s : blank s = false ↔ nonblank s.
Proof. unfold blank, nonblank. by rewrite bool_decide_eq_false. Qed.

Lemma negb_after_false e c : negb (after e c) = false ↔ (c < e)%Z.
Proof. unfold after. by rewrite negb_false_iff, Z.ltb_lt. Qed.

(** The part of [Validate] that depends on the authority. *)
Lemma authority_checks (a : Authority) (exp : option time) (snap pol : string) (refs : list string) t :
  terms_of a = Some t →
  (isAutomationAuthority a && blank snap = false ∧
   bool_decide (a = AuthorityActivePolicy) && blank pol = false ∧
   (if bool_decide (a = AuthorityAutonomousAgent) || bool_decide (a = AuthorityEmergencyAutomation) then
      fail_if (bool_decide (refs = [])) (invalidIntent "evidence_refs" "authority requires evidence");;
      fail_if (existsb blank refs)
        (invalidIntent "evidence_refs" "evidence reference cannot be empty")
    else mret ()) = Ok () ∧
   (if bool_decide (a = AuthorityAutonomousAgent) then
      fail_if (bool_decide (exp = None))
        (invalidIntent "expires_at" "autonomous agent override must be temporary")
    else if bool_decide (a = AuthorityOptimization) then
      fail_if (bool_decide (exp = None))
        (invalidIntent "expires_at" "optimization override must be temporary")
    else if bool_decide (a = AuthorityAdministratorCommand) then
      fail_if (bool_decide (exp = None)) (invalidIntent "expires_at"
        "administrator command requires TTL; use ManualHold for a permanent hold")
    else mret ()) = Ok ()) ↔
  (needs_snapshot t = true → nonblank snap) ∧ (needs_policy t = true → nonblank pol) ∧
  (needs_evidence t = true → refs ≠ [] ∧ Forall nonblank refs) ∧
  (needs_ttl t = true → is_Some exp).
Proof.
  intros Ht. unfold terms_of in Ht.
  repeat (case_bool_decide as E; [subst a; injection Ht as <-|clear E]); [..|done];
    simpl; rewrite ?then_ok, ?fail_if_unit, ?bool_decide_eq_false, ?blank_false, ?existsb_blank;
    destruct exp; naive_solver.
Qed.

Lemma Intent_Validate_ok i : Intent_Validate i = Ok () ↔ ∃ t, valid_intent i t.
Proof.
  unfold Intent_Validate. rewrite !then_ok, !fail_if_unit, !blank_false, !negb_false_iff.
  rewrite validateFor_ok, terms_of_valid.
  split.
  - intros (? & ? & ? & [t Ht] & ? & ? & ? & ? & ? & Hc & He & Hrest).
    apply (authority_checks _ _ _ _ _ _ Ht) in Hrest.
    destruct Hrest as (? & ? & ? & ?). exists t. split; try done.
    + unfold is_zero_time in Hc. by bool_facts.
    + intros e Hexp. rewrite Hexp in He. by apply negb_after_false.
  - intros [t [Ht ? ? ? Htarget ? ? Hc He ? ? ? ?]].
    assert (Resource_Validate (in_Resource i) = Ok () ∧ Operation_Valid (in_Operation i) = true)
      as [? ?].
    { split; [|by destruct Htarget].
      apply validateFor_ok in Htarget. unfold validateFor in Htarget.
      by apply then_ok in Htarget as [? _]. }
    destruct (proj2 (authority_checks _ (in_ExpiresAt i) (in_SnapshotVersion i)
      (in_PolicyVersion i) (in_EvidenceRefs i) t Ht)) as (? & ? & ? & ?); [done|].
    split_and!; try done.
    + unfold is_zero_time. by apply Z.eqb_neq.
    + destruct (in_ExpiresAt i) as [e|]; [|done]. by apply negb_after_false, He.
Qed.
End intent_spec.

(** ** Evidence references in canonical form *)

Definition string_lt (a b : string) : Prop := string_less a b = true.

Lemma compact_snoc l x :
  compact (l ++ [x]) = if bool_decide (last (compact l) = Some x) then compact l else compact l ++ [x].
Proof. unfold compact. by rewrite foldl_app. Qed.

Lemma compact_sorted l :
  StronglySorted (not_after string_less) l →
  StronglySorted string_lt (compact l) ∧ ∀ x, x ∈ compact l ↔ x ∈ l.
Proof.
  induction l as [|x l IH] using rev_ind; intros Hl; [split; [constructor|done]|].
  apply StronglySorted_app in Hl as (Hle & Hl & _). destruct (IH Hl) as [Hs Hin]. clear IH Hl.
  rewrite compact_snoc. case_bool_decide as Hlast.
  - split; [done|]. intros y. rewrite elem_of_app, list_elem_of_singleton, Hin.
    assert (x ∈ l) by (apply Hin; by apply last_Some_elem_of). naive_solver.
  - split; [|intros y; by rewrite !elem_of_app, Hin].
    apply StronglySorted_app. split; [|split; [done|by repeat constructor]].
    intros y x' Hy ->%list_elem_of_singleton.
    assert (not_after string_less y x) as Hyx by (apply Hle; [by apply Hin|by left]).
    unfold string_lt. destruct (string_less y x) eqn:E; [done|]. exfalso.
    pose proof (less_connex _ _ E Hyx) as ->. clear E Hyx.
    destruct (last (compact l)) as [z|] eqn:Ez.
    2:{ apply last_None in Ez. rewrite Ez in Hy. by apply elem_of_nil in Hy. }
    apply last_Some in Ez as [init Hinit]. rewrite Hinit in Hs, Hy.
    apply elem_of_app in Hy as [Hy|Hy%list_elem_of_singleton]; [|congruence].
    assert (string_lt x z) as Hxz.
    { by eapply StronglySorted_app_1_elem_of; [exact Hs|exact Hy|left]. }
    assert (not_after string_less z x) as Hzx.
    { apply Hle; [|by left]. apply Hin. rewrite Hinit. apply elem_of_app. right. by left. }
    unfold string_lt, not_after in *. congruence.
Qed.

Lemma string_lt_sorted_unique l1 l2 :
  StronglySorted string_lt l1 → StronglySorted string_lt l2 →
  (∀ x, x ∈ l1 ↔ x ∈ l2) → l1 = l2.
Proof.
  assert (∀ l, StronglySorted string_lt l → NoDup l) as Hnd.
  { induction 1 as [|x l _ IH Hx]; constructor; [|done]. intros Hin.
    rewrite Forall_forall in Hx. specialize (Hx x Hin). unfold string_lt in Hx.
    by rewrite less_irrefl in Hx. }
  intros H1 H2 Heq. apply (StronglySorted_unique_strong string_lt); [|done..|].
  - intros x y _ _ Hxy Hyx. unfold string_lt in *. apply less_asym in Hxy. congruence.
  - apply NoDup_Permutation; auto.
Qed.

Lemma canonicalEvidenceRefs_sorted refs : StronglySorted string_lt (canonicalEvidenceRefs refs).
Proof. apply compact_sorted, sort_slice_sorted, _. Qed.

Lemma elem_of_canonicalEvidenceRefs x refs :
  x ∈ canonicalEvidenceRefs refs ↔ x ∈ trim_space <$> refs.
Proof.
  unfold canonicalEvidenceRefs. rewrite (proj2 (compact_sorted _ (sort_slice_sorted _ _))).
  apply elem_of_sort_slice.
Qed.

Lemma canonicalEvidenceRefs_set refs1 refs2 :
  (∀ x, x ∈ trim_space <$> refs1 ↔ x ∈ trim_space <$> refs2) →
  canonicalEvidenceRefs refs1 = canonicalEvidenceRefs refs2.
Proof.
  intros Heq. apply string_lt_sorted_unique; [apply canonicalEvidenceRefs_sorted..|].
  intros x. by rewrite !elem_of_canonicalEvidenceRefs.
Qed.

Lemma canonicalEvidenceRefs_idemp refs :
  canonicalEvidenceRefs (canonicalEvidenceRefs refs) = canonicalEvidenceRefs refs.
Proof.
  apply canonicalEvidenceRefs_set. intros x. split.
  - intros (y & -> & Hy)%list_elem_of_fmap.
    apply elem_of_canonicalEvidenceRefs, list_elem_of_fmap in Hy as (z & -> & Hz).
    rewrite trim_space_idemp. by apply list_elem_of_fmap_2.
  - intros Hx. pose proof Hx as (y & -> & Hy)%list_elem_of_fmap.
    apply list_elem_of_fmap. exists (trim_space y). rewrite trim_space_idemp.
    split; [done|]. by apply elem_of_canonicalEvidenceRefs.
Qed.
#[export] Hint Rewrite canonicalEvidenceRefs_idemp : sched.

(** The canonical evidence list is strictly sorted bytewise, contains exactly
    the trimmed references, and depends on nothing else: two slices with the same
    set of trimmed references have the same canonical form, whatever their order,
    repetitions and surrounding white space. *)
Theorem canonicalEvidenceRefs_correct refs :
  StronglySorted string_lt (canonicalEvidenceRefs refs)
  ∧ (∀ x, x ∈ canonicalEvidenceRefs refs ↔ ∃ r, r ∈ refs ∧ x = trim_space r)
  ∧ canonicalEvidenceRefs (canonicalEvidenceRefs refs) = canonicalEvidenceRefs refs
  ∧ ∀ refs', (∀ x, x ∈ trim_space <$> refs ↔ x ∈ trim_space <$> refs') →
      canonicalEvidenceRefs refs = canonicalEvidenceRefs refs'.
Proof.
  split; [apply canonicalEvidenceRefs_sorted|]. split; [|split].
  - intros x. rewrite elem_of_canonicalEvidenceRefs, list_elem_of_fmap. naive_solver.
  - apply canonicalEvidenceRefs_idemp.
  - apply canonicalEvidenceRefs_set.
Qed.

(** ** Constructed intents *)

Definition metadata_of (i : Intent) : IntentMetadata :=
  mkIntentMetadata (in_ID i) (in_IdempotencyKey i) (in_Producer i) (in_Authority i)
    (in_Actor i) (in_Reason i) (in_EvidenceRefs i) (in_PolicyVersion i) (in_SnapshotVersion i)
    (in_CreatedAt i) (in_ExpiresAt i).

Lemma normalizeMetadata_idemp m : normalizeMetadata (normalizeMetadata m) = normalizeMetadata m.
Proof.
  destruct m. unfold normalizeMetadata. upd.
  by rewrite !trim_space_idemp, canonicalEvidenceRefs_idemp.
Qed.
#[export] Hint Rewrite normalizeMetadata_idemp : sched.

(** An intent whose metadata is in normal form. *)
Definition normal (i : Intent) : Prop := normalizeMetadata (metadata_of i) = metadata_of i.

Ltac account_facts :=
  match goal with
  | H : Resource_Validate (mkResource ResourceAccount _ _ _) = Ok _ |- _ =>
      apply Resource_Validate_account in H as (? & ? & [= ->]); [|done]
  end.

Section constructors.
Context `{UnicodeTables}.

Lemma newIntent_ok m r op ds i :
  newIntent m r op ds = Ok i →
  metadata_of i = normalizeMetadata m ∧ in_Resource i = r ∧ in_Operation i = op ∧
  in_DesiredState i = ds ∧ Intent_Validate i = Ok ().
Proof.
  unfold newIntent. intros Hn. inv_result. split_and!; try done. by destruct m.
Qed.

Lemma newIntent_normal m r op ds i : newIntent m r op ds = Ok i → normal i.
Proof.
  intros (Hm & _)%newIntent_ok. unfold normal. by rewrite Hm, normalizeMetadata_idemp.
Qed.

Lemma newIntent_rebuild i :
  normal i → Intent_Validate i = Ok () →
  newIntent (metadata_of i) (in_Resource i) (in_Operation i) (in_DesiredState i) = Ok i.
Proof.
  intros Hn Hv. unfold newIntent. rewrite Hn. destruct i; cbn in *. by rewrite Hv.
Qed.

(** The three public constructors, as one statement: a built intent targets what
    was asked for. *)
Lemma NewAccountSchedulableIntent_ok m id b i :
  NewAccountSchedulableIntent m id b = Ok i →
  (0 < id)%Z ∧ newIntent m (mkResource ResourceAccount id 0 "") OperationSetAccountSchedulable
    (schedulableState b) = Ok i.
Proof.
  unfold NewAccountSchedulableIntent, NewAccountResource. intros Hn. inv_result.
  by account_facts.
Qed.

Lemma NewAccountLoadFactorIntent_ok m id v i :
  NewAccountLoadFactorIntent m id v = Ok i →
  (0 < id)%Z ∧ (∀ x, v = Some x → (1 ≤ x)%Z) ∧
  newIntent m (mkResource ResourceAccount id 0 "") OperationSetAccountLoadFactor
    (mkDesiredState desiredStateLoadFactor false (default 0%Z v) (bool_decide (is_Some v)) "") = Ok i.
Proof.
  unfold NewAccountLoadFactorIntent, NewAccountResource. intros Hn. inv_result.
  account_facts. split; [done|]. unfold loadFactorState in *.
  destruct v as [lf|]; inv_result; bool_facts; (split; [|done]).
  - by intros ? [= <-].
  - done.
Qed.
End constructors.

(** ** The public constructors *)

Definition built (m : IntentMetadata) (r : Resource) (op : Operation) (ds : DesiredState) : Intent :=
  let m := normalizeMetadata m in
  mkIntent (md_ID m) (md_IdempotencyKey m) (md_Producer m) (md_Authority m) r op ds
    (md_Actor m) (md_Reason m) (md_EvidenceRefs m) (md_PolicyVersion m) (md_SnapshotVersion m)
    (md_CreatedAt m) (md_ExpiresAt m).

Definition account_resource (id : Z) : Resource := mkResource ResourceAccount id 0 "".
Definition key_resource (source : Z) (key : string) : Resource :=
  mkResource ResourceUpstreamKey 0 source key.
Definition load_state (v : option Z) : DesiredState :=
  match v with
  | None => mkDesiredState desiredStateLoadFactor false 0 false ""
  | Some x => mkDesiredState desiredStateLoadFactor false x true ""
  end.
Definition tier_state (tier : string) : DesiredState :=
  mkDesiredState desiredStateGroupTier false 0 false tier.
Definition group_tiers : list string := [GroupTierMain; GroupTierBackup; GroupTierEmergency].

Section public_constructors.
Context `{UnicodeTables}.

Lemma newIntent_iff m r op ds i :
  newIntent m r op ds = Ok i ↔ i = built m r op ds ∧ Intent_Validate i = Ok ().
Proof.
  unfold newIntent. fold (built m r op ds). rewrite then_ok. split; [intros [? [= <-]]|intros [-> ?]]; done.
Qed.

Lemma account_resource_valid id : (0 < id)%Z → NewAccountResource id = Ok (account_resource id).
Proof.
  intros Hid. unfold NewAccountResource.
  by rewrite (proj2 (Resource_Validate_account (mkResource ResourceAccount id 0 "") eq_refl)) by eauto.
Qed.

Lemma key_resource_valid source key :
  (0 < source)%Z → nonblank (trim_space key) →
  NewUpstreamKeyResource source key = Ok (key_resource source (trim_space key)).
Proof.
  intros Hs Hk. unfold NewUpstreamKeyResource.
  by rewrite (proj2 (Resource_Validate_key (mkResource ResourceUpstreamKey 0 source (trim_space key)) eq_refl))
    by eauto 6.
Qed.

Lemma valid_target i : Intent_Validate i = Ok () →
  target (in_Resource i) (in_Operation i) (in_DesiredState i).
Proof. intros [t [? ? ? ? Ht]]%Intent_Validate_ok. done. Qed.

Lemma to_lower_tier tier : tier ∈ group_tiers → to_lower (trim_space tier) = tier.
Proof.
  unfold group_tiers. rewrite !elem_of_cons, elem_of_nil.
  by intros [->|[->|[->|[]]]]; vm_compute.
Qed.

Lemma schedulable_constructor m id b i :
  NewAccountSchedulableIntent m id b = Ok i ↔
  i = built m (account_resource id) OperationSetAccountSchedulable (schedulableState b)
  ∧ Intent_Validate i = Ok ().
Proof.
  rewrite <-newIntent_iff. split; [by intros [_ ?]%NewAccountSchedulableIntent_ok|].
  intros Hn. pose proof Hn as [-> Hv]%newIntent_iff. apply valid_target in Hv.
  inv Hv. unfold NewAccountSchedulableIntent. by rewrite account_resource_valid.
Qed.

Lemma load_factor_constructor m id v i :
  NewAccountLoadFactorIntent m id v = Ok i ↔
  i = built m (account_resource id) OperationSetAccountLoadFactor (load_state v)
  ∧ Intent_Validate i = Ok ().
Proof.
  rewrite <-newIntent_iff. split.
  - intros (_ & _ & Hn)%NewAccountLoadFactorIntent_ok. by destruct v.
  - intros Hn. pose proof Hn as [-> Hv]%newIntent_iff. apply valid_target in Hv.
    inv Hv as [|? ? ? _ Hlf|]. unfold NewAccountLoadFactorIntent.
    rewrite account_resource_valid by done. simpl.
    destruct v as [lf|]; [|done]. simpl in *. unfold loadFactorState.
    rewrite (proj2 (Z.ltb_ge _ _)) by auto. done.
Qed.

Lemma group_tier_constructor m source key tier i :
  NewUpstreamKeyGroupTierIntent m source key tier = Ok i ↔
  i = built m (key_resource source (trim_space key)) OperationSetUpstreamKeyGroupTier
        (tier_state (to_lower (trim_space tier)))
  ∧ to_lower (trim_space tier) ∈ group_tiers ∧ Intent_Validate i = Ok ().
Proof.
  unfold NewUpstreamKeyGroupTierIntent, groupTierState.
  fold group_tiers (tier_state (to_lower (trim_space tier))). split.
  - intros Hn. inv_result. case_bool_decide; inv_result. unfold NewUpstreamKeyResource in *.
    inv_result. apply newIntent_iff in Hn. naive_solver.
  - intros (-> & Ht & Hv). rewrite (bool_decide_true _ Ht).
    pose proof Hv as Htarget%valid_target. inv Htarget.
    rewrite key_resource_valid by done. simpl. by apply newIntent_iff.
Qed.

(** Validation accepts exactly the intents that satisfy the contract
    [valid_intent]: a known producer and authority, a resource, an operation and a
    desired state that agree (a load factor of at least one, an existing tier),
    identity, actor and reason present, a creation time, an expiration after it,
    and what the authority's row of [terms_of] demands of snapshot, policy,
    evidence and time to live. The public constructors return an intent exactly
    when the intent with the trimmed, canonicalised metadata is such a one, and
    it is in normal form. *)
Theorem intents_validated_and_normal :
  (∀ i, Intent_Validate i = Ok () ↔ ∃ t, valid_intent i t)
  ∧ (∀ m id b i, NewAccountSchedulableIntent m id b = Ok i ↔
      i = built m (account_resource id) OperationSetAccountSchedulable (schedulableState b)
      ∧ ∃ t, valid_intent i t)
  ∧ (∀ m id v i, NewAccountLoadFactorIntent m id v = Ok i ↔
      i = built m (account_resource id) OperationSetAccountLoadFactor (load_state v)
      ∧ ∃ t, valid_intent i t)
  ∧ (∀ m source key tier i, NewUpstreamKeyGroupTierIntent m source key tier = Ok i ↔
      i = built m (key_resource source (trim_space key)) OperationSetUpstreamKeyGroupTier
            (tier_state (to_lower (trim_space tier)))
      ∧ to_lower (trim_space tier) ∈ group_tiers ∧ ∃ t, valid_intent i t)
  ∧ (∀ m r op ds, normal (built m r op ds)).
Proof.
  split_and!; intros; rewrite <-?Intent_Validate_ok.
  - done.
  - apply schedulable_constructor.
  - apply load_factor_constructor.
  - apply group_tier_constructor.
  - unfold normal. transitivity (normalizeMetadata (normalizeMetadata m)); [by destruct m|].
    rewrite normalizeMetadata_idemp. by destruct m.
Qed.
End public_constructors.

(** ** Samples

    Intents built by the constructors over [plain_tables], on which the theorems of
    the development are instantiated. *)
Module Samples.
#[export] Existing Instance plain_tables.

Definition midnight : time := (1700000000 * second)%Z.

Definition policy_metadata : IntentMetadata :=
  mkIntentMetadata "policy-1" "key-policy" ProducerPolicyScheduler AuthorityActivePolicy
    "scheduler" "three failures" [] "v3" "snapshot-9" midnight None.
Definition hold_metadata : IntentMetadata :=
  mkIntentMetadata " hold-1 " "key-hold" ProducerAdminUI AuthorityManualHold
    "operator" "maintenance" ["b"; "a "; "a"] "" "" (midnight + hour)%Z None.
Definition agent_metadata : IntentMetadata :=
  mkIntentMetadata "agent-1" "key-agent" ProducerAgentOperator AuthorityAutonomousAgent
    "agent" "spike" ["incident-4"] "" "snapshot-9" midnight (Some (midnight + 15 * minute)%Z).

Definition force {A} (d : A) (r : result ValidationError A) : A :=
  match r with Ok a => a | Err _ => d end.
Definition nothing : Intent :=
  built policy_metadata (account_resource 0) "" (schedulableState false).

Definition policy_resume : Intent :=
  force nothing (NewAccountSchedulableIntent policy_metadata 7 true).
Definition operator_hold : Intent :=
  force nothing (NewAccountSchedulableIntent hold_metadata 7 false).
Definition agent_pause : Intent :=
  force nothing (NewAccountSchedulableIntent agent_metadata 7 false).

Example policy_resume_valid : NewAccountSchedulableIntent policy_metadata 7 true = Ok policy_resume.
Proof. vm_compute. done. Qed.
Example operator_hold_valid : NewAccountSchedulableIntent hold_metadata 7 false = Ok operator_hold.
Proof. vm_compute. done. Qed.
Example agent_pause_valid : NewAccountSchedulableIntent agent_metadata 7 false = Ok agent_pause.
Proof. vm_compute. done. Qed.
Example operator_hold_trimmed :
  (in_ID operator_hold, in_EvidenceRefs operator_hold) = ("hold-1", ["a"; "b"]).
Proof. vm_compute. done. Qed.
End Samples.
