(* ===== verification/Override.v ===== *)
(** * Override leases

    [internal/controlplane/override.go]: temporary overrides and manual holds, their
    revocation and the time during which they are active. *)

From S2P Require Import Prelude GoStd Intent.

(** Every error of this file wraps [ErrInvalidOverride]; what follows it is the
    intent's validation error or a message. *)
Inductive OverrideError :=
  | OverrideInvalidIntent (cause : ValidationError)
  | OverrideDetail (message : string).

Record OverrideRevocation := mkOverrideRevocation {
  rv_Actor : string;
  rv_Reason : string;
  rv_RevokedAt : time;
}.

Record OverrideLease := mkOverrideLease {
  ol_intent : Intent;
  ol_revocation : option OverrideRevocation;
}.

Section leases.
Context `{UnicodeTables}.

(** [if err := intent.Validate(); err != nil { return wrap(err) }] *)
Definition check_intent (i : Intent) : result OverrideError unit :=
  match Intent_Validate i with
  | Ok _ => Ok ()
  | Err e => Err (OverrideInvalidIntent e)
  end.

Definition NewTemporaryOverride (intent : Intent) : result OverrideError OverrideLease :=
  check_intent intent;;
  fail_if (bool_decide (in_ExpiresAt intent = None))
    (OverrideDetail "temporary override requires expiration");;
  if bool_decide (in_Authority intent ∈
       [AuthorityAdministratorCommand; AuthorityEmergencyAutomation;
        AuthorityAutonomousAgent; AuthorityOptimization])
  then mret (mkOverrideLease (cloneIntent intent) None)
  else Err (OverrideDetail
         ("authority " +:+ Authority_String (in_Authority intent) +:+ " is not a temporary override")).

Definition NewManualHold (intent : Intent) : result OverrideError OverrideLease :=
  check_intent intent;;
  fail_if (bool_decide (in_Authority intent ≠ AuthorityManualHold))
    (OverrideDetail "manual hold authority is required");;
  mret (mkOverrideLease (cloneIntent intent) None).

Definition Revoke (l : OverrideLease) (at_ : time) (actor reason : string)
    : result OverrideError OverrideLease :=
  check_intent (ol_intent l);;
  let actor := trim_space actor in
  let reason := trim_space reason in
  fail_if (bool_decide (actor = "") || bool_decide (reason = "") || is_zero_time at_
           || before at_ (in_CreatedAt (ol_intent l)))
    (OverrideDetail "revocation requires actor, reason, and a time at or after creation");;
  fail_if (bool_decide (is_Some (ol_revocation l))) (OverrideDetail "override is already revoked");;
  mret (mkOverrideLease (cloneIntent (ol_intent l))
          (Some (mkOverrideRevocation actor reason at_))).

Definition Active (l : OverrideLease) (now : time) : bool :=
  if negb (is_ok (Intent_Validate (ol_intent l))) || Expired (ol_intent l) now then false
  else match ol_revocation l with
       | None => true
       | Some rv => before now (rv_RevokedAt rv)
       end.

(** ** The life of a lease

    A lease is issued, may be revoked once, and is active up to its end. *)
Inductive issued : OverrideLease → Prop :=
  | issued_temporary i l : NewTemporaryOverride i = Ok l → issued l
  | issued_hold i l : NewManualHold i = Ok l → issued l
  | issued_revoked l t actor reason l' : issued l → Revoke l t actor reason = Ok l' → issued l'.

(** The first instant at which the lease is over, if there is one. *)
Definition lease_end (l : OverrideLease) : option time :=
  match in_ExpiresAt (ol_intent l), rv_RevokedAt <$> ol_revocation l with
  | Some e, Some r => Some (Z.min e r)
  | Some e, None => Some e
  | None, r => r
  end.

Lemma check_intent_ok i : check_intent i = Ok () ↔ Intent_Validate i = Ok ().
Proof. unfold check_intent. destruct (Intent_Validate i) as [[]|e]; done. Qed.

Lemma issued_valid l : issued l → Intent_Validate (ol_intent l) = Ok ().
Proof.
  induction 1 as [i l Hl|i l Hl|l t actor reason l' _ IH Hl]; [| |].
  - unfold NewTemporaryOverride in Hl. inv_result. case_bool_decide; inv_result.
    by apply check_intent_ok.
  - unfold NewManualHold in Hl. inv_result. by apply check_intent_ok.
  - unfold Revoke in Hl. inv_result. done.
Qed.

Lemma Active_before_end l now :
  Intent_Validate (ol_intent l) = Ok () →
  Active l now = true ↔ ∀ t, lease_end l = Some t → (now < t)%Z.
Proof.
  intros Hv. unfold Active, lease_end, Expired, before. rewrite Hv. simpl.
  destruct (in_ExpiresAt (ol_intent l)) as [e|], (ol_revocation l) as [rv|]; simpl.
  - destruct (now <? e)%Z eqn:E; simpl; bool_facts.
    + rewrite Z.ltb_lt. split; [intros ? ? [= <-]; lia|intros Ht; specialize (Ht _ eq_refl); lia].
    + split; [done|]. intros Ht. specialize (Ht _ eq_refl). lia.
  - destruct (now <? e)%Z eqn:E; simpl; bool_facts.
    + split; [by intros _ ? [= <-]|done].
    + split; [done|]. intros Ht. specialize (Ht _ eq_refl). lia.
  - rewrite Z.ltb_lt. split; [by intros ? ? [= <-]|intros Ht; by apply Ht].
  - done.
Qed.

(** An issued lease (temporary override or manual hold, revoked or not) is
    active exactly before its end, the earlier of its expiration and its
    revocation; so it never becomes active again, revoking never extends it, a
    second revocation is always refused, and a temporary override always ends. *)
Theorem lease_lifecycle l :
  issued l →
  (∀ now, Active l now = true ↔ ∀ t, lease_end l = Some t → (now < t)%Z)
  ∧ (∀ now later, (now ≤ later)%Z → Active l later = true → Active l now = true)
  ∧ (∀ t actor reason l', Revoke l t actor reason = Ok l' →
      (∀ now, Active l' now = Active l now && before now t)
      ∧ (in_CreatedAt (ol_intent l) ≤ t)%Z
      ∧ ∀ t' actor' reason', Revoke l' t' actor' reason' =
          Err (OverrideDetail "override is already revoked")
          ∨ Revoke l' t' actor' reason' = Err (OverrideDetail
              "revocation requires actor, reason, and a time at or after creation"))
  ∧ (∀ i, NewTemporaryOverride i = Ok l → is_Some (lease_end l)).
Proof.
  intros Hi. pose proof (issued_valid l Hi) as Hv. split_and!.
  - intros now. by apply Active_before_end.
  - intros now later Hle. rewrite !Active_before_end by done. intros Ha t Ht.
    specialize (Ha t Ht). lia.
  - intros t actor reason l' Hl. unfold Revoke in Hl. inv_result. bool_facts.
    unfold before in *. bool_facts. split_and!.
    + intros now. unfold Active, cloneIntent. cbn [ol_intent ol_revocation rv_RevokedAt].
      rewrite Hv. cbn [is_ok negb orb].
      destruct (ol_revocation l); [exfalso; eauto|]. by destruct (Expired _ _).
    + done.
    + intros t' actor' reason'. unfold Revoke, cloneIntent. cbn [ol_intent ol_revocation].
      rewrite (proj2 (check_intent_ok (ol_intent l)) Hv). cbn [mbind result_bind].
      unfold fail_if. destruct (_ || before _ _); [by right|].
      rewrite bool_decide_true by eauto. by left.
  - intros i Hl. unfold NewTemporaryOverride in Hl. inv_result.
    case_bool_decide; inv_result. bool_facts. unfold lease_end. cbn. unfold cloneIntent.
    destruct (in_ExpiresAt i); [by eexists|done].
Qed.
End leases.

Import Samples.

Lemma lease_lifecycle_witness :
  ∃ l, NewTemporaryOverride agent_pause = Ok l ∧
    (∀ now, Active l now = true ↔ ∀ t, lease_end l = Some t → (now < t)%Z) ∧
    Active l midnight = true ∧ Active l (midnight + hour)%Z = false.
Proof.
  exists (mkOverrideLease agent_pause None).
  assert (NewTemporaryOverride agent_pause = Ok (mkOverrideLease agent_pause None)) as Hnew
    by (vm_compute; reflexivity).
  split; [exact Hnew|].
  split; [apply (lease_lifecycle _ (issued_temporary _ _ Hnew))|].
  split; vm_compute; reflexivity.
Defined.
