(* ===== verification/Arbiter.v ===== *)
(** * The arbiter

    [internal/controlplane/arbiter.go]: the canonical encodings of intents, the
    digest that identifies their semantics, and [Arbitrate], which sorts the
    submitted intents into buckets by conflict key, resolves idempotency keys and
    picks a winner per bucket. The maps of the source are [gmap]s; their iteration
    order is the library's, and every iteration is followed by the sort of the
    source. This file holds the definitions and the theorems on the encodings;
    [ArbiterFacts] holds those on [Arbitrate]. *)

From S2P Require Import Prelude GoStd Sha256 Intent.
From Stdlib Require Import Ascii.

Abbreviation ReasonCode := string (only parsing).
Definition ReasonSelected : ReasonCode := "selected".
Definition ReasonExpired : ReasonCode := "expired".
Definition ReasonInvalid : ReasonCode := "invalid".
Definition ReasonLowerAuthority : ReasonCode := "lower_authority".
Definition ReasonOlderSameAuthority : ReasonCode := "older_same_authority".
Definition ReasonDuplicate : ReasonCode := "duplicate".
Definition ReasonIdempotencyConflict : ReasonCode := "idempotency_conflict".
Definition ReasonDeterministicTieBreak : ReasonCode := "deterministic_tie_break".

Record CandidateOutcome := mkCandidateOutcome {
  co_Intent : Intent;
  co_ReasonCode : ReasonCode;
  co_Detail : string;
}.

Record ArbitrationResult := mkArbitrationResult {
  ar_ConflictKey : ConflictKey;
  ar_Winner : option Intent;
  ar_Superseded : list CandidateOutcome;
  ar_Ignored : list CandidateOutcome;
  ar_ReasonCode : ReasonCode;
}.

(** The map entry of a conflict key; the key itself is the entry's key. *)
Record arbitrationBucket := mkBucket {
  ab_candidates : list Intent;
  ab_ignored : list CandidateOutcome;
}.

Abbreviation bucket_map := (gmap (Resource * string) arbitrationBucket) (only parsing).
Abbreviation intents_by_key := (gmap string (list Intent)) (only parsing).

(** ** Canonical encodings *)

(** The length of the part, a colon, the part and a bar. *)
Definition appendCanonicalPart (builder value : string) : string :=
  builder +:+ format_int (Z.of_nat (String.length value)) +:+ ":" +:+ value +:+ "|".

Section with_unicode.
Context `{UnicodeTables}.

Definition semanticSignature (i : Intent) : string :=
  let builder := "" in
  let builder := appendCanonicalPart builder (Producer_String (in_Producer i)) in
  let builder := appendCanonicalPart builder (Authority_String (in_Authority i)) in
  let builder := appendCanonicalPart builder (Resource_String (in_Resource i)) in
  let builder := appendCanonicalPart builder (Operation_String (in_Operation i)) in
  let builder := appendCanonicalPart builder (canonical (in_DesiredState i)) in
  let builder := appendCanonicalPart builder (in_Actor i) in
  let builder := appendCanonicalPart builder (in_Reason i) in
  let builder := appendCanonicalPart builder (in_PolicyVersion i) in
  let builder := appendCanonicalPart builder (in_SnapshotVersion i) in
  let builder := appendCanonicalPart builder (format_int (unix_nano (in_CreatedAt i))) in
  let builder := appendCanonicalPart builder
    (match in_ExpiresAt i with
     | None => "no_expiration"
     | Some e => format_int (unix_nano e)
     end) in
  foldl appendCanonicalPart builder (canonicalEvidenceRefs (in_EvidenceRefs i)).

Definition canonicalIntentKey (i : Intent) : string :=
  let builder := "" in
  let builder := appendCanonicalPart builder (in_ID i) in
  let builder := appendCanonicalPart builder (in_IdempotencyKey i) in
  appendCanonicalPart builder (semanticSignature i).

Definition SemanticSignature (i : Intent) : result ValidationError string :=
  Intent_Validate i;;
  mret ("cp-sem-v1-" +:+ sha256_hex (semanticSignature i)).

(** ** Comparisons *)

Definition less_canonical (left right : Intent) : bool :=
  string_less (canonicalIntentKey left) (canonicalIntentKey right).

(** By identifier, then canonically. *)
Definition less_identifier (left right : Intent) : bool :=
  if bool_decide (in_ID left ≠ in_ID right) then string_less (in_ID left) (in_ID right)
  else less_canonical left right.

Definition candidateWins (left right : Intent) : bool :=
  let leftRank := (authorityRank (in_Authority left)).1 in
  let rightRank := (authorityRank (in_Authority right)).1 in
  if bool_decide (leftRank ≠ rightRank) then (leftRank <? rightRank)%Z else
  if bool_decide (in_CreatedAt left ≠ in_CreatedAt right)
  then after (in_CreatedAt left) (in_CreatedAt right) else
  if bool_decide (in_ID left ≠ in_ID right) then string_less (in_ID left) (in_ID right)
  else less_canonical left right.

Definition supersededReason (winner loser : Intent) : ReasonCode :=
  let winnerRank := (authorityRank (in_Authority winner)).1 in
  let loserRank := (authorityRank (in_Authority loser)).1 in
  if bool_decide (winnerRank ≠ loserRank) then ReasonLowerAuthority else
  if bool_decide (in_CreatedAt winner ≠ in_CreatedAt loser) then ReasonOlderSameAuthority
  else ReasonDeterministicTieBreak.

Definition less_outcome (left right : CandidateOutcome) : bool :=
  if bool_decide (co_ReasonCode left ≠ co_ReasonCode right)
  then string_less (co_ReasonCode left) (co_ReasonCode right)
  else less_canonical (co_Intent left) (co_Intent right).
Definition sortOutcomes : list CandidateOutcome → list CandidateOutcome :=
  sort_slice less_outcome.

Definition sameIdempotentSemantics (intents : list Intent) : bool :=
  match intents with
  | [] | [_] => true
  | first :: rest =>
      forallb (λ i, bool_decide (semanticSignature i = semanticSignature first)) rest
  end.

(** ** Buckets *)

Definition ensureBucket (buckets : bucket_map) (key : ConflictKey) : arbitrationBucket :=
  match buckets !! key with
  | Some b => b
  | None => mkBucket [] []
  end.

(** [bucket := ensureBucket(buckets, key); bucket.ignored = append(...)] *)
Definition ignore_intent (buckets : bucket_map) (key : ConflictKey) (o : CandidateOutcome) : bucket_map :=
  let b := ensureBucket buckets key in
  <[key := mkBucket (ab_candidates b) (ab_ignored b ++ [o])]> buckets.
Definition enter_candidate (buckets : bucket_map) (key : ConflictKey) (i : Intent) : bucket_map :=
  let b := ensureBucket buckets key in
  <[key := mkBucket (ab_candidates b ++ [i]) (ab_ignored b)]> buckets.

Definition invalid_outcome (i : Intent) (e : ValidationError) : CandidateOutcome :=
  mkCandidateOutcome i ReasonInvalid (ValidationError_Error e).
Definition expired_outcome (i : Intent) : CandidateOutcome :=
  mkCandidateOutcome i ReasonExpired "intent expiration is at or before arbitration time".
Definition conflict_outcome (i : Intent) : CandidateOutcome :=
  mkCandidateOutcome i ReasonIdempotencyConflict
    "idempotency key is shared by different intent semantics".
Definition duplicate_outcome (i : Intent) : CandidateOutcome :=
  mkCandidateOutcome i ReasonDuplicate "semantically identical idempotency key".
Definition superseded_outcome (winner loser : Intent) : CandidateOutcome :=
  mkCandidateOutcome loser (supersededReason winner loser) "candidate lost deterministic arbitration".

(** The first loop: invalid and expired intents are ignored at once, the others
    are grouped by idempotency key. *)
Definition classify (now : time) (st : bucket_map * intents_by_key) (i : Intent)
    : bucket_map * intents_by_key :=
  let '(buckets, active) := st in
  let key := Intent_ConflictKey i in
  let buckets := <[key := ensureBucket buckets key]> buckets in
  match Intent_Validate i with
  | Err e => (ignore_intent buckets key (invalid_outcome i e), active)
  | Ok _ =>
      if Expired i now then (ignore_intent buckets key (expired_outcome i), active)
      else (buckets, <[in_IdempotencyKey i := default [] (active !! in_IdempotencyKey i) ++ [i]]> active)
  end.

(** The second loop, on one idempotency key. *)
Definition settle_key (active : intents_by_key) (buckets : bucket_map) (key : string) : bucket_map :=
  let candidates := sort_slice less_identifier (default [] (active !! key)) in
  if negb (sameIdempotentSemantics candidates) then
    foldl (λ bs i, ignore_intent bs (Intent_ConflictKey i) (conflict_outcome i)) buckets candidates
  else
    match candidates with
    | [] => buckets
    | first :: duplicates =>
        let home := Intent_ConflictKey first in
        foldl (λ bs i, ignore_intent bs home (duplicate_outcome i))
          (enter_candidate buckets home first) duplicates
    end.

(** The third loop, on one bucket. *)
Definition decide_bucket (entry : ConflictKey * arbitrationBucket) : ArbitrationResult :=
  let '(key, bucket) := entry in
  let candidates := sort_slice candidateWins (ab_candidates bucket) in
  let ignored := sortOutcomes (ab_ignored bucket) in
  match candidates with
  | winner :: losers =>
      mkArbitrationResult key (Some winner)
        (sortOutcomes (superseded_outcome winner <$> losers)) ignored ReasonSelected
  | [] =>
      mkArbitrationResult key None [] ignored
        (match ignored with [] => "" | o :: _ => co_ReasonCode o end)
  end.

Definition Arbitrate (now : time) (intents : list Intent) : list ArbitrationResult :=
  let working := sort_slice less_canonical (cloneIntent <$> intents) in
  let '(buckets, active) := foldl (classify now) (∅, ∅) working in
  let idempotencyKeys := sort_slice string_less (map_to_list active).*1 in
  let buckets := foldl (settle_key active) buckets idempotencyKeys in
  sort_slice (λ l r, string_less (ConflictKey_String (ar_ConflictKey l))
                                 (ConflictKey_String (ar_ConflictKey r)))
    (decide_bucket <$> map_to_list buckets).
End with_unicode.

(** ** The encodings are injective *)

Fixpoint encode_parts (parts : list string) : string :=
  match parts with
  | [] => ""
  | v :: parts =>
      format_int (Z.of_nat (String.length v)) +:+ String ":"%char (v +:+ String "|"%char (encode_parts parts))
  end.

Lemma appendCanonicalPart_foldl builder parts :
  foldl appendCanonicalPart builder parts = builder +:+ encode_parts parts.
Proof.
  revert builder. induction parts as [|v parts IH]; intros builder; simpl.
  - by induction builder as [|c b IHb]; [|change (String c b = String c (b +:+ "")); rewrite <-IHb].
  - rewrite IH. unfold appendCanonicalPart. by rewrite !string_app_assoc.
Qed.

Lemma encode_parts_inj p1 p2 : encode_parts p1 = encode_parts p2 → p1 = p2.
Proof.
  revert p2. induction p1 as [|v1 p1 IH]; intros [|v2 p2]; simpl; intros Heq; [done| | |].
  - exfalso. apply (f_equal String.length) in Heq.
    destruct (format_int (Z.of_nat (String.length v2))); discriminate Heq.
  - exfalso. apply (f_equal String.length) in Heq.
    destruct (format_int (Z.of_nat (String.length v1))); discriminate Heq.
  - apply numeric_split in Heq as [Hlen Heq]; [|done|apply numeric_format_int..].
    apply (inj format_int), Nat2Z.inj in Hlen.
    apply string_app_inj_len in Heq as [-> Heq]; [|done].
    apply string_cons_inj in Heq as [_ Heq]. f_equal. by apply IH.
Qed.

Section encodings.
Context `{UnicodeTables}.

Definition semantic_parts (i : Intent) : list string :=
  [Producer_String (in_Producer i); Authority_String (in_Authority i);
   Resource_String (in_Resource i); Operation_String (in_Operation i);
   canonical (in_DesiredState i); in_Actor i; in_Reason i; in_PolicyVersion i;
   in_SnapshotVersion i; format_int (unix_nano (in_CreatedAt i));
   match in_ExpiresAt i with
   | None => "no_expiration" | Some e => format_int (unix_nano e) end]
  ++ canonicalEvidenceRefs (in_EvidenceRefs i).

Lemma semanticSignature_parts i : semanticSignature i = encode_parts (semantic_parts i).
Proof.
  transitivity (foldl appendCanonicalPart "" (semantic_parts i)); [done|].
  apply appendCanonicalPart_foldl.
Qed.

Lemma canonicalIntentKey_parts i :
  canonicalIntentKey i = encode_parts [in_ID i; in_IdempotencyKey i; semanticSignature i].
Proof.
  transitivity (foldl appendCanonicalPart ""
    [in_ID i; in_IdempotencyKey i; semanticSignature i]); [done|].
  apply appendCanonicalPart_foldl.
Qed.

Lemma canonicalIntentKey_inj i j :
  canonicalIntentKey i = canonicalIntentKey j →
  in_ID i = in_ID j ∧ in_IdempotencyKey i = in_IdempotencyKey j ∧
  semanticSignature i = semanticSignature j.
Proof.
  rewrite !canonicalIntentKey_parts. intros [= -> -> ->]%encode_parts_inj. done.
Qed.

Lemma Resource_String_inj r s :
  Resource_Validate r = Ok () → Resource_Validate s = Ok () →
  Resource_String r = Resource_String s → r = s.
Proof.
  intros Hr Hs. unfold Resource_String.
  assert (∀ q, Resource_Validate q = Ok () →
    r_kind q = ResourceAccount ∨ r_kind q = ResourceUpstreamKey) as Hkind.
  { intros q Hq. unfold Resource_Validate in Hq. repeat case_bool_decide; auto; done. }
  destruct (Hkind r Hr) as [Er|Er], (Hkind s Hs) as [Es|Es]; rewrite Er, Es; simpl.
  - apply Resource_Validate_account in Hr as (a & _ & ->); [|done].
    apply Resource_Validate_account in Hs as (b & _ & ->); [|done].
    by intros [= ->%(inj format_int)].
  - done.
  - done.
  - apply Resource_Validate_key in Hr as (a & k & _ & _ & ->); [|done].
    apply Resource_Validate_key in Hs as (b & k' & _ & _ & ->); [|done]. simpl.
    intros [= Heq]. apply numeric_split in Heq as [Hab Hq]; [|done|apply numeric_format_int..].
    apply (inj format_int) in Hab as ->. by apply (inj quote) in Hq as ->.
Qed.

(** The fields a signature stands for; identifiers and idempotency keys are not
    part of the semantics, evidence counts as a set, instants by their
    nanoseconds. *)
Record same_semantics (i j : Intent) : Prop := {
  ss_producer : in_Producer i = in_Producer j;
  ss_authority : in_Authority i = in_Authority j;
  ss_resource : in_Resource i = in_Resource j;
  ss_operation : in_Operation i = in_Operation j;
  ss_desired : canonical (in_DesiredState i) = canonical (in_DesiredState j);
  ss_actor : in_Actor i = in_Actor j;
  ss_reason : in_Reason i = in_Reason j;
  ss_policy : in_PolicyVersion i = in_PolicyVersion j;
  ss_snapshot : in_SnapshotVersion i = in_SnapshotVersion j;
  ss_created : unix_nano (in_CreatedAt i) = unix_nano (in_CreatedAt j);
  ss_expires : unix_nano <$> in_ExpiresAt i = unix_nano <$> in_ExpiresAt j;
  ss_evidence : canonicalEvidenceRefs (in_EvidenceRefs i) = canonicalEvidenceRefs (in_EvidenceRefs j);
}.

Lemma expiration_text_inj (e f : option time) :
  match e with None => "no_expiration" | Some e => format_int (unix_nano e) end =
  match f with None => "no_expiration" | Some f => format_int (unix_nano f) end →
  unix_nano <$> e = unix_nano <$> f.
Proof.
  destruct e as [e|], f as [f|]; simpl; intros Heq; [..|done].
  - by apply (inj format_int) in Heq as ->.
  - pose proof (numeric_format_int (unix_nano e)) as Hn. by rewrite Heq in Hn.
  - pose proof (numeric_format_int (unix_nano f)) as Hn. by rewrite <-Heq in Hn.
Qed.

Lemma valid_names i :
  Intent_Validate i = Ok () →
  Producer_String (in_Producer i) = in_Producer i ∧
  Authority_String (in_Authority i) = in_Authority i ∧
  Operation_String (in_Operation i) = in_Operation i ∧
  Resource_Validate (in_Resource i) = Ok ().
Proof.
  intros Hv. pose proof Hv as Ht%valid_target. apply Intent_Validate_ok in Hv as [t Hv].
  unfold Producer_String, Authority_String, Operation_String.
  rewrite (vi_producer _ _ Hv). rewrite (proj2 (terms_of_valid _)) by eauto using vi_terms.
  split_and!; try done.
  - by destruct Ht.
  - apply validateFor_ok, then_ok in Ht as [? _]. done.
Qed.

Lemma semanticSignature_inj i j :
  Intent_Validate i = Ok () → Intent_Validate j = Ok () →
  semanticSignature i = semanticSignature j → same_semantics i j.
Proof.
  intros Hi Hj. destruct (valid_names i Hi) as (Ip & Ia & Io & Ir).
  destruct (valid_names j Hj) as (Jp & Ja & Jo & Jr).
  rewrite !semanticSignature_parts. intros Heq%encode_parts_inj. unfold semantic_parts in Heq.
  injection Heq as Hp Ha Hr Ho Hd Hact Hrea Hpol Hsnap Hc He Hev.
  split; try done; try congruence.
  - by apply Resource_String_inj.
  - by apply (inj format_int) in Hc.
  - by apply expiration_text_inj.
Qed.

Lemma semanticSignature_congr i j : same_semantics i j → semanticSignature i = semanticSignature j.
Proof.
  intros [Hp Ha Hr Ho Hd Hact Hrea Hpol Hsnap Hc He Hev].
  rewrite !semanticSignature_parts. unfold semantic_parts.
  rewrite Hp, Ha, Hr, Ho, Hd, Hact, Hrea, Hpol, Hsnap, Hc, Hev. do 11 f_equal.
  destruct (in_ExpiresAt i), (in_ExpiresAt j); simpl in He; simplify_eq; [by rewrite He|done].
Qed.

(** The semantic signature identifies the semantics. It exists exactly for
    valid intents; intents with the same semantic fields (producer, authority,
    resource, operation, desired state, actor, reason, versions, instants,
    evidence as a set) have the same signature whatever their identifiers; and
    two intents with the same signature have the same semantic fields, unless
    their encodings are a collision of SHA-256. *)
Theorem SemanticSignature_identifies i j :
  (is_ok (SemanticSignature i) = is_ok (Intent_Validate i))
  ∧ (∀ s t, SemanticSignature i = Ok s → SemanticSignature j = Ok t →
      (same_semantics i j → s = t)
      ∧ (s = t → same_semantics i j
                 ∨ sha256_collision (semanticSignature i) (semanticSignature j))).
Proof.
  split; [unfold SemanticSignature; by destruct (Intent_Validate i)|].
  unfold SemanticSignature. intros s t Hs Ht. inv_result. split.
  - by intros ->%semanticSignature_congr.
  - intros Heq. apply string_app_inj_len in Heq as [_ Heq]; [|done].
    apply sha256_hex_inj_or_collision in Heq as [Heq|Hcol]; [left|by right].
    by apply semanticSignature_inj.
Qed.
End encodings.
