(* ===== verification/ArbiterFacts.v ===== *)
(** * What [Arbitrate] promises

    The loops of the arbiter are unfolded into the sequence of bucket operations
    they perform, from which the contents of every bucket follow. The theorems:
    every submitted intent is accounted for exactly once and every conflict key is
    decided once; a winner is valid, unexpired, uncontested in its idempotency key
    and outranked by no other; and the outcome does not depend on the order of
    submission. *)

From S2P Require Import Prelude GoStd Sha256 Intent Arbiter.

(** ** Lexicographic comparisons on distinguishing keys *)

Lemma lex_by_key {A B} `{EqDecision B} (key : A → B) (less : B → B → bool)
    `{!StrictTotal less} (rest : A → A → bool) x y :
  (if bool_decide (key x ≠ key y) then less (key x) (key y) else rest x y)
  = lex_less (λ x y, less (key x) (key y)) rest x y.
Proof.
  unfold lex_less. case_bool_decide as Hne.
  - destruct (less (key x) (key y)) eqn:E1; [done|].
    destruct (less (key y) (key x)) eqn:E2; [done|]. by destruct Hne; apply less_connex.
  - rewrite Hne, less_irrefl. done.
Qed.

#[export] Instance later_strict : StrictTotal (λ x y : Z, after x y).
Proof.
  unfold after. split; [split|]; intros *; rewrite ?Z.ltb_irrefl; try done;
    rewrite ?Z.ltb_lt, ?Z.ltb_ge; lia.
Qed.

(** ** Bucket operations *)

Inductive action :=
  | Touch (c : Resource * string)
  | Ignore (c : Resource * string) (o : CandidateOutcome)
  | Enter (c : Resource * string) (i : Intent).

Definition action_key (a : action) : Resource * string :=
  match a with Touch c | Ignore c _ | Enter c _ => c end.
Definition apply_action (bs : bucket_map) (a : action) : bucket_map :=
  match a with
  | Touch c => <[c := ensureBucket bs c]> bs
  | Ignore c o => ignore_intent bs c o
  | Enter c i => enter_candidate bs c i
  end.
Definition entered (c : Resource * string) (a : action) : list Intent :=
  match a with Enter c' i => if decide (c' = c) then [i] else [] | _ => [] end.
Definition ignored (c : Resource * string) (a : action) : list CandidateOutcome :=
  match a with Ignore c' o => if decide (c' = c) then [o] else [] | _ => [] end.
Definition action_intents (a : action) : list Intent :=
  match a with Touch _ => [] | Ignore _ o => [co_Intent o] | Enter _ i => [i] end.

(** The contents of the bucket of [c] after a sequence of operations. *)
Lemma gather (acts : list action) c :
  foldl apply_action ∅ acts !! c =
  if decide (c ∈ action_key <$> acts)
  then Some (mkBucket (acts ≫= entered c) (acts ≫= ignored c)) else None.
Proof.
  induction acts as [|a acts IH] using rev_ind; [done|].
  rewrite foldl_app, fmap_app, !bind_app. cbn [foldl fmap list_fmap].
  assert (ensureBucket (foldl apply_action ∅ acts) c =
    mkBucket (acts ≫= entered c) (acts ≫= ignored c)) as Hc.
  { unfold ensureBucket. rewrite IH. case_decide as Hin; [done|].
    assert (∀ a, a ∈ acts → action_key a ≠ c) as Hne.
    { intros b Hb <-. apply Hin. by apply list_elem_of_fmap_2. }
    clear -Hne. induction acts as [|b acts IHa]; [done|].
    assert (action_key b ≠ c) as Hbc by (apply Hne; by left).
    specialize (IHa ltac:(intros; apply Hne; by right)). injection IHa as He Hi.
    rewrite !bind_cons, <-He, <-Hi, !app_nil_r.
    destruct b; simpl in *; rewrite ?decide_False by done; done. }
  destruct (decide (action_key a = c)) as [<-|Hne].
  - rewrite decide_True by (apply elem_of_app; right; by left).
    destruct a as [c|c o|c i]; simpl in *; unfold ignore_intent, enter_candidate;
      rewrite lookup_insert_eq, Hc; simpl; rewrite ?decide_True by done; by rewrite ?app_nil_r.
  - assert (apply_action (foldl apply_action ∅ acts) a !! c = foldl apply_action ∅ acts !! c) as ->.
    { destruct a; simpl in *; unfold ignore_intent, enter_candidate; by rewrite lookup_insert_ne. }
    assert (c ∈ (action_key <$> acts) ++ [action_key a] ↔ c ∈ action_key <$> acts) as Hiff.
    { rewrite elem_of_app, list_elem_of_singleton. naive_solver. }
    rewrite IH. rewrite (decide_ext _ _ _ _ Hiff). case_decide; [|done]. f_equal.
    destruct a as [c'|c' o|c' i]; simpl in *; rewrite ?decide_False by done;
      by rewrite ?app_nil_r.
Qed.

Definition payload (b : arbitrationBucket) : list Intent :=
  ab_candidates b ++ (co_Intent <$> ab_ignored b).
Definition total (bs : bucket_map) : list Intent := map_to_list bs ≫= λ cb, payload cb.2.

Lemma total_insert (bs : bucket_map) c b extra :
  payload b ≡ₚ payload (ensureBucket bs c) ++ extra →
  total (<[c := b]> bs) ≡ₚ total bs ++ extra.
Proof.
  intros Hb. unfold total.
  assert (∀ m : bucket_map, m !! c = None → ∀ b',
    map_to_list (<[c := b']> m) ≫= (λ cb, payload cb.2)
      ≡ₚ payload b' ++ (map_to_list m ≫= λ cb, payload cb.2)) as Hfresh.
  { intros m Hm b'. rewrite map_to_list_insert by done. done. }
  unfold ensureBucket in Hb. destruct (bs !! c) as [b0|] eqn:E.
  - rewrite <-(insert_delete_id bs c b0 E) at 2. rewrite <-insert_delete_eq.
    rewrite !Hfresh by apply lookup_delete_eq. rewrite Hb. solve_Permutation.
  - rewrite Hfresh by done. rewrite Hb. simpl. solve_Permutation.
Qed.

Lemma total_actions (acts : list action) bs :
  total (foldl apply_action bs acts) ≡ₚ total bs ++ (acts ≫= action_intents).
Proof.
  revert bs. induction acts as [|a acts IH]; intros bs; [by rewrite app_nil_r|].
  cbn [foldl]. rewrite IH, bind_cons, app_assoc. f_equiv.
  destruct a as [c|c o|c i]; simpl; apply total_insert; unfold payload; simpl.
  - by rewrite app_nil_r.
  - by rewrite fmap_app, app_assoc.
  - solve_Permutation.
Qed.

(** ** The loops as sequences of operations *)

Section arbitrate.
Context `{UnicodeTables} (now : time).

Definition live (i : Intent) : Prop := Intent_Validate i = Ok () ∧ Expired i now = false.
#[local] Instance live_dec i : Decision (live i).
Proof. unfold live. apply _. Defined.

Definition group (k : string) (l : list Intent) : list Intent :=
  filter (λ i, in_IdempotencyKey i = k) (filter live l).

Definition classify_actions (i : Intent) : list action :=
  Touch (Intent_ConflictKey i) ::
  match Intent_Validate i with
  | Err e => [Ignore (Intent_ConflictKey i) (invalid_outcome i e)]
  | Ok _ => if Expired i now then [Ignore (Intent_ConflictKey i) (expired_outcome i)] else []
  end.

Definition settle_actions (candidates : list Intent) : list action :=
  if negb (sameIdempotentSemantics candidates) then
    (λ i, Ignore (Intent_ConflictKey i) (conflict_outcome i)) <$> candidates
  else match candidates with
       | [] => []
       | first :: duplicates =>
           Enter (Intent_ConflictKey first) first ::
           ((λ i, Ignore (Intent_ConflictKey first) (duplicate_outcome i)) <$> duplicates)
       end.

Definition add_active (active : intents_by_key) (i : Intent) : intents_by_key :=
  <[in_IdempotencyKey i := default [] (active !! in_IdempotencyKey i) ++ [i]]> active.

Lemma classify_step bs active i :
  classify now (bs, active) i =
  (foldl apply_action bs (classify_actions i),
   if decide (live i) then add_active active i else active).
Proof.
  unfold classify, classify_actions. destruct (decide (live i)) as [[-> ->]|Hdead]; [done|].
  unfold live in Hdead. destruct (Intent_Validate i) as [[]|e]; [|done].
  destruct (Expired i now); [done|]. by destruct Hdead.
Qed.

Lemma classify_loop l bs active :
  foldl (classify now) (bs, active) l =
  (foldl apply_action bs (l ≫= classify_actions), foldl add_active active (filter live l)).
Proof.
  revert bs active. induction l as [|i l IH]; intros bs active; [done|].
  cbn [foldl]. rewrite classify_step, IH, bind_cons, foldl_app, filter_cons.
  by case_decide.
Qed.

Lemma add_active_lookup l k :
  default [] (foldl add_active ∅ l !! k) = filter (λ i, in_IdempotencyKey i = k) l
  ∧ (is_Some (foldl add_active ∅ l !! k) ↔ ∃ i, i ∈ l ∧ in_IdempotencyKey i = k).
Proof.
  induction l as [|x l IH] using rev_ind.
  { simpl. rewrite lookup_empty. split; [done|]. split; [by intros [? ?]|].
    by intros (i & ?%elem_of_nil & _). }
  rewrite foldl_app, filter_app. cbn [foldl]. unfold add_active at 1 3.
  destruct (decide (in_IdempotencyKey x = k)) as [<-|Hne].
  - rewrite lookup_insert_eq. simpl. destruct IH as [-> _]. split.
    + by rewrite filter_cons_True, filter_nil.
    + split; [|by eauto]. intros _. exists x. split; [|done]. apply elem_of_app. right. by left.
  - rewrite lookup_insert_ne by done. destruct IH as [-> IHs]. split.
    + by rewrite filter_cons_False, filter_nil, app_nil_r by done.
    + rewrite IHs. split; intros (i & Hi & Hk); exists i; (split; [|done]).
      * apply elem_of_app. by left.
      * apply elem_of_app in Hi as [Hi|Hi%list_elem_of_singleton]; [done|congruence].
Qed.

Lemma ignore_loop (f : Intent → (Resource * string) * CandidateOutcome) bs l :
  foldl (λ bs i, ignore_intent bs (f i).1 (f i).2) bs l =
  foldl apply_action bs ((λ i, Ignore (f i).1 (f i).2) <$> l).
Proof. revert bs. induction l as [|i l IH]; intros bs; simpl; [done|]. apply IH. Qed.

Lemma settle_key_actions active bs k :
  settle_key active bs k =
  foldl apply_action bs (settle_actions (sort_slice less_identifier (default [] (active !! k)))).
Proof.
  unfold settle_key, settle_actions. set (cs := sort_slice _ _).
  destruct (sameIdempotentSemantics cs); simpl.
  - destruct cs as [|c cs]; [done|]. simpl.
    apply (ignore_loop (λ i, (Intent_ConflictKey c, duplicate_outcome i))).
  - apply (ignore_loop (λ i, (Intent_ConflictKey i, conflict_outcome i))).
Qed.

Lemma settle_loop active bs ks :
  foldl (settle_key active) bs ks =
  foldl apply_action bs
    (ks ≫= λ k, settle_actions (sort_slice less_identifier (default [] (active !! k)))).
Proof.
  revert bs. induction ks as [|k ks IH]; intros bs; [done|].
  cbn [foldl]. by rewrite settle_key_actions, IH, bind_cons, foldl_app.
Qed.

(** The idempotency keys of the live intents, in the order they are settled. *)
Definition live_keys (l : list Intent) : list string :=
  sort_slice string_less (map_to_list (foldl add_active ∅ (filter live l))).*1.

Definition actions (l : list Intent) : list action :=
  (l ≫= classify_actions)
  ++ (live_keys l ≫= λ k, settle_actions (sort_slice less_identifier (group k l))).

Lemma live_keys_spec l :
  NoDup (live_keys l) ∧ ∀ k, k ∈ live_keys l ↔ ∃ i, i ∈ l ∧ live i ∧ in_IdempotencyKey i = k.
Proof.
  unfold live_keys. split.
  - rewrite sort_slice_Permutation. apply NoDup_fst_map_to_list.
  - intros k. rewrite elem_of_sort_slice, list_elem_of_fmap.
    transitivity (is_Some (foldl add_active ∅ (filter live l) !! k)).
    + split.
      * intros ([k' g] & -> & Hin%elem_of_map_to_list). by exists g.
      * intros [g Hg]. exists (k, g). split; [done|]. by apply elem_of_map_to_list.
    + rewrite (proj2 (add_active_lookup _ k)). setoid_rewrite list_elem_of_filter. naive_solver.
Qed.

Lemma Arbitrate_unfold l :
  Arbitrate now l =
  sort_slice (λ r s, string_less (ConflictKey_String (ar_ConflictKey r))
                                 (ConflictKey_String (ar_ConflictKey s)))
    (decide_bucket <$> map_to_list
       (foldl apply_action ∅ (actions (sort_slice less_canonical l)))).
Proof.
  unfold Arbitrate, actions, live_keys. rewrite (list_fmap_id l : cloneIntent <$> l = l).
  rewrite classify_loop. rewrite settle_loop, foldl_app. do 4 f_equal.
  apply list_bind_ext; [|done]. intros k. unfold group.
  by rewrite (proj1 (add_active_lookup _ k)).
Qed.

(** ** Every intent is accounted for once *)

Lemma settle_intents cs : settle_actions cs ≫= action_intents ≡ₚ cs.
Proof.
  assert (∀ (f : Intent → action) (l : list Intent), (∀ i, action_intents (f i) = [i]) →
    (f <$> l) ≫= action_intents = l) as Hmap.
  { intros f l Hf. induction l as [|i l IH]; [done|].
    rewrite fmap_cons, bind_cons, Hf, IH. done. }
  unfold settle_actions. destruct (sameIdempotentSemantics cs); simpl.
  - destruct cs as [|c cs]; [done|]. rewrite bind_cons. simpl. by rewrite Hmap.
  - by rewrite Hmap.
Qed.

Lemma classify_intents i :
  classify_actions i ≫= action_intents = if decide (live i) then [] else [i].
Proof.
  unfold classify_actions. destruct (decide (live i)) as [[-> ->]|Hdead]; [done|].
  unfold live in Hdead. destruct (Intent_Validate i) as [[]|e]; [|done].
  destruct (Expired i now); [done|]. by destruct Hdead.
Qed.

Lemma actions_intents l : actions l ≫= action_intents ≡ₚ l.
Proof.
  unfold actions. rewrite bind_app, !bind_bind. destruct (live_keys_spec l) as [Hnd Hks].
  etrans; [|apply (filter_app_complement live l)]. rewrite Permutation_app_comm. f_equiv.
  - etrans; [|apply (filter_groups in_IdempotencyKey (live_keys l) (filter live l)); [done|]].
    + apply bind_permute. intros k _. rewrite settle_intents. apply sort_slice_Permutation.
    + intros i [? ?]%list_elem_of_filter. apply Hks. eauto.
  - clear. apply reflexive_eq. induction l as [|i l IH]; [done|].
    rewrite bind_cons, filter_cons, classify_intents, IH.
    by repeat case_decide.
Qed.

(** The intents an arbitration result speaks of. *)
Definition result_intents (r : ArbitrationResult) : list Intent :=
  option_list (ar_Winner r) ++ (co_Intent <$> ar_Superseded r) ++ (co_Intent <$> ar_Ignored r).

Lemma sortOutcomes_intents os : co_Intent <$> sortOutcomes os ≡ₚ co_Intent <$> os.
Proof. unfold sortOutcomes. by rewrite sort_slice_Permutation. Qed.

Lemma decide_bucket_intents c b : result_intents (decide_bucket (c, b)) ≡ₚ payload b.
Proof.
  unfold decide_bucket, result_intents, payload.
  pose proof (sort_slice_Permutation candidateWins (ab_candidates b)) as Hp.
  destruct (sort_slice candidateWins (ab_candidates b)) as [|w losers]; cbn [ar_Winner ar_Superseded
    ar_Ignored option_list app fmap list_fmap]; rewrite <-Hp, !sortOutcomes_intents; [done|].
  rewrite <-list_fmap_compose. simpl. f_equiv. f_equiv.
  by apply reflexive_eq, list_fmap_id.
Qed.

Lemma Arbitrate_intents l : Arbitrate now l ≫= result_intents ≡ₚ l.
Proof.
  rewrite Arbitrate_unfold, sort_slice_Permutation.
  set (bs := foldl _ _ _). etrans.
  { instantiate (1 := total bs). unfold total. generalize (map_to_list bs). intros es.
    induction es as [|[c b] es IH]; [done|].
    rewrite fmap_cons, !bind_cons, decide_bucket_intents. by f_equiv. }
  unfold bs. rewrite total_actions. etrans; [|apply (sort_slice_Permutation less_canonical l)].
  etrans; [|apply actions_intents]. by unfold total; rewrite map_to_list_empty.
Qed.

Lemma settle_keys cs a :
  a ∈ settle_actions cs → ∃ i, i ∈ cs ∧ action_key a = Intent_ConflictKey i.
Proof.
  unfold settle_actions. destruct (sameIdempotentSemantics cs); simpl.
  - destruct cs as [|c cs]; [by intros ?%elem_of_nil|].
    intros [->|(i & -> & _)%list_elem_of_fmap]%elem_of_cons; exists c; (split; [by left|done]).
  - intros (i & -> & Hi)%list_elem_of_fmap. eauto.
Qed.

Lemma actions_keys l c :
  c ∈ action_key <$> actions l ↔ ∃ i, i ∈ l ∧ Intent_ConflictKey i = c.
Proof.
  unfold actions. rewrite fmap_app, elem_of_app, !list_elem_of_fmap. split.
  - intros [(a & -> & Ha)|(a & -> & Ha)]; apply list_elem_of_bind in Ha as (x & Ha & Hx).
    + exists x. split; [done|]. unfold classify_actions in Ha.
      apply elem_of_cons in Ha as [->|Ha]; [done|]. repeat case_match; set_solver.
    + apply settle_keys in Ha as (i & Hi & ->). exists i. split; [|done].
      apply elem_of_sort_slice in Hi. unfold group in Hi.
      apply list_elem_of_filter in Hi as [_ Hi]. by apply list_elem_of_filter in Hi as [_ Hi].
  - intros (i & Hi & <-). left. exists (Touch (Intent_ConflictKey i)). split; [done|].
    apply list_elem_of_bind. exists i. split; [by left|done].
Qed.

(** The buckets the results are read from. *)
Definition final_buckets (l : list Intent) : bucket_map :=
  foldl apply_action ∅ (actions (sort_slice less_canonical l)).

Lemma Arbitrate_elem l r :
  r ∈ Arbitrate now l ↔ ∃ c b, final_buckets l !! c = Some b ∧ r = decide_bucket (c, b).
Proof.
  rewrite Arbitrate_unfold, elem_of_sort_slice, list_elem_of_fmap. split.
  - intros ([c b] & -> & Hin%elem_of_map_to_list). eauto.
  - intros (c & b & Hb & ->). exists (c, b). split; [done|]. by apply elem_of_map_to_list.
Qed.

Lemma decide_bucket_key c b : ar_ConflictKey (decide_bucket (c, b)) = c.
Proof. unfold decide_bucket. by destruct (sort_slice _ _). Qed.

Lemma Arbitrate_keys l : ar_ConflictKey <$> Arbitrate now l ≡ₚ (map_to_list (final_buckets l)).*1.
Proof.
  rewrite Arbitrate_unfold, sort_slice_Permutation, <-list_fmap_compose.
  apply reflexive_eq, list_fmap_ext. intros _ [c b] _. apply decide_bucket_key.
Qed.

Lemma final_buckets_dom l c :
  is_Some (final_buckets l !! c) ↔ ∃ i, i ∈ l ∧ Intent_ConflictKey i = c.
Proof.
  unfold final_buckets. rewrite gather.
  setoid_rewrite <-(elem_of_sort_slice less_canonical _ l). rewrite <-actions_keys.
  case_decide as Hc; split; by eauto || (try done; by intros [? ?]).
Qed.
End arbitrate.

Section conservation.
Context `{UnicodeTables}.

Definition less_result (r s : ArbitrationResult) : bool :=
  string_less (ConflictKey_String (ar_ConflictKey r)) (ConflictKey_String (ar_ConflictKey s)).

(** C37: arbitration accounts for every submitted intent exactly once, as a winner,
    a superseded candidate or an ignored one; it decides each submitted conflict
    key exactly once and no other; and the results come sorted by the text of
    their conflict key. *)
Theorem Arbitrate_accounts_for_every_intent now l :
  (Arbitrate now l ≫= result_intents) ≡ₚ l
  ∧ NoDup (ar_ConflictKey <$> Arbitrate now l)
  ∧ (∀ c, c ∈ ar_ConflictKey <$> Arbitrate now l ↔ ∃ i, i ∈ l ∧ Intent_ConflictKey i = c)
  ∧ StronglySorted (not_after less_result) (Arbitrate now l).
Proof.
  split; [apply Arbitrate_intents|]. split; [|split].
  - rewrite (Arbitrate_keys now). apply NoDup_fst_map_to_list.
  - intros c. rewrite (Arbitrate_keys now), <-(final_buckets_dom now), list_elem_of_fmap. split.
    + intros ([c' b] & -> & Hin%elem_of_map_to_list). by exists b.
    + intros [b Hb]. exists (c, b). split; [done|]. by apply elem_of_map_to_list.
  - rewrite Arbitrate_unfold. apply sort_slice_sorted.
    apply (strict_weak_key string_less (λ r, ConflictKey_String (ar_ConflictKey r))), _.
Qed.
End conservation.

(** ** Winners *)

Section winners.
Context `{UnicodeTables}.

Definition rank (i : Intent) : Z := (authorityRank (in_Authority i)).1.

Lemma less_canonical_weak : StrictWeak less_canonical.
Proof. apply (strict_weak_key string_less canonicalIntentKey), _. Qed.

Lemma candidateWins_lex i j :
  candidateWins i j =
  lex_less (λ x y, (rank x <? rank y)%Z)
    (lex_less (λ x y, after (in_CreatedAt x) (in_CreatedAt y))
      (lex_less (λ x y, string_less (in_ID x) (in_ID y)) less_canonical)) i j.
Proof.
  unfold candidateWins. cbv zeta.
  rewrite (lex_by_key in_ID string_less less_canonical).
  rewrite (lex_by_key in_CreatedAt after
    (lex_less (λ x y, string_less (in_ID x) (in_ID y)) less_canonical)).
  apply (lex_by_key rank Z.ltb).
Qed.

#[local] Instance candidateWins_weak : StrictWeak candidateWins.
Proof.
  assert (StrictWeak (lex_less (λ x y, (rank x <? rank y)%Z)
    (lex_less (λ x y, after (in_CreatedAt x) (in_CreatedAt y))
      (lex_less (λ x y, string_less (in_ID x) (in_ID y)) less_canonical)))) as [Hi Ht Hc].
  { repeat apply strict_weak_lex; [apply (strict_weak_key Z.ltb)|
      apply (strict_weak_key (λ x y, after x y))|apply (strict_weak_key string_less)|
      apply less_canonical_weak]; apply _. }
  split; intros *; rewrite ?candidateWins_lex; eauto.
Qed.

(** What losing means. *)
Lemma candidateWins_false i w :
  candidateWins i w = false →
  (rank w < rank i)%Z ∨ rank w = rank i ∧ (in_CreatedAt i ≤ in_CreatedAt w)%Z.
Proof.
  rewrite candidateWins_lex. unfold lex_less at 1. intros [Hr Hrest]%orb_false_iff.
  apply Z.ltb_ge in Hr. destruct (rank w <? rank i)%Z eqn:E; [left; by apply Z.ltb_lt|].
  apply Z.ltb_ge in E. right. split; [lia|]. simpl in Hrest. unfold lex_less in Hrest at 1.
  apply orb_false_iff in Hrest as [Hc _]. unfold after in Hc. by apply Z.ltb_ge in Hc.
Qed.

Lemma sameIdempotentSemantics_true cs i j :
  sameIdempotentSemantics cs = true → i ∈ cs → j ∈ cs → semanticSignature i = semanticSignature j.
Proof.
  assert (∀ c cs, sameIdempotentSemantics (c :: cs) = true → ∀ x, x ∈ c :: cs →
    semanticSignature x = semanticSignature c) as Hc.
  { intros c cs' Hs x Hx. apply elem_of_cons in Hx as [->|Hx]; [done|].
    destruct cs' as [|d cs']; [by apply elem_of_nil in Hx|].
    cbn [sameIdempotentSemantics] in Hs. rewrite forallb_forall in Hs.
    specialize (Hs x (proj1 (list_elem_of_In _ _) Hx)). by apply bool_decide_eq_true in Hs. }
  intros Hs Hi Hj. destruct cs as [|c cs]; [by apply elem_of_nil in Hi|].
  by rewrite (Hc c cs Hs i Hi), (Hc c cs Hs j Hj).
Qed.

Lemma sameIdempotentSemantics_intro cs :
  (∀ i j, i ∈ cs → j ∈ cs → semanticSignature i = semanticSignature j) →
  sameIdempotentSemantics cs = true.
Proof.
  intros Hall. destruct cs as [|c [|d cs]]; [done..|]. cbn [sameIdempotentSemantics].
  apply forallb_forall. intros x Hx%list_elem_of_In. apply bool_decide_eq_true.
  apply Hall; [by right|by left].
Qed.

Context (now : time).

(** No live intent of the submission shares the idempotency key with other semantics. *)
Definition agreed (l : list Intent) (i : Intent) : Prop :=
  ∀ j, j ∈ l → live now j → in_IdempotencyKey j = in_IdempotencyKey i →
    semanticSignature j = semanticSignature i.

Lemma elem_of_group k l i :
  i ∈ group now k l ↔ i ∈ l ∧ live now i ∧ in_IdempotencyKey i = k.
Proof. unfold group. rewrite !list_elem_of_filter. naive_solver. Qed.

(** The candidates of a bucket are the first intents of the settled keys. *)
Lemma elem_of_candidates l c i :
  i ∈ actions now l ≫= entered c ↔
  Intent_ConflictKey i = c ∧ ∃ k rest, sort_slice less_identifier (group now k l) = i :: rest ∧
    sameIdempotentSemantics (i :: rest) = true.
Proof.
  unfold actions. rewrite bind_app, elem_of_app, !bind_bind, !list_elem_of_bind. split.
  - intros [(x & Hx & _)|(k & Hk & _)].
    + exfalso. apply list_elem_of_bind in Hx as (a & Ha & Hin).
      unfold classify_actions in Hin. apply elem_of_cons in Hin as [->|Hin]; [by apply elem_of_nil in Ha|].
      repeat case_match; (apply list_elem_of_singleton in Hin as ->; by apply elem_of_nil in Ha)
        || by apply elem_of_nil in Hin.
    + apply list_elem_of_bind in Hk as (a & Ha & Hin). unfold settle_actions in Hin.
      destruct (sameIdempotentSemantics _) eqn:Hs; simpl in Hin.
      * destruct (sort_slice _ _) as [|x rest] eqn:E; [by apply elem_of_nil in Hin|].
        apply elem_of_cons in Hin as [->|(d & -> & _)%list_elem_of_fmap]; [|by apply elem_of_nil in Ha].
        simpl in Ha. case_decide as Hc; [|by apply elem_of_nil in Ha].
        apply list_elem_of_singleton in Ha as ->. split; [done|]. by exists k, rest.
      * apply list_elem_of_fmap in Hin as (d & -> & _). by apply elem_of_nil in Ha.
  - intros (Hc & k & rest & Hsort & Hs). right. exists k. split.
    + apply list_elem_of_bind. exists (Enter (Intent_ConflictKey i) i). split.
      * simpl. rewrite decide_True by done. by left.
      * unfold settle_actions. rewrite Hsort, Hs. simpl. by left.
    + apply live_keys_spec. assert (i ∈ group now k l) as Hi%elem_of_group.
      { apply (elem_of_sort_slice less_identifier). rewrite Hsort. by left. }
      naive_solver.
Qed.

Lemma bucket_candidates l c b :
  final_buckets now l !! c = Some b →
  ab_candidates b = actions now (sort_slice less_canonical l) ≫= entered c.
Proof. unfold final_buckets. rewrite gather. case_decide; [|done]. by intros [= <-]. Qed.

Lemma candidate_agreed l i k rest :
  sort_slice less_identifier (group now k l) = i :: rest →
  sameIdempotentSemantics (i :: rest) = true →
  i ∈ l ∧ live now i ∧ agreed l i.
Proof.
  intros Hsort Hs.
  assert (∀ x, x ∈ i :: rest ↔ x ∈ l ∧ live now x ∧ in_IdempotencyKey x = k) as Hin.
  { intros x. by rewrite <-Hsort, elem_of_sort_slice, elem_of_group. }
  destruct (proj1 (Hin i) ltac:(by left)) as (Hi & Hl & Hk). split_and!; [done..|].
  intros j Hj Hlj Hkj. eapply sameIdempotentSemantics_true; [exact Hs| |by left].
  apply Hin. by rewrite Hkj, Hk.
Qed.

(** The representative of an agreed idempotency key stands for all its intents. *)
Lemma representative l i :
  i ∈ l → live now i → agreed l i →
  ∃ f, f ∈ actions now l ≫= entered (Intent_ConflictKey i) ∧ f ∈ l ∧ same_semantics f i.
Proof.
  intros Hi Hl Ha. set (k := in_IdempotencyKey i).
  destruct (sort_slice less_identifier (group now k l)) as [|f rest] eqn:E.
  { exfalso. eapply elem_of_nil. rewrite <-E. apply elem_of_sort_slice, elem_of_group. done. }
  assert (∀ x, x ∈ f :: rest → x ∈ l ∧ live now x ∧ semanticSignature x = semanticSignature i) as Hx.
  { intros x Hx. rewrite <-E, elem_of_sort_slice, elem_of_group in Hx.
    destruct Hx as (? & ? & ?). split_and!; [done..|]. by apply Ha. }
  destruct (Hx f ltac:(by left)) as (Hf & [Hfv Hfe] & Hsig).
  assert (same_semantics f i) as Hsem by (apply semanticSignature_inj; [done|by destruct Hl|done]).
  exists f. split; [|done]. apply elem_of_candidates. split.
  - unfold Intent_ConflictKey. by rewrite (ss_resource _ _ Hsem), (ss_operation _ _ Hsem).
  - exists k, rest. split; [done|]. apply sameIdempotentSemantics_intro. intros x y Hxi Hyi.
    destruct (Hx x Hxi) as (_ & _ & ->), (Hx y Hyi) as (_ & _ & ->). done.
Qed.

Lemma agreed_sorted l i : agreed (sort_slice less_canonical l) i ↔ agreed l i.
Proof. unfold agreed. by setoid_rewrite (elem_of_sort_slice less_canonical). Qed.

(** A winner is submitted, live, agreed, and of the result's conflict key. *)
Lemma winner_sound l r w :
  r ∈ Arbitrate now l → ar_Winner r = Some w →
  w ∈ l ∧ Intent_ConflictKey w = ar_ConflictKey r ∧ live now w ∧ agreed l w.
Proof.
  intros (c & b & Hb & ->)%Arbitrate_elem. rewrite decide_bucket_key.
  pose proof (bucket_candidates _ _ _ Hb) as Hcand. unfold decide_bucket.
  destruct (sort_slice candidateWins (ab_candidates b)) as [|w' losers] eqn:Es; [done|].
  intros [= <-]. apply sort_slice_head in Es as [Hw _]; [|apply _]. rewrite Hcand in Hw.
  apply elem_of_candidates in Hw as (Hc & k & rest & Hsort & Hs).
  apply candidate_agreed in Hsort as (? & ? & ?); [|done].
  split_and!; [by rewrite <-(elem_of_sort_slice less_canonical)|done|done|by apply agreed_sorted].
Qed.

(** Of the live, agreed intents of the result's conflict key none outranks the
    winner, or is newer at its rank. *)
Lemma winner_best l r i :
  r ∈ Arbitrate now l → i ∈ l → Intent_ConflictKey i = ar_ConflictKey r → live now i → agreed l i →
  ∃ w, ar_Winner r = Some w ∧ (rank w ≤ rank i)%Z
    ∧ ((∀ j, j ∈ l → in_int64 (in_CreatedAt j)) → rank w = rank i →
       (in_CreatedAt i ≤ in_CreatedAt w)%Z).
Proof.
  intros (c & b & Hb & ->)%Arbitrate_elem. rewrite decide_bucket_key.
  pose proof (bucket_candidates _ _ _ Hb) as Hcand. unfold decide_bucket.
  assert (∀ x, x ∈ sort_slice less_canonical l ↔ x ∈ l) as Hl by (intros; apply elem_of_sort_slice).
  pose proof (agreed_sorted l) as Hagr.
  destruct (sort_slice candidateWins (ab_candidates b)) as [|w losers] eqn:Es; simpl.
  - intros Hi <- Hlive Ha. exfalso.
    apply Hl in Hi. apply Hagr in Ha. destruct (representative _ i Hi Hlive Ha) as (f & Hf & _).
    rewrite <-Hcand in Hf. apply (elem_of_sort_slice candidateWins) in Hf. rewrite Es in Hf.
    by apply elem_of_nil in Hf.
  - apply sort_slice_head in Es as [_ Hbest]; [|apply _]. rewrite Hcand in Hbest.
    intros Hi <- Hlive Ha. exists w. split; [done|]. apply Hl in Hi as Hi'. apply Hagr in Ha as Ha'.
    destruct (representative _ i Hi' Hlive Ha') as (f & Hf & Hfl & Hsem).
    assert (rank f = rank i) as Hrank by (unfold rank; by rewrite (ss_authority _ _ Hsem)).
    specialize (Hbest f Hf). apply candidateWins_false in Hbest. rewrite Hrank in Hbest.
    split; [lia|]. intros Hrange Heq. destruct Hbest as [?|[_ Hc]]; [lia|].
    pose proof (ss_created _ _ Hsem) as Hcr. unfold unix_nano in Hcr.
    rewrite !wrap64_id in Hcr by (apply Hrange; by apply Hl || done). lia.
Qed.

(** C36: a winner is one of the submitted intents, has the result's conflict key,
    is valid and unexpired, and shares its idempotency key with no live intent of
    other semantics. Conversely every submitted intent with those properties
    forces its conflict key to have a winner, which it does not outrank, and
    which is not older at the same rank (creation times within the range of
    [UnixNano]). *)
Theorem Arbitrate_winner l r :
  r ∈ Arbitrate now l →
  (∀ w, ar_Winner r = Some w →
    w ∈ l ∧ Intent_ConflictKey w = ar_ConflictKey r ∧ live now w ∧ agreed l w)
  ∧ (∀ i, i ∈ l → Intent_ConflictKey i = ar_ConflictKey r → live now i → agreed l i →
      ∃ w, ar_Winner r = Some w ∧ (rank w ≤ rank i)%Z
        ∧ ((∀ j, j ∈ l → in_int64 (in_CreatedAt j)) → rank w = rank i →
           (in_CreatedAt i ≤ in_CreatedAt w)%Z)).
Proof. intros Hr. split; [intros w; by apply winner_sound|]. intros i. by apply winner_best. Qed.
End winners.

(** ** The order of submission *)

Section order.
Context `{UnicodeTables}.

(** An intent as the constructors build it, with instants [UnixNano] can carry. *)
Record well_formed (i : Intent) : Prop := {
  wf_normal : normal i;
  wf_valid : Intent_Validate i = Ok ();
  wf_desired :
    (∃ b, in_DesiredState i = schedulableState b) ∨ (∃ v, in_DesiredState i = load_state v)
    ∨ (∃ t, in_DesiredState i = tier_state t);
  wf_created : in_int64 (in_CreatedAt i);
  wf_expires e : in_ExpiresAt i = Some e → in_int64 e;
}.

Lemma canonical_inj i j :
  well_formed i → well_formed j →
  canonical (in_DesiredState i) = canonical (in_DesiredState j) →
  in_DesiredState i = in_DesiredState j.
Proof.
  intros Hi Hj.
  destruct (wf_desired _ Hi) as [[a ->]|[[v ->]|[t ->]]],
    (wf_desired _ Hj) as [[b ->]|[[u ->]|[s ->]]];
    try destruct v as [v|]; try destruct u as [u|]; unfold canonical; simpl; try done.
  - by destruct a, b.
  - by intros [= ->%(inj format_int)].
  - intros [= Heq]. change (format_int v = "default") in Heq.
    pose proof (numeric_format_int v) as Hn. by rewrite Heq in Hn.
  - intros [= Heq]. change ("default" = format_int u) in Heq.
    pose proof (numeric_format_int u) as Hn. by rewrite <-Heq in Hn.
  - intros [= Heq]. change (t = s) in Heq. by rewrite Heq.
Qed.

Lemma normal_evidence i : normal i → canonicalEvidenceRefs (in_EvidenceRefs i) = in_EvidenceRefs i.
Proof.
  unfold normal, normalizeMetadata, metadata_of. upd. by intros [= _ _ _ _ -> _ _].
Qed.

Lemma canonicalIntentKey_wf i j :
  well_formed i → well_formed j → canonicalIntentKey i = canonicalIntentKey j → i = j.
Proof.
  intros Hi Hj (Hid & Hkey & Hsig)%canonicalIntentKey_inj.
  apply semanticSignature_inj in Hsig; [|by apply wf_valid..].
  pose proof (canonical_inj i j Hi Hj (ss_desired _ _ Hsig)) as Hd.
  pose proof (ss_evidence _ _ Hsig) as Hev.
  rewrite !normal_evidence in Hev by by apply wf_normal.
  pose proof (ss_created _ _ Hsig) as Hc. unfold unix_nano in Hc.
  rewrite !wrap64_id in Hc by by apply wf_created.
  assert (in_ExpiresAt i = in_ExpiresAt j) as He.
  { pose proof (ss_expires _ _ Hsig) as He. pose proof (wf_expires i Hi). pose proof (wf_expires j Hj).
    destruct (in_ExpiresAt i), (in_ExpiresAt j); simpl in He; simplify_eq; [|done].
    f_equal. unfold unix_nano in He. by rewrite !wrap64_id in He by auto. }
  destruct Hsig as [? ? ? ? _ ? ? ? ? _ _ _]. clear Hi Hj. destruct i, j; simpl in *. by subst.
Qed.

Lemma built_well_formed m r op ds i :
  newIntent m r op ds = Ok i →
  (∃ b, ds = schedulableState b) ∨ (∃ v, ds = load_state v) ∨ (∃ t, ds = tier_state t) →
  in_int64 (md_CreatedAt m) → (∀ e, md_ExpiresAt m = Some e → in_int64 e) → well_formed i.
Proof.
  intros Hn Hds Hc He. pose proof (newIntent_normal _ _ _ _ _ Hn).
  apply newIntent_ok in Hn as (Hm & _ & _ & Hd & Hv).
  assert (in_CreatedAt i = md_CreatedAt m ∧ in_ExpiresAt i = md_ExpiresAt m) as [HcE HeE].
  { split; [apply (f_equal md_CreatedAt) in Hm|apply (f_equal md_ExpiresAt) in Hm];
      by destruct m. }
  split; [done|done|by rewrite Hd|by rewrite HcE|by rewrite HeE].
Qed.

(** C38: arbitration does not depend on the order of submission: for intents as
    the constructors build them, two submissions with the same intents, repetitions
    counted, have the same results, in the same order, with the same winners,
    superseded and ignored intents and the same reasons. *)
Theorem Arbitrate_order_independent now l l' :
  Forall well_formed l → l ≡ₚ l' → Arbitrate now l = Arbitrate now l'.
Proof.
  intros Hwf Hperm. rewrite Forall_forall in Hwf. unfold Arbitrate.
  assert (cloneIntent <$> l = l) as -> by apply list_fmap_id.
  assert (cloneIntent <$> l' = l') as -> by apply list_fmap_id.
  rewrite (@sort_slice_unique _ less_canonical less_canonical_weak l l'); [done|done|].
  intros i j Hi Hj H1 H2. apply canonicalIntentKey_wf; [by apply Hwf..|].
  by apply less_connex.
Qed.
End order.

Import Samples.

Definition sample_submission : list Intent := [policy_resume; agent_pause; operator_hold].

Example sample_winner : ar_Winner <$> Arbitrate midnight sample_submission = [Some operator_hold].
Proof. vm_compute. reflexivity. Qed.

Lemma sample_agreed : agreed midnight sample_submission policy_resume.
Proof.
  intros j Hj _ Hk. apply elem_of_cons in Hj as [->|Hj]; [reflexivity|].
  apply elem_of_cons in Hj as [->|Hj]; [vm_compute in Hk; discriminate Hk|].
  apply elem_of_cons in Hj as [->|Hj]; [vm_compute in Hk; discriminate Hk|].
  by apply elem_of_nil in Hj.
Qed.

Lemma Arbitrate_winner_witness :
  ∃ r w, r ∈ Arbitrate midnight sample_submission ∧ ar_Winner r = Some w ∧
    (rank w ≤ rank policy_resume)%Z.
Proof.
  destruct (Arbitrate midnight sample_submission) as [|r rs] eqn:E; [vm_compute in E; discriminate E|].
  assert (r ∈ Arbitrate midnight sample_submission) as Hr by (rewrite E; left).
  destruct (Arbitrate_winner midnight sample_submission r Hr) as [_ Hall].
  destruct (Hall policy_resume) as (w & Hw & Hrank & _).
  - left.
  - vm_compute in E. injection E as <- <-. vm_compute. reflexivity.
  - split; vm_compute; reflexivity.
  - exact sample_agreed.
  - exists r, w. split; [left|]. split; [exact Hw|exact Hrank].
Defined.

Lemma sample_submission_wf : Forall well_formed sample_submission.
Proof.
  assert (∀ m id b i, NewAccountSchedulableIntent m id b = Ok i →
    in_int64 (md_CreatedAt m) → (∀ e, md_ExpiresAt m = Some e → in_int64 e) → well_formed i) as Hwf.
  { intros m id b i [_ Hn]%NewAccountSchedulableIntent_ok Hc He.
    eapply built_well_formed; eauto. }
  apply List.Forall_cons; [|apply List.Forall_cons; [|apply List.Forall_cons; [|apply List.Forall_nil]]].
  - apply (Hwf _ _ _ _ policy_resume_valid); [by vm_compute|done].
  - apply (Hwf _ _ _ _ agent_pause_valid); [by vm_compute|by intros e [= <-]].
  - apply (Hwf _ _ _ _ operator_hold_valid); [by vm_compute|done].
Qed.

Lemma Arbitrate_order_independent_witness :
  Arbitrate midnight sample_submission = Arbitrate midnight (reverse sample_submission)
  ∧ length (Arbitrate midnight sample_submission) = 1.
Proof.
  split; [|vm_compute; reflexivity].
  apply (Arbitrate_order_independent midnight sample_submission (reverse sample_submission)).
  - exact sample_submission_wf.
  - symmetry. apply reverse_Permutation.
Defined.
