(* ===== verification/Bridge.v ===== *)
(** * Conversion of legacy actions to intents

    [internal/controlplanebridge] ([types.go], [identity.go], [account.go],
    [group.go]): a legacy action with its context either becomes a valid intent of
    the control plane, with an identity derived from the business action, or one
    gap that says what is missing. The definitions come first, then the
    specification of a conversion ([terms_met], [request]) and the theorems. *)

From S2P Require Import Prelude GoStd Sha256 Intent Arbiter.

Abbreviation ConversionStatus := string (only parsing).
Definition ConversionMapped : ConversionStatus := "mapped".
Definition ConversionUnsupported : ConversionStatus := "unsupported".
Definition ConversionIncomplete : ConversionStatus := "incomplete".
Definition ConversionInvalid : ConversionStatus := "invalid".

Definition ConversionStatus_Valid (s : ConversionStatus) : bool :=
  bool_decide (s ∈ [ConversionMapped; ConversionUnsupported; ConversionIncomplete;
                    ConversionInvalid]).

Abbreviation GapCode := string (only parsing).
Definition GapNone : GapCode := "".
Definition GapMissingTTL : GapCode := "missing_ttl".
Definition GapMissingActor : GapCode := "missing_actor".
Definition GapMissingAuthorityContext : GapCode := "missing_authority_context".
Definition GapMissingSnapshotVersion : GapCode := "missing_snapshot_version".
Definition GapMissingPolicyVersion : GapCode := "missing_policy_version".
Definition GapMissingEvidence : GapCode := "missing_evidence".
Definition GapAmbiguousManualResume : GapCode := "ambiguous_manual_resume".
Definition GapLegacyPermanentAgentControl : GapCode := "legacy_permanent_agent_control".
Definition GapUnsupportedOperation : GapCode := "unsupported_operation".
Definition GapInvalidDesiredState : GapCode := "invalid_desired_state".
Definition GapMissingIdempotencySource : GapCode := "missing_idempotency_source".
Definition GapMissingReason : GapCode := "missing_reason".
Definition GapMissingCreatedAt : GapCode := "missing_created_at".
Definition GapInvalidExpiration : GapCode := "invalid_expiration".
Definition GapInvalidResource : GapCode := "invalid_resource".

Definition GapCode_Valid (g : GapCode) : bool :=
  bool_decide (g ∈
    [GapNone; GapMissingTTL; GapMissingActor; GapMissingAuthorityContext;
     GapMissingSnapshotVersion; GapMissingPolicyVersion; GapMissingEvidence;
     GapAmbiguousManualResume; GapLegacyPermanentAgentControl;
     GapUnsupportedOperation; GapInvalidDesiredState; GapMissingIdempotencySource;
     GapMissingReason; GapMissingCreatedAt; GapInvalidExpiration; GapInvalidResource]).

Record ConversionResult := mkConversionResult {
  cr_Intent : option Intent;
  cr_Status : ConversionStatus;
  cr_GapCode : GapCode;
  cr_Detail : string;
}.
#[export] Instance ConversionResult_eq_dec : EqDecision ConversionResult.
Proof. solve_decision. Defined.

(** [ConversionResult{}], which the checks return when they find nothing. *)
Definition no_result : ConversionResult := mkConversionResult None "" GapNone "".

Abbreviation StableSourceNamespace := string (only parsing).
Definition SourcePolicyDecision : StableSourceNamespace := "policy_decision".
Definition SourceAdministratorRequest : StableSourceNamespace := "administrator_request".
Definition SourceAdministratorGrantConsumption : StableSourceNamespace :=
  "administrator_grant_consumption".
Definition SourceAgentAction : StableSourceNamespace := "agent_action".
Definition SourceFailoverTransition : StableSourceNamespace := "failover_transition".
Definition SourceScheduleOccurrence : StableSourceNamespace := "schedule_occurrence".
Definition SourceOptimizationAction : StableSourceNamespace := "optimization_action".

Definition StableSourceNamespace_Valid (s : StableSourceNamespace) : bool :=
  bool_decide (s ∈
    [SourcePolicyDecision; SourceAdministratorRequest; SourceAdministratorGrantConsumption;
     SourceAgentAction; SourceFailoverTransition; SourceScheduleOccurrence;
     SourceOptimizationAction]).

Record LegacyContext := mkLegacyContext {
  lc_StableSourceNamespace : StableSourceNamespace;
  lc_StableSourceID : string;
  lc_Actor : string;
  lc_Reason : string;
  lc_EvidenceRefs : list string;
  lc_PolicyVersion : string;
  lc_SnapshotVersion : string;
  lc_CreatedAt : time;
  lc_ExpiresAt : option time;
}.

Record AdministratorAuthorization := mkAdministratorAuthorization {
  aa_IdentityVerified : bool;
  aa_ExactGrant : bool;
  aa_GrantConsumed : bool;
  aa_GrantConsumptionID : string;
}.

Record AccountSchedulableInput := mkAccountSchedulableInput {
  as_Context : LegacyContext;
  as_AccountID : Z;
  as_Schedulable : bool;
}.

Record AccountLoadFactorInput := mkAccountLoadFactorInput {
  al_Context : LegacyContext;
  al_AccountID : Z;
  al_LoadFactor : option Z;
}.

Record AccountActionInput := mkAccountActionInput {
  ac_Context : LegacyContext;
  ac_AccountID : Z;
}.

Record UpstreamGroupTierInput := mkUpstreamGroupTierInput {
  ug_Context : LegacyContext;
  ug_SourceID : Z;
  ug_KeyID : string;
  ug_TargetTier : string;
}.

Record LegacyDirectGroupSwitchInput := mkLegacyDirectGroupSwitchInput {
  dg_Context : LegacyContext;
  dg_SourceID : Z;
  dg_KeyID : string;
  dg_GroupID : string;
}.

Record contextRequirements := mkRequirements {
  req_ttl : bool;
  req_policy : bool;
  req_snapshot : bool;
  req_evidence : bool;
  req_agentTTL : bool;
}.

(** ** [identity.go] *)

Definition cloneTime (value : option time) : option time :=
  match value with None => None | Some t => Some t end.
#[global] Arguments cloneTime : simpl never.

Definition normalizedContext (c : LegacyContext) : LegacyContext :=
  c <| lc_StableSourceNamespace := trim_space (lc_StableSourceNamespace c) |>
    <| lc_StableSourceID := trim_space (lc_StableSourceID c) |>
    <| lc_Actor := trim_space (lc_Actor c) |>
    <| lc_Reason := trim_space (lc_Reason c) |>
    <| lc_PolicyVersion := trim_space (lc_PolicyVersion c) |>
    <| lc_SnapshotVersion := trim_space (lc_SnapshotVersion c) |>
    <| lc_EvidenceRefs := trim_space <$> lc_EvidenceRefs c |>
    <| lc_ExpiresAt := cloneTime (lc_ExpiresAt c) |>.

(** Each field with its length, a colon and a bar: the bytes written to the hash. *)
Definition digest_input (fields : list string) : string :=
  foldl (λ hash field,
    hash +:+ format_int (Z.of_nat (String.length field)) +:+ ":" +:+ field +:+ "|") "" fields.
Definition deriveDigest (prefix : string) (fields : list string) : string :=
  prefix +:+ sha256_hex (digest_input fields).
#[global] Arguments deriveDigest : simpl never.

Definition hasEvidence (references : list string) : bool :=
  if bool_decide (references = []) then false
  else forallb (λ reference, negb (bool_decide (trim_space reference = ""))) references.

(** ** [types.go] *)

Definition failed (status : ConversionStatus) (gap : GapCode) (detail : string) : ConversionResult :=
  mkConversionResult None status gap (trim_space detail).

Definition invalidResource (detail : string) : ConversionResult :=
  failed ConversionInvalid GapInvalidResource detail.

Definition invalidResult (result : ConversionResult) : bool :=
  negb (bool_decide (cr_Status result = "")).

Definition validAdministratorAuthorization (a : AdministratorAuthorization) : bool :=
  aa_IdentityVerified a && aa_ExactGrant a && aa_GrantConsumed a
  && negb (bool_decide (trim_space (aa_GrantConsumptionID a) = "")).

Definition verifyAdministratorAuthorization (context : LegacyContext)
    (authorization : AdministratorAuthorization) : ConversionResult :=
  if negb (validAdministratorAuthorization authorization) then
    failed ConversionIncomplete GapMissingAuthorityContext
      "administrator chat command lacks verified, exact, consumed grant context"
  else
  let sourceID := trim_space (lc_StableSourceID context) in
  if negb (bool_decide (sourceID = ""))
     && negb (bool_decide (sourceID = trim_space (aa_GrantConsumptionID authorization))) then
    failed ConversionIncomplete GapMissingAuthorityContext
      "administrator grant consumption does not match the explicit stable source ID"
  else no_result.

Definition validateAccountID (accountID : Z) : ConversionResult :=
  if (accountID <=? 0)%Z then invalidResource "account ID must be positive" else no_result.

Definition validateUpstreamResource (sourceID : Z) (keyID : string) : ConversionResult :=
  if (sourceID <=? 0)%Z || bool_decide (trim_space keyID = "")
  then invalidResource "upstream source ID and key ID are required" else no_result.

(** [if result := check(...); invalidResult(result) { return result }] *)
Definition unless_invalid (result : ConversionResult) (continue : ConversionResult)
    : ConversionResult :=
  if invalidResult result then result else continue.

Definition no_metadata : IntentMetadata :=
  mkIntentMetadata "" "" "" "" "" "" [] "" "" zero_time None.

Section with_unicode.
Context `{UnicodeTables}.

Definition ConversionStatus_String (s : ConversionStatus) : string :=
  if ConversionStatus_Valid s then s else "unknown_conversion_status(" +:+ quote s +:+ ")".
Definition GapCode_String (g : GapCode) : string :=
  if GapCode_Valid g then g else "unknown_gap_code(" +:+ quote g +:+ ")".
Definition StableSourceNamespace_String (s : StableSourceNamespace) : string :=
  if StableSourceNamespace_Valid s then s
  else "unknown_stable_source_namespace(" +:+ quote s +:+ ")".

Definition prepareMetadata (context : LegacyContext) (producer : Producer) (authority : Authority)
    (requirements : contextRequirements) (expectedNamespace : StableSourceNamespace)
    (resource : Resource) (operation : Operation) : IntentMetadata * ConversionResult :=
  let context := normalizedContext context in
  if bool_decide (lc_Actor context = "") then
    (no_metadata, failed ConversionIncomplete GapMissingActor
      "legacy action has no explicit actor")
  else if bool_decide (lc_Reason context = "") then
    (no_metadata, failed ConversionIncomplete GapMissingReason
      "legacy action has no explicit reason")
  else if bool_decide (lc_ExpiresAt context = None) && req_agentTTL requirements then
    (no_metadata, failed ConversionIncomplete GapLegacyPermanentAgentControl
      "legacy autonomous control has no finite expiration")
  else if bool_decide (lc_ExpiresAt context = None) && req_ttl requirements then
    (no_metadata, failed ConversionIncomplete GapMissingTTL
      "conversion requires an explicit finite expiration")
  else if req_policy requirements && bool_decide (lc_PolicyVersion context = "") then
    (no_metadata, failed ConversionIncomplete GapMissingPolicyVersion
      "active policy conversion requires the actual policy version")
  else if req_snapshot requirements && bool_decide (lc_SnapshotVersion context = "") then
    (no_metadata, failed ConversionIncomplete GapMissingSnapshotVersion
      "automated conversion requires the actual snapshot version")
  else if req_evidence requirements && negb (hasEvidence (lc_EvidenceRefs context)) then
    (no_metadata, failed ConversionIncomplete GapMissingEvidence
      "automated conversion requires existing evidence references")
  else if negb (StableSourceNamespace_Valid (lc_StableSourceNamespace context))
          || negb (bool_decide (lc_StableSourceNamespace context = expectedNamespace))
          || bool_decide (lc_StableSourceID context = "") then
    (no_metadata, failed ConversionIncomplete GapMissingIdempotencySource
      "legacy action has no stable business-action identifier")
  else if is_zero_time (lc_CreatedAt context) then
    (no_metadata, failed ConversionIncomplete GapMissingCreatedAt
      "legacy action has no explicit creation time")
  else if match lc_ExpiresAt context with
          | Some e => negb (after e (lc_CreatedAt context))
          | None => false
          end then
    (no_metadata, failed ConversionInvalid GapInvalidExpiration
      "expiration must be after creation")
  else
    (mkIntentMetadata
      "pending-intent-id"
      (deriveDigest "cp-idem-v2-"
        [Producer_String producer;
         StableSourceNamespace_String (lc_StableSourceNamespace context);
         lc_StableSourceID context; Resource_String resource; Operation_String operation])
      producer authority (lc_Actor context) (lc_Reason context) (lc_EvidenceRefs context)
      (lc_PolicyVersion context) (lc_SnapshotVersion context) (lc_CreatedAt context)
      (cloneTime (lc_ExpiresAt context)), no_result).

Definition mapped (outcome : result ValidationError Intent) : ConversionResult :=
  match outcome with
  | Err err => failed ConversionInvalid GapInvalidDesiredState (ValidationError_Error err)
  | Ok intent =>
      match SemanticSignature intent with
      | Err err => failed ConversionInvalid GapInvalidDesiredState (ValidationError_Error err)
      | Ok signature =>
          let copy := intent <| in_ID :=
            deriveDigest "cp-intent-v2-" [in_IdempotencyKey intent; signature] |> in
          match Intent_Validate copy with
          | Err err => failed ConversionInvalid GapInvalidDesiredState (ValidationError_Error err)
          | Ok _ => mkConversionResult (Some copy) ConversionMapped GapNone ""
          end
      end
  end.

Definition ConversionResult_Validate (r : ConversionResult) : result string unit :=
  if negb (ConversionStatus_Valid (cr_Status r)) || negb (GapCode_Valid (cr_GapCode r)) then
    Err "invalid conversion status or gap code"
  else if bool_decide (cr_Status r = ConversionMapped) then
    match cr_Intent r with
    | None => Err "mapped conversion requires an intent and no semantic gap"
    | Some i =>
        if negb (bool_decide (cr_GapCode r = GapNone))
        then Err "mapped conversion requires an intent and no semantic gap"
        else match Intent_Validate i with
             | Ok _ => Ok ()
             | Err err => Err (ValidationError_Error err)
             end
    end
  else fail_if (bool_decide (is_Some (cr_Intent r)) || bool_decide (cr_GapCode r = GapNone))
         "failed conversion must contain no intent and one semantic gap".

Definition MappedIntent (r : ConversionResult) : result string Intent :=
  ConversionResult_Validate r;;
  if negb (bool_decide (cr_Status r = ConversionMapped)) then
    Err ("intent conversion " +:+ ConversionStatus_String (cr_Status r) +:+ " ("
         +:+ GapCode_String (cr_GapCode r) +:+ "): " +:+ cr_Detail r)
  else match cr_Intent r with
       | Some i => Ok i
       | None => Err ""  (* Validate has refused a mapped result without an intent *)
       end.

(** ** [account.go] *)

Definition adaptAccountSchedulable (input : AccountSchedulableInput) (producer : Producer)
    (authority : Authority) (requirements : contextRequirements)
    (sourceNamespace : StableSourceNamespace) : ConversionResult :=
  unless_invalid (validateAccountID (as_AccountID input))
  match NewAccountResource (as_AccountID input) with
  | Err err => invalidResource (ValidationError_Error err)
  | Ok resource =>
      let '(metadata, result) := prepareMetadata (as_Context input) producer authority requirements
        sourceNamespace resource OperationSetAccountSchedulable in
      unless_invalid result
        (mapped (NewAccountSchedulableIntent metadata (as_AccountID input) (as_Schedulable input)))
  end.

Definition adaptAccountLoadFactor (input : AccountLoadFactorInput) (producer : Producer)
    (authority : Authority) (requirements : contextRequirements)
    (sourceNamespace : StableSourceNamespace) : ConversionResult :=
  unless_invalid (validateAccountID (al_AccountID input))
  (if match al_LoadFactor input with Some factor => (factor <? 1)%Z | None => false end
   then failed ConversionInvalid GapInvalidDesiredState "load factor must be nil or positive"
   else match NewAccountResource (al_AccountID input) with
  | Err err => invalidResource (ValidationError_Error err)
  | Ok resource =>
      let '(metadata, result) := prepareMetadata (al_Context input) producer authority requirements
        sourceNamespace resource OperationSetAccountLoadFactor in
      unless_invalid result
        (mapped (NewAccountLoadFactorIntent metadata (al_AccountID input) (al_LoadFactor input)))
  end).

Definition AdaptPolicyAccountSchedulable (input : AccountSchedulableInput) : ConversionResult :=
  adaptAccountSchedulable input ProducerPolicyScheduler AuthorityActivePolicy
    (mkRequirements false true true false false) SourcePolicyDecision.

Definition AdaptPolicyAccountLoadFactor (input : AccountLoadFactorInput) : ConversionResult :=
  adaptAccountLoadFactor input ProducerPolicyScheduler AuthorityActivePolicy
    (mkRequirements false true true false false) SourcePolicyDecision.

Definition AdaptPermanentManualPause (input : AccountActionInput) : ConversionResult :=
  unless_invalid (validateAccountID (ac_AccountID input))
  (if bool_decide (is_Some (lc_ExpiresAt (ac_Context input)))
   then failed ConversionInvalid GapInvalidExpiration
     "permanent ManualHold must not be disguised as a temporary command"
   else adaptAccountSchedulable
     (mkAccountSchedulableInput (ac_Context input) (ac_AccountID input) false)
     ProducerAdminUI AuthorityManualHold (mkRequirements false false false false false)
     SourceAdministratorRequest).

Definition AdaptTemporaryAdministratorAccountSchedulable (input : AccountSchedulableInput)
    : ConversionResult :=
  adaptAccountSchedulable input ProducerAdminUI AuthorityAdministratorCommand
    (mkRequirements true false false false false) SourceAdministratorRequest.

Definition AdaptTemporaryAdministratorLoadFactor (input : AccountLoadFactorInput)
    : ConversionResult :=
  adaptAccountLoadFactor input ProducerAdminUI AuthorityAdministratorCommand
    (mkRequirements true false false false false) SourceAdministratorRequest.

Definition AdaptAgentAdministratorAccountSchedulable (input : AccountSchedulableInput)
    (authorization : AdministratorAuthorization) : ConversionResult :=
  unless_invalid (verifyAdministratorAuthorization (as_Context input) authorization)
    (adaptAccountSchedulable input ProducerAgentOperator AuthorityAdministratorCommand
      (mkRequirements true false false false false) SourceAdministratorGrantConsumption).

Definition AdaptAgentAdministratorLoadFactor (input : AccountLoadFactorInput)
    (authorization : AdministratorAuthorization) : ConversionResult :=
  unless_invalid (verifyAdministratorAuthorization (al_Context input) authorization)
    (adaptAccountLoadFactor input ProducerAgentOperator AuthorityAdministratorCommand
      (mkRequirements true false false false false) SourceAdministratorGrantConsumption).

Definition AdaptAutonomousAgentAccountSchedulable (input : AccountSchedulableInput)
    : ConversionResult :=
  adaptAccountSchedulable input ProducerAgentOperator AuthorityAutonomousAgent
    (mkRequirements false false true true true) SourceAgentAction.

Definition AdaptAutonomousAgentLoadFactor (input : AccountLoadFactorInput) : ConversionResult :=
  adaptAccountLoadFactor input ProducerAgentOperator AuthorityAutonomousAgent
    (mkRequirements false false true true true) SourceAgentAction.

Definition AdaptCostOptimizationSchedulable (input : AccountSchedulableInput) : ConversionResult :=
  adaptAccountSchedulable input ProducerCostOptimizer AuthorityOptimization
    (mkRequirements true false true false false) SourceOptimizationAction.

Definition AdaptCostOptimizationLoadFactor (input : AccountLoadFactorInput) : ConversionResult :=
  adaptAccountLoadFactor input ProducerCostOptimizer AuthorityOptimization
    (mkRequirements true false true false false) SourceOptimizationAction.

Definition AdaptManualResume (input : AccountActionInput) : ConversionResult :=
  unless_invalid (validateAccountID (ac_AccountID input))
    (failed ConversionIncomplete GapAmbiguousManualResume
      "legacy ManualResume both writes schedulable=true and changes ownership/protection state").

Definition AdaptManualHoldRelease (input : AccountActionInput) : ConversionResult :=
  unless_invalid (validateAccountID (ac_AccountID input))
    (failed ConversionUnsupported GapUnsupportedOperation
      "releasing ManualHold is override revocation, not SetAccountSchedulable(true)").

(** ** [group.go] *)

Definition adaptGroupTier (input : UpstreamGroupTierInput) (producer : Producer)
    (authority : Authority) (requirements : contextRequirements)
    (sourceNamespace : StableSourceNamespace) : ConversionResult :=
  unless_invalid (validateUpstreamResource (ug_SourceID input) (ug_KeyID input))
  (let tier := to_lower (trim_space (ug_TargetTier input)) in
   match NewUpstreamKeyResource (ug_SourceID input) (ug_KeyID input) with
  | Err err => invalidResource (ValidationError_Error err)
  | Ok resource =>
      let '(metadata, result) := prepareMetadata (ug_Context input) producer authority requirements
        sourceNamespace resource OperationSetUpstreamKeyGroupTier in
      unless_invalid result
        (mapped (NewUpstreamKeyGroupTierIntent metadata (ug_SourceID input) (ug_KeyID input) tier))
  end).

Definition AdaptTemporaryAdministratorGroupTier (input : UpstreamGroupTierInput)
    : ConversionResult :=
  adaptGroupTier input ProducerAdminUI AuthorityAdministratorCommand
    (mkRequirements true false false false false) SourceAdministratorRequest.

Definition AdaptAgentAdministratorGroupTier (input : UpstreamGroupTierInput)
    (authorization : AdministratorAuthorization) : ConversionResult :=
  unless_invalid (verifyAdministratorAuthorization (ug_Context input) authorization)
    (adaptGroupTier input ProducerAgentOperator AuthorityAdministratorCommand
      (mkRequirements true false false false false) SourceAdministratorGrantConsumption).

Definition AdaptAutonomousAgentGroupTier (input : UpstreamGroupTierInput) : ConversionResult :=
  adaptGroupTier input ProducerAgentOperator AuthorityAutonomousAgent
    (mkRequirements false false true true true) SourceAgentAction.

Definition AdaptFailoverTransition (input : UpstreamGroupTierInput) : ConversionResult :=
  adaptGroupTier input ProducerFailoverController AuthorityEmergencyAutomation
    (mkRequirements false false true true false) SourceFailoverTransition.

Definition AdaptLegacyDirectGroupSwitch (input : LegacyDirectGroupSwitchInput)
    : ConversionResult :=
  unless_invalid (validateUpstreamResource (dg_SourceID input) (dg_KeyID input))
  (if bool_decide (trim_space (dg_GroupID input) = "")
   then failed ConversionInvalid GapInvalidDesiredState
     "legacy direct group switch has no target group"
   else failed ConversionUnsupported GapUnsupportedOperation
     "legacy SwitchGroup targets an arbitrary group ID, while the control-plane model only accepts confirmed tiers").
End with_unicode.
