(* ===== verification/BridgeFacts.v ===== *)
(** * What a conversion promises

    A request is one call of the package's interface. [converted] is the intent it
    stands for, [complete] what its context must state, and [adapt] its answer. The
    theorems: the answers are well formed and map exactly the complete, authorised,
    well-typed requests; and the derived identities identify business actions. *)

From S2P Require Import Prelude GoStd Sha256 Intent Arbiter Bridge.

(** ** Requests *)

Inductive Request :=
  | PolicySchedulable (input : AccountSchedulableInput)
  | PolicyLoadFactor (input : AccountLoadFactorInput)
  | PermanentManualPause (input : AccountActionInput)
  | AdministratorSchedulable (input : AccountSchedulableInput)
  | AdministratorLoadFactor (input : AccountLoadFactorInput)
  | AgentAdministratorSchedulable (input : AccountSchedulableInput) (auth : AdministratorAuthorization)
  | AgentAdministratorLoadFactor (input : AccountLoadFactorInput) (auth : AdministratorAuthorization)
  | AgentSchedulable (input : AccountSchedulableInput)
  | AgentLoadFactor (input : AccountLoadFactorInput)
  | OptimizationSchedulable (input : AccountSchedulableInput)
  | OptimizationLoadFactor (input : AccountLoadFactorInput)
  | AdministratorGroupTier (input : UpstreamGroupTierInput)
  | AgentAdministratorGroupTier (input : UpstreamGroupTierInput) (auth : AdministratorAuthorization)
  | AgentGroupTier (input : UpstreamGroupTierInput)
  | FailoverTransition (input : UpstreamGroupTierInput)
  | ManualResume (input : AccountActionInput)
  | ManualHoldRelease (input : AccountActionInput)
  | DirectGroupSwitch (input : LegacyDirectGroupSwitchInput).

(** Who asks, with which authority, and which identifiers name the action. *)
Record Origin := mkOrigin {
  og_producer : Producer;
  og_authority : Authority;
  og_namespace : StableSourceNamespace;
}.

#[export] Instance Origin_eq_dec : EqDecision Origin.
Proof. solve_decision. Defined.

Definition policy_origin := mkOrigin ProducerPolicyScheduler AuthorityActivePolicy SourcePolicyDecision.
Definition hold_origin := mkOrigin ProducerAdminUI AuthorityManualHold SourceAdministratorRequest.
Definition operator_origin :=
  mkOrigin ProducerAdminUI AuthorityAdministratorCommand SourceAdministratorRequest.
Definition grant_origin :=
  mkOrigin ProducerAgentOperator AuthorityAdministratorCommand SourceAdministratorGrantConsumption.
Definition agent_origin := mkOrigin ProducerAgentOperator AuthorityAutonomousAgent SourceAgentAction.
Definition optimizer_origin :=
  mkOrigin ProducerCostOptimizer AuthorityOptimization SourceOptimizationAction.
Definition failover_origin :=
  mkOrigin ProducerFailoverController AuthorityEmergencyAutomation SourceFailoverTransition.
Definition origins : list Origin :=
  [policy_origin; hold_origin; operator_origin; grant_origin; agent_origin; optimizer_origin;
   failover_origin].

(** What a request asks for: its origin, context, resource, operation and state;
    [None] for the requests that no intent can express. *)
Record Demand := mkDemand {
  dm_origin : Origin;
  dm_context : LegacyContext;
  dm_resource : Resource;
  dm_operation : Operation;
  dm_state : DesiredState;
}.

(** The grant of the administrator on whose behalf the agent acts. *)
Definition granted (c : LegacyContext) (a : AdministratorAuthorization) : Prop :=
  aa_IdentityVerified a = true ∧ aa_ExactGrant a = true ∧ aa_GrantConsumed a = true
  ∧ nonblank (aa_GrantConsumptionID a)
  ∧ trim_space (lc_StableSourceID c) = trim_space (aa_GrantConsumptionID a).

Section requests.
Context `{UnicodeTables}.

Definition schedulable_demand (o : Origin) (input : AccountSchedulableInput) : Demand :=
  mkDemand o (as_Context input) (account_resource (as_AccountID input))
    OperationSetAccountSchedulable (schedulableState (as_Schedulable input)).
Definition load_demand (o : Origin) (input : AccountLoadFactorInput) : Demand :=
  mkDemand o (al_Context input) (account_resource (al_AccountID input))
    OperationSetAccountLoadFactor (load_state (al_LoadFactor input)).
Definition tier_demand (o : Origin) (input : UpstreamGroupTierInput) : Demand :=
  mkDemand o (ug_Context input) (key_resource (ug_SourceID input) (trim_space (ug_KeyID input)))
    OperationSetUpstreamKeyGroupTier
    (tier_state (to_lower (trim_space (to_lower (trim_space (ug_TargetTier input)))))).

Definition demand (rq : Request) : option Demand :=
  match rq with
  | PolicySchedulable input => Some (schedulable_demand policy_origin input)
  | PolicyLoadFactor input => Some (load_demand policy_origin input)
  | PermanentManualPause input => Some (schedulable_demand hold_origin
      (mkAccountSchedulableInput (ac_Context input) (ac_AccountID input) false))
  | AdministratorSchedulable input => Some (schedulable_demand operator_origin input)
  | AdministratorLoadFactor input => Some (load_demand operator_origin input)
  | AgentAdministratorSchedulable input _ => Some (schedulable_demand grant_origin input)
  | AgentAdministratorLoadFactor input _ => Some (load_demand grant_origin input)
  | AgentSchedulable input => Some (schedulable_demand agent_origin input)
  | AgentLoadFactor input => Some (load_demand agent_origin input)
  | OptimizationSchedulable input => Some (schedulable_demand optimizer_origin input)
  | OptimizationLoadFactor input => Some (load_demand optimizer_origin input)
  | AdministratorGroupTier input => Some (tier_demand operator_origin input)
  | AgentAdministratorGroupTier input _ => Some (tier_demand grant_origin input)
  | AgentGroupTier input => Some (tier_demand agent_origin input)
  | FailoverTransition input => Some (tier_demand failover_origin input)
  | ManualResume _ | ManualHoldRelease _ | DirectGroupSwitch _ => None
  end.

Definition adapt (rq : Request) : ConversionResult :=
  match rq with
  | PolicySchedulable input => AdaptPolicyAccountSchedulable input
  | PolicyLoadFactor input => AdaptPolicyAccountLoadFactor input
  | PermanentManualPause input => AdaptPermanentManualPause input
  | AdministratorSchedulable input => AdaptTemporaryAdministratorAccountSchedulable input
  | AdministratorLoadFactor input => AdaptTemporaryAdministratorLoadFactor input
  | AgentAdministratorSchedulable input auth => AdaptAgentAdministratorAccountSchedulable input auth
  | AgentAdministratorLoadFactor input auth => AdaptAgentAdministratorLoadFactor input auth
  | AgentSchedulable input => AdaptAutonomousAgentAccountSchedulable input
  | AgentLoadFactor input => AdaptAutonomousAgentLoadFactor input
  | OptimizationSchedulable input => AdaptCostOptimizationSchedulable input
  | OptimizationLoadFactor input => AdaptCostOptimizationLoadFactor input
  | AdministratorGroupTier input => AdaptTemporaryAdministratorGroupTier input
  | AgentAdministratorGroupTier input auth => AdaptAgentAdministratorGroupTier input auth
  | AgentGroupTier input => AdaptAutonomousAgentGroupTier input
  | FailoverTransition input => AdaptFailoverTransition input
  | ManualResume input => AdaptManualResume input
  | ManualHoldRelease input => AdaptManualHoldRelease input
  | DirectGroupSwitch input => AdaptLegacyDirectGroupSwitch input
  end.

(** Conditions beyond the context: a hold has no end, and an agent acts for an
    administrator only with the grant it consumed. *)
Definition admissible (rq : Request) : Prop :=
  match rq with
  | PermanentManualPause input => lc_ExpiresAt (ac_Context input) = None
  | AgentAdministratorSchedulable input auth => granted (as_Context input) auth
  | AgentAdministratorLoadFactor input auth => granted (al_Context input) auth
  | AgentAdministratorGroupTier input auth => granted (ug_Context input) auth
  | _ => True
  end.

(** What the context must state for an origin. *)
Record complete (o : Origin) (c : LegacyContext) (t : authority_terms) : Prop := {
  cm_terms : terms_of (og_authority o) = Some t;
  cm_actor : nonblank (lc_Actor c);
  cm_reason : nonblank (lc_Reason c);
  cm_namespace : trim_space (lc_StableSourceNamespace c) = og_namespace o;
  cm_source : nonblank (lc_StableSourceID c);
  cm_created : lc_CreatedAt c ≠ zero_time;
  cm_expires e : lc_ExpiresAt c = Some e → (lc_CreatedAt c < e)%Z;
  cm_snapshot : needs_snapshot t = true → nonblank (lc_SnapshotVersion c);
  cm_policy : needs_policy t = true → nonblank (lc_PolicyVersion c);
  cm_evidence : needs_evidence t = true →
    lc_EvidenceRefs c ≠ [] ∧ Forall nonblank (lc_EvidenceRefs c);
  cm_ttl : needs_ttl t = true → is_Some (lc_ExpiresAt c);
}.

(** The key that identifies the business action, and the intent it becomes. *)
Definition action_key (d : Demand) : string :=
  deriveDigest "cp-idem-v2-"
    [Producer_String (og_producer (dm_origin d));
     StableSourceNamespace_String (og_namespace (dm_origin d));
     trim_space (lc_StableSourceID (dm_context d));
     Resource_String (dm_resource d); Operation_String (dm_operation d)].

Definition unidentified (d : Demand) : Intent :=
  let c := dm_context d in
  mkIntent "pending-intent-id" (action_key d) (og_producer (dm_origin d))
    (og_authority (dm_origin d)) (dm_resource d) (dm_operation d) (dm_state d)
    (trim_space (lc_Actor c)) (trim_space (lc_Reason c))
    (canonicalEvidenceRefs (lc_EvidenceRefs c)) (trim_space (lc_PolicyVersion c))
    (trim_space (lc_SnapshotVersion c)) (lc_CreatedAt c) (lc_ExpiresAt c).

Definition semantic_digest (i : Intent) : string := "cp-sem-v1-" +:+ sha256_hex (semanticSignature i).

Definition converted (d : Demand) : Intent :=
  (unidentified d) <| in_ID :=
    deriveDigest "cp-intent-v2-" [action_key d; semantic_digest (unidentified d)] |>.

(** ** Digests *)

Lemma digest_input_parts fields : digest_input fields = encode_parts fields.
Proof. apply (appendCanonicalPart_foldl ""). Qed.

Lemma deriveDigest_inj prefix f g :
  deriveDigest prefix f = deriveDigest prefix g →
  f = g ∨ sha256_collision (digest_input f) (digest_input g).
Proof.
  unfold deriveDigest. intros Heq. apply (inj (String.append prefix)) in Heq.
  apply sha256_hex_inj_or_collision in Heq as [Heq|Hc]; [left|by right].
  rewrite !digest_input_parts in Heq. by apply encode_parts_inj.
Qed.

Lemma nonblank_visible s : Forall visible (bytes_of s) → s ≠ "" → nonblank s.
Proof. intros Hv Hs. unfold nonblank. by rewrite trim_space_visible. Qed.

Lemma trim_deriveDigest prefix fields :
  Forall visible (bytes_of prefix) → trim_space (deriveDigest prefix fields) = deriveDigest prefix fields.
Proof. apply trim_space_digest. Qed.

Lemma visible_text s : forallb (λ b, (0x21 <=? b)%N && (b <? 0x7F)%N) (bytes_of s) = true →
  Forall visible (bytes_of s).
Proof.
  intros Hs. apply List.Forall_forall. rewrite forallb_forall in Hs. intros b Hb.
  specialize (Hs b Hb). unfold visible. apply andb_true_iff in Hs as [?%N.leb_le ?%N.ltb_lt]. lia.
Qed.

Lemma nonblank_digest c prefix fields :
  Forall visible (bytes_of (String c prefix)) → nonblank (deriveDigest (String c prefix) fields).
Proof. intros Hp. unfold nonblank. by rewrite trim_deriveDigest. Qed.

(** ** Preparing the metadata *)

(** An answer that is one gap. *)
Definition gap_answer (r : ConversionResult) : Prop :=
  cr_Intent r = None ∧ cr_Status r ∈ [ConversionUnsupported; ConversionIncomplete; ConversionInvalid]
  ∧ cr_GapCode r ≠ GapNone ∧ GapCode_Valid (cr_GapCode r) = true.

Lemma failed_gap status gap detail :
  status ∈ [ConversionUnsupported; ConversionIncomplete; ConversionInvalid] →
  gap ≠ GapNone → GapCode_Valid gap = true → gap_answer (failed status gap detail).
Proof. done. Qed.

Lemma gap_answer_invalid r : gap_answer r → invalidResult r = true.
Proof.
  intros (_ & Hs & _). unfold invalidResult. rewrite bool_decide_false; [done|].
  intros Heq. rewrite Heq in Hs. repeat (apply elem_of_cons in Hs as [Hs|Hs]; [done|]).
  by apply elem_of_nil in Hs.
Qed.

(** The requirements an adapter passes are the terms of its authority. *)
Definition requirements_match (req : contextRequirements) (t : authority_terms) : bool :=
  eqb (req_ttl req || req_agentTTL req) (needs_ttl t) && eqb (req_policy req) (needs_policy t)
  && eqb (req_snapshot req) (needs_snapshot t) && eqb (req_evidence req) (needs_evidence t).

Definition prepared (o : Origin) (c : LegacyContext) (r : Resource) (op : Operation) : IntentMetadata :=
  mkIntentMetadata "pending-intent-id" (action_key (mkDemand o c r op (schedulableState false)))
    (og_producer o) (og_authority o) (trim_space (lc_Actor c)) (trim_space (lc_Reason c))
    (trim_space <$> lc_EvidenceRefs c) (trim_space (lc_PolicyVersion c))
    (trim_space (lc_SnapshotVersion c)) (lc_CreatedAt c) (lc_ExpiresAt c).

Lemma hasEvidence_true refs :
  hasEvidence (trim_space <$> refs) = true ↔ refs ≠ [] ∧ Forall nonblank refs.
Proof.
  unfold hasEvidence. case_bool_decide as E; [by apply fmap_nil_inv in E as ->; naive_solver|].
  rewrite forallb_forall. setoid_rewrite <-list_elem_of_In. rewrite Forall_forall.
  setoid_rewrite negb_true_iff. setoid_rewrite bool_decide_eq_false. unfold nonblank.
  split.
  - intros Hall. split; [by intros ->|]. intros x Hx.
    specialize (Hall (trim_space x)). rewrite trim_space_idemp in Hall.
    by apply Hall, list_elem_of_fmap_2.
  - intros [_ Hall] x (y & -> & Hy)%list_elem_of_fmap. rewrite trim_space_idemp. auto.
Qed.

Lemma clone_time_id v : cloneTime v = v.
Proof. by destruct v. Qed.

(** A check of [prepareMetadata] that fails, and the field of [complete] it reads. *)
Ltac refused C := right; split; [intros C|by apply failed_gap; [set_solver|..]].

Lemma prepareMetadata_spec o c req t r op :
  terms_of (og_authority o) = Some t → requirements_match req t = true →
  StableSourceNamespace_Valid (og_namespace o) = true →
  (complete o c t ∧ prepareMetadata c (og_producer o) (og_authority o) req (og_namespace o) r op
     = (prepared o c r op, no_result))
  ∨ (¬ complete o c t ∧ gap_answer
      (prepareMetadata c (og_producer o) (og_authority o) req (og_namespace o) r op).2).
Proof.
  intros Ht Hreq Hns. unfold requirements_match in Hreq.
  rewrite !andb_true_iff, !eqb_true_iff in Hreq. destruct Hreq as (((Httl & Hpol) & Hsnap) & Hev).
  destruct c as [ns sid actor reason refs pol snap created exp].
  unfold prepareMetadata, normalizedContext. upd. rewrite !clone_time_id.
  destruct (bool_decide (trim_space actor = "")) eqn:E1.
  { refused C. bool_facts. by apply (cm_actor _ _ _ C). }
  destruct (bool_decide (trim_space reason = "")) eqn:E2.
  { refused C. bool_facts. by apply (cm_reason _ _ _ C). }
  destruct (bool_decide (exp = None) && req_agentTTL req) eqn:E3.
  { refused C. bool_facts. destruct (cm_ttl _ _ _ C) as [e He]; [|simpl in He; congruence].
    rewrite <-Httl. by apply orb_true_iff; right. }
  destruct (bool_decide (exp = None) && req_ttl req) eqn:E4.
  { refused C. bool_facts. destruct (cm_ttl _ _ _ C) as [e He]; [|simpl in He; congruence].
    rewrite <-Httl. by apply orb_true_iff; left. }
  destruct (req_policy req && bool_decide (trim_space pol = "")) eqn:E5.
  { refused C. bool_facts. apply (cm_policy _ _ _ C); [congruence|done]. }
  destruct (req_snapshot req && bool_decide (trim_space snap = "")) eqn:E6.
  { refused C. bool_facts. apply (cm_snapshot _ _ _ C); [congruence|done]. }
  destruct (req_evidence req && negb (hasEvidence (trim_space <$> refs))) eqn:E7.
  { refused C. bool_facts. apply (eq_true_false_abs (hasEvidence (trim_space <$> refs)));
      [|done]. apply hasEvidence_true, (cm_evidence _ _ _ C). congruence. }
  destruct (negb (StableSourceNamespace_Valid (trim_space ns))
    || negb (bool_decide (trim_space ns = og_namespace o)) || bool_decide (trim_space sid = "")) eqn:E8.
  { refused C. pose proof (cm_namespace _ _ _ C) as Hn. simpl in Hn. rewrite Hn, Hns in E8.
    rewrite bool_decide_true, bool_decide_false in E8; [done|apply (cm_source _ _ _ C)|done]. }
  destruct (is_zero_time created) eqn:E9.
  { refused C. apply Z.eqb_eq in E9. by apply (cm_created _ _ _ C). }
  destruct (match exp with Some e => negb (after e created) | None => false end) eqn:E10.
  { refused C. destruct exp as [e|]; [|done]. pose proof (cm_expires _ _ _ C e eq_refl).
    rewrite (proj2 (negb_after_false e created)) in E10; done. }
  left. bool_facts. split; [|unfold prepared, action_key; simpl; congruence].
  split; simpl; try done.
  - by apply Z.eqb_neq.
  - intros e ->. by apply negb_after_false.
  - intros Hs. rewrite <-Hsnap in Hs. rewrite Hs in E6. by apply bool_decide_eq_false in E6.
  - intros Hs. rewrite <-Hpol in Hs. rewrite Hs in E5. by apply bool_decide_eq_false in E5.
  - intros Hs. rewrite <-Hev in Hs. rewrite Hs in E7. apply hasEvidence_true.
    by apply negb_false_iff.
  - intros Hs. rewrite <-Httl in Hs. destruct exp; [by eexists|].
    apply orb_true_iff in Hs as [Hs|Hs]; by rewrite Hs in *.
Qed.

(** ** From metadata to the answer *)

Definition mapped_answer (i : Intent) : ConversionResult :=
  mkConversionResult (Some i) ConversionMapped GapNone "".

(** The state asked for is one the control plane can express. *)
Definition expressible (d : Demand) : Prop :=
  target (dm_resource d) (dm_operation d) (dm_state d)
  ∧ (dm_operation d = OperationSetUpstreamKeyGroupTier → ds_groupTier (dm_state d) ∈ group_tiers).

Definition convertible (d : Demand) : Prop :=
  expressible d ∧ ∃ t, complete (dm_origin d) (dm_context d) t.

Definition answers (d : Demand) (r : ConversionResult) : Prop :=
  convertible d ∧ r = mapped_answer (converted d) ∧ Intent_Validate (converted d) = Ok ()
  ∨ ¬ convertible d ∧ gap_answer r.

Lemma canonicalEvidenceRefs_trimmed refs :
  canonicalEvidenceRefs (trim_space <$> refs) = canonicalEvidenceRefs refs.
Proof.
  apply canonicalEvidenceRefs_set. intros x. rewrite <-list_fmap_compose.
  rewrite !list_elem_of_fmap. simpl. setoid_rewrite trim_space_idemp. done.
Qed.

Lemma built_prepared d :
  built (prepared (dm_origin d) (dm_context d) (dm_resource d) (dm_operation d))
    (dm_resource d) (dm_operation d) (dm_state d) = unidentified d.
Proof.
  unfold built, prepared, normalizeMetadata, unidentified. upd.
  rewrite !trim_space_idemp, canonicalEvidenceRefs_trimmed.
  unfold action_key. rewrite trim_deriveDigest by (by apply visible_text; vm_compute).
  f_equal; by vm_compute.
Qed.

Lemma origin_terms o : o ∈ origins →
  Producer_Valid (og_producer o) = true ∧ is_Some (terms_of (og_authority o))
  ∧ StableSourceNamespace_Valid (og_namespace o) = true.
Proof.
  revert o. apply Forall_forall. repeat constructor; try done; by eexists.
Qed.

Lemma nonblank_trim s : nonblank (trim_space s) ↔ nonblank s.
Proof. unfold nonblank. by rewrite trim_space_idemp. Qed.

Lemma evidence_canonical refs :
  refs ≠ [] ∧ Forall nonblank refs →
  canonicalEvidenceRefs refs ≠ [] ∧ Forall nonblank (canonicalEvidenceRefs refs).
Proof.
  intros [Hne Hall]. split.
  - destruct refs as [|r refs]; [done|]. intros Hnil.
    assert (trim_space r ∈ canonicalEvidenceRefs (r :: refs)) as Hin.
    { apply elem_of_canonicalEvidenceRefs. by left. }
    rewrite Hnil in Hin. by apply elem_of_nil in Hin.
  - apply Forall_forall. intros x (y & -> & Hy)%elem_of_canonicalEvidenceRefs%list_elem_of_fmap.
    rewrite Forall_forall in Hall. by apply nonblank_trim, Hall.
Qed.

(** A complete, well-typed demand is a valid intent whatever its identifier. *)
Lemma complete_valid d t i :
  dm_origin d ∈ origins → complete (dm_origin d) (dm_context d) t →
  target (dm_resource d) (dm_operation d) (dm_state d) →
  nonblank i → Intent_Validate ((unidentified d) <| in_ID := i |>) = Ok ().
Proof.
  intros Ho [] Ht Hi. apply origin_terms in Ho as (Hp & _ & _).
  apply Intent_Validate_ok. exists t.
  split; cbn; try done; rewrite ?nonblank_trim; try done; [|by intros ?; apply evidence_canonical; auto].
  apply nonblank_digest, visible_text. by vm_compute.
Qed.

Lemma mapped_valid d :
  Intent_Validate (unidentified d) = Ok () →
  (∀ i, nonblank i → Intent_Validate ((unidentified d) <| in_ID := i |>) = Ok ()) →
  mapped (Ok (unidentified d)) = mapped_answer (converted d)
  ∧ Intent_Validate (converted d) = Ok ().
Proof.
  intros Hv Hid.
  assert (Intent_Validate (converted d) = Ok ()) as Hc.
  { apply Hid, nonblank_digest, visible_text. by vm_compute. }
  split; [|done]. unfold mapped, SemanticSignature. rewrite Hv.
  cbn [mbind result_bind mret result_ret]. unfold converted, semantic_digest in Hc |- *.
  change (in_IdempotencyKey (unidentified d)) with (action_key d). by rewrite Hc.
Qed.

Lemma mapped_err e : gap_answer (mapped (Err e)).
Proof. apply failed_gap; [|done..]. apply (bool_decide_unpack _). by vm_compute. Qed.

(** The steps every adapter ends with. *)
Lemma adapt_answers d req t (build : IntentMetadata → result ValidationError Intent) :
  dm_origin d ∈ origins → terms_of (og_authority (dm_origin d)) = Some t →
  requirements_match req t = true →
  (∀ m i, build m = Ok i ↔
    i = built m (dm_resource d) (dm_operation d) (dm_state d)
    ∧ (dm_operation d = OperationSetUpstreamKeyGroupTier → ds_groupTier (dm_state d) ∈ group_tiers)
    ∧ Intent_Validate i = Ok ()) →
  answers d
    (let '(metadata, result) := prepareMetadata (dm_context d) (og_producer (dm_origin d))
       (og_authority (dm_origin d)) req (og_namespace (dm_origin d)) (dm_resource d) (dm_operation d) in
     unless_invalid result (mapped (build metadata))).
Proof.
  intros Ho Ht Hreq Hbuild. pose proof (origin_terms _ Ho) as (Hp & _ & Hns).
  destruct (prepareMetadata_spec (dm_origin d) (dm_context d) req t (dm_resource d) (dm_operation d)
    Ht Hreq Hns) as [[Hc ->]|[Hc Hgap]].
  - unfold unless_invalid. simpl.
    destruct (build _) as [i|e] eqn:Eb.
    + apply Hbuild in Eb as (-> & Htier & Hv). rewrite built_prepared in *.
      assert (target (dm_resource d) (dm_operation d) (dm_state d)) as Htarget
        by exact (valid_target _ Hv).
      left. split; [split; [done|by exists t]|]. apply mapped_valid; [done|].
      intros i. by eapply complete_valid.
    + right. split; [|apply mapped_err]. intros [[Htarget Htier] _].
      assert (build (prepared (dm_origin d) (dm_context d) (dm_resource d) (dm_operation d))
        = Ok (unidentified d)) as Hok; [|congruence].
      apply Hbuild. rewrite built_prepared. split; [done|split; [done|]].
      by apply (complete_valid d t "pending-intent-id").
  - destruct (prepareMetadata _ _ _ _ _ _ _) as [m r]. simpl in Hgap. right.
    unfold unless_invalid. rewrite gap_answer_invalid by done. split; [|done].
    intros [_ [t' Ht']]. by rewrite (cm_terms _ _ _ Ht') in Ht; injection Ht as <-.
Qed.

(** ** The three kinds of adapter *)

Lemma refused_resource detail : gap_answer (invalidResource detail).
Proof. apply failed_gap; [|done..]. apply (bool_decide_unpack _). by vm_compute. Qed.

Lemma invalid_first d r k :
  ¬ convertible d → gap_answer r → answers d (unless_invalid r k).
Proof. intros Hd Hr. right. split; [done|]. unfold unless_invalid. by rewrite gap_answer_invalid. Qed.

Lemma account_not_positive d id :
  (id ≤ 0)%Z → dm_resource d = account_resource id → ¬ convertible d.
Proof. intros Hid Hr [[Ht _] _]. rewrite Hr in Ht. inv Ht; lia. Qed.

Lemma adaptAccountSchedulable_answers o req t input :
  o ∈ origins → terms_of (og_authority o) = Some t → requirements_match req t = true →
  answers (schedulable_demand o input)
    (adaptAccountSchedulable input (og_producer o) (og_authority o) req (og_namespace o)).
Proof.
  intros Ho Ht Hreq. unfold adaptAccountSchedulable, validateAccountID.
  destruct (as_AccountID input <=? 0)%Z eqn:Eid; bool_facts.
  { apply invalid_first; [by eapply account_not_positive|apply refused_resource]. }
  rewrite account_resource_valid by done. unfold unless_invalid at 1. simpl.
  apply (adapt_answers (schedulable_demand o input) req t
    (λ m, NewAccountSchedulableIntent m (as_AccountID input) (as_Schedulable input))); [done..|].
  intros m i. rewrite schedulable_constructor. naive_solver.
Qed.

Lemma adaptAccountLoadFactor_answers o req t input :
  o ∈ origins → terms_of (og_authority o) = Some t → requirements_match req t = true →
  answers (load_demand o input)
    (adaptAccountLoadFactor input (og_producer o) (og_authority o) req (og_namespace o)).
Proof.
  intros Ho Ht Hreq. unfold adaptAccountLoadFactor, validateAccountID.
  destruct (al_AccountID input <=? 0)%Z eqn:Eid; bool_facts.
  { apply invalid_first; [by eapply account_not_positive|apply refused_resource]. }
  unfold unless_invalid at 1. simpl.
  destruct (match al_LoadFactor input with Some f => (f <? 1)%Z | None => false end) eqn:Ef.
  { right. split; [|apply failed_gap; [|done..]; apply (bool_decide_unpack _); by vm_compute].
    intros [[Htarget _] _]. simpl in Htarget. inv Htarget as [| ? ? ? ? Hlf|].
    destruct (al_LoadFactor input) as [f|]; [|done]. simpl in Hlf. bool_facts.
    specialize (Hlf eq_refl). lia. }
  rewrite account_resource_valid by done.
  apply (adapt_answers (load_demand o input) req t
    (λ m, NewAccountLoadFactorIntent m (al_AccountID input) (al_LoadFactor input))); [done..|].
  intros m i. rewrite load_factor_constructor. naive_solver.
Qed.

Lemma adaptGroupTier_answers o req t input :
  o ∈ origins → terms_of (og_authority o) = Some t → requirements_match req t = true →
  answers (tier_demand o input)
    (adaptGroupTier input (og_producer o) (og_authority o) req (og_namespace o)).
Proof.
  intros Ho Ht Hreq. unfold adaptGroupTier, validateUpstreamResource.
  destruct ((ug_SourceID input <=? 0)%Z || bool_decide (trim_space (ug_KeyID input) = "")) eqn:Eid.
  { apply invalid_first; [|apply refused_resource]. intros [[Htarget _] _]. simpl in Htarget.
    inv Htarget as [| |? ? ? Hs Hk]. apply orb_true_iff in Eid as [Hid|Hid]; bool_facts; [lia|].
    rewrite nonblank_trim in Hk. by apply Hk. }
  bool_facts. unfold unless_invalid at 1. simpl.
  rewrite key_resource_valid by (done || by apply nonblank_trim; unfold nonblank).
  apply (adapt_answers (tier_demand o input) req t
    (λ m, NewUpstreamKeyGroupTierIntent m (ug_SourceID input) (ug_KeyID input)
       (to_lower (trim_space (ug_TargetTier input))))); [done..|].
  intros m i. rewrite group_tier_constructor. simpl. naive_solver.
Qed.

Lemma granted_verified c a :
  (invalidResult (verifyAdministratorAuthorization c a) = false
   ∧ (granted c a ∨ trim_space (lc_StableSourceID c) = ""))
  ∨ (gap_answer (verifyAdministratorAuthorization c a) ∧ ¬ granted c a).
Proof.
  unfold verifyAdministratorAuthorization, validAdministratorAuthorization, granted, nonblank.
  assert (∀ d, gap_answer (failed ConversionIncomplete GapMissingAuthorityContext d)) as Hgap.
  { intros d. apply failed_gap; [|done..]. apply (bool_decide_unpack _). by vm_compute. }
  destruct (negb _) eqn:Ev.
  { right. split; [apply Hgap|]. intros (H1 & H2 & H3 & H4 & _).
    rewrite H1, H2, H3, bool_decide_false in Ev; done. }
  bool_facts. destruct (negb _ && _) eqn:Es.
  { right. split; [apply Hgap|]. bool_facts. naive_solver. }
  left. split; [done|].
  apply andb_false_iff in Es as [Es|Es]; bool_facts; [by right|left].
  by split_and!.
Qed.

(** An agent that acts for an administrator. *)
Lemma granted_answers d a r :
  answers d r →
  (convertible d ∧ granted (dm_context d) a
   ∧ unless_invalid (verifyAdministratorAuthorization (dm_context d) a) r = mapped_answer (converted d)
   ∧ Intent_Validate (converted d) = Ok ())
  ∨ (¬ (convertible d ∧ granted (dm_context d) a)
     ∧ gap_answer (unless_invalid (verifyAdministratorAuthorization (dm_context d) a) r)).
Proof.
  intros Hans. unfold unless_invalid.
  destruct (granted_verified (dm_context d) a) as [[-> Hg]|[Hgap Hg]].
  - destruct Hans as [(Hd & -> & Hv)|[Hd Hgap]]; [|right; naive_solver].
    destruct Hg as [Hg|Hblank]; [left; naive_solver|].
    exfalso. destruct Hd as [_ [t Ht]]. by apply (cm_source _ _ _ Ht).
  - rewrite gap_answer_invalid by done. right. naive_solver.
Qed.

(** ** Every request *)

(** The request stands for an intent. *)
Definition acceptable (rq : Request) (d : Demand) : Prop :=
  demand rq = Some d ∧ admissible rq ∧ convertible d.

(** [r] is the right answer to the request: its intent, or a gap. *)
Definition answered (rq : Request) (r : ConversionResult) : Prop :=
  (∃ d, acceptable rq d ∧ r = mapped_answer (converted d) ∧ Intent_Validate (converted d) = Ok ())
  ∨ ((∀ d, ¬ acceptable rq d) ∧ gap_answer r).

Lemma answers_plain rq d r :
  demand rq = Some d → admissible rq → answers d r → answered rq r.
Proof.
  intros Hd Ha [Hans|[Hc Hgap]]; [left; exists d; unfold acceptable; naive_solver|right].
  split; [|done]. intros d' (Hd' & _ & Hc'). apply Hc. congruence.
Qed.

Lemma answers_granted rq d a r :
  demand rq = Some d → (admissible rq ↔ granted (dm_context d) a) → answers d r →
  answered rq (unless_invalid (verifyAdministratorAuthorization (dm_context d) a) r).
Proof.
  intros Hd Ha [Hans|[Hc Hgap]]%(granted_answers d a).
  - left. exists d. unfold acceptable. naive_solver.
  - right. split; [|done]. intros d' (Hd' & Ha' & Hc'). apply Hc. apply Ha in Ha'.
    rewrite Hd in Hd'. injection Hd' as <-. done.
Qed.

Lemma answers_never rq r : demand rq = None → gap_answer r → answered rq r.
Proof. intros Hd Hr. right. split; [|done]. intros d (Hd' & _). congruence. Qed.

Lemma gap_after_check r k : (invalidResult r = true → gap_answer r) → gap_answer k →
  gap_answer (unless_invalid r k).
Proof. intros Hr Hk. unfold unless_invalid. destruct (invalidResult r); auto. Qed.

Lemma account_check_gap id : invalidResult (validateAccountID id) = true →
  gap_answer (validateAccountID id).
Proof. unfold validateAccountID. destruct (_ <=? _)%Z; [intros; apply refused_resource|done]. Qed.

Lemma hold_answered input : answered (PermanentManualPause input) (AdaptPermanentManualPause input).
Proof.
  unfold AdaptPermanentManualPause, validateAccountID.
  destruct (ac_AccountID input <=? 0)%Z eqn:Eid; bool_facts.
  - right. unfold unless_invalid. rewrite gap_answer_invalid by apply refused_resource.
    split; [|apply refused_resource]. intros d ([= <-] & _ & Hd).
    by apply (account_not_positive _ (ac_AccountID input)) in Hd.
  - unfold unless_invalid. simpl. case_bool_decide as Ee.
    + right. split; [|apply failed_gap; [|done..]; apply (bool_decide_unpack _); by vm_compute].
      intros d (_ & Ha & _). simpl in Ha. rewrite Ha in Ee. by destruct Ee.
    + eapply answers_plain; [done| |].
      * simpl. destruct (lc_ExpiresAt (ac_Context input)); [exfalso; apply Ee; by eexists|done].
      * by apply (adaptAccountSchedulable_answers hold_origin _ (mkTerms false false false false));
          [apply (bool_decide_unpack _)|..].
Qed.

Lemma direct_switch_gap input : gap_answer (AdaptLegacyDirectGroupSwitch input).
Proof.
  apply gap_after_check.
  - unfold validateUpstreamResource. destruct (_ || _); [intros; apply refused_resource|done].
  - destruct (bool_decide _); (apply failed_gap; [|done..]); apply (bool_decide_unpack _); by vm_compute.
Qed.

Ltac plain_row lemma origin terms :=
  eapply answers_plain; [reflexivity|exact I|];
  apply (lemma origin _ terms); [apply (bool_decide_unpack _); reflexivity|reflexivity..].
Ltac granted_row lemma d auth :=
  apply (answers_granted _ d auth); [reflexivity|done|];
  apply (lemma grant_origin _ (mkTerms false false false true));
  [apply (bool_decide_unpack _); reflexivity|reflexivity..].

Lemma adapt_answered rq : answered rq (adapt rq).
Proof.
  destruct rq as [input|input|input|input|input|input auth|input auth|input|input|input|input
                 |input|input auth|input|input|input|input|input]; simpl adapt.
  - plain_row adaptAccountSchedulable_answers policy_origin (mkTerms true true false false).
  - plain_row adaptAccountLoadFactor_answers policy_origin (mkTerms true true false false).
  - apply hold_answered.
  - plain_row adaptAccountSchedulable_answers operator_origin (mkTerms false false false true).
  - plain_row adaptAccountLoadFactor_answers operator_origin (mkTerms false false false true).
  - granted_row adaptAccountSchedulable_answers (schedulable_demand grant_origin input) auth.
  - granted_row adaptAccountLoadFactor_answers (load_demand grant_origin input) auth.
  - plain_row adaptAccountSchedulable_answers agent_origin (mkTerms true false true true).
  - plain_row adaptAccountLoadFactor_answers agent_origin (mkTerms true false true true).
  - plain_row adaptAccountSchedulable_answers optimizer_origin (mkTerms true false false true).
  - plain_row adaptAccountLoadFactor_answers optimizer_origin (mkTerms true false false true).
  - plain_row adaptGroupTier_answers operator_origin (mkTerms false false false true).
  - granted_row adaptGroupTier_answers (tier_demand grant_origin input) auth.
  - plain_row adaptGroupTier_answers agent_origin (mkTerms true false true true).
  - plain_row adaptGroupTier_answers failover_origin (mkTerms true false true false).
  - apply answers_never; [done|]. apply gap_after_check; [apply account_check_gap|].
    apply failed_gap; [|done..]. apply (bool_decide_unpack _). by vm_compute.
  - apply answers_never; [done|]. apply gap_after_check; [apply account_check_gap|].
    apply failed_gap; [|done..]. apply (bool_decide_unpack _). by vm_compute.
  - apply answers_never; [done|]. apply direct_switch_gap.
Qed.

Lemma MappedIntent_mapped i : Intent_Validate i = Ok () → MappedIntent (mapped_answer i) = Ok i.
Proof.
  intros Hv. unfold MappedIntent, ConversionResult_Validate, mapped_answer. simpl. by rewrite Hv.
Qed.

Lemma mapped_answer_validate i :
  Intent_Validate i = Ok () → ConversionResult_Validate (mapped_answer i) = Ok ().
Proof. intros Hv. unfold ConversionResult_Validate, mapped_answer. simpl. by rewrite Hv. Qed.

Lemma gap_answer_validate r : gap_answer r →
  ConversionResult_Validate r = Ok () ∧ ∀ i, MappedIntent r ≠ Ok i.
Proof.
  intros (Hi & Hs & Hg & Hv). unfold MappedIntent, ConversionResult_Validate.
  rewrite Hi, Hv, (bool_decide_false _ Hg).
  assert (ConversionStatus_Valid (cr_Status r) = true) as ->.
  { apply bool_decide_true. set_solver. }
  rewrite bool_decide_false.
  2:{ intros Heq. rewrite Heq in Hs. by apply (bool_decide_pack _) in Hs. }
  done.
Qed.

Lemma mapped_converted rq i :
  MappedIntent (adapt rq) = Ok i → ∃ d, demand rq = Some d ∧ i = converted d ∧ Intent_Validate i = Ok ().
Proof.
  destruct (adapt_answered rq) as [(d & Hd & -> & Hv)|[_ Hgap]].
  - rewrite MappedIntent_mapped by done. intros [= <-]. by exists d; destruct Hd.
  - apply gap_answer_validate in Hgap as [_ Hnone]. intros []%Hnone.
Qed.

Lemma converted_normal d : normal (converted d).
Proof.
  unfold normal, metadata_of, converted, unidentified, normalizeMetadata. upd.
  rewrite !trim_space_idemp, canonicalEvidenceRefs_idemp. unfold action_key.
  by rewrite !trim_deriveDigest by (by apply visible_text; vm_compute).
Qed.

(** C39: every conversion answers with a well-formed result, and maps a request
    exactly when the intent it stands for can be expressed, its context is
    complete for the authority it is given (actor, reason, creation, a source
    identifier in the origin's own namespace, and the snapshot, policy, evidence
    and expiration that the authority's terms demand), a hold has no expiration,
    and an agent acting as administrator consumed a verified exact grant whose
    identifier is the source of the action. The intent is then [converted]: valid,
    in normal form, with the origin's producer and authority. Resuming, releasing
    a hold and switching to an arbitrary group are never mapped. *)
Theorem conversion_exact rq :
  ConversionResult_Validate (adapt rq) = Ok ()
  ∧ (∀ i, MappedIntent (adapt rq) = Ok i ↔ ∃ d, acceptable rq d ∧ i = converted d)
  ∧ (∀ i, MappedIntent (adapt rq) = Ok i → Intent_Validate i = Ok () ∧ normal i).
Proof.
  destruct (adapt_answered rq) as [(d & Hd & -> & Hv)|[Hno Hgap]].
  - split; [by apply mapped_answer_validate|].
    rewrite MappedIntent_mapped by done. split.
    + intros i. split; [intros [= <-]; by exists d|]. intros (d' & (Hd' & _) & ->).
      destruct Hd as (Hd & _). assert (Some d = Some d') as [= ->] by (by rewrite <-Hd).
      reflexivity.
    + intros i [= <-]. split; [done|]. apply converted_normal.
  - apply gap_answer_validate in Hgap as [Hv Hnone]. split; [done|].
    split; [intros i; split; [intros []%Hnone|intros (d & []%Hno & _)]|intros i []%Hnone].
Qed.

(** ** Identity *)

(** The same business action: what the idempotency key is derived from. *)
Record same_action (d e : Demand) : Prop := {
  sa_producer : og_producer (dm_origin d) = og_producer (dm_origin e);
  sa_namespace : og_namespace (dm_origin d) = og_namespace (dm_origin e);
  sa_source : trim_space (lc_StableSourceID (dm_context d)) = trim_space (lc_StableSourceID (dm_context e));
  sa_resource : dm_resource d = dm_resource e;
  sa_operation : dm_operation d = dm_operation e;
}.

Definition action_fields (d : Demand) : list string :=
  [Producer_String (og_producer (dm_origin d));
   StableSourceNamespace_String (og_namespace (dm_origin d));
   trim_space (lc_StableSourceID (dm_context d));
   Resource_String (dm_resource d); Operation_String (dm_operation d)].
Definition identity_fields (d : Demand) : list string :=
  [action_key d; semantic_digest (converted d)].

Lemma action_fields_inj rq1 rq2 d e :
  acceptable rq1 d → acceptable rq2 e → action_fields d = action_fields e → same_action d e.
Proof.
  intros (Hd & _ & (Hxd & _) & td & Htd) (He & _ & (Hxe & _) & te & Hte) Heq.
  assert (∀ rq d, demand rq = Some d → dm_origin d ∈ origins) as Horg.
  { intros rq d' Hd'. destruct rq; try discriminate Hd'; injection Hd' as <-;
      by apply (bool_decide_unpack _). }
  apply Horg, origin_terms in Hd as (Hpd & _ & Hnd), He as (Hpe & _ & Hne).
  unfold action_fields, Producer_String, StableSourceNamespace_String in Heq.
  rewrite Hpd, Hpe, Hnd, Hne in Heq. injection Heq as H1 H2 H3 H4 H5.
  assert (∀ d', target (dm_resource d') (dm_operation d') (dm_state d') →
    Resource_Validate (dm_resource d') = Ok () ∧ Operation_String (dm_operation d') = dm_operation d') as Hn.
  { intros d' Ht. split; [|by destruct Ht].
    apply validateFor_ok in Ht. unfold validateFor in Ht. by apply then_ok in Ht as [? _]. }
  apply Hn in Hxd as [Hrd Hod], Hxe as [Hre Hoe].
  split; try done; [|congruence]. by apply Resource_String_inj.
Qed.

Lemma action_key_same d e : same_action d e → action_key d = action_key e.
Proof. intros [Hp Hn Hs Hr Ho]. unfold action_key. by rewrite Hp, Hn, Hs, Hr, Ho. Qed.

Lemma converted_signature d : semanticSignature (unidentified d) = semanticSignature (converted d).
Proof. done. Qed.

(** C40: the identities of converted actions are a function of the business action
    and, for the identifier, of what the intent means. Two accepted requests have
    the same idempotency key when they are the same action (producer, source
    namespace, source identifier, resource and operation), and only then unless
    the fields they were derived from are a SHA-256 collision; they have the same
    intent identifier when moreover the intents have the same semantics, and only
    then, up to a collision again. A retry of an action is therefore the same
    intent, and two different actions are never taken for one another. *)
Theorem conversion_identity rq1 rq2 d e :
  acceptable rq1 d → acceptable rq2 e →
  (same_action d e → in_IdempotencyKey (converted d) = in_IdempotencyKey (converted e))
  ∧ (in_IdempotencyKey (converted d) = in_IdempotencyKey (converted e) →
      same_action d e
      ∨ sha256_collision (digest_input (action_fields d)) (digest_input (action_fields e)))
  ∧ (same_action d e → same_semantics (converted d) (converted e) →
      in_ID (converted d) = in_ID (converted e))
  ∧ (in_ID (converted d) = in_ID (converted e) →
      in_IdempotencyKey (converted d) = in_IdempotencyKey (converted e)
        ∧ same_semantics (converted d) (converted e)
      ∨ sha256_collision (digest_input (identity_fields d)) (digest_input (identity_fields e))
      ∨ sha256_collision (semanticSignature (converted d)) (semanticSignature (converted e))).
Proof.
  intros Hd He.
  assert (∀ rq d, acceptable rq d → Intent_Validate (converted d) = Ok ()) as Hvalid.
  { intros rq d' Hd'. destruct (adapt_answered rq) as [(d'' & (Heq & _) & _ & Hv)|[Hno _]].
    - destruct Hd' as (Hd' & _). assert (Some d' = Some d'') as [= ->] by (by rewrite <-Hd'). exact Hv.
    - by apply Hno in Hd'. }
  pose proof (Hvalid _ _ Hd) as Hvd. pose proof (Hvalid _ _ He) as Hve. clear Hvalid. split_and!.
  - apply action_key_same.
  - intros [Heq|Hc]%deriveDigest_inj; [left|by right]. by eapply action_fields_inj.
  - intros Ha Hs. change (in_ID (converted d)) with (deriveDigest "cp-intent-v2-" (identity_fields d)).
    change (in_ID (converted e)) with (deriveDigest "cp-intent-v2-" (identity_fields e)).
    unfold identity_fields, semantic_digest.
    by rewrite (action_key_same d e Ha), (semanticSignature_congr _ _ Hs).
  - intros [Heq|Hc]%(deriveDigest_inj _ (identity_fields d) (identity_fields e)); [|by right; left].
    unfold identity_fields, semantic_digest in Heq.
    assert (∀ a b c d : string, [a; b] = [c; d] → a = c ∧ b = d) as Hpair by (by intros ? ? ? ? [= -> ->]).
    apply Hpair in Heq as [Hk Hs]. apply (inj (String.append "cp-sem-v1-")) in Hs.
    apply sha256_hex_inj_or_collision in Hs as [Hs|Hs]; [left|by right; right].
    split; [done|]. by apply semanticSignature_inj.
Qed.
End requests.

(** ** A retried decision *)

Import Samples.

Definition decision (source reason : string) : LegacyContext :=
  mkLegacyContext SourcePolicyDecision source "scheduler" reason [] "v3" "snapshot-9" midnight None.
Definition first_attempt : Request :=
  PolicySchedulable (mkAccountSchedulableInput (decision "decision-4" "latency") 7 false).
Definition second_attempt : Request :=
  PolicySchedulable (mkAccountSchedulableInput (decision " decision-4 " "latency ") 7 false).
Definition attempt_demand (source reason : string) : Demand :=
  schedulable_demand policy_origin (mkAccountSchedulableInput (decision source reason) 7 false).

Lemma attempt_acceptable source reason :
  bool_decide (trim_space source = "") = false → bool_decide (trim_space reason = "") = false →
  acceptable (PolicySchedulable (mkAccountSchedulableInput (decision source reason) 7 false))
    (attempt_demand source reason).
Proof.
  intros Hs%bool_decide_eq_false Hr%bool_decide_eq_false.
  split; [done|]. split; [exact I|]. split; [split; [by constructor|done]|].
  exists (mkTerms true true false false). by split.
Qed.

(** The retry is the same intent. *)
Lemma conversion_identity_witness :
  acceptable first_attempt (attempt_demand "decision-4" "latency")
  ∧ in_IdempotencyKey (converted (attempt_demand "decision-4" "latency"))
    = in_IdempotencyKey (converted (attempt_demand " decision-4 " "latency "))
  ∧ MappedIntent (adapt first_attempt) = MappedIntent (adapt second_attempt)
  ∧ is_ok (MappedIntent (adapt first_attempt)) = true.
Proof.
  split; [by apply attempt_acceptable|]. split; [|split; vm_compute; reflexivity].
  apply (conversion_identity first_attempt second_attempt);
    [by apply attempt_acceptable..|by split; vm_compute].
Defined.
