(* ===== verification/Model.v ===== *)
(** * The data shared by the components

    [internal/model]: accounts as Sub2API lists them, the control record kept per
    account, locks, freeze states and events. A pointer field is an [option]; an
    [int] or [int64] is a [Z]; decoded JSON is the tree [any]. *)

From S2P Require Import Prelude GoStd Float.

(** A decoded JSON value, [any]; a number is its literal. *)
Inductive any :=
  | AnyNull
  | AnyBool (b : bool)
  | AnyNumber (literal : string)
  | AnyString (s : string)
  | AnyArray (l : list any)
  | AnyObject (l : list (string * any)).


Definition HealthStageHealthy : string := "healthy".

Definition AgentFreezeModeActive : string := "active".
Definition AgentFreezeModeAgentPaused : string := "agent_paused".
Definition AgentFreezeModeReadOnly : string := "read_only".
Definition AgentFreezeModeWritesFrozen : string := "writes_frozen".

Record Account := mkAccount {
  acc_ID : Z;
  acc_Name : string;
  acc_Platform : string;
  acc_Type : string;
  acc_Status : string;
  acc_Schedulable : bool;
  acc_ErrorMessage : string;
  acc_ExpiresAt : option Z;
  acc_Credentials : gmap string any;
  acc_Concurrency : Z;
  acc_LoadFactor : option Z;
  acc_Priority : Z;
  acc_CredentialStatus : string;
  acc_RateLimitResetAt : option time;
  acc_OverloadUntil : option time;
  acc_TempUnschedulableUntil : option time;
  acc_UpdatedAt : time;
}.

Definition BaseURL (a : Account) : string :=
  match acc_Credentials a !! "base_url" with
  | Some (AnyString value) => value
  | _ => ""
  end.

Record AccountControl := mkAccountControl {
  ct_AccountID : Z;
  ct_MonitorID : option Z;
  ct_OwnsPause : bool;
  ct_Owner : string;
  ct_ExpectedSchedulable : option bool;
  ct_ManualOverrideUntil : option time;
  ct_LastObserved : option bool;
  ct_LastDecision : string;
  ct_LastActionAt : option time;
  ct_FlapActive : bool;
  ct_FlapTriggeredAt : option time;
  ct_FlapRecoveryRequired : Z;
  ct_RecentAutomaticPauses : Z;
  ct_HealthLocked : bool;
  ct_ManualLocked : bool;
  ct_BalanceLocked : bool;
  ct_BalanceSourceID : option Z;
  ct_CostLocked : bool;
  ct_CostSourceID : option Z;
  ct_CostPool : string;
  ct_OwnsLoadFactor : bool;
  ct_OriginalLoadFactor : option Z;
  ct_ExpectedLoadFactor : option Z;
  ct_LoadStage : string;
  ct_LoadOverrideUntil : option time;
  ct_LoadPinValue : option Z;
  ct_LoadPinUntil : option time;
  ct_LoadPinOwner : string;
  ct_LoadPinReason : string;
  ct_RecoveryStep : Z;
  ct_RecoveryStartedAt : option time;
  ct_UpdatedAt : time;
}.

(** The zero value, [AccountControl{}]. *)
Definition no_control : AccountControl :=
  mkAccountControl 0 None false "" None None None "" None false None 0 0 false false false None
    false None "" false None None "" None None None "" "" 0 None zero_time.

Record BalanceLock := mkBalanceLock {
  bl_SourceID : Z;
  bl_AccountID : Z;
  bl_CreatedAt : time;
}.

Record CostLock := mkCostLock {
  cl_SourceID : Z;
  cl_AccountID : Z;
  cl_Pool : string;
  cl_RateMultiplier : float64;
  cl_CreatedAt : time;
}.

Record FlapPolicy := mkFlapPolicy {
  fp_Enabled : bool;
  fp_WindowMinutes : Z;
  fp_PauseThreshold : Z;
  fp_RecoveryThreshold : Z;
}.

Record AgentFreezeState := mkAgentFreezeState {
  fz_ScopeType : string;
  fz_ScopeID : string;
  fz_Mode : string;
  fz_Reason : string;
  fz_Actor : string;
  fz_ExpiresAt : option time;
  fz_CreatedAt : time;
  fz_UpdatedAt : time;
}.

(** [Details] is a JSON text; for the one the account service marshals, the values of
    its members are kept. *)
Inductive EventDetails :=
  | DetailsText (text : string)
  | DetailsMutation (mutation_id intent_id producer authority operation status : string)
      (expires_at : option time) (verified_after : option (bool * option Z)) (uncertain : bool).

Record Event := mkEvent {
  ev_ID : Z;
  ev_GoalID : Z;
  ev_StepID : Z;
  ev_Type : string;
  ev_Severity : string;
  ev_MonitorID : option Z;
  ev_AccountID : option Z;
  ev_Message : string;
  ev_BeforeState : string;
  ev_AfterState : string;
  ev_Details : EventDetails;
  ev_Actor : string;
  ev_CreatedAt : time;
}.

(** [Event{Type: kind}] *)
Definition event_of_type (kind : string) : Event :=
  mkEvent 0 0 0 kind "" None None "" "" "" (DetailsText "") "" zero_time.
