(* ===== verification/ModelHealth.v ===== *)
(** * The data of monitoring and health

    [internal/model]: the monitors Sub2API lists, the policy and settings that govern
    how an account is judged, the observations kept per monitor, the monitor's health
    and streak states, and the decisions derived from them. *)

From S2P Require Import Prelude GoStd Float Model.

Definition StatusOperational : string := "operational".
Definition StatusDegraded : string := "degraded".
Definition StatusFailed : string := "failed".
Definition StatusError : string := "error".

Definition PhaseUnknown : string := "unknown".
Definition PhaseHealthy : string := "healthy".
Definition PhaseDegraded : string := "degraded".
Definition PhaseUnhealthy : string := "unhealthy".
Definition PhaseFrozen : string := "frozen".

Definition HealthStageWatch : string := "watch".
Definition HealthStageDegraded : string := "degraded".
Definition HealthStageQuarantined : string := "quarantined".
Definition HealthStageRecovering25 : string := "recovering_25".
Definition HealthStageRecovering50 : string := "recovering_50".
Definition HealthStageRecovering80 : string := "recovering_80".
Definition HealthStageLimited25 : string := "limited_25".
Definition HealthStageLimited50 : string := "limited_50".
Definition HealthStageLimited80 : string := "limited_80".
Definition HealthStageFrozen : string := "frozen".

Definition HealthModeLegacy : string := "legacy".
Definition HealthModeObserve : string := "observe".
Definition HealthModeAdaptive : string := "adaptive".

Definition ErrorClassCredential : string := "credential".
Definition ErrorClassInfrastructure : string := "infrastructure".
Definition ErrorClassCapacity : string := "capacity".
Definition ErrorClassSemantic : string := "semantic".
Definition ErrorClassClient : string := "client".
Definition ErrorClassModelCapability : string := "model_capability".
Definition ErrorClassUnknown : string := "unknown".

Record MonitorModelStatus := mkMonitorModelStatus {
  mms_Model : string;
  mms_Status : string;
  mms_LatencyMS : Z;
}.

Record Monitor := mkMonitor {
  mon_ID : Z;
  mon_Name : string;
  mon_Provider : string;
  mon_Endpoint : string;
  mon_PrimaryModel : string;
  mon_Enabled : bool;
  mon_IntervalSeconds : Z;
  mon_LastCheckedAt : option time;
  mon_PrimaryStatus : string;
  mon_PrimaryLatencyMS : Z;
  mon_Availability7D : option float64;
  mon_ExtraModels : list MonitorModelStatus;
  mon_ExtraModelsStatus : list MonitorModelStatus;
  mon_DecryptFailed : bool;
}.

Record Policy := mkPolicy {
  pol_AccountID : Z;
  pol_ScorePolicySource : string;
  pol_ScorePolicyVersionID : option Z;
  pol_MonitorID : option Z;
  pol_Excluded : bool;
  pol_Enabled : bool;
  pol_FailureThreshold : option Z;
  pol_RecoveryThreshold : option Z;
  pol_FlapEnabled : option bool;
  pol_FlapWindowMinutes : option Z;
  pol_FlapPauseThreshold : option Z;
  pol_FlapRecoveryThreshold : option Z;
  pol_HealthHealthyScore : option Z;
  pol_HealthWatchScore : option Z;
  pol_HealthQuarantineScore : option Z;
  pol_HealthMinSamples : option Z;
  pol_HealthLatencyWarningMS : option Z;
  pol_HealthLatencyCriticalMS : option Z;
  pol_HealthTrafficPauseBelow : option Z;
  pol_HealthTrafficHealthyAt : option Z;
  pol_HealthHardFailures10 : option Z;
  pol_HealthPersistentSlowRate : option Z;
}.

Record Settings := mkSettings {
  st_DryRun : bool;
  st_SchedulerMode : string;
  st_FailoverMode : string;
  st_FailoverMutationBudget : Z;
  st_FailureThreshold : Z;
  st_RecoveryThreshold : Z;
  st_ManualHoldMinutes : Z;
  st_FlapWindowMinutes : Z;
  st_FlapPauseThreshold : Z;
  st_FlapRecoveryThreshold : Z;
  st_HealthMode : string;
  st_HealthHealthyScore : Z;
  st_HealthWatchScore : Z;
  st_HealthQuarantineScore : Z;
  st_HealthMinSamples : Z;
  st_HealthLatencyWarningMS : Z;
  st_HealthLatencyCriticalMS : Z;
  st_HealthTrafficPauseBelow : Z;
  st_HealthTrafficHealthyAt : Z;
  st_HealthHardFailures10 : Z;
  st_HealthPersistentSlowRate : Z;
  st_HealthQuarantineMinutes : Z;
  st_HealthRecoveryWindow : Z;
  st_HealthRecoverySuccesses : Z;
  st_HealthTrialPercent : Z;
  st_HealthMidPercent : Z;
  st_HealthDegradedPercent : Z;
  st_HealthTrialMinutes : Z;
  st_HealthLoadOverrideMinutes : Z;
  st_FailoverAccountFreshMinutes : Z;
  st_FailoverTelemetryFreshMinutes : Z;
  st_FailoverGroupFreshMinutes : Z;
  st_FailoverAgentGraceSeconds : Z;
  st_FailoverMonitorFailures : Z;
  st_FailoverNoTrafficFailures : Z;
  st_FailoverTrafficWindowMinutes : Z;
  st_FailoverTrafficMinSamples : Z;
  st_FailoverTrafficSuccessBelow : Z;
  st_FailoverConsecutiveHardErrors : Z;
  st_FailoverBackupVerifyMinutes : Z;
  st_FailoverPostSwitchMonitors : Z;
  st_FailoverPostSwitchRequests : Z;
  st_FailoverMainVerifyMinutes : Z;
  st_FailoverSwitchCooldownMinutes : Z;
  st_FailoverManualProtectionMinutes : Z;
  st_FailoverShortLimitWindowMinutes : Z;
  st_FailoverShortLimitCount : Z;
  st_FailoverLongLimitWindowMinutes : Z;
  st_FailoverLongLimitCount : Z;
  st_FailoverRecoveryWindowMinutes : Z;
  st_FailoverRecoveryStableMinutes : Z;
  st_FailoverRecoveryMonitorSuccesses : Z;
  st_FailoverRecoveryMinSamples : Z;
  st_FailoverRecoverySuccessAt : Z;
  st_FailoverReturnRetryMinutes : Z;
}.

Record MonitorObservation := mkMonitorObservation {
  obs_MonitorID : Z;
  obs_CheckedAt : time;
  obs_Status : string;
  obs_LatencyMS : Z;
  obs_Availability7D : float64;
  obs_ExtraOK : Z;
  obs_ExtraDegraded : Z;
  obs_ExtraFailed : Z;
  obs_DecryptFailed : bool;
  obs_Score : float64;
  obs_Confidence : float64;
  obs_ReasonJSON : string;
  obs_CreatedAt : time;
}.

Record MonitorHistoryRecord := mkMonitorHistoryRecord {
  mh_SourceID : Z;
  mh_MonitorID : Z;
  mh_Model : string;
  mh_Status : string;
  mh_LatencyMS : Z;
  mh_PingLatencyMS : Z;
  mh_StatusCode : Z;
  mh_ErrorClass : string;
  mh_ReasonCode : string;
  mh_ReasonFingerprint : string;
  mh_CheckedAt : time;
  mh_IngestedAt : time;
}.

Record MonitorHealthState := mkMonitorHealthState {
  hs_MonitorID : Z;
  hs_Stage : string;
  hs_Score : float64;
  hs_Confidence : float64;
  hs_CurrentLatencyMS : Z;
  hs_BaselineLatencyMS : float64;
  hs_Availability15M : float64;
  hs_Availability1H : float64;
  hs_Availability24H : float64;
  hs_SampleCount : Z;
  hs_RecoveryHealthyCount : Z;
  hs_LastTwoHealthy : bool;
  hs_RecoveryEligible : bool;
  hs_NextRecoveryCondition : string;
  hs_HoldUntil : option time;
  hs_LastTransitionAt : time;
  hs_ReasonJSON : string;
  hs_UpdatedAt : time;
}.

Record MonitorState := mkMonitorState {
  ms_MonitorID : Z;
  ms_LastCheckedAt : option time;
  ms_LastStatus : string;
  ms_HealthyStreak : Z;
  ms_UnhealthyStreak : Z;
  ms_Phase : string;
  ms_UpdatedAt : time;
}.

Record TrafficWindow := mkTrafficWindow {
  tw_AccountID : Z;
  tw_Since : time;
  tw_Until : time;
  tw_SuccessCount : Z;
  tw_ErrorCount : Z;
  tw_CredentialErrors : Z;
  tw_InfrastructureErrors : Z;
  tw_CapacityErrors : Z;
  tw_SemanticErrors : Z;
  tw_ClientErrors : Z;
  tw_CapabilityErrors : Z;
  tw_UnknownErrors : Z;
  tw_EligibleCount : Z;
  tw_SuccessRate : float64;
  tw_P90DurationMS : Z;
}.

Record AccountModelCapability := mkAccountModelCapability {
  cap_AccountID : Z;
  cap_Model : string;
  cap_Supported : bool;
  cap_SuccessCount : Z;
  cap_FailureCount : Z;
  cap_LastErrorClass : string;
  cap_LastReasonCode : string;
  cap_LastObservedAt : time;
  cap_UpdatedAt : time;
}.

Record DecisionEvidence := mkDecisionEvidence {
  de_HardFailureStreak : Z;
  de_HardFailures10 : Z;
  de_HardSuccessRate10 : float64;
  de_HardSuccessRate60 : float64;
  de_DegradedCount10 : Z;
  de_DegradedCount60 : Z;
  de_DegradedStreak : Z;
  de_LatencyP90MS : Z;
  de_BaselineLatencyMS : Z;
  de_TrafficSuccessCount10M : Z;
  de_TrafficFailureCount10M : Z;
  de_TrafficSuccessRate10M : float64;
  de_TrafficSuccessRate60M : float64;
  de_QualityScore : float64;
  de_Confidence : float64;
}.

Record HealthDecision := mkHealthDecision {
  hd_QualityScore : float64;
  hd_HardSuccessRate10 : float64;
  hd_HardSuccessRate60 : float64;
  hd_DegradedRate10 : float64;
  hd_DegradedRate60 : float64;
  hd_TrafficSuccessRate : float64;
  hd_TrafficSampleCount : Z;
  hd_HardFailureStreak : Z;
  hd_HardFailures10 : Z;
  hd_RecoverySuccessStreak : Z;
  hd_SuggestedLoadPercent : Z;
  hd_Action : string;
  hd_Disagreement : bool;
  hd_ResponseP90MS : Z;
  hd_BaselineLatencyMS : float64;
  hd_ReasonCodes : list string;
  hd_ErrorCategoryCounts : gmap string Z;
  hd_ModelCapabilities : list AccountModelCapability;
  hd_CheckedAt : time;
}.

(** The zero values. *)
Definition no_observation : MonitorObservation :=
  mkMonitorObservation 0 zero_time "" 0 (S754_zero false) 0 0 0 false (S754_zero false)
    (S754_zero false) "" zero_time.
Definition no_health_state : MonitorHealthState :=
  mkMonitorHealthState 0 "" (S754_zero false) (S754_zero false) 0 (S754_zero false)
    (S754_zero false) (S754_zero false) (S754_zero false) 0 0 false false "" None zero_time ""
    zero_time.
