(* ===== verification/HealthV3.v ===== *)
(** * The third generation of health decisions

    [internal/health/v3.go]: how the checks of a monitor are classified, and how an
    evaluation turns them, the account's real traffic and its long-term record into a
    recommended load or a pause. The evaluation is the composition of the stages of
    [EvaluateV3]: availability, quality, the caps on the load, the pause, and the
    summary. *)

From S2P Require Import Prelude GoStd Float.

(** ** Signals and recommendations *)

Abbreviation SignalClass := string (only parsing).
Definition SignalOperational : SignalClass := "operational".
Definition SignalPerformanceSlow : SignalClass := "performance_slow".
Definition SignalCredentialFailure : SignalClass := "credential_failure".
Definition SignalInfrastructureFailure : SignalClass := "infrastructure_failure".
Definition SignalCapacityLimited : SignalClass := "capacity_limited".
Definition SignalSemanticMismatch : SignalClass := "semantic_mismatch".
Definition SignalClientError : SignalClass := "client_error".
Definition SignalModelUnsupported : SignalClass := "model_unsupported".
Definition SignalUnknown : SignalClass := "unknown".

Definition RecommendationFull : string := "full".
Definition RecommendationReduce80 : string := "reduce_80".
Definition RecommendationReduce50 : string := "reduce_50".
Definition RecommendationReduce25 : string := "reduce_25".
Definition RecommendationPause : string := "pause".

Record Check := mkCheck {
  ck_CheckedAt : time;
  ck_Status : string;
  ck_HTTPStatus : Z;
  ck_Message : string;
  ck_LatencyMS : Z;
  ck_DecryptFailed : bool;
  ck_SlowThresholdMS : Z;
}.

Record ClassifiedCheck := mkClassifiedCheck {
  cc_Check : Check;
  cc_Class : SignalClass;
  cc_ReasonCode : string;
  cc_Explanation : string;
  cc_HardFailure : bool;
  cc_CountedInAvailability : bool;
  cc_AvailabilitySuccess : bool;
}.

Record RealTraffic := mkRealTraffic {
  rt_SampleCount : Z;
  rt_Successes : Z;
}.

Record V3Input := mkV3Input {
  vi_Checks : list Check;
  vi_BaselineLatencyMS : float64;
  vi_LongTermSuccessRate : option float64;
  vi_RealTraffic : RealTraffic;
  vi_RealTrafficMinSamples : Z;
  vi_HardFailureStreak : Z;
  vi_HardFailuresInWindow : Z;
  vi_TrafficPauseBelow : float64;
  vi_TrafficHealthyAt : float64;
  vi_LatencyWarningMS : Z;
  vi_LatencyCriticalMS : Z;
  vi_QualityFullAt : float64;
  vi_QualityReduce80At : float64;
  vi_QualityReduce50At : float64;
  vi_PersistentSlowRate : float64;
}.

Record HardAvailability := mkHardAvailability {
  ha_Considered : Z;
  ha_Successes : Z;
  ha_Failures : Z;
  ha_SuccessRate : float64;
  ha_InfrastructureFailures : Z;
  ha_CapacityFailures : Z;
  ha_CredentialFailures : Z;
  ha_SemanticMismatches : Z;
  ha_ClientErrorsExcluded : Z;
  ha_UnsupportedModelsExcluded : Z;
  ha_ConsecutiveInfrastructure : Z;
  ha_InfrastructureFailuresLast10 : Z;
  ha_CapacityFailuresLast10 : Z;
}.

Record DecisionReason := mkDecisionReason {
  dr_Code : string;
  dr_Explanation : string;
}.

Record V3Result := mkV3Result {
  vr_Checks : list ClassifiedCheck;
  vr_Availability : HardAvailability;
  vr_QualityScore : float64;
  vr_P90LatencyMS : Z;
  vr_LatencyPenalty : float64;
  vr_RecommendedLoad : Z;
  vr_Recommendation : string;
  vr_Pause : bool;
  vr_MonitorPauseSuppressed : bool;
  vr_RealTrafficSuccessRate : float64;
  vr_Reasons : list DecisionReason;
  vr_HardSuccessRate10 : float64;
  vr_HardSuccessRate60 : float64;
  vr_DegradedRate10 : float64;
  vr_DegradedRate60 : float64;
  vr_TrafficSuccessRate : float64;
  vr_TrafficSampleCount : Z;
  vr_HardFailureStreak : Z;
  vr_HardFailures10 : Z;
  vr_SuggestedLoadPercent : Z;
  vr_Action : string;
  vr_Disagreement : bool;
  vr_ResponseP90MS : Z;
  vr_BaselineLatencyMS : float64;
  vr_ReasonCodes : list string;
  vr_ErrorCategoryCounts : gmap SignalClass Z;
  vr_CheckedAt : time;
}.

Record normalizedV3Policy := mknormalizedV3Policy {
  np_minimumTrafficSamples : Z;
  np_hardFailureStreak : Z;
  np_hardFailuresInWindow : Z;
  np_trafficPauseBelow : float64;
  np_trafficHealthyAt : float64;
  np_latencyWarningMS : Z;
  np_latencyCriticalMS : Z;
  np_qualityFullAt : float64;
  np_qualityReduce80At : float64;
  np_qualityReduce50At : float64;
  np_persistentSlowRate : float64;
}.

(** The zero values of the structures that are filled in. *)
Definition no_availability : HardAvailability :=
  mkHardAvailability 0 0 0 (S754_zero false) 0 0 0 0 0 0 0 0 0.
Definition no_result : V3Result :=
  mkV3Result [] no_availability (S754_zero false) 0 (S754_zero false) 0 "" false false
    (S754_zero false) [] (S754_zero false) (S754_zero false) (S754_zero false)
    (S754_zero false) (S754_zero false) 0 0 0 0 "" false 0 (S754_zero false) [] ∅ zero_time.

(** ** Real traffic *)

Definition SuccessRate (r : RealTraffic) : float64 :=
  if (rt_SampleCount r <=? 0)%Z then of_int 0 else
  let successes := rt_Successes r in
  let successes := if (successes <? 0)%Z then 0%Z else successes in
  let successes := if (rt_SampleCount r <? successes)%Z then rt_SampleCount r else successes in
  percentage successes (rt_SampleCount r).

(** ** Classification *)

Definition messageHasHTTPStatus (message : string) (statuses : list Z) : bool :=
  existsb (λ status,
    let code := format_int status in
    contains message ("http " +:+ code) || contains message ("status " +:+ code)
    || contains message ("status code " +:+ code)) statuses.

Section classify.
Context `{UnicodeTables}.

Definition credential_words : list string :=
  ["unauthorized"; "forbidden"; "authentication failed"; "invalid api key"; "invalid token";
   "api key invalid"; "credential invalid"; "认证失败"; "鉴权失败"; "密钥无效"; "令牌无效"].
Definition model_words : list string :=
  ["model not found"; "model_not_found"; "unknown model"; "unsupported model";
   "model is not supported"; "no available channel"; "no channel available"; "没有可用渠道";
   "无可用渠道"; "模型不存在"; "不支持该模型"].
Definition semantic_words : list string :=
  ["challenge mismatch"; "answer mismatch"; "response mismatch"; "unexpected answer";
   "content mismatch"; "测试答案不匹配"; "答案不匹配"; "响应内容不匹配"; "内容校验失败"].
Definition client_words : list string :=
  ["context window"; "context length"; "maximum context"; "too many tokens";
   "invalid parameter"; "invalid_argument"; "invalid request parameter"; "参数错误"; "参数无效";
   "上下文过长"; "超出上下文"].
Definition capacity_words : list string :=
  ["rate limit"; "rate_limit"; "too many requests"; "overloaded"; "over capacity";
   "capacity exceeded"; "限流"; "请求过多"; "容量不足"; "上游过载"].
Definition infrastructure_words : list string :=
  ["timeout"; "timed out"; "deadline exceeded"; "connection refused"; "connection reset";
   "connection failed"; "dial tcp"; "eof"; "网关错误"; "连接失败"; "连接被重置"; "超时"].

Definition ClassifyCheck (check : Check) : ClassifiedCheck :=
  let status := to_lower (trim_space (ck_Status check)) in
  let message := to_lower (trim_space (ck_Message check)) in
  let contains := existsb (contains message) in
  let finish class code explanation hard counted success :=
    mkClassifiedCheck check class code explanation hard counted success in
  let http := ck_HTTPStatus check in
  if ck_DecryptFailed check then
    finish SignalCredentialFailure "credential_decrypt_failed" "监控密钥无法解密" true true false
  else if (http =? 401)%Z || (http =? 403)%Z || contains credential_words then
    finish SignalCredentialFailure "credential_rejected" "上游拒绝凭据" true true false
  else if contains model_words then
    finish SignalModelUnsupported "model_unsupported" "该模型不存在或没有可用渠道" false false false
  else if contains semantic_words then
    finish SignalSemanticMismatch "semantic_mismatch" "请求已完成但测试内容校验不一致" false true true
  else if contains client_words then
    finish SignalClientError "client_request_error" "请求参数或上下文不符合上游要求" false false false
  else if (http =? 429)%Z || contains capacity_words then
    finish SignalCapacityLimited "capacity_limited" "上游限流或容量暂时不足" false true false
  else if (http =? 502)%Z || (http =? 503)%Z || (http =? 520)%Z || (http =? 522)%Z
          || contains infrastructure_words || messageHasHTTPStatus message [502; 503; 520; 522]%Z then
    finish SignalInfrastructureFailure "infrastructure_failure" "上游网络、网关或服务连接失败"
      true true false
  else if (500 <=? http)%Z then
    finish SignalInfrastructureFailure "upstream_server_error" "上游返回服务器错误" true true false
  else if (400 <=? http)%Z || bool_decide (status = "client_error") then
    finish SignalClientError "client_request_error" "请求被上游作为客户端错误拒绝" false false false
  else
    let slowThreshold := if (ck_SlowThresholdMS check <=? 0)%Z then 6000%Z
                         else ck_SlowThresholdMS check in
    if bool_decide (status = "degraded") || bool_decide (status = "performance_degraded")
       || bool_decide (status = "slow") || (slowThreshold <=? ck_LatencyMS check)%Z then
      finish SignalPerformanceSlow "performance_slow" "请求成功但响应速度偏慢" false true true
    else if bool_decide (status = "operational") || bool_decide (status = "healthy")
            || bool_decide (status = "success") || bool_decide (status = "ok") then
      finish SignalOperational "operational" "请求正常完成" false true true
    else if bool_decide (status = "failed") || bool_decide (status = "error")
            || bool_decide (status = "unhealthy") then
      finish SignalInfrastructureFailure "monitor_hard_failure" "监控报告未分类的上游失败"
        true true false
    else finish SignalUnknown "unknown_signal" "无法识别监控结果" false false false.
End classify.

(** ** Counting over checks *)

Definition is_class (class : SignalClass) (c : ClassifiedCheck) : bool :=
  bool_decide (cc_Class c = class).

Definition countClass (checks : list ClassifiedCheck) (class : SignalClass) : Z :=
  foldl (λ count c, if is_class class c then (count + 1)%Z else count) 0%Z checks.

Definition containsClass (checks : list ClassifiedCheck) (class : SignalClass) : bool :=
  (0 <? countClass checks class)%Z.

(** The loop runs over the indices from the last, until the class changes. *)
Fixpoint leading_class_count (checks : list ClassifiedCheck) (class : SignalClass) : Z :=
  match checks with
  | [] => 0
  | c :: checks => if is_class class c then (1 + leading_class_count checks class)%Z else 0%Z
  end.
Definition trailingClassCount (checks : list ClassifiedCheck) (class : SignalClass) : Z :=
  leading_class_count (reverse checks) class.

(** [l[len(l)-n:]] where the slice is longer than [n]. *)
Definition last_of {A} (n : nat) (l : list A) : list A :=
  if (n <? length l)%nat then drop (length l - n) l else l.

Definition classifiedWindow (checks : list ClassifiedCheck) (size : Z) : list ClassifiedCheck :=
  if (size <=? 0)%Z || (Z.of_nat (length checks) <=? size)%Z then checks
  else last_of (Z.to_nat size) checks.

Definition classRate (checks : list ClassifiedCheck) (class : SignalClass) : float64 :=
  let '(considered, matches) := foldl (λ '(considered, matches) check,
    if cc_CountedInAvailability check
    then ((considered + 1)%Z, if is_class class check then (matches + 1)%Z else matches)
    else (considered, matches)) (0%Z, 0%Z) checks in
  if (considered =? 0)%Z then of_int 0 else percentage matches considered.

Definition hardSuccessRate (checks : list ClassifiedCheck) : float64 :=
  let '(considered, successes) := foldl (λ '(considered, successes) check,
    if cc_CountedInAvailability check
    then ((considered + 1)%Z, if cc_AvailabilitySuccess check then (successes + 1)%Z else successes)
    else (considered, successes)) (0%Z, 0%Z) checks in
  if (considered =? 0)%Z then of_int 0 else percentage successes considered.

(** ** The checks of an evaluation *)

(** Of the checks with one timestamp the last stands, where the first stood. *)
Definition deduplicate_step (seen : list Check * gmap Z nat) (check : Check)
    : list Check * gmap Z nat :=
  let '(result, positions) := seen in
  if is_zero_time (ck_CheckedAt check) then (result ++ [check], positions) else
  let key := unix_nano (ck_CheckedAt check) in
  match positions !! key with
  | Some position => (<[position := check]> result, positions)
  | None => (result ++ [check], <[key := length result]> positions)
  end.
Definition deduplicateChecks (checks : list Check) : list Check :=
  (foldl deduplicate_step ([], ∅) checks).1.

(** [0.9] *)
Definition ninety_percent : float64 := dyadic 8106479329266893 (-53).

Definition percentile90 (values : list Z) : Z :=
  match values with
  | [] => 0
  | _ =>
      let ordered := sort_slice Z.ltb values in
      let index := (ceil_int (of_int (Z.of_nat (length ordered)) * ninety_percent)%float - 1)%Z in
      let index := if (index <? 0)%Z then 0%Z else index in
      default 0%Z (ordered !! Z.to_nat index)
  end.

(** ** The policy of an evaluation *)

Definition normalizeV3Policy (input : V3Input) : normalizedV3Policy :=
  let policy := mknormalizedV3Policy 20 3 5 (of_int 80) (of_int 95) 5000 15000
                  (of_int 85) (of_int 70) (of_int 55) (of_int 10) in
  let policy := if (0 <? vi_RealTrafficMinSamples input)%Z
                then policy <| np_minimumTrafficSamples := vi_RealTrafficMinSamples input |>
                else policy in
  let policy := if (0 <? vi_HardFailureStreak input)%Z
                then policy <| np_hardFailureStreak := vi_HardFailureStreak input |> else policy in
  let policy := if (0 <? vi_HardFailuresInWindow input)%Z
                then policy <| np_hardFailuresInWindow := vi_HardFailuresInWindow input |>
                else policy in
  let policy := if (vi_TrafficPauseBelow input >? of_int 0)%float
                   && (vi_TrafficPauseBelow input <? of_int 100)%float
                then policy <| np_trafficPauseBelow := vi_TrafficPauseBelow input |> else policy in
  let policy := if (vi_TrafficHealthyAt input >? np_trafficPauseBelow policy)%float
                   && (vi_TrafficHealthyAt input <=? of_int 100)%float
                then policy <| np_trafficHealthyAt := vi_TrafficHealthyAt input |> else policy in
  let policy := if (0 <? vi_LatencyWarningMS input)%Z
                then policy <| np_latencyWarningMS := vi_LatencyWarningMS input |> else policy in
  let policy := if (np_latencyWarningMS policy <? vi_LatencyCriticalMS input)%Z
                then policy <| np_latencyCriticalMS := vi_LatencyCriticalMS input |> else policy in
  let policy := if (vi_QualityFullAt input >? of_int 0)%float
                   && (vi_QualityFullAt input <=? of_int 100)%float
                then policy <| np_qualityFullAt := vi_QualityFullAt input |> else policy in
  let policy := if (vi_QualityReduce80At input >? of_int 0)%float
                   && (vi_QualityReduce80At input <? np_qualityFullAt policy)%float
                then policy <| np_qualityReduce80At := vi_QualityReduce80At input |> else policy in
  let policy := if (vi_QualityReduce50At input >? of_int 0)%float
                   && (vi_QualityReduce50At input <? np_qualityReduce80At policy)%float
                then policy <| np_qualityReduce50At := vi_QualityReduce50At input |> else policy in
  if (vi_PersistentSlowRate input >? of_int 0)%float
     && (vi_PersistentSlowRate input <=? of_int 100)%float
  then policy <| np_persistentSlowRate := vi_PersistentSlowRate input |> else policy.

Definition absoluteLatencyPenalty (latency warning critical : Z) : float64 * string :=
  let warning := if (warning <=? 0)%Z then 5000%Z else warning in
  let critical := if (critical <=? warning)%Z then 15000%Z else critical in
  if (latency <=? 0)%Z || (latency <? warning)%Z then (of_int 0, "") else
  if (latency <? critical)%Z then (of_int 4, "九成响应时间超过延迟警戒线") else
  if (latency <? wrap64 (critical * 2))%Z then (of_int 8, "九成响应时间超过延迟严重线") else
  if (latency <? wrap64 (critical * 4))%Z then (of_int 16, "九成响应时间长期高于严重线")
  else (of_int 30, "九成响应时间远高于严重线").

Definition relativeLatencyPenalty (latency : Z) (baseline : float64) : float64 * string :=
  if (latency <=? 0)%Z || (baseline <=? of_int 0)%float then (of_int 0, "") else
  let ratio := (of_int latency / baseline)%float in
  if (ratio <=? dyadic 3 (-1))%float then (of_int 0, "") else
  if (ratio <=? of_int 2)%float then (of_int 4, "九成响应时间超过自身基线一点五倍") else
  if (ratio <=? of_int 3)%float then (of_int 8, "九成响应时间超过自身基线两倍") else
  if (ratio <=? of_int 5)%float then (of_int 14, "九成响应时间超过自身基线三倍") else
  if (ratio <=? of_int 8)%float then (of_int 22, "九成响应时间超过自身基线五倍")
  else (of_int 30, "九成响应时间超过自身基线八倍").

Definition longTermPenalty (rate : float64) : float64 :=
  if (rate >=? of_int 99)%float then of_int 0 else
  if (rate >=? of_int 97)%float then of_int 1 else
  if (rate >=? of_int 95)%float then of_int 2 else
  if (rate >=? of_int 90)%float then of_int 5 else
  if (rate >=? of_int 80)%float then of_int 8
  else of_int 10.

(** ** The result under construction *)

Definition add_reason (code explanation : string) (result : V3Result) : V3Result :=
  result <| vr_Reasons := vr_Reasons result ++ [mkDecisionReason code explanation] |>.

Definition setLoadFromQuality (result : V3Result) (fullAt reduce80At reduce50At : float64)
    : V3Result :=
  let '(load, recommendation) :=
    if (vr_QualityScore result >=? fullAt)%float then (100%Z, RecommendationFull) else
    if (vr_QualityScore result >=? reduce80At)%float then (80%Z, RecommendationReduce80) else
    if (vr_QualityScore result >=? reduce50At)%float then (50%Z, RecommendationReduce50)
    else (25%Z, RecommendationReduce25) in
  result <| vr_RecommendedLoad := load |> <| vr_Recommendation := recommendation |>.

Definition capLoad (result : V3Result) (maximum : Z) (code explanation : string) : V3Result :=
  if vr_Pause result then result else
  let result :=
    if (maximum <? vr_RecommendedLoad result)%Z then
      result <| vr_RecommendedLoad := maximum |>
             <| vr_Recommendation := if (maximum =? 80)%Z then RecommendationReduce80 else
                                     if (maximum =? 50)%Z then RecommendationReduce50
                                     else RecommendationReduce25 |>
    else result in
  add_reason code explanation result.

Definition pause (result : V3Result) (code explanation : string) : V3Result :=
  add_reason code explanation
    (result <| vr_Pause := true |> <| vr_RecommendedLoad := 0%Z |>
            <| vr_Recommendation := RecommendationPause |>).

(** [if cond { ... }] on the result. *)
Definition when (cond : bool) (f : V3Result → V3Result) (result : V3Result) : V3Result :=
  if cond then f result else result.

(** ** The stages of [EvaluateV3] *)

Definition count_check (a : HardAvailability) (item : ClassifiedCheck) : HardAvailability :=
  let a := if cc_CountedInAvailability item then
             let a := a <| ha_Considered := (ha_Considered a + 1)%Z |> in
             if cc_AvailabilitySuccess item then a <| ha_Successes := (ha_Successes a + 1)%Z |>
             else a <| ha_Failures := (ha_Failures a + 1)%Z |>
           else a in
  let class := cc_Class item in
  if bool_decide (class = SignalInfrastructureFailure)
  then a <| ha_InfrastructureFailures := (ha_InfrastructureFailures a + 1)%Z |> else
  if bool_decide (class = SignalCapacityLimited)
  then a <| ha_CapacityFailures := (ha_CapacityFailures a + 1)%Z |> else
  if bool_decide (class = SignalCredentialFailure)
  then a <| ha_CredentialFailures := (ha_CredentialFailures a + 1)%Z |> else
  if bool_decide (class = SignalSemanticMismatch)
  then a <| ha_SemanticMismatches := (ha_SemanticMismatches a + 1)%Z |> else
  if bool_decide (class = SignalClientError)
  then a <| ha_ClientErrorsExcluded := (ha_ClientErrorsExcluded a + 1)%Z |> else
  if bool_decide (class = SignalModelUnsupported)
  then a <| ha_UnsupportedModelsExcluded := (ha_UnsupportedModelsExcluded a + 1)%Z |>
  else a.

Definition count_recent (a : HardAvailability) (item : ClassifiedCheck) : HardAvailability :=
  if is_class SignalInfrastructureFailure item
  then a <| ha_InfrastructureFailuresLast10 := (ha_InfrastructureFailuresLast10 a + 1)%Z |> else
  if is_class SignalCapacityLimited item
  then a <| ha_CapacityFailuresLast10 := (ha_CapacityFailuresLast10 a + 1)%Z |>
  else a.

Definition measure_availability (classified : list ClassifiedCheck) : HardAvailability :=
  let a := foldl count_check no_availability classified in
  let a := if (0 <? ha_Considered a)%Z
           then a <| ha_SuccessRate := percentage (ha_Successes a) (ha_Considered a) |> else a in
  let a := a <| ha_ConsecutiveInfrastructure :=
                trailingClassCount classified SignalInfrastructureFailure |> in
  foldl count_recent a (last_of 10 classified).

Definition latencies_of (classified : list ClassifiedCheck) : list Z :=
  ck_LatencyMS ∘ cc_Check <$>
    filter (λ item, cc_AvailabilitySuccess item && (0 <? ck_LatencyMS (cc_Check item))%Z = true)
      classified.

(** The penalty of the measured latency, counted once. *)
Definition latency_quality (policy : normalizedV3Policy) (input : V3Input) (result : V3Result)
    : V3Result :=
  let '(absolutePenalty, absoluteReason) :=
    absoluteLatencyPenalty (vr_P90LatencyMS result) (np_latencyWarningMS policy)
      (np_latencyCriticalMS policy) in
  let '(relativePenalty, relativeReason) :=
    relativeLatencyPenalty (vr_P90LatencyMS result) (vi_BaselineLatencyMS input) in
  let result := result <| vr_LatencyPenalty := fmax absolutePenalty relativePenalty |> in
  let result := result <| vr_QualityScore := (of_int 100 - vr_LatencyPenalty result)%float |> in
  when (vr_LatencyPenalty result >? of_int 0)%float
    (add_reason "latency_quality_penalty"
       (if (relativePenalty >? absolutePenalty)%float then relativeReason else absoluteReason))
    result.

(** A slow result that no latency covers. *)
Definition unmeasured_quality (result : V3Result) : V3Result :=
  when ((vr_P90LatencyMS result =? 0)%Z
        && containsClass (vr_Checks result) SignalPerformanceSlow)
    (λ result, add_reason "slow_without_latency" "监控报告性能下降，但没有可用响应时间"
       (result <| vr_QualityScore := (vr_QualityScore result - of_int 4)%float |>))
    result.

Definition long_term_quality (input : V3Input) (result : V3Result) : V3Result :=
  match vi_LongTermSuccessRate input with
  | Some rate =>
      let penalty := longTermPenalty rate in
      when (penalty >? of_int 0)%float
        (add_reason "long_term_quality" "长期成功率仍需观察")
        (result <| vr_QualityScore := (vr_QualityScore result - penalty)%float |>)
  | None => result
  end.

Definition judge_quality (policy : normalizedV3Policy) (input : V3Input) (result : V3Result)
    : V3Result :=
  let result := latency_quality policy input result in
  let result := unmeasured_quality result in
  let result := long_term_quality input result in
  let result := result <| vr_QualityScore :=
                  fmax (of_int 0) (fmin (of_int 100) (vr_QualityScore result)) |> in
  setLoadFromQuality result (np_qualityFullAt policy) (np_qualityReduce80At policy)
    (np_qualityReduce50At policy).

Definition cap_recent (policy : normalizedV3Policy) (result : V3Result) : V3Result :=
  let classified := vr_Checks result in
  let last10 := last_of 10 classified in
  let infrastructure := ha_InfrastructureFailuresLast10 (vr_Availability result) in
  let capacity := ha_CapacityFailuresLast10 (vr_Availability result) in
  let result := when (1 <=? infrastructure)%Z (λ r,
    capLoad r 50 "recent_hard_failure" "最近十次检测中存在一次基础设施故障") result in
  let result := when (2 <=? infrastructure)%Z (λ r,
    capLoad r 25 "repeated_hard_failure" "最近十次检测中存在多次基础设施故障") result in
  let result := when (1 <=? capacity)%Z (λ r,
    capLoad r 50 "capacity_pressure" "最近检测出现上游容量不足") result in
  let result := when (2 <=? capacity)%Z (λ r,
    capLoad r 25 "repeated_capacity_pressure" "最近十次检测多次出现容量不足") result in
  when ((classRate last10 SignalPerformanceSlow >=? np_persistentSlowRate policy)%float
        || (classRate (classifiedWindow classified 60) SignalPerformanceSlow
            >=? np_persistentSlowRate policy)%float)
    (λ r, capLoad r 80 "persistent_performance_slow" "近期性能下降结果较多，先降低流量观察") result.

Definition minimum_traffic (policy : normalizedV3Policy) (input : V3Input) : Z :=
  if (vi_RealTrafficMinSamples input <? np_minimumTrafficSamples policy)%Z
  then np_minimumTrafficSamples policy else vi_RealTrafficMinSamples input.

Definition has_enough_traffic (policy : normalizedV3Policy) (input : V3Input) : bool :=
  (minimum_traffic policy input <=? rt_SampleCount (vi_RealTraffic input))%Z.

Definition judge_pause (policy : normalizedV3Policy) (input : V3Input) (result : V3Result)
    : V3Result :=
  let realRate := SuccessRate (vi_RealTraffic input) in
  let result := result <| vr_RealTrafficSuccessRate := realRate |> in
  let hasEnoughTraffic := has_enough_traffic policy input in
  let latestCredentialFailure :=
    match last (vr_Checks result) with
    | Some c => is_class SignalCredentialFailure c
    | None => false
    end in
  let streak := ha_ConsecutiveInfrastructure (vr_Availability result) in
  let monitorWantsPause :=
    (np_hardFailureStreak policy <=? streak)%Z
    || (np_hardFailuresInWindow policy
        <=? ha_InfrastructureFailuresLast10 (vr_Availability result))%Z in
  if latestCredentialFailure then
    pause result "credential_failure_pause" "最新检测确认凭据失效，立即暂停账号"
  else if hasEnoughTraffic && (realRate <? np_trafficPauseBelow policy)%float then
    pause result "real_traffic_unhealthy" "真实业务请求成功率低于百分之八十"
  else if monitorWantsPause then
    if hasEnoughTraffic && (realRate >=? np_trafficHealthyAt policy)%float then
      capLoad (result <| vr_MonitorPauseSuppressed := true |>) 25
        "real_traffic_healthy_override" "监控达到暂停门槛，但真实业务成功率不低于百分之九十五"
    else if (np_hardFailureStreak policy <=? streak)%Z then
      pause result "consecutive_hard_failures" "连续三次基础设施故障"
    else pause result "hard_failures_in_window" "最近十次检测中至少五次基础设施故障"
  else result.

Definition judge_semantic (policy : normalizedV3Policy) (input : V3Input) (result : V3Result)
    : V3Result :=
  let semanticInLast10 := countClass (last_of 10 (vr_Checks result)) SignalSemanticMismatch in
  when (negb (vr_Pause result) && (0 <? semanticInLast10)%Z)
    (λ result,
      if has_enough_traffic policy input
         && (SuccessRate (vi_RealTraffic input) >=? np_trafficHealthyAt policy)%float
      then add_reason "semantic_mismatch_overridden" "内容校验异常，但真实业务流量健康" result
      else capLoad result 80 "semantic_mismatch_observe" "内容校验异常仅进入观察，不作为暂停依据")
    result.

Definition maxIntV3 (left right : Z) : Z := if (right <? left)%Z then left else right.

Definition summarize_check (state : gmap SignalClass Z * time) (check : ClassifiedCheck)
    : gmap SignalClass Z * time :=
  let '(counts, latest) := state in
  let at_ := ck_CheckedAt (cc_Check check) in
  (<[cc_Class check := (default 0 (counts !! cc_Class check) + 1)%Z]> counts,
   if negb (is_zero_time at_) && after at_ latest then at_ else latest).

Definition finalizeV3Result (result : V3Result) (classified : list ClassifiedCheck)
    (input : V3Input) : V3Result :=
  let last10 := last_of 10 classified in
  let last60 := last_of 60 classified in
  let result := result <| vr_HardSuccessRate10 := hardSuccessRate last10 |>
                       <| vr_HardSuccessRate60 := hardSuccessRate last60 |>
                       <| vr_DegradedRate10 := classRate last10 SignalPerformanceSlow |>
                       <| vr_DegradedRate60 := classRate last60 SignalPerformanceSlow |>
                       <| vr_TrafficSuccessRate := vr_RealTrafficSuccessRate result |>
                       <| vr_TrafficSampleCount := rt_SampleCount (vi_RealTraffic input) |>
                       <| vr_HardFailureStreak :=
                            ha_ConsecutiveInfrastructure (vr_Availability result) |>
                       <| vr_HardFailures10 :=
                            ha_InfrastructureFailuresLast10 (vr_Availability result) |>
                       <| vr_SuggestedLoadPercent := vr_RecommendedLoad result |>
                       <| vr_Action := vr_Recommendation result |> in
  let result := result <| vr_Disagreement :=
    vr_MonitorPauseSuppressed result
    || ((0 <? ha_SemanticMismatches (vr_Availability result))%Z
        && (maxIntV3 20 (vi_RealTrafficMinSamples input) <=? rt_SampleCount (vi_RealTraffic input))%Z
        && (vr_RealTrafficSuccessRate result >=? of_int 95)%float) |> in
  let result := result <| vr_ResponseP90MS := vr_P90LatencyMS result |>
                       <| vr_BaselineLatencyMS := vi_BaselineLatencyMS input |>
                       <| vr_ReasonCodes := dr_Code <$> vr_Reasons result |> in
  let '(counts, latest) := foldl summarize_check (∅, vr_CheckedAt result) classified in
  result <| vr_ErrorCategoryCounts := counts |> <| vr_CheckedAt := latest |>.

Section evaluate.
Context `{UnicodeTables}.

Definition classified_checks (input : V3Input) : list ClassifiedCheck :=
  ClassifyCheck <$> deduplicateChecks (vi_Checks input).

Definition EvaluateV3 (input : V3Input) : V3Result :=
  let policy := normalizeV3Policy input in
  let classified := classified_checks input in
  let result := no_result <| vr_RecommendedLoad := 100%Z |>
                          <| vr_Recommendation := RecommendationFull |>
                          <| vr_Availability := measure_availability classified |>
                          <| vr_Checks := classified |>
                          <| vr_P90LatencyMS := percentile90 (latencies_of classified) |> in
  let result := judge_quality policy input result in
  let result := cap_recent policy result in
  let result := judge_pause policy input result in
  let result := judge_semantic policy input result in
  let result := when (bool_decide (vr_Reasons result = []))
    (add_reason "healthy" "硬可用性与性能质量均正常") result in
  finalizeV3Result result classified input.
End evaluate.
