(* ===== verification/HealthV3Facts.v ===== *)
(** * Correctness of the health decisions

    The contract of [EvaluateV3]: the classification is well formed, the recommendation,
    the load and the pause agree and every reduction is explained, failures bound the
    load, and a pause rests on hard evidence alone. *)

From S2P Require Import Prelude GoStd Float HealthV3.

(** ** Loads and recommendations *)

Definition levels : list (Z * string) :=
  [(100%Z, RecommendationFull); (80%Z, RecommendationReduce80);
   (50%Z, RecommendationReduce50); (25%Z, RecommendationReduce25)].

(** What the result recommends so far. *)
Definition standing (r : V3Result) : bool * Z * string :=
  (vr_Pause r, vr_RecommendedLoad r, vr_Recommendation r).

Definition coherent (s : bool * Z * string) : Prop :=
  match s with
  | (true, load, recommendation) => load = 0%Z ∧ recommendation = RecommendationPause
  | (false, load, recommendation) => (load, recommendation) ∈ levels
  end.

Lemma when_elim (P : V3Result → Prop) cond f r :
  P r → (P r → P (f r)) → P (when cond f r).
Proof. destruct cond; simpl; auto. Qed.

Lemma standing_add_reason code explanation r :
  standing (add_reason code explanation r) = standing r.
Proof. by destruct r. Qed.

Lemma level_capped load recommendation maximum :
  (load, recommendation) ∈ levels → maximum ∈ [80; 50; 25]%Z →
  coherent (if (maximum <? load)%Z
            then (false, maximum, if (maximum =? 80)%Z then RecommendationReduce80 else
                                  if (maximum =? 50)%Z then RecommendationReduce50
                                  else RecommendationReduce25)
            else (false, load, recommendation)).
Proof.
  unfold levels. intros Hl Hm.
  repeat match goal with H : _ ∈ _ :: _ |- _ => apply elem_of_cons in H as [H|H] end;
    simplify_eq; try (by apply elem_of_nil in Hl); try (by apply elem_of_nil in Hm);
    by apply (bool_decide_unpack _).
Qed.

Lemma standing_capLoad r maximum code explanation :
  standing (capLoad r maximum code explanation) =
    if vr_Pause r then standing r else
    if (maximum <? vr_RecommendedLoad r)%Z
    then (false, maximum, if (maximum =? 80)%Z then RecommendationReduce80 else
                          if (maximum =? 50)%Z then RecommendationReduce50
                          else RecommendationReduce25)
    else (false, vr_RecommendedLoad r, vr_Recommendation r).
Proof.
  unfold capLoad. destruct (vr_Pause r) eqn:Hp; [done|].
  rewrite standing_add_reason. unfold standing.
  destruct (maximum <? _)%Z; read_fields; by rewrite Hp.
Qed.

Lemma coherent_capLoad r maximum code explanation :
  maximum ∈ [80; 50; 25]%Z → coherent (standing r) →
  coherent (standing (capLoad r maximum code explanation)).
Proof.
  intros Hm Hr. rewrite standing_capLoad. unfold standing in Hr |- *.
  destruct (vr_Pause r); [done|]. by apply level_capped.
Qed.

Lemma coherent_pause r code explanation : coherent (standing (pause r code explanation)).
Proof. destruct r. by split. Qed.


(** ** The quality score

    Every penalty is one of a few constants, so the score is one of finitely many
    doubles. *)
Definition absolute_penalties : list float64 := of_int <$> [0; 4; 8; 16; 30]%Z.
Definition relative_penalties : list float64 := of_int <$> [0; 4; 8; 14; 22; 30]%Z.
Definition long_term_penalties : list float64 := of_int <$> [0; 1; 2; 5; 8; 10]%Z.


Lemma absolute_penalty_listed l w c :
  (absoluteLatencyPenalty l w c).1 ∈ absolute_penalties.
Proof. unfold absoluteLatencyPenalty. repeat case_goal; simpl; listed. Qed.

Lemma relative_penalty_listed l b : (relativeLatencyPenalty l b).1 ∈ relative_penalties.
Proof. unfold relativeLatencyPenalty. repeat case_goal; simpl; listed. Qed.

Lemma long_term_penalty_listed rate : longTermPenalty rate ∈ long_term_penalties.
Proof. unfold longTermPenalty. repeat case_goal; simpl; listed. Qed.

(** The score as an expression of the penalties. *)
Definition quality_of (latency : float64) (slow : bool) (long_term : option float64) : float64 :=
  let score := (of_int 100 - latency)%float in
  let score := if slow then (score - of_int 4)%float else score in
  let score := match long_term with Some p => (score - p)%float | None => score end in
  fmax (of_int 0) (fmin (of_int 100) score).

Definition unblemished (latency : float64) (slow : bool) (long_term : option float64) : bool :=
  negb (flt (of_int 0) latency) && negb slow
  && match long_term with Some p => negb (flt (of_int 0) p) | None => true end.

Definition score_checked (a r : float64) (slow : bool) (lt : option float64) : bool :=
  let q := quality_of (fmax a r) slow lt in
  fle (of_int 0) q && fle q (of_int 100)
  && (negb (unblemished (fmax a r) slow lt) || bool_decide (q = of_int 100)).

Lemma scores_checked :
  forallb (λ a, forallb (λ r, forallb (λ slow, forallb (score_checked a r slow)
    (None :: (Some <$> long_term_penalties))) [true; false]) relative_penalties)
    absolute_penalties = true.
Proof. vm_compute. reflexivity. Qed.

Lemma score_bounds a r slow lt :
  a ∈ absolute_penalties → r ∈ relative_penalties →
  (∀ p, lt = Some p → p ∈ long_term_penalties) →
  let q := quality_of (fmax a r) slow lt in
  fle (of_int 0) q = true ∧ fle q (of_int 100) = true ∧
  (unblemished (fmax a r) slow lt = true → q = of_int 100).
Proof.
  intros Ha Hr Hlt. cbv zeta. pose proof scores_checked as H.
  rewrite forallb_forall in H. apply list_elem_of_In in Ha, Hr. specialize (H a Ha).
  rewrite forallb_forall in H. specialize (H r Hr). rewrite forallb_forall in H.
  specialize (H slow ltac:(destruct slow; simpl; auto)).
  rewrite forallb_forall in H.
  assert (In lt (None :: (Some <$> long_term_penalties))) as Hin.
  { destruct lt as [p|]; [right|by left]. apply list_elem_of_In, list_elem_of_fmap.
    exists p. split; [done|by apply Hlt]. }
  specialize (H lt Hin). unfold score_checked in H. bool_facts.
  split_and!; [done..|]. intros Hu.
  match goal with H : _ || _ = true |- _ => rewrite Hu in H; cbn in H end. by bool_facts.
Qed.

(** What [judge_quality] works from. *)
Section quality.
Context (policy : normalizedV3Policy) (input : V3Input) (r : V3Result).

Definition absolute_penalty : float64 :=
  (absoluteLatencyPenalty (vr_P90LatencyMS r) (np_latencyWarningMS policy)
     (np_latencyCriticalMS policy)).1.
Definition relative_penalty : float64 :=
  (relativeLatencyPenalty (vr_P90LatencyMS r) (vi_BaselineLatencyMS input)).1.
Definition unmeasured_slow : bool :=
  (vr_P90LatencyMS r =? 0)%Z && containsClass (vr_Checks r) SignalPerformanceSlow.
Definition long_term_penalty : option float64 :=
  longTermPenalty <$> vi_LongTermSuccessRate input.
Definition quality : float64 :=
  quality_of (fmax absolute_penalty relative_penalty) unmeasured_slow long_term_penalty.

Lemma quality_bounds :
  fle (of_int 0) quality = true ∧ fle quality (of_int 100) = true ∧
  (unblemished (fmax absolute_penalty relative_penalty) unmeasured_slow long_term_penalty = true →
   quality = of_int 100).
Proof.
  apply score_bounds; [apply absolute_penalty_listed|apply relative_penalty_listed|].
  unfold long_term_penalty. intros p Hp. destruct (vi_LongTermSuccessRate input); simplify_eq/=.
  apply long_term_penalty_listed.
Qed.

(** The parts of a result the quality stage reads, and the rest it keeps. *)
Definition background (r : V3Result) :=
  (vr_Pause r, vr_Checks r, vr_Availability r, vr_MonitorPauseSuppressed r, vr_P90LatencyMS r).


Definition latency_fault : bool := flt (of_int 0) (fmax absolute_penalty relative_penalty).
Definition long_term_fault : bool :=
  match long_term_penalty with Some p => flt (of_int 0) p | None => false end.
End quality.

Lemma latency_step policy input r :
  let r' := latency_quality policy input r in
  background r' = background r
  ∧ vr_QualityScore r' =
      (of_int 100 - fmax (absolute_penalty policy r) (relative_penalty input r))%float
  ∧ (vr_Reasons r' = [] → latency_fault policy input r = false ∧ vr_Reasons r = []).
Proof.
  unfold latency_fault, absolute_penalty, relative_penalty, latency_quality.
  destruct (absoluteLatencyPenalty _ _ _) as [a ar], (relativeLatencyPenalty _ _) as [b br].
  destruct r. unfold when, add_reason. upd. destruct (flt (of_int 0) _); upd.
  - split_and!; [done..|]. intros H. by apply app_nil in H as [_ H].
  - done.
Qed.

Lemma unmeasured_step r :
  let r' := unmeasured_quality r in
  background r' = background r
  ∧ vr_QualityScore r' =
      (if unmeasured_slow r then (vr_QualityScore r - of_int 4)%float else vr_QualityScore r)
  ∧ (vr_Reasons r' = [] → unmeasured_slow r = false ∧ vr_Reasons r = []).
Proof.
  unfold unmeasured_slow, unmeasured_quality, when, add_reason.
  destruct (_ && _); destruct r; upd; [|done].
  split_and!; [done..|]. intros H. by apply app_nil in H as [_ H].
Qed.

Lemma long_term_step input r :
  let r' := long_term_quality input r in
  background r' = background r
  ∧ vr_QualityScore r' =
      match long_term_penalty input with
      | Some p => (vr_QualityScore r - p)%float | None => vr_QualityScore r end
  ∧ (vr_Reasons r' = [] → long_term_fault input = false ∧ vr_Reasons r = []).
Proof.
  unfold long_term_fault, long_term_penalty, long_term_quality, when, add_reason.
  destruct (vi_LongTermSuccessRate input) as [rate|]; destruct r; upd; [|done].
  destruct (flt (of_int 0) _); upd; [|done].
  split_and!; [done..|]. intros H. by apply app_nil in H as [_ H].
Qed.

Definition level_of (policy : normalizedV3Policy) (q : float64) : Z * string :=
  if (q >=? np_qualityFullAt policy)%float then (100%Z, RecommendationFull) else
  if (q >=? np_qualityReduce80At policy)%float then (80%Z, RecommendationReduce80) else
  if (q >=? np_qualityReduce50At policy)%float then (50%Z, RecommendationReduce50)
  else (25%Z, RecommendationReduce25).

Lemma level_of_levels policy q : level_of policy q ∈ levels.
Proof. unfold level_of. repeat case_goal; listed. Qed.

Lemma level_step policy r q :
  let r' := setLoadFromQuality (r <| vr_QualityScore := q |>) (np_qualityFullAt policy)
              (np_qualityReduce80At policy) (np_qualityReduce50At policy) in
  background r' = background r ∧ vr_QualityScore r' = q ∧ vr_Reasons r' = vr_Reasons r
  ∧ (vr_RecommendedLoad r', vr_Recommendation r') = level_of policy q.
Proof.
  unfold setLoadFromQuality, level_of. destruct r; upd. by repeat case_goal.
Qed.

Lemma quality_stage policy input r :
  let r' := judge_quality policy input r in
  background r' = background r
  ∧ vr_QualityScore r' = quality policy input r
  ∧ (vr_RecommendedLoad r', vr_Recommendation r') = level_of policy (quality policy input r)
  ∧ (vr_Reasons r' = [] → vr_Reasons r = [] ∧ quality policy input r = of_int 100).
Proof.
  cbv zeta. unfold judge_quality.
  destruct (latency_step policy input r) as (Hb1 & Hq1 & Hr1).
  set (r1 := latency_quality policy input r) in *.
  destruct (unmeasured_step r1) as (Hb2 & Hq2 & Hr2).
  set (r2 := unmeasured_quality r1) in *.
  destruct (long_term_step input r2) as (Hb3 & Hq3 & Hr3).
  set (r3 := long_term_quality input r2) in *.
  destruct (level_step policy r3 (fmax (of_int 0) (fmin (of_int 100) (vr_QualityScore r3))))
    as (Hb4 & Hq4 & Hr4 & Hl4).
  set (r4 := setLoadFromQuality _ _ _ _) in *.
  assert (unmeasured_slow r1 = unmeasured_slow r) as Hslow.
  { unfold background in Hb1. injection Hb1 as _ Hc _ _ Hp. unfold unmeasured_slow. by rewrite Hc, Hp. }
  assert (vr_QualityScore r4 = quality policy input r) as Hq.
  { rewrite Hq4, Hq3, Hq2, Hq1, Hslow. unfold quality, quality_of.
    by destruct (long_term_penalty input). }
  split_and!.
  - congruence.
  - done.
  - by rewrite <-Hq, Hq4.
  - rewrite Hr4. intros [Hf3 [Hf2 [Hf1 ?]%Hr1]%Hr2]%Hr3. split; [done|].
    apply quality_bounds. unfold unblemished.
    unfold latency_fault in Hf1. rewrite Hf1, <-Hslow, Hf2.
    unfold long_term_fault in Hf3. destruct (long_term_penalty input); [by rewrite Hf3|done].
Qed.

(** ** Steps that only reduce *)

Definition reduces (r r' : V3Result) : Prop :=
  background r' = background r ∧ vr_QualityScore r' = vr_QualityScore r
  ∧ (coherent (standing r) → coherent (standing r') ∧
     (vr_RecommendedLoad r' ≤ vr_RecommendedLoad r)%Z)
  ∧ (vr_Reasons r' = [] → vr_Reasons r = [] ∧ standing r' = standing r).

#[export] Instance reduces_preorder : PreOrder reduces.
Proof.
  split.
  - intros r. unfold reduces. split_and!; auto. by intros.
  - intros r1 r2 r3 (Hb & Hq & Hc & Hr) (Hb' & Hq' & Hc' & Hr'). unfold reduces.
    split_and!; [congruence..| |].
    + intros H%Hc. destruct H as [H ?]. apply Hc' in H as [? ?]. split; [done|lia].
    + intros [[? ?]%Hr ?]%Hr'. split; congruence.
Qed.

Lemma reduces_when cond f r : reduces r (f r) → reduces r (when cond f r).
Proof. destruct cond; simpl; [done|reflexivity]. Qed.

Lemma reduces_capLoad r maximum code explanation :
  maximum ∈ [80; 50; 25]%Z → reduces r (capLoad r maximum code explanation).
Proof.
  intros Hm. unfold reduces. split_and!.
  - unfold capLoad. destruct (vr_Pause r) eqn:Hp; [done|]. destruct r; upd.
    by destruct (_ <? _)%Z.
  - unfold capLoad. destruct (vr_Pause r) eqn:Hp; [done|]. destruct r; upd.
    by destruct (_ <? _)%Z.
  - intros Hr. split; [by apply coherent_capLoad|].
    pose proof (standing_capLoad r maximum code explanation) as Hs. unfold standing in Hs.
    destruct (vr_Pause r); [injection Hs; intros; lia|].
    destruct (maximum <? _)%Z eqn:E; bool_facts; injection Hs; intros; lia.
  - unfold capLoad. destruct (vr_Pause r); [done|]. destruct r; upd.
    destruct (_ <? _)%Z; upd; by intros [_ ?]%app_nil.
Qed.

Lemma capLoad_bound r maximum code explanation :
  coherent (standing r) → (0 ≤ maximum)%Z →
  (vr_RecommendedLoad (capLoad r maximum code explanation) ≤ maximum)%Z.
Proof.
  intros Hr Hm. pose proof (standing_capLoad r maximum code explanation) as Hs.
  unfold standing in Hs, Hr. destruct (vr_Pause r).
  - destruct Hr as [Hr _]. injection Hs; intros. lia.
  - destruct (maximum <? _)%Z eqn:E; bool_facts; injection Hs; intros; lia.
Qed.

Lemma when_true cond f r : cond = true → when cond f r = f r.
Proof. by intros ->. Qed.

Ltac cap := apply reduces_when, reduces_capLoad; listed.

(** The load the failures of the last ten checks leave. *)
Definition failure_cap (a : HardAvailability) : Z :=
  if (2 <=? ha_InfrastructureFailuresLast10 a)%Z || (2 <=? ha_CapacityFailuresLast10 a)%Z then 25
  else if (1 <=? ha_InfrastructureFailuresLast10 a)%Z || (1 <=? ha_CapacityFailuresLast10 a)%Z
  then 50 else 100.

Lemma load_bounded r : coherent (standing r) → (0 ≤ vr_RecommendedLoad r ≤ 100)%Z.
Proof.
  unfold standing, coherent. destruct (vr_Pause r); [by intros [-> _]|].
  unfold levels. intros H.
  repeat (apply elem_of_cons in H as [H|H]; [injection H; intros; lia|]).
  by apply elem_of_nil in H.
Qed.

(** A cap that applies bounds the load, whatever caps follow. *)
Lemma cap_stage policy r :
  reduces r (cap_recent policy r)
  ∧ (coherent (standing r) →
     (vr_RecommendedLoad (cap_recent policy r) ≤ failure_cap (vr_Availability r))%Z).
Proof.
  unfold cap_recent.
  set (a := vr_Availability r).
  set (r1 := when (1 <=? _)%Z _ r). assert (reduces r r1) as H1 by cap.
  set (r2 := when (2 <=? _)%Z _ r1). assert (reduces r1 r2) as H2 by cap.
  set (r3 := when (1 <=? _)%Z _ r2). assert (reduces r2 r3) as H3 by cap.
  set (r4 := when (2 <=? _)%Z _ r3). assert (reduces r3 r4) as H4 by cap.
  set (r5 := when _ _ r4). assert (reduces r4 r5) as H5 by cap.
  split; [by rewrite H1, H2, H3, H4|].
  intros Hc. destruct H1 as (_ & _ & H1 & _), H2 as (_ & _ & H2 & _),
    H3 as (_ & _ & H3 & _), H4 as (_ & _ & H4 & _), H5 as (_ & _ & H5 & _).
  destruct (H1 Hc) as [Hc1 L1], (H2 ltac:(done)) as [Hc2 L2], (H3 ltac:(done)) as [Hc3 L3],
    (H4 ltac:(done)) as [Hc4 L4], (H5 ltac:(done)) as [Hc5 L5].
  assert (1 <= ha_InfrastructureFailuresLast10 a → vr_RecommendedLoad r1 ≤ 50)%Z as B1.
  { intros ?. unfold r1. rewrite when_true by (by apply Z.leb_le). by apply capLoad_bound. }
  assert (2 <= ha_InfrastructureFailuresLast10 a → vr_RecommendedLoad r2 ≤ 25)%Z as B2.
  { intros ?. unfold r2. rewrite when_true by (by apply Z.leb_le). by apply capLoad_bound. }
  assert (1 <= ha_CapacityFailuresLast10 a → vr_RecommendedLoad r3 ≤ 50)%Z as B3.
  { intros ?. unfold r3. rewrite when_true by (by apply Z.leb_le). by apply capLoad_bound. }
  assert (2 <= ha_CapacityFailuresLast10 a → vr_RecommendedLoad r4 ≤ 25)%Z as B4.
  { intros ?. unfold r4. rewrite when_true by (by apply Z.leb_le). by apply capLoad_bound. }
  pose proof (load_bounded r5 Hc5). unfold failure_cap.
  destruct (2 <=? ha_InfrastructureFailuresLast10 a)%Z eqn:E1,
    (2 <=? ha_CapacityFailuresLast10 a)%Z eqn:E2, (1 <=? ha_InfrastructureFailuresLast10 a)%Z eqn:E3,
    (1 <=? ha_CapacityFailuresLast10 a)%Z eqn:E4; cbn [orb]; bool_facts; lia.
Qed.

(** ** The evidence for a pause *)

Section pausing.
Context (policy : normalizedV3Policy) (input : V3Input).

Definition traffic_healthy : bool :=
  has_enough_traffic policy input
  && (SuccessRate (vi_RealTraffic input) >=? np_trafficHealthyAt policy)%float.
Definition traffic_unhealthy : bool :=
  has_enough_traffic policy input
  && (SuccessRate (vi_RealTraffic input) <? np_trafficPauseBelow policy)%float.

Definition credential_rejected (classified : list ClassifiedCheck) : bool :=
  match last classified with Some c => is_class SignalCredentialFailure c | None => false end.
Definition infrastructure_down (classified : list ClassifiedCheck) : bool :=
  (np_hardFailureStreak policy <=? trailingClassCount classified SignalInfrastructureFailure)%Z
  || (np_hardFailuresInWindow policy
      <=? countClass (last_of 10 classified) SignalInfrastructureFailure)%Z.

(** The latest check rejects the credential, the traffic fails, or the monitor fails
    and the traffic does not contradict it. *)
Definition pause_evidence (classified : list ClassifiedCheck) : bool :=
  credential_rejected classified || traffic_unhealthy
  || infrastructure_down classified && negb traffic_healthy.
End pausing.

Lemma foldl_invariant {A B T} (f : B → A → B) (g : B → T) (l : list A) (b : B) :
  (∀ b x, g (f b x) = g b) → g (foldl f b l) = g b.
Proof. intros H. revert b. induction l as [|x l IH]; intros b; [done|]. simpl. by rewrite IH, H. Qed.

Lemma foldl_count {A B} (f : B → A → B) (g : B → Z) (c : Z → A → Z) (l : list A) (b : B) :
  (∀ b x, g (f b x) = c (g b) x) → g (foldl f b l) = foldl c (g b) l.
Proof. intros H. revert b. induction l as [|x l IH]; intros b; [done|]. simpl. by rewrite IH, H. Qed.

Lemma is_class_exclusive k k' c :
  k ≠ k' → is_class k c = true → is_class k' c = false.
Proof. unfold is_class. intros Hne H. bool_facts. apply bool_decide_eq_false. congruence. Qed.

Lemma availability_counts classified :
  let a := measure_availability classified in
  ha_ConsecutiveInfrastructure a = trailingClassCount classified SignalInfrastructureFailure
  ∧ ha_InfrastructureFailuresLast10 a = countClass (last_of 10 classified) SignalInfrastructureFailure
  ∧ ha_CapacityFailuresLast10 a = countClass (last_of 10 classified) SignalCapacityLimited.
Proof.
  cbv zeta. unfold measure_availability.
  set (a := foldl count_check no_availability classified).
  assert (ha_InfrastructureFailuresLast10 a = 0%Z ∧ ha_CapacityFailuresLast10 a = 0%Z) as [Hi Hc].
  { unfold a. split;
      (rewrite foldl_invariant; [done|]);
      intros b x; unfold count_check; cbv zeta; repeat case_goal; read_fields; done. }
  set (a' := if (0 <? ha_Considered a)%Z then _ else a).
  assert (ha_InfrastructureFailuresLast10 a' = 0%Z ∧ ha_CapacityFailuresLast10 a' = 0%Z) as [Hi' Hc'].
  { unfold a'. destruct (_ <? _)%Z; read_fields; done. }
  set (a'' := a' <| ha_ConsecutiveInfrastructure := _ |>). split_and!.
  - rewrite foldl_invariant; [unfold a''; by read_fields|].
    intros b x. unfold count_recent. destruct b; upd. by repeat case_goal.
  - rewrite (foldl_count _ _ (λ n c, if is_class SignalInfrastructureFailure c then (n + 1)%Z else n)).
    + unfold countClass. f_equal. unfold a''. by read_fields.
    + intros b x. unfold count_recent. destruct b; upd. by repeat case_goal.
  - rewrite (foldl_count _ _ (λ n c, if is_class SignalCapacityLimited c then (n + 1)%Z else n)).
    + unfold countClass. f_equal. unfold a''. by read_fields.
    + intros b x. unfold count_recent. destruct (is_class SignalInfrastructureFailure x) eqn:E.
      * rewrite (is_class_exclusive SignalInfrastructureFailure SignalCapacityLimited x) by done. by read_fields.
      * case_goal; by read_fields.
Qed.

Definition kept (r : V3Result) := (vr_Checks r, vr_Availability r, vr_QualityScore r).

Lemma pause_stage policy input r :
  vr_Pause r = false → coherent (standing r) →
  vr_Availability r = measure_availability (vr_Checks r) →
  let r' := judge_pause policy input r in
  kept r' = kept r ∧ coherent (standing r')
  ∧ vr_Pause r' = pause_evidence policy input (vr_Checks r)
  ∧ (vr_RecommendedLoad r' ≤ vr_RecommendedLoad r)%Z
  ∧ (vr_Reasons r' = [] → vr_Reasons r = [] ∧ standing r' = standing r).
Proof.
  intros Hp Hc Ha. cbv zeta. unfold judge_pause.
  destruct (availability_counts (vr_Checks r)) as (Hs & Hw & _). rewrite <-Ha in Hs, Hw.
  pose proof (load_bounded r Hc) as Hl.
  set (r1 := r <| vr_RealTrafficSuccessRate := _ |>).
  assert (kept r1 = kept r ∧ standing r1 = standing r ∧ vr_Reasons r1 = vr_Reasons r
    ∧ vr_Checks r1 = vr_Checks r ∧ vr_Availability r1 = vr_Availability r)
    as (Hk1 & Hs1 & Hr1 & Hc1 & Ha1) by (by destruct r).
  clearbody r1. rewrite Hc1, Ha1, Hs, Hw.
  fold (credential_rejected (vr_Checks r)) (infrastructure_down policy (vr_Checks r)).
  unfold pause_evidence, traffic_unhealthy, traffic_healthy.
  assert (∀ r2 code text, kept r2 = kept r → (vr_Reasons r2 = [] → False) ∨ True →
    kept (pause r2 code text) = kept r ∧ coherent (standing (pause r2 code text))
    ∧ vr_Pause (pause r2 code text) = true
    ∧ (vr_RecommendedLoad (pause r2 code text) ≤ vr_RecommendedLoad r)%Z
    ∧ (vr_Reasons (pause r2 code text) = [] →
       vr_Reasons r = [] ∧ standing (pause r2 code text) = standing r)) as Hpause.
  { intros r2 code text Hk _. split_and!; [by destruct r2|apply coherent_pause|by destruct r2| |].
    - destruct r2; upd; lia.
    - destruct r2; upd. by intros [_ ?]%app_nil. }
  destruct (credential_rejected _); [by apply Hpause; [|right]|].
  destruct (_ && flt _ _); [by apply Hpause; [|right]|]. cbn [orb].
  destruct (infrastructure_down _ _); cbn [andb].
  2:{ split_and!; [done|by rewrite Hs1| |injection Hs1; intros; lia|by rewrite Hr1].
      injection Hs1; intros; congruence. }
  destruct (_ && fle _ _); cbn [negb].
  - set (r2 := r1 <| vr_MonitorPauseSuppressed := true |>).
    assert (kept r2 = kept r ∧ standing r2 = standing r ∧ vr_Reasons r2 = vr_Reasons r)
      as (Hk2 & Hs2 & Hr2) by (rewrite <-Hk1, <-Hs1, <-Hr1; by destruct r1).
    clearbody r2.
    destruct (reduces_capLoad r2 25 "real_traffic_healthy_override"
      "监控达到暂停门槛，但真实业务成功率不低于百分之九十五" ltac:(listed)) as (Hb & Hq & Hcc & Hrr).
    rewrite Hs2 in Hcc, Hrr. destruct (Hcc Hc) as [Hc2 Hl2]. split_and!.
    + unfold kept, background in *. congruence.
    + done.
    + unfold background in Hb. unfold standing in Hs2. congruence.
    + unfold standing in Hs2. injection Hs2; intros; lia.
    + rewrite <-Hr2. done.
  - destruct (_ <=? _)%Z; by apply Hpause; [|right].
Qed.

(** ** The whole evaluation *)

Lemma semantic_stage policy input r : reduces r (judge_semantic policy input r)
  ∨ judge_semantic policy input r =
    add_reason "semantic_mismatch_overridden" "内容校验异常，但真实业务流量健康" r.
Proof.
  unfold judge_semantic, when. destruct (_ && _) eqn:E; [|by left].
  destruct (has_enough_traffic _ _ && _); [right|left].
  - reflexivity.
  - apply reduces_capLoad. listed.
Qed.

(** The last stages change neither the verdict nor the score. *)
Lemma summary r classified input r' :
  finalizeV3Result r classified input = r' →
  standing r' = standing r ∧ kept r' = kept r
  ∧ vr_SuggestedLoadPercent r' = vr_RecommendedLoad r ∧ vr_Action r' = vr_Recommendation r
  ∧ vr_ReasonCodes r' = dr_Code <$> vr_Reasons r ∧ vr_Reasons r' = vr_Reasons r.
Proof.
  cbv delta [finalizeV3Result] beta. name_let last10. name_let last60. clearbody last10 last60.
  name_let r1.
  assert (standing r1 = standing r ∧ kept r1 = kept r
    ∧ vr_SuggestedLoadPercent r1 = vr_RecommendedLoad r ∧ vr_Action r1 = vr_Recommendation r
    ∧ vr_Reasons r1 = vr_Reasons r) as (Hs1 & Hk1 & Hl1 & Ha1 & Hr1)
    by (unfold r1; clear r1; by destruct r).
  clearbody r1. rewrite <-Hs1, <-Hk1, <-Hl1, <-Ha1, <-Hr1.
  name_let r2.
  assert (standing r2 = standing r1 ∧ kept r2 = kept r1
    ∧ vr_SuggestedLoadPercent r2 = vr_SuggestedLoadPercent r1 ∧ vr_Action r2 = vr_Action r1
    ∧ vr_Reasons r2 = vr_Reasons r1) as (Hs2 & Hk2 & Hl2 & Ha2 & Hr2)
    by (unfold r2; clear; by destruct r1).
  clearbody r2. rewrite <-Hs2, <-Hk2, <-Hl2, <-Ha2, <-Hr2.
  clear. name_let r3.
  destruct (foldl summarize_check _ classified) as [counts latest]. intros <-. unfold r3.
  clear. by destruct r2.
Qed.

Lemma explained r :
  let r' := when (bool_decide (vr_Reasons r = []))
              (add_reason "healthy" "硬可用性与性能质量均正常") r in
  standing r' = standing r ∧ kept r' = kept r ∧ vr_Reasons r' ≠ []
  ∧ (vr_Reasons r ≠ [] → vr_Reasons r' = vr_Reasons r).
Proof.
  unfold when. case_bool_decide as Hr; [|done].
  split_and!; [apply standing_add_reason|by destruct r| |done].
  unfold add_reason. read_fields. by rewrite Hr.
Qed.

(** No stage gives good health as a reason. *)
Definition faulted (r : V3Result) : Prop :=
  Forall (λ d, dr_Code d ≠ "healthy") (vr_Reasons r).

Lemma faulted_eq r r' : vr_Reasons r' = vr_Reasons r → faulted r → faulted r'.
Proof. unfold faulted. by intros ->. Qed.

Lemma faulted_add code explanation r :
  code ≠ "healthy" → faulted r → faulted (add_reason code explanation r).
Proof.
  unfold faulted, add_reason. intros Hc Hr. read_fields. apply Forall_app. split; [done|].
  by apply Forall_singleton.
Qed.

Lemma faulted_capLoad r maximum code explanation :
  code ≠ "healthy" → faulted r → faulted (capLoad r maximum code explanation).
Proof.
  unfold capLoad. intros Hc Hr. destruct (vr_Pause r); [done|]. apply faulted_add; [done|].
  eapply faulted_eq; [|exact Hr]. destruct (_ <? _)%Z; by read_fields.
Qed.

Lemma faulted_pause r code explanation :
  code ≠ "healthy" → faulted r → faulted (pause r code explanation).
Proof.
  unfold pause. intros Hc Hr. apply faulted_add; [done|]. eapply faulted_eq; [|exact Hr].
  by read_fields.
Qed.

Ltac keeps_fault := match goal with H : faulted _ |- _ => eapply faulted_eq; [|exact H]; by read_fields end.

Lemma faulted_quality policy input r : faulted r → faulted (judge_quality policy input r).
Proof.
  intros Hr. unfold judge_quality.
  assert (faulted (latency_quality policy input r)) as H1.
  { unfold latency_quality. destruct (absoluteLatencyPenalty _ _ _), (relativeLatencyPenalty _ _).
    apply when_elim; intros; [|apply faulted_add; [done|]]; keeps_fault. }
  assert (faulted (unmeasured_quality (latency_quality policy input r))) as H2.
  { unfold unmeasured_quality. apply when_elim; [done|]. intros _. apply faulted_add; [done|].
    keeps_fault. }
  set (r2 := unmeasured_quality _) in *. clearbody r2.
  assert (faulted (long_term_quality input r2)) as H3.
  { unfold long_term_quality. destruct (vi_LongTermSuccessRate input); [|done].
    apply when_elim; intros; [|apply faulted_add; [done|]]; keeps_fault. }
  eapply faulted_eq; [|exact H3].
  destruct (level_step policy (long_term_quality input r2)
    (fmax (of_int 0) (fmin (of_int 100) (vr_QualityScore (long_term_quality input r2)))))
    as (_ & _ & Hl & _). done.
Qed.

Lemma faulted_cap policy r : faulted r → faulted (cap_recent policy r).
Proof.
  intros Hr. unfold cap_recent.
  do 5 (apply when_elim; [|intros; by apply faulted_capLoad]). done.
Qed.

Lemma faulted_judge policy input r : faulted r → faulted (judge_pause policy input r).
Proof.
  intros Hr. unfold judge_pause.
  assert (faulted (r <| vr_RealTrafficSuccessRate := SuccessRate (vi_RealTraffic input) |>)) as H1 by keeps_fault.
  repeat case_goal; first [by apply faulted_pause|done|apply faulted_capLoad; [done|keeps_fault]].
Qed.

Lemma faulted_semantic policy input r : faulted r → faulted (judge_semantic policy input r).
Proof.
  intros Hr. unfold judge_semantic. apply when_elim; [done|]. intros _.
  destruct (has_enough_traffic _ _ && _); [by apply faulted_add|by apply faulted_capLoad].
Qed.

Section evaluation.
Context `{UnicodeTables} (input : V3Input).
Let policy := normalizeV3Policy input.
Let classified := classified_checks input.
Let out := EvaluateV3 input.

Lemma full_at_most_100 : fle (np_qualityFullAt policy) (of_int 100) = true.
Proof.
  subst policy. cbv delta [normalizeV3Policy] beta. name_let p.
  assert (fle (np_qualityFullAt p) (of_int 100) = true) as Hp by by vm_compute.
  clearbody p.
  repeat (name_let q;
    assert (fle (np_qualityFullAt q) (of_int 100) = true) as Hq
      by (unfold q; case_goal; read_fields; by bool_facts);
    clearbody q; clear p Hp; rename q into p, Hq into Hp).
  case_goal; by read_fields.
Qed.


(** Everything the properties of an evaluation need, stage by stage. *)
Lemma evaluation_facts :
  coherent (standing out) ∧ vr_Checks out = classified
  ∧ vr_Availability out = measure_availability classified
  ∧ vr_Pause out = pause_evidence policy input classified
  ∧ (vr_RecommendedLoad out ≤ failure_cap (measure_availability classified))%Z
  ∧ fle (of_int 0) (vr_QualityScore out) = true ∧ fle (vr_QualityScore out) (of_int 100) = true
  ∧ vr_SuggestedLoadPercent out = vr_RecommendedLoad out ∧ vr_Action out = vr_Recommendation out
  ∧ vr_ReasonCodes out = dr_Code <$> vr_Reasons out ∧ vr_Reasons out ≠ []
  ∧ (vr_RecommendedLoad out = 100%Z ∨ Exists (λ d, dr_Code d ≠ "healthy") (vr_Reasons out)).
Proof.
  subst out. unfold EvaluateV3. fold classified policy.
  set (r0 := no_result <| vr_RecommendedLoad := _ |> <| vr_Recommendation := _ |>
    <| vr_Availability := _ |> <| vr_Checks := _ |> <| vr_P90LatencyMS := _ |>).
  destruct (quality_stage policy input r0) as (Hb1 & Hq1 & Hl1 & He1).
  destruct (quality_bounds policy input r0) as (Hq0 & Hq100 & _).
  set (r1 := judge_quality policy input r0) in *.
  unfold background in Hb1. injection Hb1 as Hp1 Hc1 Ha1 _ _. cbn in Hp1, Hc1, Ha1.
  assert (coherent (standing r1)) as Hco1.
  { unfold standing. rewrite Hp1. simpl. rewrite Hl1. apply level_of_levels. }
  destruct (cap_stage policy r1) as [(Hb2 & Hq2 & Hcl2 & He2) Hcap2].
  specialize (Hcap2 Hco1). rewrite Ha1 in Hcap2. destruct (Hcl2 Hco1) as [Hco2 _].
  set (r2 := cap_recent policy r1) in *.
  unfold background in Hb2. injection Hb2 as Hp2 Hc2 Ha2 _ _.
  destruct (pause_stage policy input r2) as (Hk3 & Hco3 & Hp3 & Hl3 & He3);
    [congruence|done|congruence|].
  set (r3 := judge_pause policy input r2) in *. rewrite Hc2, Hc1 in Hp3.
  set (r4 := judge_semantic policy input r3).
  assert (standing r4 = standing r3 ∧ vr_Reasons r4 ≠ [] ∨ reduces r3 r4) as H4.
  { destruct (semantic_stage policy input r3) as [H4|H4]; [by right|left]. fold r4 in H4.
    rewrite H4. split; [apply standing_add_reason|]. destruct r3; upd.
    by intros [_ ?]%app_nil. }
  assert (kept r4 = kept r3) as Hk4.
  { destruct (semantic_stage policy input r3) as [Hss|Hss]; fold r4 in Hss.
    - destruct Hss as (Hss & Hq & _). unfold kept, background in *. congruence.
    - rewrite Hss. by destruct r3. }
  assert (coherent (standing r4) ∧ (vr_RecommendedLoad r4 ≤ vr_RecommendedLoad r3)%Z
    ∧ vr_Pause r4 = vr_Pause r3
    ∧ (vr_Reasons r4 = [] → vr_Reasons r3 = [] ∧ standing r4 = standing r3))
    as (Hco4 & Hl4 & Hp4 & He4).
  { destruct H4 as [[Hs4 Hne]|(Hb & _ & Hcl & He)].
    - rewrite Hs4. unfold standing in Hs4. injection Hs4; intros. by repeat split; try lia.
    - unfold background in Hb. destruct (Hcl Hco3). repeat split; try congruence; naive_solver. }
  destruct (explained r4) as (Hs5 & Hk5 & Hne5 & He5).
  set (r5 := when _ _ r4) in *.
  destruct (summary r5 classified input _ eq_refl) as (Hs6 & Hk6 & Hsl & Hact & Hcodes & Hr6).
  set (r6 := finalizeV3Result _ classified input) in *.
  rewrite Hs5 in Hs6. rewrite Hk5 in Hk6.
  unfold kept in Hk3, Hk4, Hk6. unfold standing in Hs5, Hs6.
  assert (vr_Reasons r4 = [] → vr_RecommendedLoad r6 = 100%Z) as Hfull.
  { intros ([([He1' Hq1']%He1 & Hs2)%He2 Hs3]%He3 & Hs4)%He4.
    unfold standing in Hs2, Hs3, Hs4.
    assert (vr_RecommendedLoad r6 = vr_RecommendedLoad r1) as -> by congruence.
    rewrite Hq1' in Hl1. unfold level_of in Hl1. rewrite full_at_most_100 in Hl1. congruence. }
  assert (vr_RecommendedLoad r6 = vr_RecommendedLoad r4) as Hl6 by congruence.
  assert (vr_QualityScore r6 = quality policy input r0) as Hq6 by congruence.
  split_and!.
  - unfold standing. rewrite Hs6. done.
  - congruence.
  - congruence.
  - congruence.
  - lia.
  - by rewrite Hq6.
  - by rewrite Hq6.
  - congruence.
  - congruence.
  - congruence.
  - congruence.
  - destruct (decide (vr_Reasons r4 = [])) as [Hn|Hn]; [left; by apply Hfull|].
    right. rewrite Hr6, He5 by done.
    assert (faulted r4) as Hf.
    { unfold r4, r3, r2, r1. apply faulted_semantic, faulted_judge, faulted_cap, faulted_quality.
      apply List.Forall_nil. }
    unfold faulted in Hf. destruct Hf; [done|]. by left.
Qed.
End evaluation.
