(* ===== verification/HealthDecisions.v ===== *)
(** * The health decisions are sound

    How a check is classified, what the pause of [EvaluateV3] depends on, how repeated
    checks are merged, and the ninetieth percentile. *)

From S2P Require Import Prelude GoStd Float HealthV3 HealthV3Facts.

(** ** What a pause depends on *)

(** The fields of the policy the pause reads, and the inputs they come from. *)
Definition pause_policy (p : normalizedV3Policy) :=
  (np_minimumTrafficSamples p, np_hardFailureStreak p, np_hardFailuresInWindow p,
   np_trafficPauseBelow p, np_trafficHealthyAt p).
Definition pause_input (i : V3Input) :=
  (vi_RealTraffic i, vi_RealTrafficMinSamples i, vi_HardFailureStreak i, vi_HardFailuresInWindow i,
   vi_TrafficPauseBelow i, vi_TrafficHealthyAt i).

Definition pause_policy_of (min_samples streak window : Z) (below healthy : float64) :=
  let below := if flt (of_int 0) below && flt below (of_int 100) then below else of_int 80 in
  (if (0 <? min_samples)%Z then min_samples else 20%Z,
   if (0 <? streak)%Z then streak else 3%Z,
   if (0 <? window)%Z then window else 5%Z,
   below,
   if flt below healthy && fle healthy (of_int 100) then healthy else of_int 95).

Lemma pause_policy_normal i :
  pause_policy (normalizeV3Policy i) =
  pause_policy_of (vi_RealTrafficMinSamples i) (vi_HardFailureStreak i)
    (vi_HardFailuresInWindow i) (vi_TrafficPauseBelow i) (vi_TrafficHealthyAt i).
Proof.
  cbv delta [normalizeV3Policy] beta.
  name_let p0. name_let p1. name_let p2. name_let p3. name_let p4. name_let p5.
  assert (pause_policy p5 = pause_policy_of (vi_RealTrafficMinSamples i) (vi_HardFailureStreak i)
    (vi_HardFailuresInWindow i) (vi_TrafficPauseBelow i) (vi_TrafficHealthyAt i)) as H5.
  { unfold pause_policy_of, pause_policy, p5, p4, p3, p2, p1.
    destruct (0 <? vi_RealTrafficMinSamples i)%Z, (0 <? vi_HardFailureStreak i)%Z,
      (0 <? vi_HardFailuresInWindow i)%Z, (_ && flt (vi_TrafficPauseBelow i) _);
      read_fields; destruct (_ && fle _ _); by read_fields. }
  clearbody p5. clear p0 p1 p2 p3 p4. rewrite <-H5. clear H5.
  repeat (name_let q;
    assert (pause_policy q = pause_policy p5) as Hq
      by (unfold q, pause_policy; case_goal; by read_fields);
    clearbody q; rewrite <-Hq; clear p5 Hq; rename q into p5).
  unfold pause_policy. case_goal; by read_fields.
Qed.

(** What a classified check says of the account: is its credential rejected, is the
    upstream down. *)
Definition hard_view (c : ClassifiedCheck) : bool * bool :=
  (is_class SignalCredentialFailure c, is_class SignalInfrastructureFailure c).

Lemma last_of_fmap {A B} (f : A → B) n l : last_of n (f <$> l) = f <$> last_of n l.
Proof. unfold last_of. rewrite length_fmap. destruct (_ <? _)%nat; [by rewrite fmap_drop|done]. Qed.

Lemma countClass_view l :
  countClass l SignalInfrastructureFailure =
  foldl (λ n (b : bool), if b then (n + 1)%Z else n) 0%Z ((hard_view <$> l).*2).
Proof.
  unfold countClass. generalize 0%Z. induction l as [|c l IH]; intros n; [done|]. simpl.
  by rewrite IH.
Qed.

Lemma trailing_view l l' :
  hard_view <$> l = hard_view <$> l' →
  trailingClassCount l SignalInfrastructureFailure = trailingClassCount l' SignalInfrastructureFailure.
Proof.
  unfold trailingClassCount. intros H. apply (f_equal reverse) in H. rewrite <-!fmap_reverse in H.
  revert H. generalize (reverse l) (reverse l'). clear.
  induction l as [|c l IH]; intros [|c' l'] H; simplify_eq/=; [done|].
  unfold hard_view in *. simplify_eq. rewrite (IH l') by done.
  by match goal with H : is_class _ c = _ |- _ => rewrite H end.
Qed.

Lemma evidence_view policy i l l' :
  hard_view <$> l = hard_view <$> l' → pause_evidence policy i l = pause_evidence policy i l'.
Proof.
  intros H. unfold pause_evidence, infrastructure_down, credential_rejected.
  rewrite (trailing_view l l' H), !countClass_view, <-!last_of_fmap, H. do 2 f_equal.
  apply (f_equal last) in H. rewrite !fmap_last in H. unfold hard_view in H.
  destruct (last l), (last l'); simplify_eq/=; congruence.
Qed.

(** ** Merging repeated checks *)

Definition dated (c : Check) : bool := negb (is_zero_time (ck_CheckedAt c)).
Definition key (c : Check) : Z := unix_nano (ck_CheckedAt c).

(** The checks of a list with the timestamp of [c]. *)
Definition same_time (c : Check) (l : list Check) : list Check :=
  filter (λ d, dated d = true ∧ key d = key c) l.

(** The last word of [l] on the timestamp of [c]. *)
Definition latest (l : list Check) (c : Check) : Check :=
  if dated c then default c (last (same_time c l)) else c.

(** The reference: at the first check of each timestamp, the last one of it. *)
Fixpoint merged (seen : gset Z) (l : list Check) : list Check :=
  match l with
  | [] => []
  | c :: l =>
      if dated c then
        if bool_decide (key c ∈ seen) then merged seen l
        else latest l c :: merged ({[key c]} ∪ seen) l
      else c :: merged seen l
  end.

Definition positioned (res : list Check) (pos : gmap Z nat) : Prop :=
  ∀ k p, pos !! k = Some p ↔ ∃ c, res !! p = Some c ∧ dated c = true ∧ key c = k.

Lemma latest_undated l c d : dated c = false → latest (c :: l) d = latest l d.
Proof.
  intros Hc. unfold latest, same_time. destruct (dated d); [|done].
  rewrite filter_cons_False; [done|]. rewrite Hc. naive_solver.
Qed.

Lemma latest_other l c d : key c ≠ key d → latest (c :: l) d = latest l d.
Proof.
  intros Hc. unfold latest, same_time. destruct (dated d); [|done].
  rewrite filter_cons_False; [done|naive_solver].
Qed.

Lemma latest_same l c d :
  dated c = true → dated d = true → key c = key d → latest (c :: l) d = latest l c.
Proof.
  intros Hc Hd Hk. unfold latest. rewrite Hc, Hd. unfold same_time.
  rewrite filter_cons_True by done.
  assert (filter (λ e, dated e = true ∧ key e = key d) l =
    filter (λ e, dated e = true ∧ key e = key c) l) as ->.
  { apply list_filter_iff. intros e. by rewrite Hk. }
  by rewrite last_cons; destruct (last _).
Qed.

Lemma merge_step res pos c :
  positioned res pos →
  positioned (deduplicate_step (res, pos) c).1 (deduplicate_step (res, pos) c).2.
Proof.
  intros Hpos. unfold deduplicate_step. fold (key c).
  destruct (is_zero_time _) eqn:Hz.
  { intros k p. cbn [fst snd]. rewrite (Hpos k p). split.
    - intros (d & Hd & ?). exists d. split; [by apply lookup_app_l_Some|done].
    - intros (d & [Hd|[_ Hd]]%lookup_app_Some & Hdated & ?); [by exists d|].
      apply list_lookup_singleton_Some in Hd as [_ <-]. unfold dated in Hdated.
      by rewrite Hz in Hdated. }
  destruct (pos !! key c) as [q|] eqn:Hq.
  - intros k p. cbn [fst snd]. pose proof (proj1 (Hpos _ _) Hq) as (d & Hd & Hdd & Hdk).
    rewrite (Hpos k p). destruct (decide (p = q)) as [->|Hne].
    + rewrite list_lookup_insert_eq by by eapply lookup_lt_Some. split.
      * intros (d' & Hd' & Hdd' & Hk). exists c. unfold dated. rewrite Hz. split_and!; [done..|].
        congruence.
      * intros (d' & [= <-] & _ & Hk). exists d. split_and!; [done..|congruence].
    + by rewrite list_lookup_insert_ne.
  - intros k p. cbn [fst snd]. destruct (decide (k = key c)) as [->|Hne].
    + rewrite lookup_insert_eq. split.
      * intros [= <-]. exists c. rewrite lookup_app_r, Nat.sub_diag by done.
        unfold dated. by rewrite Hz.
      * intros (d & [Hd|[Hp Hd]]%lookup_app_Some & Hdd & Hk).
        -- assert (pos !! key c = Some p) as H by (apply Hpos; eauto). congruence.
        -- apply list_lookup_singleton_Some in Hd as [Hp' _]. f_equal. lia.
    + rewrite lookup_insert_ne by done. rewrite (Hpos k p). split.
      * intros (d & Hd & ?). exists d. split; [by apply lookup_app_l_Some|done].
      * intros (d & [Hd|[Hp Hd]]%lookup_app_Some & Hdd & Hk); [by exists d|].
        apply list_lookup_singleton_Some in Hd as [_ <-]. congruence.
Qed.

Lemma merge_fold l res pos :
  positioned res pos →
  (foldl deduplicate_step (res, pos) l).1 = (latest l <$> res) ++ merged (dom pos) l.
Proof.
  revert res pos. induction l as [|c l IH]; intros res pos Hpos.
  { simpl. rewrite app_nil_r. symmetry. etrans; [|apply list_fmap_id]. apply list_fmap_ext.
    intros i d _. unfold latest, same_time. by destruct (dated d). }
  pose proof (merge_step res pos c Hpos) as Hpos'. cbn [foldl].
  destruct (deduplicate_step (res, pos) c) as [res' pos'] eqn:Hstep. cbn [fst snd] in Hpos'.
  rewrite (IH _ _ Hpos').
  unfold deduplicate_step in Hstep. fold (key c) in Hstep. cbn [merged]. unfold dated at 1.
  destruct (is_zero_time _) eqn:Hz; cbn [negb].
  { injection Hstep as <- <-. rewrite fmap_app, <-app_assoc. f_equal.
    - apply list_fmap_ext. intros i d _. symmetry. apply latest_undated. unfold dated. by rewrite Hz.
    - simpl. unfold latest, dated. by rewrite Hz. }
  assert (dated c = true) as Hc by (unfold dated; by rewrite Hz).
  destruct (pos !! key c) as [q|] eqn:Hq; injection Hstep as <- <-.
  - rewrite bool_decide_true by by apply elem_of_dom_2 in Hq. f_equal.
    pose proof (proj1 (Hpos _ _) Hq) as (d & Hd & Hdd & Hdk).
    apply list_eq. intros p. rewrite list_fmap_insert, list_lookup_fmap.
    destruct (decide (p = q)) as [->|Hne].
    + rewrite list_lookup_insert_eq by (rewrite length_fmap; by eapply lookup_lt_Some).
      rewrite Hd. simpl. f_equal. symmetry. by apply latest_same.
    + rewrite list_lookup_insert_ne, list_lookup_fmap by done.
      destruct (res !! p) as [e|] eqn:He; [|done]. simpl. f_equal.
      destruct (dated e) eqn:Hde; [|unfold latest; by rewrite Hde].
      symmetry. apply latest_other. intros Hk.
      assert (pos !! key c = Some p) by (apply Hpos; eauto). congruence.
  - rewrite bool_decide_false by by apply not_elem_of_dom.
    rewrite dom_insert_L, fmap_app, <-app_assoc. f_equal.
    apply list_fmap_ext. intros p e He.
    destruct (dated e) eqn:Hde; [|unfold latest; by rewrite Hde].
    symmetry. apply latest_other. intros Hk.
    assert (pos !! key c = Some p) by (apply Hpos; eauto). congruence.
Qed.

Lemma merged_equation l : deduplicateChecks l = merged ∅ l.
Proof.
  unfold deduplicateChecks. rewrite merge_fold; [by rewrite dom_empty_L|].
  intros k p. rewrite lookup_empty. split; [done|]. by intros (c & Hc & _).
Qed.

Lemma key_latest l c : key (latest l c) = key c ∧ dated (latest l c) = dated c.
Proof.
  unfold latest. destruct (dated c) eqn:Hc; [|done].
  destruct (last (same_time c l)) as [d|] eqn:Hd; [|done].
  apply last_Some_elem_of, list_elem_of_filter in Hd as [[? ?] _]. done.
Qed.

(** The timestamps of a merged list are those not seen before, each once. *)
Lemma merged_keys seen l :
  NoDup (key <$> filter (λ c, dated c = true) (merged seen l))
  ∧ (∀ k, k ∈ key <$> filter (λ c, dated c = true) (merged seen l) ↔
          k ∉ seen ∧ k ∈ key <$> filter (λ c, dated c = true) l).
Proof.
  revert seen. induction l as [|c l IH]; intros seen; simpl.
  { split; [constructor|]. intros k. rewrite !elem_of_nil. naive_solver. }
  destruct (dated c) eqn:Hc.
  - rewrite (filter_cons_True _ c) by done. case_bool_decide as Hseen.
    + destruct (IH seen) as [Hnd Hk]. split; [done|]. intros k. rewrite Hk, fmap_cons, elem_of_cons.
      set_solver.
    + destruct (IH ({[key c]} ∪ seen)) as [Hnd Hk]. destruct (key_latest l c) as [Hkl Hdl].
      rewrite filter_cons_True by by rewrite Hdl. rewrite !fmap_cons, Hkl. split.
      * constructor; [|done]. rewrite Hk. set_solver.
      * intros k. rewrite !elem_of_cons, Hk. destruct (decide (k = key c)); set_solver.
  - rewrite !filter_cons_False by by rewrite Hc. apply IH.
Qed.

(** ** The ninetieth percentile *)

Definition at_most (v : Z) (l : list Z) : Z := Z.of_nat (length (filter (λ x, x ≤ v)%Z l)).
Definition below (v : Z) (l : list Z) : Z := Z.of_nat (length (filter (λ x, x < v)%Z l)).

(** The index of the source, exactly [⌈9n/10⌉ - 1], for the histories an evaluation is
    given: the engine reads sixty records, and a thousand are covered here. *)
Definition index_exact (n : nat) : bool :=
  let index := (ceil_int (of_int (Z.of_nat n) * ninety_percent)%float - 1)%Z in
  (0 <=? index)%Z && (index <? Z.of_nat n)%Z
  && (9 * Z.of_nat n <=? 10 * (index + 1))%Z && (10 * index <? 9 * Z.of_nat n)%Z.

Lemma indices_exact : forallb index_exact (seq 1 1000) = true.
Proof. vm_compute. reflexivity. Qed.

Lemma index_exact_bounded n : (1 ≤ n ≤ 1000)%nat → index_exact n = true.
Proof.
  intros Hn. pose proof indices_exact as H. rewrite forallb_forall in H. apply H, in_seq. lia.
Qed.

Lemma sorted_counts l i v :
  StronglySorted (not_after Z.ltb) l → l !! i = Some v →
  (Z.of_nat i + 1 ≤ at_most v l)%Z ∧ (below v l ≤ Z.of_nat i)%Z.
Proof.
  unfold at_most, below. intros Hl. revert i. induction Hl as [|x l Hl IH Hx]; intros i Hi; [done|].
  rewrite Forall_forall in Hx. unfold not_after in Hx.
  destruct i as [|i]; simplify_eq/=.
  - rewrite filter_cons_True, filter_cons_False by lia. simpl. split; [lia|].
    assert (filter (λ x, x < v)%Z l = []) as ->; [|done].
    apply elem_of_nil_inv. intros y [Hy Hin]%list_elem_of_filter. specialize (Hx y Hin). bool_facts. lia.
  - destruct (IH i Hi) as [IH1 IH2].
    assert (x ≤ v)%Z by (specialize (Hx v ltac:(by eapply list_elem_of_lookup_2)); bool_facts; lia).
    rewrite filter_cons_True by done. split; [simpl; lia|].
    destruct (decide (x < v)%Z); [rewrite filter_cons_True by done|rewrite filter_cons_False by done];
      simpl; lia.
Qed.

Lemma counts_permutation v l l' : l ≡ₚ l' → at_most v l = at_most v l' ∧ below v l = below v l'.
Proof. intros H. unfold at_most, below. by rewrite H. Qed.

(** ** Merging and the hard view *)

Section views.
Context `{UnicodeTables}.

Definition as_hard (c d : Check) : Prop :=
  ck_CheckedAt c = ck_CheckedAt d ∧ hard_view (ClassifyCheck c) = hard_view (ClassifyCheck d).

Lemma merge_as_hard l l' res res' pos :
  Forall2 as_hard l l' → Forall2 as_hard res res' →
  Forall2 as_hard (foldl deduplicate_step (res, pos) l).1 (foldl deduplicate_step (res', pos) l').1.
Proof.
  intros Hl. revert res res' pos. induction Hl as [|c d l l' [Hat Hcd] Hl IH];
    intros res res' pos Hres; [done|].
  cbn [foldl]. unfold deduplicate_step at 2 4. rewrite <-Hat.
  destruct (is_zero_time _); [apply IH; apply Forall2_app; [done|by repeat constructor]|].
  rewrite (Forall2_length _ _ _ Hres).
  destruct (pos !! _); apply IH; [by apply Forall2_insert|].
  apply Forall2_app; [done|by repeat constructor].
Qed.

Lemma hard_views i j :
  Forall2 as_hard (vi_Checks i) (vi_Checks j) →
  hard_view <$> classified_checks i = hard_view <$> classified_checks j.
Proof.
  intros Hc. unfold classified_checks, deduplicateChecks.
  pose proof (merge_as_hard _ _ [] [] ∅ Hc ltac:(constructor)) as Hm.
  induction Hm as [|c d l l' [_ Hcd] _ IH]; [done|]. rewrite !fmap_cons. by f_equal.
Qed.
End views.

(** ** Classification *)

(** What each class means for the account: is it a hard failure, does it count for the
    availability, is it a success. *)
Definition signal_profile (class : SignalClass) : option (bool * bool * bool) :=
  if bool_decide (class ∈ [SignalCredentialFailure; SignalInfrastructureFailure])
  then Some (true, true, false) else
  if bool_decide (class = SignalCapacityLimited) then Some (false, true, false) else
  if bool_decide (class ∈ [SignalOperational; SignalPerformanceSlow; SignalSemanticMismatch])
  then Some (false, true, true) else
  if bool_decide (class ∈ [SignalClientError; SignalModelUnsupported; SignalUnknown])
  then Some (false, false, false) else None.

(** Splits a condition of the classifier into its alternatives. *)
Ltac split_or :=
  repeat match goal with
  | H : _ || _ = true |- _ => apply orb_true_iff in H as [H|H]
  end.

(** Settles the consistency of one branch of the classifier. *)
Ltac class_case :=
  cbn [cc_Check cc_Class cc_HardFailure cc_CountedInAvailability cc_AvailabilitySuccess];
  split_and!; [done|by vm_compute|..];
  first
    [ done
    | let Hd := fresh in
      intros [Hd|Hd]; [congruence|]; rewrite !elem_of_cons, elem_of_nil in Hd; bool_facts; lia
    | intros _; bool_facts; first [by right | left; lia]
    | intros _ _; first [by auto | split_or; bool_facts; first [right; left; lia | set_solver]] ].

Section classification.
Context `{UnicodeTables}.

(** Classification is total and consistent: the class fixes whether a check is a
    hard failure, counts for the availability and is a success; a rejected credential
    is always recognised; a success has an HTTP status below 400 unless only its content
    was wrong; and no failure is counted without evidence, an HTTP error, a message, an
    undecipherable key or a status that says so. *)
Theorem ClassifyCheck_consistent (check : Check) :
  let c := ClassifyCheck check in
  let status := to_lower (trim_space (ck_Status check)) in
  cc_Check c = check
  ∧ signal_profile (cc_Class c) =
      Some (cc_HardFailure c, cc_CountedInAvailability c, cc_AvailabilitySuccess c)
  ∧ (ck_DecryptFailed check = true ∨ ck_HTTPStatus check ∈ [401; 403]%Z →
     cc_Class c = SignalCredentialFailure)
  ∧ (cc_AvailabilitySuccess c = true →
     (ck_HTTPStatus check < 400)%Z ∨ cc_Class c = SignalSemanticMismatch)
  ∧ (cc_CountedInAvailability c = true → cc_AvailabilitySuccess c = false →
     ck_DecryptFailed check = true ∨ (400 ≤ ck_HTTPStatus check)%Z
     ∨ to_lower (trim_space (ck_Message check)) ≠ "" ∨ status ∈ ["failed"; "error"; "unhealthy"]).
Proof.
  cbv zeta. unfold ClassifyCheck.
  destruct (decide (to_lower (trim_space (ck_Message check)) = "")) as [Hm|Hm].
  - rewrite Hm.
    change (existsb (contains "") credential_words) with false.
    change (existsb (contains "") model_words) with false.
    change (existsb (contains "") semantic_words) with false.
    change (existsb (contains "") client_words) with false.
    change (existsb (contains "") capacity_words) with false.
    change (existsb (contains "") infrastructure_words) with false.
    change (messageHasHTTPStatus "" [502; 503; 520; 522]%Z) with false.
    repeat case_goal; class_case.
  - repeat case_goal; class_case.
Qed.
End classification.

(** ** The properties of an evaluation *)

(** C10: The verdict of an evaluation is coherent: the action and the suggested load
    agree, and there are five of them; the quality lies between 0 and 100; one
    infrastructure or capacity failure among the last ten checks bounds the load by 50,
    two by 25; and a load below 100 is explained by a reason other than good health. *)
Theorem EvaluateV3_verdict `{UnicodeTables} (input : V3Input) :
  let result := EvaluateV3 input in
  let last10 := last_of 10 (classified_checks input) in
  let failures class n := (n <= countClass last10 class)%Z in
  (vr_Pause result, vr_SuggestedLoadPercent result, vr_Action result) ∈
    [(false, 100, RecommendationFull); (false, 80, RecommendationReduce80);
     (false, 50, RecommendationReduce50); (false, 25, RecommendationReduce25);
     (true, 0, RecommendationPause)]%Z
  ∧ fle (of_int 0) (vr_QualityScore result) = true
  ∧ fle (vr_QualityScore result) (of_int 100) = true
  ∧ (failures SignalInfrastructureFailure 1 ∨ failures SignalCapacityLimited 1 →
     vr_SuggestedLoadPercent result ≤ 50)%Z
  ∧ (failures SignalInfrastructureFailure 2 ∨ failures SignalCapacityLimited 2 →
     vr_SuggestedLoadPercent result ≤ 25)%Z
  ∧ (vr_SuggestedLoadPercent result < 100 → ∃ code, code ∈ vr_ReasonCodes result ∧ code ≠ "healthy")%Z.
Proof.
  cbv zeta.
  destruct (evaluation_facts input) as (Hco & _ & _ & _ & Hcap & Hq0 & Hq1 & -> & -> & -> & _ & Hwhy).
  destruct (availability_counts (classified_checks input)) as (_ & Hi & Hc).
  unfold failure_cap in Hcap. rewrite Hi, Hc in Hcap. split_and!; [|done|done| | |].
  - unfold standing, coherent, levels in Hco.
    destruct (vr_Pause _); [destruct Hco as [-> ->]; listed|].
    repeat (apply elem_of_cons in Hco as [Hco|Hco]; [injection Hco as -> ->; listed|]).
    by apply elem_of_nil in Hco.
  - intros Hf. repeat (case_match; bool_facts); lia.
  - intros Hf. destruct (_ || _) eqn:E in Hcap; [lia|]. bool_facts. lia.
  - intros Hl. destruct Hwhy as [?|Hwhy]; [lia|].
    apply Exists_exists in Hwhy as (d & Hd & Hne). exists (dr_Code d). split; [|done].
    apply list_elem_of_fmap. by exists d.
Qed.

(** C11: A pause rests on hard evidence alone: it is decided by [pause_evidence] (the
    latest check rejects the credential, the real traffic fails, or the infrastructure
    fails and the traffic does not show the contrary), so two inputs whose checks agree
    on credentials and infrastructure, with the same traffic and limits, are paused
    alike, however slow their answers, whatever their baselines, long-term record and
    quality thresholds. *)
Theorem pause_rests_on_hard_evidence `{UnicodeTables} (i j : V3Input) :
  Forall2 as_hard (vi_Checks i) (vi_Checks j) → pause_input i = pause_input j →
  vr_Pause (EvaluateV3 i) = pause_evidence (normalizeV3Policy i) i (classified_checks i)
  ∧ vr_Pause (EvaluateV3 i) = vr_Pause (EvaluateV3 j).
Proof.
  intros Hc Hi.
  destruct (evaluation_facts i) as (_ & _ & _ & -> & _), (evaluation_facts j) as (_ & _ & _ & -> & _).
  split; [done|]. rewrite (evidence_view _ i _ _ (hard_views i j Hc)).
  unfold pause_input in Hi. injection Hi as Ht Hm Hs Hw Hb Hh.
  pose proof (pause_policy_normal i) as Hp. rewrite Hm, Hs, Hw, Hb, Hh in Hp.
  rewrite <-pause_policy_normal in Hp. unfold pause_policy in Hp. injection Hp as Pm Ps Pw Pb Ph.
  unfold pause_evidence, infrastructure_down, traffic_healthy, traffic_unhealthy,
    has_enough_traffic, minimum_traffic.
  by rewrite Ht, Hm, Pm, Ps, Pw, Pb, Ph.
Qed.

(** Three checks of an account that answers, the last two slowly, and of one whose
    upstream is down. *)
Definition answers (latency : Z) : V3Input :=
  mkV3Input [mkCheck 1 "operational" 200 "" 900 false 6000;
             mkCheck 2 "operational" 200 "" latency false 6000;
             mkCheck 3 "degraded" 200 "" latency false 6000]
    (of_int 1000) None (mkRealTraffic 0 0) 0 0 0 (of_int 0) (of_int 0) 0 0 (of_int 0) (of_int 0)
    (of_int 0) (of_int 0).
Definition outage : V3Input :=
  (answers 900) <| vi_Checks := [mkCheck 1 "failed" 502 "" 0 false 6000;
    mkCheck 2 "error" 0 "dial tcp: Timeout" 0 false 6000; mkCheck 3 "failed" 500 "" 0 false 6000] |>.

Lemma pause_rests_on_hard_evidence_witness :
  vr_Pause (@EvaluateV3 plain_tables outage) = true
  ∧ vr_SuggestedLoadPercent (@EvaluateV3 plain_tables (answers 90000)) = 80%Z
  ∧ vr_Pause (@EvaluateV3 plain_tables (answers 900)) = vr_Pause (@EvaluateV3 plain_tables (answers 90000)).
Proof.
  split_and!; [by vm_compute..|].
  refine (proj2 (@pause_rests_on_hard_evidence plain_tables (answers 900) (answers 90000) _ _));
    [|reflexivity].
  repeat (constructor; [by vm_compute|]). constructor.
Defined.

(** Repeated checks are merged as documented: the result is the reference [merged],
    which keeps, where a timestamp first occurs, the last check with it, and every check
    without a timestamp; so the timestamps of the result are those of the input, each
    once. *)
Theorem deduplicateChecks_correct (checks : list Check) :
  deduplicateChecks checks = merged ∅ checks
  ∧ NoDup (key <$> filter (λ c, dated c = true) (deduplicateChecks checks))
  ∧ (∀ k, k ∈ key <$> filter (λ c, dated c = true) (deduplicateChecks checks) ↔
          k ∈ key <$> filter (λ c, dated c = true) checks).
Proof.
  rewrite merged_equation. destruct (merged_keys ∅ checks) as [Hnd Hk].
  split_and!; [done..|]. intros k. rewrite Hk. set_solver.
Qed.

(** The latency an evaluation judges is the nearest-rank ninetieth percentile: one
    of the values, with at least nine tenths of them at most as large and fewer than
    nine tenths smaller; rounding [0.9 * n] never moves it. *)
Theorem percentile90_correct (values : list Z) :
  (1 ≤ length values ≤ 1000)%nat →
  let n := Z.of_nat (length values) in
  percentile90 values ∈ values
  ∧ (9 * n ≤ 10 * at_most (percentile90 values) values)%Z
  ∧ (10 * below (percentile90 values) values < 9 * n)%Z.
Proof.
  intros Hn. cbv zeta.
  pose proof (index_exact_bounded _ Hn) as Hi. unfold index_exact in Hi.
  assert (percentile90 values =
    default 0%Z (sort_slice Z.ltb values !! Z.to_nat
      (ceil_int (of_int (Z.of_nat (length values)) * ninety_percent)%float - 1))) as Hp.
  { unfold percentile90. destruct values as [|v values]; [simpl in Hn; lia|].
    rewrite length_sort_slice. bool_facts. by rewrite (proj2 (Z.ltb_ge _ _)) by lia. }
  set (index := (ceil_int _ - 1)%Z) in *. bool_facts.
  destruct (lookup_lt_is_Some_2 (sort_slice Z.ltb values) (Z.to_nat index)) as [v Hv].
  { rewrite length_sort_slice. lia. }
  rewrite Hv in Hp. simpl in Hp. rewrite Hp.
  destruct (sorted_counts _ _ _ (sort_slice_sorted Z.ltb values) Hv) as [Hat Hbelow].
  destruct (counts_permutation v _ _ (sort_slice_Permutation Z.ltb values)) as [<- <-].
  split_and!; [|lia|lia].
  rewrite <-(elem_of_sort_slice Z.ltb). by eapply list_elem_of_lookup_2.
Qed.

Lemma percentile90_correct_witness :
  percentile90 [7; 3; 10; 1; 9; 2; 8; 4; 6; 5]%Z = 9%Z ∧
  percentile90 [7; 3; 10; 1; 9; 2; 8; 4; 6; 5]%Z ∈ [7; 3; 10; 1; 9; 2; 8; 4; 6; 5]%Z.
Proof.
  split; [by vm_compute|].
  refine (proj1 (percentile90_correct [7; 3; 10; 1; 9; 2; 8; 4; 6; 5]%Z _)). simpl. lia.
Defined.
