(* ===== verification/Health.v ===== *)
(** * The health stages of a monitor

    [internal/health/health.go]: the settings and their repair, the score of an
    observation, the recovery check and the stages a monitor moves through. *)

From S2P Require Import Prelude GoStd Float Model ModelHealth JsonText.

(** ** Settings *)

(** The zero value, [model.Settings{}]. *)
Definition no_settings : Settings :=   mkSettings false "" "" 0 0 0 0 0 0 0 "" 0 0 0 0 0
    0 0 0 0 0 0 0 0 0 0 0 0 0 0 0 0 0 0 0 0 0 0 0 0 0 0 0 0 0 0 0 0 0 0 0 0 0 0 0.

Definition DefaultSettings : Settings :=
  no_settings
    <| st_HealthMode := HealthModeObserve |>
    <| st_HealthHealthyScore := 80%Z |>
    <| st_HealthWatchScore := 60%Z |>
    <| st_HealthQuarantineScore := 35%Z |>
    <| st_HealthMinSamples := 10%Z |>
    <| st_HealthLatencyWarningMS := 8000%Z |>
    <| st_HealthLatencyCriticalMS := 15000%Z |>
    <| st_HealthTrafficPauseBelow := 80%Z |>
    <| st_HealthTrafficHealthyAt := 95%Z |>
    <| st_HealthHardFailures10 := 5%Z |>
    <| st_HealthPersistentSlowRate := 40%Z |>
    <| st_HealthQuarantineMinutes := 5%Z |>
    <| st_HealthRecoveryWindow := 10%Z |>
    <| st_HealthRecoverySuccesses := 8%Z |>
    <| st_HealthTrialPercent := 25%Z |>
    <| st_HealthMidPercent := 50%Z |>
    <| st_HealthDegradedPercent := 50%Z |>
    <| st_HealthTrialMinutes := 5%Z |>
    <| st_HealthLoadOverrideMinutes := 30%Z |>.

(** [if cond { settings.Field = value }] *)
Definition repair (cond : Settings → bool) (f : Settings → Settings) (s : Settings) : Settings :=
  if cond s then f s else s.

(** Statements in sequence. *)
Definition in_sequence (steps : list (Settings → Settings)) (s : Settings) : Settings :=
  foldl (λ s step, step s) s steps.

Definition NormalizeSettings (settings : Settings) : Settings :=
  in_sequence [
    repair (λ s, negb (bool_decide (st_HealthMode s = HealthModeLegacy))
                 && negb (bool_decide (st_HealthMode s = HealthModeObserve))
                 && negb (bool_decide (st_HealthMode s = HealthModeAdaptive)))
      (λ s, s <| st_HealthMode := st_HealthMode DefaultSettings |>);
    repair (λ s, (st_HealthHealthyScore s <=? 0)%Z || (100 <? st_HealthHealthyScore s)%Z)
      (λ s, s <| st_HealthHealthyScore := st_HealthHealthyScore DefaultSettings |>);
    repair (λ s, (st_HealthWatchScore s <=? 0)%Z
                 || (st_HealthHealthyScore s <=? st_HealthWatchScore s)%Z)
      (λ s, s <| st_HealthWatchScore := st_HealthWatchScore DefaultSettings |>);
    repair (λ s, (st_HealthQuarantineScore s <=? 0)%Z
                 || (st_HealthWatchScore s <=? st_HealthQuarantineScore s)%Z)
      (λ s, s <| st_HealthQuarantineScore := st_HealthQuarantineScore DefaultSettings |>);
    repair (λ s, (st_HealthMinSamples s <=? 0)%Z)
      (λ s, s <| st_HealthMinSamples := st_HealthMinSamples DefaultSettings |>);
    repair (λ s, (st_HealthLatencyWarningMS s <=? 0)%Z)
      (λ s, s <| st_HealthLatencyWarningMS := st_HealthLatencyWarningMS DefaultSettings |>);
    repair (λ s, (st_HealthLatencyCriticalMS s <=? st_HealthLatencyWarningMS s)%Z)
      (λ s, repair (λ s, (st_HealthLatencyCriticalMS s <=? st_HealthLatencyWarningMS s)%Z)
               (λ s, s <| st_HealthLatencyCriticalMS :=
               wrap64 (st_HealthLatencyWarningMS s * 2) |>)
               (s <| st_HealthLatencyCriticalMS :=
               st_HealthLatencyCriticalMS DefaultSettings |>));
    repair (λ s, (st_HealthTrafficPauseBelow s <=? 0)%Z
                 || (100 <=? st_HealthTrafficPauseBelow s)%Z)
      (λ s, s <| st_HealthTrafficPauseBelow := st_HealthTrafficPauseBelow DefaultSettings |>);
    repair (λ s, (st_HealthTrafficHealthyAt s <=? st_HealthTrafficPauseBelow s)%Z
                 || (100 <? st_HealthTrafficHealthyAt s)%Z)
      (λ s, s <| st_HealthTrafficHealthyAt := st_HealthTrafficHealthyAt DefaultSettings |>);
    repair (λ s, (st_HealthHardFailures10 s <=? 0)%Z)
      (λ s, s <| st_HealthHardFailures10 := st_HealthHardFailures10 DefaultSettings |>);
    repair (λ s, (st_HealthPersistentSlowRate s <=? 0)%Z
                 || (100 <? st_HealthPersistentSlowRate s)%Z)
      (λ s, s <| st_HealthPersistentSlowRate := st_HealthPersistentSlowRate DefaultSettings |>);
    repair (λ s, (st_HealthQuarantineMinutes s <=? 0)%Z)
      (λ s, s <| st_HealthQuarantineMinutes := st_HealthQuarantineMinutes DefaultSettings |>);
    repair (λ s, (st_HealthRecoveryWindow s <? 2)%Z)
      (λ s, s <| st_HealthRecoveryWindow := st_HealthRecoveryWindow DefaultSettings |>);
    repair (λ s, (st_HealthRecoverySuccesses s <=? 0)%Z
                 || (st_HealthRecoveryWindow s <? st_HealthRecoverySuccesses s)%Z)
      (λ s, s <| st_HealthRecoverySuccesses :=
               Z.min (st_HealthRecoverySuccesses DefaultSettings) (st_HealthRecoveryWindow s) |>);
    repair (λ s, (st_HealthTrialPercent s <=? 0)%Z || (100 <? st_HealthTrialPercent s)%Z)
      (λ s, s <| st_HealthTrialPercent := st_HealthTrialPercent DefaultSettings |>);
    repair (λ s, (st_HealthMidPercent s <=? 0)%Z || (100 <? st_HealthMidPercent s)%Z)
      (λ s, s <| st_HealthMidPercent := st_HealthMidPercent DefaultSettings |>);
    repair (λ s, (st_HealthDegradedPercent s <=? 0)%Z || (100 <? st_HealthDegradedPercent s)%Z)
      (λ s, s <| st_HealthDegradedPercent := st_HealthDegradedPercent DefaultSettings |>);
    repair (λ s, (st_HealthTrialMinutes s <=? 0)%Z)
      (λ s, s <| st_HealthTrialMinutes := st_HealthTrialMinutes DefaultSettings |>);
    repair (λ s, (st_HealthLoadOverrideMinutes s <=? 0)%Z)
      (λ s, s <| st_HealthLoadOverrideMinutes := st_HealthLoadOverrideMinutes DefaultSettings |>)
  ] settings.

(** [if policy.Field != nil { settings.Field = *policy.Field }] *)
Definition override {T} (value : option T) (f : T → Settings → Settings) (s : Settings) : Settings :=
  match value with Some v => f v s | None => s end.

Definition ResolveSettings (settings : Settings) (policy : Policy) : Settings :=
  NormalizeSettings (in_sequence [
    override (pol_HealthHealthyScore policy) (λ v s, s <| st_HealthHealthyScore := v |>);
    override (pol_HealthWatchScore policy) (λ v s, s <| st_HealthWatchScore := v |>);
    override (pol_HealthQuarantineScore policy) (λ v s, s <| st_HealthQuarantineScore := v |>);
    override (pol_HealthMinSamples policy) (λ v s, s <| st_HealthMinSamples := v |>);
    override (pol_HealthLatencyWarningMS policy) (λ v s, s <| st_HealthLatencyWarningMS := v |>);
    override (pol_HealthLatencyCriticalMS policy) (λ v s, s <| st_HealthLatencyCriticalMS := v |>);
    override (pol_HealthTrafficPauseBelow policy) (λ v s, s <| st_HealthTrafficPauseBelow := v |>);
    override (pol_HealthTrafficHealthyAt policy) (λ v s, s <| st_HealthTrafficHealthyAt := v |>);
    override (pol_HealthHardFailures10 policy) (λ v s, s <| st_HealthHardFailures10 := v |>);
    override (pol_HealthPersistentSlowRate policy) (λ v s, s <| st_HealthPersistentSlowRate := v |>)
  ] (NormalizeSettings settings)).

(** ** Observations *)

Definition reasonsJSON (reasons : list string) : string :=
  json_array reasons.

Section health.
Context `{UnicodeTables}.

Definition normalizedStatus (status : string) : string := to_lower (trim_space status).

Definition is_status (status : string) (s : string) : bool :=
  bool_decide (normalizedStatus s = status).

Definition frozenReason (monitor : Monitor) (now : time) : string :=
  if negb (mon_Enabled monitor) then "监控已关闭，保持账号现状" else
  match mon_LastCheckedAt monitor with
  | None => "监控暂无检测数据，保持账号现状"
  | Some checked =>
      let staleAfter := wrap64 (wrap64 (mon_IntervalSeconds monitor * 3) * second) in
      let staleAfter := if (staleAfter <? 3 * minute)%Z then (3 * minute)%Z else staleAfter in
      if (staleAfter <? sub_time now checked)%Z then "监控结果长时间未更新，保持账号现状" else
      if bool_decide (normalizedStatus (mon_PrimaryStatus monitor) ∈
           [StatusOperational; StatusDegraded; StatusFailed; StatusError])
      then "" else "监控状态未知，保持账号现状"
  end.

Definition count_extra (o : MonitorObservation) (extra : MonitorModelStatus) : MonitorObservation :=
  let status := normalizedStatus (mms_Status extra) in
  if bool_decide (status = StatusOperational) then o <| obs_ExtraOK := (obs_ExtraOK o + 1)%Z |> else
  if bool_decide (status = StatusDegraded)
  then o <| obs_ExtraDegraded := (obs_ExtraDegraded o + 1)%Z |> else
  if bool_decide (status = StatusFailed) || bool_decide (status = StatusError)
  then o <| obs_ExtraFailed := (obs_ExtraFailed o + 1)%Z |> else o.

(** [LastCheckedAt] is present: [frozenReason] is asked first. *)
Definition observationFromMonitor (monitor : Monitor) (now : time) : MonitorObservation :=
  let observation := no_observation
    <| obs_MonitorID := mon_ID monitor |>
    <| obs_CheckedAt := default zero_time (mon_LastCheckedAt monitor) |>
    <| obs_Status := normalizedStatus (mon_PrimaryStatus monitor) |>
    <| obs_LatencyMS := mon_PrimaryLatencyMS monitor |>
    <| obs_DecryptFailed := mon_DecryptFailed monitor |>
    <| obs_CreatedAt := now |> in
  let observation := match mon_Availability7D monitor with
                     | Some a => observation <| obs_Availability7D := a |>
                     | None => observation end in
  foldl count_extra observation (mon_ExtraModels monitor ++ mon_ExtraModelsStatus monitor).

Definition containsCheckedAt (observations : list MonitorObservation) (checkedAt : time) : bool :=
  existsb (λ o, (obs_CheckedAt o =? checkedAt)%Z) observations.

(** One observation per timestamp, in the order of time. *)
Definition mergeObservations (history : list MonitorObservation) (current : MonitorObservation)
    (now : time) : list MonitorObservation :=
  let cutoff := (now + - 24 * hour)%Z in
  let byCheckedAt := foldl (λ (m : gmap Z MonitorObservation) o,
    if before (obs_CheckedAt o) cutoff || after (obs_CheckedAt o) (now + minute)%Z then m
    else <[unix_nano (obs_CheckedAt o) := o]> m) ∅ history in
  let byCheckedAt := if is_zero_time (obs_CheckedAt current) then byCheckedAt
                     else <[unix_nano (obs_CheckedAt current) := current]> byCheckedAt in
  sort_slice (λ a b, before (obs_CheckedAt a) (obs_CheckedAt b)) (map_to_list byCheckedAt).*2.

Definition half : float64 := dyadic 1 (-1).

Definition availability_step (state : float64 * Z) (o : MonitorObservation) : float64 * Z :=
  let '(total, count) := state in
  let status := normalizedStatus (obs_Status o) in
  if bool_decide (status = StatusOperational) then ((total + of_int 1)%float, (count + 1)%Z) else
  if bool_decide (status = StatusDegraded) then ((total + half)%float, (count + 1)%Z) else
  if bool_decide (status = StatusFailed) || bool_decide (status = StatusError)
  then (total, (count + 1)%Z) else state.

Definition availability (observations : list MonitorObservation) (since : time) : float64 * Z :=
  let '(total, count) := foldl (λ state o,
    if before (obs_CheckedAt o) since then state else availability_step state o)
    (of_int 0, 0%Z) observations in
  if (count =? 0)%Z then (of_int 0, 0%Z)
  else ((total / of_int count * of_int 100)%float, count).

Definition latencyBaseline (observations : list MonitorObservation) (now : time) (minimum : Z)
    : float64 * Z :=
  let cutoff := (now + - 24 * hour)%Z in
  let latencies := obs_LatencyMS <$> filter (λ o,
    negb (before (obs_CheckedAt o) cutoff || after (obs_CheckedAt o) now
          || negb (is_status StatusOperational (obs_Status o)) || (obs_LatencyMS o <=? 0)%Z) = true)
    observations in
  let n := Z.of_nat (length latencies) in
  if (n <? minimum)%Z then (of_int 0, n) else
  let ordered := sort_slice Z.ltb latencies in
  let middle := (length latencies / 2)%nat in
  if (n mod 2 =? 1)%Z then (of_int (default 0%Z (ordered !! middle)), n)
  else ((of_int (wrap64 (default 0%Z (ordered !! (middle - 1)%nat)
                         + default 0%Z (ordered !! middle))) / of_int 2)%float, n).

Definition consecutiveFailures (observations : list MonitorObservation) (required : nat) : bool :=
  if (length observations <? required)%nat then false else
  forallb (λ o, is_status StatusFailed (obs_Status o) || is_status StatusError (obs_Status o))
    (drop (length observations - required) observations).

Definition lowScores (observations : list MonitorObservation) (window : nat)
    (required threshold : Z) : bool :=
  let observations := if (window <? length observations)%nat
                      then drop (length observations - window) observations else observations in
  let count := foldl (λ count o, if (obs_Score o <? of_int threshold)%float
                                 then (count + 1)%Z else count) 0%Z observations in
  (required <=? count)%Z.

(** ** The score of an observation *)

Definition penalize (points : float64) (reason : string) (state : float64 * list string)
    : float64 * list string :=
  let '(score, reasons) := state in
  if (points <=? of_int 0)%float then state else ((score - points)%float, reasons ++ [reason]).

Definition score_status (current : MonitorObservation) (state : float64 * list string)
    : float64 * list string :=
  let status := normalizedStatus (obs_Status current) in
  let state :=
    if bool_decide (status = StatusDegraded) then penalize (of_int 25) "本次检测结果为性能下降" state else
    if bool_decide (status = StatusFailed) then penalize (of_int 55) "本次检测失败" state else
    if bool_decide (status = StatusError) then penalize (of_int 65) "本次检测发生错误" state
    else state in
  let state := if obs_DecryptFailed current
               then penalize (of_int 100) "监控密钥解密失败，需要立即隔离" state else state in
  let extraPenalty := fmin (of_int 40)
    (of_int (wrap64 (obs_ExtraDegraded current * 8 + obs_ExtraFailed current * 20))) in
  if (extraPenalty >? of_int 0)%float then penalize extraPenalty "附加模型存在异常" state else state.

Definition score_availability (availability15 : float64) (samples15 : Z)
    (availability1H : float64) (samples1H : Z) (settings : Settings)
    (state : float64 * list string) : float64 * list string :=
  let state :=
    if (0 <? samples15)%Z then
      if (availability15 <? of_int 70)%float then penalize (of_int 45) "最近十五分钟可用率低于70%" state else
      if (availability15 <? of_int 80)%float then penalize (of_int 30) "最近十五分钟可用率低于80%" state else
      if (availability15 <? of_int 90)%float then penalize (of_int 15) "最近十五分钟可用率低于90%" state else
      if (availability15 <? of_int 95)%float then penalize (of_int 5) "最近十五分钟可用率低于95%" state
      else state
    else state in
  if (st_HealthMinSamples settings <=? samples1H)%Z then
    if (availability1H <? of_int 70)%float then penalize (of_int 10) "最近一小时稳定性持续偏低" state else
    if (availability1H <? of_int 80)%float then penalize (of_int 7) "最近一小时稳定性偏低" state else
    if (availability1H <? of_int 90)%float then penalize (of_int 4) "最近一小时稳定性需要观察" state else
    if (availability1H <? of_int 95)%float then penalize (of_int 2) "最近一小时存在轻微波动" state
    else state
  else state.

(** [latencyPenalty, latencyReason] after the thresholds and the baseline. *)
Definition latency_penalty (current : MonitorObservation) (baseline : float64) (baselineSamples : Z)
    (settings : Settings) : float64 * string :=
  let '(latencyPenalty, latencyReason) :=
    if (st_HealthLatencyCriticalMS settings <=? obs_LatencyMS current)%Z
    then (of_int 30, "当前响应时间超过严重阈值") else
    if (st_HealthLatencyWarningMS settings <=? obs_LatencyMS current)%Z
    then (of_int 15, "当前响应时间超过警告阈值") else (of_int 0, "") in
  if (st_HealthMinSamples settings <=? baselineSamples)%Z && (baseline >? of_int 0)%float
     && (0 <? obs_LatencyMS current)%Z then
    let ratio := (of_int (obs_LatencyMS current) / baseline)%float in
    if (ratio >=? of_int 3)%float then
      if (latencyPenalty <? of_int 30)%float then (of_int 30, "当前响应时间超过正常基准三倍")
      else (latencyPenalty, latencyReason)
    else if (ratio >=? of_int 2)%float then
      if (latencyPenalty <? of_int 15)%float then (of_int 15, "当前响应时间超过正常基准两倍")
      else (latencyPenalty, latencyReason)
    else if (ratio >=? dyadic 3 (-1))%float then
      if (latencyPenalty <? of_int 5)%float then (of_int 5, "当前响应时间超过正常基准一点五倍")
      else (latencyPenalty, latencyReason)
    else (latencyPenalty, latencyReason)
  else (latencyPenalty, latencyReason).

Definition score_seven_days (current : MonitorObservation) (state : float64 * list string)
    : float64 * list string :=
  let availability7 := obs_Availability7D current in
  if (availability7 >? of_int 0)%float then
    if (availability7 <? of_int 80)%float then penalize (of_int 10) "七天可用率低于80%" state else
    if (availability7 <? of_int 90)%float then penalize (of_int 6) "七天可用率低于90%" state else
    if (availability7 <? of_int 95)%float then penalize (of_int 3) "七天可用率低于95%" state
    else state
  else state.

Definition scoreObservation (current : MonitorObservation) (availability15 : float64)
    (samples15 : Z) (availability1H : float64) (samples1H : Z) (baseline : float64)
    (baselineSamples : Z) (settings : Settings) : float64 * list string :=
  let state := (of_int 100, []) in
  let state := score_status current state in
  let state := score_availability availability15 samples15 availability1H samples1H settings state in
  let '(points, reason) := latency_penalty current baseline baselineSamples settings in
  let state := penalize points reason state in
  let '(score, reasons) := score_seven_days current state in
  let reasons := if bool_decide (reasons = []) then ["各项健康指标正常"] else reasons in
  (fmax (of_int 0) (fmin (of_int 100) score), reasons).

(** ** Recovery *)

End health.

Record RecoveryResult := mkRecoveryResult {
  rr_Eligible : bool;
  rr_HealthyCount : Z;
  rr_RequiredHealthy : Z;
  rr_LastTwoHealthy : bool;
  rr_AvailabilityOK : bool;
  rr_LatencyOK : bool;
  rr_EnoughSamples : bool;
  rr_QuarantineElapsed : bool;
  rr_NextCondition : string;
}.

Section stages.
Context `{UnicodeTables}.

Definition CheckRecovery (observations : list MonitorObservation) (previous : MonitorHealthState)
    (availability7D : option float64) (baseline : float64) (settings : Settings) (now : time)
    : RecoveryResult :=
  let settings := NormalizeSettings settings in
  let unique := mergeObservations observations no_observation now in
  let ordered := sort_slice (λ a b, before (obs_CheckedAt a) (obs_CheckedAt b)) unique in
  let window := st_HealthRecoveryWindow settings in
  let ordered := if (window <? Z.of_nat (length ordered))%Z
                 then drop (length ordered - Z.to_nat window) ordered else ordered in
  let n := length ordered in
  let requiredHealthy :=
    match availability7D with
    | Some a => if (a <? of_int 80)%float then window else st_HealthRecoverySuccesses settings
    | None => st_HealthRecoverySuccesses settings
    end in
  let operational o := is_status StatusOperational (obs_Status o) in
  let healthyCount := foldl (λ count o, if operational o then (count + 1)%Z else count) 0%Z ordered in
  let enoughSamples := (window <=? Z.of_nat n)%Z in
  let lastTwoHealthy :=
    match ordered !! (n - 1)%nat, ordered !! (n - 2)%nat with
    | Some a, Some b => (2 <=? n)%nat && operational a && operational b
    | _, _ => false
    end in
  let '(availability15, samples15) := availability unique (now + - 15 * minute)%Z in
  let availabilityOK := (st_HealthMinSamples settings <=? samples15)%Z
                        && (availability15 >=? of_int 90)%float in
  let latencyOK :=
    match last ordered with
    | Some o =>
        let currentLatency := obs_LatencyMS o in
        if (baseline >? of_int 0)%float
        then (0 <? currentLatency)%Z && (of_int currentLatency <=? baseline * dyadic 3 (-1))%float
        else (0 <? currentLatency)%Z && (currentLatency <? st_HealthLatencyWarningMS settings)%Z
    | None => false
    end in
  let quarantineElapsed :=
    match hs_HoldUntil previous with None => true | Some hold => negb (before now hold) end in
  let eligible := enoughSamples && (requiredHealthy <=? healthyCount)%Z && lastTwoHealthy
                  && availabilityOK && latencyOK && quarantineElapsed in
  let nextCondition :=
    if negb quarantineElapsed then "等待最短隔离时间结束" else
    if negb enoughSamples then "等待收集最近检测样本" else
    if (healthyCount <? requiredHealthy)%Z then "最近检测中正常次数不足" else
    if negb lastTwoHealthy then "最后两次检测必须连续正常" else
    if negb availabilityOK then "最近十五分钟可用率需要达到90%" else
    if negb latencyOK then "当前响应时间尚未恢复到正常范围"
    else "已满足恢复试运行条件" in
  mkRecoveryResult eligible healthyCount requiredHealthy lastTwoHealthy availabilityOK latencyOK
    enoughSamples quarantineElapsed nextCondition.

(** ** Stages *)

Definition classifyStage (current : MonitorObservation) (observations : list MonitorObservation)
    (confidence : float64) (settings : Settings) : string * bool :=
  if obs_DecryptFailed current || consecutiveFailures observations 2
     || lowScores observations 5 3 (st_HealthQuarantineScore settings)
  then (HealthStageQuarantined, true) else
  if (obs_Score current >=? of_int (st_HealthHealthyScore settings))%float
  then (HealthStageHealthy, false) else
  if (obs_Score current >=? of_int (st_HealthWatchScore settings))%float
  then (HealthStageWatch, false) else
  if (obs_Score current >=? of_int (st_HealthQuarantineScore settings))%float
  then (HealthStageDegraded, false) else
  if (confidence <? of_int 1)%float then (HealthStageDegraded, false)
  else (HealthStageQuarantined, false).

Definition transitionStage (previous : MonitorHealthState) (candidate : string) (severe : bool)
    (recovery : RecoveryResult) (settings : Settings) (now : time) (isNewObservation : bool)
    : string * time * option time :=
  let transitionAt := if is_zero_time (hs_LastTransitionAt previous) then now
                      else hs_LastTransitionAt previous in
  let holdUntil := hs_HoldUntil previous in
  let stage := hs_Stage previous in
  if bool_decide (candidate = HealthStageQuarantined) then
    if negb (bool_decide (stage = HealthStageQuarantined)) || severe && isNewObservation
    then (candidate, now,
          Some (now + wrap64 (st_HealthQuarantineMinutes settings * minute))%Z)
    else (candidate, transitionAt, holdUntil)
  else if bool_decide (stage = HealthStageQuarantined) then
    if bool_decide (candidate = HealthStageHealthy) && rr_Eligible recovery
    then (HealthStageRecovering25, now, None)
    else (HealthStageQuarantined, transitionAt, holdUntil)
  else if bool_decide (stage = HealthStageRecovering25)
          || bool_decide (stage = HealthStageRecovering50) then
    if negb (bool_decide (candidate = HealthStageHealthy)) || negb (rr_Eligible recovery) then
      let transitionAt := if isNewObservation then now else transitionAt in
      if bool_decide (stage = HealthStageRecovering50)
         && (bool_decide (candidate = HealthStageWatch)
             || bool_decide (candidate = HealthStageDegraded))
      then (HealthStageRecovering25, transitionAt, None)
      else (stage, transitionAt, None)
    else if negb isNewObservation
            || (sub_time now transitionAt
                <? wrap64 (st_HealthTrialMinutes settings * minute))%Z
    then (stage, transitionAt, None)
    else if bool_decide (stage = HealthStageRecovering25)
    then (HealthStageRecovering50, now, None)
    else (HealthStageHealthy, now, None)
  else (candidate, if bool_decide (stage = candidate) then transitionAt else now, None).

(** A result without an observation is of a frozen monitor. *)
Definition Evaluate (monitor : Monitor) (observations : list MonitorObservation)
    (previous : MonitorHealthState) (settings : Settings) (now : time)
    : MonitorHealthState * MonitorObservation :=
  let settings := NormalizeSettings settings in
  let state := previous <| hs_MonitorID := mon_ID monitor |> <| hs_UpdatedAt := now |> in
  let reason := frozenReason monitor now in
  if negb (bool_decide (reason = "")) then
    let state := state <| hs_Stage := HealthStageFrozen |> <| hs_Score := of_int 0 |>
                       <| hs_Confidence := of_int 0 |> <| hs_RecoveryEligible := false |>
                       <| hs_NextRecoveryCondition := reason |>
                       <| hs_ReasonJSON := reasonsJSON [reason] |> in
    (if bool_decide (hs_Stage previous = HealthStageFrozen) then state
     else state <| hs_LastTransitionAt := now |>, no_observation)
  else
    let current := observationFromMonitor monitor now in
    let isNewObservation := negb (containsCheckedAt observations (obs_CheckedAt current)) in
    let history := mergeObservations observations current now in
    let '(baseline, baselineSamples) :=
      latencyBaseline observations now (st_HealthMinSamples settings) in
    let '(availability15, samples15) := availability history (now + - 15 * minute)%Z in
    let '(availability1H, samples1H) := availability history (now + - hour)%Z in
    let '(availability24H, samples24H) := availability history (now + - 24 * hour)%Z in
    let confidence := fmin (of_int 1)
      (of_int samples24H / of_int (st_HealthMinSamples settings))%float in
    let '(score, reasons) := scoreObservation current availability15 samples15 availability1H
      samples1H baseline baselineSamples settings in
    let current := current <| obs_Score := score |> <| obs_Confidence := confidence |>
                           <| obs_ReasonJSON := reasonsJSON reasons |> in
    let history := mergeObservations observations current now in
    let recovery := CheckRecovery history previous (mon_Availability7D monitor) baseline settings now in
    let '(candidate, severe) := classifyStage current history confidence settings in
    let '(stage, transitionAt, holdUntil) :=
      transitionStage previous candidate severe recovery settings now isNewObservation in
    (state <| hs_Stage := stage |> <| hs_Score := score |> <| hs_Confidence := confidence |>
           <| hs_CurrentLatencyMS := obs_LatencyMS current |>
           <| hs_BaselineLatencyMS := baseline |> <| hs_Availability15M := availability15 |>
           <| hs_Availability1H := availability1H |> <| hs_Availability24H := availability24H |>
           <| hs_SampleCount := samples24H |> <| hs_RecoveryHealthyCount := rr_HealthyCount recovery |>
           <| hs_LastTwoHealthy := rr_LastTwoHealthy recovery |>
           <| hs_RecoveryEligible := rr_Eligible recovery |>
           <| hs_NextRecoveryCondition := rr_NextCondition recovery |>
           <| hs_LastTransitionAt := transitionAt |> <| hs_HoldUntil := holdUntil |>
           <| hs_ReasonJSON := reasonsJSON reasons |>, current).
End stages.
