(* ===== verification/HealthSettings.v ===== *)
(** * The repair of the health settings

    What [NormalizeSettings] guarantees of its result, and where its fixed defaults
    cannot. *)

From S2P Require Import Prelude GoStd Float Model ModelHealth Health.

(** [s] with the health fields of [h]. *)
Definition with_health (h s : Settings) : Settings :=
  s <| st_HealthMode := st_HealthMode h |>
    <| st_HealthHealthyScore := st_HealthHealthyScore h |>
    <| st_HealthWatchScore := st_HealthWatchScore h |>
    <| st_HealthQuarantineScore := st_HealthQuarantineScore h |>
    <| st_HealthMinSamples := st_HealthMinSamples h |>
    <| st_HealthLatencyWarningMS := st_HealthLatencyWarningMS h |>
    <| st_HealthLatencyCriticalMS := st_HealthLatencyCriticalMS h |>
    <| st_HealthTrafficPauseBelow := st_HealthTrafficPauseBelow h |>
    <| st_HealthTrafficHealthyAt := st_HealthTrafficHealthyAt h |>
    <| st_HealthHardFailures10 := st_HealthHardFailures10 h |>
    <| st_HealthPersistentSlowRate := st_HealthPersistentSlowRate h |>
    <| st_HealthQuarantineMinutes := st_HealthQuarantineMinutes h |>
    <| st_HealthRecoveryWindow := st_HealthRecoveryWindow h |>
    <| st_HealthRecoverySuccesses := st_HealthRecoverySuccesses h |>
    <| st_HealthTrialPercent := st_HealthTrialPercent h |>
    <| st_HealthMidPercent := st_HealthMidPercent h |>
    <| st_HealthDegradedPercent := st_HealthDegradedPercent h |>
    <| st_HealthTrialMinutes := st_HealthTrialMinutes h |>
    <| st_HealthLoadOverrideMinutes := st_HealthLoadOverrideMinutes h |>.

(** What every repaired settings satisfies. The three ordered pairs hold, or the
    default stands in the second place. *)
Record repaired (s : Settings) : Prop := {
  rp_mode : st_HealthMode s ∈ [HealthModeLegacy; HealthModeObserve; HealthModeAdaptive];
  rp_healthy : (0 < st_HealthHealthyScore s ≤ 100)%Z;
  rp_watch : (0 < st_HealthWatchScore s < st_HealthHealthyScore s)%Z ∨ st_HealthWatchScore s = 60%Z;
  rp_quarantine : (0 < st_HealthQuarantineScore s < st_HealthWatchScore s)%Z
                  ∨ st_HealthQuarantineScore s = 35%Z;
  rp_samples : (0 < st_HealthMinSamples s)%Z;
  rp_warning : (0 < st_HealthLatencyWarningMS s)%Z;
  rp_critical : (st_HealthLatencyWarningMS s < st_HealthLatencyCriticalMS s)%Z
                ∨ (15000 ≤ st_HealthLatencyWarningMS s)%Z
                  ∧ st_HealthLatencyCriticalMS s = wrap64 (st_HealthLatencyWarningMS s * 2);
  rp_pause : (0 < st_HealthTrafficPauseBelow s < 100)%Z;
  rp_traffic : (st_HealthTrafficPauseBelow s < st_HealthTrafficHealthyAt s ≤ 100)%Z
               ∨ st_HealthTrafficHealthyAt s = 95%Z;
  rp_hard : (0 < st_HealthHardFailures10 s)%Z;
  rp_slow : (0 < st_HealthPersistentSlowRate s ≤ 100)%Z;
  rp_minutes : (0 < st_HealthQuarantineMinutes s)%Z;
  rp_window : (2 ≤ st_HealthRecoveryWindow s)%Z;
  rp_successes : (0 < st_HealthRecoverySuccesses s ≤ st_HealthRecoveryWindow s)%Z;
  rp_trial : (0 < st_HealthTrialPercent s ≤ 100)%Z;
  rp_mid : (0 < st_HealthMidPercent s ≤ 100)%Z;
  rp_degraded : (0 < st_HealthDegradedPercent s ≤ 100)%Z;
  rp_trial_minutes : (0 < st_HealthTrialMinutes s)%Z;
  rp_override : (0 < st_HealthLoadOverrideMinutes s)%Z;
}.

(** Reads the fields of the conditions that hold. *)
Ltac read_in_facts :=
  match goal with
  | H : context [?g (update ?f ?v ?r)] |- _ =>
      lazymatch type of H with _ = _ => revert H; read_fields; intros H end
  end.

(** Restates the facts about [old] for the repaired [new], whose step leaves the
    fields they read. *)
Ltac carry old new :=
  repeat match goal with
  | H : ?P |- _ =>
      lazymatch P with
      | context [old] =>
          let F := eval pattern old in P in
          lazymatch F with
          | ?f _ =>
              let Q := eval cbv beta in (f new) in
              let H' := fresh "R" in
              assert Q as H' by (unfold new, repair; repeat case_goal; read_fields; exact H);
              clear H
          end
      end
  end.

Lemma in_sequence_cons step steps s : in_sequence (step :: steps) s = in_sequence steps (step s).
Proof. done. Qed.

(** The next repair: what it establishes, with everything established before. *)
Ltac next_repair old fact solver :=
  rewrite in_sequence_cons;
  let new := fresh "s" in
  lazymatch goal with |- context [in_sequence _ ?x] => set (new := x) end;
  let F := eval cbv beta in (fact new) in
  let H := fresh "R" in
  assert F as H by (unfold new, repair; repeat case_goal; repeat read_in_facts; read_fields; bool_facts; solver);
  carry old new; clearbody new; clear old; rename new into old.

(** The defaults, by field. *)
Lemma defaults d : DefaultSettings = d →
  st_HealthMode d = HealthModeObserve ∧ st_HealthHealthyScore d = 80%Z
  ∧ st_HealthWatchScore d = 60%Z ∧ st_HealthQuarantineScore d = 35%Z ∧ st_HealthMinSamples d = 10%Z
  ∧ st_HealthLatencyWarningMS d = 8000%Z ∧ st_HealthLatencyCriticalMS d = 15000%Z
  ∧ st_HealthTrafficPauseBelow d = 80%Z ∧ st_HealthTrafficHealthyAt d = 95%Z
  ∧ st_HealthHardFailures10 d = 5%Z ∧ st_HealthPersistentSlowRate d = 40%Z
  ∧ st_HealthQuarantineMinutes d = 5%Z ∧ st_HealthRecoveryWindow d = 10%Z
  ∧ st_HealthRecoverySuccesses d = 8%Z ∧ st_HealthTrialPercent d = 25%Z
  ∧ st_HealthMidPercent d = 50%Z ∧ st_HealthDegradedPercent d = 50%Z
  ∧ st_HealthTrialMinutes d = 5%Z ∧ st_HealthLoadOverrideMinutes d = 30%Z.
Proof. intros <-. vm_compute. tauto. Qed.

Lemma NormalizeSettings_repaired settings : repaired (NormalizeSettings settings).
Proof.
  cbv delta [NormalizeSettings] beta.
  generalize (defaults DefaultSettings eq_refl). generalize DefaultSettings.
  intros d (D1 & D2 & D3 & D4 & D5 & D6 & D7 & D8 & D9 & D10 & D11 & D12
    & D13 & D14 & D15 & D16 & D17 & D18 & D19). rename settings into s.
  next_repair s (λ s, st_HealthMode s ∈ [HealthModeLegacy; HealthModeObserve; HealthModeAdaptive])
    ltac:(try rewrite D1; try (rewrite !andb_false_iff, !negb_false_iff, !bool_decide_eq_true in *;
          rewrite !elem_of_cons; tauto); listed).
  next_repair s (λ s, (0 < st_HealthHealthyScore s ≤ 100)%Z) ltac:(lia).
  next_repair s (λ s, (0 < st_HealthWatchScore s < st_HealthHealthyScore s)%Z
    ∨ st_HealthWatchScore s = 60%Z) ltac:(lia).
  next_repair s (λ s, (0 < st_HealthQuarantineScore s < st_HealthWatchScore s)%Z
    ∨ st_HealthQuarantineScore s = 35%Z) ltac:(lia).
  next_repair s (λ s, (0 < st_HealthMinSamples s)%Z) ltac:(lia).
  next_repair s (λ s, (0 < st_HealthLatencyWarningMS s)%Z) ltac:(lia).
  next_repair s (λ s, (st_HealthLatencyWarningMS s < st_HealthLatencyCriticalMS s)%Z
    ∨ (15000 ≤ st_HealthLatencyWarningMS s)%Z
      ∧ st_HealthLatencyCriticalMS s = wrap64 (st_HealthLatencyWarningMS s * 2))
    ltac:(lia).
  next_repair s (λ s, (0 < st_HealthTrafficPauseBelow s < 100)%Z) ltac:(lia).
  next_repair s (λ s, (st_HealthTrafficPauseBelow s < st_HealthTrafficHealthyAt s ≤ 100)%Z
    ∨ st_HealthTrafficHealthyAt s = 95%Z) ltac:(lia).
  next_repair s (λ s, (0 < st_HealthHardFailures10 s)%Z) ltac:(lia).
  next_repair s (λ s, (0 < st_HealthPersistentSlowRate s ≤ 100)%Z) ltac:(lia).
  next_repair s (λ s, (0 < st_HealthQuarantineMinutes s)%Z) ltac:(lia).
  next_repair s (λ s, (2 ≤ st_HealthRecoveryWindow s)%Z) ltac:(lia).
  next_repair s (λ s, (0 < st_HealthRecoverySuccesses s ≤ st_HealthRecoveryWindow s)%Z) ltac:(lia).
  next_repair s (λ s, (0 < st_HealthTrialPercent s ≤ 100)%Z) ltac:(lia).
  next_repair s (λ s, (0 < st_HealthMidPercent s ≤ 100)%Z) ltac:(lia).
  next_repair s (λ s, (0 < st_HealthDegradedPercent s ≤ 100)%Z) ltac:(lia).
  next_repair s (λ s, (0 < st_HealthTrialMinutes s)%Z) ltac:(lia).
  next_repair s (λ s, (0 < st_HealthLoadOverrideMinutes s)%Z) ltac:(lia).
  by split.
Qed.

(** A repair that does not apply, or writes the value that stands, changes nothing. *)
Ltac idle_repair settle :=
  rewrite in_sequence_cons;
  lazymatch goal with |- context [in_sequence _ (?step ?t)] =>
    let H := fresh in
    assert (step t = t) as H
      by (unfold repair; repeat case_goal; repeat read_in_facts; bool_facts; settle);
    rewrite H; clear H
  end.
Ltac same_value := first [reflexivity | lia |
  lazymatch goal with |- update ?f ?v ?t = ?t =>
    let E := fresh in assert (v = f t) as E by (first [lia | congruence]); rewrite E; by destruct t
  end].

Lemma NormalizeSettings_idle t : repaired t → NormalizeSettings t = t.
Proof.
  intros []. cbv delta [NormalizeSettings] beta.
  generalize (defaults DefaultSettings eq_refl). generalize DefaultSettings.
  intros d (D1 & D2 & D3 & D4 & D5 & D6 & D7 & D8 & D9 & D10 & D11 & D12
    & D13 & D14 & D15 & D16 & D17 & D18 & D19).
  idle_repair ltac:(first [reflexivity
    | exfalso; rewrite !elem_of_cons, elem_of_nil in rp_mode0; tauto]).
  do 5 idle_repair same_value.
  idle_repair ltac:(first [reflexivity | lia
    | destruct rp_critical0 as [?|[_ Hc]]; [lia|]; read_fields; rewrite <-Hc; by destruct t]).
  do 12 idle_repair same_value. done.
Qed.

Lemma with_health_repair h cond f s :
  (∀ s, with_health h (f s) = with_health h s) → with_health h (repair cond f s) = with_health h s.
Proof. unfold repair. intros H. by destruct (cond s). Qed.

Ltac same_rest s := destruct s; unfold with_health; upd; reflexivity.

Lemma with_health_NormalizeSettings h s : with_health h (NormalizeSettings s) = with_health h s.
Proof.
  cbv delta [NormalizeSettings] beta. generalize DefaultSettings. intros d.
  repeat
    (rewrite in_sequence_cons;
     lazymatch goal with |- context [in_sequence _ ?x] => set (s' := x) end;
     assert (with_health h s' = with_health h s) as <-
       by (unfold s', repair; clear s'; repeat case_goal; clear; same_rest s);
     clearbody s'; clear s; rename s' into s).
  done.
Qed.

(** [NormalizeSettings] repairs: its result is [repaired] (every field in its range,
    each ordered pair of thresholds in order or with the default in the second place),
    it changes a settings exactly when something is to be repaired, and it touches no
    field but the health ones. *)
Theorem NormalizeSettings_correct (settings : Settings) :
  repaired (NormalizeSettings settings)
  ∧ (NormalizeSettings settings = settings ↔ repaired settings)
  ∧ with_health settings (NormalizeSettings settings) = settings.
Proof.
  split_and!.
  - apply NormalizeSettings_repaired.
  - split; [|apply NormalizeSettings_idle]. intros <-. apply NormalizeSettings_repaired.
  - rewrite with_health_NormalizeSettings. same_rest settings.
Qed.

(** The thresholds may stay crossed: an account policy whose healthy score is 50, which
    the store accepts, is resolved to a watch score of 60. *)
Definition no_policy : Policy :=
  mkPolicy 1 "" None None false true None None None None None None None None None None None None
    None None None None.
Example resolved_thresholds_cross :
  let resolved := ResolveSettings DefaultSettings (no_policy <| pol_HealthHealthyScore := Some 50%Z |>) in
  st_HealthHealthyScore resolved = 50%Z ∧ st_HealthWatchScore resolved = 60%Z.
Proof. by vm_compute. Qed.
