(* ===== verification/HealthStages.v ===== *)
(** * The stages of a monitor

    A quarantined monitor comes back in stages: what a single evaluation may do, and
    how long a run of evaluations takes to return to health. *)

From S2P Require Import Prelude GoStd Float Model ModelHealth Health HealthSettings.

(** Leaving quarantine and climbing back, as [transitionStage] decides it. *)
Definition trial (settings : Settings) : duration :=
  wrap64 (st_HealthTrialMinutes settings * minute).
Definition since (previous : MonitorHealthState) (now : time) : time :=
  if is_zero_time (hs_LastTransitionAt previous) then now else hs_LastTransitionAt previous.

Lemma transition_cases previous candidate severe recovery settings now new stage at_ hold :
  transitionStage previous candidate severe recovery settings now new = (stage, at_, hold) →
  if bool_decide (hs_Stage previous = HealthStageQuarantined) then
    stage = HealthStageQuarantined ∨
    stage = HealthStageRecovering25 ∧ at_ = now ∧ rr_Eligible recovery = true
  else if bool_decide (hs_Stage previous = HealthStageRecovering25) then
    stage = HealthStageQuarantined
    ∨ stage = HealthStageRecovering25 ∧ (at_ = now ∨ at_ = since previous now)
    ∨ stage = HealthStageRecovering50 ∧ at_ = now
      ∧ (trial settings ≤ sub_time now (since previous now))%Z ∧ rr_Eligible recovery = true
  else if bool_decide (hs_Stage previous = HealthStageRecovering50) then
    stage = HealthStageQuarantined
    ∨ (stage = HealthStageRecovering25 ∨ stage = HealthStageRecovering50)
      ∧ (at_ = now ∨ at_ = since previous now)
    ∨ stage = HealthStageHealthy ∧ at_ = now
      ∧ (trial settings ≤ sub_time now (since previous now))%Z ∧ rr_Eligible recovery = true
  else stage = candidate.
Proof.
  unfold transitionStage. fold (since previous now) (trial settings).
  destruct (bool_decide (candidate = HealthStageQuarantined)) eqn:Hq.
  - bool_facts. destruct (_ || _); intros [= <- <- <-]; subst; repeat case_bool_decide; auto.
  - destruct (bool_decide (hs_Stage previous = HealthStageQuarantined)) eqn:E1.
    { destruct (_ && _) eqn:E; intros [= <- <- <-]; bool_facts; auto. }
    destruct (bool_decide (hs_Stage previous = HealthStageRecovering25)) eqn:E2.
    + bool_facts. rewrite E2. cbn [orb].
      destruct (_ || _) eqn:E; [destruct new; cbn [andb];
        rewrite (bool_decide_false (HealthStageRecovering25 = HealthStageRecovering50)) by done;
        cbn [andb]; intros [= <- <- <-]; auto|].
      bool_facts. destruct (_ || _) eqn:Et; intros [= <- <- <-]; bool_facts; [auto|].
      right; right. auto.
    + cbn [orb]. destruct (bool_decide (hs_Stage previous = HealthStageRecovering50)) eqn:E3.
      * bool_facts. rewrite E3. destruct (_ || negb _) eqn:E.
        { destruct (_ && _), new; intros [= <- <- <-]; auto 6. }
        bool_facts. destruct (_ || _) eqn:Et; intros [= <- <- <-]; bool_facts; [auto 6|].
        right; right. auto.
      * by intros [= <- <- <-].
Qed.

Lemma CheckRecovery_eligible `{UnicodeTables} settings observations previous availability7 baseline now :
  rr_Eligible (CheckRecovery observations previous availability7 baseline settings now) = true →
  ∀ hold, hs_HoldUntil previous = Some hold → (hold ≤ now)%Z.
Proof.
  unfold CheckRecovery. destruct (availability _ _). cbn [rr_Eligible].
  intros Hel hold Hhold. bool_facts. rewrite Hhold in *. unfold before in *. bool_facts. lia.
Qed.

Definition normal_stages : list string :=
  [HealthStageHealthy; HealthStageWatch; HealthStageDegraded; HealthStageQuarantined].

Lemma classifyStage_candidates `{UnicodeTables} current observations confidence settings candidate severe :
  classifyStage current observations confidence settings = (candidate, severe) →
  candidate ∈ normal_stages.
Proof. unfold classifyStage. repeat case_match; intros [= <- <-]; listed. Qed.

Section runs.
Context `{UnicodeTables} (settings : Settings).

(** What the engine reads before an evaluation, and when. *)
Record reading := mkReading {
  rd_monitor : Monitor;
  rd_observations : list MonitorObservation;
  rd_now : time;
}.

Definition evaluate (s : MonitorHealthState) (r : reading) : MonitorHealthState :=
  (Evaluate (rd_monitor r) (rd_observations r) s settings (rd_now r)).1.

(** The states after each reading. *)
Fixpoint states (s : MonitorHealthState) (rs : list reading) : list MonitorHealthState :=
  match rs with [] => [] | r :: rs => evaluate s r :: states (evaluate s r) rs end.

(** The evaluation is told not to judge the monitor: it is switched off, was never
    checked, or its last check is too old or of unknown status. *)
Definition freezes (r : reading) : Prop := frozenReason (rd_monitor r) (rd_now r) ≠ "".

(** An evaluation freezes the monitor or moves it by [transitionStage]; the eligibility
    it reports is the one the move was decided on. *)
Definition moved (s : MonitorHealthState) (now : time) (s' : MonitorHealthState) : Prop :=
  ∃ candidate severe recovery new,
    candidate ∈ normal_stages
    ∧ transitionStage s candidate severe recovery (NormalizeSettings settings) now new =
      (hs_Stage s', hs_LastTransitionAt s', hs_HoldUntil s')
    ∧ hs_RecoveryEligible s' = rr_Eligible recovery
    ∧ (rr_Eligible recovery = true → ∀ hold, hs_HoldUntil s = Some hold → (hold ≤ now)%Z).

Lemma Evaluate_stage monitor observations s now s' o :
  Evaluate monitor observations s settings now = (s', o) →
  frozenReason monitor now ≠ "" ∧ hs_Stage s' = HealthStageFrozen ∨ moved s now s'.
Proof.
  unfold moved. cbv delta [Evaluate] beta.
  name_let t. name_let s0. clearbody s0. name_let reason. change (frozenReason monitor now) with reason. clearbody reason.
  destruct (negb (bool_decide (reason = ""))) eqn:Ereason; [left; split; [by apply negb_true_iff, bool_decide_eq_false in Ereason|]|right]; clear Ereason; revert H0.
  - name_let s1. assert (hs_Stage s1 = HealthStageFrozen) as H1 by (unfold s1; by read_fields).
    clearbody s1. case_bool_decide; intros [= <- <-]; by read_fields.
  - name_let current. clearbody current. name_let new. clearbody new. name_let history.
    clearbody history. destruct (latencyBaseline _ _ _) as [baseline bn].
    destruct (availability _ _) as [a15 n15]. destruct (availability _ _) as [a1 n1].
    destruct (availability _ _) as [a24 n24]. name_let confidence. clearbody confidence.
    destruct (scoreObservation _ _ _ _ _ _ _ _) as [score reasons].
    name_let scored. clearbody scored. name_let merged. clearbody merged.
    name_let recovery.
    assert (rr_Eligible recovery = true → ∀ hold, hs_HoldUntil s = Some hold → (hold ≤ now)%Z)
      as Hrec by apply CheckRecovery_eligible.
    clearbody recovery.
    destruct (classifyStage _ _ _ _) as [candidate severe] eqn:Hcand.
    apply classifyStage_candidates in Hcand.
    destruct (transitionStage _ _ _ _ _ _ _) as [[stage at_] hold] eqn:Ht.
    intros [= <- <-]. exists candidate, severe, recovery, new. read_fields. done.
Qed.

Lemma evaluate_stage s r :
  freezes r ∧ hs_Stage (evaluate s r) = HealthStageFrozen ∨ moved s (rd_now r) (evaluate s r).
Proof. unfold evaluate, freezes. destruct (Evaluate _ _ _ _ _) eqn:E. by eapply Evaluate_stage. Qed.

(** ** Runs *)

Section timing.
Context (start : time).

(** How far a monitor has come since it was quarantined, [now] being the time of the
    last reading. *)
Definition climbing (now : time) (s : MonitorHealthState) : Prop :=
  (start ≤ now)%Z ∧
  if bool_decide (hs_Stage s = HealthStageQuarantined) then True else
  if bool_decide (hs_Stage s = HealthStageRecovering25)
  then (start ≤ since s now)%Z else
  if bool_decide (hs_Stage s = HealthStageRecovering50)
  then (start + trial (NormalizeSettings settings) ≤ since s now)%Z
       ∧ (start + trial (NormalizeSettings settings) ≤ now)%Z
  else (start + 2 * trial (NormalizeSettings settings) ≤ now)%Z.

Lemma since_later s now now' bound :
  (now ≤ now')%Z → (bound ≤ since s now → bound ≤ since s now')%Z.
Proof. unfold since. case_match; lia. Qed.

Lemma since_moved s s' now' bound :
  hs_LastTransitionAt s' = now' ∨ hs_LastTransitionAt s' = since s now' →
  (bound ≤ now' → bound ≤ since s now' → bound ≤ since s' now')%Z.
Proof. unfold since at 3. intros [-> | ->]; case_match; lia. Qed.

Lemma trial_passed s now t :
  (0 ≤ t)%Z → (t ≤ sub_time now (since s now))%Z → (since s now + t ≤ now)%Z.
Proof. unfold sub_time. lia. Qed.

(** Decides which stage the equations of the context name. *)
Ltac decide_stage := repeat (case_bool_decide; try congruence; try done).

Lemma climbing_step now s now' s' :
  (0 ≤ trial (NormalizeSettings settings))%Z →
  (now ≤ now')%Z → climbing now s → moved s now' s' → climbing now' s'.
Proof.
  intros Ht Hnow [Hstart Hc] (candidate & severe & recovery & new & Hcand & Htr & _).
  apply transition_cases in Htr. split; [lia|].
  destruct (bool_decide (hs_Stage s = HealthStageQuarantined)).
  { destruct Htr as [Hs'|(Hs' & Hat & _)]; rewrite Hs'; decide_stage.
    unfold since. rewrite Hat. case_match; lia. }
  destruct (bool_decide (hs_Stage s = HealthStageRecovering25)).
  { apply (since_later s now now' _ Hnow) in Hc.
    destruct Htr as [Hs'|[[Hs' Hat]|(Hs' & Hat & Htrial & _)]]; rewrite Hs'; decide_stage.
    - apply (since_moved s _ _ _ Hat); [lia|done].
    - apply (trial_passed _ _ _ Ht) in Htrial.
      assert (start + trial (NormalizeSettings settings) ≤ now')%Z by lia. split; [|done].
      unfold since. rewrite Hat. case_match; lia. }
  destruct (bool_decide (hs_Stage s = HealthStageRecovering50)).
  { destruct Hc as [Hc Hc']. apply (since_later s now now' _ Hnow) in Hc.
    destruct Htr as [Hs'|[[[Hs'|Hs'] Hat]|(Hs' & Hat & Htrial & _)]]; rewrite Hs'; decide_stage.
    - apply (since_moved s _ _ _ Hat); lia.
    - split; [|lia]. apply (since_moved s _ _ _ Hat); lia.
    - apply (trial_passed _ _ _ Ht) in Htrial. lia. }
  unfold normal_stages in Hcand. rewrite Htr.
  repeat (apply elem_of_cons in Hcand as [->|Hcand]; [decide_stage; lia|]).
  by apply elem_of_nil in Hcand.
Qed.

Lemma climbing_run rs now s s' :
  (0 ≤ trial (NormalizeSettings settings))%Z →
  climbing now s → Sorted Z.le (now :: (rd_now <$> rs)) →
  Forall (λ r, ¬ freezes r) rs →
  last (states s rs) = Some s' → ∃ now', last (rd_now <$> rs) = Some now' ∧ climbing now' s'.
Proof.
  intros Ht. revert now s. induction rs as [|r rs IH]; intros now s Hs Hsorted Hfrozen Hlast; [done|].
  cbn [states] in *. cbn [fmap list_fmap] in *. rewrite !last_cons in *.
  inv Hfrozen as [|? ? Hf Hfs]. inv Hsorted as [|? ? Hrest Hle]. inv Hle as [|? ? Hle'].
  destruct (evaluate_stage s r) as [[??]|Hm]; [done|].
  pose proof (climbing_step _ _ _ _ Ht Hle' Hs Hm) as Hs1.
  destruct (last (states _ rs)) eqn:E.
  - simplify_eq. destruct (IH _ _ Hs1 Hrest Hfs E) as (now' & -> & Hc). by exists now'.
  - simplify_eq. destruct rs as [|r' rs]; [|cbn in E; rewrite last_cons in E; by case_match].
    by exists (rd_now r).
Qed.
End timing.

(** C12: A quarantined monitor returns in stages, or through a freeze. A single
    evaluation leaves it quarantined; or, when every condition of the recovery check holds
    and the minimum quarantine has passed, puts it on trial at 25 percent; or freezes it,
    and only when its reading gives a reason to freeze: the monitor is switched off, or has
    no recent check of known status. And a run of evaluations that begins with a
    quarantined monitor ends outside quarantine and the two trial stages only after at
    least two full trial periods, unless some reading of the run gave a reason to freeze:
    a freeze forgets the quarantine. *)
Theorem quarantine_is_left_in_stages (s : MonitorHealthState) (r : reading) (rs : list reading)
    (s' : MonitorHealthState) :
  hs_Stage s = HealthStageQuarantined →
  (st_HealthTrialMinutes (NormalizeSettings settings) * minute < 2 ^ 63)%Z →
  Sorted Z.le (rd_now <$> r :: rs) →
  last (states s (r :: rs)) = Some s' →
  (hs_Stage (evaluate s r) = HealthStageQuarantined
   ∨ hs_Stage (evaluate s r) = HealthStageRecovering25
     ∧ hs_RecoveryEligible (evaluate s r) = true
     ∧ (∀ hold, hs_HoldUntil s = Some hold → (hold ≤ rd_now r)%Z)
   ∨ hs_Stage (evaluate s r) = HealthStageFrozen ∧ freezes r)
  ∧ (hs_Stage s' ∈ [HealthStageQuarantined; HealthStageRecovering25; HealthStageRecovering50]
     ∨ (∃ now', last (rd_now <$> r :: rs) = Some now'
        ∧ (rd_now r + 2 * (st_HealthTrialMinutes (NormalizeSettings settings) * minute) ≤ now')%Z)
     ∨ Exists freezes (r :: rs)).
Proof.
  intros Hs Hmin Hsorted Hlast.
  assert (0 < st_HealthTrialMinutes (NormalizeSettings settings))%Z as Hpos.
  { apply NormalizeSettings_repaired. }
  assert (trial (NormalizeSettings settings)
    = st_HealthTrialMinutes (NormalizeSettings settings) * minute)%Z as Htrial.
  { unfold trial. apply wrap64_id. unfold in_int64, minute, second in *. lia. }
  split.
  - destruct (evaluate_stage s r) as [[??]|Hm]; [auto|].
    destruct Hm as (c & sev & rec & new & _ & Ht & -> & Hhold). apply transition_cases in Ht.
    rewrite bool_decide_true in Ht by done. destruct Ht as [?|(? & _ & ?)]; auto 6.
  - destruct (decide (Exists freezes (r :: rs))) as [?|Hnone%not_Exists_Forall]; [by auto|..|apply _].
    destruct (climbing_run (rd_now r) (r :: rs) (rd_now r) s s') as (now' & Hn & Hstart & Hc).
    + rewrite Htrial. unfold minute, second. lia.
    + split; [lia|]. by rewrite bool_decide_true.
    + constructor; [done|]. constructor. lia.
    + done.
    + done.
    + rewrite Htrial in Hc. repeat case_bool_decide;
        try (left; match goal with H : hs_Stage s' = _ |- _ => rewrite H end; listed).
      right; left. by exists now'.
Qed.
End runs.

(** ** A run: two trial periods, and the freeze that cuts them short *)

(** A monitor that is checked every minute and answers in 400 ms. *)
Definition checked_at (at_ : Z) (enabled : bool) : Monitor :=
  mkMonitor 1 "main" "openai" "https://up.example" "m" enabled 60 (Some (at_ * minute)%Z)
    "operational" 400 None [] [] false.
Definition good_history (now : Z) : list MonitorObservation :=
  (λ i, no_observation <| obs_MonitorID := 1%Z |>
          <| obs_CheckedAt := ((now - Z.of_nat i) * minute)%Z |> <| obs_Status := "operational" |>
          <| obs_LatencyMS := 400%Z |> <| obs_Score := of_int 100 |>) <$> seq 1 12.
Definition minute_reading (now : Z) (enabled : bool) : reading :=
  mkReading (checked_at now enabled) (good_history now) (now * minute)%Z.
Definition quarantined : MonitorHealthState :=
  no_health_state <| hs_MonitorID := 1%Z |> <| hs_Stage := HealthStageQuarantined |>
    <| hs_LastTransitionAt := (100 * minute)%Z |> <| hs_HoldUntil := Some (115 * minute)%Z |>.

Definition stages_of (rs : list reading) : list string :=
  hs_Stage <$> @states plain_tables DefaultSettings quarantined rs.

Definition steady : list reading :=
  (λ m, minute_reading m true) <$> [110; 116; 119; 122; 125; 128]%Z.

Lemma quarantine_is_left_in_stages_witness :
  stages_of steady =
    [HealthStageQuarantined; HealthStageRecovering25; HealthStageRecovering25;
     HealthStageRecovering50; HealthStageRecovering50; HealthStageHealthy]
  ∧ ∃ now', last (rd_now <$> steady) = Some now' ∧ (110 * minute + 2 * (5 * minute) ≤ now')%Z.
Proof.
  split; [by vm_compute|].
  destruct (last (@states plain_tables DefaultSettings quarantined steady)) as [s'|] eqn:E;
    [|by vm_compute in E].
  destruct (@quarantine_is_left_in_stages plain_tables DefaultSettings quarantined
    (minute_reading 110 true) ((λ m, minute_reading m true) <$> [116; 119; 122; 125; 128]%Z) s')
    as [_ [Hin|[(now' & Hlast & Hn)|Hfreeze]]]; [done|by vm_compute| |exact E| | |].
  - apply (bool_decide_unpack _). by vm_compute.
  - exfalso. assert (hs_Stage s' = HealthStageHealthy) as Hs'.
    { apply (f_equal (fmap hs_Stage)) in E. vm_compute in E. by injection E. }
    rewrite Hs' in Hin. revert Hin. apply (bool_decide_unpack _). by vm_compute.
  - exists now'. by split.
  - exfalso. revert Hfreeze. apply (bool_decide_unpack _). by vm_compute.
Defined.

(** A freeze forgets the quarantine: switching the monitor off for one evaluation makes
    it healthy at the next, before its hold has passed. *)
Example freeze_forgets_quarantine :
  stages_of [minute_reading 110 true; minute_reading 111 false; minute_reading 112 true] =
    [HealthStageQuarantined; HealthStageFrozen; HealthStageHealthy].
Proof. by vm_compute. Qed.
