(* ===== verification/AccountTypes.v ===== *)
(** * Account control: overrides, mutations, submissions

    [internal/accountcontrol/types.go] and [context.go]: the durable override and
    mutation records, what is asked of the service and what it answers, its errors,
    and the conversion between intents and overrides. *)

From S2P Require Import Prelude GoStd Intent Arbiter Model.

Definition DefaultAdministratorTTL : duration := (30 * minute)%Z.
Definition DefaultAutonomousTTL : duration := (15 * minute)%Z.
Definition MaximumAutonomousTTL : duration := (2 * hour)%Z.

Abbreviation MutationStatus := string (only parsing).
Definition StatusPrepared : MutationStatus := "prepared".
Definition StatusValidating : MutationStatus := "validating".
Definition StatusExecuting : MutationStatus := "executing".
Definition StatusVerifying : MutationStatus := "verifying".
Definition StatusApplied : MutationStatus := "applied".
Definition StatusAppliedNoop : MutationStatus := "applied_noop".
Definition StatusBlocked : MutationStatus := "blocked".
Definition StatusFailed : MutationStatus := "failed".
Definition StatusUncertain : MutationStatus := "uncertain".
Definition StatusSuperseded : MutationStatus := "superseded".
Definition StatusExpired : MutationStatus := "expired".

Definition Terminal (s : MutationStatus) : bool :=
  bool_decide (s ∈ [StatusApplied; StatusAppliedNoop; StatusBlocked; StatusFailed;
                    StatusSuperseded; StatusExpired]).

Abbreviation OverrideStatus := string (only parsing).
Definition OverridePending : OverrideStatus := "pending".
Definition OverrideActive : OverrideStatus := "active".
Definition OverrideRevoked : OverrideStatus := "revoked".
Definition OverrideExpired : OverrideStatus := "expired".
Definition OverrideBlocked : OverrideStatus := "blocked".
Definition OverrideFailed : OverrideStatus := "failed".
Definition OverrideSuperseded : OverrideStatus := "superseded".
Definition OverrideLegacyDisabled : OverrideStatus := "legacy_disabled".

Abbreviation OverrideKind := string (only parsing).
Definition OverrideKindTemporary : OverrideKind := "temporary".
Definition OverrideKindManualHold : OverrideKind := "manual_hold".
Definition OverrideKindLoadPin : OverrideKind := "load_pin".
Definition OverrideKindLegacy : OverrideKind := "legacy".

Abbreviation BlockReason := string (only parsing).
Definition BlockNone : BlockReason := "".
Definition BlockWritesFrozen : BlockReason := "writes_frozen".
Definition BlockAgentWritesFrozen : BlockReason := "agent_writes_frozen".
Definition BlockAccountNotFound : BlockReason := "account_not_found".
Definition BlockCredentialInvalid : BlockReason := "credential_invalid".
Definition BlockHealthLocked : BlockReason := "health_locked".
Definition BlockBalanceLocked : BlockReason := "balance_locked".
Definition BlockCostLocked : BlockReason := "cost_locked".
Definition BlockRateLimited : BlockReason := "rate_limited".
Definition BlockStaleTelemetry : BlockReason := "stale_telemetry".
Definition BlockCooldown : BlockReason := "cooldown".
Definition BlockInvalidTarget : BlockReason := "invalid_target".

Record AccountState := mkAccountState {
  st_Schedulable : bool;
  st_LoadFactor : option Z;
}.
#[export] Instance AccountState_eq_dec : EqDecision AccountState.
Proof. solve_decision. Defined.

Record Override := mkOverride {
  ov_ID : string;
  ov_CommandID : string;
  ov_IntentID : string;
  ov_IdempotencyKey : string;
  ov_SemanticSignature : string;
  ov_AccountID : Z;
  ov_Operation : Operation;
  ov_Kind : OverrideKind;
  ov_Schedulable : option bool;
  ov_LoadFactor : option Z;
  ov_LoadFactorSet : bool;
  ov_Producer : Producer;
  ov_Authority : Authority;
  ov_Actor : string;
  ov_Reason : string;
  ov_EvidenceRefs : list string;
  ov_PolicyVersion : string;
  ov_SnapshotVersion : string;
  ov_CreatedAt : time;
  ov_ExpiresAt : option time;
  ov_Status : OverrideStatus;
  ov_MutationID : string;
  ov_RevokedAt : option time;
  ov_RevokedBy : string;
  ov_RevokeReason : string;
  ov_UpdatedAt : time;
}.

Record Mutation := mkMutation {
  mu_ID : string;
  mu_CommandID : string;
  mu_IntentID : string;
  mu_IdempotencyKey : string;
  mu_SemanticSignature : string;
  mu_AccountID : Z;
  mu_Operation : Operation;
  mu_RequestedSchedulable : option bool;
  mu_RequestedLoadFactor : option Z;
  mu_RequestedLoadSet : bool;
  mu_WinningIntentID : string;
  mu_WinningIdempotencyKey : string;
  mu_WinningProducer : Producer;
  mu_WinningAuthority : Authority;
  mu_WinningActor : string;
  mu_WinningReason : string;
  mu_WinningEvidenceRefs : list string;
  mu_WinningPolicyVersion : string;
  mu_WinningSnapshotVersion : string;
  mu_WinningCreatedAt : time;
  mu_WinningExpiresAt : option time;
  mu_WinningSchedulable : option bool;
  mu_WinningLoadFactor : option Z;
  mu_WinningLoadSet : bool;
  mu_WinningOverrideKind : OverrideKind;
  mu_Producer : Producer;
  mu_Authority : Authority;
  mu_Actor : string;
  mu_ReasonCode : string;
  mu_Reason : string;
  mu_PolicyVersion : string;
  mu_SnapshotVersion : string;
  mu_RunID : Z;
  mu_GoalID : Z;
  mu_StepID : Z;
  mu_ExpiresAt : option time;
  mu_Status : MutationStatus;
  mu_AttemptCount : Z;
  mu_Before : option AccountState;
  mu_After : option AccountState;
  mu_LastErrorCode : string;
  mu_CreatedAt : time;
  mu_UpdatedAt : time;
  mu_CompletedAt : option time;
  mu_OverrideID : string;
  mu_RevokeOverrideID : string;
  mu_TelemetryFresh : bool;
  mu_CooldownActive : bool;
}.

Record Result := mkResult {
  rs_CommandID : string;
  rs_MutationID : string;
  rs_IntentID : string;
  rs_AccountID : Z;
  rs_Operation : Operation;
  rs_Requested : AccountState;
  rs_RequestedLoadSet : bool;
  rs_WinningAuthority : Authority;
  rs_Status : MutationStatus;
  rs_BlockedReason : BlockReason;
  rs_Before : option AccountState;
  rs_VerifiedAfter : option AccountState;
  rs_ExpiresAt : option time;
  rs_IdempotentReplay : bool;
  rs_Uncertain : bool;
}.

(** [Result{}] *)
Definition no_answer : Result :=
  mkResult "" "" "" 0 "" (mkAccountState false None) false "" "" "" None None None false false.

(** [Intent{}] *)
Definition no_intent : Intent :=
  mkIntent "" "" "" "" (mkResource "" 0 0 "") ""
    (mkDesiredState desiredStateUnset false 0 false "") "" "" [] "" "" zero_time None.

Record SafetyContext := mkSafetyContext {
  sf_TelemetryFresh : bool;
  sf_CooldownActive : bool;
}.

Record Submission := mkSubmission {
  sb_CommandID : string;
  sb_Intent : Intent;
  sb_RequestIdempotencyKey : string;
  sb_RequestSemanticSignature : string;
  sb_PersistOverride : bool;
  sb_OverrideKind : OverrideKind;
  sb_RevokeOverrideID : string;
  sb_Safety : SafetyContext;
  sb_Event : Event;
  sb_FlapPolicy : option FlapPolicy;
}.

Record Finalization := mkFinalization {
  fn_Mutation : Mutation;
  fn_Control : AccountControl;
  fn_Event : Event;
  fn_ActivateOverride : bool;
  fn_OverrideStatus : OverrideStatus;
  fn_RevokeOverrideID : string;
  fn_RevokeActor : string;
  fn_RevokeReason : string;
  fn_FlapPolicy : option FlapPolicy;
}.

Record CommandContext := mkCommandContext {
  cc_CommandID : string;
  cc_CreatedAt : time;
  cc_ExpiresAt : option time;
  cc_SnapshotVersion : string;
  cc_EvidenceRefs : list string;
  cc_OverrideKind : OverrideKind;
  cc_Administrator : bool;
  cc_GrantConsumptionID : string;
  cc_RunID : Z;
  cc_GoalID : Z;
  cc_StepID : Z;
  cc_AutomationLeaseHeld : bool;
}.

(** ** Errors

    An error of the repository, the transport or the context is what the code can
    see of it: its text and the classes [errors.As] and [errors.Is] find in its
    chain. The service's own errors are constructors. *)
Record external_error := mkExternal {
  ex_text : string;
  ex_network : bool;            (* a net.Error *)
  ex_deadline : bool;           (* context.DeadlineExceeded *)
  ex_eof : bool;                (* io.EOF *)
  ex_unexpected_eof : bool;     (* io.ErrUnexpectedEOF *)
}.

Inductive error :=
  | External (e : external_error)
  | NewError (text : string)
  | InvalidIntent (e : ValidationError)
  | Errorf (prefix : string) (cause : error)     (* fmt.Errorf with prefix and %w *)
  | IdempotencyConflictError (key : string)
  | BlockedError (result : Result)
  | MutationStateError (result : Result) (cause : option error).

Definition errAccountNotFound : error := NewError "account not found".
Definition errUnsupportedOperation : error := NewError "unsupported account mutation operation".

Section with_unicode.
Context `{UnicodeTables}.

(** [Error()] *)
Fixpoint error_text (e : error) : string :=
  match e with
  | External x => ex_text x
  | NewError text => text
  | InvalidIntent v => ValidationError_Error v
  | Errorf prefix cause => prefix +:+ ": " +:+ error_text cause
  | IdempotencyConflictError key =>
      "idempotency key " +:+ quote key +:+ " is already bound to different semantics"
  | BlockedError result => "account mutation blocked: " +:+ rs_BlockedReason result
  | MutationStateError result None => "account mutation is " +:+ rs_Status result
  | MutationStateError result (Some cause) =>
      "account mutation is " +:+ rs_Status result +:+ ": " +:+ error_text cause
  end.
End with_unicode.

(** The external error an error wraps, found by [Unwrap]. *)
Fixpoint unwrapped (e : error) : option external_error :=
  match e with
  | External x => Some x
  | Errorf _ cause | MutationStateError _ (Some cause) => unwrapped cause
  | _ => None
  end.

(** [errors.Is(err, errAccountNotFound)] *)
Fixpoint is_account_not_found (e : error) : bool :=
  match e with
  | NewError text => bool_decide (text = "account not found")
  | Errorf _ cause | MutationStateError _ (Some cause) => is_account_not_found cause
  | _ => false
  end.

(** [cloneTime] also converts to UTC, which does not change the instant. *)
Definition cloneTime (value : option time) : option time :=
  match value with None => None | Some t => Some t end.
Definition cloneInt (value : option Z) : option Z :=
  match value with None => None | Some n => Some n end.
Definition cloneControlplaneIntent (intent : Intent) : Intent :=
  intent <| in_ExpiresAt := cloneTime (in_ExpiresAt intent) |>.

Lemma cloneTime_id v : cloneTime v = v.
Proof. by destruct v. Qed.
Lemma cloneInt_id v : cloneInt v = v.
Proof. by destruct v. Qed.
Lemma cloneControlplaneIntent_id i : cloneControlplaneIntent i = i.
Proof. destruct i. unfold cloneControlplaneIntent. upd. by rewrite cloneTime_id. Qed.
#[global] Arguments cloneTime : simpl never.
#[global] Arguments cloneInt : simpl never.
#[global] Arguments cloneControlplaneIntent : simpl never.
#[export] Hint Rewrite cloneTime_id cloneInt_id cloneControlplaneIntent_id : sched.

Definition ValidateCommandID (value : string) : result error unit :=
  let value := trim_space value in
  if bool_decide (value = "") then Err (NewError "command id is required")
  else if (256 <? Z.of_nat (String.length value))%Z then Err (NewError "command id is too long")
  else Ok ().

(** ** Overrides and intents *)

Section overrides.
Context `{UnicodeTables}.

Definition OverrideFromIntent (id commandID : string) (intent : Intent) : result error Override :=
  match Intent_Validate intent with
  | Err err => Err (InvalidIntent err)
  | Ok _ =>
  if bool_decide (in_Authority intent = AuthorityActivePolicy) then
    Err (NewError "active policy is not a persistent override") else
  let '(accountID, ok) := Resource_AccountID (in_Resource intent) in
  if negb ok then Err (NewError "account override requires an account resource") else
  match SemanticSignature intent with
  | Err err => Err (InvalidIntent err)
  | Ok signature =>
  let override := mkOverride id commandID (in_ID intent) (in_IdempotencyKey intent) signature
    accountID (in_Operation intent) "" None None false (in_Producer intent) (in_Authority intent)
    (in_Actor intent) (in_Reason intent) (in_EvidenceRefs intent) (in_PolicyVersion intent)
    (in_SnapshotVersion intent) (in_CreatedAt intent) (cloneTime (in_ExpiresAt intent))
    OverridePending "" None "" "" (in_CreatedAt intent) in
  let override :=
    if bool_decide (in_Authority intent = AuthorityManualHold)
    then override <| ov_Kind := OverrideKindManualHold |>
    else override <| ov_Kind := OverrideKindTemporary |> in
  if bool_decide (in_Operation intent = OperationSetAccountSchedulable) then
    let '(value, valid) := Schedulable (in_DesiredState intent) in
    if negb valid then Err (NewError "invalid schedulable override desired state")
    else Ok (override <| ov_Schedulable := Some value |>)
  else if bool_decide (in_Operation intent = OperationSetAccountLoadFactor) then
    let '(value, configured, valid) := LoadFactor (in_DesiredState intent) in
    if negb valid then Err (NewError "invalid load-factor override desired state") else
    let override := override <| ov_LoadFactorSet := configured |> in
    Ok (if (configured : bool) then override <| ov_LoadFactor := Some value |> else override)
  else Err (NewError "unsupported account override operation")
  end end.

(** A constructor's validation error as an error of this package. *)
Definition as_error {A} (r : result ValidationError A) : result error A :=
  match r with Ok a => Ok a | Err e => Err (InvalidIntent e) end.

Definition Override_Intent (o : Override) : result error Intent :=
  let metadata := mkIntentMetadata (ov_IntentID o) (ov_IdempotencyKey o) (ov_Producer o)
    (ov_Authority o) (ov_Actor o) (ov_Reason o) (ov_EvidenceRefs o) (ov_PolicyVersion o)
    (ov_SnapshotVersion o) (ov_CreatedAt o) (cloneTime (ov_ExpiresAt o)) in
  if bool_decide (ov_Operation o = OperationSetAccountSchedulable) then
    match ov_Schedulable o with
    | None => Err (NewError "stored schedulable override has no desired value")
    | Some value => as_error (NewAccountSchedulableIntent metadata (ov_AccountID o) value)
    end
  else if bool_decide (ov_Operation o = OperationSetAccountLoadFactor) then
    if ov_LoadFactorSet o then
      match ov_LoadFactor o with
      | None => Err (NewError "stored load-factor override has no configured value")
      | Some value => as_error (NewAccountLoadFactorIntent metadata (ov_AccountID o) (cloneInt (Some value)))
      end
    else as_error (NewAccountLoadFactorIntent metadata (ov_AccountID o) None)
  else Err (NewError "stored override operation is unsupported").
End overrides.

(** [WithCommandContext] and [CommandContextFrom] store and read a value of the
    context, whose absence reads as the zero value; copies are the value itself. *)
Definition CommandContextFrom (stored : option CommandContext) : CommandContext :=
  let value := default (mkCommandContext "" zero_time None "" [] "" false "" 0 0 0 false) stored in
  value <| cc_ExpiresAt := cloneTime (cc_ExpiresAt value) |>.
