(* ===== verification/AccountQueue.v ===== *)
(** * Candidates waiting for an account

    The queue of [internal/accountcontrol/lock.go]: a submission is visible to the
    arbitration of the submissions that overlap it, from before it waits for the
    account lock until it is discarded. *)

From S2P Require Import Prelude GoStd Intent Model AccountTypes.

Definition overrideKindForSubmission (submission : Submission) : OverrideKind :=
  if negb (bool_decide (sb_OverrideKind submission = "")) then sb_OverrideKind submission
  else if bool_decide (in_Authority (sb_Intent submission) = AuthorityManualHold)
  then OverrideKindManualHold
  else OverrideKindTemporary.

Record queuedCandidate := mkQueued {
  qc_token : N;
  qc_requestKey : string;
  qc_intent : Intent;
  qc_kind : OverrideKind;
  qc_completed : bool;
}.

Abbreviation candidateKey := (Z * string)%type (only parsing).

Record candidateQueue := mkCandidateQueue {
  cq_next : N;
  cq_entries : gmap candidateKey (list queuedCandidate);
}.

Definition newCandidateQueue : candidateQueue := mkCandidateQueue 0 ∅.

(** The entries under a key; a missing key reads as the empty slice. *)
Definition items_of (q : candidateQueue) (key : candidateKey) : list queuedCandidate :=
  default [] (cq_entries q !! key).

Definition intent_key (i : Intent) : candidateKey :=
  ((Resource_AccountID (in_Resource i)).1, in_Operation i).

Definition queue_add (q : candidateQueue) (submission : Submission)
    : queuedCandidate * candidateQueue :=
  let key := intent_key (sb_Intent submission) in
  let requestKey := trim_space (sb_RequestIdempotencyKey submission) in
  let requestKey := if bool_decide (requestKey = "")
                    then trim_space (in_IdempotencyKey (sb_Intent submission)) else requestKey in
  let next := ((cq_next q + 1) mod 2 ^ 64)%N in
  let entry := mkQueued next requestKey (sb_Intent submission)
                 (overrideKindForSubmission submission) false in
  (entry, mkCandidateQueue next (<[key := items_of q key ++ [entry]]> (cq_entries q))).

Definition hasIncompleteCandidate (items : list queuedCandidate) (except : N) : bool :=
  existsb (λ item, negb (bool_decide (qc_token item = except)) && negb (qc_completed item)) items.

Definition allCandidatesCompleted (items : list queuedCandidate) : bool :=
  forallb qc_completed items.

(** The first entry with the token, completed, and without it. *)
Fixpoint complete_token (items : list queuedCandidate) (token : N) : list queuedCandidate :=
  match items with
  | [] => []
  | item :: rest =>
      if bool_decide (qc_token item = token) then item <| qc_completed := true |> :: rest
      else item :: complete_token rest token
  end.
Fixpoint remove_token (items : list queuedCandidate) (token : N) : list queuedCandidate :=
  match items with
  | [] => []
  | item :: rest => if bool_decide (qc_token item = token) then rest else item :: remove_token rest token
  end.

Definition queue_finish (q : candidateQueue) (key : candidateKey) (token : N) (retain : bool)
    : candidateQueue :=
  let items := items_of q key in
  if negb (existsb (λ item, bool_decide (qc_token item = token)) items) then q
  else if retain && hasIncompleteCandidate items token then
    q <| cq_entries := <[key := complete_token items token]> (cq_entries q) |>
  else
    let items := remove_token items token in
    if bool_decide (length items = 0%nat) || allCandidatesCompleted items
    then q <| cq_entries := delete key (cq_entries q) |>
    else q <| cq_entries := <[key := items]> (cq_entries q) |>.

Definition queue_competing (q : candidateQueue) (entry : queuedCandidate) : list queuedCandidate :=
  (λ c, c <| qc_intent := cloneControlplaneIntent (qc_intent c) |>) <$>
    filter (λ c, ¬ (qc_token c = qc_token entry ∨ qc_requestKey c = qc_requestKey entry))
      (items_of q (intent_key (qc_intent entry))).
