(* ===== verification/Requests.v ===== *)
(** * Programs that make requests

    A component that talks to a store, a transport and a clock is a program: it makes
    requests, which an inductive family describes with the type of their replies, and
    continues with the replies; nothing is assumed of a reply, errors included. A trace
    records the exchanges of a run, stopped anywhere, as a crash or a cancelled context
    would stop it. A protocol says which request may follow which exchanges; [wp] is the
    condition under which a program keeps to it, whatever the replies. *)

From S2P Require Import Prelude.

Inductive prog (E : Type → Type) (A : Type) : Type :=
  | Ret (a : A)
  | Do {R : Type} (c : E R) (k : R → prog E A).
Arguments Ret {E A} a.
Arguments Do {E A R} c k.

Fixpoint prog_bind {E A B} (f : A → prog E B) (p : prog E A) : prog E B :=
  match p with
  | Ret a => f a
  | Do c k => Do c (λ r, prog_bind f (k r))
  end.
#[export] Instance prog_ret {E} : MRet (prog E) := λ A a, Ret a.
#[export] Instance prog_mbind {E} : MBind (prog E) := λ A B f p, prog_bind f p.

Definition call {E R} (c : E R) : prog E R := Do c Ret.

(** [x, err := p; if err != nil { h }; k] *)
Notation "'try' x ← p 'catch' e => h ; k" :=
  (mbind (λ r, match r with Err e => h | Ok x => k end) p)
  (at level 20, x pattern, p at level 100, e name, h at level 200, k at level 200,
   format "'try'  x  ←  p  'catch'  e  =>  h ;  '/' k") : go_scope.

(** ** Traces *)

Inductive exchange (E : Type → Type) :=
  | Exchange {R : Type} (c : E R) (r : R).
Arguments Exchange {E R} c r.

(** The exchanges of a run of [p], and its value when the run ended. *)
Fixpoint trace {E A} (p : prog E A) (tr : list (exchange E)) (value : option A) : Prop :=
  match p with
  | Ret a => tr = [] ∧ value = Some a
  | Do c k =>
      (tr = [] ∧ value = None)
      ∨ ∃ r tr', tr = Exchange c r :: tr' ∧ trace (k r) tr' value
  end.

(** ** Protocols *)

Record protocol (E : Type → Type) := mkProtocol {
  watch : Type;
  permitted : watch → ∀ R, E R → Prop;
  observe : watch → ∀ R, E R → R → watch;
}.
Arguments mkProtocol {E} watch permitted observe.
Arguments watch {E} _.
Arguments permitted {E} _ _ _ _.
Arguments observe {E} _ _ _ _ _.

Section protocols.
Context {E : Type → Type} (P : protocol E).

Fixpoint respects (w : watch P) (tr : list (exchange E)) : Prop :=
  match tr with
  | [] => True
  | Exchange c r :: tr => permitted P w _ c ∧ respects (observe P w _ c r) tr
  end.

Fixpoint watch_after (w : watch P) (tr : list (exchange E)) : watch P :=
  match tr with
  | [] => w
  | Exchange c r :: tr => watch_after (observe P w _ c r) tr
  end.

Fixpoint wp {A} (p : prog E A) (w : watch P) (Q : A → watch P → Prop) : Prop :=
  match p with
  | Ret a => Q a w
  | Do c k => permitted P w _ c ∧ ∀ r, wp (k r) (observe P w _ c r) Q
  end.

Lemma wp_mono {A} (p : prog E A) w (Q Q' : A → watch P → Prop) :
  (∀ a w', Q a w' → Q' a w') → wp p w Q → wp p w Q'.
Proof.
  intros HQ. revert w. induction p as [a|R c k IH]; intros w; simpl; [apply HQ|].
  intros [Hc Hk]. split; [done|]. auto.
Qed.

Lemma wp_bind {A B} (f : A → prog E B) (p : prog E A) w Q :
  wp (p ≫= f) w Q ↔ wp p w (λ a w', wp (f a) w' Q).
Proof.
  unfold mbind, prog_mbind. revert w. induction p as [a|R c k IH]; intros w; simpl; [done|].
  setoid_rewrite IH. done.
Qed.

(** A program that satisfies [wp] keeps to the protocol in every run, to wherever
    the run gets, and a run that ends satisfies the postcondition. *)
Lemma wp_adequate {A} (p : prog E A) w Q tr value :
  wp p w Q → trace p tr value →
  respects w tr ∧ ∀ a, value = Some a → Q a (watch_after w tr).
Proof.
  revert w tr. induction p as [a|R c k IH]; intros w tr; simpl.
  - intros HQ [-> ->]. simpl. split; [done|]. by intros ? [= <-].
  - intros [Hc Hk] [[-> ->]|(r & tr' & -> & Htr)]; [by simpl|].
    destruct (IH r _ tr' (Hk r) Htr) as [Hr Ha]. simpl. by split; [split|].
Qed.

(** The same for the runs whose replies satisfy an assumption on the environment. *)
Definition assumed (assume : ∀ R, E R → R → Prop) (tr : list (exchange E)) : Prop :=
  Forall (λ x, match x with @Exchange _ R c r => assume R c r end) tr.

Fixpoint wp_assuming (assume : ∀ R, E R → R → Prop) {A} (p : prog E A) (w : watch P)
    (Q : A → watch P → Prop) : Prop :=
  match p with
  | Ret a => Q a w
  | @Do _ _ R c k => permitted P w R c
      ∧ ∀ r, assume R c r → wp_assuming assume (k r) (observe P w R c r) Q
  end.

Lemma wp_assume assume {A} (p : prog E A) w Q : wp p w Q → wp_assuming assume p w Q.
Proof.
  revert w. induction p as [a|R c k IH]; intros w; simpl; [done|]. intros [Hc Hk]. auto.
Qed.

Lemma wp_assuming_mono assume {A} (p : prog E A) w (Q Q' : A → watch P → Prop) :
  (∀ a w', Q a w' → Q' a w') → wp_assuming assume p w Q → wp_assuming assume p w Q'.
Proof.
  intros HQ. revert w. induction p as [a|R c k IH]; intros w; simpl; [apply HQ|].
  intros [Hc Hk]. split; [done|]. auto.
Qed.

Lemma wp_assuming_bind assume {A B} (f : A → prog E B) (p : prog E A) w Q :
  wp_assuming assume (p ≫= f) w Q ↔
  wp_assuming assume p w (λ a w', wp_assuming assume (f a) w' Q).
Proof.
  unfold mbind, prog_mbind. revert w. induction p as [a|R c k IH]; intros w; simpl; [done|].
  setoid_rewrite IH. done.
Qed.

Lemma wp_assuming_adequate assume {A} (p : prog E A) w Q tr value :
  wp_assuming assume p w Q → trace p tr value → assumed assume tr →
  respects w tr ∧ ∀ a, value = Some a → Q a (watch_after w tr).
Proof.
  revert w tr. induction p as [a|R c k IH]; intros w tr; simpl.
  - intros HQ [-> ->] _. simpl. split; [done|]. by intros ? [= <-].
  - intros [Hc Hk] [[-> ->]|(r & tr' & -> & Htr)] Has; [by simpl|].
    apply Forall_cons in Has as [Har Has].
    destruct (IH r _ tr' (Hk r Har) Htr Has) as [Hr Ha]. simpl. by split; [split|].
Qed.

Lemma respects_app w tr1 tr2 :
  respects w (tr1 ++ tr2) ↔ respects w tr1 ∧ respects (watch_after w tr1) tr2.
Proof.
  revert w. induction tr1 as [|[R c r] tr1 IH]; intros w; simpl; [naive_solver|].
  rewrite IH. naive_solver.
Qed.
End protocols.

(** ** Running a program against an environment *)

Record environment (E : Type → Type) (S : Type) := mkEnvironment {
  serve : ∀ R, S → E R → R * S;
}.
Arguments mkEnvironment {E} S serve.
Arguments serve {E S} _ {R}.

Section run.
Context {E : Type → Type} {S : Type} (env : environment E S).

Fixpoint run {A} (p : prog E A) (s : S) : A * S :=
  match p with
  | Ret a => (a, s)
  | Do c k => let '(r, s) := serve env s c in run (k r) s
  end.

Fixpoint run_trace {A} (p : prog E A) (s : S) : list (exchange E) :=
  match p with
  | Ret _ => []
  | Do c k => let '(r, s) := serve env s c in Exchange c r :: run_trace (k r) s
  end.

Lemma run_traces {A} (p : prog E A) s : trace p (run_trace p s) (Some (run p s).1).
Proof.
  revert s. induction p as [a|R c k IH]; intros s; simpl; [done|].
  destruct (serve env s c) as [r s']. right. exists r, (run_trace (k r) s'). auto.
Qed.

(** [p] stopped after [n] requests: what it exchanged, and what it leaves. *)
Fixpoint stopped_run {A} (n : nat) (p : prog E A) (s : S) : list (exchange E) * S :=
  match n, p with
  | Datatypes.S n, Do c k =>
      let '(r, s) := serve env s c in
      let '(tr, s) := stopped_run n (k r) s in (Exchange c r :: tr, s)
  | _, _ => ([], s)
  end.

Lemma stopped_run_trace {A} n (p : prog E A) s : ∃ value, trace p (stopped_run n p s).1 value.
Proof.
  revert p s. induction n as [|n IH]; intros [a|R c k] s; cbn [stopped_run]; [by exists (Some a)|..].
  - exists None. by left.
  - by exists (Some a).
  - destruct (serve env s c) as [r s']. destruct (IH (k r) s') as [value Ht].
    destruct (stopped_run n (k r) s') as [tr s'']. exists value. right. by exists r, tr.
Qed.
End run.

(** * Loops of programs

    A [for] over a slice in a method that makes requests: its body goes on with the next
    element, or returns from the method. The rules follow an invariant of the loop
    through [wp] of [Requests]. *)

(** The end of an iteration: the variables the loop carries, or the method's result. *)
Inductive flow (S R : Type) : Type :=
  | Next (s : S)
  | Return (r : R).
Arguments Next {S R} s.
Arguments Return {S R} r.

Section loops.
Context {E : Type → Type} {A : Type}.

Fixpoint for_each {S R} (f : A → S → prog E (flow S R)) (l : list A) (s : S) : prog E (flow S R) :=
  match l with
  | [] => mret (Next s)
  | a :: l =>
      next ← f a s;
      match next with
      | Next s => for_each f l s
      | Return r => mret (Return r)
      end
  end.

(** A loop that always runs to its end. *)
Fixpoint for_all {S} (f : A → S → prog E S) (l : list A) (s : S) : prog E S :=
  match l with
  | [] => mret s
  | a :: l => s ← f a s; for_all f l s
  end.

Section rules.
Context (P : protocol E).

Lemma wp_for_each {S R} (f : A → S → prog E (flow S R)) (I : S → watch P → Prop) (Q : R → watch P → Prop) l s w :
  I s w →
  (∀ a s w, a ∈ l → I s w →
    wp P (f a s) w (λ next w, match next with Next s => I s w | Return r => Q r w end)) →
  wp P (for_each f l s) w (λ next w, match next with Next s => I s w | Return r => Q r w end).
Proof.
  revert s w. induction l as [|a l IH]; intros s w Hi Hf; [done|]. cbn [for_each].
  rewrite wp_bind. eapply wp_mono; [|apply Hf; [by left|exact Hi]].
  intros [s'|r] w' Hw; [|done]. apply IH; [done|]. intros b s1 w1 Hb. apply Hf. by right.
Qed.

(** Here the invariant may speak of the elements that are left. *)
Lemma wp_for_all {S} (f : A → S → prog E S) (I : list A → S → watch P → Prop) l s w :
  I l s w → (∀ a l s w, I (a :: l) s w → wp P (f a s) w (I l)) → wp P (for_all f l s) w (I []).
Proof.
  intros Hi Hf. revert s w Hi. induction l as [|a l IH]; intros s w Hi; [done|]. cbn [for_all].
  rewrite wp_bind. eapply wp_mono; [|apply Hf; exact Hi]. intros s' w' Hw. by apply IH.
Qed.

Lemma wp_for_each_left {S R} (f : A → S → prog E (flow S R)) (I : list A → S → watch P → Prop)
    (Q : R → watch P → Prop) l s w :
  I l s w →
  (∀ a l s w, I (a :: l) s w →
    wp P (f a s) w (λ next w, match next with Next s => I l s w | Return r => Q r w end)) →
  wp P (for_each f l s) w (λ next w, match next with Next s => I [] s w | Return r => Q r w end).
Proof.
  intros Hi Hf. revert s w Hi. induction l as [|a l IH]; intros s w Hi; [done|]. cbn [for_each].
  rewrite wp_bind. eapply wp_mono; [|apply Hf; exact Hi]. intros [s'|r] w' Hw; [by apply IH|done].
Qed.

Lemma wp_request {B R} (c : E R) (k : R → prog E B) w Q :
  permitted P w R c → (∀ r, wp P (k r) (observe P w R c r) Q) → wp P (call c ≫= k) w Q.
Proof. intros Hc Hk. rewrite wp_bind. by split. Qed.
End rules.
End loops.

Lemma run_bind {E : Type → Type} {S A B} (env : environment E S) (f : A → prog E B) (p : prog E A) s :
  run env (p ≫= f) s = run env (f (run env p s).1) (run env p s).2.
Proof.
  unfold mbind, prog_mbind. revert s. induction p as [a|R c k IH]; intros s; cbn; [done|].
  destruct (serve env s c) as [r s']. apply IH.
Qed.

(** ** Programs of another component

    A component that calls another issues the other's requests among its own. *)
Fixpoint lift {E F : Type → Type} (h : ∀ R, E R → F R) {A} (p : prog E A) : prog F A :=
  match p with
  | Ret a => Ret a
  | Do c k => Do (h _ c) (λ r, lift h (k r))
  end.

(** The protocol the other component sees. *)
Definition through {E F : Type → Type} (h : ∀ R, E R → F R) (P : protocol F) : protocol E :=
  mkProtocol (watch P) (λ w R c, permitted P w R (h R c)) (λ w R c r, observe P w R (h R c) r).

Lemma wp_lift {E F : Type → Type} (h : ∀ R, E R → F R) (P : protocol F) {A} (p : prog E A) w Q :
  wp P (lift h p) w Q ↔ wp (through h P) p w Q.
Proof.
  revert w. induction p as [a|R c k IH]; intros w; cbn; [done|].
  split; intros [Hc Hk]; (split; [exact Hc|]); intros r; by apply IH, Hk.
Qed.

(** Every request that a run of [p] may make is one of [ok]. *)
Fixpoint only {E : Type → Type} (ok : ∀ R, E R → Prop) {A} (p : prog E A) : Prop :=
  match p with
  | Ret _ => True
  | Do c k => ok _ c ∧ ∀ r, only ok (k r)
  end.

Lemma only_bind {E : Type → Type} (ok : ∀ R, E R → Prop) {A B} (f : A → prog E B) (p : prog E A) :
  only ok p → (∀ a, only ok (f a)) → only ok (p ≫= f).
Proof.
  unfold mbind, prog_mbind. intros Hp Hf. induction p as [a|R c k IH]; cbn; [done|].
  destruct Hp as [Hc Hk]. split; [done|]. intros r. by apply IH, Hk.
Qed.

Lemma only_mono {E : Type → Type} (ok ok' : ∀ R, E R → Prop) {A} (p : prog E A) :
  (∀ R c, ok R c → ok' R c) → only ok p → only ok' p.
Proof. intros H. induction p as [a|R c k IH]; cbn; [done|]. intros [Hc Hk]. auto. Qed.

Lemma only_for_each {E : Type → Type} (ok : ∀ R, E R → Prop) {A S R} (f : A → S → prog E (flow S R)) l s :
  (∀ a s, only ok (f a s)) → only ok (for_each f l s).
Proof.
  intros Hf. revert s. induction l as [|a l IH]; intros s; cbn [for_each]; [done|].
  apply only_bind; [done|]. intros [|]; [apply IH|done].
Qed.

Lemma only_for_all {E : Type → Type} (ok : ∀ R, E R → Prop) {A S} (f : A → S → prog E S) l s :
  (∀ a s, only ok (f a s)) → only ok (for_all f l s).
Proof.
  intros Hf. revert s. induction l as [|a l IH]; intros s; cbn [for_all]; [done|]. by apply only_bind.
Qed.

Lemma only_lift {E F : Type → Type} (h : ∀ R, E R → F R) (ok : ∀ R, F R → Prop) {A} (p : prog E A) :
  only (λ R c, ok R (h R c)) p → only ok (lift h p).
Proof. induction p as [a|R c k IH]; cbn; [done|]. intros [Hc Hk]. split; [done|]. auto. Qed.

Lemma only_trace {E : Type → Type} (ok : ∀ R, E R → Prop) {A} (p : prog E A) tr value :
  only ok p → trace p tr value → Forall (λ x, match x with Exchange c _ => ok _ c end) tr.
Proof.
  revert tr. induction p as [a|R c k IH]; intros tr; cbn; [by intros _ [-> _]|].
  intros [Hc Hk] [[-> _]|(r & tr' & -> & Htr)]; constructor; [done|]. by apply (IH r).
Qed.

(** Such requests keep an invariant of the protocol when each of them does. *)
Lemma wp_only {E : Type → Type} (P : protocol E) (ok : ∀ R, E R → Prop) (I : watch P → Prop) {A} (p : prog E A) w :
  (∀ w R c, I w → ok R c → permitted P w R c ∧ ∀ r, I (observe P w R c r)) →
  only ok p → I w → wp P p w (λ _, I).
Proof.
  intros Hok. revert w. induction p as [a|R c k IH]; intros w; cbn; [done|]. intros [Hc Hk] Hw.
  destruct (Hok w R c Hw Hc) as [Hp Ho]. split; [done|]. intros r. by apply IH.
Qed.

(** Splits [only] along a program and discharges the requests it recognises. *)
Ltac only_steps :=
  repeat lazymatch goal with
  | |- only _ (Ret _) => exact I
  | |- only _ (mret _) => exact I
  | |- only _ (_ ≫= _) => apply only_bind; [|intros ?]
  | |- only _ (call _) => split; [|intros ?; exact I]
  | |- only _ (Do _ _) => split; [|intros ?]
  | |- only _ (if ?b then _ else _) => destruct b
  | |- only _ (match ?x with _ => _ end) => destruct x
  | |- only _ (let x := _ in _) => cbv zeta
  end.
