(* ===== verification/Effects.v ===== *)
(** * The requests of the account service

    The account service talks to a [Repository], a [Transport], a clock and an
    identifier generator ([internal/accountcontrol/types.go], [service.go]). Its
    methods are programs, in the sense of [Requests], that issue these requests in
    order. *)

From S2P Require Import Prelude GoStd Intent Model AccountTypes AccountQueue Requests.

(** The methods of [Repository] and [Transport], [Service.now] and
    [Service.idGenerator], and the operations on what the service shares between
    submissions: the candidate queue, the account locks and the slots. *)
Inductive Call : Type → Type :=
  | GetControl (accountID : Z) : Call (result error AccountControl)
  | GetActiveBalanceLock (accountID : Z) : Call (result error (option BalanceLock))
  | GetActiveCostLock (accountID : Z) : Call (result error (option CostLock))
  | GetAgentFreezeState (scopeType scopeID : string) : Call (result error AgentFreezeState)
  | ListActiveAccountOverrides (accountID : Z) (operation : Operation) (now : time)
      : Call (result error (list Override))
  | FindActiveAccountOverride (accountID : Z) (operation : Operation) (authority : Authority)
      (now : time) : Call (result error (option Override))
  | GetAccountOverrideRevision (accountID : Z) (operation : Operation) (now : time)
      : Call (result error string)
  | FindAccountMutationByIdempotency (key : string) : Call (result error (option Mutation))
  | PrepareAccountMutation (mutation : Mutation) (override : option Override)
      : Call (result error (Mutation * bool))
  | UpdateAccountMutation (mutation : Mutation) : Call (result error unit)
  | FinalizeAccountMutation (finalization : Finalization) : Call (result error unit)
  | ListPendingAccountMutations (limit : Z) : Call (result error (list Mutation))
  | ListAccounts : Call (result error (list Account))
  | SetSchedulable (accountID : Z) (schedulable : bool) : Call (result error Account)
  | UpdateLoadFactor (accountID : Z) (loadFactor : option Z) : Call (result error Account)
  | Now : Call time
  | NewID : Call (result error string)
  | AddCandidate (submission : Submission) : Call queuedCandidate
  | FinishCandidate (entry : queuedCandidate) (retain : bool) : Call unit
  | CompetingCandidates (entry : queuedCandidate) : Call (list queuedCandidate)
  | AcquireAccount (accountID : Z) : Call (result error unit)
  | ReleaseAccount (accountID : Z) : Call unit
  | AcquireSlot : Call (result error unit)
  | ReleaseSlot : Call unit.

Abbreviation prog := (Requests.prog Call).
Abbreviation exchange := (Requests.exchange Call).
Abbreviation protocol := (Requests.protocol Call).
Abbreviation environment := (Requests.environment Call).
