(* ===== verification/AccountGuard.v ===== *)
(** * The safety guard

    [internal/accountcontrol/guard.go]: what must hold before an account's state is
    raised, checked against the freeze state, the account and its locks. *)

From S2P Require Import Prelude GoStd Intent Model AccountTypes Requests Effects.

Definition unsafeTarget (intent : Intent) (account : Account) : bool :=
  if bool_decide (in_Operation intent = OperationSetAccountSchedulable) then
    let '(value, ok) := Schedulable (in_DesiredState intent) in
    ok && value
  else if bool_decide (in_Operation intent = OperationSetAccountLoadFactor) then
    let '(value, configured, ok) := LoadFactor (in_DesiredState intent) in
    if negb ok then true else
    let current := match acc_LoadFactor account with Some factor => factor | None => 100%Z end in
    if negb configured then bool_decide (is_Some (acc_LoadFactor account))
    else (current <? value)%Z
  else true.

Definition accountRateLimited (account : Account) (now : time) : bool :=
  existsb (λ until, match until with Some t => after t now | None => false end)
    [acc_RateLimitResetAt account; acc_OverloadUntil account; acc_TempUnschedulableUntil account].

Section with_unicode.
Context `{UnicodeTables}.

Definition accountCredentialValid (account : Account) (now : time) : bool :=
  if negb (bool_decide (acc_Status account = "active"))
     || negb (bool_decide (trim_space (acc_ErrorMessage account) = "")) then false else
  let credentialStatus := to_lower (trim_space (acc_CredentialStatus account)) in
  if bool_decide (credentialStatus = "invalid") || bool_decide (credentialStatus = "expired")
     || bool_decide (credentialStatus = "error") then false else
  match acc_ExpiresAt account with
  | Some seconds => negb ((0 <? seconds)%Z && before (seconds * second)%Z now)
  | None => true
  end.

(** The reason to block, and the error that made the check fail. *)
Abbreviation verdict := (string * option error)%type (only parsing).

(** The last checks, for automation. *)
Definition check_automation (intent : Intent) (safety : SafetyContext) : prog verdict :=
  if bool_decide (in_Authority intent = AuthorityActivePolicy)
     || bool_decide (in_Authority intent = AuthorityAutonomousAgent) then
    if negb (sf_TelemetryFresh safety) then Ret (BlockStaleTelemetry, None)
    else if sf_CooldownActive safety then Ret (BlockCooldown, None)
    else Ret (BlockNone, None)
  else Ret (BlockNone, None).

(** The checks for an unsafe increase, and what follows them. *)
Definition check_increase (intent : Intent) (account : Account) (control : AccountControl)
    (safety : SafetyContext) : prog verdict :=
  now ← call Now;
  if negb (accountCredentialValid account now) then Ret (BlockCredentialInvalid, None) else
  now ← call Now;
  if accountRateLimited account now then Ret (BlockRateLimited, None) else
  if ct_HealthLocked control then Ret (BlockHealthLocked, None) else
  try balanceLock ← call (GetActiveBalanceLock (acc_ID account))
    catch lockErr => Ret (BlockBalanceLocked, Some lockErr);
  if bool_decide (is_Some balanceLock) || ct_BalanceLocked control
  then Ret (BlockBalanceLocked, None) else
  try costLock ← call (GetActiveCostLock (acc_ID account))
    catch lockErr => Ret (BlockCostLocked, Some lockErr);
  if bool_decide (is_Some costLock) || ct_CostLocked control
  then Ret (BlockCostLocked, None) else check_automation intent safety.

(** What the freeze mode in force forbids. *)
Definition freeze_block (intent : Intent) (mode : string) : BlockReason :=
  if bool_decide (mode = AgentFreezeModeWritesFrozen) then BlockWritesFrozen
  else if bool_decide (in_Producer intent = ProducerAgentOperator)
     && (bool_decide (mode = AgentFreezeModeAgentPaused) || bool_decide (mode = AgentFreezeModeReadOnly))
  then BlockAgentWritesFrozen
  else if bool_decide (in_Authority intent = AuthorityActivePolicy)
     && bool_decide (mode = AgentFreezeModeReadOnly)
  then BlockWritesFrozen
  else BlockNone.

Definition checkSafety (intent : Intent) (account : Account) (control : AccountControl)
    (safety : SafetyContext) : prog verdict :=
  try freeze ← call (GetAgentFreezeState "global" "") catch err => Ret (BlockWritesFrozen, Some err);
  mode ← match fz_ExpiresAt freeze with
         | None => Ret (fz_Mode freeze)
         | Some expires =>
             now ← call Now;
             Ret (if negb (after expires now) then AgentFreezeModeActive else fz_Mode freeze)
         end;
  if negb (bool_decide (freeze_block intent mode = BlockNone))
  then Ret (freeze_block intent mode, None)
  else if unsafeTarget intent account then check_increase intent account control safety
  else check_automation intent safety.
End with_unicode.
