(* ===== verification/AccountProjection.v ===== *)
(** * What the service reads off accounts and mutations

    [internal/accountcontrol/projection.go], with the comparisons of [recovery.go]
    and [findAccount] of [executor.go]: whether an account has the state an intent
    wants, the answer a stored mutation stands for, and the control record after a
    verified mutation. *)

From S2P Require Import Prelude GoStd Intent Model AccountTypes.
From Stdlib Require Import Ascii.

Definition findAccount (accounts : list Account) (accountID : Z) : option Account :=
  List.find (λ account, (acc_ID account =? accountID)%Z) accounts.

Definition accountMatchesIntent (account : Account) (intent : Intent) : bool :=
  let '(value, ok) := Schedulable (in_DesiredState intent) in
  if (ok : bool) then bool_decide (acc_Schedulable account = value) else
  let '(value, configured, ok) := LoadFactor (in_DesiredState intent) in
  if negb ok then false
  else if negb configured then bool_decide (acc_LoadFactor account = None)
  else match acc_LoadFactor account with Some factor => (factor =? value)%Z | None => false end.

Definition sameInt (left right : option Z) : bool :=
  match left, right with
  | Some l, Some r => (l =? r)%Z
  | _, _ => bool_decide (left = None) && bool_decide (right = None)
  end.

Definition sameAccountState (left right : Account) : bool :=
  if negb (Bool.eqb (acc_Schedulable left) (acc_Schedulable right)) then false else
  match acc_LoadFactor left, acc_LoadFactor right with
  | Some l, Some r => (l =? r)%Z
  | _, _ => bool_decide (acc_LoadFactor left = None) && bool_decide (acc_LoadFactor right = None)
  end.

Definition stateFromAccount (account : Account) : AccountState :=
  mkAccountState (acc_Schedulable account) (cloneInt (acc_LoadFactor account)).

Definition stateMatchesAccount (state : AccountState) (account : Account) : bool :=
  Bool.eqb (st_Schedulable state) (acc_Schedulable account)
  && sameInt (st_LoadFactor state) (acc_LoadFactor account).

Definition resultFromMutation (m : Mutation) (replay : bool) : Result :=
  let result := mkResult (mu_CommandID m) (mu_ID m) (mu_IntentID m) (mu_AccountID m)
    (mu_Operation m) (mkAccountState false None) (mu_RequestedLoadSet m) (mu_WinningAuthority m)
    (mu_Status m) (mu_LastErrorCode m) (mu_Before m) (mu_After m) (cloneTime (mu_ExpiresAt m))
    replay
    (bool_decide (mu_Status m = StatusUncertain) || bool_decide (mu_Status m = StatusVerifying)) in
  let result := result <| rs_ExpiresAt := cloneTime (mu_WinningExpiresAt m) |> in
  let requested := rs_Requested result in
  let requested := match mu_RequestedSchedulable m with
                   | Some value => requested <| st_Schedulable := value |>
                   | None => requested
                   end in
  let requested := if mu_RequestedLoadSet m
                   then requested <| st_LoadFactor := cloneInt (mu_RequestedLoadFactor m) |>
                   else requested in
  result <| rs_Requested := requested |>.

Definition replayMutation (m : Mutation) : Result * option error :=
  let result := resultFromMutation m true in
  if bool_decide (mu_Status m ∈ [StatusApplied; StatusAppliedNoop; StatusSuperseded; StatusExpired])
  then (result, None)
  else if bool_decide (mu_Status m = StatusBlocked) then (result, Some (BlockedError result))
  else (result, Some (MutationStateError result None)).

Definition policyPauseOwner (c : AccountControl) : string :=
  let count := 0%nat in
  let count := if ct_HealthLocked c then S count else count in
  let count := if ct_BalanceLocked c then S count else count in
  let count := if ct_CostLocked c then S count else count in
  if (1 <? count)%nat then "combined"
  else if ct_BalanceLocked c then "balance"
  else if ct_CostLocked c then "cost"
  else "automatic".

(** The pin of a load factor removed. *)
Definition clear_load_pin (c : AccountControl) : AccountControl :=
  c <| ct_LoadPinValue := None |> <| ct_LoadPinUntil := None |>
    <| ct_LoadPinOwner := "" |> <| ct_LoadPinReason := "" |>.

Definition update_schedulable (c : AccountControl) (m : Mutation) (verified : Account)
    : AccountControl :=
  let value := acc_Schedulable verified in
  let c := c <| ct_ExpectedSchedulable := Some value |> <| ct_LastObserved := Some value |>
             <| ct_OwnsPause := negb value |> in
  let c :=
    if value then
      let c := c <| ct_Owner := "" |> <| ct_ManualLocked := false |> in
      if bool_decide (mu_WinningAuthority m = AuthorityActivePolicy)
      then c <| ct_FlapActive := false |> <| ct_FlapTriggeredAt := None |>
             <| ct_FlapRecoveryRequired := 0%Z |>
      else c
    else
      let c :=
        if bool_decide (mu_WinningAuthority m ∈ [AuthorityManualHold; AuthorityAdministratorCommand])
        then c <| ct_Owner := "operator" |>
        else if bool_decide (mu_WinningAuthority m = AuthorityAutonomousAgent)
        then c <| ct_Owner := "agent" |>
        else c <| ct_Owner := policyPauseOwner c |> in
      c <| ct_ManualLocked := bool_decide (mu_WinningAuthority m = AuthorityManualHold) |> in
  c <| ct_ManualOverrideUntil := cloneTime (mu_WinningExpiresAt m) |>.

Definition update_load_factor (c : AccountControl) (m : Mutation) (verified : Account)
    (submission : Submission) (now : time) : AccountControl :=
  let c := match ct_OriginalLoadFactor c, mu_Before m with
           | None, Some b => c <| ct_OriginalLoadFactor := cloneInt (st_LoadFactor b) |>
           | _, _ => c
           end in
  let c := c <| ct_ExpectedLoadFactor := cloneInt (acc_LoadFactor verified) |>
             <| ct_OwnsLoadFactor :=
                  bool_decide (mu_WinningAuthority m = AuthorityActivePolicy) && mu_WinningLoadSet m |> in
  let c :=
    if bool_decide (ev_Type (sb_Event submission) = "load_factor_restored")
    then clear_load_pin
      (c <| ct_OwnsLoadFactor := false |> <| ct_OriginalLoadFactor := None |>
         <| ct_LoadStage := HealthStageHealthy |> <| ct_RecoveryStep := 0%Z |>
         <| ct_RecoveryStartedAt := None |> <| ct_LoadOverrideUntil := None |>)
    else c in
  if bool_decide (mu_WinningOverrideKind m = OverrideKindLoadPin) then
    c <| ct_OwnsLoadFactor := mu_WinningLoadSet m |>
      <| ct_LoadPinValue := cloneInt (acc_LoadFactor verified) |>
      <| ct_LoadPinUntil := cloneTime (mu_WinningExpiresAt m) |>
      <| ct_LoadPinOwner := mu_WinningActor m |>
      <| ct_LoadPinReason := mu_WinningReason m |>
      <| ct_LoadOverrideUntil := None |>
  else if bool_decide (mu_WinningAuthority m = AuthorityAdministratorCommand)
       || bool_decide (mu_WinningAuthority m = AuthorityAutonomousAgent) then
    c <| ct_LoadOverrideUntil := cloneTime (mu_WinningExpiresAt m) |>
  else if negb (bool_decide (sb_RevokeOverrideID submission = "")) then
    (clear_load_pin c) <| ct_LoadOverrideUntil := None |>
  else if bool_decide (mu_WinningAuthority m = AuthorityActivePolicy) then
    let c := c <| ct_LoadOverrideUntil := None |> in
    match ct_LoadPinUntil c with
    | Some until => if negb (after until now) then clear_load_pin c else c
    | None => c
    end
  else c.

Definition updateControl (control : AccountControl) (mutation : Mutation) (verified : Account)
    (submission : Submission) (now : time) : AccountControl :=
  let c := control <| ct_AccountID := mu_AccountID mutation |> <| ct_LastActionAt := Some now |>
             <| ct_LastDecision := mu_Status mutation |> in
  let c := if bool_decide (mu_Operation mutation = OperationSetAccountSchedulable)
           then update_schedulable c mutation verified
           else update_load_factor c mutation verified submission now in
  c <| ct_UpdatedAt := now |>.

Definition defaultEvent (m : Mutation) (status : MutationStatus) (reason : BlockReason) (now : time)
    : Event :=
  let message := "account mutation " +:+ status in
  let message := if negb (bool_decide (reason = BlockNone)) then message +:+ ": " +:+ reason else message in
  mkEvent 0 (mu_GoalID m) (mu_StepID m) ("account_mutation_" +:+ status) "info" None
    (Some (mu_AccountID m)) message "" "" (DetailsText "") (mu_Actor m) now.

(** [json.Marshal] of the state: the load factor is omitted when it is nil. *)
Definition quoted (s : string) : string :=
  String "034"%char (s +:+ String "034"%char "").
Definition formatState (state : option AccountState) : string :=
  match state with
  | None => ""
  | Some s =>
      "{" +:+ quoted "schedulable" +:+ ":" +:+ format_bool (st_Schedulable s)
      +:+ match st_LoadFactor s with
          | Some factor => "," +:+ quoted "load_factor" +:+ ":" +:+ format_int factor
          | None => ""
          end +:+ "}"
  end.

Section with_unicode.
Context `{UnicodeTables}.

(** The write may have happened although an error came back. *)
Definition ambiguousWriteError (err : error) : bool :=
  if match unwrapped err with
     | Some x => ex_network x || ex_deadline x || ex_eof x || ex_unexpected_eof x
     | None => false
     end then true else
  let message := to_lower (error_text err) in
  if contains message "returned 4" then false
  else contains message "timeout" || contains message "connection" || contains message "returned 5".
End with_unicode.

(** ** [recovery.go] *)

Definition intentExpired (intent : Intent) (now : time) : bool :=
  match in_ExpiresAt intent with
  | Some expires => negb (after expires now)
  | None => false
  end.

Definition recoveredOverrideStatus (intent : Intent) (now : time) : OverrideStatus :=
  if intentExpired intent now then OverrideExpired else OverrideActive.

#[global] Arguments resultFromMutation : simpl never.
#[global] Arguments updateControl : simpl never.
#[global] Arguments defaultEvent : simpl never.
#[global] Arguments formatState : simpl never.
