(* ===== verification/AccountService.v ===== *)
(** * The account control service

    [internal/accountcontrol/service.go] and [executor.go]: a submission is
    arbitrated against the active overrides and the submissions that overlap it,
    journaled, guarded, written to Sub2API and verified by reading the account
    back. The methods are programs over the requests of [Effects]; an answer is a
    [Result] with the error returned beside it. *)

From S2P Require Import Prelude GoStd Intent Arbiter Model AccountTypes AccountQueue Requests Effects AccountGuard AccountProjection.

(** [(Result, error)] *)
Abbreviation answer := (Result * option error)%type (only parsing).
Definition refuse (e : error) : prog answer := Ret (no_answer, Some e).

Section service.
Context `{UnicodeTables}.

(** ** [executor.go] *)

Definition executor_write (intent : Intent) : prog (result error unit) :=
  let '(accountID, _) := Resource_AccountID (in_Resource intent) in
  if bool_decide (in_Operation intent = OperationSetAccountSchedulable) then
    let '(value, _) := Schedulable (in_DesiredState intent) in
    try _ ← call (SetSchedulable accountID value) catch err => Ret (Err err);
    Ret (Ok ())
  else if bool_decide (in_Operation intent = OperationSetAccountLoadFactor) then
    let '(value, configured, _) := LoadFactor (in_DesiredState intent) in
    let desired := if (configured : bool) then Some value else None in
    try _ ← call (UpdateLoadFactor accountID desired) catch err => Ret (Err err);
    Ret (Ok ())
  else Ret (Err errUnsupportedOperation).

(** ** Reading *)

Definition readAccount (accountID : Z) : prog (result error Account) :=
  try accounts ← call ListAccounts catch err => Ret (Err err);
  match findAccount accounts accountID with
  | Some account => Ret (Ok account)
  | None => Ret (Err errAccountNotFound)
  end.

Definition loadControl (accountID : Z) : prog (result error AccountControl) :=
  try control ← call (GetControl accountID) catch err => Ret (Err err);
  try balanceLock ← call (GetActiveBalanceLock accountID) catch err => Ret (Err err);
  let control := control <| ct_BalanceLocked := bool_decide (is_Some balanceLock) |>
                         <| ct_BalanceSourceID := None |> in
  let control := match balanceLock with
                 | Some lock => control <| ct_BalanceSourceID := Some (bl_SourceID lock) |>
                 | None => control
                 end in
  try costLock ← call (GetActiveCostLock accountID) catch err => Ret (Err err);
  let control := control <| ct_CostLocked := bool_decide (is_Some costLock) |>
                         <| ct_CostSourceID := None |> <| ct_CostPool := "" |> in
  let control := match costLock with
                 | Some lock => control <| ct_CostSourceID := Some (cl_SourceID lock) |>
                                        <| ct_CostPool := cl_Pool lock |>
                 | None => control
                 end in
  Ret (Ok control).

(** ** Mutations *)

Definition validateAccountIntent (intent : Intent) : result error unit :=
  match Intent_Validate intent with
  | Err err => Err (InvalidIntent err)
  | Ok _ =>
      let '(_, ok) := Resource_AccountID (in_Resource intent) in
      if negb ok then Err (NewError "account mutation requires an account resource")
      else if negb (bool_decide (in_Operation intent = OperationSetAccountSchedulable))
           && negb (bool_decide (in_Operation intent = OperationSetAccountLoadFactor))
      then Err errUnsupportedOperation
      else Ok ()
  end.

Definition setRequestedMutation (m : Mutation) (intent : Intent) : Mutation :=
  let '(value, ok) := Schedulable (in_DesiredState intent) in
  if (ok : bool) then m <| mu_RequestedSchedulable := Some value |> else
  let '(value, configured, ok) := LoadFactor (in_DesiredState intent) in
  if (ok : bool) then
    let m := m <| mu_RequestedLoadSet := configured |> in
    if (configured : bool) then m <| mu_RequestedLoadFactor := Some value |> else m
  else m.

Definition setWinningMutation (m : Mutation) (intent : Intent) (kind : OverrideKind) : Mutation :=
  let m := m <| mu_WinningIntentID := in_ID intent |>
             <| mu_WinningIdempotencyKey := in_IdempotencyKey intent |>
             <| mu_WinningProducer := in_Producer intent |>
             <| mu_WinningAuthority := in_Authority intent |>
             <| mu_WinningActor := in_Actor intent |>
             <| mu_WinningReason := in_Reason intent |>
             <| mu_WinningEvidenceRefs := in_EvidenceRefs intent |>
             <| mu_WinningPolicyVersion := in_PolicyVersion intent |>
             <| mu_WinningSnapshotVersion := in_SnapshotVersion intent |>
             <| mu_WinningCreatedAt := in_CreatedAt intent |>
             <| mu_WinningExpiresAt := cloneTime (in_ExpiresAt intent) |>
             <| mu_WinningOverrideKind := kind |>
             <| mu_WinningSchedulable := None |>
             <| mu_WinningLoadFactor := None |>
             <| mu_WinningLoadSet := false |> in
  let '(value, ok) := Schedulable (in_DesiredState intent) in
  if (ok : bool) then m <| mu_WinningSchedulable := Some value |> else
  let '(value, configured, ok) := LoadFactor (in_DesiredState intent) in
  if (ok : bool) then
    let m := m <| mu_WinningLoadSet := configured |> in
    if (configured : bool) then m <| mu_WinningLoadFactor := Some value |> else m
  else m.

Definition newMutation (id : string) (submission : Submission) (winner : Intent)
    (winnerKind : OverrideKind) (now : time) : result error Mutation :=
  let intent := sb_Intent submission in
  match SemanticSignature intent with
  | Err err => Err (InvalidIntent err)
  | Ok signature =>
      let '(accountID, _) := Resource_AccountID (in_Resource intent) in
      let idempotencyKey := trim_space (sb_RequestIdempotencyKey submission) in
      let idempotencyKey := if bool_decide (idempotencyKey = "")
                            then in_IdempotencyKey intent else idempotencyKey in
      let requestSignature := trim_space (sb_RequestSemanticSignature submission) in
      let requestSignature := if bool_decide (requestSignature = "")
                              then signature else requestSignature in
      let mutation := mkMutation id (trim_space (sb_CommandID submission)) (in_ID intent)
        idempotencyKey requestSignature accountID (in_Operation intent) None None false
        "" "" "" "" "" "" [] "" "" zero_time None None None false ""
        (in_Producer intent) (in_Authority intent) (in_Actor intent) (ev_Type (sb_Event submission))
        (in_Reason intent) (in_PolicyVersion intent) (in_SnapshotVersion intent) 0 0 0
        (cloneTime (in_ExpiresAt intent)) StatusPrepared 0 None None "" (in_CreatedAt intent) now
        None "" (sb_RevokeOverrideID submission) (sf_TelemetryFresh (sb_Safety submission))
        (sf_CooldownActive (sb_Safety submission)) in
      let mutation := setRequestedMutation mutation intent in
      Ok (setWinningMutation mutation winner winnerKind)
  end.

(** ** Arbitration of a submission *)

(** The results of [Arbitrate] scanned for the submission's conflict key. *)
Fixpoint scan_results (results : list ArbitrationResult) (submitted : Intent)
    : option Intent * MutationStatus :=
  match results with
  | [] => (None, StatusSuperseded)
  | result :: rest =>
      if negb (bool_decide (ar_ConflictKey result = Intent_ConflictKey submitted))
      then scan_results rest submitted
      else match ar_Winner result with
      | Some w =>
          let winner := cloneControlplaneIntent w in
          if bool_decide (in_ID winner = in_ID submitted) then (Some winner, StatusPrepared)
          else (Some winner, StatusSuperseded)
      | None =>
          if existsb (λ ignored, bool_decide (in_ID (co_Intent ignored) = in_ID submitted)
                                 && bool_decide (co_ReasonCode ignored = ReasonExpired))
               (ar_Ignored result)
          then (None, StatusExpired) else scan_results rest submitted
      end
  end.

Definition submissionDecision (now : time) (candidates : list Intent) (submitted : Intent)
    : option Intent * MutationStatus :=
  scan_results (Arbitrate now candidates) submitted.

(** The intents of the active overrides, but the one to revoke, with their kinds. *)
Fixpoint override_candidates (overrides : list Override) (revoked : string)
    (candidates : list Intent) (kinds : gmap string string)
    : result error (list Intent * gmap string string) :=
  match overrides with
  | [] => Ok (candidates, kinds)
  | override :: rest =>
      if bool_decide (ov_ID override = revoked) then override_candidates rest revoked candidates kinds
      else match Override_Intent override with
      | Err conversionErr => Err (Errorf ("load override " +:+ ov_ID override) conversionErr)
      | Ok intent =>
          override_candidates rest revoked (candidates ++ [intent])
            (<[in_ID intent := ov_Kind override]> kinds)
      end
  end.

Definition activeCandidates (submission : Submission) (queued : queuedCandidate) (now : time)
    : prog (result error (list Intent * gmap string string)) :=
  let submitted := sb_Intent submission in
  let '(accountID, _) := Resource_AccountID (in_Resource submitted) in
  try overrides ← call (ListActiveAccountOverrides accountID (in_Operation submitted) now)
    catch err => Ret (Err err);
  match override_candidates overrides (sb_RevokeOverrideID submission) [] ∅ with
  | Err err => Ret (Err err)
  | Ok (candidates, kinds) =>
      let kinds := if sb_PersistOverride submission
                   then <[in_ID submitted := overrideKindForSubmission submission]> kinds
                   else kinds in
      competing ← call (CompetingCandidates queued);
      let '(candidates, kinds) :=
        foldl (λ acc candidate,
          (acc.1 ++ [qc_intent candidate],
           <[in_ID (qc_intent candidate) := qc_kind candidate]> acc.2)) (candidates, kinds) competing in
      Ret (Ok (candidates ++ [submitted], kinds))
  end.

(** ** Endings *)

Definition finishWithoutWrite (submission : Submission) (m : Mutation) (status : MutationStatus)
    (reason : BlockReason) (cause : option error) : prog answer :=
  let m := m <| mu_Status := status |> <| mu_LastErrorCode := reason |> in
  let m := if bool_decide (mu_LastErrorCode m = "") && bool_decide (is_Some cause)
           then m <| mu_LastErrorCode := "mutation_failed" |> else m in
  now ← call Now;
  let m := m <| mu_UpdatedAt := now |> <| mu_CompletedAt := Some now |> in
  let overrideStatus :=
    if bool_decide (status = StatusBlocked) then OverrideBlocked
    else if bool_decide (status = StatusExpired) then OverrideExpired
    else if bool_decide (status = StatusSuperseded) then OverrideSuperseded
    else OverrideFailed in
  let event := if bool_decide (ev_Type (sb_Event submission) = "")
               then defaultEvent m status reason now else sb_Event submission in
  let event := event <| ev_GoalID := mu_GoalID m |> <| ev_StepID := mu_StepID m |> in
  try _ ← call (FinalizeAccountMutation
      (mkFinalization m no_control event false overrideStatus "" "" "" None))
    catch finalErr => refuse finalErr;
  let result := resultFromMutation m false in
  if bool_decide (status = StatusBlocked) then Ret (result, Some (BlockedError result))
  else match cause with
       | Some _ => Ret (result, Some (MutationStateError result cause))
       | None => Ret (result, None)
       end.

Definition markUncertain (m : Mutation) (code : string) (cause : option error) : prog answer :=
  let m := m <| mu_Status := StatusUncertain |> <| mu_LastErrorCode := code |> in
  now ← call Now;
  let m := m <| mu_UpdatedAt := now |> in
  try _ ← call (UpdateAccountMutation m) catch err => refuse err;
  let result := resultFromMutation m false in
  let cause := match cause with Some c => c | None => NewError code end in
  Ret (result, Some (MutationStateError result (Some cause))).

Definition finalize (submission : Submission) (m : Mutation) (pendingOverride : option Override)
    (control : AccountControl) (verified : Account) (noop : bool) : prog answer :=
  now ← call Now;
  let m := if noop then m <| mu_Status := StatusAppliedNoop |> else m in
  let m := m <| mu_UpdatedAt := now |> <| mu_CompletedAt := Some now |> in
  let control := updateControl control m verified submission now in
  let event := if bool_decide (ev_Type (sb_Event submission) = "")
               then defaultEvent m (mu_Status m) BlockNone now else sb_Event submission in
  let event := if bool_decide (mu_Status m = StatusAppliedNoop)
               then event <| ev_Type := "account_mutation_applied_noop" |>
                          <| ev_Severity := "info" |>
                          <| ev_Message := "账号实际状态已满足仲裁结果，未调用写接口" |>
               else event in
  let event := event <| ev_AccountID := Some (mu_AccountID m) |>
                     <| ev_GoalID := mu_GoalID m |> <| ev_StepID := mu_StepID m |>
                     <| ev_Actor := mu_Actor m |> <| ev_CreatedAt := now |>
                     <| ev_BeforeState := formatState (mu_Before m) |>
                     <| ev_AfterState := formatState (mu_After m) |>
                     <| ev_Details := DetailsMutation (mu_ID m) (mu_IntentID m) (mu_WinningProducer m)
                          (mu_WinningAuthority m) (mu_Operation m) (mu_Status m)
                          (mu_WinningExpiresAt m)
                          ((λ s, (st_Schedulable s, st_LoadFactor s)) <$> mu_After m)
                          (bool_decide (mu_Status m = StatusUncertain)) |> in
  let finalization := mkFinalization m control event (bool_decide (is_Some pendingOverride))
    OverrideActive (sb_RevokeOverrideID submission) (mu_Actor m)
    "superseded by explicit account control command" (sb_FlapPolicy submission) in
  try _ ← call (FinalizeAccountMutation finalization) catch err =>
    (let m := m <| mu_Status := StatusVerifying |> <| mu_CompletedAt := None |>
                <| mu_LastErrorCode := "local_commit_failed" |> in
     _ ← call (UpdateAccountMutation m);
     let result := resultFromMutation m false in
     Ret (result, Some (MutationStateError result (Some
       (Errorf "account mutation applied upstream but local commit is uncertain" err)))));
  Ret (resultFromMutation m false, None).

(** ** Writing and verifying *)

(** The account has the state the winner wants: record it and finalize. *)
Definition finish_applied (submission : Submission) (m : Mutation)
    (pendingOverride : option Override) (control : AccountControl) (verified : Account) : prog answer :=
  let m := m <| mu_After := Some (stateFromAccount verified) |> <| mu_Status := StatusApplied |> in
  finalize submission m pendingOverride control verified false.

Definition controlled_retry (submission : Submission) (m : Mutation)
    (pendingOverride : option Override) (control : AccountControl) (winner : Intent) : prog answer :=
  let m := m <| mu_Status := StatusExecuting |> <| mu_AttemptCount := (mu_AttemptCount m + 1)%Z |>
             <| mu_LastErrorCode := "controlled_retry" |> in
  now ← call Now;
  let m := m <| mu_UpdatedAt := now |> in
  try _ ← call (UpdateAccountMutation m) catch err => refuse err;
  try _ ← executor_write winner catch err =>
    (readback ← readAccount (mu_AccountID m);
     match readback with
     | Ok account =>
         if accountMatchesIntent account winner
         then finish_applied submission m pendingOverride control account
         else markUncertain m "controlled_retry_uncertain" (Some err)
     | Err _ => markUncertain m "controlled_retry_uncertain" (Some err)
     end);
  verified ← readAccount (mu_AccountID m);
  match verified with
  | Err err => markUncertain m "controlled_retry_unverified" (Some err)
  | Ok account =>
      if negb (accountMatchesIntent account winner)
      then markUncertain m "controlled_retry_unverified" None
      else finish_applied submission m pendingOverride control account
  end.

Definition resolveWriteError (submission : Submission) (m : Mutation)
    (pendingOverride : option Override) (control : AccountControl) (beforeAccount : Account)
    (winner : Intent) (writeErr : error) : prog answer :=
  if negb (ambiguousWriteError writeErr)
  then finishWithoutWrite submission m StatusFailed BlockNone (Some writeErr) else
  try readback ← readAccount (mu_AccountID m) catch _ =>
    markUncertain m "write_and_readback_uncertain" (Some writeErr);
  if accountMatchesIntent readback winner
  then finish_applied submission m pendingOverride control readback
  else if sameAccountState readback beforeAccount && (mu_AttemptCount m <? 2)%Z
  then controlled_retry submission m pendingOverride control winner
  else markUncertain m "write_state_diverged" (Some writeErr).

Definition write_and_verify (submission : Submission) (m : Mutation)
    (pendingOverride : option Override) (control : AccountControl) (account : Account)
    (winner : Intent) : prog answer :=
  let m := m <| mu_Status := StatusExecuting |> <| mu_AttemptCount := (mu_AttemptCount m + 1)%Z |> in
  now ← call Now;
  let m := m <| mu_UpdatedAt := now |> in
  try _ ← call (UpdateAccountMutation m) catch err => refuse err;
  try _ ← executor_write winner catch writeErr =>
    resolveWriteError submission m pendingOverride control account winner writeErr;
  let m := m <| mu_Status := StatusVerifying |> in
  now ← call Now;
  let m := m <| mu_UpdatedAt := now |> in
  try _ ← call (UpdateAccountMutation m) catch err =>
    Ret (resultFromMutation m false, Some (Errorf "persist verifying account mutation" err));
  try afterAccount ← readAccount (mu_AccountID m) catch err =>
    markUncertain m "post_write_read_failed" (Some err);
  if negb (accountMatchesIntent afterAccount winner)
  then markUncertain m "post_write_mismatch"
         (Some (NewError "verified upstream state does not match desired state"))
  else finish_applied submission m pendingOverride control afterAccount.

(** From the account and its control record on. *)
Definition guard_and_write (submission : Submission) (m : Mutation)
    (pendingOverride : option Override) (winner : Intent) (winnerKind : OverrideKind)
    (account : Account) (control : AccountControl) : prog answer :=
  let m := m <| mu_Before := Some (stateFromAccount account) |> in
  now ← call Now;
  let m := m <| mu_UpdatedAt := now |> in
  try _ ← call (UpdateAccountMutation m) catch err => refuse err;
  safety ← checkSafety winner account control (sb_Safety submission);
  let '(blockReason, err) := safety in
  if bool_decide (is_Some err) then finishWithoutWrite submission m StatusFailed blockReason err else
  if negb (bool_decide (blockReason = BlockNone))
  then finishWithoutWrite submission m StatusBlocked blockReason None else
  let m := setWinningMutation m winner winnerKind in
  now ← call Now;
  let m := m <| mu_UpdatedAt := now |> in
  try _ ← call (UpdateAccountMutation m) catch err => refuse err;
  if accountMatchesIntent account winner then
    let m := m <| mu_After := Some (stateFromAccount account) |>
               <| mu_Status := StatusAppliedNoop |> in
    finalize submission m pendingOverride control account true
  else write_and_verify submission m pendingOverride control account winner.

(** From the journaled, prepared mutation on. *)
Definition carry_out (submission : Submission) (m : Mutation) (pendingOverride : option Override)
    (winner : Intent) (winnerKind : OverrideKind) (accountID : Z) (now : time) : prog answer :=
  let m := m <| mu_Status := StatusValidating |> <| mu_UpdatedAt := now |> in
  try _ ← call (UpdateAccountMutation m) catch err => refuse err;
  account ← readAccount accountID;
  match account with
  | Err err =>
      if is_account_not_found err
      then finishWithoutWrite submission m StatusBlocked BlockAccountNotFound (Some err)
      else finishWithoutWrite submission m StatusFailed BlockNone (Some err)
  | Ok account =>
  try control ← loadControl accountID catch err =>
    finishWithoutWrite submission m StatusFailed BlockNone (Some err);
  guard_and_write submission m pendingOverride winner winnerKind account control
  end.
End service.

Section submitting.
Context `{UnicodeTables}.

(** ** Submitting *)

Definition submitLocked (commandContext : option CommandContext) (submission : Submission)
    (queued : queuedCandidate) : prog answer :=
  now ← call Now;
  let intent := sb_Intent submission in
  let '(accountID, _) := Resource_AccountID (in_Resource intent) in
  let requestKey := trim_space (sb_RequestIdempotencyKey submission) in
  let requestKey := if bool_decide (requestKey = "") then in_IdempotencyKey intent else requestKey in
  let requestSignature := trim_space (sb_RequestSemanticSignature submission) in
  match (if bool_decide (requestSignature = "") then SemanticSignature intent
         else Ok requestSignature) with
  | Err signatureErr => refuse (InvalidIntent signatureErr)
  | Ok requestSignature =>
  try existing ← call (FindAccountMutationByIdempotency requestKey) catch lookupErr => refuse lookupErr;
  match existing with
  | Some existing =>
      if negb (bool_decide (mu_SemanticSignature existing = requestSignature))
      then refuse (IdempotencyConflictError requestKey)
      else Ret (replayMutation existing)
  | None =>
  try found ← activeCandidates submission queued now catch err => refuse err;
  let '(candidates, overrideKinds) := found in
  let '(winner, status) := submissionDecision now candidates intent in
  let winningIntent := match winner with Some w => w | None => intent end in
  let winnerKind := default "" (overrideKinds !! in_ID winningIntent) in
  try mutationID ← call NewID catch err => refuse (Errorf "generate mutation id" err);
  match newMutation ("mutation-" +:+ trim_prefix mutationID "cmd-") submission winningIntent
          winnerKind now with
  | Err err => refuse err
  | Ok mutation =>
  let commandContext := CommandContextFrom commandContext in
  let mutation := mutation <| mu_RunID := cc_RunID commandContext |>
                           <| mu_GoalID := cc_GoalID commandContext |>
                           <| mu_StepID := cc_StepID commandContext |> in
  pending ←
    (if sb_PersistOverride submission then
       try overrideID ← call NewID catch idErr =>
         Ret (Err (Errorf "generate override id" idErr));
       match OverrideFromIntent ("override-" +:+ trim_prefix overrideID "cmd-")
               (sb_CommandID submission) intent with
       | Err overrideErr => Ret (Err overrideErr)
       | Ok override =>
           Ret (Ok (Some (override <| ov_MutationID := mu_ID mutation |>
                                   <| ov_Kind := overrideKindForSubmission submission |>)))
       end
     else Ret (Ok None));
  match pending with
  | Err err => refuse err
  | Ok pendingOverride =>
  let mutation := match pendingOverride with
                  | Some override => mutation <| mu_OverrideID := ov_ID override |>
                  | None => mutation
                  end in
  try prepared ← call (PrepareAccountMutation mutation pendingOverride) catch err => refuse err;
  let '(stored, replay) := prepared in
  if (replay : bool) then
    if negb (bool_decide (mu_SemanticSignature stored = mu_SemanticSignature mutation))
    then refuse (IdempotencyConflictError (mu_IdempotencyKey mutation))
    else Ret (replayMutation stored)
  else if bool_decide (status = StatusExpired) || bool_decide (status = StatusSuperseded)
  then finishWithoutWrite submission mutation status BlockNone None
  else carry_out submission mutation pendingOverride winningIntent winnerKind accountID now
  end end end end.

Definition retainQueuedCandidate (status : MutationStatus) : bool :=
  bool_decide (status ∈ [StatusApplied; StatusAppliedNoop; StatusExecuting; StatusVerifying;
                         StatusUncertain]).

(** The deferred calls run in the order slot, candidate, account. *)
Definition Submit (commandContext : option CommandContext) (submission : Submission) : prog answer :=
  match ValidateCommandID (sb_CommandID submission) with
  | Err err => refuse err
  | Ok _ =>
  match validateAccountIntent (sb_Intent submission) with
  | Err err => refuse err
  | Ok _ =>
  queued ← call (AddCandidate submission);
  let '(accountID, _) := Resource_AccountID (in_Resource (sb_Intent submission)) in
  try _ ← call (AcquireAccount accountID) catch err =>
    (_ ← call (FinishCandidate queued false); refuse err);
  outcome ←
    (try _ ← call AcquireSlot catch err => refuse err;
     outcome ← submitLocked commandContext submission queued;
     _ ← call ReleaseSlot;
     Ret outcome);
  _ ← call (FinishCandidate queued (retainQueuedCandidate (rs_Status outcome.1)));
  _ ← call (ReleaseAccount accountID);
  Ret outcome
  end end.

(** ** Queries *)

Definition FindMutation (idempotencyKey : string) : prog (result error (option Mutation)) :=
  call (FindAccountMutationByIdempotency (trim_space idempotencyKey)).

Definition LookupResult (idempotencyKey semanticSignature : string)
    : prog (option Result * option error) :=
  try existing ← call (FindAccountMutationByIdempotency (trim_space idempotencyKey))
    catch err => Ret (None, Some err);
  match existing with
  | None => Ret (None, None)
  | Some existing =>
      if negb (bool_decide (mu_SemanticSignature existing = trim_space semanticSignature))
      then Ret (None, Some (IdempotencyConflictError idempotencyKey))
      else let '(result, replayErr) := replayMutation existing in Ret (Some result, replayErr)
  end.

Definition FindActiveOverride (accountID : Z) (operation : Operation) (authority : Authority)
    : prog (result error (option Override)) :=
  now ← call Now;
  call (FindActiveAccountOverride accountID operation authority now).

Definition ArbitrationRevision (accountID : Z) (operation : Operation) : prog (result error string) :=
  now ← call Now;
  call (GetAccountOverrideRevision accountID operation now).
End submitting.

(** * The requests of a submission

    What a component that submits to account control relies on: [Submit] offers no
    candidate but the submission it was given. *)

Definition submission_request (s : Submission) : ∀ R, Call R → Prop := λ R c,
  match c with AddCandidate s' => s' = s | _ => True end.

Section requests.
Context `{UnicodeTables} (s : Submission).

Ltac requests := only_steps; try done.

#[local] Notation offers := (only (submission_request s)).

Lemma finishWithoutWrite_offers s' m status reason cause : offers (finishWithoutWrite s' m status reason cause).
Proof. unfold finishWithoutWrite, refuse. requests. Qed.
Lemma markUncertain_offers m code cause : offers (markUncertain m code cause).
Proof. unfold markUncertain, refuse. requests. Qed.
Lemma finalize_offers s' m pending control verified noop : offers (finalize s' m pending control verified noop).
Proof. unfold finalize. requests. Qed.
Lemma readAccount_offers id : offers (readAccount id).
Proof. unfold readAccount. requests. Qed.
Lemma loadControl_offers id : offers (loadControl id).
Proof. unfold loadControl. requests. Qed.
Lemma executor_write_offers intent : offers (executor_write intent).
Proof. unfold executor_write. requests. Qed.
Lemma finish_applied_offers s' m pending control verified : offers (finish_applied s' m pending control verified).
Proof. apply finalize_offers. Qed.
#[local] Hint Resolve finishWithoutWrite_offers markUncertain_offers finalize_offers readAccount_offers loadControl_offers
  executor_write_offers finish_applied_offers : core.

Ltac parts := only_steps; auto; try done.

Lemma controlled_retry_offers s' m pending control winner : offers (controlled_retry s' m pending control winner).
Proof. unfold controlled_retry, refuse. parts. Qed.
#[local] Hint Resolve controlled_retry_offers : core.
Lemma resolveWriteError_offers s' m pending control account winner err : offers (resolveWriteError s' m pending control account winner err).
Proof. unfold resolveWriteError. parts. Qed.
#[local] Hint Resolve resolveWriteError_offers : core.
Lemma write_and_verify_offers s' m pending control account winner : offers (write_and_verify s' m pending control account winner).
Proof. unfold write_and_verify, refuse. parts. Qed.
Lemma checkSafety_offers intent account control safety : offers (checkSafety intent account control safety).
Proof. unfold checkSafety, check_increase, check_automation. parts. Qed.
#[local] Hint Resolve write_and_verify_offers checkSafety_offers : core.
Lemma guard_and_write_offers s' m pending winner kind account control : offers (guard_and_write s' m pending winner kind account control).
Proof. unfold guard_and_write, refuse. parts. Qed.
#[local] Hint Resolve guard_and_write_offers : core.
Lemma carry_out_offers s' m pending winner kind id now : offers (carry_out s' m pending winner kind id now).
Proof. unfold carry_out, refuse. parts. Qed.
Lemma activeCandidates_offers s' queued now : offers (activeCandidates s' queued now).
Proof. unfold activeCandidates. parts. Qed.
#[local] Hint Resolve carry_out_offers activeCandidates_offers : core.
Lemma submitLocked_offers ctx s' queued : offers (submitLocked ctx s' queued).
Proof. unfold submitLocked, refuse. parts. Qed.
#[local] Hint Resolve submitLocked_offers : core.

Lemma Submit_offers ctx : offers (Submit ctx s).
Proof. unfold Submit, refuse. parts. Qed.
End requests.
