(* ===== verification/AccountRecovery.v ===== *)
(** * Recovery of pending mutations

    [internal/accountcontrol/recovery.go]: after a restart, the mutations that were
    journaled and not finished are grouped by account and each is brought to an
    end. The workers' channel hands each batch to one of them; [recoverOne] is what
    a worker runs for a mutation. *)

From S2P Require Import Prelude GoStd Intent Model AccountTypes AccountQueue Requests Effects AccountGuard AccountProjection AccountService.

Definition maxRecoveryBatchSize : Z := 100.
Definition maxConcurrentAccountMutations : nat := 4.
Definition maxRecoveryWorkers : nat := maxConcurrentAccountMutations.

(** The batches in the order of their first mutation, and the index of each
    account's batch. *)
Definition group_step (acc : gmap Z nat * list (list Mutation)) (m : Mutation)
    : gmap Z nat * list (list Mutation) :=
  let '(indexes, batches) := acc in
  match indexes !! mu_AccountID m with
  | Some index => (indexes, alter (λ batch, batch ++ [m]) index batches)
  | None => (<[mu_AccountID m := length batches]> indexes, batches ++ [[m]])
  end.

Definition groupRecoveryItems (items : list Mutation) : list (list Mutation) :=
  (foldl group_step (∅, []) items).2.

Section recovery.
Context `{UnicodeTables}.

Definition intentFromWinningMutation (m : Mutation) : result error Intent :=
  let metadata := mkIntentMetadata (mu_WinningIntentID m) (mu_WinningIdempotencyKey m)
    (mu_WinningProducer m) (mu_WinningAuthority m) (mu_WinningActor m) (mu_WinningReason m)
    (mu_WinningEvidenceRefs m) (mu_WinningPolicyVersion m) (mu_WinningSnapshotVersion m)
    (mu_WinningCreatedAt m) (cloneTime (mu_WinningExpiresAt m)) in
  match mu_WinningSchedulable m with
  | Some value => as_error (NewAccountSchedulableIntent metadata (mu_AccountID m) value)
  | None =>
      let value := if mu_WinningLoadSet m then cloneInt (mu_WinningLoadFactor m) else None in
      as_error (NewAccountLoadFactorIntent metadata (mu_AccountID m) value)
  end.

Definition expirePendingMutation (m : Mutation) (now : time) : prog (result error unit) :=
  let m := m <| mu_Status := StatusExpired |> <| mu_LastErrorCode := "override_expired" |>
             <| mu_UpdatedAt := now |> <| mu_CompletedAt := Some now |> in
  call (FinalizeAccountMutation (mkFinalization m no_control
    (defaultEvent m StatusExpired BlockNone now) false OverrideExpired "" "" "" None)).

(** The mutation left uncertain, with the reason. *)
Definition leave_uncertain (m : Mutation) (code : string) : prog (result error unit) :=
  let m := m <| mu_Status := StatusUncertain |> <| mu_LastErrorCode := code |> in
  now ← call Now;
  call (UpdateAccountMutation (m <| mu_UpdatedAt := now |>)).

(** The mutation blocked by the guard; [control] is stored beside it, unless it is
    the zero value. *)
Definition block_pending (m : Mutation) (reason : BlockReason) (control : AccountControl)
    : prog (result error unit) :=
  let m := m <| mu_Status := StatusBlocked |> <| mu_LastErrorCode := reason |> in
  now ← call Now;
  let m := m <| mu_UpdatedAt := now |> <| mu_CompletedAt := Some now |> in
  call (FinalizeAccountMutation (mkFinalization m control
    (defaultEvent m StatusBlocked reason now) false OverrideBlocked "" "" "" None)).

(** [Submission{RevokeOverrideID: mutation.RevokeOverrideID, Event: model.Event{Type: mutation.ReasonCode}}] *)
Definition recovery_submission (m : Mutation) : Submission :=
  mkSubmission "" no_intent "" "" false "" (mu_RevokeOverrideID m)
    (mkSafetyContext false false) (event_of_type (mu_ReasonCode m)) None.

(** The account has the wanted state already. *)
Definition recover_applied (m : Mutation) (intent : Intent) (control : AccountControl)
    (account : Account) : prog (result error unit) :=
  let m := m <| mu_After := Some (stateFromAccount account) |> <| mu_Status := StatusApplied |> in
  now ← call Now;
  let m := m <| mu_UpdatedAt := now |> <| mu_CompletedAt := Some now |> in
  let submission := recovery_submission m in
  let control := updateControl control m account submission now in
  let event := defaultEvent m StatusApplied BlockNone now in
  now ← call Now;
  call (FinalizeAccountMutation (mkFinalization m control event
    (negb (bool_decide (mu_OverrideID m = ""))) (recoveredOverrideStatus intent now)
    (mu_RevokeOverrideID m) (mu_Actor m) "completed during startup recovery" None)).

(** The write repeated under control, and verified. *)
Definition recover_write (m : Mutation) (intent : Intent) (control : AccountControl)
    : prog (result error unit) :=
  let m := m <| mu_Status := StatusExecuting |> <| mu_AttemptCount := (mu_AttemptCount m + 1)%Z |> in
  now ← call Now;
  let m := m <| mu_UpdatedAt := now |> in
  try _ ← call (UpdateAccountMutation m) catch err => Ret (Err err);
  try _ ← executor_write intent catch _ => leave_uncertain m "recovery_retry_uncertain";
  verified ← readAccount (mu_AccountID m);
  match verified with
  | Err _ => leave_uncertain m "recovery_retry_unverified"
  | Ok verified =>
  if negb (accountMatchesIntent verified intent) then leave_uncertain m "recovery_retry_unverified" else
  let m := m <| mu_After := Some (stateFromAccount verified) |> <| mu_Status := StatusApplied |> in
  now ← call Now;
  let m := m <| mu_UpdatedAt := now |> <| mu_CompletedAt := Some now |> in
  let submission := recovery_submission m in
  let control := updateControl control m verified submission now in
  eventNow ← call Now;
  statusNow ← call Now;
  call (FinalizeAccountMutation (mkFinalization m control
    (defaultEvent m StatusApplied BlockNone eventNow)
    (negb (bool_decide (mu_OverrideID m = ""))) (recoveredOverrideStatus intent statusNow)
    (mu_RevokeOverrideID m) (mu_Actor m) "completed during controlled recovery retry" None))
  end.

(** [mutation.Status == StatusPrepared || mutation.Status == StatusValidating] *)
Definition not_started (m : Mutation) : bool :=
  bool_decide (mu_Status m = StatusPrepared) || bool_decide (mu_Status m = StatusValidating).

Definition recorded_safety (m : Mutation) : SafetyContext :=
  mkSafetyContext (mu_TelemetryFresh m) (mu_CooldownActive m).

(** From the account and its control record on. *)
Definition recover_read (m : Mutation) (intent : Intent) (account : Account)
    (control : AccountControl) : prog (result error unit) :=
  if accountMatchesIntent account intent then recover_applied m intent control account else
  now ← call Now;
  if intentExpired intent now then (now ← call Now; expirePendingMutation m now) else
  if bool_decide (mu_Before m = None) && negb (not_started m)
  then leave_uncertain m "recovery_missing_before_state" else
  let before := default (stateFromAccount account) (mu_Before m) in
  let m := m <| mu_Before := Some before |> in
  if negb (stateMatchesAccount before account) || (2 <=? mu_AttemptCount m)%Z
  then leave_uncertain m "recovery_state_diverged" else
  safety ← checkSafety intent account control (recorded_safety m);
  let '(reason, guardErr) := safety in
  match guardErr with
  | Some guardErr => Ret (Err guardErr)
  | None =>
      if negb (bool_decide (reason = BlockNone)) then block_pending m reason control
      else recover_write m intent control
  end.

Definition recover_locked (item : Mutation) : prog (result error unit) :=
  try current ← call (FindAccountMutationByIdempotency (mu_IdempotencyKey item))
    catch err => Ret (Err err);
  match current with
  | None => Ret (Ok ())
  | Some m =>
  if Terminal (mu_Status m) then Ret (Ok ()) else
  match intentFromWinningMutation m with
  | Err err => Ret (Err err)
  | Ok intent =>
  now ← call Now;
  if not_started m && intentExpired intent now then expirePendingMutation m now else
  account ← readAccount (mu_AccountID m);
  match account with
  | Err _ => leave_uncertain m "recovery_read_failed"
  | Ok account =>
  try control ← loadControl (mu_AccountID m) catch err => Ret (Err err);
  if not_started m then
    safety ← checkSafety intent account control (recorded_safety m);
    let '(reason, guardErr) := safety in
    match guardErr with
    | Some guardErr => Ret (Err guardErr)
    | None =>
        if negb (bool_decide (reason = BlockNone)) then block_pending m reason no_control
        else recover_read m intent account control
    end
  else recover_read m intent account control
  end end end.

Definition recoverOne (item : Mutation) : prog (result error unit) :=
  try _ ← call (AcquireAccount (mu_AccountID item)) catch err => Ret (Err err);
  outcome ←
    (try _ ← call AcquireSlot catch err => Ret (Err err);
     outcome ← recover_locked item;
     _ ← call ReleaseSlot;
     Ret outcome);
  _ ← call (ReleaseAccount (mu_AccountID item));
  Ret outcome.
End recovery.
