(* ===== verification/AccountProtocol.v ===== *)
(** * The protocol of a mutation

    What the account service promises about the order of its requests, as a
    protocol in the sense of [Effects]: a watch of what the repository and the
    transport have acknowledged in a run, and for each request the condition under
    which it may be issued. [AccountSubmitFacts] and [AccountRecoveryFacts] show
    that submissions and recoveries keep to it. *)

From S2P Require Import Prelude GoStd Intent Model AccountTypes AccountQueue Requests Effects AccountGuard AccountProjection AccountService.

(** ** The constant part of a mutation *)

(** A mutation without what changes while it is carried out. *)
Definition core (m : Mutation) : Mutation :=
  m <| mu_Status := "" |> <| mu_AttemptCount := 0%Z |> <| mu_Before := None |>
    <| mu_After := None |> <| mu_LastErrorCode := "" |> <| mu_UpdatedAt := zero_time |>
    <| mu_CompletedAt := None |>.

(** The load factor the winner wants. *)
Definition winning_load (m : Mutation) : option Z :=
  if mu_WinningLoadSet m then mu_WinningLoadFactor m else None.

(** The account has the state the winner wants. *)
Definition wanted (m : Mutation) (a : Account) : bool :=
  match mu_WinningSchedulable m with
  | Some value => bool_decide (acc_Schedulable a = value)
  | None => bool_decide (acc_LoadFactor a = winning_load m)
  end.

(** The winner raises what the account may be given. *)
Definition raises (m : Mutation) (a : Account) : bool :=
  match mu_WinningSchedulable m with
  | Some value => value
  | None =>
      match winning_load m with
      | Some value => (default 100 (acc_LoadFactor a) <? value)%Z
      | None => bool_decide (is_Some (acc_LoadFactor a))
      end
  end.

(** ** The watch *)

Record journal_watch := mkWatch {
  jw_journal : option Mutation;       (* the version the repository acknowledged last *)
  jw_armed : bool;                    (* it announces a write that was not issued yet *)
  jw_closed : bool;                   (* a finalization was acknowledged *)
  jw_listed : option (list Account);  (* the accounts, read since the last write *)
  jw_listings : list (list Account);  (* and every reading of the run *)
  jw_freeze : option (AgentFreezeState * option time);  (* and the clock after it *)
  jw_control : option AccountControl;
  jw_balance : option (option BalanceLock);
  jw_cost : option (option CostLock);
  jw_clock : list time;               (* what the clock said *)
  jw_locked : option Z;               (* the account lock held *)
  jw_slot : bool;
  jw_queued : bool;                   (* a candidate of ours waits in the queue *)
}.

Definition first_watch : journal_watch :=
  mkWatch None false false None [] None None None None [] None false false.

Definition observed (w : journal_watch) R (c : Call R) : R → journal_watch :=
  match c in Call R return R → journal_watch with
  | PrepareAccountMutation m _ => λ r,
      match r with
      | Ok (_, false) => w <| jw_journal := Some m |>
      | _ => w
      end
  | FindAccountMutationByIdempotency _ => λ r,
      match r with Ok found => w <| jw_journal := found |> | Err _ => w end
  | UpdateAccountMutation m => λ r,
      match r with
      | Ok _ => w <| jw_journal := Some m |>
                  <| jw_armed := bool_decide (mu_Status m = StatusExecuting) |>
      | Err _ => w
      end
  | FinalizeAccountMutation f => λ r,
      match r with Ok _ => w <| jw_closed := true |> | Err _ => w end
  | SetSchedulable _ _ => λ _, w <| jw_armed := false |> <| jw_listed := None |>
  | UpdateLoadFactor _ _ => λ _, w <| jw_armed := false |> <| jw_listed := None |>
  | ListAccounts => λ r,
      match r with
      | Ok l => w <| jw_listed := Some l |> <| jw_listings := l :: jw_listings w |>
      | Err _ => w <| jw_listed := None |>
      end
  | GetAgentFreezeState _ _ => λ r,
      match r with Ok f => w <| jw_freeze := Some (f, None) |> | Err _ => w end
  | GetControl _ => λ r,
      match r with Ok c => w <| jw_control := Some c |> | Err _ => w end
  | GetActiveBalanceLock _ => λ r,
      match r with Ok l => w <| jw_balance := Some l |> | Err _ => w <| jw_balance := None |> end
  | GetActiveCostLock _ => λ r,
      match r with Ok l => w <| jw_cost := Some l |> | Err _ => w <| jw_cost := None |> end
  | Now => λ t,
      w <| jw_clock := t :: jw_clock w |>
        <| jw_freeze := match jw_freeze w with
                        | Some (f, None) => Some (f, Some t)
                        | other => other
                        end |>
  | AddCandidate _ => λ _, w <| jw_queued := true |>
  | FinishCandidate _ _ => λ _, w <| jw_queued := false |>
  | AcquireAccount id => λ r,
      match r with Ok _ => w <| jw_locked := Some id |> | Err _ => w end
  | ReleaseAccount _ => λ _, w <| jw_locked := None |>
  | AcquireSlot => λ r, match r with Ok _ => w <| jw_slot := true |> | Err _ => w end
  | ReleaseSlot => λ _, w <| jw_slot := false |>
  | _ => λ _, w
  end.

(** ** Permissions *)

Section permissions.
Context `{UnicodeTables}.

(** The freeze mode in force. *)
Definition mode_of (f : AgentFreezeState) (clock : option time) : string :=
  match fz_ExpiresAt f, clock with
  | Some expires, Some now => if negb (after expires now) then AgentFreezeModeActive else fz_Mode f
  | _, _ => fz_Mode f
  end.

Definition freeze_permits (mode : string) (producer : Producer) (authority : Authority) : Prop :=
  mode ≠ AgentFreezeModeWritesFrozen
  ∧ (producer = ProducerAgentOperator →
      mode ≠ AgentFreezeModeAgentPaused ∧ mode ≠ AgentFreezeModeReadOnly)
  ∧ (authority = AuthorityActivePolicy → mode ≠ AgentFreezeModeReadOnly).

(** What must have been read before an account is raised. *)
Definition may_raise (w : journal_watch) (a : Account) : Prop :=
  (∃ t, t ∈ jw_clock w ∧ accountCredentialValid a t = true)
  ∧ (∃ t, t ∈ jw_clock w ∧ accountRateLimited a t = false)
  ∧ (∃ c, jw_control w = Some c ∧ ct_HealthLocked c = false)
  ∧ jw_balance w = Some None ∧ jw_cost w = Some None.

(** The safety conditions for the winner of [m] on account [a]. *)
Record safe (w : journal_watch) (m : Mutation) (a : Account) : Prop := {
  safe_freeze : ∃ f clock, jw_freeze w = Some (f, clock)
    ∧ (is_Some (fz_ExpiresAt f) → is_Some clock)
    ∧ freeze_permits (mode_of f clock) (mu_WinningProducer m) (mu_WinningAuthority m);
  safe_raise : raises m a = true → may_raise w a;
  safe_telemetry :
    mu_WinningAuthority m = AuthorityActivePolicy ∨ mu_WinningAuthority m = AuthorityAutonomousAgent →
    mu_TelemetryFresh m = true ∧ mu_CooldownActive m = false;
}.

(** The account as listed since the last write. *)
Definition reads (w : journal_watch) (m : Mutation) (a : Account) : Prop :=
  ∃ l, jw_listed w = Some l ∧ findAccount l (mu_AccountID m) = Some a.

(** A reading of the run showed the account as [a]. *)
Definition has_read (w : journal_watch) (m : Mutation) (a : Account) : Prop :=
  ∃ l, l ∈ jw_listings w ∧ findAccount l (mu_AccountID m) = Some a.

(** A write may be announced: it is the first or the second one; the account, as
    read since the previous one, is in its state from before and not in the wanted
    one; and the safety conditions were checked on the account in that state. *)
Definition may_execute (w : journal_watch) (j m : Mutation) : Prop :=
  jw_armed w = false ∧ mu_AttemptCount m = (mu_AttemptCount j + 1)%Z ∧ (mu_AttemptCount m ≤ 2)%Z
  ∧ ∃ a b checked, reads w m a ∧ wanted m a = false ∧ mu_Before m = Some b
    ∧ stateMatchesAccount b a = true ∧ stateMatchesAccount b checked = true
    ∧ has_read w m checked ∧ safe w m checked.

(** The statuses a mutation can be moved to while it is open. *)
Definition may_move (from to : MutationStatus) : Prop :=
  to = StatusValidating ∧ (from = StatusPrepared ∨ from = StatusValidating)
  ∨ to = StatusVerifying ∨ to = StatusUncertain.

Definition may_update (w : journal_watch) (m : Mutation) : Prop :=
  ∃ j, jw_journal w = Some j ∧ core j = core m
    ∧ (mu_Status m = StatusExecuting ∧ may_execute w j m
       ∨ may_move (mu_Status j) (mu_Status m) ∧ mu_AttemptCount m = mu_AttemptCount j).

(** A success is finalized only when the account, as read since the last write, has
    the wanted state; [StatusAppliedNoop] claims that nothing was written. Every
    other ending leaves the override inactive and revokes nothing. *)
Definition may_finalize (w : journal_watch) (f : Finalization) : Prop :=
  ∃ j, jw_journal w = Some j ∧ core j = core (fn_Mutation f)
    ∧ mu_AttemptCount (fn_Mutation f) = mu_AttemptCount j
    ∧ is_Some (mu_CompletedAt (fn_Mutation f))
    ∧ ((mu_Status (fn_Mutation f) = StatusApplied
          ∨ mu_Status (fn_Mutation f) = StatusAppliedNoop ∧ mu_AttemptCount j = 0%Z)
       ∧ (∃ a, reads w (fn_Mutation f) a ∧ wanted (fn_Mutation f) a = true
           ∧ mu_After (fn_Mutation f) = Some (stateFromAccount a))
       ∧ (fn_OverrideStatus f = OverrideActive ∨ fn_OverrideStatus f = OverrideExpired)
       ∨ mu_Status (fn_Mutation f) ∈ [StatusBlocked; StatusFailed; StatusExpired; StatusSuperseded]
         ∧ fn_ActivateOverride f = false ∧ fn_RevokeOverrideID f = ""
         ∧ fn_OverrideStatus f ≠ OverrideActive).

(** A write is the announced one, to the account and the value of the journal. *)
Definition may_write (w : journal_watch) (id : Z) (schedulable : option bool) (load : option Z) : Prop :=
  jw_armed w = true ∧ ∃ j, jw_journal w = Some j ∧ mu_Status j = StatusExecuting
    ∧ mu_AccountID j = id ∧ mu_WinningSchedulable j = schedulable
    ∧ (schedulable = None → winning_load j = load).

(** The request comes from a run that holds the account's lock and a slot, and has
    not finalized the mutation. *)
Definition holds (w : journal_watch) (id : Z) : Prop :=
  jw_locked w = Some id ∧ jw_slot w = true ∧ jw_closed w = false.

Definition permits (w : journal_watch) R (c : Call R) : Prop :=
  match c with
  | PrepareAccountMutation m override =>
      holds w (mu_AccountID m) ∧ jw_journal w = None ∧ mu_Status m = StatusPrepared
      ∧ mu_AttemptCount m = 0%Z ∧ mu_Before m = None
      ∧ match override with
        | Some o => mu_OverrideID m = ov_ID o ∧ ov_MutationID o = mu_ID m
                    ∧ ov_Status o = OverridePending
        | None => mu_OverrideID m = ""
        end
  | UpdateAccountMutation m => holds w (mu_AccountID m) ∧ may_update w m
  | FinalizeAccountMutation f => holds w (mu_AccountID (fn_Mutation f)) ∧ may_finalize w f
  | SetSchedulable id value => holds w id ∧ may_write w id (Some value) None
  | UpdateLoadFactor id value => holds w id ∧ may_write w id None value
  | FindAccountMutationByIdempotency _ => jw_journal w = None
  | AcquireAccount _ => jw_locked w = None ∧ jw_slot w = false
  | AcquireSlot => is_Some (jw_locked w) ∧ jw_slot w = false
  | ReleaseSlot => jw_slot w = true
  | ReleaseAccount id => jw_locked w = Some id ∧ jw_slot w = false ∧ jw_queued w = false
  | _ => True
  end.

Definition mutation_protocol : protocol := mkProtocol journal_watch permits observed.
End permissions.

(** ** Lemmas on the constant part *)

(** What the constant part determines. *)
Lemma core_fields j m : core j = core m →
  mu_ID j = mu_ID m ∧ mu_AccountID j = mu_AccountID m
  ∧ mu_WinningSchedulable j = mu_WinningSchedulable m ∧ winning_load j = winning_load m
  ∧ mu_WinningProducer j = mu_WinningProducer m ∧ mu_WinningAuthority j = mu_WinningAuthority m
  ∧ mu_TelemetryFresh j = mu_TelemetryFresh m ∧ mu_CooldownActive j = mu_CooldownActive m.
Proof.
  assert (∀ m, mu_ID m = mu_ID (core m) ∧ mu_AccountID m = mu_AccountID (core m)
    ∧ mu_WinningSchedulable m = mu_WinningSchedulable (core m) ∧ winning_load m = winning_load (core m)
    ∧ mu_WinningProducer m = mu_WinningProducer (core m)
    ∧ mu_WinningAuthority m = mu_WinningAuthority (core m)
    ∧ mu_TelemetryFresh m = mu_TelemetryFresh (core m)
    ∧ mu_CooldownActive m = mu_CooldownActive (core m)) as Hc.
  { intros []. unfold core, winning_load. upd. done. }
  intros Heq. destruct (Hc j) as (-> & -> & -> & -> & -> & -> & -> & ->).
  destruct (Hc m) as (-> & -> & -> & -> & -> & -> & -> & ->). by rewrite Heq.
Qed.

(** An update of a changing field keeps the constant part. *)
Lemma core_status m v : core (m <| mu_Status := v |>) = core m.
Proof. by destruct m. Qed.
Lemma core_attempt m v : core (m <| mu_AttemptCount := v |>) = core m.
Proof. by destruct m. Qed.
Lemma core_before m v : core (m <| mu_Before := v |>) = core m.
Proof. by destruct m. Qed.
Lemma core_after m v : core (m <| mu_After := v |>) = core m.
Proof. by destruct m. Qed.
Lemma core_error m v : core (m <| mu_LastErrorCode := v |>) = core m.
Proof. by destruct m. Qed.
Lemma core_updated m v : core (m <| mu_UpdatedAt := v |>) = core m.
Proof. by destruct m. Qed.
Lemma core_completed m v : core (m <| mu_CompletedAt := v |>) = core m.
Proof. by destruct m. Qed.
#[export] Hint Rewrite core_status core_attempt core_before core_after core_error core_updated
  core_completed : sched.

Lemma wanted_core j m a : core j = core m → wanted j a = wanted m a.
Proof. intros (_ & _ & Hs & Hl & _)%core_fields. unfold wanted. by rewrite Hs, Hl. Qed.
Lemma raises_core j m a : core j = core m → raises j a = raises m a.
Proof. intros (_ & _ & Hs & Hl & _)%core_fields. unfold raises. by rewrite Hs, Hl. Qed.
