(* ===== verification/AccountSandbox.v ===== *)
(** * A small environment to run the account service in

    One account, the journal of one idempotency key and a fixed clock: a concrete
    instance of the repository, the transport and the clock, on which the programs
    are run, and stopped, and the theorems instantiated. *)

From S2P Require Import Prelude GoStd Intent Model AccountTypes AccountQueue Requests Effects.

Import Samples.

Definition sample_account : Account :=
  mkAccount 7 "relay" "openai" "apikey" "active" true "" None ∅ 10 None 1 "valid" None None None
    midnight.

Record sandbox := mkSandbox {
  sx_account : Account;
  sx_journal : option Mutation;
  sx_override : option Override;
  sx_freeze : string;
}.

Definition calm : sandbox := mkSandbox sample_account None None AgentFreezeModeActive.

Definition sandbox_serve (R : Type) (s : sandbox) (c : Call R) : R * sandbox :=
  match c in Call R return R * sandbox with
  | GetControl _ => (Ok no_control, s)
  | GetActiveBalanceLock _ => (Ok None, s)
  | GetActiveCostLock _ => (Ok None, s)
  | GetAgentFreezeState t i =>
      (Ok (mkAgentFreezeState t i (sx_freeze s) "" "" None midnight midnight), s)
  | ListActiveAccountOverrides _ _ _ => (Ok [], s)
  | FindActiveAccountOverride _ _ _ _ => (Ok None, s)
  | GetAccountOverrideRevision _ _ _ => (Ok "none", s)
  | FindAccountMutationByIdempotency key => (Ok (sx_journal s), s)
  | PrepareAccountMutation m o =>
      match sx_journal s with
      | Some stored => (Ok (stored, true), s)
      | None => (Ok (m, false), s <| sx_journal := Some m |> <| sx_override := o |>)
      end
  | UpdateAccountMutation m => (Ok (), s <| sx_journal := Some m |>)
  | FinalizeAccountMutation f =>
      (Ok (), s <| sx_journal := Some (fn_Mutation f) |>
                <| sx_override := (λ o, o <| ov_Status := fn_OverrideStatus f |>) <$> sx_override s |>)
  | ListPendingAccountMutations _ => (Ok (option_list (sx_journal s)), s)
  | ListAccounts => (Ok [sx_account s], s)
  | SetSchedulable _ value =>
      let a := (sx_account s) <| acc_Schedulable := value |> in (Ok a, s <| sx_account := a |>)
  | UpdateLoadFactor _ value =>
      let a := (sx_account s) <| acc_LoadFactor := value |> in (Ok a, s <| sx_account := a |>)
  | Now => ((midnight + minute)%Z, s)
  | NewID => (Ok "cmd-4f", s)
  | AddCandidate sb => (mkQueued 1 (in_IdempotencyKey (sb_Intent sb)) (sb_Intent sb) "" false, s)
  | FinishCandidate _ _ => ((), s)
  | CompetingCandidates _ => ([], s)
  | AcquireAccount _ => (Ok (), s)
  | ReleaseAccount _ => ((), s)
  | AcquireSlot => (Ok (), s)
  | ReleaseSlot => ((), s)
  end.

Definition sandboxed : environment sandbox := mkEnvironment sandbox sandbox_serve.

(** The agent pauses the account for fifteen minutes. *)
Definition agent_submission : Submission :=
  mkSubmission "command-1" agent_pause "" "" true "" "" (mkSafetyContext true false)
    (event_of_type "") None.

(** The journal of a service that stopped before the write. *)
Definition prepared_only (m : Mutation) (o : option Override) : sandbox :=
  mkSandbox sample_account (Some m) o AgentFreezeModeActive.

(** [p] stopped after [n] requests. *)
Definition crash {A} (n : nat) (p : prog A) (s : sandbox) : list exchange * sandbox :=
  stopped_run sandboxed n p s.

Lemma crash_trace {A} n (p : prog A) s : ∃ value, trace p (crash n p s).1 value.
Proof. apply stopped_run_trace. Qed.
