(* ===== verification/AccountSteps.v ===== *)
(** * The steps of the account service keep to the protocol

    The endings, the write, the reads and the guard of [AccountService] and
    [AccountGuard] against [AccountProtocol]; [AccountSubmitFacts] and
    [AccountRecoveryFacts] put them together. *)

From S2P Require Import Prelude GoStd Intent Arbiter ArbiterFacts Model AccountTypes AccountQueue Requests Effects AccountGuard AccountProjection AccountService AccountProtocol.

(** ** Requests that only read *)

Definition quiet {R} (c : Call R) : bool :=
  match c with
  | GetControl _ | GetActiveBalanceLock _ | GetActiveCostLock _ | GetAgentFreezeState _ _
  | ListActiveAccountOverrides _ _ _ | FindActiveAccountOverride _ _ _ _
  | GetAccountOverrideRevision _ _ _ | ListPendingAccountMutations _ | ListAccounts | Now | NewID
  | CompetingCandidates _ => true
  | _ => false
  end.

(** The part of the watch that such a request leaves alone. *)
Record same_run (w w' : journal_watch) : Prop := {
  sr_journal : jw_journal w' = jw_journal w;
  sr_armed : jw_armed w' = jw_armed w;
  sr_closed : jw_closed w' = jw_closed w;
  sr_locked : jw_locked w' = jw_locked w;
  sr_slot : jw_slot w' = jw_slot w;
  sr_queued : jw_queued w' = jw_queued w;
}.

#[export] Instance same_run_preorder : PreOrder same_run.
Proof.
  split; [by split|]. intros w1 w2 w3 [] []. split; congruence.
Qed.

Lemma observed_quiet w R (c : Call R) r : quiet c = true → same_run w (observed w R c r).
Proof.
  destruct c; try done; intros _; cbn [observed];
    try destruct r; try reflexivity; split; by read_fields.
Qed.

(** Who holds the locks. *)
Definition same_locks (w w' : journal_watch) : Prop :=
  jw_locked w' = jw_locked w ∧ jw_slot w' = jw_slot w ∧ jw_queued w' = jw_queued w.

#[export] Instance same_locks_preorder : PreOrder same_locks.
Proof.
  unfold same_locks. split; [done|]. intros w1 w2 w3 (? & ? & ?) (? & ? & ?).
  split_and!; congruence.
Qed.

Lemma same_run_locks w w' : same_run w w' → same_locks w w'.
Proof. by intros []. Qed.

(** What reading control records and locks leaves alone. *)
Record guarded (w w' : journal_watch) : Prop := {
  gu_run : same_run w w';
  gu_listed : jw_listed w' = jw_listed w;
  gu_listings : jw_listings w' = jw_listings w;
}.

#[export] Instance guarded_preorder : PreOrder guarded.
Proof.
  split; [by split|]. intros w1 w2 w3 [? ? ?] [? ? ?]. split; [by etrans|congruence..].
Qed.

(** What the safety guard leaves alone. *)
Record checked (w w' : journal_watch) : Prop := {
  ck_guarded : guarded w w';
  ck_control : jw_control w' = jw_control w;
}.

#[export] Instance checked_preorder : PreOrder checked.
Proof.
  split; [by split|]. intros w1 w2 w3 [? ?] [? ?]. split; [by etrans|congruence].
Qed.

Section steps.
Context `{UnicodeTables}.
Abbreviation wpm := (wp mutation_protocol).

Lemma wp_quiet {A R} (c : Call R) (k : R → prog A) w Q :
  quiet c = true → (∀ r, same_run w (observed w R c r) → wpm (k r) (observed w R c r) Q) →
  wpm (call c ≫= k) w Q.
Proof.
  intros Hc Hk. rewrite wp_bind. split; [by destruct c|]. intros r. apply Hk, observed_quiet, Hc.
Qed.

Lemma wp_call {A R} (c : Call R) (k : R → prog A) w Q :
  permits w R c → (∀ r, wpm (k r) (observed w R c r) Q) → wpm (call c ≫= k) w Q.
Proof. intros Hc Hk. rewrite wp_bind. by split. Qed.

(** ** The mutation as journaled *)

(** The run holds the account and the journal has [m], up to the progress noted
    since. *)
Record tracked (w : journal_watch) (m : Mutation) : Prop := {
  tk_holds : holds w (mu_AccountID m);
  tk_journal : ∃ j, jw_journal w = Some j ∧ core j = core m ∧ mu_AttemptCount j = mu_AttemptCount m;
}.

Lemma holds_same_run w w' id : same_run w w' → holds w id → holds w' id.
Proof. intros [] (? & ? & ?). unfold holds. split_and!; congruence. Qed.

Lemma tracked_same_run w w' m : same_run w w' → tracked w m → tracked w' m.
Proof.
  intros Hs [Hh (j & Hj & ?)]. split; [by eapply holds_same_run|].
  exists j. split; [|done]. by rewrite (sr_journal _ _ Hs).
Qed.

Lemma tracked_core w m m' :
  core m = core m' → mu_AttemptCount m = mu_AttemptCount m' → tracked w m → tracked w m'.
Proof.
  intros Hc Ha [Hh (j & Hj & Hjc & Hja)].
  pose proof Hc as (_ & Hid & _)%core_fields.
  split; [by rewrite <-Hid|]. exists j. split; [done|]. split; congruence.
Qed.

Lemma tracked_updated w m :
  holds w (mu_AccountID m) → tracked (observed w _ (UpdateAccountMutation m) (Ok ())) m.
Proof.
  intros (? & ? & ?). cbn [observed]. split; [unfold holds; by read_fields|].
  exists m. by read_fields.
Qed.

(** ** Endings *)

(** The answer claims no success that was not finalized, and the locks are as they
    were. *)
Definition honest (a : Result * option error) (w : journal_watch) : Prop :=
  jw_closed w = true ∨ rs_IdempotentReplay a.1 = true
  ∨ is_Some a.2 ∧ rs_Status a.1 ≠ StatusApplied ∧ rs_Status a.1 ≠ StatusAppliedNoop.

Definition settled (w : journal_watch) (a : Result * option error) (w' : journal_watch) : Prop :=
  same_locks w w' ∧ honest a w'.

Lemma settled_locks w w' a w'' : same_locks w w' → settled w' a w'' → settled w a w''.
Proof. intros Hl [Hl' ?]. split; [by etrans|done]. Qed.

Lemma settled_refuse w e : wpm (refuse e) w (settled w).
Proof. split; [reflexivity|]. right. right. split; [by eexists|]. by vm_compute. Qed.


Lemma observed_finalize w f r :
  same_locks w (observed w _ (FinalizeAccountMutation f) r)
  ∧ (jw_closed (observed w _ (FinalizeAccountMutation f) (Ok ())) = true).
Proof. destruct r; (split; [split_and!|]); cbn [observed]; by read_fields. Qed.

Lemma observed_update w m r : same_locks w (observed w _ (UpdateAccountMutation m) r).
Proof. destruct r; split_and!; cbn [observed]; by read_fields. Qed.

(** An answer with an error, from a run whose locks are as they were. *)
Lemma settled_failure w w' a :
  same_locks w w' → is_Some a.2 → rs_Status a.1 ≠ StatusApplied → rs_Status a.1 ≠ StatusAppliedNoop →
  settled w a w'.
Proof. intros. split; [done|]. by right; right. Qed.

Lemma rs_fields m replay :
  rs_Status (resultFromMutation m replay) = mu_Status m
  ∧ rs_IdempotentReplay (resultFromMutation m replay) = replay.
Proof. unfold resultFromMutation. cbv zeta. by read_fields. Qed.

Lemma settled_unfinished w w' m e :
  same_locks w w' → mu_Status m ∈ [StatusUncertain; StatusVerifying] →
  settled w (resultFromMutation m false, Some e) w'.
Proof.
  intros Hl Hs. destruct (rs_fields m false) as [Hrs _].
  apply settled_failure; [done|by eexists|..]; unfold fst; rewrite Hrs; intros Heq; rewrite Heq in Hs;
    by apply (bool_decide_pack _) in Hs.
Qed.

Lemma settled_closed w w' a : same_locks w w' → jw_closed w' = true → settled w a w'.
Proof. intros. split; [done|]. by left. Qed.

(** Shared by the endings that give up. *)
Lemma finishWithoutWrite_wp submission m status reason cause w :
  tracked w m → status ∈ [StatusBlocked; StatusFailed; StatusExpired; StatusSuperseded] →
  wpm (finishWithoutWrite submission m status reason cause) w (settled w).
Proof.
  intros Ht Hst. unfold finishWithoutWrite. cbv zeta.
  apply wp_quiet; [done|]. intros now Hs.
  match goal with |- context [mkFinalization ?x] => set (m' := x) end.
  assert (core m' = core m ∧ mu_Status m' = status ∧ mu_CompletedAt m' = Some now
    ∧ mu_AttemptCount m' = mu_AttemptCount m) as (Hc & Hstat & Hcomp & Hatt).
  { subst m'. case_match; autorewrite with sched; by read_fields. }
  clearbody m'. pose proof (tracked_same_run _ _ _ Hs Ht) as Ht'.
  apply (tracked_core _ _ m') in Ht'; [|done..]. destruct Ht' as [Hh (j & Hj & Hjc & Hja)].
  apply wp_call.
  - split; [done|]. exists j. cbn. split_and!; [done..|by rewrite Hcomp|right].
    rewrite Hstat. split_and!; [done..|]. by repeat case_bool_decide.
  - intros r. match goal with |- context [FinalizeAccountMutation ?f] =>
      destruct (observed_finalize (observed w Z Now now) f r) as [Hl Hcl] end.
    apply same_run_locks in Hs. pose proof (transitivity Hs Hl) as Hlocks. clear Hl.
    destruct r as [[]|e]; [|by apply settled_failure; [|eexists|..]; vm_compute].
    repeat case_match; by apply settled_closed.
Qed.

(** Updates of the journal that announce no write. *)
Lemma may_move_update w m j :
  jw_journal w = Some j → core j = core m → mu_AttemptCount j = mu_AttemptCount m →
  may_move (mu_Status j) (mu_Status m) → may_update w m.
Proof. intros Hj Hc Ha Hm. exists j. split_and!; [done..|]. right. by rewrite Ha. Qed.

Lemma markUncertain_wp m code cause w :
  tracked w m → wpm (markUncertain m code cause) w (settled w).
Proof.
  intros Ht. unfold markUncertain. cbv zeta. apply wp_quiet; [done|]. intros now Hs.
  match goal with |- context [UpdateAccountMutation ?x] => set (m' := x) end.
  assert (core m' = core m ∧ mu_Status m' = StatusUncertain ∧ mu_AttemptCount m' = mu_AttemptCount m)
    as (Hc & Hstat & Hatt) by (subst m'; autorewrite with sched; by read_fields).
  clearbody m'. apply (tracked_same_run _ _ _ Hs), (tracked_core _ _ m') in Ht; [|done..].
  destruct Ht as [Hh (j & Hj & Hjc & Hja)]. apply same_run_locks in Hs.
  apply wp_call.
  - split; [done|]. eapply may_move_update; [done..|]. rewrite Hstat. by right; right.
  - intros r. pose proof (transitivity Hs (observed_update _ m' r)) as Hl.
    destruct r; [apply settled_unfinished; [done|rewrite Hstat; by left]|].
    apply settled_failure; [done|by eexists|..]; by vm_compute.
Qed.

Lemma reads_tick w t m a : reads (observed w Z Now t) m a ↔ reads w m a.
Proof. unfold reads. cbn [observed]. by read_fields. Qed.

Lemma reads_core w m m' a : core m = core m' → reads w m a → reads w m' a.
Proof. intros (_ & Hid & _)%core_fields. unfold reads. by rewrite Hid. Qed.

(** ** Successes *)

Definition verified (w : journal_watch) (m : Mutation) (a : Account) : Prop :=
  reads w m a ∧ wanted m a = true ∧ mu_After m = Some (stateFromAccount a).

Lemma finalize_wp submission m pending control a (noop : bool) w :
  tracked w m → verified w m a →
  (if noop then mu_AttemptCount m = 0%Z else mu_Status m = StatusApplied) →
  wpm (finalize submission m pending control a noop) w (settled w).
Proof.
  intros Ht (Hr & Hw & Haft) Hn. unfold finalize. cbv zeta. apply wp_quiet; [done|]. intros now Hs.
  match goal with |- context [mkFinalization ?x] => set (m' := x) end.
  assert (core m' = core m ∧ (mu_Status m' = StatusApplied ∨ mu_Status m' = StatusAppliedNoop ∧ noop = true)
    ∧ mu_CompletedAt m' = Some now ∧ mu_AttemptCount m' = mu_AttemptCount m ∧ mu_After m' = mu_After m)
    as (Hc & Hstat & Hcomp & Hatt & Haft').
  { subst m'. destruct noop; autorewrite with sched; read_fields; naive_solver. }
  clearbody m'. apply (tracked_same_run _ _ _ Hs), (tracked_core _ _ m') in Ht; [|done..].
  destruct Ht as [Hh (j & Hj & Hjc & Hja)]. apply same_run_locks in Hs.
  assert (reads (observed w Z Now now) m' a) as Hr'.
  { apply reads_tick. by apply (reads_core _ m). }
  apply wp_call.
  - split; [done|]. exists j. cbn. split_and!; [done..|by rewrite Hcomp|left]. split_and!; [|exists a|by left].
    + destruct Hstat as [?|[? ->]]; [by left|right]. split; [done|]. congruence.
    + split_and!; [done|by rewrite (wanted_core _ m)|congruence].
  - intros r. match goal with |- context [FinalizeAccountMutation ?f] =>
      destruct (observed_finalize (observed w Z Now now) f r) as [Hl Hcl] end.
    pose proof (transitivity Hs Hl) as Hlocks. clear Hl. destruct r as [[]|e].
    { by apply settled_closed. }
    match goal with |- context [UpdateAccountMutation ?x] => set (m'' := x) end.
    assert (core m'' = core m' ∧ mu_Status m'' = StatusVerifying ∧ mu_AttemptCount m'' = mu_AttemptCount m')
      as (Hc2 & Hstat2 & Hatt2) by (subst m''; autorewrite with sched; by read_fields).
    clearbody m''. pose proof Hc2 as (_ & Hid2 & _)%core_fields.
    apply wp_call.
    + split; [by rewrite Hid2|]. eapply may_move_update; [done|congruence..|].
      rewrite Hstat2. by right; left.
    + intros r2. match goal with |- context [observed ?v _ (UpdateAccountMutation m'') r2] =>
        pose proof (transitivity Hlocks (observed_update v m'' r2)) as Hl2 end.
      apply settled_unfinished; [done|rewrite Hstat2; by right; left].
Qed.

Lemma finish_applied_wp submission m pending control a w :
  tracked w m → reads w m a → wanted m a = true →
  wpm (finish_applied submission m pending control a) w (settled w).
Proof.
  intros Ht Hr Hw. unfold finish_applied. cbv zeta.
  match goal with |- context [finalize _ ?x] => set (m' := x) end.
  assert (core m' = core m ∧ mu_Status m' = StatusApplied ∧ mu_AttemptCount m' = mu_AttemptCount m
    ∧ mu_After m' = Some (stateFromAccount a)) as (Hc & Hstat & Hatt & Haft)
    by (subst m'; autorewrite with sched; by read_fields).
  clearbody m'. apply finalize_wp; [by apply (tracked_core _ m)|split_and!|done].
  - by apply (reads_core _ m).
  - by rewrite (wanted_core _ m).
  - done.
Qed.

(** ** The winner and the mutation that carries it *)

Record carries (m : Mutation) (i : Intent) : Prop := {
  ca_account : in_Resource i = account_resource (mu_AccountID m);
  ca_producer : in_Producer i = mu_WinningProducer m;
  ca_authority : in_Authority i = mu_WinningAuthority m;
  ca_target :
    in_Operation i = OperationSetAccountSchedulable
    ∧ ds_kind (in_DesiredState i) = desiredStateSchedulable
    ∧ mu_WinningSchedulable m = Some (ds_schedulable (in_DesiredState i))
    ∨ in_Operation i = OperationSetAccountLoadFactor
      ∧ ds_kind (in_DesiredState i) = desiredStateLoadFactor
      ∧ mu_WinningSchedulable m = None
      ∧ winning_load m = (if ds_loadFactorSet (in_DesiredState i)
                          then Some (ds_loadFactor (in_DesiredState i)) else None);
}.

Lemma carries_core m m' i : core m = core m' → carries m i → carries m' i.
Proof.
  intros (_ & Hid & Hs & Hl & Hp & Ha & _)%core_fields [Hr Hpr Hau Ht].
  rewrite Hid in Hr. rewrite Hp in Hpr. rewrite Ha in Hau. rewrite Hs, Hl in Ht. by split.
Qed.

Lemma matches_wanted m i a : carries m i → accountMatchesIntent a i = wanted m a.
Proof.
  intros [_ _ _ [(_ & Hk & Hw)|(_ & Hk & Hw & Hl)]]; unfold accountMatchesIntent, wanted, Schedulable, LoadFactor;
    rewrite Hk, Hw; [done|].
  rewrite (bool_decide_false (desiredStateLoadFactor = desiredStateSchedulable)) by done.
  rewrite (bool_decide_true (desiredStateLoadFactor = _)) by done. rewrite Hl.
  destruct (ds_loadFactorSet _); cbn; [|by apply bool_decide_ext].
  destruct (acc_LoadFactor a) as [x|]; [|done].
  destruct (x =? _)%Z eqn:E; bool_facts; symmetry.
  - by rewrite bool_decide_true by congruence.
  - by rewrite bool_decide_false by congruence.
Qed.

Lemma unsafe_raises m i a : carries m i → unsafeTarget i a = raises m a.
Proof.
  intros [_ _ _ [(Ho & Hk & Hw)|(Ho & Hk & Hw & Hl)]]; unfold unsafeTarget, raises, Schedulable, LoadFactor;
    rewrite Ho, Hk, Hw.
  - done.
  - rewrite Hl. cbn. by destruct (ds_loadFactorSet _).
Qed.

(** ** What a run remembers *)

Lemma safe_tick w t m a : safe w m a → safe (observed w Z Now t) m a.
Proof.
  intros [(f & c & Hf & Hc & Hp) Hr Ht]. cbn [observed]. split; [|intros Hra|done].
  - destruct c as [c|].
    + exists f, (Some c). read_fields. by rewrite Hf.
    + exists f, (Some t). read_fields. rewrite Hf. split_and!; [done|by eexists|].
      unfold mode_of in *. destruct (fz_ExpiresAt f); [|done].
      destruct Hc; [by eexists|done].
  - destruct (Hr Hra) as ((t1 & ? & ?) & (t2 & ? & ?) & (c' & ? & ?) & ? & ?).
    unfold may_raise. read_fields. split_and!; [exists t1|exists t2|by exists c'|done..];
      (split; [by right|done]).
Qed.

Lemma safe_update w m' r m a : safe w m a → safe (observed w _ (UpdateAccountMutation m') r) m a.
Proof.
  intros [Hf Hr Ht]. destruct r; [|done]. cbn [observed]. split; [by read_fields| |done].
  intros Hra. unfold may_raise. read_fields. by apply Hr.
Qed.

Lemma safe_relist w l r m a :
  safe w m a → safe (observed w _ ListAccounts r) m a
  ∧ safe (w <| jw_armed := false |> <| jw_listed := l |>) m a.
Proof.
  intros [Hf Hr Ht]. split; [destruct r; cbn [observed]|]; (split; [by read_fields| |done]);
    intros Hra; unfold may_raise; read_fields; by apply Hr.
Qed.

Lemma safe_core w m m' a : core m = core m' → safe w m a → safe w m' a.
Proof.
  intros Hc [Hf Hr Ht]. pose proof (core_fields _ _ Hc) as (_ & _ & _ & _ & Hp & Ha & Htf & Hcd).
  split; [by rewrite <-Hp, <-Ha| |by rewrite <-Ha, <-Htf, <-Hcd].
  intros Hra. apply Hr. by rewrite (raises_core m m').
Qed.

(** The locks are as they were, and what was checked and read is still known. *)
Record later (w w' : journal_watch) : Prop := {
  lt_locks : same_locks w w';
  lt_safe m a : safe w m a → safe w' m a;
  lt_read m a : has_read w m a → has_read w' m a;
}.

#[export] Instance later_preorder : PreOrder later.
Proof.
  split; [by split|]. intros w1 w2 w3 [? ? ?] [? ? ?]. split; [by etrans|auto..].
Qed.

Lemma later_tick w t : later w (observed w Z Now t).
Proof.
  split; [apply same_run_locks; by apply observed_quiet|intros ? ?; apply safe_tick|].
  intros m a (l & Hl & ?). exists l. cbn [observed]. by read_fields.
Qed.

Lemma later_update w m r : later w (observed w _ (UpdateAccountMutation m) r).
Proof.
  split; [apply observed_update|intros ? ?; apply safe_update|].
  intros m' a (l & Hl & ?). exists l. destruct r; cbn [observed]; by read_fields.
Qed.

Lemma later_list w r : later w (observed w _ ListAccounts r).
Proof.
  split; [apply same_run_locks; by apply observed_quiet|intros m a; by apply (safe_relist _ None)|].
  intros m a (l & Hl & ?). exists l. destruct r; cbn [observed]; read_fields; [|done].
  split; [by right|done].
Qed.

Lemma later_written w : later w (w <| jw_armed := false |> <| jw_listed := None |>).
Proof.
  split; [unfold same_locks; by read_fields|intros m a; by apply (safe_relist _ _ (Err (NewError "")))|].
  intros m a (l & Hl & ?). exists l. by read_fields.
Qed.

(** ** Writing and reading *)

Lemma executor_write_wp {A} m i w (k : result error unit → prog A) Q :
  carries m i → holds w (mu_AccountID m) → jw_armed w = true →
  (∃ j, jw_journal w = Some j ∧ core j = core m ∧ mu_AttemptCount j = mu_AttemptCount m
        ∧ mu_Status j = StatusExecuting) →
  (∀ r w', tracked w' m → later w w' → jw_armed w' = false → wpm (k r) w' Q) →
  wpm (executor_write i ≫= k) w Q.
Proof.
  intros Hca Hh Harm (j & Hj & Hjc & Hja & Hjs) Hk.
  pose proof (core_fields _ _ Hjc) as (_ & Hid & Hws & Hwl & _).
  pose proof Hca as [Hr _ _ Ht]. unfold executor_write, Resource_AccountID. rewrite Hr.
  cbn [r_accountID account_resource].
  assert (∀ w', w' = w <| jw_armed := false |> <| jw_listed := None |> →
    tracked w' m ∧ later w w' ∧ jw_armed w' = false) as Hw.
  { intros w' ->. destruct Hh as (? & ? & ?). split_and!; [split; [unfold holds|exists j]| |]; [by read_fields..|by apply later_written|by read_fields]. }
  destruct Ht as [(Ho & Hkind & Hs)|(Ho & Hkind & Hs & Hl)]; rewrite Ho, wp_bind; cbn [bool_decide].
  - rewrite bool_decide_true by done. unfold Schedulable. apply wp_call.
    + split; [done|]. split; [done|]. exists j. split_and!; [done..|congruence|done].
    + intros [x|e]; apply Hk; by apply Hw.
  - rewrite bool_decide_false by (by vm_compute). rewrite bool_decide_true by done.
    unfold LoadFactor. apply wp_call.
    + split; [done|]. split; [done|]. exists j. split_and!; [done..|congruence|]. intros _. by rewrite Hwl, Hl.
    + intros [x|e]; apply Hk; by apply Hw.
Qed.

Lemma readAccount_wp {A} m w (k : result error Account → prog A) Q :
  (∀ r w', same_run w w' → later w w' → (∀ a, r = Ok a → reads w' m a ∧ has_read w' m a) →
    wpm (k r) w' Q) →
  wpm (readAccount (mu_AccountID m) ≫= k) w Q.
Proof.
  intros Hk. unfold readAccount. rewrite wp_bind. apply wp_quiet; [done|].
  intros [l|e] Hs; [|apply Hk; [done|apply later_list|done]].
  destruct (findAccount l (mu_AccountID m)) as [a|] eqn:E;
    (apply Hk; [done|apply later_list|]); try done.
  intros ? [= <-]. split; exists l; cbn [observed]; read_fields; split; [done|done|by left|done].
Qed.

(** ** The guard *)

Lemma guarded_reads w w' m a : guarded w w' → reads w m a → reads w' m a.
Proof. intros [_ Hl _] (l & ? & ?). exists l. by rewrite Hl. Qed.
Lemma guarded_has_read w w' m a : guarded w w' → has_read w m a → has_read w' m a.
Proof. intros [_ _ Hl] (l & ? & ?). exists l. by rewrite Hl. Qed.

Lemma observed_guarded w R (c : Call R) r :
  match c with GetAgentFreezeState _ _ | Now | GetActiveBalanceLock _ | GetActiveCostLock _
             | GetControl _ => True | _ => False end →
  guarded w (observed w R c r).
Proof.
  intros Hc. split; [apply observed_quiet; by destruct c|..];
    destruct c; try done; cbn [observed]; try destruct r; try done; by read_fields.
Qed.

Lemma observed_checked w R (c : Call R) r :
  match c with GetAgentFreezeState _ _ | Now | GetActiveBalanceLock _ | GetActiveCostLock _ => True
             | _ => False end →
  checked w (observed w R c r).
Proof.
  intros Hc. split; [apply observed_guarded; by destruct c|].
  destruct c; try done; cbn [observed]; try destruct r; try done; by read_fields.
Qed.

(** The freeze state was read and does not stop the winner. *)
Definition thawed (w : journal_watch) (m : Mutation) : Prop :=
  ∃ f clock, jw_freeze w = Some (f, clock) ∧ (is_Some (fz_ExpiresAt f) → is_Some clock)
    ∧ freeze_permits (mode_of f clock) (mu_WinningProducer m) (mu_WinningAuthority m).

Lemma thawed_tick w t m : thawed w m → thawed (observed w Z Now t) m.
Proof.
  intros (f & c & Hf & Hc & Hp). cbn [observed]. unfold thawed. destruct c as [c|].
  - exists f, (Some c). read_fields. by rewrite Hf.
  - exists f, (Some t). read_fields. rewrite Hf. split_and!; [done|by eexists|].
    unfold mode_of in *. destruct (fz_ExpiresAt f); [|done]. destruct Hc; [by eexists|done].
Qed.

Lemma thawed_block m i mode :
  carries m i → freeze_block i mode = BlockNone →
  freeze_permits mode (mu_WinningProducer m) (mu_WinningAuthority m).
Proof.
  intros Hca. unfold freeze_block. rewrite (ca_producer _ _ Hca), (ca_authority _ _ Hca).
  case_bool_decide as E1; [done|].
  destruct (bool_decide (mu_WinningProducer m = _) && _) eqn:E2; [done|].
  destruct (bool_decide (mu_WinningAuthority m = _) && _) eqn:E3; [done|]. intros _.
  apply andb_false_iff in E2, E3. split_and!; [done| |].
  - intros Hp. rewrite Hp, bool_decide_true in E2 by done. destruct E2 as [E2|E2]; [done|].
    bool_facts. done.
  - intros Ha. rewrite Ha, bool_decide_true in E3 by done. destruct E3 as [E3|E3]; [done|].
    by bool_facts.
Qed.

Definition guard_post (w : journal_watch) (m : Mutation) (a : Account)
    (res : string * option error) (w' : journal_watch) : Prop :=
  checked w w' ∧ (res = (BlockNone, None) → safe w' m a).

Ltac guard_stop := (split; [done|by vm_compute]).

Section guard.
Context (m : Mutation) (i : Intent) (a : Account) (control : AccountControl) (safety : SafetyContext).
Hypothesis (Hca : carries m i).
Hypothesis (Htf : sf_TelemetryFresh safety = mu_TelemetryFresh m).
Hypothesis (Hcd : sf_CooldownActive safety = mu_CooldownActive m).

Lemma check_automation_wp w0 w :
  checked w0 w → thawed w m → (raises m a = true → may_raise w a) →
  wpm (check_automation i safety) w (guard_post w0 m a).
Proof.
  intros Hg Hf Hr. unfold check_automation. rewrite (ca_authority _ _ Hca), Htf, Hcd.
  destruct (bool_decide _ || bool_decide _) eqn:Ea.
  - destruct (mu_TelemetryFresh m) eqn:Et; [|guard_stop].
    destruct (mu_CooldownActive m) eqn:Ec; [guard_stop|].
    split; [done|]. intros _. by split.
  - split; [done|]. intros _. split; [done..|]. apply orb_false_iff in Ea as [Ea1 Ea2]. bool_facts.
    by intros [?|?].
Qed.

Lemma check_increase_wp w0 w :
  checked w0 w → thawed w m →
  (∃ c, jw_control w = Some c ∧ ct_HealthLocked c = ct_HealthLocked control) →
  wpm (check_increase i a control safety) w (guard_post w0 m a).
Proof.
  intros Hg Hf (c & Hc & Hcl). unfold check_increase.
  apply wp_quiet; [done|]. intros t1 _. apply (thawed_tick w t1) in Hf.
  assert (checked w0 (observed w Z Now t1)) as Hg1 by (etrans; [done|by apply observed_checked]).
  assert (t1 ∈ jw_clock (observed w Z Now t1) ∧ jw_control (observed w Z Now t1) = Some c) as [Hk1 Hc1].
  { cbn [observed]. read_fields. split; [by left|done]. }
  destruct (accountCredentialValid a t1) eqn:Ecv; [|guard_stop]. cbn [negb].
  revert Hf Hg1 Hk1 Hc1. generalize (observed w Z Now t1). clear w Hg Hc. intros w Hf Hg1 Hk1 Hc1.
  apply wp_quiet; [done|]. intros t2 _. apply (thawed_tick w t2) in Hf.
  assert (checked w0 (observed w Z Now t2)) as Hg2 by (etrans; [done|by apply observed_checked]).
  assert (t1 ∈ jw_clock (observed w Z Now t2) ∧ t2 ∈ jw_clock (observed w Z Now t2)
    ∧ jw_control (observed w Z Now t2) = Some c) as (Hk2 & Hk3 & Hc2).
  { cbn [observed]. read_fields. split_and!; [by right|by left|done]. }
  destruct (accountRateLimited a t2) eqn:Erl; [guard_stop|].
  destruct (ct_HealthLocked control) eqn:Ehl; [guard_stop|].
  revert Hf Hg2 Hk2 Hk3 Hc2. generalize (observed w Z Now t2). clear w Hg1 Hk1 Hc1.
  intros w Hf Hg2 Hk2 Hk3 Hc2.
  apply wp_quiet; [done|]. intros lock _.
  assert (checked w0 (observed w _ (GetActiveBalanceLock (acc_ID a)) lock)) as Hg3
    by (etrans; [done|by apply observed_checked]).
  destruct lock as [lock|e]; [|split; [done|by intros [= ?]]].
  destruct (bool_decide (is_Some lock) || ct_BalanceLocked control) eqn:Ebl; [guard_stop|].
  apply orb_false_iff in Ebl as [Ebl _]. bool_facts. destruct lock; [by destruct Ebl|].
  apply wp_quiet; [done|]. intros cost _.
  match goal with |- wpm _ ?v _ => assert (checked w0 v) as Hg4
    by (etrans; [done|by apply observed_checked]) end.
  destruct cost as [cost|e]; [|split; [done|by intros [= ?]]].
  destruct (bool_decide (is_Some cost) || ct_CostLocked control) eqn:Ecl; [guard_stop|].
  apply orb_false_iff in Ecl as [Ecl _]. bool_facts. destruct cost; [by destruct Ecl|].
  apply check_automation_wp; [done| |].
  - destruct Hf as (f & clock & Hf & ?). exists f, clock. cbn [observed]. by read_fields.
  - intros _. cbn [observed]. unfold may_raise. read_fields. split_and!; [by exists t1|by exists t2| |done..].
    exists c. split; [done|congruence].
Qed.

(** The guard lets a winner pass only when the safety conditions hold of what it
    read, and disturbs nothing. *)
Lemma checkSafety_wp w :
  (∃ c, jw_control w = Some c ∧ ct_HealthLocked c = ct_HealthLocked control) →
  wpm (checkSafety i a control safety) w (guard_post w m a).
Proof.
  intros (c & Hc & Hcl). unfold checkSafety. apply wp_quiet; [done|]. intros fz _.
  assert (checked w (observed w _ (GetAgentFreezeState "global" "") fz)) as Hg by by apply observed_checked.
  destruct fz as [f|e]; [|split; [done|by intros [= ?]]].
  set (w1 := observed w _ _ _) in *.
  assert (jw_freeze w1 = Some (f, None) ∧ jw_control w1 = Some c) as [Hf1 Hc1]
    by (subst w1; cbn [observed]; by read_fields).
  clearbody w1.
  assert (∀ w2 mode, checked w w2 → jw_control w2 = Some c → (freeze_block i mode = BlockNone → thawed w2 m) →
    wpm (if negb (bool_decide (freeze_block i mode = BlockNone)) then Ret (freeze_block i mode, None)
         else if unsafeTarget i a then check_increase i a control safety else check_automation i safety)
      w2 (guard_post w m a)) as Hrest.
  { intros w2 mode Hg2 Hc2 Hth. case_bool_decide as Eb; [|split; [done|by intros [= ?]]]. cbn [negb].
    rewrite (unsafe_raises m i a Hca). destruct (raises m a) eqn:Er.
    - apply check_increase_wp; [done|auto|by exists c].
    - apply check_automation_wp; [done|auto|congruence]. }
  destruct (fz_ExpiresAt f) as [expires|] eqn:Ee.
  - rewrite !wp_bind. split; [done|]. intros t. apply Hrest.
    + etrans; [exact Hg|by apply observed_checked].
    + cbn [observed observe mutation_protocol]. by read_fields.
    + intros Hb. exists f, (Some t). cbn [observed observe mutation_protocol]. read_fields. rewrite Hf1.
      split_and!; [done|by eexists|]. unfold mode_of. rewrite Ee. by eapply thawed_block.
  - apply Hrest; [done..|]. intros Hb. exists f, None. split_and!; [done|by rewrite Ee; intros []|].
    unfold mode_of. rewrite Ee. by eapply thawed_block.
Qed.
End guard.

Lemma loadControl_wp {A} accountID w (k : result error AccountControl → prog A) Q :
  (∀ r w', guarded w w' → (∀ control, r = Ok control →
     ∃ c, jw_control w' = Some c ∧ ct_HealthLocked c = ct_HealthLocked control) → wpm (k r) w' Q) →
  wpm (loadControl accountID ≫= k) w Q.
Proof.
  intros Hk. unfold loadControl. rewrite wp_bind. apply wp_quiet; [done|]. intros [c|e] _;
    [|apply Hk; [by apply observed_guarded|done]].
  apply wp_quiet; [done|]. intros [bl|e] _.
  2:{ apply Hk; [etrans; by apply observed_guarded|done]. }
  apply wp_quiet; [done|]. intros [cl|e] _.
  2:{ apply Hk; [etrans; [etrans|]; by apply observed_guarded|done]. }
  apply Hk; [etrans; [etrans|]; by apply observed_guarded|]. intros control [= <-].
  exists c. cbn [observed]. read_fields. split; [done|]. destruct bl, cl; by read_fields.
Qed.

(** ** Announcing a write *)

(** Everything [may_execute] asks for is at hand. *)
Record ready (w : journal_watch) (m : Mutation) : Prop := {
  rd_tracked : tracked w m;
  rd_unarmed : jw_armed w = false;
  rd_attempts : (mu_AttemptCount m < 2)%Z;
  rd_account : ∃ a b checked, reads w m a ∧ wanted m a = false ∧ mu_Before m = Some b
    ∧ stateMatchesAccount b a = true ∧ stateMatchesAccount b checked = true
    ∧ has_read w m checked ∧ safe w m checked;
}.

Lemma has_read_core w m m' a : core m = core m' → has_read w m a → has_read w m' a.
Proof. intros (_ & Hid & _)%core_fields. unfold has_read. by rewrite Hid. Qed.

(** The counter is raised, the announcement stamped and journaled. *)
Lemma announce_wp {A} w m m' (k : result error unit → prog A) Q :
  ready w m → core m' = core m → mu_Status m' = StatusExecuting →
  mu_AttemptCount m' = (mu_AttemptCount m + 1)%Z → mu_Before m' = mu_Before m →
  (∀ r w', later w w' → (r = Ok () → holds w' (mu_AccountID m') ∧ jw_armed w' = true
     ∧ ∃ j, jw_journal w' = Some j ∧ core j = core m' ∧ mu_AttemptCount j = mu_AttemptCount m'
         ∧ mu_Status j = StatusExecuting) →
   wpm (k r) w' Q) →
  wpm (call (UpdateAccountMutation m') ≫= k) w Q.
Proof.
  intros [Ht Hua Hat (a & b & x & Hr & Hw & Hb & Hba & Hbx & Hx & Hsafe)] Hc Hs Ha Hbef Hk.
  apply (tracked_core w m (m' <| mu_AttemptCount := mu_AttemptCount m |>)) in Ht;
    [|by autorewrite with sched|by read_fields].
  destruct Ht as [Hh (j & Hj & Hjc & Hja)]. autorewrite with sched in Hjc. revert Hja.
  revert Hh. read_fields. intros Hh Hja.
  apply wp_call.
  - split; [done|]. exists j. split_and!; [done..|left]. split; [done|].
    split_and!; [done|lia..|]. exists a, b, x.
    split_and!; [by apply (reads_core _ m)|by rewrite (wanted_core _ m)|congruence|done..| |].
    + by apply (has_read_core _ m).
    + by apply (safe_core _ m).
  - intros r. apply Hk; [apply later_update|]. intros ->. cbn [observed]. destruct Hh as (? & ? & ?).
    unfold holds. read_fields. rewrite Hs. split_and!; [done..|]. by exists m'.
Qed.

Lemma ready_tick w t m : ready w m → ready (observed w Z Now t) m.
Proof.
  intros [Ht Hua Hat (a & b & x & Hr & Hw & Hb & Hba & Hbx & Hx & Hsafe)].
  assert (same_run w (observed w Z Now t)) as Hs by by apply observed_quiet.
  pose proof (later_tick w t) as Hl. split; [by eapply tracked_same_run| |done|].
  - by rewrite (sr_armed _ _ Hs).
  - exists a, b, x. split_and!; try done; [by apply reads_tick|by apply (lt_read _ _ Hl)|by apply (lt_safe _ _ Hl)].
Qed.
End steps.
