(* ===== verification/AccountSubmitFacts.v ===== *)
(** * Submissions keep to the protocol

    From the announced write to its end, then [submitLocked] and [Submit] as a
    whole: every run of a submission, with whatever replies and wherever it stops,
    keeps to [mutation_protocol] and answers honestly. *)

From S2P Require Import Prelude GoStd Intent Arbiter ArbiterFacts Model AccountTypes AccountQueue Requests Effects AccountGuard AccountProjection AccountService AccountProtocol AccountSteps AccountSandbox.

Section submit.
Context `{UnicodeTables}.
Abbreviation wpm := (wp mutation_protocol).

Lemma settled_mono {w w' a w''} : later w w' → settled w' a w'' → settled w a w''.
Proof. intros [Hl _ _]. by apply settled_locks. Qed.

Lemma wpm_settled p w w' : later w w' → wpm p w' (settled w') → wpm p w' (settled w).
Proof. intros Hl. apply wp_mono. intros a w''. by apply settled_mono. Qed.

Lemma same_state_matches b x y :
  sameAccountState x y = true → b = stateFromAccount y →
  stateMatchesAccount b x = true ∧ stateMatchesAccount b y = true.
Proof.
  unfold sameAccountState, stateMatchesAccount, sameInt, stateFromAccount. intros Hs ->.
  cbn [st_Schedulable st_LoadFactor]. rewrite cloneInt_id.
  destruct (Bool.eqb (acc_Schedulable x) (acc_Schedulable y)) eqn:Es; [|done].
  apply eqb_prop in Es. rewrite Es, Bool.eqb_reflx.
  destruct (acc_LoadFactor x) as [a|], (acc_LoadFactor y) as [b|]; cbn in *; try done.
  apply Z.eqb_eq in Hs as ->. by rewrite Z.eqb_refl.
Qed.

(** ** The retry *)

Lemma controlled_retry_wp submission m pending control winner w :
  carries m winner → ready w m →
  wpm (controlled_retry submission m pending control winner) w (settled w).
Proof.
  intros Hca Hr. unfold controlled_retry. cbv zeta. apply wp_quiet; [done|]. intros now _.
  pose proof (later_tick w now) as Hl. apply (ready_tick w now) in Hr.
  eapply wp_mono; [intros a w2; by apply (settled_mono Hl)|].
  revert Hr. generalize (observed w Z Now now). clear w Hl. intros w Hr.
  match goal with |- context [UpdateAccountMutation ?x] => set (m' := x) end.
  assert (core m' = core m ∧ mu_Status m' = StatusExecuting ∧ mu_Before m' = mu_Before m
    ∧ mu_AttemptCount m' = (mu_AttemptCount m + 1)%Z) as (Hc & Hs & Hb & Ha)
    by (subst m'; autorewrite with sched; by read_fields).
  clearbody m'. apply (carries_core m m') in Hca; [|done].
  apply (announce_wp w m); [done..|]. intros r w1 Hl1 Hok.
  apply (wpm_settled _ _ _ Hl1). destruct r as [[]|e]; [|apply settled_refuse].
  destruct (Hok eq_refl) as (Hh & Harm & Hj). clear Hok.
  apply (executor_write_wp m'); [done..|]. intros r w2 Ht2 Hl2 _. apply (wpm_settled _ _ _ Hl2).
  destruct r as [[]|e].
  - apply readAccount_wp. intros r w3 Hs3 Hl3 Hr3. apply (wpm_settled _ _ _ Hl3).
    apply (tracked_same_run _ _ _ Hs3) in Ht2.
    destruct r as [a|e]; [|by apply markUncertain_wp].
    rewrite (matches_wanted m') by done. destruct (wanted m' a) eqn:Ew; cbn [negb].
    + apply finish_applied_wp; [done|by apply Hr3|done].
    + by apply markUncertain_wp.
  - apply readAccount_wp. intros r w3 Hs3 Hl3 Hr3. apply (wpm_settled _ _ _ Hl3).
    apply (tracked_same_run _ _ _ Hs3) in Ht2.
    destruct r as [a|e']; [|by apply markUncertain_wp].
    rewrite (matches_wanted m') by done. destruct (wanted m' a) eqn:Ew.
    + apply finish_applied_wp; [done|by apply Hr3|done].
    + by apply markUncertain_wp.
Qed.

(** ** A write that failed *)

Lemma resolveWriteError_wp submission m pending control before winner e w checked :
  carries m winner → tracked w m → jw_armed w = false →
  mu_Before m = Some (stateFromAccount before) →
  stateMatchesAccount (stateFromAccount before) checked = true → has_read w m checked → safe w m checked →
  wpm (resolveWriteError submission m pending control before winner e) w (settled w).
Proof.
  intros Hca Ht Hua Hb Hbx Hx Hsafe. unfold resolveWriteError.
  destruct (ambiguousWriteError e); cbn [negb].
  2:{ apply finishWithoutWrite_wp; [done|]. apply (bool_decide_unpack _). by vm_compute. }
  apply readAccount_wp. intros r w1 Hs1 Hl1 Hr1. apply (wpm_settled _ _ _ Hl1).
  pose proof (tracked_same_run _ _ _ Hs1 Ht) as Ht1.
  destruct r as [a|e']; [|by apply markUncertain_wp].
  rewrite (matches_wanted m) by done. destruct (wanted m a) eqn:Ew.
  { apply finish_applied_wp; [done|by apply Hr1|done]. }
  destruct (sameAccountState a before && (mu_AttemptCount m <? 2)%Z) eqn:Es.
  - bool_facts. apply controlled_retry_wp; [done|].
    destruct (same_state_matches _ _ _ H0 eq_refl) as [Hba _].
    split; [done|by rewrite (sr_armed _ _ Hs1)|done|].
    exists a, (stateFromAccount before), checked.
    split_and!; try done; [by apply Hr1|by apply (lt_read _ _ Hl1)|by apply (lt_safe _ _ Hl1)].
  - by apply markUncertain_wp.
Qed.

(** ** The first write *)

Lemma write_and_verify_wp submission m pending control account winner w :
  carries m winner → ready w m → reads w m account → mu_Before m = Some (stateFromAccount account) →
  wpm (write_and_verify submission m pending control account winner) w (settled w).
Proof.
  intros Hca Hr _ Hbef. unfold write_and_verify. cbv zeta. apply wp_quiet; [done|]. intros now _.
  apply (wpm_settled _ _ _ (later_tick w now)). apply (ready_tick w now) in Hr.
  revert Hr. generalize (observed w Z Now now). clear w. intros w Hr.
  match goal with |- context [UpdateAccountMutation ?x] => set (m' := x) end.
  assert (core m' = core m ∧ mu_Status m' = StatusExecuting ∧ mu_Before m' = mu_Before m
    ∧ mu_AttemptCount m' = (mu_AttemptCount m + 1)%Z) as (Hc & Hs & Hb & Ha)
    by (subst m'; autorewrite with sched; by read_fields).
  clearbody m'. apply (carries_core m m') in Hca; [|done].
  pose proof Hr as [_ _ _ (a & b & x & _ & _ & Hbx & _ & Hmx & Hx & Hsafe)].
  apply (announce_wp w m); [done..|]. intros r w1 Hl1 Hok.
  apply (wpm_settled _ _ _ Hl1). destruct r as [[]|e]; [|apply settled_refuse].
  destruct (Hok eq_refl) as (Hh & Harm & Hj). clear Hok.
  apply (executor_write_wp m'); [done..|]. intros r w2 Ht2 Hl2 Hua2.
  pose proof (transitivity Hl1 Hl2) as Hl12. apply (wpm_settled _ _ _ Hl2).
  destruct r as [[]|e].
  2:{ apply (resolveWriteError_wp _ _ _ _ _ _ _ _ x); [done..|congruence|congruence| |].
      - apply (has_read_core _ m); [done|]. by apply (lt_read _ _ Hl12).
      - apply (safe_core _ m); [done|]. by apply (lt_safe _ _ Hl12). }
  apply wp_quiet; [done|]. intros now2 Hs3. apply (wpm_settled _ _ _ (later_tick w2 now2)).
  apply (tracked_same_run _ _ _ Hs3) in Ht2. revert Ht2. generalize (observed w2 Z Now now2). intros w3 Ht3.
  match goal with |- context [UpdateAccountMutation ?x] => set (m2 := x) end.
  assert (core m2 = core m' ∧ mu_Status m2 = StatusVerifying ∧ mu_AttemptCount m2 = mu_AttemptCount m')
    as (Hc2 & Hs2 & Ha2) by (subst m2; autorewrite with sched; by read_fields).
  clearbody m2. apply (tracked_core _ _ m2) in Ht3; [|done..].
  apply (carries_core _ m2) in Hca; [|done].
  pose proof Ht3 as [Hh3 (j3 & Hj3 & Hjc3 & Hja3)]. apply wp_call.
  { split; [done|]. eapply may_move_update; [done..|]. rewrite Hs2. by right; left. }
  intros r. apply (wpm_settled _ _ _ (later_update w3 m2 r)). destruct r as [[]|e].
  2:{ apply settled_unfinished; [done|rewrite Hs2; by right; left]. }
  pose proof (tracked_updated w3 m2 Hh3) as Ht4.
  apply readAccount_wp. intros r w5 Hs5 Hl5 Hr5. apply (wpm_settled _ _ _ Hl5).
  apply (tracked_same_run _ _ _ Hs5) in Ht4.
  destruct r as [a5|e]; [|by apply markUncertain_wp].
  rewrite (matches_wanted m2) by done. destruct (wanted m2 a5) eqn:Ew; cbn [negb].
  - apply finish_applied_wp; [done|by apply Hr5|done].
  - by apply markUncertain_wp.
Qed.

(** ** Before the write *)

(** The journal has the mutation before any write. *)
Definition not_begun (w : journal_watch) : Prop :=
  jw_armed w = false ∧ ∃ j, jw_journal w = Some j
    ∧ (mu_Status j = StatusPrepared ∨ mu_Status j = StatusValidating).

Lemma not_begun_same_run w w' : same_run w w' → not_begun w → not_begun w'.
Proof.
  intros [] (? & j & ? & ?). split; [congruence|]. exists j. split; [congruence|done].
Qed.

Lemma revise_wp {A} w m m' (k : result error unit → prog A) Q :
  tracked w m → not_begun w → core m = core m' → mu_AttemptCount m = mu_AttemptCount m' →
  mu_Status m' = StatusValidating →
  (∀ r w', later w w' → (r = Ok () → tracked w' m' ∧ not_begun w' ∧ jw_control w' = jw_control w
     ∧ ∀ a, reads w m a → reads w' m' a) → wpm (k r) w' Q) →
  wpm (call (UpdateAccountMutation m') ≫= k) w Q.
Proof.
  intros Ht (Hua & j' & Hj' & Hs') Hc Ha Hs Hk. apply (tracked_core _ _ m') in Ht; [|done..].
  pose proof Ht as [Hh (j & Hj & Hjc & Hja)]. apply wp_call.
  - split; [done|]. apply (may_move_update _ _ j); [done..|]. left. split; [done|].
    rewrite Hj in Hj'. by injection Hj' as <-.
  - intros r. apply Hk; [apply later_update|]. intros ->. split_and!; [by apply tracked_updated| | |].
    + cbn [observed]. unfold not_begun. read_fields. rewrite Hs. split; [done|]. exists m'. by split; [|right].
    + cbn [observed]. by read_fields.
    + intros a (l & Hl & Hf). exists l. cbn [observed]. read_fields. split; [done|].
      pose proof Hc as (_ & Hid & _)%core_fields. by rewrite <-Hid.
Qed.


Lemma guarded_locks w w' a w'' : guarded w w' → settled w' a w'' → settled w a w''.
Proof. intros [Hr _ _]. by apply settled_locks, same_run_locks. Qed.
Lemma wpm_guarded p w w' : guarded w w' → wpm p w' (settled w') → wpm p w' (settled w).
Proof. intros Hl. apply wp_mono. intros a w''. by apply guarded_locks. Qed.

(** ** The winner written into the mutation *)

Lemma core_winning m i kind : core (setWinningMutation m i kind) = setWinningMutation (core m) i kind.
Proof.
  destruct m. unfold setWinningMutation, Schedulable, LoadFactor, core. cbn.
  by repeat case_match.
Qed.

Lemma setWinning_fields m i kind :
  mu_Status (setWinningMutation m i kind) = mu_Status m
  ∧ mu_AttemptCount (setWinningMutation m i kind) = mu_AttemptCount m
  ∧ mu_Before (setWinningMutation m i kind) = mu_Before m
  ∧ mu_AccountID (setWinningMutation m i kind) = mu_AccountID m
  ∧ mu_OverrideID (setWinningMutation m i kind) = mu_OverrideID m
  ∧ mu_ID (setWinningMutation m i kind) = mu_ID m.
Proof. unfold setWinningMutation. repeat case_match; by read_fields. Qed.

Lemma setWinning_idemp m i kind :
  setWinningMutation (setWinningMutation m i kind) i kind = setWinningMutation m i kind.
Proof. destruct m. unfold setWinningMutation. repeat case_match; done. Qed.

Lemma account_target i id :
  target (in_Resource i) (in_Operation i) (in_DesiredState i) →
  in_Operation i ≠ OperationSetUpstreamKeyGroupTier →
  (Resource_AccountID (in_Resource i)).1 = id →
  in_Resource i = account_resource id
  ∧ (in_Operation i = OperationSetAccountSchedulable
     ∧ ds_kind (in_DesiredState i) = desiredStateSchedulable
     ∨ in_Operation i = OperationSetAccountLoadFactor
       ∧ ds_kind (in_DesiredState i) = desiredStateLoadFactor).
Proof.
  intros Ht. destruct Ht as [id' ds Hp Hk|id' ds Hp Hk Hl|s key ds]; intros Ho Hid; [| |done];
    cbn in Hid; subst; split; [done|by left|done|by right].
Qed.

Lemma setWinning_carries m i kind :
  target (in_Resource i) (in_Operation i) (in_DesiredState i) →
  in_Operation i ≠ OperationSetUpstreamKeyGroupTier →
  (Resource_AccountID (in_Resource i)).1 = mu_AccountID m →
  carries (setWinningMutation m i kind) i.
Proof.
  intros Ht Ho Hid. destruct (account_target i _ Ht Ho Hid) as [Hr Hkind].
  assert (mu_WinningProducer (setWinningMutation m i kind) = in_Producer i
    ∧ mu_WinningAuthority (setWinningMutation m i kind) = in_Authority i) as [Hp Ha].
  { unfold setWinningMutation. repeat case_match; by read_fields. }
  destruct (setWinning_fields m i kind) as (_ & _ & _ & Hid' & _).
  split; [congruence|done|done|].
  unfold setWinningMutation, Schedulable, LoadFactor, winning_load.
  destruct Hkind as [[Hop Hk]|[Hop Hk]]; rewrite Hk; [left|right].
  - rewrite (bool_decide_true (desiredStateSchedulable = desiredStateSchedulable)) by done. by read_fields.
  - rewrite (bool_decide_false (desiredStateLoadFactor = desiredStateSchedulable)) by done.
    rewrite (bool_decide_true (desiredStateLoadFactor = desiredStateLoadFactor)) by done.
    destruct (ds_loadFactorSet (in_DesiredState i)); by read_fields.
Qed.

(** The mutation holds its winner. *)
Definition winner_set (m : Mutation) (i : Intent) (kind : OverrideKind) : Prop :=
  core (setWinningMutation m i kind) = core m.

Lemma winner_set_core m m' i kind : core m = core m' → winner_set m i kind → winner_set m' i kind.
Proof. unfold winner_set. rewrite !core_winning. by intros ->. Qed.

(** ** From the journaled mutation on *)

(** A note in the journal between two of its stamps. *)
Lemma guarded_later w w' m a : guarded w w' → safe w' m a → same_locks w w' ∧ safe w' m a.
Proof. intros [Hr _ _] Hs. split; [by apply same_run_locks|done]. Qed.

Section guarding.
Context (submission : Submission) (pending : option Override) (winner : Intent) (kind : OverrideKind).
Context (account : Account) (control : AccountControl).

(** The guard has passed; the account was read and is in the state noted. *)
Lemma after_guard_wp m w :
  carries m winner → winner_set m winner kind → tracked w m → not_begun w →
  mu_AttemptCount m = 0%Z → mu_Status m = StatusValidating →
  mu_Before m = Some (stateFromAccount account) →
  reads w m account → has_read w m account → safe w m account →
  wpm (now ← call Now;
       try _ ← call (UpdateAccountMutation ((setWinningMutation m winner kind) <| mu_UpdatedAt := now |>))
         catch err => refuse err;
       if accountMatchesIntent account winner
       then finalize submission
         (((setWinningMutation m winner kind) <| mu_UpdatedAt := now |>)
            <| mu_After := Some (stateFromAccount account) |> <| mu_Status := StatusAppliedNoop |>)
         pending control account true
       else write_and_verify submission ((setWinningMutation m winner kind) <| mu_UpdatedAt := now |>)
         pending control account winner) w (settled w).
Proof.
  intros Hca Hws Ht Hnb Hat Hst Hbef Hr Hh Hsafe. apply wp_quiet; [done|]. intros now Hs.
  pose proof (later_tick w now) as Hl. apply (wpm_settled _ _ _ Hl).
  apply (tracked_same_run _ _ _ Hs) in Ht. apply (not_begun_same_run _ _ Hs) in Hnb.
  apply (lt_read _ _ Hl) in Hh. apply (lt_safe _ _ Hl) in Hsafe.
  apply reads_tick with (t := now) in Hr. revert Ht Hnb Hr Hh Hsafe. clear Hs Hl.
  generalize (observed w Z Now now). clear w. intros w Ht Hnb Hr Hh Hsafe.
  set (m2 := (setWinningMutation m winner kind) <| mu_UpdatedAt := now |>).
  destruct (setWinning_fields m winner kind) as (Hs2 & Ha2 & Hb2 & _).
  assert (core m = core m2 ∧ mu_Status m2 = StatusValidating ∧ mu_AttemptCount m2 = 0%Z
    ∧ mu_Before m2 = Some (stateFromAccount account)) as (Hc & Hs & Ha & Hb).
  { subst m2. autorewrite with sched. read_fields. split_and!; [done|congruence..]. }
  clearbody m2. apply (carries_core m m2) in Hca; [|done].
  apply (revise_wp w m); [done..|congruence|done|]. clear Ht Hnb. intros r w1 Hl1 Hok.
  apply (wpm_settled _ _ _ Hl1). destruct r as [[]|e]; [|apply settled_refuse].
  destruct (Hok eq_refl) as (Ht & Hnb & _ & Hr1). apply Hr1 in Hr.
  rewrite (matches_wanted m2) by done. destruct (wanted m2 account) eqn:Ew.
  - set (m3 := (m2 <| mu_After := Some (stateFromAccount account) |>) <| mu_Status := StatusAppliedNoop |>).
    assert (core m2 = core m3 ∧ mu_AttemptCount m3 = 0%Z ∧ mu_After m3 = Some (stateFromAccount account))
      as (Hc3 & Ha3 & Haf3) by (subst m3; autorewrite with sched; by read_fields).
    clearbody m3. apply finalize_wp; [|split_and!|done].
    + apply (tracked_core _ m2); [done|congruence|done].
    + by apply (reads_core _ m2).
    + by rewrite (wanted_core _ m2).
    + done.
  - apply write_and_verify_wp; [done| |done..]. split; [done|apply Hnb|lia|].
    exists account, (stateFromAccount account), account.
    assert (stateMatchesAccount (stateFromAccount account) account = true) as Hm.
    { unfold stateMatchesAccount, sameInt, stateFromAccount. cbn [st_Schedulable st_LoadFactor].
      rewrite cloneInt_id, Bool.eqb_reflx. destruct (acc_LoadFactor account); [apply Z.eqb_refl|done]. }
    split_and!; [done..| |].
    + apply (lt_read _ _ Hl1). by apply (has_read_core _ m).
    + apply (lt_safe _ _ Hl1). by apply (safe_core _ m).
Qed.

Lemma guard_and_write_wp m w :
  carries m winner → winner_set m winner kind → tracked w m → not_begun w →
  mu_AttemptCount m = 0%Z → mu_Status m = StatusValidating →
  mu_TelemetryFresh m = sf_TelemetryFresh (sb_Safety submission) →
  mu_CooldownActive m = sf_CooldownActive (sb_Safety submission) →
  reads w m account → has_read w m account →
  (∃ c, jw_control w = Some c ∧ ct_HealthLocked c = ct_HealthLocked control) →
  wpm (guard_and_write submission m pending winner kind account control) w (settled w).
Proof.
  intros Hca Hws Ht Hnb Hat Hst Htf Hcd Hr Hh Hctl. unfold guard_and_write. cbv zeta.
  apply wp_quiet; [done|]. intros now Hs.
  pose proof (later_tick w now) as Hl. apply (wpm_settled _ _ _ Hl).
  apply (tracked_same_run _ _ _ Hs) in Ht. apply (not_begun_same_run _ _ Hs) in Hnb.
  apply (lt_read _ _ Hl) in Hh. apply reads_tick with (t := now) in Hr.
  assert (∃ c, jw_control (observed w Z Now now) = Some c ∧ ct_HealthLocked c = ct_HealthLocked control)
    as Hctl' by (cbn [observed]; by read_fields).
  revert Ht Hnb Hr Hh Hctl'. clear Hs Hl Hctl. generalize (observed w Z Now now). clear w.
  intros w Ht Hnb Hr Hh Hctl.
  set (m1 := (m <| mu_Before := Some (stateFromAccount account) |>) <| mu_UpdatedAt := now |>).
  assert (core m = core m1 ∧ mu_Status m1 = StatusValidating ∧ mu_AttemptCount m1 = 0%Z
    ∧ mu_Before m1 = Some (stateFromAccount account)) as (Hc & Hs & Ha & Hb).
  { subst m1. autorewrite with sched. by read_fields. }
  clearbody m1. apply (carries_core m m1) in Hca; [|done]. apply (winner_set_core m m1) in Hws; [|done].
  pose proof (core_fields _ _ Hc) as (_ & _ & _ & _ & _ & _ & Htf1 & Hcd1).
  apply (has_read_core _ m m1) in Hh; [|done].
  apply (revise_wp w m); [done..|congruence|done|]. clear Ht Hnb. intros r w1 Hl1 Hok.
  apply (wpm_settled _ _ _ Hl1). destruct r as [[]|e]; [|apply settled_refuse].
  destruct (Hok eq_refl) as (Ht & Hnb & Hct & Hr1). apply Hr1 in Hr. clear Hok Hr1.
  apply (lt_read _ _ Hl1) in Hh. rewrite <-Hct in Hctl.
  rewrite wp_bind. eapply wp_mono; [|apply (checkSafety_wp m1 winner account control); [done|congruence..|done]].
  intros [reason err] w2 [[Hg _] Hsafe]. apply (wpm_guarded _ _ _ Hg).
  apply (tracked_same_run _ _ _ (gu_run _ _ Hg)) in Ht. apply (not_begun_same_run _ _ (gu_run _ _ Hg)) in Hnb.
  case_bool_decide as He.
  { apply finishWithoutWrite_wp; [done|]. apply (bool_decide_unpack _). by vm_compute. }
  case_bool_decide as Hr0; cbn [negb].
  2:{ apply finishWithoutWrite_wp; [done|]. apply (bool_decide_unpack _). by vm_compute. }
  destruct err; [by destruct He|]. subst reason.
  apply after_guard_wp; [done..| | |by apply Hsafe].
  - by apply (guarded_reads w1).
  - by apply (guarded_has_read w1).
Qed.

End guarding.

Lemma carry_out_wp submission pending winner kind m now w :
  carries m winner → winner_set m winner kind → tracked w m → not_begun w →
  mu_AttemptCount m = 0%Z → mu_TelemetryFresh m = sf_TelemetryFresh (sb_Safety submission) →
  mu_CooldownActive m = sf_CooldownActive (sb_Safety submission) →
  wpm (carry_out submission m pending winner kind (mu_AccountID m) now) w (settled w).
Proof.
  intros Hca Hws Ht Hnb Hat Htf Hcd. unfold carry_out. cbv zeta.
  set (m1 := (m <| mu_Status := StatusValidating |>) <| mu_UpdatedAt := now |>).
  assert (core m = core m1 ∧ mu_Status m1 = StatusValidating ∧ mu_AttemptCount m1 = mu_AttemptCount m)
    as (Hc & Hs & Ha) by (subst m1; autorewrite with sched; by read_fields).
  clearbody m1. apply (carries_core m m1) in Hca; [|done]. apply (winner_set_core m m1) in Hws; [|done].
  pose proof (core_fields _ _ Hc) as (_ & Hid & _ & _ & _ & _ & Htf1 & Hcd1).
  apply (revise_wp w m); [done..|]. clear Ht Hnb. intros r w1 Hl1 Hok. apply (wpm_settled _ _ _ Hl1).
  destruct r as [[]|e]; [|apply settled_refuse].
  destruct (Hok eq_refl) as (Ht & Hnb & _). clear Hok. rewrite Hid.
  apply readAccount_wp. intros r w2 Hs2 Hl2 Hr2. apply (wpm_settled _ _ _ Hl2).
  apply (tracked_same_run _ _ _ Hs2) in Ht. apply (not_begun_same_run _ _ Hs2) in Hnb.
  destruct r as [a|e].
  2:{ case_match; (apply finishWithoutWrite_wp; [done|]); apply (bool_decide_unpack _); by vm_compute. }
  destruct (Hr2 _ eq_refl) as [Hreads Hhas]. clear Hr2.
  apply loadControl_wp. intros r w3 Hg3 Hctl. apply (wpm_guarded _ _ _ Hg3).
  apply (tracked_same_run _ _ _ (gu_run _ _ Hg3)) in Ht.
  apply (not_begun_same_run _ _ (gu_run _ _ Hg3)) in Hnb.
  destruct r as [c|e].
  2:{ apply finishWithoutWrite_wp; [done|]. apply (bool_decide_unpack _). by vm_compute. }
  apply guard_and_write_wp; [done..|congruence|done|congruence|congruence| | |by apply Hctl].
  - by apply (guarded_reads w2).
  - by apply (guarded_has_read w2).
Qed.

(** ** Preparing the mutation *)

Lemma scan_results_winner results submitted w status :
  scan_results results submitted = (Some w, status) →
  ∃ r, r ∈ results ∧ ar_Winner r = Some w ∧ ar_ConflictKey r = Intent_ConflictKey submitted
    ∧ (status = StatusPrepared ∧ in_ID w = in_ID submitted
       ∨ status = StatusSuperseded ∧ in_ID w ≠ in_ID submitted).
Proof.
  induction results as [|r rest IH]; [done|]. simpl.
  case_bool_decide as Hk; cbn [negb].
  2:{ intros (r' & ? & ?)%IH. exists r'. split; [by right|done]. }
  destruct (ar_Winner r) as [w'|] eqn:Ew.
  - rewrite cloneControlplaneIntent_id.
    case_bool_decide as Hid; intros [= <- <-]; exists r; split_and!; try done; [by left|left|by left|right]; done.
  - case_match; [done|]. intros (r' & ? & ?)%IH. exists r'. split; [by right|done].
Qed.

Lemma winner_valid now candidates submitted w status :
  submissionDecision now candidates submitted = (Some w, status) →
  Intent_Validate w = Ok () ∧ Intent_ConflictKey w = Intent_ConflictKey submitted.
Proof.
  intros (r & Hr & Hw & Hk & _)%scan_results_winner.
  destruct (winner_sound now candidates r w Hr Hw) as (_ & Hc & [Hv _] & _). split; [done|congruence].
Qed.

(** A new mutation is its winner written into a prepared record. *)
Lemma newMutation_ok id submission winner kind now m :
  newMutation id submission winner kind now = Ok m →
  ∃ m0, m = setWinningMutation m0 winner kind ∧ mu_Status m0 = StatusPrepared ∧ mu_AttemptCount m0 = 0%Z
    ∧ mu_Before m0 = None ∧ mu_OverrideID m0 = ""
    ∧ mu_AccountID m0 = (Resource_AccountID (in_Resource (sb_Intent submission))).1
    ∧ mu_TelemetryFresh m0 = sf_TelemetryFresh (sb_Safety submission)
    ∧ mu_CooldownActive m0 = sf_CooldownActive (sb_Safety submission).
Proof.
  unfold newMutation. destruct (SemanticSignature _) as [sig|e]; [|done].
  unfold Resource_AccountID. intros [= <-]. eexists. split; [reflexivity|].
  unfold setRequestedMutation. repeat case_match; by read_fields.
Qed.

(** The fields set on a new mutation are not those of its winner. *)
Lemma setWinning_context m winner kind run goal step :
  (setWinningMutation m winner kind) <| mu_RunID := run |> <| mu_GoalID := goal |> <| mu_StepID := step |>
  = setWinningMutation (m <| mu_RunID := run |> <| mu_GoalID := goal |> <| mu_StepID := step |>) winner kind.
Proof. destruct m. unfold setWinningMutation. repeat case_match; done. Qed.
Lemma setWinning_override m winner kind o :
  (setWinningMutation m winner kind) <| mu_OverrideID := o |>
  = setWinningMutation (m <| mu_OverrideID := o |>) winner kind.
Proof. destruct m. unfold setWinningMutation. repeat case_match; done. Qed.

Lemma setWinning_safety m winner kind :
  mu_TelemetryFresh (setWinningMutation m winner kind) = mu_TelemetryFresh m
  ∧ mu_CooldownActive (setWinningMutation m winner kind) = mu_CooldownActive m.
Proof. unfold setWinningMutation. repeat case_match; by read_fields. Qed.

Lemma OverrideFromIntent_status id command i o :
  OverrideFromIntent id command i = Ok o → ov_Status o = OverridePending.
Proof.
  unfold OverrideFromIntent, Resource_AccountID, Schedulable, LoadFactor.
  repeat (case_match; try done); intros [= <-]; by read_fields.
Qed.

Lemma activeCandidates_wp {A} submission queued now w
    (k : result error (list Intent * gmap string string) → prog A) Q :
  (∀ r w', same_run w w' → wpm (k r) w' Q) →
  wpm (activeCandidates submission queued now ≫= k) w Q.
Proof.
  intros Hk. unfold activeCandidates. cbv zeta. destruct (Resource_AccountID _) as [id ok].
  rewrite wp_bind. apply wp_quiet; [done|]. intros [overrides|e] Hs1; [|by apply Hk].
  destruct (override_candidates _ _ _ _) as [[candidates kinds]|e]; [|by apply Hk].
  apply wp_quiet; [done|]. intros competing Hs2.
  destruct (foldl _ _ competing) as [c k']. apply Hk. by etrans.
Qed.

(** ** Prepared, the mutation is carried out or set aside *)

Definition fresh (w : journal_watch) (id : Z) : Prop :=
  holds w id ∧ jw_journal w = None ∧ jw_armed w = false.

Lemma fresh_same_run w w' id : same_run w w' → fresh w id → fresh w' id.
Proof.
  intros Hs (Hh & ? & ?). split; [by eapply holds_same_run|]. destruct Hs. split; congruence.
Qed.

Lemma prepared_wp submission m0 pending winner kind status now w (id : Z) :
  let m := setWinningMutation m0 winner kind in
  fresh w id → mu_AccountID m0 = id → mu_Status m0 = StatusPrepared → mu_AttemptCount m0 = 0%Z →
  mu_Before m0 = None →
  match pending with
  | Some o => mu_OverrideID m0 = ov_ID o ∧ ov_MutationID o = mu_ID m ∧ ov_Status o = OverridePending
  | None => mu_OverrideID m0 = ""
  end →
  carries m winner → mu_TelemetryFresh m0 = sf_TelemetryFresh (sb_Safety submission) →
  mu_CooldownActive m0 = sf_CooldownActive (sb_Safety submission) →
  wpm (try prepared ← call (PrepareAccountMutation m pending) catch err => refuse err;
       let '(stored, replay) := prepared in
       if (replay : bool) then
         if negb (bool_decide (mu_SemanticSignature stored = mu_SemanticSignature m))
         then refuse (IdempotencyConflictError (mu_IdempotencyKey m))
         else Ret (replayMutation stored)
       else if bool_decide (status = StatusExpired) || bool_decide (status = StatusSuperseded)
       then finishWithoutWrite submission m status BlockNone None
       else carry_out submission m pending winner kind id now) w (settled w).
Proof.
  intros m (Hh & Hj & Hua) Hid Hs Ha Hb Hov Hca Htf Hcd.
  destruct (setWinning_fields m0 winner kind) as (Hs' & Ha' & Hb' & Hid' & Hov' & HID).
  destruct (setWinning_safety m0 winner kind) as (Htf' & Hcd'). fold m in Hs', Ha', Hb', Hid', Hov', HID, Htf', Hcd'.
  apply wp_call.
  { split_and!; [by rewrite Hid', Hid|done|congruence..|]. by destruct pending; rewrite Hov'. }
  intros [[stored [|]]|e]; [| |apply settled_refuse].
  - assert (same_locks w (observed w _ (PrepareAccountMutation m pending) (Ok (stored, true)))) as Hl by done.
    case_bool_decide; cbn [negb]; [|apply settled_refuse].
    split; [done|]. right; left. unfold replayMutation. destruct (rs_fields stored true) as [_ Hrep].
    by repeat case_match.
  - set (w' := observed w _ _ _).
    assert (tracked w' m ∧ not_begun w' ∧ same_locks w w') as (Ht & Hnb & Hl).
    { destruct Hh as (? & ? & ?). subst w'. cbn [observed]. split_and!.
      - split; [unfold holds; read_fields; by rewrite Hid', Hid|]. exists m. by read_fields.
      - split; [by read_fields|]. exists m. read_fields. split; [done|left; congruence].
      - unfold same_locks. by read_fields. }
    clearbody w'. eapply wp_mono; [intros a w2; by apply settled_locks|].
    destruct (bool_decide _ || bool_decide _) eqn:Est.
    + apply finishWithoutWrite_wp; [done|].
      apply orb_true_iff in Est as [Est|Est]; bool_facts; subst status;
        apply (bool_decide_unpack _); by vm_compute.
    + rewrite <-Hid, <-Hid'. apply carry_out_wp; try done; [|congruence..].
      unfold winner_set. subst m. by rewrite setWinning_idemp.
Qed.

(** ** [submitLocked] *)

Lemma validateAccountIntent_ok i :
  validateAccountIntent i = Ok () →
  Intent_Validate i = Ok () ∧ in_Operation i ≠ OperationSetUpstreamKeyGroupTier.
Proof.
  unfold validateAccountIntent, Resource_AccountID. destruct (Intent_Validate i) as [[]|e]; [|done].
  destruct (bool_decide (r_kind _ = _)); [|done]. cbn [negb].
  destruct (negb _ && negb _) eqn:Eo; [done|]. intros _. split; [done|].
  intros Heq. rewrite Heq in Eo. by vm_compute in Eo.
Qed.

(** The winner of a submission: the submitted intent, or another one for the same
    account and operation. *)
Lemma winning_carries submission now candidates winner status m0 kind :
  validateAccountIntent (sb_Intent submission) = Ok () →
  submissionDecision now candidates (sb_Intent submission) = (winner, status) →
  mu_AccountID m0 = (Resource_AccountID (in_Resource (sb_Intent submission))).1 →
  carries (setWinningMutation m0 (default (sb_Intent submission) winner) kind)
    (default (sb_Intent submission) winner).
Proof.
  intros [Hv Ho]%validateAccountIntent_ok Hd Hid.
  assert (∃ i, default (sb_Intent submission) winner = i ∧ Intent_Validate i = Ok ()
    ∧ Intent_ConflictKey i = Intent_ConflictKey (sb_Intent submission)) as (i & -> & Hvi & [= Hri Hoi]).
  { destruct winner as [w|]; [|by eexists]. apply winner_valid in Hd. by exists w. }
  apply setWinning_carries; [by apply valid_target|congruence|]. by rewrite Hri, Hid.
Qed.

Lemma submitLocked_wp context submission queued w :
  validateAccountIntent (sb_Intent submission) = Ok () →
  fresh w (Resource_AccountID (in_Resource (sb_Intent submission))).1 →
  wpm (submitLocked context submission queued) w (settled w).
Proof.
  intros Hv Hf. unfold submitLocked. cbv zeta.
  destruct (Resource_AccountID (in_Resource (sb_Intent submission))) as [id ok] eqn:Eid.
  apply wp_quiet; [done|]. intros now Hs. pose proof (fresh_same_run _ _ _ Hs Hf) as Hf1.
  eapply wp_mono; [intros a w2; by apply settled_locks, same_run_locks|]. clear Hf Hs.
  revert Hf1. generalize (observed w Z Now now). clear w. intros w Hf.
  destruct (if bool_decide _ then SemanticSignature _ else _) as [signature|e]; [|apply settled_refuse].
  apply wp_call; [apply Hf|]. intros found.
  set (w1 := observed w _ _ found).
  assert (same_locks w w1) as Hl by (subst w1; destruct found; cbn [observed]; unfold same_locks; by read_fields).
  eapply wp_mono; [intros a w2; by apply settled_locks|].
  destruct found as [[existing|]|e]; [| |apply settled_refuse].
  { case_bool_decide; cbn [negb]; [|apply settled_refuse]. split; [done|]. right; left.
    unfold replayMutation. destruct (rs_fields existing true) as [_ Hrep]. by repeat case_match. }
  assert (fresh w1 id) as Hf1.
  { destruct Hf as ((? & ? & ?) & Hj & ?). subst w1. cbn [observed]. unfold fresh, holds. by read_fields. }
  clearbody w1. clear Hf Hl w. apply activeCandidates_wp. intros r w2 Hs2.
  eapply wp_mono; [intros a w3; by apply settled_locks, same_run_locks|].
  apply (fresh_same_run _ _ _ Hs2) in Hf1. clear Hs2 w1.
  destruct r as [[candidates kinds]|e]; [|apply settled_refuse].
  destruct (submissionDecision now candidates (sb_Intent submission)) as [winner status] eqn:Ed.
  apply wp_quiet; [done|]. intros mutationID Hs3.
  eapply wp_mono; [intros a w3; by apply settled_locks, same_run_locks|].
  apply (fresh_same_run _ _ _ Hs3) in Hf1. revert Hf1. generalize (observed w2 _ NewID mutationID). clear w2 Hs3.
  intros w Hf. destruct mutationID as [mutationID|e]; [|apply settled_refuse].
  change (match winner with Some w => w | None => sb_Intent submission end)
    with (default (sb_Intent submission) winner).
  destruct (newMutation _ _ _ _ _) as [m|e] eqn:Em; [|apply settled_refuse].
  apply newMutation_ok in Em as (m0 & -> & Hs0 & Ha0 & Hb0 & Ho0 & Hid0 & Htf0 & Hcd0).
  rewrite setWinning_context. rewrite Eid in Hid0. cbn [fst] in Hid0.
  match goal with |- context [setWinningMutation ?x] => set (m1 := x) end.
  assert (mu_AccountID m1 = id ∧ mu_Status m1 = StatusPrepared ∧ mu_AttemptCount m1 = 0%Z
    ∧ mu_Before m1 = None ∧ mu_OverrideID m1 = "" ∧ mu_TelemetryFresh m1 = sf_TelemetryFresh (sb_Safety submission)
    ∧ mu_CooldownActive m1 = sf_CooldownActive (sb_Safety submission))
    as (Hid1 & Hs1 & Ha1 & Hb1 & Ho1 & Htf1 & Hcd1) by (subst m1; by read_fields).
  clearbody m1. clear Hid0 Hs0 Ha0 Hb0 Ho0 Htf0 Hcd0 m0.
  set (kind := default "" (kinds !! _)).
  assert (∀ m', mu_AccountID m' = id →
    carries (setWinningMutation m' (default (sb_Intent submission) winner) kind)
      (default (sb_Intent submission) winner)) as Hcarry.
  { intros m' Hid'. eapply winning_carries; [done..|]. by rewrite Eid. }
  destruct (sb_PersistOverride submission).
  - rewrite wp_bind. apply wp_quiet; [done|]. intros overrideID Hs3.
    apply (fresh_same_run _ _ _ Hs3) in Hf. apply same_run_locks in Hs3. revert Hf Hs3.
    generalize (observed w _ NewID overrideID). intros w2 Hf Hl2.
    destruct overrideID as [overrideID|e]; [|eapply settled_locks; [done|apply settled_refuse]].
    destruct (OverrideFromIntent _ _ _) as [o|e] eqn:Eo; [|eapply settled_locks; [done|apply settled_refuse]].
    apply OverrideFromIntent_status in Eo. cbn [wp]. rewrite setWinning_override.
    eapply wp_mono; [intros a w3; by apply (settled_locks w w2)|].
    match goal with |- context [PrepareAccountMutation (setWinningMutation ?x _ _) (Some ?y)] =>
      set (m2 := x); set (o2 := y) end.
    apply (prepared_wp submission m2 (Some o2)); subst m2 o2; read_fields; try done.
    + destruct (setWinning_fields m1 (default (sb_Intent submission) winner) kind) as (_ & _ & _ & _ & _ & HID).
      destruct (setWinning_fields (m1 <| mu_OverrideID := ov_ID o |>) (default (sb_Intent submission) winner) kind)
        as (_ & _ & _ & _ & _ & HID2).
      split_and!; [done| |done]. rewrite HID, HID2. by read_fields.
    + apply Hcarry. by read_fields.
  - apply (prepared_wp submission m1 None); try done. by apply Hcarry.
Qed.

(** ** [Submit] *)

Definition released (w : journal_watch) : Prop :=
  jw_locked w = None ∧ jw_slot w = false ∧ jw_queued w = false.

(** Nothing but locks and the queue. *)
Lemma honest_locks a w w' : jw_closed w' = jw_closed w → honest a w → honest a w'.
Proof. unfold honest. by intros ->. Qed.

Lemma refuse_honest e w : honest (no_answer, Some e) w.
Proof. right; right. split; [by eexists|]. by vm_compute. Qed.

Lemma Submit_wp context submission :
  wpm (Submit context submission) first_watch (λ a w, released w ∧ honest a w).
Proof.
  unfold Submit. assert (∀ e, released first_watch ∧ honest (no_answer, Some e) first_watch) as Href
    by (intros e; split; [done|apply refuse_honest]).
  destruct (ValidateCommandID _) as [u|e]; [|apply Href].
  destruct (validateAccountIntent (sb_Intent submission)) as [[]|e] eqn:Ev; [|apply Href].
  apply wp_call; [done|]. intros queued.
  destruct (Resource_AccountID (in_Resource (sb_Intent submission))) as [id ok] eqn:Eid.
  apply wp_call; [done|]. intros [u1|e].
  2:{ apply wp_call; [done|]. intros u1. split; [done|apply refuse_honest]. }
  rewrite wp_bind. apply wp_call; [by split; [eexists|]|]. intros [u2|e].
  2:{ cbn [wp refuse]. apply wp_call; [done|]. intros u2. apply wp_call; [done|]. intros u3.
      split; [done|apply refuse_honest]. }
  match goal with |- wpm _ ?v _ => set (w := v) end.
  assert (fresh w id ∧ jw_queued w = true) as [Hf Hq] by (split; [split_and!|]; done).
  clearbody w. rewrite wp_bind.
  eapply wp_mono; [|apply submitLocked_wp; [done|by rewrite Eid]].
  intros a w1 [(Hl & Hsl & _) Hhon]. destruct Hf as ((Hl0 & Hsl0 & _) & _).
  apply wp_call; [cbn; congruence|]. intros u3. cbn [wp].
  apply wp_call; [done|]. intros u4. apply wp_call.
  { cbn. cbn [observed]. read_fields. split_and!; [congruence|done|done]. }
  intros u5. cbn [observed]. split.
  - unfold released. by read_fields.
  - eapply honest_locks; [|done]. by read_fields.
Qed.

(** C1: a submission keeps to the protocol of a mutation in every run, whatever the
    repository, the transport and the clock reply and wherever the run stops: the
    account is written only under its lock and a slot, after the journal
    acknowledged the announcement, to the winner's value, at most twice and only
    after the freeze state, the locks, the credential and the telemetry allowed it;
    a retry needs a reading that shows the state from before; a success is
    finalized only with a reading that shows the wanted state; every other ending
    leaves the override inactive. When the submission answers, its locks, slot and
    queue entry are given back and it claims success only when the finalization
    was acknowledged or the answer is a replay. *)
Theorem Submit_keeps_protocol context submission tr value :
  trace (Submit context submission) tr value →
  respects mutation_protocol first_watch tr
  ∧ ∀ a, value = Some a →
      released (watch_after mutation_protocol first_watch tr)
      ∧ honest a (watch_after mutation_protocol first_watch tr).
Proof.
  intros Htr. exact (wp_adequate mutation_protocol _ _ _ _ _ (Submit_wp context submission) Htr).
Qed.
End submit.

(** ** A submission in the sandbox *)

Import Samples.

Definition agent_run : list exchange := run_trace sandboxed (Submit None agent_submission) calm.

(** The agent's pause is written once and verified. *)
Lemma Submit_keeps_protocol_witness :
  respects mutation_protocol first_watch agent_run
  ∧ rs_Status (run sandboxed (Submit None agent_submission) calm).1.1 = StatusApplied
  ∧ acc_Schedulable (sx_account (run sandboxed (Submit None agent_submission) calm).2) = false
  ∧ length agent_run = 31%nat.
Proof.
  split; [|split_and!; vm_compute; reflexivity].
  unfold agent_run. exact (proj1 (Submit_keeps_protocol None agent_submission _ _
    (run_traces sandboxed (Submit None agent_submission) calm))).
Defined.
