(* ===== verification/AccountRecoveryFacts.v ===== *)
(** * Recoveries keep to the protocol

    The steps of [AccountRecovery] against [AccountProtocol]: a recovered mutation
    is written under the same conditions as a submitted one, and is not left in
    progress. *)

From S2P Require Import Prelude GoStd Intent Model AccountTypes AccountQueue Requests Effects AccountGuard AccountProjection AccountService AccountRecovery AccountProtocol AccountSandbox AccountSteps.

Section recovery.
Context `{UnicodeTables}.
Abbreviation wpm := (wp mutation_protocol).

(** A recovery that succeeds leaves the mutation finished, or marked uncertain. *)
Definition resolved (r : result error unit) (w : journal_watch) : Prop :=
  r = Ok () → jw_closed w = true ∨ jw_journal w = None
  ∨ ∃ j, jw_journal w = Some j ∧ (mu_Status j = StatusUncertain ∨ Terminal (mu_Status j) = true).

Definition recovered (w : journal_watch) (r : result error unit) (w' : journal_watch) : Prop :=
  same_locks w w' ∧ resolved r w'.

Lemma recovered_locks w w' r w'' : same_locks w w' → recovered w' r w'' → recovered w r w''.
Proof. intros Hl [Hl' ?]. split; [by etrans|done]. Qed.
Lemma wpm_recovered p w w' : same_locks w w' → wpm p w' (recovered w') → wpm p w' (recovered w).
Proof. intros Hl. apply wp_mono. intros a w''. by apply recovered_locks. Qed.

Lemma recovered_err w e : wpm (Ret (Err e)) w (recovered w).
Proof. split; [reflexivity|done]. Qed.

(** ** The stored winner *)

Lemma as_error_ok {A} (r : result ValidationError A) a : as_error r = Ok a ↔ r = Ok a.
Proof. destruct r; simpl; split; by intros [= ->]. Qed.

Lemma intentFromWinningMutation_carries m i : intentFromWinningMutation m = Ok i → carries m i.
Proof.
  unfold intentFromWinningMutation. cbv zeta. destruct (mu_WinningSchedulable m) as [v|] eqn:Ev.
  - intros [-> _]%as_error_ok%schedulable_constructor.
    split; cbn; [done..|]. left. by rewrite Ev.
  - intros [-> _]%as_error_ok%load_factor_constructor.
    split; cbn; [done..|]. right. rewrite Ev. unfold winning_load.
    destruct (mu_WinningLoadSet m); [|done]. rewrite cloneInt_id. by destruct (mu_WinningLoadFactor m).
Qed.

(** ** Endings *)

Lemma leave_uncertain_wp m code w : tracked w m → wpm (leave_uncertain m code) w (recovered w).
Proof.
  intros Ht. unfold leave_uncertain. cbv zeta. apply wp_quiet; [done|]. intros now Hs.
  match goal with |- context [UpdateAccountMutation ?x] => set (m' := x) end.
  assert (core m' = core m ∧ mu_Status m' = StatusUncertain ∧ mu_AttemptCount m' = mu_AttemptCount m)
    as (Hc & Hstat & Hatt) by (subst m'; autorewrite with sched; by read_fields).
  clearbody m'. apply (tracked_same_run _ _ _ Hs), (tracked_core _ _ m') in Ht; [|done..].
  destruct Ht as [Hh (j & Hj & Hjc & Hja)]. apply same_run_locks in Hs. split.
  - split; [done|]. eapply may_move_update; [done..|]. rewrite Hstat. by right; right.
  - intros r. cbn [wp]. split; [etrans; [done|apply observed_update]|]. intros ->. right; right.
    exists m'. cbn [observe mutation_protocol observed]. read_fields. by split; [|left].
Qed.

(** Finalizations that give up. *)
Lemma give_up_wp m m' status control event override w :
  tracked w m → core m' = core m → mu_Status m' = status → mu_AttemptCount m' = mu_AttemptCount m →
  is_Some (mu_CompletedAt m') → status ∈ [StatusBlocked; StatusExpired] → override ≠ OverrideActive →
  wpm (call (FinalizeAccountMutation (mkFinalization m' control event false override "" "" "" None))) w
    (recovered w).
Proof.
  intros Ht Hc Hs Ha Hcomp Hst Ho. apply (tracked_core _ _ m') in Ht; [|done..].
  destruct Ht as [Hh (j & Hj & Hjc & Hja)]. split.
  - split; [done|]. exists j. cbn. split_and!; [done..|right]. rewrite Hs. split_and!; try done. set_solver.
  - intros r. cbn [wp]. match goal with |- context [FinalizeAccountMutation ?f] =>
      destruct (observed_finalize w f r) as [Hl Hcl] end.
    split; [done|]. intros ->. by left.
Qed.

Lemma expirePendingMutation_wp m now w :
  tracked w m → wpm (expirePendingMutation m now) w (recovered w).
Proof.
  intros Ht. unfold expirePendingMutation. cbv zeta.
  apply (give_up_wp m _ StatusExpired); [done|by autorewrite with sched|by read_fields..| | |by vm_compute].
  - read_fields. by eexists.
  - by right; left.
Qed.

Lemma block_pending_wp m reason control w :
  tracked w m → wpm (block_pending m reason control) w (recovered w).
Proof.
  intros Ht. unfold block_pending. cbv zeta. apply wp_quiet; [done|]. intros now Hs.
  apply (tracked_same_run _ _ _ Hs) in Ht. apply (wpm_recovered _ _ _ (same_run_locks _ _ Hs)).
  apply (give_up_wp m _ StatusBlocked); [done|by autorewrite with sched|by read_fields..| | |by vm_compute].
  - read_fields. by eexists.
  - by left.
Qed.

(** The finalization of a success. *)
Lemma applied_wp m m' control event activate override revoke actor reason a w :
  tracked w m → core m' = core m → mu_Status m' = StatusApplied → mu_AttemptCount m' = mu_AttemptCount m →
  is_Some (mu_CompletedAt m') → mu_After m' = Some (stateFromAccount a) →
  reads w m a → wanted m a = true → override = OverrideActive ∨ override = OverrideExpired →
  wpm (call (FinalizeAccountMutation
    (mkFinalization m' control event activate override revoke actor reason None))) w (recovered w).
Proof.
  intros Ht Hc Hs Ha Hcomp Haf Hr Hw Ho. apply (tracked_core _ _ m') in Ht; [|done..].
  destruct Ht as [Hh (j & Hj & Hjc & Hja)]. split.
  - split; [done|]. exists j. cbn. split_and!; [done..|left]. split_and!; [by left|exists a|done].
    split_and!; [by apply (reads_core _ m)|by rewrite (wanted_core _ m)|done].
  - intros r. cbn [wp]. match goal with |- context [FinalizeAccountMutation ?f] =>
      destruct (observed_finalize w f r) as [Hl Hcl] end.
    split; [done|]. intros ->. by left.
Qed.

Lemma recoveredOverrideStatus_cases i now :
  recoveredOverrideStatus i now = OverrideActive ∨ recoveredOverrideStatus i now = OverrideExpired.
Proof. unfold recoveredOverrideStatus. case_match; [by right|by left]. Qed.

Lemma tick_keeps w t m a :
  tracked w m → reads w m a →
  same_locks w (observed w Z Now t) ∧ tracked (observed w Z Now t) m ∧ reads (observed w Z Now t) m a.
Proof.
  intros Ht Hr. assert (same_run w (observed w Z Now t)) as Hs by by apply observed_quiet.
  split_and!; [by apply same_run_locks|by eapply tracked_same_run|by apply reads_tick].
Qed.

Lemma recover_applied_wp m i control a w :
  tracked w m → reads w m a → wanted m a = true →
  wpm (recover_applied m i control a) w (recovered w).
Proof.
  intros Ht Hr Hw. unfold recover_applied. cbv zeta.
  apply wp_quiet; [done|]. intros now1 _. destruct (tick_keeps w now1 m a Ht Hr) as (Hl1 & Ht1 & Hr1).
  apply (wpm_recovered _ _ _ Hl1). revert Ht1 Hr1. generalize (observed w Z Now now1). intros w1 Ht1 Hr1.
  apply wp_quiet; [done|]. intros now2 _. destruct (tick_keeps w1 now2 m a Ht1 Hr1) as (Hl2 & Ht2 & Hr2).
  apply (wpm_recovered _ _ _ Hl2).
  apply (applied_wp m _ _ _ _ _ _ _ _ a); [done|by autorewrite with sched|by read_fields|by read_fields| |by read_fields|done|done|].
  - read_fields. by eexists.
  - apply recoveredOverrideStatus_cases.
Qed.

(** ** The repeated write *)

Lemma recover_write_wp m i control w :
  carries m i → ready w m → wpm (recover_write m i control) w (recovered w).
Proof.
  intros Hca Hr. unfold recover_write. cbv zeta. apply wp_quiet; [done|]. intros now _.
  apply (wpm_recovered _ _ _ (lt_locks _ _ (later_tick w now))). apply (ready_tick w now) in Hr.
  revert Hr. generalize (observed w Z Now now). clear w. intros w Hr.
  match goal with |- context [UpdateAccountMutation ?x] => set (m' := x) end.
  assert (core m' = core m ∧ mu_Status m' = StatusExecuting ∧ mu_Before m' = mu_Before m
    ∧ mu_AttemptCount m' = (mu_AttemptCount m + 1)%Z) as (Hc & Hs & Hb & Ha)
    by (subst m'; autorewrite with sched; by read_fields).
  clearbody m'. apply (carries_core m m') in Hca; [|done].
  apply (announce_wp w m); [done..|]. intros r w1 Hl1 Hok.
  apply (wpm_recovered _ _ _ (lt_locks _ _ Hl1)). destruct r as [[]|e]; [|apply recovered_err].
  destruct (Hok eq_refl) as (Hh & Harm & Hj). clear Hok.
  apply (executor_write_wp m'); [done..|]. intros r w2 Ht2 Hl2 _.
  apply (wpm_recovered _ _ _ (lt_locks _ _ Hl2)). destruct r as [[]|e]; [|by apply leave_uncertain_wp].
  apply readAccount_wp. intros r w3 Hs3 Hl3 Hr3. apply (wpm_recovered _ _ _ (lt_locks _ _ Hl3)).
  apply (tracked_same_run _ _ _ Hs3) in Ht2.
  destruct r as [a|e]; [|by apply leave_uncertain_wp].
  rewrite (matches_wanted m') by done. destruct (wanted m' a) eqn:Ew; [|by apply leave_uncertain_wp]. cbn [negb].
  destruct (Hr3 _ eq_refl) as [Hr4 _]. revert Ht2 Hr4 Ew. clear. intros Ht Hr Ew.
  do 3 (apply wp_quiet; [done|]; intros ? _;
    match goal with |- wpm _ (observed ?v Z Now ?t) _ =>
      destruct (tick_keeps v t m' a Ht Hr) as (Hl & Ht' & Hr');
      eapply wp_mono; [intros ? ?; apply recovered_locks, Hl|];
      clear Hl Ht Hr; revert Ht' Hr'; generalize (observed v Z Now t); clear v; intros v Ht Hr end).
  apply (applied_wp m' _ _ _ _ _ _ _ _ a);
    [done|by autorewrite with sched|by read_fields|by read_fields| |by read_fields|done|done|].
  - read_fields. by eexists.
  - apply recoveredOverrideStatus_cases.
Qed.

Lemma recover_read_wp m i a control w :
  carries m i → tracked w m → jw_armed w = false → reads w m a → has_read w m a →
  (∃ c, jw_control w = Some c ∧ ct_HealthLocked c = ct_HealthLocked control) →
  wpm (recover_read m i a control) w (recovered w).
Proof.
  intros Hca Ht Hua Hr Hh Hctl. unfold recover_read.
  rewrite (matches_wanted m) by done. destruct (wanted m a) eqn:Ew; [by apply recover_applied_wp|].
  apply wp_quiet; [done|]. intros now _.
  pose proof (later_tick w now) as Hl. destruct (tick_keeps w now m a Ht Hr) as (Hlk & Ht1 & Hr1).
  apply (wpm_recovered _ _ _ Hlk). apply (lt_read _ _ Hl) in Hh.
  assert (jw_armed (observed w Z Now now) = false ∧
    ∃ c, jw_control (observed w Z Now now) = Some c ∧ ct_HealthLocked c = ct_HealthLocked control)
    as [Hua1 Hctl1] by (cbn [observed]; by read_fields).
  revert Ht1 Hr1 Hh Hua1 Hctl1. clear Ht Hr Hua Hctl Hl Hlk. generalize (observed w Z Now now). clear w.
  intros w Ht Hr Hh Hua Hctl.
  destruct (intentExpired i now).
  { apply wp_quiet; [done|]. intros now2 Hs. apply (wpm_recovered _ _ _ (same_run_locks _ _ Hs)).
    apply expirePendingMutation_wp. by eapply tracked_same_run. }
  destruct (bool_decide (mu_Before m = None) && _); [by apply leave_uncertain_wp|]. cbv zeta.
  set (b := default (stateFromAccount a) (mu_Before m)). set (m' := m <| mu_Before := Some b |>).
  assert (core m = core m' ∧ mu_AttemptCount m = mu_AttemptCount m' ∧ mu_Before m' = Some b)
    as (Hc & Ha & Hb) by (subst m'; autorewrite with sched; by read_fields).
  clearbody m' b. apply (tracked_core _ _ m') in Ht; [|done..].
  apply (carries_core _ m') in Hca; [|done]. apply (reads_core _ m m') in Hr; [|done].
  apply (has_read_core _ m m') in Hh; [|done]. rewrite (wanted_core m m') in Ew by done.
  destruct (negb (stateMatchesAccount b a) || (2 <=? mu_AttemptCount m')%Z) eqn:Ed;
    [by apply leave_uncertain_wp|]. bool_facts.
  rewrite wp_bind. eapply wp_mono; [|by apply (checkSafety_wp m' i a control)].
  intros [reason err] w2 [[Hg _] Hsafe].
  eapply wp_mono; [intros ? ?; apply recovered_locks, same_run_locks, (gu_run _ _ Hg)|].
  apply (tracked_same_run _ _ _ (gu_run _ _ Hg)) in Ht.
  destruct err as [err|]; [apply recovered_err|].
  case_bool_decide as Er; cbn [negb]; [|by apply block_pending_wp].
  apply recover_write_wp; [done|]. subst reason.
  split; [done|by rewrite (sr_armed _ _ (gu_run _ _ Hg))|done|].
  exists a, b, a. split_and!; [by apply (guarded_reads w)|done..|by apply (guarded_has_read w)|by apply Hsafe].
Qed.

(** ** A pending mutation *)

(** The journal keeps the mutation of an idempotency key with its account: the
    record found under the key of a listed mutation is for the listed account. *)
Definition keyed (account : Z) R (c : Call R) : R → Prop :=
  match c in Call R return R → Prop with
  | FindAccountMutationByIdempotency _ => λ r,
      match r with Ok (Some m) => mu_AccountID m = account | _ => True end
  | _ => λ _, True
  end.

Lemma recover_found_wp m w :
  tracked w m → jw_armed w = false → jw_journal w = Some m →
  wpm (if Terminal (mu_Status m) then Ret (Ok ()) else
       match intentFromWinningMutation m with
       | Err err => Ret (Err err)
       | Ok intent =>
       now ← call Now;
       if not_started m && intentExpired intent now then expirePendingMutation m now else
       account ← readAccount (mu_AccountID m);
       match account with
       | Err _ => leave_uncertain m "recovery_read_failed"
       | Ok account =>
       try control ← loadControl (mu_AccountID m) catch err => Ret (Err err);
       if not_started m then
         safety ← checkSafety intent account control (recorded_safety m);
         let '(reason, guardErr) := safety in
         match guardErr with
         | Some guardErr => Ret (Err guardErr)
         | None =>
             if negb (bool_decide (reason = BlockNone)) then block_pending m reason no_control
             else recover_read m intent account control
         end
       else recover_read m intent account control
       end end) w (recovered w).
Proof.
  intros Ht Hua Hj. destruct (Terminal (mu_Status m)) eqn:Et.
  { split; [reflexivity|]. intros _. right; right. exists m. by split; [|right]. }
  destruct (intentFromWinningMutation m) as [i|e] eqn:Ei; [|apply recovered_err].
  apply intentFromWinningMutation_carries in Ei as Hca.
  apply wp_quiet; [done|]. intros now Hs. apply (wpm_recovered _ _ _ (same_run_locks _ _ Hs)).
  apply (tracked_same_run _ _ _ Hs) in Ht. rewrite <-(sr_armed _ _ Hs) in Hua.
  revert Ht Hua. generalize (observed w Z Now now). clear w Hj Hs. intros w Ht Hua.
  destruct (not_started m && intentExpired i now); [by apply expirePendingMutation_wp|].
  apply readAccount_wp. intros r w1 Hs1 Hl1 Hr1. apply (wpm_recovered _ _ _ (lt_locks _ _ Hl1)).
  apply (tracked_same_run _ _ _ Hs1) in Ht. rewrite <-(sr_armed _ _ Hs1) in Hua.
  destruct r as [a|e]; [|by apply leave_uncertain_wp].
  destruct (Hr1 _ eq_refl) as [Hreads Hhas]. clear Hr1 Hs1 Hl1 w.
  apply loadControl_wp. intros r w2 Hg2 Hctl.
  apply (wpm_recovered _ _ _ (same_run_locks _ _ (gu_run _ _ Hg2))).
  apply (guarded_reads _ _ _ _ Hg2) in Hreads. apply (guarded_has_read _ _ _ _ Hg2) in Hhas.
  apply (tracked_same_run _ _ _ (gu_run _ _ Hg2)) in Ht. rewrite <-(sr_armed _ _ (gu_run _ _ Hg2)) in Hua.
  destruct r as [control|e]; [|apply recovered_err]. specialize (Hctl _ eq_refl). clear Hg2 w1.
  destruct (not_started m); [|by apply recover_read_wp].
  rewrite wp_bind. eapply wp_mono; [|by apply (checkSafety_wp m i a control)].
  intros [reason err] w3 [[Hg3 Hck] _].
  eapply wp_mono; [intros ? ?; apply recovered_locks, same_run_locks, (gu_run _ _ Hg3)|].
  apply (tracked_same_run _ _ _ (gu_run _ _ Hg3)) in Ht.
  destruct err as [err|]; [apply recovered_err|].
  case_bool_decide; cbn [negb]; [|by apply block_pending_wp].
  apply recover_read_wp; [done|done|by rewrite (sr_armed _ _ (gu_run _ _ Hg3))| | |].
  - by apply (guarded_reads w2).
  - by apply (guarded_has_read w2).
  - destruct Hctl as (c & Hc & ?). exists c. by rewrite Hck.
Qed.

Lemma recover_locked_wp item w :
  holds w (mu_AccountID item) → jw_journal w = None → jw_armed w = false →
  wp_assuming mutation_protocol (keyed (mu_AccountID item)) (recover_locked item) w (recovered w).
Proof.
  intros Hh Hj Hua. unfold recover_locked. rewrite wp_assuming_bind. split; [done|]. intros found Hk.
  cbn [wp_assuming observe mutation_protocol]. destruct found as [[m|]|e].
  - cbn in Hk. set (w1 := observed w _ _ _).
    assert (tracked w1 m ∧ jw_armed w1 = false ∧ jw_journal w1 = Some m ∧ same_locks w w1)
      as (Ht & Hua1 & Hj1 & Hl).
    { subst w1. cbn [observed]. destruct Hh as (? & ? & ?). split_and!; [split|..].
      - unfold holds. read_fields. by rewrite Hk.
      - exists m. by read_fields.
      - by read_fields.
      - by read_fields.
      - unfold same_locks. by read_fields. }
    clearbody w1. apply wp_assume. eapply wp_mono; [intros ? ?; by apply recovered_locks|].
    by apply recover_found_wp.
  - split; [unfold same_locks; cbn [observed]; by read_fields|]. intros _. right; left.
    cbn [observed]. by read_fields.
  - by apply recovered_err.
Qed.

Lemma recoverOne_wp item :
  wp_assuming mutation_protocol (keyed (mu_AccountID item)) (recoverOne item) first_watch
    (λ r w, jw_locked w = None ∧ jw_slot w = false ∧ resolved r w).
Proof.
  unfold recoverOne. rewrite wp_assuming_bind. split; [done|]. intros [u1|e] _; [|done].
  cbn [wp_assuming]. rewrite wp_assuming_bind, wp_assuming_bind. split; [by split; [eexists|]|].
  intros [u2|e] _; cbn [wp_assuming].
  2:{ rewrite wp_assuming_bind. split; [done|]. intros u3 _. done. }
  match goal with |- context [wp_assuming _ _ _ ?v _] => set (w := v) end.
  assert (jw_locked w = Some (mu_AccountID item) ∧ jw_slot w = true ∧ jw_closed w = false
    ∧ jw_queued w = false ∧ jw_journal w = None ∧ jw_armed w = false) as (Hl & Hs & Hc & Hq & Hj & Hu) by done.
  clearbody w. rewrite wp_assuming_bind.
  eapply wp_assuming_mono; [|by apply recover_locked_wp].
  intros r w1 [(Hl1 & Hs1 & Hq1) Hres].
  rewrite wp_assuming_bind. split; [cbn; congruence|]. intros u3 _. cbn [wp_assuming].
  rewrite wp_assuming_bind. split.
  { cbn [permitted mutation_protocol permits observe observed]. read_fields. split_and!; congruence. }
  intros u4 _. cbn [wp_assuming observe mutation_protocol observed]. split_and!; [by read_fields..|].
  intros Hr. destruct (Hres Hr) as [?|[?|(j & ? & ?)]]; [left|right; left|right; right; exists j]; by read_fields.
Qed.

(** C2: recovering a pending mutation keeps to the same protocol as submitting one,
    whatever the repository, the transport and the clock reply and wherever it
    stops again (the journal returning, for the mutation's key, a record of its
    account): so the write is repeated only under the account lock, after a new
    acknowledged announcement, at most until the second attempt, from the state
    before and past the guard, and success is finalized only when the account was
    read in the wanted state. Locks are given back, and a recovery that reports no
    error has finished the mutation, marked it uncertain, or found it finished or
    gone. *)
Theorem recoverOne_keeps_protocol item tr value :
  trace (recoverOne item) tr value → assumed (keyed (mu_AccountID item)) tr →
  respects mutation_protocol first_watch tr
  ∧ ∀ r, value = Some r →
      jw_locked (watch_after mutation_protocol first_watch tr) = None
      ∧ jw_slot (watch_after mutation_protocol first_watch tr) = false
      ∧ resolved r (watch_after mutation_protocol first_watch tr).
Proof.
  intros Htr Hk. exact (wp_assuming_adequate _ _ _ _ _ _ _ (recoverOne_wp item) Htr Hk).
Qed.
End recovery.

(** ** A recovery in the sandbox *)

Import Samples.

(** The submission of the sandbox, stopped when its mutation was prepared. *)
Definition pending_mutation : Mutation :=
  match newMutation "mutation-4f" agent_submission agent_pause "temporary" midnight with
  | Ok m => m
  | Err _ => mkMutation "" "" "" "" "" 0 "" None None false "" "" "" "" "" "" [] "" "" midnight None None
      None false "" "" "" "" "" "" "" "" 0 0 0 None "" 0 None None "" midnight midnight None "" "" false false
  end.
Definition recovery_run : list exchange :=
  run_trace sandboxed (recoverOne pending_mutation) (prepared_only pending_mutation None).

Lemma recoverOne_keeps_protocol_witness :
  respects mutation_protocol first_watch recovery_run
  ∧ is_ok (run sandboxed (recoverOne pending_mutation) (prepared_only pending_mutation None)).1 = true
  ∧ acc_Schedulable (sx_account
      (run sandboxed (recoverOne pending_mutation) (prepared_only pending_mutation None)).2) = false
  ∧ length recovery_run = 21%nat.
Proof.
  split; [|split_and!; vm_compute; reflexivity].
  unfold recovery_run.
  refine (proj1 (recoverOne_keeps_protocol pending_mutation _ _
    (run_traces sandboxed (recoverOne pending_mutation) (prepared_only pending_mutation None)) _)).
  vm_compute. repeat constructor.
Defined.
