(* ===== verification/AccountStored.v ===== *)
(** * What is stored can be read back

    An override and a mutation store the intents they stand for column by column.
    [Override.Intent] and [intentFromWinningMutation] rebuild them: exactly, for
    every intent the constructors build. *)

From S2P Require Import Prelude GoStd Intent Arbiter ArbiterFacts Model AccountTypes AccountQueue Requests Effects AccountGuard AccountProjection AccountService AccountRecovery AccountProtocol AccountSandbox AccountSteps AccountSubmitFacts.

Section stored.
Context `{UnicodeTables}.

(** An account intent as its constructor builds it. *)
Inductive account_intent : Intent → Prop :=
  | account_schedulable m id b i :
      NewAccountSchedulableIntent m id b = Ok i → account_intent i
  | account_load_factor m id v i :
      NewAccountLoadFactorIntent m id v = Ok i → account_intent i.

(** Such an intent is its own metadata, built again. *)
Lemma built_again m r op ds : built (metadata_of (built m r op ds)) r op ds = built m r op ds.
Proof.
  assert (metadata_of (built m r op ds) = normalizeMetadata m) as -> by by destruct m.
  unfold built. by rewrite normalizeMetadata_idemp.
Qed.

(** The two shapes, with the constructor that rebuilds each. *)
Lemma account_intent_inv i :
  account_intent i →
  Intent_Validate i = Ok ()
  ∧ ((∃ id b, in_Resource i = account_resource id ∧ in_Operation i = OperationSetAccountSchedulable
        ∧ in_DesiredState i = schedulableState b
        ∧ NewAccountSchedulableIntent (metadata_of i) id b = Ok i)
     ∨ (∃ id v, in_Resource i = account_resource id ∧ in_Operation i = OperationSetAccountLoadFactor
        ∧ in_DesiredState i = load_state v
        ∧ NewAccountLoadFactorIntent (metadata_of i) id v = Ok i)).
Proof.
  intros [m id b i' [-> Hv]%schedulable_constructor|m id v i' [-> Hv]%load_factor_constructor];
    (split; [done|]); [left; exists id, b|right; exists id, v]; split_and!; try done.
  - apply schedulable_constructor. by rewrite built_again.
  - apply load_factor_constructor. by rewrite built_again.
Qed.

Lemma validated_signature i : Intent_Validate i = Ok () → ∃ s, SemanticSignature i = Ok s.
Proof. unfold SemanticSignature. intros ->. by eexists. Qed.

(** An override can be issued exactly for the intents of the other authorities
    than the active policy, and from the override as it is stored the intent is
    rebuilt exactly, whatever has happened to its kind, its mutation and its status
    since. *)
Theorem override_roundtrip id commandID i :
  account_intent i →
  (in_Authority i = AuthorityActivePolicy →
    OverrideFromIntent id commandID i = Err (NewError "active policy is not a persistent override"))
  ∧ (in_Authority i ≠ AuthorityActivePolicy →
    ∃ o, OverrideFromIntent id commandID i = Ok o
      ∧ ov_ID o = id ∧ ov_CommandID o = commandID ∧ ov_Status o = OverridePending
      ∧ SemanticSignature i = Ok (ov_SemanticSignature o)
      ∧ ∀ kind mutation status, Override_Intent (o <| ov_Kind := kind |> <| ov_MutationID := mutation |>
          <| ov_Status := status |>) = Ok i).
Proof.
  intros [Hv Hshape]%account_intent_inv. unfold OverrideFromIntent. rewrite Hv.
  split; intros Ha; [by rewrite (bool_decide_true _ Ha)|]. rewrite (bool_decide_false _ Ha).
  destruct (validated_signature i Hv) as [s Hs]. rewrite Hs.
  generalize (bool_decide (in_Authority i = AuthorityManualHold)). intros hold.
  destruct Hshape as [(x & b & Hr & Ho & Hd & Hnew)|(x & v & Hr & Ho & Hd & Hnew)];
    rewrite Hr, Ho, Hd; unfold Resource_AccountID, Schedulable, LoadFactor; cbn;
    destruct hold; try destruct v; (eexists; split; [reflexivity|]);
    (split_and!; [done..|]); intros; unfold Override_Intent; cbn; autorewrite with sched;
    unfold metadata_of in Hnew; by rewrite Hnew.
Qed.

(** The winner's columns of a mutation, which its progress does not change. *)
Definition winning_columns (m : Mutation) :=
  (mu_AccountID m, mu_WinningIntentID m, mu_WinningIdempotencyKey m, mu_WinningProducer m,
   mu_WinningAuthority m, mu_WinningActor m, mu_WinningReason m, mu_WinningEvidenceRefs m,
   mu_WinningPolicyVersion m, mu_WinningSnapshotVersion m, mu_WinningCreatedAt m,
   mu_WinningExpiresAt m, mu_WinningSchedulable m, mu_WinningLoadFactor m, mu_WinningLoadSet m).

Lemma winning_columns_core m : winning_columns m = winning_columns (core m).
Proof. by destruct m. Qed.

Lemma intentFromWinningMutation_columns m m' :
  winning_columns m = winning_columns m' → intentFromWinningMutation m = intentFromWinningMutation m'.
Proof. unfold winning_columns, intentFromWinningMutation. by intros [= -> -> -> -> -> -> -> -> -> -> -> -> -> -> ->]. Qed.

Lemma intentFromWinningMutation_core m m' :
  core m = core m' → intentFromWinningMutation m = intentFromWinningMutation m'.
Proof.
  intros Hc. apply intentFromWinningMutation_columns.
  by rewrite (winning_columns_core m), (winning_columns_core m'), Hc.
Qed.

Lemma setWinningMutation_back m i kind :
  account_intent i → in_Resource i = account_resource (mu_AccountID m) →
  intentFromWinningMutation (setWinningMutation m i kind) = Ok i.
Proof.
  intros [_ Hshape]%account_intent_inv Hid. destruct m. unfold setWinningMutation. upd. cbn in Hid.
  destruct Hshape as [(x & b & Hr & _ & Hd & Hnew)|(x & v & Hr & _ & Hd & Hnew)];
    rewrite Hr in Hid; injection Hid as <-; rewrite Hd; unfold Schedulable, LoadFactor;
    try destruct v; cbn;
    change (bool_decide (desiredStateSchedulable = desiredStateSchedulable)) with true;
    change (bool_decide (desiredStateLoadFactor = desiredStateSchedulable)) with false;
    change (bool_decide (desiredStateLoadFactor = desiredStateLoadFactor)) with true;
    unfold intentFromWinningMutation; upd; autorewrite with sched;
    unfold metadata_of in Hnew; cbn; by rewrite Hnew.
Qed.

(** C5: recovery decides about the intent that won: from the mutation a submission
    prepares, in every version the journal holds of it while it is carried out, the
    winner of the arbitration is rebuilt exactly; the mutation carries the
    submission's idempotency key (the request's, when there is one) and semantic
    signature, and starts prepared, unattempted and without an observed state. *)
Theorem mutation_roundtrip id submission winner kind now m :
  account_intent winner →
  in_Resource winner = in_Resource (sb_Intent submission) →
  newMutation id submission winner kind now = Ok m →
  (∀ m', core m' = core m → intentFromWinningMutation m' = Ok winner)
  ∧ mu_Status m = StatusPrepared ∧ mu_AttemptCount m = 0%Z ∧ mu_Before m = None
  ∧ (trim_space (sb_RequestIdempotencyKey submission) = "" →
      mu_IdempotencyKey m = in_IdempotencyKey (sb_Intent submission))
  ∧ (trim_space (sb_RequestSemanticSignature submission) = "" →
      SemanticSignature (sb_Intent submission) = Ok (mu_SemanticSignature m)).
Proof.
  intros Hw Hres Hnew. unfold newMutation in Hnew.
  destruct (SemanticSignature (sb_Intent submission)) as [s|e]; [|done].
  destruct (Resource_AccountID (in_Resource (sb_Intent submission))) as [account ok] eqn:Hacc.
  injection Hnew as <-.
  match goal with |- context [setWinningMutation (setRequestedMutation ?m _) _ _] => set (base := m) end.
  set (m := setRequestedMutation base (sb_Intent submission)).
  assert (mu_AccountID m = account ∧ mu_IdempotencyKey m = mu_IdempotencyKey base
    ∧ mu_SemanticSignature m = mu_SemanticSignature base ∧ mu_Status m = StatusPrepared
    ∧ mu_AttemptCount m = 0%Z ∧ mu_Before m = None) as (Hid & Hk & Hs & Hst & Hat & Hb).
  { unfold m, setRequestedMutation. repeat case_match; by read_fields. }
  destruct (setWinning_fields m winner kind) as (Hst' & Hat' & Hb' & Hid' & _).
  split_and!; [intros m' Hc|congruence..| |].
  - rewrite (intentFromWinningMutation_core _ _ Hc). apply setWinningMutation_back; [done|].
    rewrite Hid. apply account_intent_inv in Hw as [_ Hshape].
    assert (∃ x, in_Resource winner = account_resource x) as [x Hx] by naive_solver.
    rewrite Hx in Hres |- *. rewrite <-Hres in Hacc. by injection Hacc as ->.
  - intros Hempty. assert (mu_IdempotencyKey (setWinningMutation m winner kind) = mu_IdempotencyKey m) as ->.
    { unfold setWinningMutation. repeat case_match; by read_fields. }
    rewrite Hk. subst base. cbn. by rewrite Hempty.
  - intros Hempty. assert (mu_SemanticSignature (setWinningMutation m winner kind) = mu_SemanticSignature m) as ->.
    { unfold setWinningMutation. repeat case_match; by read_fields. }
    rewrite Hs. subst base. cbn. by rewrite Hempty.
Qed.
End stored.

Import Samples.

Lemma agent_pause_account_intent : account_intent agent_pause.
Proof. exact (account_schedulable _ _ _ _ agent_pause_valid). Qed.

Lemma override_roundtrip_witness :
  in_Authority agent_pause ≠ AuthorityActivePolicy
  ∧ ∃ o, OverrideFromIntent "override-1" "command-1" agent_pause = Ok o
      ∧ ov_ID o = "override-1" ∧ ov_CommandID o = "command-1" ∧ ov_Status o = OverridePending
      ∧ SemanticSignature agent_pause = Ok (ov_SemanticSignature o)
      ∧ ∀ kind mutation status, Override_Intent (o <| ov_Kind := kind |> <| ov_MutationID := mutation |>
          <| ov_Status := status |>) = Ok agent_pause.
Proof.
  assert (in_Authority agent_pause ≠ AuthorityActivePolicy) as Ha by by vm_compute.
  split; [exact Ha|].
  exact (proj2 (override_roundtrip "override-1" "command-1" agent_pause agent_pause_account_intent) Ha).
Defined.

Definition agent_mutation : result error Mutation :=
  newMutation "mutation-1" agent_submission agent_pause OverrideKindTemporary midnight.

Lemma mutation_roundtrip_witness :
  ∃ m, agent_mutation = Ok m
    ∧ intentFromWinningMutation
        (m <| mu_Status := StatusUncertain |> <| mu_AttemptCount := 1%Z |>) = Ok agent_pause.
Proof.
  destruct agent_mutation as [m|e] eqn:Hm; [|by vm_compute in Hm].
  exists m. split; [reflexivity|].
  refine (proj1 (mutation_roundtrip "mutation-1" agent_submission agent_pause OverrideKindTemporary
    midnight m agent_pause_account_intent _ Hm) _ _); [by vm_compute|by destruct m].
Defined.
