(* ===== verification/AccountArbitration.v ===== *)
(** * The decision about a submission

    [submissionDecision] of [internal/accountcontrol/service.go] reads the outcome
    of a submission off the arbitration among the active overrides, the queued
    candidates and the submission itself. *)

From S2P Require Import Prelude GoStd Intent Arbiter ArbiterFacts Model AccountTypes AccountQueue Requests Effects AccountGuard AccountProjection AccountService.

Section decision.
Context `{UnicodeTables}.

(** ** Expired intents *)

Lemma elem_of_actions now l a :
  a ∈ actions now l →
  (∃ i, i ∈ l ∧ a ∈ classify_actions now i)
  ∨ ∃ cs, a ∈ settle_actions cs.
Proof.
  unfold actions. intros [Ha|Ha]%elem_of_app; apply list_elem_of_bind in Ha as (x & Ha & Hx); [left|right]; eauto.
Qed.

(** The outcomes ignored as expired are the valid, expired intents of the result's
    conflict key. *)
Lemma expired_ignored now l r o :
  r ∈ Arbitrate now l →
  o ∈ ar_Ignored r ∧ co_ReasonCode o = ReasonExpired ↔
  ∃ i, i ∈ l ∧ Intent_ConflictKey i = ar_ConflictKey r ∧ Intent_Validate i = Ok ()
    ∧ Expired i now = true ∧ o = expired_outcome i.
Proof.
  intros (c & b & Hb & ->)%Arbitrate_elem. rewrite decide_bucket_key.
  assert (o ∈ ar_Ignored (decide_bucket (c, b)) ↔ o ∈ ab_ignored b) as ->.
  { unfold decide_bucket, sortOutcomes.
    destruct (sort_slice candidateWins _); cbn [ar_Ignored]; apply elem_of_sort_slice. }
  unfold final_buckets in Hb. rewrite gather in Hb. case_decide; [|done]. injection Hb as <-.
  cbn [ab_ignored]. rewrite list_elem_of_bind. setoid_rewrite <-(elem_of_sort_slice less_canonical _ l).
  split.
  - intros [(a & Ho & Ha) Hreason]. destruct a as [|c' o'|]; cbn in Ho; try by apply elem_of_nil in Ho.
    case_decide as Hc; [|by apply elem_of_nil in Ho]. apply list_elem_of_singleton in Ho as ->. subst c'.
    apply elem_of_actions in Ha as [(i & Hi & Ha)|(cs & Ha)].
    + exists i. split; [done|]. unfold classify_actions in Ha. apply elem_of_cons in Ha as [?|Ha]; [done|].
      destruct (Intent_Validate i) as [[]|e]; [destruct (Expired i now) eqn:He|].
      * apply list_elem_of_singleton in Ha. by simplify_eq.
      * by apply elem_of_nil in Ha.
      * apply list_elem_of_singleton in Ha. by simplify_eq.
    + unfold settle_actions in Ha. destruct (negb _).
      * apply list_elem_of_fmap in Ha as (y & ? & _). by simplify_eq.
      * destruct cs; [by apply elem_of_nil in Ha|]. apply elem_of_cons in Ha as [?|Ha]; [done|].
        apply list_elem_of_fmap in Ha as (y & ? & _). by simplify_eq.
  - intros (i & Hi & <- & Hv & He & ->). split; [|done].
    exists (Ignore (Intent_ConflictKey i) (expired_outcome i)). split.
    + cbn. rewrite decide_True by done. by apply list_elem_of_singleton.
    + unfold actions. apply elem_of_app. left. apply list_elem_of_bind. exists i. split; [|done].
      unfold classify_actions. rewrite Hv, He. right. by left.
Qed.

(** ** Reading the results *)

Lemma scan_results_key results submitted r :
  NoDup (ar_ConflictKey <$> results) → r ∈ results →
  ar_ConflictKey r = Intent_ConflictKey submitted →
  scan_results results submitted =
  match ar_Winner r with
  | Some w => (Some w, if bool_decide (in_ID w = in_ID submitted) then StatusPrepared else StatusSuperseded)
  | None =>
      (None, if existsb (λ o, bool_decide (in_ID (co_Intent o) = in_ID submitted)
                              && bool_decide (co_ReasonCode o = ReasonExpired)) (ar_Ignored r)
             then StatusExpired else StatusSuperseded)
  end.
Proof.
  intros Hnd Hr Hk. induction results as [|r' results IH]; [by apply elem_of_nil in Hr|].
  apply NoDup_cons in Hnd as [Hfresh Hnd]. cbn [scan_results].
  apply elem_of_cons in Hr as [<-|Hr].
  - rewrite (bool_decide_true _ Hk). cbn [negb]. destruct (ar_Winner r) as [w|].
    { rewrite cloneControlplaneIntent_id. by case_bool_decide. }
    destruct (existsb _ _); [done|]. clear IH.
    assert (∀ x, x ∈ results → ar_ConflictKey x ≠ Intent_ConflictKey submitted) as Hnone.
    { intros x Hx Heq. apply Hfresh. rewrite Hk, <-Heq. by apply list_elem_of_fmap_2. }
    clear -Hnone. induction results as [|x results IH]; [done|]. cbn [scan_results].
    rewrite (bool_decide_false _ (Hnone x (list_elem_of_here _ _))). cbn [negb].
    apply IH. intros y Hy. apply Hnone. by right.
  - rewrite (bool_decide_false (ar_ConflictKey r' = _)); [by apply IH|].
    intros Heq. apply Hfresh. rewrite Heq, <-Hk. by apply list_elem_of_fmap_2.
Qed.

(** C4: the decision about a submission among its candidates. There is a winner
    when the submission, or any live candidate for the same account and operation,
    shares its idempotency key with no candidate of other semantics; the winner is
    such a candidate, none of them outranks it, none of the same rank is newer, and
    the submission goes on exactly when the winner has its identifier, and is
    superseded otherwise. Without a winner the submission is itself expired or
    contested; it counts as expired exactly when a valid, expired candidate for the
    same account and operation has its identifier. *)
Theorem submissionDecision_correct now l i :
  i ∈ l →
  let '(winner, status) := submissionDecision now l i in
  match winner with
  | Some w =>
      w ∈ l ∧ Intent_ConflictKey w = Intent_ConflictKey i ∧ live now w ∧ agreed now l w
      ∧ status = (if decide (in_ID w = in_ID i) then StatusPrepared else StatusSuperseded)
      ∧ ∀ j, j ∈ l → Intent_ConflictKey j = Intent_ConflictKey i → live now j → agreed now l j →
          (rank w ≤ rank j)%Z
          ∧ ((∀ x, x ∈ l → in_int64 (in_CreatedAt x)) → rank w = rank j →
             (in_CreatedAt j ≤ in_CreatedAt w)%Z)
  | None =>
      (∀ j, j ∈ l → Intent_ConflictKey j = Intent_ConflictKey i → live now j → ¬ agreed now l j)
      ∧ (status = StatusExpired ∨ status = StatusSuperseded)
      ∧ (status = StatusExpired ↔
          ∃ j, j ∈ l ∧ Intent_ConflictKey j = Intent_ConflictKey i ∧ in_ID j = in_ID i
            ∧ Intent_Validate j = Ok () ∧ Expired j now = true)
  end.
Proof.
  intros Hi. unfold submissionDecision.
  assert (∃ r, r ∈ Arbitrate now l ∧ ar_ConflictKey r = Intent_ConflictKey i) as (r & Hr & Hk).
  { destruct (proj2 (final_buckets_dom now l _) (ex_intro _ i (conj Hi eq_refl))) as [b Hb].
    exists (decide_bucket (Intent_ConflictKey i, b)). split; [apply Arbitrate_elem; eauto|].
    apply decide_bucket_key. }
  rewrite (scan_results_key _ _ r); [|rewrite (Arbitrate_keys now); apply NoDup_fst_map_to_list|done..].
  destruct (ar_Winner r) as [w|] eqn:Hw.
  - destruct (winner_sound now l r w Hr Hw) as (? & ? & ? & ?). split_and!; [done|congruence|done|done| |].
    + by case_bool_decide; case_decide.
    + intros j Hj Hjk Hlive Ha. destruct (winner_best now l r j Hr Hj) as (w' & Hw' & ?); [congruence|done..|].
      rewrite Hw in Hw'. by simplify_eq.
  - split_and!.
    + intros j Hj Hjk Hlive Ha. destruct (winner_best now l r j Hr Hj) as (w' & Hw' & ?); [congruence|done..|].
      congruence.
    + destruct (existsb _ _); [by left|by right].
    + rewrite <-Hk. destruct (existsb _ _) eqn:E.
      * split; [intros _|done]. apply existsb_exists in E as (o & Ho%list_elem_of_In & E).
        apply andb_true_iff in E as [Eid%bool_decide_eq_true Er%bool_decide_eq_true].
        destruct (proj1 (expired_ignored now l r o Hr)) as (j & ? & ? & ? & ? & ->); [done|]. eauto 10.
      * split; [done|]. intros (j & Hj & Hjk & Hid & Hv & He). exfalso.
        destruct (proj2 (expired_ignored now l r (expired_outcome j) Hr)) as [Ho Hreason]; [eauto 10|].
        apply not_true_iff_false in E. apply E, existsb_exists.
        exists (expired_outcome j). split; [by apply list_elem_of_In|].
        by rewrite !bool_decide_true by done.
Qed.
End decision.

Import Samples.

(** The operator's hold supersedes the policy's resume. *)
Lemma submissionDecision_correct_witness :
  policy_resume ∈ sample_submission
  ∧ submissionDecision midnight sample_submission policy_resume = (Some operator_hold, StatusSuperseded)
  ∧ live midnight operator_hold ∧ (rank operator_hold ≤ rank policy_resume)%Z
  ∧ agreed midnight sample_submission operator_hold.
Proof.
  assert (policy_resume ∈ sample_submission) as Hin by (left).
  assert (submissionDecision midnight sample_submission policy_resume = (Some operator_hold, StatusSuperseded))
    as Hd by (vm_compute; reflexivity).
  pose proof (submissionDecision_correct midnight sample_submission policy_resume Hin) as Ht.
  rewrite Hd in Ht. destruct Ht as (_ & _ & Hlive & Ha & _ & Hbest).
  split; [exact Hin|]. split; [exact Hd|]. split; [exact Hlive|]. split; [|exact Ha].
  exact (proj1 (Hbest policy_resume Hin eq_refl (conj eq_refl eq_refl) sample_agreed)).
Defined.
