(* ===== verification/AccountLifetime.v ===== *)
(** * The lifetime of a mutation

    The runs that concern one mutation, the submission and the recoveries after each
    restart, over a journal that keeps what it acknowledged. However often the
    service stops, the account is written at most twice, always to the winner's
    value, and the journal has counted every write before it was issued. *)

From S2P Require Import Prelude GoStd Intent Model AccountTypes AccountQueue Requests Effects AccountGuard AccountProjection AccountService AccountRecovery AccountProtocol AccountSandbox AccountSteps AccountSubmitFacts AccountRecoveryFacts.

(** ** The journal's record of a mutation *)

(** What an exchange makes of the record under the mutation's idempotency key. A
    request that came back with an error may have been carried out or not; a run
    that stops while a request is under way is one that stops after an error. *)
Definition stores (d : option Mutation) (x : exchange) (d' : option Mutation) : Prop :=
  match x with
  | Exchange c r =>
      match c in Call R return R → Prop with
      | FindAccountMutationByIdempotency _ => λ r,
          d' = d ∧ match r with Ok found => found = d | Err _ => True end
      | PrepareAccountMutation m _ => λ r,
          match r with
          | Ok (_, true) => d' = d
          | Ok (_, false) => d = None ∧ d' = Some m
          | Err _ => d' = d ∨ d = None ∧ d' = Some m
          end
      | UpdateAccountMutation m => λ r,
          match r with Ok _ => d' = Some m | Err _ => d' = d ∨ d' = Some m end
      | FinalizeAccountMutation f => λ r,
          match r with
          | Ok _ => d' = Some (fn_Mutation f)
          | Err _ => d' = d ∨ d' = Some (fn_Mutation f)
          end
      | _ => λ _, d' = d
      end r
  end.

Fixpoint journaled (d : option Mutation) (tr : list exchange) (d' : option Mutation) : Prop :=
  match tr with
  | [] => d' = d
  | x :: tr => ∃ d1, stores d x d1 ∧ journaled d1 tr d'
  end.

(** ** Writes *)

(** A write: the account, and the schedulable state or the load factor set. *)
Abbreviation write := (Z * option bool * option Z)%type (only parsing).

Definition write_of (x : exchange) : option write :=
  match x with
  | Exchange c _ =>
      match c with
      | SetSchedulable id value => Some (id, Some value, None)
      | UpdateLoadFactor id value => Some (id, None, value)
      | _ => None
      end
  end.

(** The write that carries out a mutation. *)
Definition write_for (m : Mutation) : write :=
  (mu_AccountID m, mu_WinningSchedulable m,
   match mu_WinningSchedulable m with Some _ => None | None => winning_load m end).

Lemma write_for_core m m' : core m = core m' → write_for m = write_for m'.
Proof. intros (_ & Hid & Hs & Hl & _)%core_fields. unfold write_for. by rewrite Hid, Hs, Hl. Qed.

Definition attempts (d : option Mutation) : Z := default 0%Z (mu_AttemptCount <$> d).

(** ** The invariant *)

(** [ws] are the writes so far, [d] the record, [w] the watch of the current run. *)
Record counted (w : journal_watch) (d : option Mutation) (ws : list write) : Prop := {
  co_bound : (attempts d ≤ 2)%Z;
  co_writes : Forall (λ x, ∃ m, d = Some m ∧ x = write_for m) ws;
  co_count : (Z.of_nat (length ws) ≤ attempts d)%Z;
  co_run :
    match jw_journal w with
    | None => jw_armed w = false
    | Some j => ∃ m, d = Some m ∧ core m = core j ∧ (mu_AttemptCount j ≤ mu_AttemptCount m)%Z
        ∧ (Z.of_nat (length ws) + (if jw_armed w then 1 else 0) ≤ mu_AttemptCount j)%Z
    end;
}.

Lemma counted_start d ws w : counted w d ws → counted first_watch d ws.
Proof. by intros [? ? ? _]. Qed.

Lemma counted_same_run w w' d ws : same_run w w' → counted w d ws → counted w' d ws.
Proof. intros [Hj Ha _ _ _ _] [? ? ? Hr]. split; [done..|]. by rewrite Hj, Ha. Qed.

(** The record replaced by a later version of the mutation. *)
Lemma counted_replace w d ws m m' :
  counted w d ws → d = Some m → core m' = core m →
  (Z.of_nat (length ws) ≤ mu_AttemptCount m' ≤ 2)%Z →
  match jw_journal w with
  | None => True
  | Some j => (mu_AttemptCount j ≤ mu_AttemptCount m')%Z
  end → counted w (Some m') ws.
Proof.
  intros [Hb Hw Hc Hr] -> Hcore Hn Hj. split; [cbn; lia| |cbn; lia|].
  - eapply Forall_impl; [exact Hw|]. intros x (m0 & [= <-] & ->). exists m'.
    split; [done|]. by apply write_for_core.
  - destruct (jw_journal w) as [j|]; [|done].
    destruct Hr as (m0 & [= <-] & Hcj & _ & Hl). exists m'. split_and!; [done|congruence|done|done].
Qed.

Section steps.
Context `{UnicodeTables}.

Lemma counted_update w d ws m r d' :
  counted w d ws → permits w _ (UpdateAccountMutation m) → stores d (Exchange (UpdateAccountMutation m) r) d' →
  counted (observed w _ (UpdateAccountMutation m) r) d' ws.
Proof.
  intros Hco [_ (j & Hj & Hjm & Hmove)] Hst.
  pose proof (co_run _ _ _ Hco) as Hr. rewrite Hj in Hr.
  destruct Hr as (m0 & -> & Hcm & Hle & Hws). pose proof (co_bound _ _ _ Hco) as Hb. cbn in Hb.
  assert (mu_AttemptCount j ≤ mu_AttemptCount m ≤ 2
    ∧ (mu_Status m = StatusExecuting → jw_armed w = false ∧ mu_AttemptCount m = mu_AttemptCount j + 1))%Z
    as [Hatt Hex].
  { destruct Hmove as [[Hs (Ha & Hn & H2 & _)]|[Hmv Hn]]; (split; [lia|]); [done|].
    intros Hs. exfalso. rewrite Hs in Hmv. by destruct Hmv as [[? _]|[?|?]]. }
  assert (counted w (Some m) ws) as Hco'.
  { apply (counted_replace w (Some m0) ws m0); [done|done|congruence| |].
    - destruct (jw_armed w); cbn in Hws; lia.
    - rewrite Hj. lia. }
  cbn in Hst. destruct r as [u|e]; cbn [observed].
  - subst d'. split; try apply Hco'. read_fields. exists m. split_and!; [done..|].
    case_bool_decide as Hs; [destruct (Hex Hs) as [Ha Hn]; rewrite Ha in Hws; lia|].
    destruct (jw_armed w); cbn in Hws; lia.
  - by destruct Hst as [-> | ->].
Qed.

Lemma counted_finalize w d ws f r d' :
  counted w d ws → permits w _ (FinalizeAccountMutation f) →
  stores d (Exchange (FinalizeAccountMutation f) r) d' →
  counted (observed w _ (FinalizeAccountMutation f) r) d' ws.
Proof.
  intros Hco [_ (j & Hj & Hjm & Hatt & _)] Hst.
  pose proof (co_run _ _ _ Hco) as Hr. rewrite Hj in Hr.
  destruct Hr as (m0 & -> & Hcm & Hle & Hws). pose proof (co_bound _ _ _ Hco) as Hb. cbn in Hb.
  assert (counted w (Some (fn_Mutation f)) ws) as Hco'.
  { apply (counted_replace w (Some m0) ws m0); [done|done|congruence| |].
    - rewrite Hatt. destruct (jw_armed w); cbn in Hws; lia.
    - rewrite Hj, Hatt. done. }
  cbn in Hst. destruct r as [u|e]; cbn [observed].
  - subst d'. split; try apply Hco'. read_fields. apply Hco'.
  - by destruct Hst as [-> | ->].
Qed.

Lemma counted_prepare w d ws m o r d' :
  counted w d ws → permits w _ (PrepareAccountMutation m o) →
  stores d (Exchange (PrepareAccountMutation m o) r) d' →
  counted (observed w _ (PrepareAccountMutation m o) r) d' ws.
Proof.
  intros Hco (_ & Hj & _ & Ha & _) Hst. pose proof (co_run _ _ _ Hco) as Hr. rewrite Hj in Hr.
  assert (d = None → ws = [] ∧ counted w (Some m) []) as Hnew.
  { intros ->. assert (ws = []) as -> by (pose proof (co_count _ _ _ Hco) as Hc; destruct ws; [done|cbn in Hc; lia]).
    split; [done|]. split; cbn; [lia|constructor|lia|]. by rewrite Hj. }
  cbn in Hst. destruct r as [[stored []]|e]; cbn [observed].
  - by subst.
  - destruct Hst as [Hd ->]. destruct (Hnew Hd) as [-> Hco']. split; try apply Hco'. read_fields.
    exists m. rewrite Hr. cbn. split_and!; [done..|]. lia.
  - destruct Hst as [->|[Hd ->]]; [done|]. by destruct (Hnew Hd) as [-> ?].
Qed.

Lemma counted_write w d ws id schedulable load :
  counted w d ws → may_write w id schedulable load → (schedulable ≠ None → load = None) →
  counted (w <| jw_armed := false |> <| jw_listed := None |>) d (ws ++ [(id, schedulable, load)]).
Proof.
  intros Hco (Harm & j & Hj & _ & Hid & Hs & Hl) Hnone.
  pose proof (co_run _ _ _ Hco) as Hr. rewrite Hj, Harm in Hr. destruct Hr as (m & -> & Hcm & Hle & Hws).
  split; [apply Hco| | |].
  - apply Forall_app. split; [apply Hco|]. apply Forall_singleton. exists m. split; [done|].
    rewrite (write_for_core _ _ Hcm). unfold write_for. rewrite Hid, Hs.
    destruct schedulable; [by rewrite Hnone|]. by rewrite Hl.
  - rewrite length_app. cbn in *. lia.
  - read_fields. rewrite Hj. exists m. split_and!; [done..|]. rewrite length_app. cbn. lia.
Qed.

Lemma counted_step w d ws R (c : Call R) r d' :
  counted w d ws → permits w R c → stores d (Exchange c r) d' →
  counted (observed w R c r) d' (ws ++ option_list (write_of (Exchange c r))).
Proof.
  intros Hco Hp Hst.
  destruct (quiet c) eqn:Hq.
  { assert (d' = d ∧ write_of (Exchange c r) = None) as [-> ->] by by destruct c.
    rewrite app_nil_r. by apply (counted_same_run w); [apply observed_quiet|]. }
  destruct c; try done; cbn [write_of option_list]; rewrite ?app_nil_r.
  - cbn in Hst. destruct Hst as [-> Hf]. cbn in Hp. destruct r as [found|e]; cbn [observed]; [|done]. subst found.
    pose proof (co_run _ _ _ Hco) as Hr. rewrite Hp in Hr.
    split; try apply Hco. read_fields. destruct d as [m|]; [|done]. rewrite Hr.
    exists m. split_and!; [done..|]. pose proof (co_count _ _ _ Hco) as Hc. cbn in Hc. lia.
  - by apply counted_prepare with d.
  - by apply counted_update with d.
  - by apply counted_finalize with d.
  - cbn in Hst. subst d'. destruct Hp as [_ Hp]. cbn [observed]. by apply counted_write.
  - cbn in Hst. subst d'. destruct Hp as [_ Hp]. cbn [observed]. by apply counted_write.
  - cbn in Hst. subst d'. cbn [observed]. split; try apply Hco; read_fields; apply Hco.
  - cbn in Hst. subst d'. cbn [observed]. split; try apply Hco; read_fields; apply Hco.
  - cbn in Hst. subst d'. cbn [observed]. destruct r; split; try apply Hco; read_fields; apply Hco.
  - cbn in Hst. subst d'. cbn [observed]. split; try apply Hco; read_fields; apply Hco.
  - cbn in Hst. subst d'. cbn [observed]. destruct r; split; try apply Hco; read_fields; apply Hco.
  - cbn in Hst. subst d'. cbn [observed]. split; try apply Hco; read_fields; apply Hco.
Qed.

Lemma counted_run w d ws tr d' :
  counted w d ws → respects mutation_protocol w tr → journaled d tr d' →
  counted (watch_after mutation_protocol w tr) d' (ws ++ omap write_of tr).
Proof.
  revert w d ws. induction tr as [|[R c r] tr IH]; intros w d ws Hco.
  - cbn. intros _ ->. by rewrite app_nil_r.
  - intros [Hp Hr] (d1 & Hst & Hj). cbn [watch_after].
    pose proof (counted_step _ _ _ _ _ _ _ Hco Hp Hst) as Hco1.
    specialize (IH _ _ _ Hco1 Hr Hj). rewrite <-app_assoc in IH.
    replace (omap write_of (Exchange c r :: tr))
      with (option_list (write_of (Exchange c r)) ++ omap write_of tr); [done|].
    cbn [omap list_omap]. by destruct (write_of _).
Qed.

(** ** Lifetimes *)

(** The runs about one mutation, one after the other, and the record from before the
    first to after the last; each may stop anywhere. *)
Inductive lifetime : option Mutation → list (list exchange) → option Mutation → Prop :=
  | lifetime_end d : lifetime d [] d
  | lifetime_submission d context submission tr value d1 trs d2 :
      trace (Submit context submission) tr value → journaled d tr d1 →
      lifetime d1 trs d2 → lifetime d (tr :: trs) d2
  | lifetime_recovery d item tr value d1 trs d2 :
      trace (recoverOne item) tr value → assumed (keyed (mu_AccountID item)) tr →
      journaled d tr d1 → lifetime d1 trs d2 → lifetime d (tr :: trs) d2.

Lemma lifetime_counted d trs d' ws :
  lifetime d trs d' → counted first_watch d ws →
  counted first_watch d' (ws ++ omap write_of (concat trs)).
Proof.
  intros Hl. revert ws.
  induction Hl as [d|d context submission tr value d1 trs d2 Ht Hj _ IH
                  |d item tr value d1 trs d2 Ht Hk Hj _ IH]; intros ws Hco; cbn [concat].
  - by rewrite app_nil_r.
  - destruct (wp_adequate mutation_protocol _ _ _ _ _ (Submit_wp context submission) Ht) as [Hr _].
    rewrite omap_app, app_assoc. apply IH. eapply counted_start. by apply counted_run with d.
  - destruct (wp_assuming_adequate _ _ _ _ _ _ _ (recoverOne_wp item) Ht Hk) as [Hr _].
    rewrite omap_app, app_assoc. apply IH. eapply counted_start. by apply counted_run with d.
Qed.

(** C3: over the whole lifetime of a mutation, a submission and any number of
    recoveries and repeated submissions of its idempotency key, each stopped
    anywhere, the account is written at most twice; every write sets the mutation's
    account to the winner's value; and the attempts the journal has recorded are
    never fewer than the writes, so none is forgotten by a restart. *)
Theorem writes_of_a_lifetime trs d :
  lifetime None trs d →
  (length (omap write_of (concat trs)) ≤ 2)%nat
  ∧ (Z.of_nat (length (omap write_of (concat trs))) ≤ attempts d)%Z
  ∧ ∀ x, x ∈ omap write_of (concat trs) → ∃ m, d = Some m ∧ x = write_for m.
Proof.
  intros Hl. destruct (lifetime_counted None trs d [] Hl) as [Hb Hw Hc _]; [by split; [|constructor|..]|].
  cbn [app] in *. split; [lia|]. split; [done|]. by rewrite Forall_forall in Hw.
Qed.
End steps.

(** ** A lifetime in the sandbox *)

Import Samples.

Lemma sandbox_stores R s (c : Call R) :
  stores (sx_journal s) (Exchange c (serve sandboxed s c).1) (sx_journal (serve sandboxed s c).2).
Proof. destruct s as [a j o f], c; try done. by destruct j. Qed.

Lemma sandbox_journaled {A} (p : prog A) s n :
  journaled (sx_journal s) (crash n p s).1 (sx_journal (crash n p s).2).
Proof.
  unfold crash. revert p s. induction n as [|n IH]; intros [a|R c k] s; cbn [stopped_run]; try done.
  pose proof (sandbox_stores R s c) as Hst. destruct (serve sandboxed s c) as [r s'] eqn:E.
  specialize (IH (k r) s'). destruct (stopped_run sandboxed n (k r) s') as [tr s'']. cbn. by exists (sx_journal s').
Qed.

(** The submission stops when its write has been carried out and the reply is lost;
    the recovery finds the account in the wanted state. *)
Definition crashed : list exchange * sandbox := crash 24 (Submit None agent_submission) calm.
Definition restarted : list exchange * sandbox :=
  crash 100 (recoverOne pending_mutation) crashed.2.

Lemma writes_of_a_lifetime_witness :
  (length (omap write_of (concat [crashed.1; restarted.1])) ≤ 2)%nat
  ∧ omap write_of (concat [crashed.1; restarted.1]) = [(7%Z, Some false, None)]
  ∧ (mu_Status <$> sx_journal crashed.2) = Some StatusExecuting
  ∧ (mu_Status <$> sx_journal restarted.2) = Some StatusApplied.
Proof.
  split; [|split_and!; vm_compute; reflexivity].
  refine (proj1 (writes_of_a_lifetime [crashed.1; restarted.1] (sx_journal restarted.2) _)).
  destruct (crash_trace 24 (Submit None agent_submission) calm) as [v1 Ht1].
  destruct (crash_trace 100 (recoverOne pending_mutation) crashed.2) as [v2 Ht2].
  refine (lifetime_submission _ _ _ _ v1 _ _ _ Ht1 (sandbox_journaled _ calm 24) _).
  refine (lifetime_recovery _ _ _ v2 _ _ _ Ht2 _ (sandbox_journaled _ crashed.2 100) _).
  - vm_compute. repeat constructor.
  - constructor.
Defined.
