(* ===== verification/Barrier.v ===== *)
(** * The automation barrier

    [internal/automation/barrier.go]: mutations share the barrier, publishing a
    freeze state excludes them and has priority. Each critical section of the mutex
    is a function on the barrier; goroutines run them one at a time, in any
    interleaving, and park on the channel [changed] in between. *)

From S2P Require Import Prelude Threads.

(** ** The barrier *)

(** [changed] is replaced by a new channel when it is closed: the number of
    channels made so far stands for it. *)
Record Barrier := mkBarrier {
  br_changed : nat;
  br_activeMutations : Z;
  br_freezeActive : bool;
  br_freezeWaiters : Z;
}.
#[export] Instance Barrier_eq_dec : EqDecision Barrier.
Proof. solve_decision. Defined.

Definition NewBarrier : Barrier := mkBarrier 0 0 false 0.

Definition signalLocked (b : Barrier) : Barrier := b <| br_changed := S (br_changed b) |>.

(** [EnterMutation]: the attempt to enter, and the function returned. *)
Definition mutation_attempt (b : Barrier) : option Barrier :=
  if negb (br_freezeActive b) && (br_freezeWaiters b =? 0)%Z
  then Some (b <| br_activeMutations := (br_activeMutations b + 1)%Z |>) else None.
Definition mutation_release (b : Barrier) : Barrier :=
  signalLocked (b <| br_activeMutations := (br_activeMutations b - 1)%Z |>).

(** [EnterFreeze]: the registration, the attempt, the withdrawal when the context is
    done, and the function returned. *)
Definition freeze_register (b : Barrier) : Barrier :=
  signalLocked (b <| br_freezeWaiters := (br_freezeWaiters b + 1)%Z |>).
Definition freeze_attempt (b : Barrier) : option Barrier :=
  if negb (br_freezeActive b) && (br_activeMutations b =? 0)%Z
  then Some (b <| br_freezeWaiters := (br_freezeWaiters b - 1)%Z |> <| br_freezeActive := true |>)
  else None.
Definition freeze_withdraw (b : Barrier) : Barrier :=
  signalLocked (b <| br_freezeWaiters := (br_freezeWaiters b - 1)%Z |>).
Definition freeze_release (b : Barrier) : Barrier :=
  signalLocked (b <| br_freezeActive := false |>).

(** ** Goroutines *)

(** Where a goroutine is between two critical sections. A parked one waits for the
    channel it read, or for its context; the function returned does its work once,
    so a goroutine that has released is finished. *)
Inductive barrier_phase :=
  | MutationTrying
  | MutationParked (changed : nat)
  | MutationInside
  | FreezeArriving
  | FreezeTrying
  | FreezeParked (changed : nat)
  | FreezeWithdrawing
  | FreezeInside
  | Finished.

(** The goroutine's critical section, or what it does when its channel is closed,
    or when its context is done. *)
Definition barrier_turn (a : action) (b : Barrier) (p : barrier_phase) : option (Barrier * barrier_phase) :=
  match p, a with
  | MutationTrying, Proceed =>
      match mutation_attempt b with
      | Some b => Some (b, MutationInside)
      | None => Some (b, MutationParked (br_changed b))
      end
  | MutationParked g, Proceed =>
      if bool_decide (g = br_changed b) then None else Some (b, MutationTrying)
  | MutationParked _, Cancel => Some (b, Finished)
  | MutationInside, Proceed => Some (mutation_release b, Finished)
  | FreezeArriving, Proceed => Some (freeze_register b, FreezeTrying)
  | FreezeTrying, Proceed =>
      match freeze_attempt b with
      | Some b => Some (b, FreezeInside)
      | None => Some (b, FreezeParked (br_changed b))
      end
  | FreezeParked g, Proceed =>
      if bool_decide (g = br_changed b) then None else Some (b, FreezeTrying)
  | FreezeParked _, Cancel => Some (b, FreezeWithdrawing)
  | FreezeWithdrawing, Proceed => Some (freeze_withdraw b, Finished)
  | FreezeInside, Proceed => Some (freeze_release b, Finished)
  | _, _ => None
  end.

Definition barrier_arrives (p : barrier_phase) : bool :=
  match p with MutationTrying | FreezeArriving => true | _ => false end.

Definition barrier : machine :=
  mkMachine Barrier barrier_phase NewBarrier barrier_arrives barrier_turn.

(** ** The invariant *)

Definition inside_mutation (p : barrier_phase) : bool := match p with MutationInside => true | _ => false end.
Definition inside_freeze (p : barrier_phase) : bool := match p with FreezeInside => true | _ => false end.
Definition freeze_waiting (p : barrier_phase) : bool :=
  match p with FreezeTrying | FreezeParked _ | FreezeWithdrawing => true | _ => false end.

(** A parked goroutine whose channel is still open could not enter. *)
Definition parked_rightly (b : Barrier) (p : barrier_phase) : Prop :=
  match p with
  | MutationParked g => g = br_changed b → mutation_attempt b = None
  | FreezeParked g => g = br_changed b → freeze_attempt b = None
  | _ => True
  end.
Definition known_channel (b : Barrier) (p : barrier_phase) : Prop :=
  match p with MutationParked g | FreezeParked g => (g ≤ br_changed b)%nat | _ => True end.

Record consistent (s : system barrier) : Prop := {
  cs_mutations : br_activeMutations s.1 = count inside_mutation s.2;
  cs_waiters : br_freezeWaiters s.1 = count freeze_waiting s.2;
  cs_freeze : Z.b2z (br_freezeActive s.1) = count inside_freeze s.2;
  cs_exclusion : br_freezeActive s.1 = true → br_activeMutations s.1 = 0%Z;
  cs_channel : Forall (known_channel s.1) s.2;
  cs_parked : Forall (parked_rightly s.1) s.2;
}.

(** The parked goroutines, after a step that closes the channel. *)
Lemma parked_signalled b b' ps :
  Forall (known_channel b) ps → br_changed b' = S (br_changed b) →
  Forall (known_channel b') ps ∧ Forall (parked_rightly b') ps.
Proof.
  rewrite !Forall_forall. intros Hk Hc. split; intros p Hp; specialize (Hk p Hp);
    destruct p; cbn in *; try done; lia.
Qed.

(** And after one that does not, but does not let anybody in either. *)
Lemma parked_kept b b' ps :
  Forall (known_channel b) ps → Forall (parked_rightly b) ps → br_changed b' = br_changed b →
  (mutation_attempt b = None → mutation_attempt b' = None) →
  (freeze_attempt b = None → freeze_attempt b' = None) →
  Forall (known_channel b') ps ∧ Forall (parked_rightly b') ps.
Proof.
  rewrite !Forall_forall. intros Hk Hr Hc Hm Hf. split; intros p Hp;
    specialize (Hk p Hp); specialize (Hr p Hp); destruct p; cbn in *; try done; try lia;
    rewrite Hc; auto.
Qed.

Lemma mutation_attempt_some b b' :
  mutation_attempt b = Some b' →
  br_freezeActive b = false ∧ br_freezeWaiters b = 0%Z
  ∧ b' = b <| br_activeMutations := (br_activeMutations b + 1)%Z |>.
Proof.
  unfold mutation_attempt. destruct (br_freezeActive b), (br_freezeWaiters b =? 0)%Z eqn:E; try done.
  intros [= <-]. split_and!; [done|lia|done].
Qed.
Lemma freeze_attempt_some b b' :
  freeze_attempt b = Some b' →
  br_freezeActive b = false ∧ br_activeMutations b = 0%Z
  ∧ b' = b <| br_freezeWaiters := (br_freezeWaiters b - 1)%Z |> <| br_freezeActive := true |>.
Proof.
  unfold freeze_attempt. destruct (br_freezeActive b), (br_activeMutations b =? 0)%Z eqn:E; try done.
  intros [= <-]. split_and!; [done|lia|done].
Qed.

(** What the goroutines other than the moving one keep, for each kind of step. *)
Definition others_kept (b b' : Barrier) (ps : list barrier_phase) : Prop :=
  Forall (known_channel b') ps ∧ Forall (parked_rightly b') ps.

Lemma turn_others a b ps t p b' p' :
  consistent (b, ps) → ps !! t = Some p → barrier_turn a b p = Some (b', p') → others_kept b b' ps.
Proof.
  intros [Hm Hw Hf Hx Hk Hr] Ht Hturn. cbn [fst snd] in *.
  pose proof (count_nonneg inside_mutation ps) as Hpos.
  destruct p, a; cbn [barrier_turn] in Hturn; try done.
  - destruct (mutation_attempt b) as [b1|] eqn:E; injection Hturn as <- <-; [|by split].
    pose proof E as (Hfa & Hwa & ->)%mutation_attempt_some.
    apply (parked_kept b); [done|done|by destruct b|by rewrite E|]. intros _. destruct b. cbn in *. unfold freeze_attempt. cbn.
    rewrite (proj2 (Z.eqb_neq _ _)) by lia. by rewrite andb_false_r.
  - case_bool_decide; [done|]. by injection Hturn as <- <-.
  - by injection Hturn as <- <-.
  - injection Hturn as <- <-. destruct b. by eapply parked_signalled.
  - injection Hturn as <- <-. destruct b. by eapply parked_signalled.
  - destruct (freeze_attempt b) as [b1|] eqn:E; injection Hturn as <- <-; [|by split].
    pose proof E as (Hfa & Hwa & ->)%freeze_attempt_some.
    apply (parked_kept b); [done|done|by destruct b| |by rewrite E].
    intros _. destruct b. unfold mutation_attempt. cbn. done.
  - case_bool_decide; [done|]. by injection Hturn as <- <-.
  - by injection Hturn as <- <-.
  - injection Hturn as <- <-. destruct b. by eapply parked_signalled.
  - injection Hturn as <- <-. destruct b. by eapply parked_signalled.
Qed.

Lemma turn_own a b p b' p' :
  barrier_turn a b p = Some (b', p') → known_channel b' p' ∧ parked_rightly b' p'.
Proof.
  destruct p, a; cbn [barrier_turn]; try done; try (case_bool_decide; [done|]); try (by intros [= <- <-]).
  - destruct (mutation_attempt b) as [b1|] eqn:E; intros [= <- <-]; [done|]. by cbn.
  - destruct (freeze_attempt b) as [b1|] eqn:E; intros [= <- <-]; [done|]. by cbn.
Qed.

Lemma turn_consistent a b ps t p b' p' :
  consistent (b, ps) → ps !! t = Some p → barrier_turn a b p = Some (b', p') →
  consistent (b', <[t := p']> ps).
Proof.
  intros Hcs Ht Hturn.
  destruct (turn_others _ _ _ _ _ _ _ Hcs Ht Hturn) as [Hk' Hr'].
  destruct (turn_own _ _ _ _ _ Hturn) as [Hko Hro].
  destruct Hcs as [Hm Hw Hf Hx _ _]. cbn [fst snd] in *.
  assert (∀ P, P p = true → (1 ≤ count P ps)%Z) as Hone by (intros P HP; exact (count_lookup P ps t p Ht HP)).
  assert (br_activeMutations b' = count inside_mutation (<[t := p']> ps)
    ∧ br_freezeWaiters b' = count freeze_waiting (<[t := p']> ps)
    ∧ Z.b2z (br_freezeActive b') = count inside_freeze (<[t := p']> ps)
    ∧ (br_freezeActive b' = true → br_activeMutations b' = 0%Z)) as (? & ? & ? & ?).
  { rewrite !(count_insert _ _ _ _ _ Ht).
    specialize (Hone inside_mutation) as Hom. specialize (Hone inside_freeze).
    destruct p, a; cbn [barrier_turn] in Hturn; try done; try (case_bool_decide; [done|]);
      try match type of Hturn with
      | context [mutation_attempt b] =>
          destruct (mutation_attempt b) eqn:E; [apply mutation_attempt_some in E as (? & ? & ->)|]
      | context [freeze_attempt b] =>
          destruct (freeze_attempt b) eqn:E; [apply freeze_attempt_some in E as (? & ? & ->)|]
      end; injection Hturn as <- <-; destruct b as [g m [] w]; cbn in *; split_and!;
      intros; try specialize (Hom eq_refl); try specialize (Hone eq_refl); try specialize (Hx eq_refl);
      try congruence; lia. }
  split; cbn [fst snd]; [done..| |]; by apply Forall_insert.
Qed.

Lemma barrier_consistent s : reachable barrier s → consistent s.
Proof.
  revert s. apply reachable_invariant; [by split; cbn; try constructor| |].
  - intros b ps t a p b' p'. apply turn_consistent.
  - intros b ps p [Hm Hw Hf Hx Hk Hr] Hp. cbn in *.
    split; cbn; rewrite ?count_snoc; [destruct p; cbn in *; try done; lia..|done| |];
      apply Forall_app; (split; [done|]); apply Forall_singleton; by destruct p.
Qed.

(** C6: the barrier excludes. In every reachable state, with any number of
    goroutines in any interleaving and any cancellations: while a freeze state is
    being published no mutation is inside and no other publication; and while a
    publication waits, or is inside, no mutation enters. *)
Theorem barrier_excludes b ps :
  reachable barrier (b, ps) →
  (∀ t, ps !! t = Some FreezeInside →
    (∀ u, ps !! u ≠ Some MutationInside) ∧ ∀ u, ps !! u = Some FreezeInside → u = t)
  ∧ (∀ t p, ps !! t = Some p → freeze_waiting p = true ∨ inside_freeze p = true →
    ∀ u q b' q', ps !! u = Some q → barrier_turn Proceed b q = Some (b', q') → q' ≠ MutationInside).
Proof.
  intros [Hm Hw Hf Hx _ _]%barrier_consistent. cbn in *. split.
  - intros t Ht. assert (br_freezeActive b = true) as Hb.
    { pose proof (count_lookup inside_freeze _ _ _ Ht eq_refl). destruct (br_freezeActive b); cbn in Hf; [done|lia]. }
    split.
    + intros u Hu. pose proof (count_lookup inside_mutation _ _ _ Hu eq_refl). rewrite Hx in Hm by done. lia.
    + intros u Hu. destruct (decide (u = t)) as [|Hne]; [done|]. exfalso.
      pose proof (count_lookup_two inside_freeze _ _ _ _ _ Hu Ht eq_refl eq_refl Hne). rewrite Hb in Hf. cbn in Hf. lia.
  - intros t p Ht Hp u q b' q' Hu Hturn ->.
    assert (mutation_attempt b = None) as Hno.
    { unfold mutation_attempt. destruct Hp as [Hp|Hp]; pose proof (count_lookup _ _ _ _ Ht Hp).
      - rewrite (proj2 (Z.eqb_neq _ _)) by lia. by rewrite andb_false_r.
      - destruct (br_freezeActive b); cbn in Hf; [done|lia]. }
    destruct q; cbn in Hturn; try done; repeat case_match; simplify_eq; congruence.
Qed.

(** ** Progress *)

Definition nobody_inside (ps : list barrier_phase) : Prop :=
  ∀ t p, ps !! t = Some p → inside_mutation p = false ∧ inside_freeze p = false.
Definition nobody_waiting_to_freeze (ps : list barrier_phase) : Prop :=
  ∀ t p, ps !! t = Some p → freeze_waiting p = false.

(** A goroutine that may enter, parked on a channel that was closed, enters. *)
Lemma wakes_and_enters t b ps parked trying b1 entered :
  ps !! t = Some parked → barrier_turn Proceed b parked = Some (b, trying) →
  barrier_turn Proceed b trying = Some (b1, entered) →
  ∃ s, rtc (advance barrier t) (b, ps) s ∧ s.2 !! t = Some entered.
Proof.
  intros Hp H1 H2. destruct (advance_once barrier _ _ _ _ _ _ Hp H1) as [Hr Hl].
  destruct (advance_once barrier _ _ _ _ _ _ Hl H2) as [Hr' Hl'].
  eexists. split; [by etrans|done].
Qed.

Lemma guards_open b ps :
  consistent (b, ps) → nobody_inside ps →
  is_Some (freeze_attempt b) ∧ (nobody_waiting_to_freeze ps → is_Some (mutation_attempt b)).
Proof.
  intros [Hm Hw Hf _ _ _] Hno. cbn in *.
  rewrite count_none in Hm by (intros; by eapply Hno). rewrite count_none in Hf by (intros; by eapply Hno).
  destruct (br_freezeActive b) eqn:E; [done|]. split.
  - unfold freeze_attempt. rewrite E, Hm. by eexists.
  - intros Hnw. rewrite count_none in Hw by done. unfold mutation_attempt. rewrite E, Hw. by eexists.
Qed.

(** Whoever is neither parked nor finished can take a turn. *)
Lemma unparked_turn b p :
  p ≠ Finished → (∀ g, p ≠ MutationParked g) → (∀ g, p ≠ FreezeParked g) →
  is_Some (barrier_turn Proceed b p).
Proof.
  intros Hf Hm Hz. destruct p; cbn; try congruence; try (by eexists).
  - destruct (mutation_attempt b); by eexists.
  - destruct (freeze_attempt b); by eexists.
Qed.

(** C7: the barrier loses no wake-up. In every reachable state where nobody is
    inside, a publication that waits enters by turns of its own, and so does a
    mutation that waits, unless a publication waits; and in every reachable state
    where some goroutine has not finished, some goroutine can take a turn. *)
Theorem barrier_progress b ps :
  reachable barrier (b, ps) →
  (nobody_inside ps → ∀ t p, ps !! t = Some p →
    (p = FreezeTrying ∨ (∃ g, p = FreezeParked g) →
      ∃ s, rtc (advance barrier t) (b, ps) s ∧ s.2 !! t = Some FreezeInside)
    ∧ (p = MutationTrying ∨ (∃ g, p = MutationParked g) → nobody_waiting_to_freeze ps →
        ∃ s, rtc (advance barrier t) (b, ps) s ∧ s.2 !! t = Some MutationInside))
  ∧ ((∃ t p, ps !! t = Some p ∧ p ≠ Finished) → ∃ t s, advance barrier t (b, ps) s).
Proof.
  intros Hc%barrier_consistent.
  assert (nobody_inside ps → ∀ t p, ps !! t = Some p →
    (p = FreezeTrying ∨ (∃ g, p = FreezeParked g) →
      ∃ s, rtc (advance barrier t) (b, ps) s ∧ s.2 !! t = Some FreezeInside)
    ∧ (p = MutationTrying ∨ (∃ g, p = MutationParked g) → nobody_waiting_to_freeze ps →
        ∃ s, rtc (advance barrier t) (b, ps) s ∧ s.2 !! t = Some MutationInside)) as Henter.
  { intros Hno t p Hp. destruct (guards_open _ _ Hc Hno) as [[bf Hfreeze] Hmut].
    pose proof (cs_parked _ Hc) as Hparked. rewrite Forall_lookup in Hparked. specialize (Hparked t p Hp).
    split; [intros [->|[g ->]]|intros [->|[g ->]] Hnw; destruct (Hmut Hnw) as [bm Hmutation]].
    - destruct (advance_once barrier t b ps FreezeTrying bf FreezeInside Hp) as [? ?]; [by cbn; rewrite Hfreeze|].
      by eexists.
    - eapply (wakes_and_enters t b ps _ FreezeTrying bf); [done| |by cbn; rewrite Hfreeze].
      cbn in *. rewrite bool_decide_false; [done|]. intros Hg. by rewrite (Hparked Hg) in Hfreeze.
    - destruct (advance_once barrier t b ps MutationTrying bm MutationInside Hp) as [? ?]; [by cbn; rewrite Hmutation|].
      by eexists.
    - eapply (wakes_and_enters t b ps _ MutationTrying bm); [done| |by cbn; rewrite Hmutation].
      cbn in *. rewrite bool_decide_false; [done|]. intros Hg. by rewrite (Hparked Hg) in Hmutation. }
  split; [done|]. intros (t & p & Hp & Hnf).
  destruct (decide (Exists (λ p, inside_mutation p || inside_freeze p = true) ps)) as [Hin|Hno].
  { apply Exists_exists in Hin as (q & [u Hu]%list_elem_of_lookup & Hq).
    eapply (advance_turn barrier u); [done|]. by destruct q. }
  assert (nobody_inside ps) as Hempty.
  { intros u q Hu. rewrite <-Forall_Exists_neg, Forall_lookup in Hno. specialize (Hno u q Hu). by destruct q. }
  destruct (decide (Exists (λ p, freeze_waiting p = true) ps)) as [Hw|Hw].
  - apply Exists_exists in Hw as (q & [u Hu]%list_elem_of_lookup & Hq).
    destruct q; try done; try (by eapply (advance_turn barrier u); [done|apply unparked_turn]).
    destruct (proj1 (Henter Hempty u _ Hu)) as (s & Hs & Hl); [by right; eexists|].
    exists u. eapply (rtc_advance_first barrier u _ s FreezeInside); [done|done|]. cbn in *; intros Heq; simplify_eq.
  - assert (nobody_waiting_to_freeze ps) as Hnw.
    { intros u q Hu. rewrite <-Forall_Exists_neg, Forall_lookup in Hw. specialize (Hw u q Hu).
      by apply not_true_iff_false. }
    destruct p; try done; try (by eapply (advance_turn barrier t); [done|apply unparked_turn]).
    + destruct (proj2 (Henter Hempty t _ Hp)) as (s & Hs & Hl); [by right; eexists|done|].
      exists t. eapply (rtc_advance_first barrier t _ s MutationInside); [done|done|]. cbn in *; intros Heq; simplify_eq.
    + by specialize (Hnw t _ Hp).
Qed.

(** ** Executions *)

(** A mutation enters; a publication registers and parks; a second mutation parks
    behind it; the first leaves and the publication enters. *)
Definition publication : list (move barrier) :=
  [Call (M:=barrier) MutationTrying; Turn 0 Proceed; Call (M:=barrier) FreezeArriving; Turn 1 Proceed; Turn 1 Proceed; Call (M:=barrier) MutationTrying;
   Turn 2 Proceed; Turn 0 Proceed].
Definition waiting_state : system barrier := (mkBarrier 2 0 false 1, [Finished; FreezeParked 1; MutationParked 1]).
Definition published_state : system barrier := (mkBarrier 2 0 true 0, [Finished; FreezeInside; MutationParked 1]).

Lemma waiting_state_reachable : reachable barrier waiting_state.
Proof. exact (plays_reachable barrier _ publication _ (reachable_start barrier) eq_refl). Qed.
Lemma published_state_reachable : reachable barrier published_state.
Proof. exact (plays_reachable barrier _ [Turn 1 Proceed; Turn 1 Proceed] _ waiting_state_reachable eq_refl). Qed.

Lemma barrier_excludes_witness :
  published_state.2 !! 1%nat = Some FreezeInside
  ∧ ∀ u, published_state.2 !! u ≠ Some MutationInside.
Proof.
  split; [reflexivity|].
  exact (proj1 (proj1 (barrier_excludes _ _ published_state_reachable) 1%nat eq_refl)).
Defined.

Lemma barrier_progress_witness :
  waiting_state.2 !! 1%nat = Some (FreezeParked 1)
  ∧ ∃ s, rtc (advance barrier 1) waiting_state s ∧ s.2 !! 1%nat = Some FreezeInside.
Proof.
  split; [reflexivity|].
  refine (proj1 (proj1 (barrier_progress _ _ waiting_state_reachable) _ 1%nat _ eq_refl) _).
  - intros [|[|[|t]]] p; intros [= <-]; split; reflexivity.
  - right. by exists 1%nat.
Defined.
