(* ===== verification/AccountLocks.v ===== *)
(** * The account locks

    [accountLocks] of [internal/accountcontrol/lock.go]: a lock per account, made on
    demand and removed with its last user. An entry is a channel of one token with a
    count of references; the table finds the entry of an account. Goroutines run the
    critical sections and the channel operations one at a time, in any interleaving;
    waiting for the token can be cancelled. *)

From S2P Require Import Prelude Threads.

(** ** Entries and table *)

Record lockEntry := mkLockEntry {
  le_token : bool;       (* the channel holds its token *)
  le_refs : Z;
}.

(** Entries are allocated one after the other; a pointer to one is its number. *)
Record accountLocks := mkAccountLocks {
  lk_heap : list lockEntry;
  lk_entries : gmap Z nat;
}.

Definition newAccountLocks : accountLocks := mkAccountLocks [] ∅.

Definition entry_of (l : accountLocks) (e : nat) : lockEntry :=
  default (mkLockEntry false 0) (lk_heap l !! e).
Definition set_entry (l : accountLocks) (e : nat) (entry : lockEntry) : accountLocks :=
  l <| lk_heap := <[e := entry]> (lk_heap l) |>.

(** The first critical section of [acquire]: the entry to wait on. *)
Definition acquire_entry (l : accountLocks) (accountID : Z) : accountLocks * nat :=
  let '(l, e) :=
    match lk_entries l !! accountID with
    | Some e => (l, e)
    | None =>
        (mkAccountLocks (lk_heap l ++ [mkLockEntry true 0])
           (<[accountID := length (lk_heap l)]> (lk_entries l)), length (lk_heap l))
    end in
  (set_entry l e ((entry_of l e) <| le_refs := (le_refs (entry_of l e) + 1)%Z |>), e).

(** Receiving the token, and sending it back. *)
Definition take_token (l : accountLocks) (e : nat) : option accountLocks :=
  if le_token (entry_of l e) then Some (set_entry l e ((entry_of l e) <| le_token := false |>)) else None.
Definition put_token (l : accountLocks) (e : nat) : option accountLocks :=
  if le_token (entry_of l e) then None else Some (set_entry l e ((entry_of l e) <| le_token := true |>)).

Definition releaseRef (l : accountLocks) (accountID : Z) (e : nat) : accountLocks :=
  let l := set_entry l e ((entry_of l e) <| le_refs := (le_refs (entry_of l e) - 1)%Z |>) in
  if bool_decide (le_refs (entry_of l e) = 0%Z) && le_token (entry_of l e)
     && bool_decide (lk_entries l !! accountID = Some e)
  then l <| lk_entries := delete accountID (lk_entries l) |> else l.

Definition lock_size (l : accountLocks) : nat := size (lk_entries l).

(** ** Goroutines *)

Inductive lock_phase :=
  | Arriving (accountID : Z)
  | Waiting (accountID : Z) (e : nat)
  | Holding (accountID : Z) (e : nat)
  | Leaving (accountID : Z) (e : nat)     (* before its releaseRef *)
  | Gone.

Definition lock_turn (a : action) (l : accountLocks) (p : lock_phase) : option (accountLocks * lock_phase) :=
  match p, a with
  | Arriving id, Proceed => let '(l, e) := acquire_entry l id in Some (l, Waiting id e)
  | Waiting id e, Proceed => (λ l, (l, Holding id e)) <$> take_token l e
  | Waiting id e, Cancel => Some (l, Leaving id e)
  | Holding id e, Proceed => (λ l, (l, Leaving id e)) <$> put_token l e
  | Leaving id e, Proceed => Some (releaseRef l id e, Gone)
  | _, _ => None
  end.

Definition lock_arrives (p : lock_phase) : bool := match p with Arriving _ => true | _ => false end.

Definition account_locks : machine :=
  mkMachine accountLocks lock_phase newAccountLocks lock_arrives lock_turn.

(** ** The invariant *)

(** The account and the entry a goroutine uses. *)
Definition uses (p : lock_phase) : option (Z * nat) :=
  match p with
  | Waiting id e | Holding id e | Leaving id e => Some (id, e)
  | _ => None
  end.
Definition refers (e : nat) (p : lock_phase) : bool := bool_decide (snd <$> uses p = Some e).
Definition holds (e : nat) (p : lock_phase) : bool :=
  match p with Holding _ e' => bool_decide (e' = e) | _ => false end.

Record consistent (s : system account_locks) : Prop := {
  cs_refs e entry : lk_heap s.1 !! e = Some entry → le_refs entry = count (refers e) s.2;
  cs_token e entry : lk_heap s.1 !! e = Some entry →
    (Z.b2z (le_token entry) + count (holds e) s.2 = 1)%Z;
  cs_table id e : lk_entries s.1 !! id = Some e →
    ∃ entry, lk_heap s.1 !! e = Some entry ∧ (1 ≤ le_refs entry)%Z;
  cs_inj id id' e : lk_entries s.1 !! id = Some e → lk_entries s.1 !! id' = Some e → id = id';
  cs_uses t p id e : s.2 !! t = Some p → uses p = Some (id, e) → lk_entries s.1 !! id = Some e;
}.

Lemma consistent_entry s t p id e :
  consistent s → s.2 !! t = Some p → uses p = Some (id, e) →
  ∃ entry, lk_heap s.1 !! e = Some entry ∧ entry_of s.1 e = entry.
Proof.
  intros Hc Ht Hu. destruct (cs_table _ Hc id e) as (entry & He & _); [by eapply cs_uses|].
  exists entry. split; [done|]. unfold entry_of. by rewrite He.
Qed.

Lemma refers_uses p id e e' : uses p = Some (id, e) → refers e' p = bool_decide (e = e').
Proof. intros Hu. unfold refers. rewrite Hu. cbn. apply bool_decide_ext. split; congruence. Qed.

Lemma refers_unused p e : uses p = None → refers e p = false.
Proof. intros Hu. unfold refers. by rewrite Hu. Qed.

(** A step that changes one entry, keeps its count of references and the table, and
    moves a goroutine that goes on using it. *)
Lemma consistent_set l ps t p p' id e entry entry' :
  consistent (l, ps) → ps !! t = Some p → uses p = Some (id, e) → uses p' = Some (id, e) →
  lk_heap l !! e = Some entry → le_refs entry' = le_refs entry →
  (Z.b2z (le_token entry') - Z.b2z (le_token entry) = Z.b2z (holds e p) - Z.b2z (holds e p'))%Z →
  (∀ e', e' ≠ e → holds e' p = false ∧ holds e' p' = false) →
  consistent (set_entry l e entry', <[t := p']> ps).
Proof.
  intros Hc Ht Hu Hu' He Hrefs Htok Hothers. pose proof (lookup_lt_Some _ _ _ He) as Hlt.
  pose proof Hc as [Hr Hk Htab Hinj Huse]. cbn [fst snd] in *. unfold set_entry.
  assert (∀ e', count (refers e') (<[t:=p']> ps) = count (refers e') ps) as Href.
  { intros e'. rewrite (count_insert _ _ _ _ _ Ht).
    rewrite (refers_uses _ _ _ e' Hu), (refers_uses _ _ _ e' Hu'). lia. }
  split; cbn [fst snd]; destruct l as [heap table]; cbn in *.
  - intros e' x Hx. rewrite Href. apply list_lookup_insert_Some in Hx as [(<- & <- & _)|[? Hx]]; [|by apply Hr].
    rewrite Hrefs. by apply Hr.
  - intros e' x Hx. rewrite (count_insert _ _ _ _ _ Ht).
    apply list_lookup_insert_Some in Hx as [(<- & <- & _)|[Hne Hx]].
    + pose proof (Hk e entry He). lia.
    + destruct (Hothers e') as [-> ->]; [done|]. pose proof (Hk e' x Hx). cbn. lia.
  - intros id' e' Hid. destruct (Htab id' e' Hid) as (x & Hx & Hx1).
    destruct (decide (e' = e)) as [->|Hne].
    + exists entry'. rewrite list_lookup_insert_eq by done. split; [done|]. rewrite Hrefs. by simplify_eq.
    + exists x. by rewrite list_lookup_insert_ne by done.
  - done.
  - intros t' q id' e' [[-> ->]|[_ Hq]]%lookup_insert_phase Hq'; [|by eapply Huse].
    rewrite Hu' in Hq'. simplify_eq. by eapply Huse.
Qed.

(** What a goroutine that starts to wait adds to the counts. *)
Lemma count_arrived ps t id e :
  ps !! t = Some (Arriving id) → ∀ e',
  (count (refers e') (<[t := Waiting id e]> ps) = count (refers e') ps + Z.b2z (bool_decide (e = e')))%Z
  ∧ count (holds e') (<[t := Waiting id e]> ps) = count (holds e') ps.
Proof.
  intros Ht e'. rewrite !(count_insert _ _ _ _ _ Ht).
  rewrite (refers_unused (Arriving id)) by done. rewrite (refers_uses _ id e) by done. cbn. lia.
Qed.

(** An arriving goroutine finds the entry of its account, ... *)
Lemma join_consistent heap table ps t id e0 :
  consistent (mkAccountLocks heap table, ps) → ps !! t = Some (Arriving id) → table !! id = Some e0 →
  consistent (set_entry (mkAccountLocks heap table) e0
    ((entry_of (mkAccountLocks heap table) e0)
       <| le_refs := (le_refs (entry_of (mkAccountLocks heap table) e0) + 1)%Z |>),
    <[t := Waiting id e0]> ps).
Proof.
  intros [Hr Hk Htab Hinj Huse] Ht Eid. cbn [fst snd lk_heap lk_entries] in *.
  pose proof (count_arrived ps t id e0 Ht) as Hcount.
  assert (∀ e', count (refers e') (<[t:=Waiting id e0]> ps)
    = count (refers e') ps + Z.b2z (bool_decide (e0 = e')))%Z as Href by apply Hcount.
  assert (∀ e', count (holds e') (<[t:=Waiting id e0]> ps) = count (holds e') ps) as Hhold by apply Hcount.
  destruct (Htab id e0 Eid) as (entry & He & Hpos). pose proof (lookup_lt_Some _ _ _ He) as Hlt.
  unfold set_entry, entry_of. cbn. rewrite He. cbn.
  split; cbn [fst snd lk_heap lk_entries].
  - intros e' x Hx. rewrite Href. apply list_lookup_insert_Some in Hx as [(<- & <- & _)|[Hne Hx]].
    + rewrite bool_decide_true by done. cbn. rewrite (Hr _ _ He). destruct entry. cbn. lia.
    + rewrite bool_decide_false by done. cbn. rewrite (Hr _ _ Hx). lia.
  - intros e' x Hx. rewrite Hhold. apply list_lookup_insert_Some in Hx as [(<- & <- & _)|[Hne Hx]]; [|by apply Hk].
    pose proof (Hk _ _ He). by destruct entry.
  - intros id' e' Hid. destruct (Htab id' e' Hid) as (x & Hx & ?).
    destruct (decide (e' = e0)) as [->|Hne]; [|exists x; by rewrite list_lookup_insert_ne by done].
    eexists. rewrite list_lookup_insert_eq by done. split; [done|]. simplify_eq. destruct entry. cbn in *. lia.
  - done.
  - intros t' q id' e' [[-> ->]|[_ Hq]]%lookup_insert_phase Hq'; [cbn in Hq'; by simplify_eq|by eapply Huse].
Qed.

(** ... or makes it. *)
Lemma fresh_consistent heap table ps t id :
  consistent (mkAccountLocks heap table, ps) → ps !! t = Some (Arriving id) → table !! id = None →
  consistent (mkAccountLocks (heap ++ [mkLockEntry true 1]) (<[id := length heap]> table),
    <[t := Waiting id (length heap)]> ps).
Proof.
  intros [Hr Hk Htab Hinj Huse] Ht Eid. cbn [fst snd lk_heap lk_entries] in *. set (e := length heap) in *.
  pose proof (count_arrived ps t id e Ht) as Hcount.
  assert (∀ e', count (refers e') (<[t:=Waiting id e]> ps)
    = count (refers e') ps + Z.b2z (bool_decide (e = e')))%Z as Href by apply Hcount.
  assert (∀ e', count (holds e') (<[t:=Waiting id e]> ps) = count (holds e') ps) as Hhold by apply Hcount.
  assert (∀ id' e', table !! id' = Some e' → (e' < e)%nat) as Hold.
  { intros id' e' Hid. destruct (Htab _ _ Hid) as (x & Hx & _). by eapply lookup_lt_Some. }
  assert (∀ t' q id' e', ps !! t' = Some q → uses q = Some (id', e') → e' ≠ e) as Hfresh.
  { intros t' q id' e' Hq Hu ->. pose proof (Hold _ _ (Huse _ _ _ _ Hq Hu)). lia. }
  split; cbn [fst snd lk_heap lk_entries].
  - intros e' x [Hx|[Hge Hx]]%lookup_app_Some; rewrite Href.
    + rewrite bool_decide_false by (apply lookup_lt_Some in Hx; lia). rewrite (Hr _ _ Hx). cbn. lia.
    + apply list_lookup_singleton_Some in Hx as [? <-]. assert (e' = e) as -> by (subst e; lia).
      rewrite bool_decide_true by done. cbn. rewrite count_none; [done|].
      intros t' q Hq. destruct (uses q) as [[id' e'']|] eqn:Eu.
      * rewrite (refers_uses _ _ _ _ Eu). apply bool_decide_eq_false. by eapply Hfresh.
      * by apply refers_unused.
  - intros e' x [Hx|[Hge Hx]]%lookup_app_Some; rewrite Hhold; [by apply Hk|].
    apply list_lookup_singleton_Some in Hx as [? <-]. assert (e' = e) as -> by (subst e; lia).
    cbn. rewrite count_none; [done|]. intros t' q Hq. destruct q; try done. cbn.
    apply bool_decide_eq_false. by eapply Hfresh.
  - intros id' e' [[<- <-]|[Hne Hid]]%lookup_insert_Some.
    + exists (mkLockEntry true 1). split; [|done]. rewrite lookup_app_r by done. by rewrite Nat.sub_diag.
    + destruct (Htab _ _ Hid) as (x & Hx & ?). exists x. split; [|done]. by apply lookup_app_l_Some.
  - intros id1 id2 e' [[<- <-]|[Hn1 H1]]%lookup_insert_Some [[<- H2]|[Hn2 H2]]%lookup_insert_Some; try done.
    + apply Hold in H2. lia.
    + subst e'. apply Hold in H1. lia.
    + by eapply Hinj.
  - intros t' q id' e' [[-> ->]|[_ Hq]]%lookup_insert_phase Hq'.
    + cbn in Hq'. simplify_eq. by rewrite lookup_insert_eq.
    + rewrite lookup_insert_ne; [by eapply Huse|]. intros <-. pose proof (Huse _ _ _ _ Hq Hq'). congruence.
Qed.

Lemma acquire_consistent l ps t id l' e :
  consistent (l, ps) → ps !! t = Some (Arriving id) → acquire_entry l id = (l', e) →
  consistent (l', <[t := Waiting id e]> ps).
Proof.
  destruct l as [heap table]. intros Hc Ht. unfold acquire_entry. cbn [lk_entries lk_heap].
  destruct (table !! id) as [e0|] eqn:Eid; intros [= <- <-]; [by apply join_consistent|].
  unfold set_entry, entry_of. cbn. rewrite lookup_app_r, Nat.sub_diag by done. cbn.
  assert (<[length heap:=mkLockEntry true 1]> (heap ++ [mkLockEntry true 0]) = heap ++ [mkLockEntry true 1]) as Hins.
  { rewrite insert_app_r_alt, Nat.sub_diag by done. done. }
  change (0 + 1)%Z with 1%Z. rewrite Hins. by apply fresh_consistent.
Qed.

Lemma user_counted ps t p id e :
  ps !! t = Some p → uses p = Some (id, e) → (1 ≤ count (refers e) ps)%Z.
Proof.
  intros Ht Hu. apply (count_lookup _ _ _ _ Ht). rewrite (refers_uses _ _ _ _ Hu). by apply bool_decide_eq_true.
Qed.

Lemma other_user_counted ps t p t' q id e :
  t' ≠ t → ps !! t' = Some q → uses q = Some (id, e) → (1 ≤ count (refers e) (<[t := p]> ps))%Z.
Proof. intros Hne Hq. apply user_counted with t'. by rewrite list_lookup_insert_ne. Qed.

Lemma unreferred_unheld ps t p e :
  count (refers e) (<[t := p]> ps) = 0%Z → (∀ q, ps !! t = Some q → holds e q = false) →
  count (holds e) ps = 0%Z.
Proof.
  intros Hnone Ht. apply count_none. intros t' q Hq. destruct (decide (t' = t)) as [->|Hne]; [by apply Ht|].
  destruct q as [| |id e'| |]; try done. cbn. apply bool_decide_eq_false. intros ->.
  pose proof (other_user_counted ps t p t' _ id e Hne Hq eq_refl). lia.
Qed.

(** One reference less. *)
Definition unreferenced (entry : lockEntry) : lockEntry := entry <| le_refs := (le_refs entry - 1)%Z |>.

(** The counts when the goroutine is gone. *)
Lemma leave_heap l ps t id e entry :
  consistent (l, ps) → ps !! t = Some (Leaving id e) → lk_heap l !! e = Some entry →
  ∀ e' x, <[e := unreferenced entry]> (lk_heap l) !! e' = Some x →
    le_refs x = count (refers e') (<[t := Gone]> ps)
    ∧ (Z.b2z (le_token x) + count (holds e') (<[t := Gone]> ps) = 1)%Z.
Proof.
  intros [Hr Hk _ _ _] Ht He e' x Hx. cbn [fst snd] in *. rewrite !(count_insert _ _ _ _ _ Ht).
  rewrite (refers_uses (Leaving id e) id e), (refers_unused Gone) by done. cbn [holds].
  apply list_lookup_insert_Some in Hx as [(<- & <- & _)|[Hne Hx]].
  - rewrite bool_decide_true by done. rewrite <-(Hr _ _ He). pose proof (Hk _ _ He).
    destruct entry. cbn in *. lia.
  - rewrite bool_decide_false by done. rewrite (Hr _ _ Hx). pose proof (Hk _ _ Hx). cbn. lia.
Qed.

(** The last goroutine that uses an entry takes it out of the table. *)
Lemma leave_consistent l ps t id e :
  consistent (l, ps) → ps !! t = Some (Leaving id e) → consistent (releaseRef l id e, <[t := Gone]> ps).
Proof.
  intros Hc Ht. destruct (consistent_entry _ _ _ id e Hc Ht eq_refl) as (entry & He & Heq).
  pose proof (lookup_lt_Some _ _ _ He) as Hlt. pose proof (leave_heap _ _ _ _ _ _ Hc Ht He) as Hheap.
  destruct Hc as [Hr Hk Htab Hinj Huse]. cbn [fst snd] in *. pose proof (Huse t _ id e Ht eq_refl) as Hid.
  destruct (Hheap e (unreferenced entry)) as [Hrefs Htok]; [by rewrite list_lookup_insert_eq|].
  unfold releaseRef, set_entry. rewrite Heq. fold (unreferenced entry). destruct l as [heap table]. cbn in *.
  unfold entry_of. cbn. rewrite list_lookup_insert_eq by done. cbn.
  destruct (decide (le_refs (unreferenced entry) = 0%Z)) as [Hz|Hnz].
  - assert (count (refers e) (<[t:=Gone]> ps) = 0%Z) as Hnone by congruence.
    assert (le_token (unreferenced entry) = true) as Htrue.
    { rewrite (count_insert _ _ _ _ _ Ht), (unreferred_unheld _ _ _ _ Hnone) in Htok by by rewrite Ht; intros ? [= <-].
      destruct (le_token (unreferenced entry)); [done|cbn in Htok; lia]. }
    rewrite !bool_decide_true, Htrue by done. cbn.
    split; cbn [fst snd lk_heap lk_entries]; [by apply Hheap..| | |].
    + intros id' e' [Hne Hid']%lookup_delete_Some. destruct (Htab _ _ Hid') as (x & Hx & ?).
      exists x. split; [|done]. rewrite list_lookup_insert_ne; [done|]. intros <-. by eapply Hne, Hinj.
    + intros id1 id2 e' [_ H1]%lookup_delete_Some [_ H2]%lookup_delete_Some. by eapply Hinj.
    + intros t' q id' e' [[-> ->]|[Hne Hq]]%lookup_insert_phase Hq'; [done|].
      pose proof (Huse _ _ _ _ Hq Hq') as Hid'. apply lookup_delete_Some. split; [|done]. intros <-.
      assert (e' = e) as -> by congruence.
      pose proof (other_user_counted ps t Gone _ _ _ _ Hne Hq Hq'). lia.
  - rewrite (bool_decide_false (le_refs (unreferenced entry) = 0%Z)) by done. cbn.
    split; cbn [fst snd lk_heap lk_entries]; [by apply Hheap..| |done|].
    + intros id' e' Hid'. destruct (Htab _ _ Hid') as (x & Hx & Hx1).
      destruct (decide (e' = e)) as [->|Hne]; [|exists x; by rewrite list_lookup_insert_ne].
      exists (unreferenced entry). rewrite list_lookup_insert_eq by done. split; [done|].
      pose proof (count_nonneg (refers e) (<[t:=Gone]> ps)). lia.
    + intros t' q id' e' [[-> ->]|[Hne Hq]]%lookup_insert_phase Hq'; [done|]. by eapply Huse.
Qed.

Lemma locks_consistent s : reachable account_locks s → consistent s.
Proof.
  revert s. apply reachable_invariant.
  - split; cbn; try done; by intros.
  - intros l ps t a p l' p' Hc Ht Hturn. destruct p as [id|id e|id e|id e|], a; cbn in Hturn; try done.
    + destruct (acquire_entry l id) as [l1 e] eqn:E. injection Hturn as <- <-. by eapply acquire_consistent.
    + destruct (consistent_entry _ _ _ id e Hc Ht eq_refl) as (entry & He & Heq). cbn in Heq.
      unfold take_token in Hturn. rewrite Heq in Hturn. destruct (le_token entry) eqn:Et; [|done].
      injection Hturn as <- <-. eapply (consistent_set l ps t _ _ id e entry); try done.
      * by destruct entry.
      * cbn. rewrite Et, bool_decide_true by done. by destruct entry.
      * intros e' Hne. cbn. by rewrite bool_decide_false by done.
    + injection Hturn as <- <-.
      destruct (consistent_entry _ _ _ id e Hc Ht eq_refl) as (entry & He & Heq).
      assert (set_entry l e entry = l) as Hset.
      { destruct l. unfold set_entry. cbn. by rewrite list_insert_id. }
      rewrite <-Hset. eapply (consistent_set l ps t _ _ id e entry); try done. cbn. lia.
    + destruct (consistent_entry _ _ _ id e Hc Ht eq_refl) as (entry & He & Heq). cbn in Heq.
      unfold put_token in Hturn. rewrite Heq in Hturn. destruct (le_token entry) eqn:Et; [done|].
      injection Hturn as <- <-. eapply (consistent_set l ps t _ _ id e entry); try done.
      * by destruct entry.
      * cbn. rewrite Et, bool_decide_true by done. by destruct entry.
      * intros e' Hne. cbn. by rewrite bool_decide_false by done.
    + injection Hturn as <- <-. by apply leave_consistent.
  - intros l ps p [Hr Hk Htab Hinj Huse] Hp. destruct p as [id| | | |]; try done. cbn in *.
    split; cbn; try done.
    + intros e entry He. rewrite count_snoc, (refers_unused (Arriving id)) by done. rewrite (Hr _ _ He). cbn. lia.
    + intros e entry He. rewrite count_snoc. cbn. pose proof (Hk _ _ He). lia.
    + intros t q id' e [->|Hq]%lookup_snoc_phase Hu; [done|]. by eapply Huse.
Qed.

(** C8: the account locks exclude, and leak nothing. In every reachable state, with
    any number of goroutines, in any interleaving and with any cancellations, at
    most one goroutine holds the lock of an account; every goroutine that waits for
    it or holds it uses the entry the table has; and the table has an entry only for
    accounts that some goroutine uses. *)
Theorem account_locks_exclude l ps :
  reachable account_locks (l, ps) →
  (∀ t u id e e', ps !! t = Some (Holding id e) → ps !! u = Some (Holding id e') → t = u)
  ∧ (∀ t p id e, ps !! t = Some p → uses p = Some (id, e) → lk_entries l !! id = Some e)
  ∧ (∀ id e, lk_entries l !! id = Some e → ∃ t p, ps !! t = Some p ∧ uses p = Some (id, e)).
Proof.
  intros [Hr Hk Htab Hinj Huse]%locks_consistent. cbn in *. split_and!.
  - intros t u id e e' Ht Hu. destruct (decide (t = u)) as [|Hne]; [done|]. exfalso.
    pose proof (Huse _ _ id e Ht eq_refl) as H1. pose proof (Huse _ _ id e' Hu eq_refl) as H2.
    assert (e' = e) as -> by congruence. destruct (Htab _ _ H1) as (entry & He & _).
    pose proof (Hk _ _ He) as Htok.
    pose proof (count_lookup_two (holds e) _ _ _ _ _ Ht Hu) as Htwo. cbn in Htwo.
    rewrite !bool_decide_true in Htwo by done. specialize (Htwo eq_refl eq_refl Hne).
    destruct (le_token entry); cbn in Htok; lia.
  - done.
  - intros id e Hid. destruct (Htab _ _ Hid) as (entry & He & Hpos). rewrite (Hr _ _ He) in Hpos.
    apply count_exists in Hpos as (t & p & Ht & Hp). exists t, p. split; [done|].
    unfold refers in Hp. apply bool_decide_eq_true in Hp. destruct (uses p) as [[id' e']|] eqn:Hu; [|done].
    cbn in Hp. simplify_eq. pose proof (Huse _ _ _ _ Ht Hu) as Hid'. by rewrite (Hinj _ _ _ Hid Hid').
Qed.

(** C9: the account locks make progress. In every reachable state a goroutine waits
    in vain only while another one holds the lock of its account; whoever holds it
    can give it back without waiting; and when every goroutine is gone the table is
    empty. *)
Theorem account_locks_progress l ps :
  reachable account_locks (l, ps) →
  (∀ t id e, ps !! t = Some (Waiting id e) →
    (∀ u e', ps !! u ≠ Some (Holding id e')) →
    ∃ l', lock_turn Proceed l (Waiting id e) = Some (l', Holding id e))
  ∧ (∀ t id e, ps !! t = Some (Holding id e) →
      ∃ l', lock_turn Proceed l (Holding id e) = Some (l', Leaving id e))
  ∧ ((∀ t p, ps !! t = Some p → p = Gone) → lock_size l = 0%nat).
Proof.
  intros Hc%locks_consistent. pose proof Hc as [Hr Hk Htab Hinj Huse]. cbn in *. split_and!.
  - intros t id e Ht Hfree. destruct (consistent_entry _ _ _ id e Hc Ht eq_refl) as (entry & He & Heq).
    pose proof (Hk _ _ He) as Htok. rewrite count_none in Htok.
    + unfold take_token. cbn in Heq. rewrite Heq. destruct (le_token entry); [by eexists|done].
    + intros u q Hq. destruct q as [| |id' e'| |]; try done. cbn. apply bool_decide_eq_false. intros ->.
      pose proof (Huse _ _ _ _ Hq eq_refl) as H1. pose proof (Huse _ _ _ _ Ht eq_refl) as H2.
      rewrite (Hinj _ _ _ H1 H2) in Hq. by eapply Hfree.
  - intros t id e Ht. destruct (consistent_entry _ _ _ id e Hc Ht eq_refl) as (entry & He & Heq).
    pose proof (Hk _ _ He) as Htok. pose proof (count_lookup (holds e) _ _ _ Ht) as Hone.
    specialize (Hone (bool_decide_eq_true_2 _ eq_refl)).
    unfold put_token. cbn in Heq. rewrite Heq. destruct (le_token entry); [cbn in Htok; lia|by eexists].
  - intros Hgone. unfold lock_size. apply map_size_empty_iff, map_empty. intros id.
    destruct (lk_entries l !! id) as [e|] eqn:Hid; [|done]. exfalso.
    destruct (Htab _ _ Hid) as (entry & He & Hpos). rewrite (Hr _ _ He) in Hpos.
    apply count_exists in Hpos as (t & p & Ht & Hp). by rewrite (Hgone _ _ Ht) in Hp.
Qed.

(** ** Executions *)

(** Two submissions for one account: the second waits for the first. *)
Definition contention : list (move account_locks) :=
  [Call (M:=account_locks) (Arriving 7); Call (M:=account_locks) (Arriving 7);
   Turn 0 Proceed; Turn 1 Proceed; Turn 0 Proceed].
Definition contended_locks : accountLocks := mkAccountLocks [mkLockEntry false 2] {[7%Z := 0%nat]}.
Definition contended : system account_locks := (contended_locks, [Holding 7 0; Waiting 7 0]).

Lemma contended_reachable : reachable account_locks contended.
Proof. exact (plays_reachable account_locks _ contention _ (reachable_start account_locks) eq_refl). Qed.

Lemma account_locks_exclude_witness :
  contended.2 !! 0%nat = Some (Holding 7 0) ∧ contended_locks.(lk_entries) !! 7%Z = Some 0%nat.
Proof.
  split; [reflexivity|].
  exact (proj1 (proj2 (account_locks_exclude _ _ contended_reachable)) 1%nat (Waiting 7 0) 7%Z 0%nat eq_refl eq_refl).
Defined.

Lemma account_locks_progress_witness :
  ∃ l', lock_turn Proceed contended_locks (Holding 7 0) = Some (l', Leaving 7 0).
Proof. exact (proj1 (proj2 (account_locks_progress _ _ contended_reachable)) 0%nat 7%Z 0%nat eq_refl). Defined.
