(* ===== verification/Sql.v ===== *)
(** * Tables

    What the SQL statements of [internal/store] do to the tables of the database: rows
    as columns with their values, in the order of insertion; uniqueness of keys;
    [INSERT], [UPDATE], [SELECT] with their conditions and orders; and how
    [database/sql] scans a row into variables.

    The engine may refuse any statement, and a statement or a commit that came back with
    an error may have been carried out ([attempted]). *)

From S2P Require Import Prelude GoStd TimeText.

Inductive sqlval :=
  | SNull
  | SInt (n : Z)
  | SText (s : string).
#[export] Instance sqlval_eq_dec : EqDecision sqlval.
Proof. solve_decision. Defined.

Abbreviation row := (gmap string sqlval) (only parsing).
Abbreviation table := (list (gmap string sqlval)) (only parsing).

(** A column that a row does not hold is NULL. *)
Definition column (c : string) (r : row) : sqlval := default SNull (r !! c).

(** The values of a list of columns. *)
Definition values (columns : list string) (r : row) : list sqlval := (λ c, column c r) <$> columns.

Definition row_of (columns : list string) (vals : list sqlval) : row := list_to_map (zip columns vals).

Lemma row_of_lookup columns vals i c v :
  NoDup columns → length columns = length vals →
  columns !! i = Some c → vals !! i = Some v → row_of columns vals !! c = Some v.
Proof.
  intros Hnd Hlen Hc Hv. apply elem_of_list_to_map_1; [by rewrite fst_zip by lia|].
  apply list_elem_of_lookup. exists i. by rewrite lookup_zip_with, Hc, Hv.
Qed.

Lemma values_row_of columns vals (rest : row) :
  NoDup columns → length columns = length vals → values columns (row_of columns vals ∪ rest) = vals.
Proof.
  intros Hnd Hlen. apply list_eq. intros i. unfold values. rewrite list_lookup_fmap.
  destruct (columns !! i) as [c|] eqn:Ec; cbn.
  - destruct (lookup_lt_is_Some_2 vals i) as [v Hv]; [by rewrite <-Hlen; eapply lookup_lt_Some|].
    unfold column. rewrite Hv, (lookup_union_Some_l _ _ c v) by by eapply row_of_lookup. done.
  - symmetry. apply lookup_ge_None_2. rewrite <-Hlen. by apply lookup_ge_None.
Qed.

(** Columns that are not assigned keep their value. *)
Lemma column_unassigned columns vals (rest : row) c :
  c ∉ columns → column c (row_of columns vals ∪ rest) = column c rest.
Proof.
  intros Hc. unfold column. rewrite lookup_union_r; [done|].
  apply not_elem_of_list_to_map_1. intros Hin. apply Hc.
  apply list_elem_of_fmap in Hin as ([c' v] & -> & Hin). by apply elem_of_zip_l in Hin.
Qed.

(** ** Statements *)

(** [c = v] of a WHERE clause. *)
Definition where_eq (c : string) (v : sqlval) (r : row) : bool :=
  bool_decide (v ≠ SNull) && bool_decide (column c r = v).
Definition where_in (c : string) (vs : list string) (r : row) : bool :=
  existsb (λ v, where_eq c (SText v) r) vs.
Definition is_null (c : string) (r : row) : bool := bool_decide (column c r = SNull).
(** [c <= text] and [c > text]; neither holds of NULL. *)
Definition where_le (c : string) (text : string) (r : row) : bool :=
  match column c r with SText s => negb (string_less text s) | _ => false end.
Definition where_gt (c : string) (text : string) (r : row) : bool :=
  match column c r with SText s => string_less text s | _ => false end.
Definition where_lt (c : string) (text : string) (r : row) : bool :=
  match column c r with SText s => string_less s text | _ => false end.
Definition where_ge (c : string) (text : string) (r : row) : bool :=
  match column c r with SText s => negb (string_less s text) | _ => false end.

(** The order of values: NULL, numbers, texts. *)
Definition val_less (v w : sqlval) : bool :=
  match v, w with
  | SNull, SNull => false
  | SNull, _ => true
  | SInt _, SNull => false
  | SInt n, SInt m => (n <? m)%Z
  | SInt _, SText _ => true
  | SText s, SText t => string_less s t
  | SText _, _ => false
  end.
Definition by_column (c : string) (r1 r2 : row) : bool := val_less (column c r1) (column c r2).
Definition by_column_desc (c : string) (r1 r2 : row) : bool := val_less (column c r2) (column c r1).

#[export] Instance val_less_strict : StrictTotal val_less.
Proof.
  split; [split|].
  - intros [|n|s]; cbn; [done|apply Z.ltb_irrefl|apply (less_irrefl (less := string_less))].
  - intros [|n|s] [|m|t] [|k|u]; cbn; try done.
    + apply (less_trans (less := Z.ltb)).
    + apply (less_trans (less := string_less)).
  - intros [|n|s] [|m|t] [|k|u]; cbn; try (by auto).
    + apply (less_cotrans (less := Z.ltb)).
    + apply (less_cotrans (less := string_less)).
  - intros [|n|s] [|m|t]; cbn; try done.
    + intros H1 H2. f_equal. by apply (less_connex (less := Z.ltb)).
    + intros H1 H2. f_equal. by apply (less_connex (less := string_less)).
Qed.

#[export] Instance by_column_weak c : StrictWeak (by_column c).
Proof. apply (strict_weak_key val_less (column c)), _. Qed.

Inductive sql_error :=
  | NoRows                          (* sql.ErrNoRows *)
  | UniqueViolated (column : string)
  | ArgumentCount
  | ScanFailed
  | EngineError (text : string).

(** A row of [t] other than those of [except] holds [v] in [c]. *)
Definition taken (c : string) (v : sqlval) (t : table) : bool := existsb (where_eq c v) t.

(** [INSERT INTO t(columns) VALUES(...)]; an omitted column takes its default. *)
Definition insert_into (unique : list string) (defaults : row) (columns : list string)
    (vals : list sqlval) (t : table) : result sql_error table :=
  if negb (length columns =? length vals)%nat then Err ArgumentCount else
  let r := row_of columns vals ∪ defaults in
  match filter (λ c, taken c (column c r) t = true) unique with
  | c :: _ => Err (UniqueViolated c)
  | [] => Ok (t ++ [r])
  end.

(** [UPDATE t SET columns=... WHERE condition] *)
Definition update_rows (columns : list string) (vals : list sqlval) (condition : row → bool)
    (t : table) : table :=
  (λ r, if condition r then row_of columns vals ∪ r else r) <$> t.

(** [SELECT columns FROM t WHERE condition ORDER BY ...] *)
Definition select (columns : list string) (condition : row → bool) (order : row → row → bool)
    (t : table) : list (list sqlval) :=
  values columns <$> sort_slice order (filter (λ r, condition r = true) t).

Definition unordered (r1 r2 : row) : bool := false.

Definition count_rows (condition : row → bool) (t : table) : Z :=
  Z.of_nat (length (filter (λ r, condition r = true) t)).

Lemma sort_slice_unordered l : sort_slice unordered l = l.
Proof.
  assert (∀ x l, insert_slice unordered x l = l ++ [x]) as Hins
    by (intros x l'; induction l' as [|y l' IH]; cbn; [done|by rewrite IH]).
  unfold sort_slice. rewrite <-(app_nil_l l) at 2. generalize (@nil (gmap string sqlval)).
  induction l as [|x l IH]; intros acc; cbn; [by rewrite app_nil_r|]. rewrite Hins, IH, <-app_assoc. done.
Qed.

Lemma values_column columns r vals i c v :
  values columns r = vals → columns !! i = Some c → vals !! i = Some v → column c r = v.
Proof. intros <- Hc. unfold values. rewrite list_lookup_fmap, Hc. cbn. by intros [= <-]. Qed.

(** Filtering two lists that correspond. *)
Lemma Forall2_filter {A B} (R : A → B → Prop) (P : A → Prop) (Q : B → Prop)
    `{∀ x, Decision (P x), ∀ y, Decision (Q y)} l k :
  Forall2 R l k → (∀ x y, R x y → P x ↔ Q y) → Forall2 R (filter P l) (filter Q k).
Proof.
  intros Hlk HPQ. induction Hlk as [|x y l k Hxy _ IH]; [constructor|].
  rewrite !filter_cons. destruct (decide (P x)), (decide (Q y)); naive_solver.
Qed.

(** ** Scanning

    A scan reads the values of a row in order. A NULL cannot be read into a variable
    that is not nullable, nor a text into a number; a number is read into a string as
    its decimal text. *)
Definition reader (A : Type) : Type := list sqlval → option (A * list sqlval).
#[export] Instance reader_ret : MRet reader := λ A a l, Some (a, l).
#[export] Instance reader_bind : MBind reader := λ A B f m l,
  match m l with Some (a, l) => f a l | None => None end.

Definition cell {A} (f : sqlval → option A) : reader A := λ l,
  match l with v :: l => (λ a, (a, l)) <$> f v | [] => None end.

Definition text_cell : reader string := cell (λ v,
  match v with SText s => Some s | SInt n => Some (format_int n) | SNull => None end).
Definition int_cell : reader Z := cell (λ v, match v with SInt n => Some n | _ => None end).
(** [sql.NullString], [sql.NullInt64] *)
Definition null_text_cell : reader (option string) := cell (λ v,
  match v with SText s => Some (Some s) | SInt n => Some (Some (format_int n)) | SNull => Some None end).
Definition null_int_cell : reader (option Z) := cell (λ v,
  match v with SInt n => Some (Some n) | SNull => Some None | SText _ => None end).

(** The whole row is read. *)
Definition scan {A} (m : reader A) (vals : list sqlval) : result sql_error A :=
  match m vals with Some (a, []) => Ok a | _ => Err ScanFailed end.

(** The rows of a query, up to the first that does not scan. *)
Fixpoint scan_all {A} (f : list sqlval → result sql_error A) (rows : list (list sqlval))
    : result sql_error (list A) :=
  match rows with
  | [] => Ok []
  | vals :: rows => a ← f vals; l ← scan_all f rows; mret (a :: l)
  end.

Lemma scan_all_ok {A} (f : list sqlval → result sql_error A) rows items :
  Forall2 (λ vals item, f vals = Ok item) rows items → scan_all f rows = Ok items.
Proof. induction 1 as [|vals item rows items Hf _ IH]; cbn; [done|]. by rewrite Hf, IH. Qed.

(** [QueryRow(...).Scan(...)]: the first row. *)
Definition scan_row {A} (f : list sqlval → result sql_error A) (rows : list (list sqlval))
    : result sql_error A :=
  match rows with [] => Err NoRows | vals :: _ => f vals end.

(** ** Values of columns, as [store.go] writes and reads them *)

Definition boolInt (value : bool) : Z := if value then 1 else 0.
Definition nullableTime (value : option time) : sqlval :=
  match value with None => SNull | Some t => SText (formatTime t) end.
Definition nullableTimeValue (value : time) : sqlval :=
  if is_zero_time value then SNull else SText (formatTime value).
Definition nullableBool (value : option bool) : sqlval :=
  match value with None => SNull | Some b => SInt (boolInt b) end.
Definition nullableInt (value : option Z) : sqlval :=
  match value with None => SNull | Some n => SInt n end.
Definition parseNullTime (value : option string) : option time :=
  match value with
  | None => None
  | Some s => if bool_decide (s = "") then None else Some (parseTime s)
  end.
Definition nullBoolPointer (value : option Z) : option bool :=
  match value with None => None | Some n => Some (n =? 1)%Z end.
Definition nullInt64Pointer (value : option Z) : option Z :=
  match value with None => None | Some n => Some n end.
Definition nullIntPointer (value : option Z) : option Z :=
  match value with None => None | Some n => Some n end.

Section cells.
Context {A : Type} (l : list sqlval).

Lemma text_cell_bind s (k : string → reader A) : (text_cell ≫= k) (SText s :: l) = k s l.
Proof. done. Qed.
Lemma int_cell_bind n (k : Z → reader A) : (int_cell ≫= k) (SInt n :: l) = k n l.
Proof. done. Qed.
Lemma null_text_cell_bind t (k : option string → reader A) :
  (null_text_cell ≫= k) (nullableTime t :: l) = k (formatTime <$> t) l.
Proof. by destruct t. Qed.
Lemma null_bool_cell_bind b (k : option Z → reader A) :
  (null_int_cell ≫= k) (nullableBool b :: l) = k (boolInt <$> b) l.
Proof. by destruct b. Qed.
Lemma null_int_cell_bind n (k : option Z → reader A) :
  (null_int_cell ≫= k) (nullableInt n :: l) = k n l.
Proof. by destruct n. Qed.
Lemma null_int_cell_null (k : option Z → reader A) : (null_int_cell ≫= k) (SNull :: l) = k None l.
Proof. done. Qed.
Lemma null_int_cell_int n (k : option Z → reader A) : (null_int_cell ≫= k) (SInt n :: l) = k (Some n) l.
Proof. done. Qed.
End cells.
#[export] Hint Rewrite @text_cell_bind @int_cell_bind @null_text_cell_bind @null_bool_cell_bind
  @null_int_cell_bind @null_int_cell_null @null_int_cell_int : cells.

(** What is written of a value is read back. *)
Definition four_digit_years (t : option time) : Prop := from_option four_digit_year True t.
#[export] Instance four_digit_years_dec t : Decision (four_digit_years t).
Proof. destruct t; apply _. Defined.

Lemma parseNullTime_nullable t : four_digit_years t → parseNullTime (formatTime <$> t) = t.
Proof.
  destruct t as [t|]; [|done]. unfold four_digit_years, parseNullTime. cbn [from_option fmap option_fmap option_map].
  intros Ht. rewrite bool_decide_false; [by rewrite parseTime_formatTime|].
  intros E. apply (f_equal parse_rfc3339) in E. by rewrite parse_rfc3339_formatTime in E.
Qed.
Lemma nullBoolPointer_boolInt b : nullBoolPointer (boolInt <$> b) = b.
Proof. by destruct b as [[]|]. Qed.
Lemma nullIntPointer_id n : nullIntPointer n = n.
Proof. by destruct n. Qed.
Lemma nullInt64Pointer_id n : nullInt64Pointer n = n.
Proof. by destruct n. Qed.
Lemma boolInt_one b : (boolInt b =? 1)%Z = b.
Proof. by destruct b. Qed.
#[export] Hint Rewrite nullBoolPointer_boolInt nullIntPointer_id nullInt64Pointer_id boolInt_one : cells.

#[global] Arguments boolInt : simpl never.
#[global] Arguments nullableTime : simpl never.
#[global] Arguments nullableBool : simpl never.
#[global] Arguments nullableInt : simpl never.
#[global] Arguments nullableTimeValue : simpl never.

(** ** Outcomes

    [op] is what the method does to the database when the engine accepts its statements.
    A call either does that, or comes back with an error of the engine, having changed
    nothing or, when the commit was acknowledged too late, everything. *)
Definition attempted {D A} (op : D → result sql_error A * D) (d : D) (r : result sql_error A) (d' : D) : Prop :=
  (r, d') = op d ∨ ∃ text, r = Err (EngineError text) ∧ (d' = d ∨ d' = (op d).2).

(** A transaction whose body fails is rolled back. *)
Definition transaction {D A} (body : D → result sql_error (A * D)) (d : D) : result sql_error A * D :=
  match body d with Ok (a, d') => (Ok a, d') | Err e => (Err e, d) end.
