(* ===== verification/Journal.v ===== *)
(** * The journal of account control

    [internal/store/accountcontrol.go], and the reading and writing of account controls
    and events of [store.go] it rests on: overrides and mutations as rows, and the methods
    of [accountcontrol.Repository] over the tables. A method is what it does to the
    database when the engine accepts its statements; [attempted] adds the engine's
    refusals. *)

From S2P Require Import Prelude GoStd TimeText JsonText Intent Model AccountTypes Sql.

Record database := mkDatabase {
  db_overrides : table;
  db_mutations : table;
  db_controls : table;
  db_events : table;
  db_settings : table;
}.

(** ** Columns *)

Definition overrideColumns : list string :=
  ["id"; "command_id"; "intent_id"; "idempotency_key"; "semantic_signature"; "account_id"; "operation"; "override_kind";
   "desired_schedulable"; "desired_load_factor"; "desired_load_factor_set"; "producer"; "authority"; "actor"; "reason"; "evidence_refs";
   "policy_version"; "snapshot_version"; "created_at"; "expires_at"; "status"; "mutation_id"; "revoked_at"; "revoked_by"; "revoke_reason"; "updated_at"].

Definition mutationColumns : list string :=
  ["id"; "command_id"; "intent_id"; "idempotency_key"; "semantic_signature"; "account_id"; "operation";
   "requested_schedulable"; "requested_load_factor"; "requested_load_factor_set"; "winning_intent_id"; "winning_idempotency_key";
   "winning_producer"; "winning_authority"; "winning_actor"; "winning_reason"; "winning_evidence_refs"; "winning_policy_version";
   "winning_snapshot_version"; "winning_created_at"; "winning_expires_at"; "winning_schedulable"; "winning_load_factor";
   "winning_load_factor_set"; "winning_override_kind"; "producer"; "authority"; "actor"; "reason_code"; "reason"; "policy_version"; "snapshot_version"; "run_id"; "goal_id"; "step_id"; "expires_at";
   "status"; "attempt_count"; "before_schedulable"; "before_load_factor"; "before_load_factor_set"; "after_schedulable";
   "after_load_factor"; "after_load_factor_set"; "last_error_code"; "override_id"; "revoke_override_id"; "telemetry_fresh";
   "cooldown_active"; "created_at"; "updated_at"; "completed_at"].

(** The columns [mutationUpdateSQL] sets; its condition is [id=?]. *)
Definition mutationUpdateSQL : list string :=
  ["command_id"; "intent_id"; "idempotency_key"; "semantic_signature"; "account_id"; "operation";
   "requested_schedulable"; "requested_load_factor"; "requested_load_factor_set"; "winning_intent_id"; "winning_idempotency_key";
   "winning_producer"; "winning_authority"; "winning_actor"; "winning_reason"; "winning_evidence_refs"; "winning_policy_version";
   "winning_snapshot_version"; "winning_created_at"; "winning_expires_at"; "winning_schedulable"; "winning_load_factor";
   "winning_load_factor_set"; "winning_override_kind"; "producer"; "authority"; "actor"; "reason_code"; "reason"; "policy_version"; "snapshot_version"; "run_id"; "goal_id"; "step_id"; "expires_at";
   "status"; "attempt_count"; "before_schedulable"; "before_load_factor"; "before_load_factor_set"; "after_schedulable"; "after_load_factor";
   "after_load_factor_set"; "last_error_code"; "override_id"; "revoke_override_id"; "telemetry_fresh"; "cooldown_active"; "created_at"; "updated_at"; "completed_at"].

Definition controlColumns : list string :=
  ["account_id"; "monitor_id"; "owns_pause"; "owner"; "expected_schedulable"; "manual_override_until"; "last_observed_schedulable"; "last_decision"; "last_action_at"; "flap_active"; "flap_triggered_at"; "flap_recovery_required"; "health_locked"; "manual_locked"; "cost_locked"; "cost_source_id"; "cost_pool"; "owns_load_factor"; "original_load_factor"; "expected_load_factor"; "load_stage"; "load_override_until"; "load_pin_value"; "load_pin_until"; "load_pin_owner"; "load_pin_reason"; "recovery_step"; "recovery_started_at"; "updated_at"].

Definition eventColumns : list string :=
  ["goal_id"; "step_id"; "type"; "severity"; "monitor_id"; "account_id"; "message"; "before_state"; "after_state"; "details"; "actor"; "created_at"].

(** Keys of the tables. Every column without a default is among those the inserts name. *)
Definition overrideKeys : list string := ["id"; "intent_id"].
Definition mutationKeys : list string := ["id"; "idempotency_key"].

(** ** Values of rows *)

Definition stateColumns (state : option AccountState) : sqlval * sqlval * sqlval :=
  match state with
  | None => (SNull, SNull, SInt 0)
  | Some s => (SInt (boolInt (st_Schedulable s)), nullableInt (st_LoadFactor s),
               SInt (boolInt (bool_decide (is_Some (st_LoadFactor s)))))
  end.

Definition scannedState (sched load : option Z) (loadSet : Z) : option AccountState :=
  match sched with
  | None => None
  | Some n => Some (mkAccountState (n =? 1)%Z (if (loadSet =? 1)%Z then nullIntPointer load else None))
  end.

(** The text of an event's details; a map is written with its keys in order. *)
Definition details_text (d : EventDetails) : string :=
  match d with
  | DetailsText text => text
  | DetailsMutation mutation_id intent_id producer authority operation status expires_at verified_after uncertain =>
      json_object
        [("authority", json_string authority);
         ("expires_at", json_pointer (λ t, json_string (formatTime t)) expires_at);
         ("intent_id", json_string intent_id);
         ("mutation_id", json_string mutation_id);
         ("operation", json_string operation);
         ("producer", json_string producer);
         ("status", json_string status);
         ("uncertain", format_bool uncertain);
         ("verified_after", json_pointer (λ state : bool * option Z,
            json_object (("schedulable", format_bool state.1)
              :: match state.2 with None => [] | Some n => [("load_factor", format_int n)] end))
            verified_after)]
  end.

Definition eventArguments (event : Event) : list sqlval :=
  [SInt (ev_GoalID event); SInt (ev_StepID event); SText (ev_Type event); SText (ev_Severity event);
   nullableInt (ev_MonitorID event); nullableInt (ev_AccountID event); SText (ev_Message event);
   SText (ev_BeforeState event); SText (ev_AfterState event); SText (details_text (ev_Details event));
   SText (ev_Actor event); SText (formatTime (ev_CreatedAt event))].

Definition controlUpsertArguments (control : AccountControl) : list sqlval :=
  [SInt (ct_AccountID control); nullableInt (ct_MonitorID control); SInt (boolInt (ct_OwnsPause control)); SText (ct_Owner control);
   nullableBool (ct_ExpectedSchedulable control); nullableTime (ct_ManualOverrideUntil control); nullableBool (ct_LastObserved control);
   SText (ct_LastDecision control); nullableTime (ct_LastActionAt control); SInt (boolInt (ct_FlapActive control));
   nullableTime (ct_FlapTriggeredAt control); SInt (ct_FlapRecoveryRequired control); SInt (boolInt (ct_HealthLocked control));
   SInt (boolInt (ct_ManualLocked control)); SInt (boolInt (ct_CostLocked control)); nullableInt (ct_CostSourceID control); SText (ct_CostPool control);
   SInt (boolInt (ct_OwnsLoadFactor control)); nullableInt (ct_OriginalLoadFactor control);
   nullableInt (ct_ExpectedLoadFactor control); SText (ct_LoadStage control); nullableTime (ct_LoadOverrideUntil control); nullableInt (ct_LoadPinValue control);
   nullableTime (ct_LoadPinUntil control); SText (ct_LoadPinOwner control); SText (ct_LoadPinReason control); SInt (ct_RecoveryStep control);
   nullableTime (ct_RecoveryStartedAt control); SText (formatTime (ct_UpdatedAt control))].

(** The scan of [GetControl]; the fields that no column carries keep their zero value. *)
Definition scan_control : list sqlval → result sql_error AccountControl := scan (
  accountID ← int_cell; monitorID ← null_int_cell; owns ← int_cell; owner ← text_cell;
  expected ← null_int_cell; overrideUntil ← null_text_cell; observed ← null_int_cell;
  lastDecision ← text_cell; actionAt ← null_text_cell; flapActive ← int_cell;
  flapTriggeredAt ← null_text_cell; flapRecoveryRequired ← int_cell; healthLocked ← int_cell;
  manualLocked ← int_cell; costLocked ← int_cell; costSourceID ← null_int_cell; costPool ← text_cell;
  ownsLoadFactor ← int_cell; originalLoadFactor ← null_int_cell; expectedLoadFactor ← null_int_cell;
  loadStage ← text_cell; loadOverrideUntil ← null_text_cell; loadPinValue ← null_int_cell;
  loadPinUntil ← null_text_cell; loadPinOwner ← text_cell; loadPinReason ← text_cell;
  recoveryStep ← int_cell; recoveryStartedAt ← null_text_cell; updated ← text_cell;
  mret (mkAccountControl accountID (nullInt64Pointer monitorID) (owns =? 1)%Z owner (nullBoolPointer expected)
    (parseNullTime overrideUntil) (nullBoolPointer observed) lastDecision (parseNullTime actionAt)
    (flapActive =? 1)%Z (parseNullTime flapTriggeredAt) flapRecoveryRequired
    (ct_RecentAutomaticPauses no_control) (healthLocked =? 1)%Z (manualLocked =? 1)%Z
    (ct_BalanceLocked no_control) (ct_BalanceSourceID no_control)
    (costLocked =? 1)%Z (nullInt64Pointer costSourceID) costPool (ownsLoadFactor =? 1)%Z
    (nullIntPointer originalLoadFactor) (nullIntPointer expectedLoadFactor) loadStage
    (parseNullTime loadOverrideUntil) (nullIntPointer loadPinValue) (parseNullTime loadPinUntil)
    loadPinOwner loadPinReason recoveryStep (parseNullTime recoveryStartedAt) (parseTime updated))).

Section journal.
Context `{UnicodeTables}.

Definition overrideArguments (item : Override) : list sqlval :=
  [SText (ov_ID item); SText (ov_CommandID item); SText (ov_IntentID item); SText (ov_IdempotencyKey item); SText (ov_SemanticSignature item); SInt (ov_AccountID item); SText (Operation_String (ov_Operation item));
   SText (ov_Kind item); nullableBool (ov_Schedulable item); nullableInt (ov_LoadFactor item); SInt (boolInt (ov_LoadFactorSet item)); SText (Producer_String (ov_Producer item)); SText (Authority_String (ov_Authority item));
   SText (ov_Actor item); SText (ov_Reason item); SText (json_slice (ov_EvidenceRefs item)); SText (ov_PolicyVersion item); SText (ov_SnapshotVersion item); SText (formatTime (ov_CreatedAt item)); nullableTime (ov_ExpiresAt item);
   SText (ov_Status item); SText (ov_MutationID item); nullableTime (ov_RevokedAt item); SText (ov_RevokedBy item); SText (ov_RevokeReason item); SText (formatTime (ov_UpdatedAt item))].

(** The arguments of the update, the last of which is the [id] of its condition. *)
Definition mutationArguments (item : Mutation) : list sqlval :=
  let '(beforeSched, beforeLoad, beforeLoadSet) := stateColumns (mu_Before item) in
  let '(afterSched, afterLoad, afterLoadSet) := stateColumns (mu_After item) in
  [SText (mu_CommandID item); SText (mu_IntentID item); SText (mu_IdempotencyKey item); SText (mu_SemanticSignature item); SInt (mu_AccountID item); SText (Operation_String (mu_Operation item));
   nullableBool (mu_RequestedSchedulable item); nullableInt (mu_RequestedLoadFactor item); SInt (boolInt (mu_RequestedLoadSet item));
   SText (mu_WinningIntentID item); SText (mu_WinningIdempotencyKey item); SText (Producer_String (mu_WinningProducer item)); SText (Authority_String (mu_WinningAuthority item));
   SText (mu_WinningActor item); SText (mu_WinningReason item); SText (json_slice (mu_WinningEvidenceRefs item)); SText (mu_WinningPolicyVersion item); SText (mu_WinningSnapshotVersion item);
   SText (formatTime (mu_WinningCreatedAt item)); nullableTime (mu_WinningExpiresAt item); nullableBool (mu_WinningSchedulable item);
   nullableInt (mu_WinningLoadFactor item); SInt (boolInt (mu_WinningLoadSet item)); SText (mu_WinningOverrideKind item); SText (Producer_String (mu_Producer item)); SText (Authority_String (mu_Authority item)); SText (mu_Actor item);
   SText (mu_ReasonCode item); SText (mu_Reason item); SText (mu_PolicyVersion item); SText (mu_SnapshotVersion item); SInt (mu_RunID item); SInt (mu_GoalID item); SInt (mu_StepID item);
   nullableTime (mu_ExpiresAt item); SText (mu_Status item); SInt (mu_AttemptCount item);
   beforeSched; beforeLoad; beforeLoadSet; afterSched; afterLoad; afterLoadSet; SText (mu_LastErrorCode item); SText (mu_OverrideID item);
   SText (mu_RevokeOverrideID item); SInt (boolInt (mu_TelemetryFresh item)); SInt (boolInt (mu_CooldownActive item)); SText (formatTime (mu_CreatedAt item));
   SText (formatTime (mu_UpdatedAt item)); nullableTime (mu_CompletedAt item); SText (mu_ID item)].

Definition mutationInsertArguments (item : Mutation) : list sqlval :=
  SText (mu_ID item) :: removelast (mutationArguments item).

Definition scanOverride : list sqlval → result sql_error Override := scan (
  id ← text_cell; commandID ← text_cell; intentID ← text_cell; key ← text_cell; signature ← text_cell;
  accountID ← int_cell; operation ← text_cell; kind ← text_cell; desiredSched ← null_int_cell;
  desiredLoad ← null_int_cell; loadSet ← int_cell; producer ← text_cell; authority ← text_cell;
  actor ← text_cell; reason ← text_cell; evidence ← text_cell; policyVersion ← text_cell;
  snapshotVersion ← text_cell; created ← text_cell; expires ← null_text_cell; status ← text_cell;
  mutationID ← text_cell; revoked ← null_text_cell; revokedBy ← text_cell; revokeReason ← text_cell;
  updated ← text_cell;
  mret (mkOverride id commandID intentID key signature accountID operation kind (nullBoolPointer desiredSched)
    (nullIntPointer desiredLoad) (loadSet =? 1)%Z producer authority actor reason (json_strings evidence)
    policyVersion snapshotVersion (parseTime created) (parseNullTime expires) status mutationID
    (parseNullTime revoked) revokedBy revokeReason (parseTime updated))).

Definition scanMutation : list sqlval → result sql_error Mutation := scan (
  id ← text_cell; commandID ← text_cell; intentID ← text_cell; key ← text_cell; signature ← text_cell;
  accountID ← int_cell; operation ← text_cell; requestedSched ← null_int_cell; requestedLoad ← null_int_cell;
  requestedLoadSet ← int_cell; winningIntentID ← text_cell; winningKey ← text_cell;
  winningProducer ← text_cell; winningAuthority ← text_cell; winningActor ← text_cell;
  winningReason ← text_cell; winningEvidence ← text_cell; winningPolicyVersion ← text_cell;
  winningSnapshotVersion ← text_cell; winningCreated ← text_cell; winningExpires ← null_text_cell;
  winningSched ← null_int_cell; winningLoad ← null_int_cell; winningLoadSet ← int_cell;
  winningOverrideKind ← text_cell; producer ← text_cell; authority ← text_cell; actor ← text_cell;
  reasonCode ← text_cell; reason ← text_cell; policyVersion ← text_cell; snapshotVersion ← text_cell;
  runID ← int_cell; goalID ← int_cell; stepID ← int_cell; expires ← null_text_cell; status ← text_cell;
  attemptCount ← int_cell; beforeSched ← null_int_cell; beforeLoad ← null_int_cell; beforeLoadSet ← int_cell;
  afterSched ← null_int_cell; afterLoad ← null_int_cell; afterLoadSet ← int_cell; lastErrorCode ← text_cell;
  overrideID ← text_cell; revokeOverrideID ← text_cell; telemetryFresh ← int_cell; cooldownActive ← int_cell;
  created ← text_cell; updated ← text_cell; completed ← null_text_cell;
  mret (mkMutation id commandID intentID key signature accountID operation
    (nullBoolPointer requestedSched) (nullIntPointer requestedLoad) (requestedLoadSet =? 1)%Z
    winningIntentID winningKey winningProducer winningAuthority winningActor winningReason
    (json_strings winningEvidence) winningPolicyVersion winningSnapshotVersion (parseTime winningCreated)
    (parseNullTime winningExpires) (nullBoolPointer winningSched) (nullIntPointer winningLoad)
    (winningLoadSet =? 1)%Z winningOverrideKind producer authority actor reasonCode reason policyVersion
    snapshotVersion runID goalID stepID (parseNullTime expires) status attemptCount
    (scannedState beforeSched beforeLoad beforeLoadSet) (scannedState afterSched afterLoad afterLoadSet)
    lastErrorCode (parseTime created) (parseTime updated) (parseNullTime completed) overrideID
    revokeOverrideID (telemetryFresh =? 1)%Z (cooldownActive =? 1)%Z)).

(** ** Statements *)

Definition insertOverride (d : database) (item : Override) : result sql_error database :=
  t ← insert_into overrideKeys ∅ overrideColumns (overrideArguments item) (db_overrides d);
  mret (d <| db_overrides := t |>).

Definition insertMutation (d : database) (item : Mutation) : result sql_error database :=
  t ← insert_into mutationKeys ∅ mutationColumns (mutationInsertArguments item) (db_mutations d);
  mret (d <| db_mutations := t |>).

(** [UPDATE account_mutations SET ... WHERE id=?]; it may not give two rows one key. *)
Definition updateMutation (d : database) (item : Mutation) : result sql_error database :=
  let args := mutationArguments item in
  let id := where_eq "id" (SText (mu_ID item)) in
  if existsb id (db_mutations d)
     && taken "idempotency_key" (SText (mu_IdempotencyKey item)) (filter (λ r, id r = false) (db_mutations d))
  then Err (UniqueViolated "idempotency_key")
  else Ok (d <| db_mutations := update_rows mutationUpdateSQL (removelast args) id (db_mutations d) |>).

Definition updateOverrides (d : database) (columns : list string) (args : list sqlval) (condition : gmap string sqlval → bool)
    : database :=
  d <| db_overrides := update_rows columns args condition (db_overrides d) |>.

Definition insertEvent (d : database) (event : Event) : result sql_error database :=
  t ← insert_into [] ∅ eventColumns (eventArguments event) (db_events d);
  mret (d <| db_events := t |>).

(** [INSERT ... ON CONFLICT(account_id) DO UPDATE SET ...=excluded....]; [now] is the
    clock at the call. *)
Definition upsertControl (now : time) (d : database) (control : AccountControl) : database :=
  let control := control <| ct_UpdatedAt := now |> in
  let args := controlUpsertArguments control in
  let key := where_eq "account_id" (SInt (ct_AccountID control)) in
  d <| db_controls := if existsb key (db_controls d)
                      then update_rows (tail controlColumns) (tail args) key (db_controls d)
                      else db_controls d ++ [row_of controlColumns args] |>.

Definition getMutationByIdempotency (d : database) (key : string) : result sql_error Mutation :=
  scan_row scanMutation
    (select mutationColumns (where_eq "idempotency_key" (SText key)) unordered (db_mutations d)).

(** ** The methods *)

End journal.

Module Store.
Section methods.
Context `{UnicodeTables}.

Definition GetControl (accountID : Z) (d : database) : result sql_error AccountControl * database :=
  (match scan_row scan_control
           (select controlColumns (where_eq "account_id" (SInt accountID)) unordered (db_controls d)) with
   | Err NoRows => Ok (no_control <| ct_AccountID := accountID |>)
   | r => r
   end, d).

(** [WHERE status='active' AND expires_at IS NOT NULL AND expires_at<=?] *)
Definition due_override (now : time) (r : gmap string sqlval) : bool :=
  where_eq "status" (SText OverrideActive) r && negb (is_null "expires_at" r)
  && where_le "expires_at" (formatTime now) r.

Definition of_account (accountID : Z) (operation : Operation) (r : gmap string sqlval) : bool :=
  where_eq "account_id" (SInt accountID) r && where_eq "operation" (SText (Operation_String operation)) r.

(** [status='active' AND (expires_at IS NULL OR expires_at>?)] *)
Definition live_override (now : time) (r : gmap string sqlval) : bool :=
  where_eq "status" (SText OverrideActive) r
  && (is_null "expires_at" r || where_gt "expires_at" (formatTime now) r).

(** [MIN(expires_at)] of the active overrides that expire: the least text. *)
Definition NextActiveAccountOverrideExpiry (d : database) : result sql_error (option time) * database :=
  let expiries := select ["expires_at"]
    (λ r, where_eq "status" (SText OverrideActive) r && negb (is_null "expires_at" r))
    (by_column "expires_at") (db_overrides d) in
  (value ← match expiries with [] => Ok None | vals :: _ => scan null_text_cell vals end;
   mret (match value with
         | None => None
         | Some s => if bool_decide (trim_space s = "") then None else Some (parseTime s)
         end), d).

Definition expire_columns : list string := ["status"; "updated_at"].
Definition expire_arguments (now : time) : list sqlval := [SText OverrideExpired; SText (formatTime now)].

(** [SELECT DISTINCT account_id ... ORDER BY account_id] *)
Definition distinct_accounts (condition : gmap string sqlval → bool) (d : database) : list (list sqlval) :=
  remove_dups (select ["account_id"] condition (by_column "account_id") (db_overrides d)).

Definition ExpireActiveAccountOverrides (now : time) : database → result sql_error (list Z) * database :=
  transaction (λ d,
    accountIDs ← scan_all (scan int_cell) (distinct_accounts (due_override now) d);
    mret (accountIDs, updateOverrides d expire_columns (expire_arguments now) (due_override now))).

Definition expireAccountOverrides (accountID : Z) (operation : Operation) (now : time) (d : database) : database :=
  updateOverrides d expire_columns (expire_arguments now)
    (λ r, of_account accountID operation r && due_override now r).

Definition by_creation : gmap string sqlval → gmap string sqlval → bool :=
  lex_less (by_column "created_at") (by_column "id").

Definition ListActiveAccountOverrides (accountID : Z) (operation : Operation) (now : time) (d : database)
    : result sql_error (list Override) * database :=
  let d := expireAccountOverrides accountID operation now d in
  (scan_all scanOverride
     (select overrideColumns (λ r, of_account accountID operation r && live_override now r) by_creation
        (db_overrides d)), d).

Definition HasPendingAccountOverrideTransition (accountID : Z) (operation : Operation) (d : database)
    : result sql_error bool * database :=
  (Ok (0 <? count_rows (λ r, of_account accountID operation r && where_eq "status" (SText OverridePending) r)
             (db_overrides d))%Z, d).

(** No row is no override and no error. *)
Definition optional_row {A} (r : result sql_error A) : result sql_error (option A) :=
  match r with Ok a => Ok (Some a) | Err NoRows => Ok None | Err e => Err e end.

Definition FindActiveAccountOverride (accountID : Z) (operation : Operation) (authority : Authority) (now : time)
    (d : database) : result sql_error (option Override) * database :=
  (optional_row (scan_row scanOverride
     (select overrideColumns
        (λ r, of_account accountID operation r
              && where_eq "authority" (SText (Authority_String authority)) r && live_override now r)
        (lex_less (by_column_desc "created_at") (by_column_desc "id")) (db_overrides d))), d).

Definition GetAccountOverrideRevision (accountID : Z) (operation : Operation) (now : time) (d : database)
    : result sql_error string * database :=
  let d := expireAccountOverrides accountID operation now d in
  (match scan_row (scan (id ← text_cell; status ← text_cell; mret (id, status)))
     (select ["id"; "status"]
        (λ r, of_account accountID operation r
              && where_in "status" [OverrideActive; OverrideRevoked; OverrideExpired] r)
        (lex_less (by_column_desc "updated_at") (by_column_desc "id")) (db_overrides d)) with
   | Err NoRows => Ok "none"
   | Err e => Err e
   | Ok (id, status) => Ok (id +:+ "|" +:+ status)
   end, d).

Definition FindAccountMutationByIdempotency (key : string) (d : database)
    : result sql_error (option Mutation) * database :=
  (optional_row (getMutationByIdempotency d key), d).

(** A transaction that returns before its commit is rolled back. *)
Definition PrepareAccountMutation (mutation : Mutation) (override : option Override)
    : database → result sql_error (Mutation * bool) * database :=
  transaction (λ d,
    match getMutationByIdempotency d (mu_IdempotencyKey mutation) with
    | Ok stored => Ok ((stored, true), d)
    | Err NoRows =>
        d1 ← match override with None => Ok d | Some override => insertOverride d override end;
        match insertMutation d1 mutation with
        | Ok d2 => Ok ((mutation, false), d2)
        | Err (UniqueViolated c) =>
            match getMutationByIdempotency d1 (mu_IdempotencyKey mutation) with
            | Ok stored => Ok ((stored, true), d)
            | Err _ => Err (UniqueViolated c)
            end
        | Err e => Err e
        end
    | Err e => Err e
    end).

Definition UpdateAccountMutation (mutation : Mutation) : database → result sql_error unit * database :=
  transaction (λ d, d ← updateMutation d mutation; mret ((), d)).

(** The automatic pauses of the account between two instants. *)
Definition recent_pauses (account : Z) (since until : time) (d : database) : Z :=
  count_rows (λ r, where_eq "type" (SText "automatic_pause") r && where_eq "account_id" (SInt account) r
    && where_ge "created_at" (formatTime since) r && where_le "created_at" (formatTime until) r) (db_events d).

Definition applyFlapPolicyInMutation (d : database) (control : AccountControl) (event : Event) (flap : FlapPolicy)
    : result sql_error (AccountControl * database) :=
  let windowStart := (ev_CreatedAt event + wrap64 (- fp_WindowMinutes flap * minute))%Z in
  let recent := recent_pauses (ct_AccountID control) windowStart (ev_CreatedAt event) d in
  let control := control <| ct_RecentAutomaticPauses := recent |> in
  if negb (fp_Enabled flap) || ct_FlapActive control || (recent <? fp_PauseThreshold flap)%Z then Ok (control, d) else
  let control := control <| ct_FlapActive := true |> <| ct_FlapTriggeredAt := Some (ev_CreatedAt event) |>
                         <| ct_FlapRecoveryRequired := fp_RecoveryThreshold flap |> in
  let details := json_object
    [("pause_threshold", format_int (fp_PauseThreshold flap)); ("recent_pause_count", format_int recent);
     ("recovery_threshold", format_int (fp_RecoveryThreshold flap)); ("window_minutes", format_int (fp_WindowMinutes flap))] in
  d ← insertEvent d (mkEvent 0 0 0 "flap_protection_activated" "warning" (ev_MonitorID event) (ev_AccountID event)
        "账号在滚动窗口内反复暂停，已启用抖动保护" "normal_recovery" "flap_protected" (DetailsText details)
        "scheduler" (ev_CreatedAt event));
  mret (control, d).

Definition FinalizeAccountMutation (clock : time) (final : Finalization) : database → result sql_error unit * database :=
  transaction (λ d,
    let m := fn_Mutation final in
    d ← updateMutation d m;
    let d := if bool_decide (mu_OverrideID m = "") then d else
      let status := if bool_decide (fn_OverrideStatus final = "") then OverrideFailed else fn_OverrideStatus final in
      updateOverrides d ["status"; "mutation_id"; "updated_at"]
        [SText status; SText (mu_ID m); SText (formatTime (mu_UpdatedAt m))]
        (where_eq "id" (SText (mu_OverrideID m))) in
    let d := if bool_decide (fn_RevokeOverrideID final = "") then d else
      let at_ := formatTime (mu_UpdatedAt m) in
      updateOverrides d ["status"; "revoked_at"; "revoked_by"; "revoke_reason"; "updated_at"]
        [SText OverrideRevoked; SText at_; SText (fn_RevokeActor final); SText (fn_RevokeReason final); SText at_]
        (λ r, where_eq "id" (SText (fn_RevokeOverrideID final)) r && where_eq "status" (SText OverrideActive) r) in
    d ← (if bool_decide (ev_Type (fn_Event final) = "") then Ok d else insertEvent d (fn_Event final));
    '(control, d) ← match fn_FlapPolicy final with
      | Some flap => if bool_decide (ev_Type (fn_Event final) = "automatic_pause")
                     then applyFlapPolicyInMutation d (fn_Control final) (fn_Event final) flap
                     else Ok (fn_Control final, d)
      | None => Ok (fn_Control final, d)
      end;
    let d := if (0 <? ct_AccountID control)%Z then upsertControl clock d control else d in
    mret ((), d)).

Definition pending_statuses : list string :=
  [StatusPrepared; StatusValidating; StatusExecuting; StatusVerifying; StatusUncertain].

Definition ListPendingAccountMutations (limit : Z) (d : database) : result sql_error (list Mutation) * database :=
  (if (limit <=? 0)%Z then Ok [] else
   scan_all scanMutation (take (Z.to_nat limit)
     (select mutationColumns (where_in "status" pending_statuses)
        (lex_less (by_column "account_id") by_creation) (db_mutations d))), d).

Definition ListAccountMutations (accountID : Z) (d : database) : result sql_error (list Mutation) * database :=
  (scan_all scanMutation
     (select mutationColumns (where_eq "account_id" (SInt accountID)) by_creation (db_mutations d)), d).
End methods.
End Store.

(** * Rows of the journal

    What is written of an override, a mutation or a control is read back, whether the
    row was inserted or updated: the three lists of columns, the arguments and the scans
    of [internal/store/accountcontrol.go] agree. *)

(** ** What the columns can hold

    Enumerations are valid, instants are of the years 0 to 9999, references are valid
    UTF-8, and a load factor is set where it is given. *)

Record storable_override (o : Override) : Prop := {
  so_operation : Operation_Valid (ov_Operation o) = true;
  so_producer : Producer_Valid (ov_Producer o) = true;
  so_authority : Authority_Valid (ov_Authority o) = true;
  so_evidence : Forall valid_utf8 (ov_EvidenceRefs o);
  so_created : four_digit_year (ov_CreatedAt o);
  so_expires : four_digit_years (ov_ExpiresAt o);
  so_revoked : four_digit_years (ov_RevokedAt o);
  so_updated : four_digit_year (ov_UpdatedAt o);
}.

Record storable_mutation (m : Mutation) : Prop := {
  sm_operation : Operation_Valid (mu_Operation m) = true;
  sm_producer : Producer_Valid (mu_Producer m) = true;
  sm_authority : Authority_Valid (mu_Authority m) = true;
  sm_winning_producer : Producer_Valid (mu_WinningProducer m) = true;
  sm_winning_authority : Authority_Valid (mu_WinningAuthority m) = true;
  sm_evidence : Forall valid_utf8 (mu_WinningEvidenceRefs m);
  sm_winning_created : four_digit_year (mu_WinningCreatedAt m);
  sm_winning_expires : four_digit_years (mu_WinningExpiresAt m);
  sm_expires : four_digit_years (mu_ExpiresAt m);
  sm_created : four_digit_year (mu_CreatedAt m);
  sm_updated : four_digit_year (mu_UpdatedAt m);
  sm_completed : four_digit_years (mu_CompletedAt m);
}.

Record storable_control (c : AccountControl) : Prop := {
  sc_manual : four_digit_years (ct_ManualOverrideUntil c);
  sc_action : four_digit_years (ct_LastActionAt c);
  sc_flap : four_digit_years (ct_FlapTriggeredAt c);
  sc_load : four_digit_years (ct_LoadOverrideUntil c);
  sc_pin : four_digit_years (ct_LoadPinUntil c);
  sc_recovery : four_digit_years (ct_RecoveryStartedAt c);
}.

Section rows.
Context `{UnicodeTables}.

Lemma Operation_String_valid o : Operation_Valid o = true → Operation_String o = o.
Proof. unfold Operation_String. by intros ->. Qed.
Lemma Producer_String_valid p : Producer_Valid p = true → Producer_String p = p.
Proof. unfold Producer_String. by intros ->. Qed.
Lemma Authority_String_valid a : Authority_Valid a = true → Authority_String a = a.
Proof. unfold Authority_String. by intros ->. Qed.

(** ** Scanning the arguments *)

Lemma scanOverride_arguments o : storable_override o → scanOverride (overrideArguments o) = Ok o.
Proof.
  intros [? ? ? ? ? ? ? ?]. unfold scanOverride, scan, overrideArguments.
  rewrite Operation_String_valid, Producer_String_valid, Authority_String_valid by done.
  autorewrite with cells. unfold mret, reader_ret. autorewrite with cells.
  rewrite json_strings_slice, !parseNullTime_nullable, !parseTime_formatTime by done.
  by destruct o.
Qed.

(** The three columns of an account's state. *)
Lemma state_read s :
  ∃ a b c, stateColumns s = (nullableInt a, nullableInt b, SInt c) ∧ scannedState a b c = s.
Proof.
  destruct s as [[schedulable load]|]; [|by exists None, None, 0%Z].
  exists (Some (boolInt schedulable)), load, (boolInt (bool_decide (is_Some load))).
  split; [done|]. by destruct schedulable, load.
Qed.

Lemma scanMutation_arguments m : storable_mutation m → scanMutation (mutationInsertArguments m) = Ok m.
Proof.
  intros [? ? ? ? ? ? ? ? ? ? ? ?]. unfold scanMutation, scan, mutationInsertArguments, mutationArguments.
  destruct (state_read (mu_Before m)) as (bs & bl & bset & -> & Eb).
  destruct (state_read (mu_After m)) as (cs & cl & cset & -> & Ea). cbn [removelast].
  rewrite Operation_String_valid, !Producer_String_valid, !Authority_String_valid by done.
  autorewrite with cells. unfold mret, reader_ret. autorewrite with cells. rewrite Eb, Ea.
  rewrite json_strings_slice, !parseNullTime_nullable, !parseTime_formatTime by done.
  by destruct m.
Qed.

Lemma scan_control_arguments c :
  storable_control c → four_digit_year (ct_UpdatedAt c) →
  scan_control (controlUpsertArguments c)
  = Ok (c <| ct_RecentAutomaticPauses := 0%Z |> <| ct_BalanceLocked := false |> <| ct_BalanceSourceID := None |>).
Proof.
  intros [? ? ? ? ? ?] ?. unfold scan_control, scan, controlUpsertArguments.
  autorewrite with cells. unfold mret, reader_ret. autorewrite with cells.
  rewrite !parseNullTime_nullable, !parseTime_formatTime by done. by destruct c.
Qed.
End rows.
