(* ===== verification/JournalFacts.v ===== *)
(** * The journal keeps what account control asks of it

    The database as the list of the mutations its rows hold, what each method of the
    repository makes of that list, and the refinement: over the tables, the exchanges of a
    run change the record of a mutation as [AccountLifetime] assumes of a journal. *)

From S2P Require Import Prelude GoStd TimeText JsonText Intent Model AccountTypes AccountQueue Requests Effects AccountGuard AccountProjection AccountService AccountRecovery AccountProtocol AccountSandbox AccountSteps AccountSubmitFacts AccountRecoveryFacts AccountLifetime Sql Journal.

Section journal.
Context `{UnicodeTables}.

(** ** Rows and mutations *)

Definition mutation_row (r : gmap string sqlval) (m : Mutation) : Prop :=
  storable_mutation m ∧ values mutationColumns r = mutationInsertArguments m.

(** The database holds the mutations [ms], each under its own key. *)
Record kept (d : database) (ms : list Mutation) : Prop := {
  kept_rows : Forall2 mutation_row (db_mutations d) ms;
  kept_ids : NoDup (mu_ID <$> ms);
  kept_keys : NoDup (mu_IdempotencyKey <$> ms);
}.

Lemma mutation_row_id r m : mutation_row r m → column "id" r = SText (mu_ID m).
Proof.
  intros [_ Hv]. eapply (values_column _ _ _ 0 _ _ Hv); [done|]. by unfold mutationInsertArguments.
Qed.

Lemma mutation_row_key r m : mutation_row r m → column "idempotency_key" r = SText (mu_IdempotencyKey m).
Proof.
  intros [_ Hv]. eapply (values_column _ _ _ 3 _ _ Hv); [done|].
  unfold mutationInsertArguments, mutationArguments. by destruct (stateColumns _) as [[]], (stateColumns _) as [[]].
Qed.

Lemma mutationColumns_updated : mutationColumns = "id" :: mutationUpdateSQL.
Proof. reflexivity. Qed.

Lemma mutationColumns_NoDup : NoDup mutationColumns.
Proof. by apply (bool_decide_unpack _); vm_compute. Qed.

Lemma length_arguments m : length mutationUpdateSQL = length (removelast (mutationArguments m)).
Proof. unfold mutationArguments. by destruct (stateColumns _) as [[]], (stateColumns _) as [[]]. Qed.

(** The row of an insert, and a row after an update. *)
Lemma inserted_row m : storable_mutation m →
  mutation_row (row_of mutationColumns (mutationInsertArguments m) ∪ ∅) m.
Proof.
  intros Hm. split; [done|]. apply values_row_of; [apply mutationColumns_NoDup|].
  rewrite mutationColumns_updated. cbn. f_equal. apply length_arguments.
Qed.

Lemma updated_row r m : storable_mutation m → column "id" r = SText (mu_ID m) →
  mutation_row (row_of mutationUpdateSQL (removelast (mutationArguments m)) ∪ r) m.
Proof.
  intros Hm Hid. split; [done|]. rewrite mutationColumns_updated. unfold mutationInsertArguments.
  pose proof mutationColumns_NoDup as Hnd. rewrite mutationColumns_updated in Hnd.
  apply NoDup_cons in Hnd as [Hnot Hnd].
  cbn [values fmap list_fmap]. f_equal; [by rewrite column_unassigned|].
  apply values_row_of; [done|apply length_arguments].
Qed.

(** ** Looking up *)

Definition find_key (key : string) (ms : list Mutation) : option Mutation :=
  head (filter (λ m, mu_IdempotencyKey m = key) ms).

Lemma find_row d ms key :
  kept d ms → getMutationByIdempotency d key
  = match find_key key ms with Some m => Ok m | None => Err NoRows end.
Proof.
  intros [Hrows _ _]. unfold getMutationByIdempotency, select, find_key. rewrite sort_slice_unordered.
  pose proof (Forall2_filter mutation_row (λ r, where_eq "idempotency_key" (SText key) r = true)
    (λ m, mu_IdempotencyKey m = key) _ _ Hrows) as Hf.
  destruct Hf as [|r m rows ms' Hr _]; [|done|].
  - intros r m Hr. unfold where_eq. rewrite (mutation_row_key r m Hr), andb_true_iff, !bool_decide_eq_true.
    naive_solver.
  - cbn [fmap list_fmap scan_row head]. destruct Hr as [Hm ->]. by apply scanMutation_arguments.
Qed.

Lemma find_key_Some key ms m : find_key key ms = Some m → m ∈ ms ∧ mu_IdempotencyKey m = key.
Proof.
  unfold find_key. intros Hh. apply head_Some_elem_of in Hh. by apply list_elem_of_filter in Hh as [? ?].
Qed.

Lemma find_key_unique key ms m :
  NoDup (mu_IdempotencyKey <$> ms) → m ∈ ms → mu_IdempotencyKey m = key → find_key key ms = Some m.
Proof.
  intros Hnd Hm Hk. destruct (find_key key ms) as [m'|] eqn:E.
  - apply find_key_Some in E as [Hm' Hk'].
    apply list_elem_of_lookup in Hm as [i Hi], Hm' as [j Hj].
    assert (i = j) as ->.
    { eapply (NoDup_lookup (mu_IdempotencyKey <$> ms)); [done| |];
        rewrite list_lookup_fmap, ?Hi, ?Hj; cbn; by rewrite ?Hk, ?Hk'. }
    congruence.
  - unfold find_key in E. destruct (filter _ ms) as [|x l] eqn:Ef; [|done].
    exfalso. apply (not_elem_of_nil m). rewrite <-Ef. by apply list_elem_of_filter.
Qed.

(** ** What the statements make of the mutations *)

Lemma where_eq_text c s r : where_eq c (SText s) r = true ↔ column c r = SText s.
Proof. unfold where_eq. rewrite andb_true_iff, !bool_decide_eq_true. naive_solver. Qed.

Lemma taken_column c s t : taken c (SText s) t = true ↔ ∃ r, r ∈ t ∧ column c r = SText s.
Proof.
  unfold taken. rewrite existsb_exists. split; intros (r & Hr & Hc); exists r;
    (split; [by apply list_elem_of_In|by apply where_eq_text]).
Qed.

(** A key is taken in the table when a mutation has it. *)
Lemma taken_mutation c (field : Mutation → string) t ms s :
  (∀ r m, mutation_row r m → column c r = SText (field m)) →
  Forall2 mutation_row t ms → taken c (SText s) t = true ↔ s ∈ field <$> ms.
Proof.
  intros Hc Ht. rewrite taken_column, list_elem_of_fmap. split.
  - intros (r & [i Hi]%list_elem_of_lookup & Hr).
    destruct (Forall2_lookup_l _ _ _ _ _ Ht Hi) as (m & Hm & Hrm). exists m.
    split; [|by eapply list_elem_of_lookup_2]. rewrite (Hc r m Hrm) in Hr. congruence.
  - intros (m & -> & [i Hi]%list_elem_of_lookup).
    destruct (Forall2_lookup_r _ _ _ _ _ Ht Hi) as (r & Hr & Hrm). exists r.
    split; [by eapply list_elem_of_lookup_2|by apply Hc].
Qed.

(** [insertMutation] appends, or refuses a mutation whose identifier or key is known. *)
Lemma insertMutation_kept d ms m :
  kept d ms → storable_mutation m →
  if decide (mu_ID m ∈ mu_ID <$> ms ∨ mu_IdempotencyKey m ∈ mu_IdempotencyKey <$> ms)
  then insertMutation d m
       = Err (UniqueViolated (if decide (mu_ID m ∈ mu_ID <$> ms) then "id" else "idempotency_key"))
  else ∃ t, insertMutation d m = Ok (d <| db_mutations := t |>)
         ∧ kept (d <| db_mutations := t |>) (ms ++ [m]).
Proof.
  intros [Hrows Hids Hkeys] Hm. pose proof (inserted_row m Hm) as Hrow.
  pose proof (mutation_row_id _ _ Hrow) as Hid. pose proof (mutation_row_key _ _ Hrow) as Hkey.
  unfold insertMutation, insert_into. set (r := row_of _ _ ∪ ∅) in *.
  replace (length mutationColumns =? length (mutationInsertArguments m))%nat with true.
  2: { symmetry. apply Nat.eqb_eq. rewrite mutationColumns_updated. cbn. f_equal. apply length_arguments. }
  cbn [negb]. unfold mutationKeys. rewrite !filter_cons, filter_nil, Hid, Hkey.
  pose proof (taken_mutation "id" mu_ID _ ms (mu_ID m) mutation_row_id Hrows) as Ht1.
  pose proof (taken_mutation "idempotency_key" mu_IdempotencyKey _ ms (mu_IdempotencyKey m)
    mutation_row_key Hrows) as Ht2.
  destruct (decide (_ ∨ _)) as [Hdup|Hnew].
  - destruct (decide (taken "id" _ _ = true)); [by rewrite decide_True by naive_solver|].
    destruct (decide (taken "idempotency_key" _ _ = true)); [by rewrite decide_False by naive_solver|].
    naive_solver.
  - rewrite !decide_False by naive_solver. clearbody r. eexists. split; [done|]. split; read_fields.
    + apply Forall2_app; [done|]. by constructor.
    + rewrite fmap_app. apply NoDup_app. split_and!; [done|set_solver|apply NoDup_singleton].
    + rewrite fmap_app. apply NoDup_app. split_and!; [done|set_solver|apply NoDup_singleton].
Qed.

(** The mutations with the version of one of them replaced. *)
Definition replaced (m : Mutation) (ms : list Mutation) : list Mutation :=
  (λ m0, if bool_decide (mu_ID m0 = mu_ID m) then m else m0) <$> ms.

Definition same_keys (m : Mutation) (ms : list Mutation) : Prop :=
  ∀ m0, m0 ∈ ms → mu_ID m0 = mu_ID m → mu_IdempotencyKey m0 = mu_IdempotencyKey m.

Lemma replaced_ids m ms : mu_ID <$> replaced m ms = mu_ID <$> ms.
Proof.
  unfold replaced. rewrite <-list_fmap_compose. apply list_fmap_ext. intros i m0 _. cbn.
  by case_bool_decide.
Qed.
Lemma replaced_keys m ms : same_keys m ms → mu_IdempotencyKey <$> replaced m ms = mu_IdempotencyKey <$> ms.
Proof.
  intros Hs. unfold replaced. rewrite <-list_fmap_compose. apply list_fmap_ext. intros i m0 Hi. cbn.
  case_bool_decide; [|done]. symmetry. apply Hs; [by eapply list_elem_of_lookup_2|done].
Qed.

Lemma updateMutation_kept d ms m :
  kept d ms → storable_mutation m → mu_ID m ∈ mu_ID <$> ms → same_keys m ms →
  ∃ t, updateMutation d m = Ok (d <| db_mutations := t |>)
    ∧ kept (d <| db_mutations := t |>) (replaced m ms).
Proof.
  intros [Hrows Hids Hkeys] Hm Hin Hsame. unfold updateMutation.
  set (id := where_eq "id" (SText (mu_ID m))).
  assert (∀ r m0, mutation_row r m0 → id r = bool_decide (mu_ID m0 = mu_ID m)) as Hcond.
  { intros r m0 Hr. unfold id. apply Bool.eq_true_iff_eq.
    rewrite where_eq_text, bool_decide_eq_true, (mutation_row_id r m0 Hr). split; [by intros [= ?]|by intros ->]. }
  replace (taken "idempotency_key" _ _) with false.
  2: { symmetry. apply not_true_is_false.
       rewrite (taken_mutation _ mu_IdempotencyKey _ (filter (λ m0, mu_ID m0 ≠ mu_ID m) ms) _ mutation_row_key).
       - rewrite list_elem_of_fmap. intros (m1 & Hk & [Hne Hm1]%list_elem_of_filter).
         apply list_elem_of_fmap in Hin as (m0 & E0 & Hm0). apply Hne. rewrite E0. f_equal.
         pose proof (Hsame m0 Hm0 ltac:(done)) as Hk0.
         pose proof (find_key_unique (mu_IdempotencyKey m) ms m0 Hkeys Hm0 Hk0).
         pose proof (find_key_unique (mu_IdempotencyKey m) ms m1 Hkeys Hm1 ltac:(done)). congruence.
       - apply (Forall2_filter mutation_row); [done|]. intros r m0 Hr. rewrite (Hcond r m0 Hr).
         by rewrite bool_decide_eq_false. }
  rewrite andb_false_r. eexists. split; [done|]. split; read_fields.
  - unfold update_rows, replaced. apply Forall2_fmap. eapply Forall2_impl; [exact Hrows|].
    intros r m0 Hr. cbn. rewrite (Hcond r m0 Hr). case_bool_decide as E; [|done].
    apply updated_row; [done|]. rewrite (mutation_row_id r m0 Hr). congruence.
  - by rewrite replaced_ids.
  - by rewrite replaced_keys.
Qed.

Lemma find_key_replaced key ms m m0 :
  NoDup (mu_IdempotencyKey <$> ms) → same_keys m ms → find_key key ms = Some m0 → mu_ID m0 = mu_ID m →
  find_key key (replaced m ms) = Some m.
Proof.
  intros Hnd Hs [Hm0 Hk]%find_key_Some Hid. apply find_key_unique.
  - by rewrite replaced_keys.
  - unfold replaced. apply list_elem_of_fmap. exists m0. by rewrite bool_decide_true.
  - rewrite <-Hk. symmetry. by apply Hs.
Qed.

(** ** The methods on the mutations *)

Lemma find_method d ms key :
  kept d ms → Store.FindAccountMutationByIdempotency key d = (Ok (find_key key ms), d).
Proof.
  intros Hk. unfold Store.FindAccountMutationByIdempotency. rewrite (find_row d ms key Hk).
  by destruct (find_key key ms).
Qed.

Lemma insertOverride_mutations d o d' : insertOverride d o = Ok d' → db_mutations d' = db_mutations d.
Proof. unfold insertOverride. intros (t & _ & [= <-])%bind_ok. by read_fields. Qed.

Lemma kept_same_rows d d' ms : db_mutations d' = db_mutations d → kept d ms → kept d' ms.
Proof. intros E [Hrows Hids Hkeys]. split; [by rewrite E|done..]. Qed.

(** A preparation answers with the mutation of its key, or inserts, or fails and leaves
    everything, the override included, as it was. *)
Lemma prepare_method d ms m o :
  kept d ms → storable_mutation m →
  let '(r, d') := Store.PrepareAccountMutation m o d in
  match find_key (mu_IdempotencyKey m) ms with
  | Some stored => r = Ok (stored, true) ∧ d' = d
  | None => (∃ e, r = Err e) ∧ d' = d
      ∨ r = Ok (m, false) ∧ kept d' (ms ++ [m])
        ∧ match o with None => db_overrides d' = db_overrides d
          | Some o => ∃ d1, insertOverride d o = Ok d1 ∧ db_overrides d' = db_overrides d1 end
  end.
Proof.
  intros Hk Hm. unfold Store.PrepareAccountMutation, transaction. rewrite (find_row d ms _ Hk).
  destruct (find_key (mu_IdempotencyKey m) ms) as [stored|] eqn:Ef; [done|].
  destruct (match o with None => Ok d | Some override => insertOverride d override end) as [d1|e] eqn:Eo;
    [|left; split; [by eexists|done]]. cbn [mbind result_bind].
  assert (db_mutations d1 = db_mutations d) as Em
    by (destruct o; [by eapply insertOverride_mutations|by injection Eo as ->]).
  pose proof (kept_same_rows d d1 ms Em Hk) as Hk1.
  pose proof (insertMutation_kept d1 ms m Hk1 Hm) as Hins. destruct (decide _) as [Hdup|Hnew].
  - rewrite Hins, (find_row d1 ms _ Hk1), Ef. left. split; [by eexists|done].
  - destruct Hins as (t & -> & Hkt). right. split; [done|]. split; [done|].
    destruct o; [exists d1; split; [done|]|injection Eo as ->]; by read_fields.
Qed.

(** C16: preparing a mutation is all or nothing. A known key is answered with the mutation
    on record, as a replay, and the database is as it was, whatever the new mutation and
    override say. For a new key, the preparation is refused, leaving neither the override
    nor the mutation, when the override's identifier or intent is known, or the
    mutation's identifier; otherwise both are on record. *)
Theorem PrepareAccountMutation_atomic d ms m o :
  kept d ms → storable_mutation m →
  match find_key (mu_IdempotencyKey m) ms with
  | Some stored => Store.PrepareAccountMutation m o d = (Ok (stored, true), d)
  | None =>
      match match o with None => Ok d | Some override => insertOverride d override end with
      | Err refused => Store.PrepareAccountMutation m o d = (Err refused, d)
      | Ok d1 =>
          if decide (mu_ID m ∈ mu_ID <$> ms)
          then Store.PrepareAccountMutation m o d = (Err (UniqueViolated "id"), d)
          else ∃ d', Store.PrepareAccountMutation m o d = (Ok (m, false), d')
                 ∧ kept d' (ms ++ [m]) ∧ db_overrides d' = db_overrides d1
                 ∧ db_controls d' = db_controls d ∧ db_events d' = db_events d
      end
  end.
Proof.
  intros Hk Hm. unfold Store.PrepareAccountMutation, transaction. rewrite (find_row d ms _ Hk).
  destruct (find_key (mu_IdempotencyKey m) ms) as [stored|] eqn:Ef; [done|].
  destruct (match o with None => Ok d | Some override => insertOverride d override end) as [d1|e] eqn:Eo; [|done]. cbn [mbind result_bind].
  assert (db_mutations d1 = db_mutations d ∧ db_controls d1 = db_controls d ∧ db_events d1 = db_events d)
    as (Em & Ec & Ee).
  { destruct o as [o|]; [|by injection Eo as ->]. unfold insertOverride in Eo.
    apply bind_ok in Eo as (t & _ & [= <-]). by read_fields. }
  pose proof (kept_same_rows d d1 ms Em Hk) as Hk1.
  assert (mu_IdempotencyKey m ∉ mu_IdempotencyKey <$> ms) as Hkey.
  { intros (m0 & E0 & Hm0)%list_elem_of_fmap.
    by rewrite (find_key_unique _ ms m0 (kept_keys _ _ Hk) Hm0 (eq_sym E0)) in Ef. }
  pose proof (insertMutation_kept d1 ms m Hk1 Hm) as Hins.
  destruct (decide (mu_ID m ∈ mu_ID <$> ms)) as [Hid|Hid].
  - rewrite decide_True in Hins by by left. rewrite Hins. by rewrite (find_row d1 ms _ Hk1), Ef.
  - rewrite decide_False in Hins by (intros [?|?]; done). destruct Hins as (t & -> & Hkt). eexists.
    split; [done|]. split; [done|]. by read_fields.
Qed.

Lemma find_key_app key ms m :
  find_key key ms = None → mu_IdempotencyKey m = key → find_key key (ms ++ [m]) = Some m.
Proof.
  unfold find_key. intros Hnone Hk. rewrite filter_app. destruct (filter _ ms); [|done].
  cbn. by rewrite decide_True.
Qed.

Lemma insertEvent_ok d e : ∃ t, insertEvent d e = Ok (d <| db_events := t |>).
Proof. by eexists. Qed.

(** A finalization does nothing else to the mutations than an update. *)
Lemma finalize_method clock d ms f :
  kept d ms → storable_mutation (fn_Mutation f) →
  mu_ID (fn_Mutation f) ∈ mu_ID <$> ms → same_keys (fn_Mutation f) ms →
  let '(r, d') := Store.FinalizeAccountMutation clock f d in
  r = Ok () ∧ kept d' (replaced (fn_Mutation f) ms).
Proof.
  intros Hk Hm Hin Hsame. unfold Store.FinalizeAccountMutation, transaction.
  destruct (updateMutation_kept d ms _ Hk Hm Hin Hsame) as (t & -> & Hkt). cbn [mbind result_bind].
  set (d0 := d <| db_mutations := t |>) in *. clearbody d0. clear t.
  assert (∀ d1 cols args cond, kept d1 (replaced (fn_Mutation f) ms) →
    kept (updateOverrides d1 cols args cond) (replaced (fn_Mutation f) ms)) as Hov.
  { intros d1 cols args cond. apply kept_same_rows. unfold updateOverrides. by read_fields. }
  set (d1 := if bool_decide (mu_OverrideID _ = "") then d0 else _).
  assert (kept d1 (replaced (fn_Mutation f) ms)) as Hk1 by (unfold d1; case_bool_decide; auto). clearbody d1.
  set (d2 := if bool_decide (fn_RevokeOverrideID _ = "") then d1 else _).
  assert (kept d2 (replaced (fn_Mutation f) ms)) as Hk2 by (unfold d2; case_bool_decide; auto). clearbody d2.
  assert (∀ d1 e, kept d1 (replaced (fn_Mutation f) ms) →
    ∃ d2, insertEvent d1 e = Ok d2 ∧ kept d2 (replaced (fn_Mutation f) ms)) as Hev.
  { intros d3 e Hk3. destruct (insertEvent_ok d3 e) as [t ->]. eexists. split; [done|].
    eapply kept_same_rows; [|done]. by read_fields. }
  assert (∃ d3, (if bool_decide (ev_Type (fn_Event f) = "") then Ok d2 else insertEvent d2 (fn_Event f)) = Ok d3
    ∧ kept d3 (replaced (fn_Mutation f) ms)) as (d3 & -> & Hk3) by (case_bool_decide; eauto).
  cbn [mbind result_bind].
  assert (∃ c d4, match fn_FlapPolicy f with
      | Some flap => if bool_decide (ev_Type (fn_Event f) = "automatic_pause")
                     then Store.applyFlapPolicyInMutation d3 (fn_Control f) (fn_Event f) flap
                     else Ok (fn_Control f, d3)
      | None => Ok (fn_Control f, d3) end = Ok (c, d4)
    ∧ kept d4 (replaced (fn_Mutation f) ms)) as (c & d4 & -> & Hk4).
  { destruct (fn_FlapPolicy f) as [flap|]; [|by eauto]. case_bool_decide; [|by eauto].
    unfold Store.applyFlapPolicyInMutation. destruct (_ || _); [by eauto|].
    match goal with |- context [insertEvent d3 ?e] => destruct (Hev d3 e Hk3) as (d5 & -> & Hk5) end.
    cbn. by eauto. }
  cbn [mbind result_bind]. split; [done|]. destruct (0 <? ct_AccountID c)%Z; [|done].
  eapply kept_same_rows; [|done]. unfold upsertControl. by read_fields.
Qed.

(** ** Reading back *)

Lemma find_key_other key ms m : mu_IdempotencyKey m ≠ key → find_key key (ms ++ [m]) = find_key key ms.
Proof.
  intros Hne. unfold find_key. rewrite filter_app, filter_cons, decide_False, filter_nil, app_nil_r by done. done.
Qed.

Lemma find_key_replaced_other key ms m :
  same_keys m ms → mu_IdempotencyKey m ≠ key → find_key key (replaced m ms) = find_key key ms.
Proof.
  intros Hs Hne. unfold find_key, replaced. f_equal. induction ms as [|m0 ms IH]; [done|].
  rewrite fmap_cons, !filter_cons, IH by (intros m1 Hm1; apply Hs; by right). case_bool_decide as E; [|done].
  by rewrite !decide_False by (rewrite ?(Hs m0 (list_elem_of_here _ _) E); done).
Qed.

(** C15: what the store is given of a mutation it gives back, field for field: a mutation
    prepared under a new key and identifier is found under its key as it was, after an
    update the new version is, with the columns of the insert, the update and the query
    listed in three orders; and no other key is affected. *)
Theorem mutation_read_back d ms m m' key :
  kept d ms → storable_mutation m → storable_mutation m' →
  find_key (mu_IdempotencyKey m) ms = None → mu_ID m ∉ mu_ID <$> ms →
  mu_ID m' = mu_ID m → mu_IdempotencyKey m' = mu_IdempotencyKey m →
  let d1 := (Store.PrepareAccountMutation m None d).2 in
  let d2 := (Store.UpdateAccountMutation m' d1).2 in
  Store.FindAccountMutationByIdempotency key d1
  = (if decide (key = mu_IdempotencyKey m) then Ok (Some m) else (Store.FindAccountMutationByIdempotency key d).1, d1)
  ∧ Store.FindAccountMutationByIdempotency key d2
  = (if decide (key = mu_IdempotencyKey m) then Ok (Some m') else (Store.FindAccountMutationByIdempotency key d).1, d2).
Proof.
  intros Hk Hm Hm' Hnew Hid Hid' Hkey'. pose proof (prepare_method d ms m None Hk Hm) as Hp.
  destruct (Store.PrepareAccountMutation m None d) as [r d1] eqn:E1. rewrite Hnew in Hp. cbn [snd].
  assert (kept d1 (ms ++ [m])) as Hk1.
  { destruct Hp as [[[e ->] ->]|(_ & Hk1 & _)]; [exfalso|done]. revert E1.
    unfold Store.PrepareAccountMutation, transaction. rewrite (find_row d ms _ Hk), Hnew. cbn [mbind result_bind].
    pose proof (insertMutation_kept d ms m Hk Hm) as Hins. rewrite decide_False in Hins.
    { by destruct Hins as (t & -> & _). }
    intros [?|(m0 & E0 & Hm0)%list_elem_of_fmap]; [done|].
    by rewrite (find_key_unique _ ms m0 (kept_keys _ _ Hk) Hm0 (eq_sym E0)) in Hnew. }
  assert (find_key (mu_IdempotencyKey m) (ms ++ [m]) = Some m) as Hf by by apply find_key_app.
  assert (same_keys m' (ms ++ [m])) as Hsame.
  { intros m0 [Hm0|[->|[]%not_elem_of_nil]%elem_of_cons]%elem_of_app E; [|congruence].
    exfalso. apply Hid. rewrite <-Hid', <-E. apply list_elem_of_fmap. by exists m0. }
  destruct (updateMutation_kept d1 (ms ++ [m]) m' Hk1 Hm') as (t & Hup & Hk2); [|done|].
  { rewrite Hid', fmap_app. apply elem_of_app. right. by apply list_elem_of_singleton. }
  set (d2 := d1 <| db_mutations := t |>) in *. clearbody d2. clear t.
  unfold Store.UpdateAccountMutation, transaction. rewrite Hup. cbn [mbind result_bind mret result_ret snd].
  rewrite (find_method _ _ key Hk), (find_method _ _ key Hk1), (find_method _ _ key Hk2). cbn [fst].
  destruct (decide (key = mu_IdempotencyKey m)) as [->|Hne].
  - rewrite Hf. split; [done|]. do 2 f_equal.
    by apply find_key_replaced with m; [apply Hk1|done|done|].
  - by rewrite find_key_replaced_other, find_key_other by (done || congruence).
Qed.
End journal.

(** ** Witnesses *)

Import Samples.

(** The mutation of the sample pause, as prepared and as it was carried out. *)
Definition carried_out : Mutation :=
  pending_mutation <| mu_Status := StatusApplied |> <| mu_AttemptCount := 1%Z |>
    <| mu_Before := Some (mkAccountState true (Some 10%Z)) |> <| mu_After := Some (mkAccountState false (Some 10%Z)) |>
    <| mu_CompletedAt := Some (midnight + minute)%Z |>.

Definition empty_database : database := mkDatabase [] [] [] [] [].
Lemma empty_kept : kept empty_database [].
Proof. split; constructor. Qed.

#[export] Instance storable_mutation_dec m : Decision (storable_mutation m).
Proof.
  destruct (decide (Operation_Valid (mu_Operation m) = true ∧ Producer_Valid (mu_Producer m) = true
    ∧ Authority_Valid (mu_Authority m) = true ∧ Producer_Valid (mu_WinningProducer m) = true
    ∧ Authority_Valid (mu_WinningAuthority m) = true ∧ Forall valid_utf8 (mu_WinningEvidenceRefs m)
    ∧ four_digit_year (mu_WinningCreatedAt m) ∧ four_digit_years (mu_WinningExpiresAt m)
    ∧ four_digit_years (mu_ExpiresAt m) ∧ four_digit_year (mu_CreatedAt m) ∧ four_digit_year (mu_UpdatedAt m)
    ∧ four_digit_years (mu_CompletedAt m))) as [Hd|Hd]; [left|right].
  - split; apply Hd.
  - intros []. by apply Hd.
Defined.

Lemma PrepareAccountMutation_atomic_witness :
  is_ok (Store.PrepareAccountMutation pending_mutation None empty_database).1 = true
  ∧ ∃ d', Store.PrepareAccountMutation pending_mutation None empty_database = (Ok (pending_mutation, false), d')
      ∧ kept d' [pending_mutation] ∧ db_overrides d' = [] ∧ db_controls d' = [] ∧ db_events d' = [].
Proof.
  split; [vm_compute; reflexivity|].
  exact (PrepareAccountMutation_atomic empty_database [] pending_mutation None empty_kept
    (bool_decide_unpack (storable_mutation pending_mutation) ltac:(vm_compute; exact I))).
Defined.

Lemma mutation_read_back_witness :
  let d1 := (Store.PrepareAccountMutation pending_mutation None empty_database).2 in
  let d2 := (Store.UpdateAccountMutation carried_out d1).2 in
  Store.FindAccountMutationByIdempotency (mu_IdempotencyKey pending_mutation) d1 = (Ok (Some pending_mutation), d1)
  ∧ Store.FindAccountMutationByIdempotency (mu_IdempotencyKey pending_mutation) d2 = (Ok (Some carried_out), d2).
Proof.
  refine (mutation_read_back empty_database [] pending_mutation carried_out (mu_IdempotencyKey pending_mutation)
    empty_kept _ _ _ _ _ _).
  - apply (bool_decide_unpack _). vm_compute. exact I.
  - apply (bool_decide_unpack _). vm_compute. exact I.
  - reflexivity.
  - apply not_elem_of_nil.
  - reflexivity.
  - reflexivity.
Defined.
