(* ===== verification/JournalRefinement.v ===== *)
(** * The store implements the journal

    Runs of the account service against the tables of [Journal]: every exchange with the
    repository is one of its methods, which the engine may refuse. [AccountLifetime] is
    stated over an abstract journal that keeps what it acknowledged; here the tables are
    shown to be one, so what it proves of the writes holds over the store. *)

From S2P Require Import Prelude GoStd TimeText JsonText Intent Model AccountTypes AccountQueue Requests Effects AccountGuard AccountProjection AccountService AccountRecovery AccountProtocol AccountSandbox AccountSteps AccountSubmitFacts AccountRecoveryFacts AccountLifetime Sql Journal JournalFacts.

Section refinement.
Context `{UnicodeTables}.

(** ** Exchanges answered by the store *)

(** An error of the store as the service sees it. *)
Definition as_error (e : sql_error) : error :=
  External (mkExternal
    match e with
    | NoRows => "sql: no rows in result set"
    | UniqueViolated c => "UNIQUE constraint failed: " +:+ c
    | ArgumentCount => "not enough args to execute query"
    | ScanFailed => "sql: Scan error"
    | EngineError text => text
    end false false false false).
Definition as_reply {A} (r : result sql_error A) : result error A :=
  match r with Ok a => Ok a | Err e => Err (as_error e) end.

Definition method {A} (op : database → result sql_error A * database) (d : database)
    (r : result error A) (d' : database) : Prop :=
  ∃ r0, attempted op d r0 d' ∧ r = as_reply r0.

(** An exchange and the database before and after it. The locks of the balance and cost
    controllers and the freeze states are in other tables. *)
Definition answered (d : database) (x : exchange) (d' : database) : Prop :=
  match x with
  | Exchange c r =>
      match c in Call R return R → Prop with
      | GetControl id => λ r, method (Store.GetControl id) d r d'
      | ListActiveAccountOverrides id op now => λ r, method (Store.ListActiveAccountOverrides id op now) d r d'
      | FindActiveAccountOverride id op authority now => λ r,
          method (Store.FindActiveAccountOverride id op authority now) d r d'
      | GetAccountOverrideRevision id op now => λ r, method (Store.GetAccountOverrideRevision id op now) d r d'
      | FindAccountMutationByIdempotency key => λ r, method (Store.FindAccountMutationByIdempotency key) d r d'
      | PrepareAccountMutation m o => λ r, method (Store.PrepareAccountMutation m o) d r d'
      | UpdateAccountMutation m => λ r, method (Store.UpdateAccountMutation m) d r d'
      | FinalizeAccountMutation f => λ r, ∃ clock, method (Store.FinalizeAccountMutation clock f) d r d'
      | ListPendingAccountMutations limit => λ r, method (Store.ListPendingAccountMutations limit) d r d'
      | _ => λ _, d' = d
      end r
  end.

Fixpoint served (d : database) (tr : list exchange) (d' : database) : Prop :=
  match tr with
  | [] => d' = d
  | x :: tr => ∃ d1, answered d x d1 ∧ served d1 tr d'
  end.

(** ** What concerns one mutation *)

(** The exchange is about the mutation of the key, and gives the store what its columns
    can hold. *)
Definition about (key : string) (x : exchange) : Prop :=
  match x with
  | Exchange c _ =>
      match c with
      | FindAccountMutationByIdempotency k => k = key
      | PrepareAccountMutation m _ => mu_IdempotencyKey m = key ∧ storable_mutation m
      | UpdateAccountMutation m => storable_mutation m
      | FinalizeAccountMutation f => storable_mutation (fn_Mutation f)
      | _ => True
      end
  end.

(** The record under the key is a version of the mutation the run is carrying out. *)
Definition linked (key : string) (w : journal_watch) (ms : list Mutation) : Prop :=
  match jw_journal w with
  | None => True
  | Some j => ∃ m, find_key key ms = Some m ∧ core m = core j
  end.

Lemma core_key m m' : core m = core m' → mu_IdempotencyKey m = mu_IdempotencyKey m' ∧ mu_ID m = mu_ID m'.
Proof.
  intros E. assert (∀ m, mu_IdempotencyKey (core m) = mu_IdempotencyKey m ∧ mu_ID (core m) = mu_ID m) as Hc
    by by intros [].
  destruct (Hc m) as [<- <-], (Hc m') as [<- <-]. by rewrite E.
Qed.

(** A later version of the mutation on record replaces it. *)
Lemma linked_replaces key ms m0 m :
  NoDup (mu_ID <$> ms) → NoDup (mu_IdempotencyKey <$> ms) →
  find_key key ms = Some m0 → core m0 = core m →
  mu_ID m ∈ mu_ID <$> ms ∧ same_keys m ms ∧ find_key key (replaced m ms) = Some m.
Proof.
  intros Hids Hkeys Hf [Hk Hid]%core_key. pose proof (find_key_Some _ _ _ Hf) as [Hin _].
  assert (same_keys m ms) as Hsame.
  { intros m1 Hm1 E. apply list_elem_of_lookup in Hin as [i Hi], Hm1 as [k Hm1].
    assert (i = k) as ->.
    { eapply (NoDup_lookup (mu_ID <$> ms)); [done| |];
        rewrite list_lookup_fmap, ?Hi, ?Hm1; cbn; by rewrite ?E, ?Hid. }
    congruence. }
  split; [|split; [done|]].
  - rewrite <-Hid. apply list_elem_of_fmap. by exists m0.
  - by apply find_key_replaced with m0.
Qed.

(** ** Methods that leave the mutations alone *)

Lemma expire_mutations id op now d :
  db_mutations (Store.expireAccountOverrides id op now d) = db_mutations d.
Proof. unfold Store.expireAccountOverrides, updateOverrides. by read_fields. Qed.

Lemma attempted_keeps {A} (op : database → result sql_error A * database) d r d' ms :
  db_mutations (op d).2 = db_mutations d → kept d ms → method op d r d' → kept d' ms.
Proof.
  intros Hop Hk (r0 & [E|(text & _ & [->| ->])] & _); [|done|].
  - apply kept_same_rows with d; [|done]. by rewrite <-Hop, <-E.
  - by apply kept_same_rows with d.
Qed.

(** The reply of a method that does not fail, and what an error may hide. *)
Lemma method_ok {A} (op : database → result sql_error A * database) d r d' a d1 :
  op d = (Ok a, d1) → method op d r d' →
  r = Ok a ∧ d' = d1 ∨ (∃ e, r = Err e) ∧ (d' = d ∨ d' = d1).
Proof.
  intros Hop (r0 & [E|(text & -> & Hd)] & ->); [left|right].
  - rewrite Hop in E. by injection E as -> ->.
  - rewrite Hop in Hd. split; [by eexists|done].
Qed.

(** ** One exchange *)

(** What an exchange makes of the mutations: a state of the abstract journal follows. *)
Definition follows (key : string) (w : journal_watch) (ms : list Mutation) (x : exchange) (d' : database) : Prop :=
  ∃ ms', kept d' ms' ∧ stores (find_key key ms) x (find_key key ms')
    ∧ match x with @Exchange _ R c r => linked key (observed w R c r) ms' end.

Lemma find_follows key w d ms r d' :
  kept d ms → linked key w ms → method (Store.FindAccountMutationByIdempotency key) d r d' →
  follows key w ms (Exchange (FindAccountMutationByIdempotency key) r) d'.
Proof.
  intros Hk Hl Hm. destruct (method_ok _ _ _ _ _ _ (find_method d ms key Hk) Hm) as [[-> ->]|[[e ->] [->| ->]]].
  - exists ms. split; [done|]. split; [done|]. unfold linked. cbn [observed]. read_fields.
    destruct (find_key key ms) as [m|]; [by exists m|done].
  - by exists ms.
  - by exists ms.
Qed.

Lemma prepare_follows key w d ms m o r d' :
  kept d ms → jw_journal w = None → storable_mutation m → mu_IdempotencyKey m = key →
  method (Store.PrepareAccountMutation m o) d r d' →
  follows key w ms (Exchange (PrepareAccountMutation m o) r) d'.
Proof.
  intros Hk Hw Hm <- Hmeth. pose proof (prepare_method d ms m o Hk Hm) as Hp.
  assert (linked (mu_IdempotencyKey m) w ms) as Hl by (unfold linked; by rewrite Hw).
  assert (∀ e d', kept d' ms → follows (mu_IdempotencyKey m) w ms (Exchange (PrepareAccountMutation m o) (Err e)) d')
    as Hsame by (intros; exists ms; split_and!; [done|by left|done]).
  destruct (Store.PrepareAccountMutation m o d) as [r0 d0] eqn:Eop.
  destruct (find_key _ ms) as [stored|] eqn:Ef.
  - destruct Hp as [-> ->]. destruct (method_ok _ _ _ _ _ _ Eop Hmeth) as [[-> ->]|[[e ->] [->| ->]]]; auto.
    exists ms. by rewrite Ef.
  - destruct Hp as [[[e ->] ->]|(-> & Hk0 & _)].
    { destruct Hmeth as (r1 & [E|(text & -> & [->| ->])] & ->); [|by apply Hsame|rewrite Eop; by apply Hsame].
      rewrite Eop in E. injection E as -> ->. by apply Hsame. }
    assert (find_key (mu_IdempotencyKey m) (ms ++ [m]) = Some m) as Hf by by apply find_key_app.
    destruct (method_ok _ _ _ _ _ _ Eop Hmeth) as [[-> ->]|[[e ->] [->| ->]]]; [|auto|].
    + exists (ms ++ [m]). rewrite Ef, Hf. split_and!; [done|done|]. unfold linked. cbn [observed]. read_fields.
      by exists m.
    + exists (ms ++ [m]). rewrite Ef, Hf. split_and!; [done|by right|]. unfold linked. cbn [observed]. by rewrite Hw.
Qed.

(** A later version of the mutation on record, which the watch follows or not. *)
Lemma replace_follows key w w' ms m j R (c : Call R) r d' :
  linked key w ms → jw_journal w = Some j → core j = core m → NoDup (mu_ID <$> ms) → NoDup (mu_IdempotencyKey <$> ms) →
  kept d' (replaced m ms) → stores (find_key key ms) (Exchange c r) (Some m) →
  observed w R c r = w' → jw_journal w' = Some m ∨ jw_journal w' = Some j →
  follows key w ms (Exchange c r) d'.
Proof.
  intros Hl Hj Hc Hids Hkeys Hk Hst <- Hw. unfold linked in Hl. rewrite Hj in Hl. destruct Hl as (m0 & Hf & Hc0).
  destruct (linked_replaces key ms m0 m) as (_ & _ & Hf'); [done..|congruence|].
  exists (replaced m ms). rewrite Hf'. split_and!; [done..|]. unfold linked.
  destruct Hw as [-> | ->]; exists m; split; congruence.
Qed.

Lemma update_follows key w d ms m r d' :
  kept d ms → linked key w ms → permits w _ (UpdateAccountMutation m) → storable_mutation m →
  method (Store.UpdateAccountMutation m) d r d' →
  follows key w ms (Exchange (UpdateAccountMutation m) r) d'.
Proof.
  intros Hk Hl [_ (j & Hj & Hc & _)] Hm Hmeth. pose proof Hk as [_ Hids Hkeys].
  pose proof Hl as Hl0. unfold linked in Hl0. rewrite Hj in Hl0. destruct Hl0 as (m0 & Hf & Hc0).
  destruct (linked_replaces key ms m0 m) as (Hin & Hsame & _); [done..|congruence|].
  destruct (updateMutation_kept d ms m Hk Hm Hin Hsame) as (t & Hup & Hkt).
  assert (Store.UpdateAccountMutation m d = (Ok (), d <| db_mutations := t |>)) as Eop
    by (unfold Store.UpdateAccountMutation, transaction; by rewrite Hup).
  destruct (method_ok _ _ _ _ _ _ Eop Hmeth) as [[-> ->]|[[e ->] [->| ->]]].
  - eapply replace_follows; [done..| |done|]; [done|]. cbn [observed]. read_fields. by left.
  - exists ms. split_and!; [done|by left|done].
  - eapply replace_follows; [done..| |done|]; [by right|by right].
Qed.

Lemma finalize_follows key w d ms f r d' :
  kept d ms → linked key w ms → permits w _ (FinalizeAccountMutation f) → storable_mutation (fn_Mutation f) →
  (∃ clock, method (Store.FinalizeAccountMutation clock f) d r d') →
  follows key w ms (Exchange (FinalizeAccountMutation f) r) d'.
Proof.
  intros Hk Hl [_ (j & Hj & Hc & _)] Hm [clock Hmeth]. pose proof Hk as [_ Hids Hkeys].
  pose proof Hl as Hl0. unfold linked in Hl0. rewrite Hj in Hl0. destruct Hl0 as (m0 & Hf & Hc0).
  destruct (linked_replaces key ms m0 (fn_Mutation f)) as (Hin & Hsame & _); [done..|congruence|].
  pose proof (finalize_method clock d ms f Hk Hm Hin Hsame) as Hop.
  destruct (Store.FinalizeAccountMutation clock f d) as [r0 d1] eqn:Eop. destruct Hop as [-> Hkt].
  destruct (method_ok _ _ _ _ _ _ Eop Hmeth) as [[-> ->]|[[e ->] [->| ->]]].
  - eapply replace_follows; [done..| |done|]; [done|]. cbn [observed]. read_fields. by right.
  - exists ms. split_and!; [done|by left|done].
  - eapply replace_follows; [done..| |done|]; [by right|by right].
Qed.

Lemma answered_follows key w d ms R (c : Call R) r d' :
  kept d ms → linked key w ms → permits w R c → answered d (Exchange c r) d' → about key (Exchange c r) →
  follows key w ms (Exchange c r) d'.
Proof.
  intros Hk Hl Hp Ha Hab.
  assert (∀ d', kept d' ms → stores (find_key key ms) (Exchange c r) (find_key key ms) →
    jw_journal (observed w R c r) = jw_journal w → follows key w ms (Exchange c r) d') as Hquiet.
  { intros d1 Hk1 Hst Hj. exists ms. split_and!; [done..|]. unfold linked. by rewrite Hj. }
  destruct c; try (apply Hquiet; [by rewrite Ha|done|by (cbn [observed]; try destruct r; read_fields)]).
  all: cbn [answered] in Ha; cbn [about] in Hab.
  - apply Hquiet; [by eapply attempted_keeps; [|exact Hk|exact Ha]|done|cbn [observed]; destruct r; by read_fields].
  - apply Hquiet; [|done|done]. eapply attempted_keeps; [|exact Hk|exact Ha]. apply expire_mutations.
  - apply Hquiet; [by eapply attempted_keeps; [|exact Hk|exact Ha]|done|done].
  - apply Hquiet; [|done|done]. eapply attempted_keeps; [|exact Hk|exact Ha]. apply expire_mutations.
  - subst. by eapply find_follows.
  - destruct Hab as [<- Hm]. destruct Hp as (_ & Hj & _). by eapply prepare_follows.
  - by eapply update_follows.
  - by eapply finalize_follows.
  - apply Hquiet; [by eapply attempted_keeps; [|exact Hk|exact Ha]|done|done].
Qed.

(** ** Runs *)

Lemma served_journaled key tr w d ms d' :
  kept d ms → linked key w ms → respects mutation_protocol w tr → Forall (about key) tr →
  served d tr d' → ∃ ms', kept d' ms' ∧ journaled (find_key key ms) tr (find_key key ms').
Proof.
  revert w d ms. induction tr as [|[R c r] tr IH]; intros w d ms Hk Hl.
  - intros _ _ ->. by exists ms.
  - intros [Hp Hr] [Hab Habs]%Forall_cons (d1 & Ha & Hs).
    destruct (answered_follows key w d ms R c r d1 Hk Hl Hp Ha Hab) as (ms1 & Hk1 & Hst & Hl1).
    destruct (IH _ d1 ms1 Hk1 Hl1 Hr Habs Hs) as (ms' & Hk' & Hj). exists ms'. split; [done|].
    by exists (find_key key ms1).
Qed.

(** The store holds mutations, each under a key of its own, and nothing else. *)
Definition holds_mutations (d : database) : Prop := ∃ ms, kept d ms.

(** What the store finds under a key. *)
Definition recorded (key : string) (d : database) : option Mutation :=
  match (Store.FindAccountMutationByIdempotency key d).1 with Ok m => m | Err _ => None end.

Lemma recorded_kept key d ms : kept d ms → recorded key d = find_key key ms.
Proof. intros Hk. unfold recorded. by rewrite (find_method d ms key Hk). Qed.

Lemma served_run key tr d d' :
  holds_mutations d → respects mutation_protocol first_watch tr → Forall (about key) tr → served d tr d' →
  holds_mutations d' ∧ journaled (recorded key d) tr (recorded key d').
Proof.
  intros [ms Hk] Hr Hab Hs. destruct (served_journaled key tr first_watch d ms d') as (ms' & Hk' & Hj); try done.
  split; [by exists ms'|]. by rewrite (recorded_kept key d ms), (recorded_kept key d' ms').
Qed.

(** The runs about the mutation of one key over the tables, one after the other. *)
Inductive stored_lifetime (key : string) : database → list (list exchange) → database → Prop :=
  | stored_end d : stored_lifetime key d [] d
  | stored_submission d context submission tr value d1 trs d2 :
      trace (Submit context submission) tr value → Forall (about key) tr → served d tr d1 →
      stored_lifetime key d1 trs d2 → stored_lifetime key d (tr :: trs) d2
  | stored_recovery d item tr value d1 trs d2 :
      trace (recoverOne item) tr value → assumed (keyed (mu_AccountID item)) tr →
      Forall (about key) tr → served d tr d1 →
      stored_lifetime key d1 trs d2 → stored_lifetime key d (tr :: trs) d2.

(** C13: over the tables of the store, every run of a submission, stopped anywhere and
    with any statement refused by the engine, leaves the mutations intact and changes the
    record of its key exactly as the abstract journal of the account service does: what
    was acknowledged is on record, and a request that failed was carried out entirely or
    not at all. *)
Theorem store_refines_journal context submission key tr value d d' :
  holds_mutations d → trace (Submit context submission) tr value → Forall (about key) tr → served d tr d' →
  holds_mutations d' ∧ journaled (recorded key d) tr (recorded key d').
Proof.
  intros Hd Ht Hab Hs. apply served_run; [done| |done..].
  by destruct (wp_adequate mutation_protocol _ _ _ _ _ (Submit_wp context submission) Ht).
Qed.

Lemma stored_lifetime_lifetime key d trs d' :
  stored_lifetime key d trs d' → holds_mutations d →
  holds_mutations d' ∧ lifetime (recorded key d) trs (recorded key d').
Proof.
  induction 1 as [d|d context submission tr value d1 trs d2 Ht Hab Hs _ IH
                  |d item tr value d1 trs d2 Ht Hk Hab Hs _ IH]; intros Hd; [by split; [|constructor]|..].
  - destruct (wp_adequate mutation_protocol _ _ _ _ _ (Submit_wp context submission) Ht) as [Hr _].
    destruct (served_run key tr d d1 Hd Hr Hab Hs) as [Hd1 Hj]. destruct (IH Hd1) as [Hd2 Hl].
    split; [done|]. by eapply lifetime_submission.
  - destruct (wp_assuming_adequate _ _ _ _ _ _ _ (recoverOne_wp item) Ht Hk) as [Hr _].
    destruct (served_run key tr d d1 Hd Hr Hab Hs) as [Hd1 Hj]. destruct (IH Hd1) as [Hd2 Hl].
    split; [done|]. by eapply lifetime_recovery.
Qed.

(** C14: over the tables of the store, from a database without the key, the submission of a
    mutation and any number of recoveries and repeated submissions, each stopped anywhere
    and any statement refused by the engine, write the account at most twice, each time to
    the value of the winner the store has on record. *)
Theorem writes_over_the_store key d trs d' :
  holds_mutations d → recorded key d = None → stored_lifetime key d trs d' →
  (length (omap write_of (concat trs)) ≤ 2)%nat
  ∧ ∀ x, x ∈ omap write_of (concat trs) → ∃ m, recorded key d' = Some m ∧ x = write_for m.
Proof.
  intros Hd Hnone Hs. destruct (stored_lifetime_lifetime key d trs d' Hs Hd) as [_ Hl]. rewrite Hnone in Hl.
  destruct (lifetime_counted None trs (recorded key d') [] Hl) as [Hb Hw Hc _]; [by split; [|constructor|..]|].
  cbn [app] in *. split; [lia|]. by rewrite Forall_forall in Hw.
Qed.
End refinement.

(** ** A lifetime over tables *)

Import Samples.

(** The environment of [AccountSandbox] with its journal in tables. *)
Definition reply_of {A} (op : database → result sql_error A * database) (s : database * sandbox)
    : result error A * (database * sandbox) :=
  let '(r, d) := op s.1 in (as_reply r, (d, s.2)).

Definition store_serve (R : Type) (s : database * sandbox) (c : Call R) : R * (database * sandbox) :=
  match c in Call R return R * (database * sandbox) with
  | GetControl id => reply_of (Store.GetControl id) s
  | ListActiveAccountOverrides id op now => reply_of (Store.ListActiveAccountOverrides id op now) s
  | FindActiveAccountOverride id op authority now => reply_of (Store.FindActiveAccountOverride id op authority now) s
  | GetAccountOverrideRevision id op now => reply_of (Store.GetAccountOverrideRevision id op now) s
  | FindAccountMutationByIdempotency key => reply_of (Store.FindAccountMutationByIdempotency key) s
  | PrepareAccountMutation m o => reply_of (Store.PrepareAccountMutation m o) s
  | UpdateAccountMutation m => reply_of (Store.UpdateAccountMutation m) s
  | FinalizeAccountMutation f => reply_of (Store.FinalizeAccountMutation (midnight + minute)%Z f) s
  | ListPendingAccountMutations limit => reply_of (Store.ListPendingAccountMutations limit) s
  | c => let '(r, sx) := sandbox_serve _ s.2 c in (r, (s.1, sx))
  end.
Definition over_tables : environment (database * sandbox) := mkEnvironment _ store_serve.

Lemma reply_of_method {A} (op : database → result sql_error A * database) s :
  method op s.1 (reply_of op s).1 (reply_of op s).2.1.
Proof.
  unfold reply_of. destruct (op s.1) as [r d] eqn:E. exists r. split; [left; by rewrite E|done].
Qed.

Lemma store_serve_answers s R (c : Call R) : answered s.1 (Exchange c (store_serve R s c).1) (store_serve R s c).2.1.
Proof.
  destruct c; cbn [answered]; try apply reply_of_method; try done.
  exists (midnight + minute)%Z. apply reply_of_method.
Qed.

Lemma stopped_served {A} n (p : prog A) s :
  served s.1 (stopped_run over_tables n p s).1 (stopped_run over_tables n p s).2.1.
Proof.
  revert p s. induction n as [|n IH]; intros [a|R c k] s; cbn [stopped_run]; try done.
  pose proof (store_serve_answers s R c) as Ha. cbn [serve over_tables].
  destruct (store_serve R s c) as [r s'] eqn:E. specialize (IH (k r) s').
  destruct (stopped_run over_tables n (k r) s') as [tr s'']. by exists s'.1.
Qed.

Lemma empty_holds : holds_mutations empty_database.
Proof. exists []. apply empty_kept. Qed.

#[export] Instance about_dec key x : Decision (about key x).
Proof. destruct x as [R []]; cbn [about]; apply _. Defined.

(** The submission stops when its write has been carried out and the reply is lost; the
    recovery reads the record from the tables. *)
Definition stored_crash : list exchange * (database * sandbox) :=
  stopped_run over_tables 24 (Submit None agent_submission) (empty_database, calm).
Definition stored_restart : list exchange * (database * sandbox) :=
  stopped_run over_tables 100 (recoverOne pending_mutation) stored_crash.2.
Definition sample_key : string := in_IdempotencyKey agent_pause.

Lemma store_refines_journal_witness :
  holds_mutations stored_crash.2.1
  ∧ journaled (recorded sample_key empty_database) stored_crash.1 (recorded sample_key stored_crash.2.1)
  ∧ (mu_Status <$> recorded sample_key stored_crash.2.1) = Some StatusExecuting.
Proof.
  destruct (stopped_run_trace over_tables 24 (Submit None agent_submission) (empty_database, calm)) as [v Ht].
  destruct (store_refines_journal None agent_submission sample_key stored_crash.1 v empty_database stored_crash.2.1
    empty_holds Ht) as [Hd Hj].
  - apply (bool_decide_unpack _). vm_compute. exact I.
  - exact (stopped_served 24 _ (empty_database, calm)).
  - split; [exact Hd|]. split; [exact Hj|]. vm_compute. reflexivity.
Defined.

Lemma writes_over_the_store_witness :
  (length (omap write_of (concat [stored_crash.1; stored_restart.1])) ≤ 2)%nat
  ∧ omap write_of (concat [stored_crash.1; stored_restart.1]) = [(7%Z, Some false, None)]
  ∧ (mu_Status <$> recorded sample_key stored_restart.2.1) = Some StatusApplied.
Proof.
  split; [|split; vm_compute; reflexivity].
  refine (proj1 (writes_over_the_store sample_key empty_database [stored_crash.1; stored_restart.1]
    stored_restart.2.1 empty_holds _ _)); [reflexivity|].
  destruct (stopped_run_trace over_tables 24 (Submit None agent_submission) (empty_database, calm)) as [v1 Ht1].
  destruct (stopped_run_trace over_tables 100 (recoverOne pending_mutation) stored_crash.2) as [v2 Ht2].
  refine (stored_submission _ _ _ _ _ v1 _ _ _ Ht1 _ (stopped_served 24 _ (empty_database, calm)) _).
  { apply (bool_decide_unpack _). vm_compute. exact I. }
  refine (stored_recovery _ _ _ _ v2 _ _ _ Ht2 _ _ (stopped_served 100 _ stored_crash.2) _).
  - vm_compute. repeat constructor.
  - apply (bool_decide_unpack _). vm_compute. exact I.
  - constructor.
Defined.
