(* ===== verification/OverrideExpiry.v ===== *)
(** * Overrides that expire

    The expiry of temporary overrides in [internal/store/accountcontrol.go]: which rows
    are expired, compared with the instants they were given. The texts of instants are
    compared, so the answer is right up to the second. *)

From S2P Require Import Prelude GoStd TimeText JsonText Intent Model AccountTypes Sql Journal Requests.

Section expiry.
Context `{UnicodeTables}.

Definition override_row (r : gmap string sqlval) (o : Override) : Prop :=
  storable_override o ∧ values overrideColumns r = overrideArguments o.

(** ** Rows after an update *)

Lemma values_update columns ucols uvals (r : gmap string sqlval) :
  values columns (row_of ucols uvals ∪ r)
  = zip_with (λ c old, default old (row_of ucols uvals !! c)) columns (values columns r).
Proof.
  unfold values. rewrite zip_with_fmap_r, zip_with_diag. apply list_fmap_ext. intros i c _. unfold column.
  destruct (row_of ucols uvals !! c) as [v|] eqn:E.
  - by rewrite (lookup_union_Some_l _ _ c v).
  - by rewrite lookup_union_r.
Qed.

Lemma expired_values a b (l : list sqlval) :
  length l = 26 →
  zip_with (λ c old, default old (row_of Store.expire_columns [a; b] !! c)) overrideColumns l = <[20 := a]> (<[25 := b]> l).
Proof. intros Hl. do 26 (destruct l as [|? l]; [done|]). destruct l; [|done]. by vm_compute. Qed.

(** The override as [ExpireActiveAccountOverrides] leaves it. *)
Definition expired_at (now : time) (o : Override) : Override :=
  o <| ov_Status := OverrideExpired |> <| ov_UpdatedAt := now |>.

Lemma expired_row now r o :
  four_digit_year now → override_row r o →
  override_row (row_of Store.expire_columns (Store.expire_arguments now) ∪ r) (expired_at now o).
Proof.
  intros Hnow [Ho Hv]. split.
  - destruct Ho. unfold expired_at. by split; read_fields.
  - unfold Store.expire_arguments. rewrite values_update, Hv, expired_values by done. by destruct o.
Qed.

(** ** Conditions on rows *)

Lemma override_row_columns r o : override_row r o →
  column "account_id" r = SInt (ov_AccountID o) ∧ column "status" r = SText (ov_Status o)
  ∧ column "expires_at" r = nullableTime (ov_ExpiresAt o).
Proof.
  intros [_ Hv]. split_and!.
  - by apply (values_column _ _ _ 5 _ _ Hv).
  - by apply (values_column _ _ _ 20 _ _ Hv).
  - by apply (values_column _ _ _ 19 _ _ Hv).
Qed.

(** The override is active and, as its text has it, due. *)
Definition due (now : time) (o : Override) : bool :=
  bool_decide (ov_Status o = OverrideActive)
  && match ov_ExpiresAt o with
     | None => false
     | Some t => negb (string_less (formatTime now) (formatTime t))
     end.

Lemma due_row now r o : override_row r o → Store.due_override now r = due now o.
Proof.
  intros (_ & Hs & He)%override_row_columns. unfold Store.due_override, where_eq, is_null, where_le, due.
  rewrite Hs, He. rewrite bool_decide_true by done. unfold nullableTime.
  replace (bool_decide (SText (ov_Status o) = SText OverrideActive)) with (bool_decide (ov_Status o = OverrideActive))
    by (apply bool_decide_ext; split; [by intros ->|by intros [= ?]]).
  destruct (ov_ExpiresAt o); cbn; [|by rewrite !andb_false_r]. by rewrite (bool_decide_false (SText _ = SNull)), andb_true_r by done.
Qed.

(** Being due is being past the expiry, up to the second. *)
Lemma due_time now o t :
  four_digit_year now → storable_override o → ov_ExpiresAt o = Some t →
  (due now o = true → ov_Status o = OverrideActive ∧ (t / second ≤ now / second)%Z)
  ∧ (ov_Status o = OverrideActive → (t / second < now / second)%Z → due now o = true).
Proof.
  intros Hnow Ho Ht. pose proof (so_expires _ Ho) as Hy. rewrite Ht in Hy. unfold due. rewrite Ht. split.
  - intros [Hs Hle]%andb_true_iff. rewrite bool_decide_eq_true in Hs. split; [done|].
    by apply formatTime_order, negb_true_iff.
  - intros Hs Hlt. rewrite bool_decide_true by done. cbn. apply negb_true_iff.
    apply less_asym. by apply formatTime_less.
Qed.

(** ** The accounts concerned *)

Lemma Z_cells (l : list Z) : scan_all (scan int_cell) ((λ n, [SInt n]) <$> l) = Ok l.
Proof. induction l as [|n l IH]; [done|]. rewrite fmap_cons. cbn [scan_all]. by rewrite IH. Qed.

Lemma remove_dups_fmap {A B} `{EqDecision A, EqDecision B} (f : A → B) `{!Inj (=) (=) f} (l : list A) :
  remove_dups (f <$> l) = f <$> remove_dups l.
Proof.
  induction l as [|x l IH]; [done|]. rewrite fmap_cons. cbn [remove_dups].
  destruct (decide_rel elem_of x l) as [Hx|Hx], (decide_rel elem_of (f x) (f <$> l)) as [Hy|Hy]; rewrite ?fmap_cons, ?IH; try done.
  - exfalso. by apply Hy, list_elem_of_fmap_2.
  - exfalso. apply list_elem_of_fmap in Hy as (y & E%(inj f) & Hy). by subst.
Qed.

Lemma remove_dups_sublist {A} `{EqDecision A} (l : list A) : remove_dups l `sublist_of` l.
Proof.
  induction l as [|x l IH]; [constructor|]. cbn [remove_dups]. destruct (decide_rel _ _ _); by constructor.
Qed.

Lemma StronglySorted_sublist {A} (R : A → A → Prop) (l k : list A) :
  l `sublist_of` k → StronglySorted R k → StronglySorted R l.
Proof.
  induction 1 as [|x l k Hs IH|x l k Hs IH]; intros Hk; [done|inv Hk as [|? ? ? Hall]..]; [|by apply IH].
  constructor; [by apply IH|]. rewrite Forall_forall in *. intros y Hy. apply Hall.
  by eapply elem_of_submseteq, sublist_submseteq.
Qed.

(** The account a row is of. *)
Definition account_of (r : gmap string sqlval) : Z :=
  match column "account_id" r with SInt n => n | _ => 0%Z end.

Lemma distinct_accounts_of cond d os :
  Forall2 override_row (db_overrides d) os →
  ∃ ids, scan_all (scan int_cell) (Store.distinct_accounts cond d) = Ok ids
    ∧ StronglySorted (λ a b, a < b)%Z ids
    ∧ ∀ a, a ∈ ids ↔ ∃ r, r ∈ db_overrides d ∧ cond r = true ∧ account_of r = a.
Proof.
  intros Hrows. unfold Store.distinct_accounts, select.
  set (sorted := sort_slice (by_column "account_id") (filter (λ r, cond r = true) (db_overrides d))).
  assert (∀ r, r ∈ sorted → column "account_id" r = SInt (account_of r)) as Hcol.
  { intros r Hr. unfold sorted in Hr. rewrite elem_of_sort_slice, list_elem_of_filter in Hr.
    destruct Hr as [_ [i Hi]%list_elem_of_lookup].
    destruct (Forall2_lookup_l _ _ _ _ _ Hrows Hi) as (o & _ & Ho). unfold account_of.
    by destruct (override_row_columns r o Ho) as (-> & _). }
  assert (values ["account_id"] <$> sorted = (λ n, [SInt n]) <$> (account_of <$> sorted)) as ->.
  { rewrite <-list_fmap_compose. apply list_fmap_ext. intros i r Hr. cbn.
    by rewrite (Hcol r) by by eapply list_elem_of_lookup_2. }
  assert (Inj (=) (=) (λ n, [SInt n])) by by intros ? ? [= ->].
  rewrite (remove_dups_fmap (λ n, [SInt n])), Z_cells. eexists. split; [done|].
  assert (StronglySorted Z.le (account_of <$> sorted)) as Hle.
  { pose proof (sort_slice_sorted (by_column "account_id") (filter (λ r, cond r = true) (db_overrides d))) as Hs.
    fold sorted in Hs. clearbody sorted. induction Hs as [|r l _ IH Hall]; [constructor|]. rewrite fmap_cons.
    constructor; [apply IH; intros; apply Hcol; by right|]. apply Forall_fmap. rewrite Forall_forall in *.
    intros r' Hr'. specialize (Hall r' Hr'). unfold not_after, by_column in Hall.
    rewrite (Hcol r) in Hall by by left. rewrite (Hcol r') in Hall by by right. cbn in Hall |- *. lia. }
  split.
  - pose proof (StronglySorted_sublist _ _ _ (remove_dups_sublist (account_of <$> sorted)) Hle) as Hs.
    pose proof (NoDup_remove_dups (account_of <$> sorted)) as Hnd.
    induction Hs as [|a l _ IH Hall]; [constructor|]. apply NoDup_cons in Hnd as [Hnot Hnd].
    constructor; [by apply IH|]. rewrite Forall_forall in *. intros b Hb. specialize (Hall b Hb).
    assert (a ≠ b) by (by intros ->). lia.
  - intros a. rewrite elem_of_remove_dups, list_elem_of_fmap. unfold sorted.
    setoid_rewrite elem_of_sort_slice. setoid_rewrite list_elem_of_filter. naive_solver.
Qed.

Lemma expire_rows now d os :
  Forall2 override_row (db_overrides d) os → four_digit_year now →
  ∃ ids d', Store.ExpireActiveAccountOverrides now d = (Ok ids, d')
    ∧ Forall2 override_row (db_overrides d') ((λ o, if due now o then expired_at now o else o) <$> os)
    ∧ db_mutations d' = db_mutations d ∧ db_controls d' = db_controls d ∧ db_events d' = db_events d
    ∧ StronglySorted (λ a b, a < b)%Z ids
    ∧ (∀ a, a ∈ ids ↔ ∃ o, o ∈ os ∧ due now o = true ∧ ov_AccountID o = a)
    ∧ ∀ o, o ∈ os →
        (due now o = true → ∃ t, ov_ExpiresAt o = Some t ∧ ov_Status o = OverrideActive ∧ (t / second ≤ now / second)%Z)
        ∧ (∀ t, ov_ExpiresAt o = Some t → ov_Status o = OverrideActive → (t / second < now / second)%Z → due now o = true).
Proof.
  intros Hrows Hnow. unfold Store.ExpireActiveAccountOverrides, transaction.
  destruct (distinct_accounts_of (Store.due_override now) d os Hrows) as (ids & -> & Hsorted & Hids).
  cbn [mbind result_bind]. eexists ids, _. split; [done|]. unfold updateOverrides. read_fields. split_and!; try done.
  - unfold update_rows. apply Forall2_fmap. eapply Forall2_impl; [exact Hrows|]. intros r o Hr. cbn beta.
    rewrite (due_row now r o Hr). destruct (due now o); [|done]. by apply expired_row.
  - intros a. rewrite Hids. split.
    + intros (r & [i Hi]%list_elem_of_lookup & Hd & <-). destruct (Forall2_lookup_l _ _ _ _ _ Hrows Hi) as (o & Ho & Hr).
      exists o. split; [by eapply list_elem_of_lookup_2|]. rewrite <-(due_row now r o Hr). split; [done|].
      unfold account_of. by destruct (override_row_columns r o Hr) as (-> & _).
    + intros (o & [i Hi]%list_elem_of_lookup & Hd & <-). destruct (Forall2_lookup_r _ _ _ _ _ Hrows Hi) as (r & Ho & Hr).
      exists r. split; [by eapply list_elem_of_lookup_2|]. rewrite (due_row now r o Hr). split; [done|].
      unfold account_of. by destruct (override_row_columns r o Hr) as (-> & _).
  - intros o [i Hi]%list_elem_of_lookup. destruct (Forall2_lookup_r _ _ _ _ _ Hrows Hi) as (r & _ & [Ho _]). split.
    + intros Hd. destruct (ov_ExpiresAt o) as [t|] eqn:Et.
      * exists t. split; [done|]. by apply (due_time now o t Hnow Ho Et).
      * unfold due in Hd. rewrite Et, andb_false_r in Hd. done.
    + intros t Et Hs Hlt. by apply (due_time now o t Hnow Ho Et).
Qed.

(** Expiring the overrides that are due marks exactly those whose instant has passed,
    up to the second in which the clock stands, and nothing else: every active override
    whose expiry lies in an earlier second than the clock is expired and stamped with the
    clock, one without expiry, in another status or with an expiry in a later second
    keeps its row, and the accounts returned, each once and in order, are those that
    lost an override. *)
Theorem ExpireActiveAccountOverrides_correct now d os :
  Forall2 override_row (db_overrides d) os → four_digit_year now →
  ∃ ids d', Store.ExpireActiveAccountOverrides now d = (Ok ids, d')
    ∧ Forall2 override_row (db_overrides d') ((λ o, if due now o then expired_at now o else o) <$> os)
    ∧ db_mutations d' = db_mutations d ∧ db_controls d' = db_controls d ∧ db_events d' = db_events d
    ∧ StronglySorted (λ a b, a < b)%Z ids
    ∧ (∀ a, a ∈ ids ↔ ∃ o, o ∈ os ∧ due now o = true ∧ ov_AccountID o = a)
    ∧ ∀ o, o ∈ os →
        (due now o = true → ∃ t, ov_ExpiresAt o = Some t ∧ ov_Status o = OverrideActive ∧ (t / second ≤ now / second)%Z)
        ∧ (∀ t, ov_ExpiresAt o = Some t → ov_Status o = OverrideActive → (t / second < now / second)%Z → due now o = true).
Proof. apply expire_rows. Qed.
End expiry.

(** ** An expiry at the edge of a second *)

Import Samples.

(** The override of the sample pause, active until an instant. *)
Definition until (t : time) : Override :=
  mkOverride "override-1" "command-1" "intent-1" "key-1" "signature" 7 OperationSetAccountSchedulable
    OverrideKindTemporary (Some false) None false ProducerAgentOperator AuthorityAutonomousAgent "agent" "slow"
    ["run:4"] "" "" midnight (Some t) OverrideActive "mutation-1" None "" "" midnight.

Definition database_of (os : list Override) : database :=
  mkDatabase ((λ o, row_of overrideColumns (overrideArguments o) ∪ ∅) <$> os) [] [] [] [].

#[export] Instance storable_override_dec o : Decision (storable_override o).
Proof.
  destruct (decide (Operation_Valid (ov_Operation o) = true ∧ Producer_Valid (ov_Producer o) = true
    ∧ Authority_Valid (ov_Authority o) = true ∧ Forall valid_utf8 (ov_EvidenceRefs o)
    ∧ four_digit_year (ov_CreatedAt o) ∧ four_digit_years (ov_ExpiresAt o)
    ∧ four_digit_years (ov_RevokedAt o) ∧ four_digit_year (ov_UpdatedAt o))) as [Hd|Hd]; [left|right].
  - split; apply Hd.
  - intros []. by apply Hd.
Defined.

Lemma database_of_rows os : Forall storable_override os → Forall2 override_row (db_overrides (database_of os)) os.
Proof.
  intros Hos. apply Forall2_fmap_l. induction Hos as [|o os Ho _ IH]; constructor; [|done].
  split; [done|]. apply values_row_of; [|done]. apply (bool_decide_unpack _). by vm_compute.
Qed.

(** The clock stands half a second past the minute: an override that ran until the minute
    itself is left active, one that runs a tenth of a second longer is expired. *)
Definition half_past : time := (midnight + 500 * millisecond)%Z.
Example expiry_within_a_second :
  due half_past (until midnight) = false
  ∧ due half_past (until (half_past + 10 * millisecond)) = true
  ∧ (Store.ExpireActiveAccountOverrides half_past (database_of [until midnight])).1 = Ok []
  ∧ (Store.ExpireActiveAccountOverrides half_past (database_of [until (half_past + 10 * millisecond)])).1 = Ok [7%Z].
Proof. by vm_compute. Qed.

Lemma ExpireActiveAccountOverrides_correct_witness :
  ∃ ids d', Store.ExpireActiveAccountOverrides (midnight + minute)%Z (database_of [until midnight; until (midnight + hour)%Z]) = (Ok ids, d')
    ∧ (∀ a, a ∈ ids ↔ ∃ o, o ∈ [until midnight; until (midnight + hour)%Z] ∧ due (midnight + minute)%Z o = true ∧ ov_AccountID o = a).
Proof.
  destruct (ExpireActiveAccountOverrides_correct (midnight + minute)%Z
    (database_of [until midnight; until (midnight + hour)%Z]) [until midnight; until (midnight + hour)%Z])
    as (ids & d' & He & _ & _ & _ & _ & _ & Hids & _).
  - apply database_of_rows. apply (bool_decide_unpack _). vm_compute. exact I.
  - apply (bool_decide_unpack _). vm_compute. exact I.
  - exists ids, d'. split; [exact He|exact Hids].
Defined.

(** * The override expiry worker

    [internal/reconcile/override_expiry.go]: one goroutine that waits until the nearest end
    of a temporary override, marks what is due in the store, and asks for a reconciliation
    of the accounts concerned. [Run] is a loop of rounds, each of which waits or goes on
    with the next. *)

Inductive expiryWaitResult := expiryWaitCanceled | expiryWaitTimerFired | expiryWaitChanged.

(** [sourced]: the requester has [RequestAccountsFrom]. The channel holds one token. *)
Record OverrideExpiryWorker := mkOverrideExpiryWorker {
  ew_sourced : bool;
  ew_wake : bool;
}.

(** A repository and a requester, if they are not nil. *)
Definition NewOverrideExpiryWorker (repository requester : bool) (sourced : bool) : option OverrideExpiryWorker :=
  if negb repository || negb requester then None else Some (mkOverrideExpiryWorker sourced false).

Definition Wake (w : option OverrideExpiryWorker) : option OverrideExpiryWorker :=
  w ← w; Some (w <| ew_wake := true |>).

(** What the worker asks of the store, the clock, the context, the timer with the channel,
    and the requester. *)
Inductive ExpiryCall : Type → Type :=
  | NextActiveAccountOverrideExpiry : ExpiryCall (result error (option time))
  | ExpireActiveAccountOverrides (now : time) : ExpiryCall (result error (list Z))
  | ExpiryNow : ExpiryCall time
  | ContextEnded : ExpiryCall bool
  | AwaitWake : ExpiryCall bool                        (* [waitWake] *)
  | Await (d : duration) : ExpiryCall expiryWaitResult (* [wait] *)
  | ExpiryRequestFrom (source : string) (accountIDs : list Z) : ExpiryCall unit
  | ExpiryRequest (accountIDs : list Z) : ExpiryCall unit.
Abbreviation prog := (Requests.prog ExpiryCall).

(** The accounts to reconcile: each once, in order. *)
Definition merged (ids : list Z) : list Z :=
  sort_slice Z.ltb (foldl (λ merged accountID,
    if (0 <? accountID)%Z && negb (bool_decide (accountID ∈ merged)) then merged ++ [accountID] else merged) [] ids).

Section worker.
Context (w : OverrideExpiryWorker).

Definition request_expired (ids : list Z) : prog unit :=
  if bool_decide (length ids = 0) then mret () else
  if ew_sourced w then call (ExpiryRequestFrom "override_expiry" (merged ids)) else call (ExpiryRequest (merged ids)).

(** What follows the wait. *)
Definition expire_due : prog (flow unit unit) :=
  ended ← call ContextEnded;
  if ended : bool then mret (Return ()) else
  now ← call ExpiryNow;
  try ids ← call (ExpireActiveAccountOverrides now) catch err => mret (Next ());
  request_expired ids;;
  mret (Next ()).

(** One iteration of the loop of [Run]. *)
Definition round : prog (flow unit unit) :=
  try next ← call NextActiveAccountOverrideExpiry catch err => (
    waited ← call (Await minute);
    mret (match waited with expiryWaitCanceled => Return () | _ => Next () end));
  match next with
  | None => woken ← call AwaitWake; mret (if woken : bool then Next () else Return ())
  | Some next =>
      now ← call ExpiryNow;
      let delay := sub_time next now in
      if (0 <? delay)%Z then
        waited ← call (Await delay);
        match waited with
        | expiryWaitCanceled => mret (Return ())
        | expiryWaitChanged => mret (Next ())
        | expiryWaitTimerFired => expire_due
        end
      else expire_due
  end.

(** [Run] for at most [n] rounds. *)
Fixpoint Run (n : nat) : prog (flow unit unit) :=
  match n with
  | O => mret (Next ())
  | S n => next ← round; match next with Next _ => Run n | Return _ => mret next end
  end.
End worker.

(** * The expiry worker comes to wait

    The worker on the store of [Journal], with a clock that advances: it does not turn for
    ever, and when it waits no override is active past its second. *)

(** ** Texts of instants *)

Lemma year_mono t u : (t ≤ u)%Z → (dt_year (date_of t) ≤ dt_year (date_of u))%Z.
Proof.
  intros Htu. unfold date_of. set (a := (t / second / 86400 + epoch_shift)%Z). set (b := (u / second / 86400 + epoch_shift)%Z).
  assert (a ≤ b)%Z as Hab by (subst a b; unfold second; Z.to_euclidean_division_equations; lia).
  assert ((month_day (march_of_days a)).1 ≤ (month_day (march_of_days b)).1)%Z as Hm.
  { destruct (decide (a = b)) as [->|Hne]; [done|]. destruct (month_day_order a b); lia. }
  destruct (month_day (march_of_days a)), (month_day (march_of_days b)). cbn in *. by apply Z.div_le_mono.
Qed.

Lemma four_digit_between t u x : four_digit_year t → four_digit_year u → (t ≤ x ≤ u)%Z → four_digit_year x.
Proof. intros [Ht _] [_ Hu] [H1%year_mono H2%year_mono]. split; lia. Qed.

Lemma digit_visible d : (0 ≤ d < 10)%Z → visible (code (digit d)).
Proof. intros Hd. rewrite code_digit by done. unfold visible. lia. Qed.

Lemma digits_visible w n s : (0 ≤ n < 10 ^ Z.of_nat w)%Z → Forall visible (bytes_of s) → Forall visible (bytes_of (digits w n +:+ s)).
Proof.
  revert n. induction w as [|w IH]; intros n Hn Hs; [done|]. cbn [digits]. rewrite string_cons_app. constructor.
  - apply digit_visible. rewrite Nat2Z.inj_succ, Z.pow_succ_r in Hn by lia.
    split; [apply Z.div_pos; lia|apply Z.div_lt_upper_bound; lia].
  - apply IH; [apply Z.mod_pos_bound; lia|done].
Qed.

Lemma fraction_visible w n s : (0 ≤ n < 10 ^ Z.of_nat w)%Z → Forall visible (bytes_of s) → Forall visible (bytes_of (fraction w n +:+ s)).
Proof.
  revert n. induction w as [|w IH]; intros n Hn Hs; [done|]. cbn [fraction]. destruct (_ =? 0)%Z; [done|].
  rewrite string_cons_app. constructor.
  - apply digit_visible. rewrite Nat2Z.inj_succ, Z.pow_succ_r in Hn by lia.
    split; [apply Z.div_pos; lia|apply Z.div_lt_upper_bound; lia].
  - apply IH; [apply Z.mod_pos_bound; lia|done].
Qed.

Lemma formatTime_visible t : four_digit_year t → Forall visible (bytes_of (formatTime t)).
Proof.
  intros Hy. unfold formatTime, format_date. destruct (date_of_bounds t) as (? & ? & ? & ? & ? & ? & ?). unfold four_digit_year in Hy.
  destruct (date_of t). cbn in *. rewrite !append_int_digits by (cbn; lia).
  assert (∀ w n c (s : string), (0 ≤ n < 10 ^ Z.of_nat w)%Z → visible (code c) → Forall visible (bytes_of s) →
    Forall visible (bytes_of (digits w n +:+ String c "" +:+ s))) as Hfield.
  { intros w n c s Hn Hc Hs. apply digits_visible; [done|]. by constructor. }
  do 5 (apply Hfield; [cbn; lia|vm_compute; by split|]). apply digits_visible; [cbn; lia|]. unfold append_nano.
  assert (Forall visible (bytes_of "Z")) as Hz by (constructor; [by vm_compute|constructor]).
  destruct (_ =? 0)%Z; [exact Hz|].
  rewrite string_cons_app, string_nil_app, string_cons_app.
  constructor; [vm_compute; by split|]. apply fraction_visible; [cbn; lia|exact Hz].
Qed.

Lemma formatTime_nonempty t : four_digit_year t → trim_space (formatTime t) ≠ "".
Proof. intros Hy. rewrite trim_space_visible by by apply formatTime_visible. intros E. by pose proof (parse_rfc3339_formatTime t Hy) as Hp; rewrite E in Hp. Qed.

(** ** The nearest end in the store *)

Definition expiring (o : Override) (t : time) : Prop := ov_Status o = OverrideActive ∧ ov_ExpiresAt o = Some t.

Section expiry.
Context `{UnicodeTables}.

Definition ends (r : gmap string sqlval) : bool := where_eq "status" (SText OverrideActive) r && negb (is_null "expires_at" r).

Lemma ends_row r o : override_row r o → ends r = true ↔ ∃ t, expiring o t.
Proof.
  intros (_ & Hs & He)%override_row_columns. unfold ends, where_eq, is_null, expiring. rewrite Hs, He.
  rewrite bool_decide_true by done. cbn [andb]. rewrite andb_true_iff, bool_decide_eq_true, negb_true_iff, bool_decide_eq_false.
  split.
  - intros [[= Hst] Hn]. destruct (ov_ExpiresAt o) as [t|]; [by exists t|done].
  - by intros (t & -> & ->).
Qed.

(** The nearest end is that of an active override, and none ends in an earlier second. *)
Lemma next_expiry d os : Forall2 override_row (db_overrides d) os →
  Store.NextActiveAccountOverrideExpiry d = (Ok None, d) ∧ (∀ o t, o ∈ os → ¬ expiring o t)
  ∨ ∃ o e, Store.NextActiveAccountOverrideExpiry d = (Ok (Some e), d) ∧ o ∈ os ∧ expiring o e
      ∧ ∀ o' t, o' ∈ os → expiring o' t → (e / second ≤ t / second)%Z.
Proof.
  intros Hrows. unfold Store.NextActiveAccountOverrideExpiry, select.
  change (filter _ (db_overrides d)) with (filter (λ r, ends r = true) (db_overrides d)).
  assert (∀ o t, o ∈ os → expiring o t → ∃ r, override_row r o ∧ r ∈ filter (λ r, ends r = true) (db_overrides d)) as Hin.
  { intros o t [i Hi]%list_elem_of_lookup Ht. destruct (Forall2_lookup_r _ _ _ _ _ Hrows Hi) as (r & Hr & Ho).
    exists r. split; [done|]. apply list_elem_of_filter. split; [apply (ends_row r o Ho); by exists t|by eapply list_elem_of_lookup_2]. }
  destruct (sort_slice (by_column "expires_at") (filter (λ r, ends r = true) (db_overrides d))) as [|r rest] eqn:Esort.
  - left. split; [done|]. intros o t Ho Ht. destruct (Hin o t Ho Ht) as (r & _ & Hr).
    rewrite <-(elem_of_sort_slice (by_column "expires_at")), Esort in Hr. by apply elem_of_nil in Hr.
  - right. apply sort_slice_head in Esort as [Hr Hleast]; [|apply _].
    apply list_elem_of_filter in Hr as [Hends [i Hi]%list_elem_of_lookup].
    destruct (Forall2_lookup_l _ _ _ _ _ Hrows Hi) as (o & Ho & Hro). apply (ends_row r o Hro) in Hends as [e He].
    pose proof Hro as [Hstorable _]. pose proof (so_expires _ Hstorable) as Hye. rewrite (proj2 He) in Hye.
    destruct (override_row_columns r o Hro) as (_ & _ & Hcol). rewrite (proj2 He) in Hcol.
    exists o, e. split_and!; [|by eapply list_elem_of_lookup_2|done|].
    + cbn [fmap list_fmap]. unfold values. cbn [fmap list_fmap]. rewrite Hcol.
      change (scan null_text_cell [nullableTime (Some e)]) with (Ok (E:=sql_error) (Some (formatTime e))). cbn [mbind result_bind].
      rewrite bool_decide_false by by apply formatTime_nonempty. by rewrite parseTime_formatTime.
    + intros o' t Ho' Ht. destruct (Hin o' t Ho' Ht) as (r' & Hr' & Hf).
      specialize (Hleast r' Hf). unfold by_column in Hleast. destruct (override_row_columns r' o' Hr') as (_ & _ & Hcol').
      pose proof (so_expires _ (proj1 Hr')) as Hyt. rewrite (proj2 Ht) in Hcol', Hyt. rewrite Hcol, Hcol' in Hleast.
      by apply formatTime_order.
Qed.
End expiry.

(** ** The worker on the store *)

(** What happens to an override. *)
Definition became (o o' : Override) : Prop :=
  ov_AccountID o' = ov_AccountID o ∧ (o' = o ∨ ov_Status o = OverrideActive ∧ ov_Status o' = OverrideExpired).

(** The account lost an override. *)
Definition lost (os os' : list Override) (a : Z) : Prop :=
  ∃ i o o', os !! i = Some o ∧ os' !! i = Some o' ∧ ov_Status o = OverrideActive ∧ ov_Status o' = OverrideExpired ∧ ov_AccountID o = a.

Record accounted (os os' : list Override) (asked : list Z) : Prop := {
  ac_became : Forall2 became os os';
  ac_asked : ∀ a, a ∈ asked ↔ (0 < a)%Z ∧ lost os os' a;
}.

Definition active (os : list Override) : nat := length (filter (λ o, ov_Status o = OverrideActive) os).

Lemma elem_of_merged a ids : a ∈ merged ids ↔ (0 < a)%Z ∧ a ∈ ids.
Proof.
  unfold merged. rewrite elem_of_sort_slice.
  apply (foldl_done (λ taken l, a ∈ l ↔ (0 < a)%Z ∧ a ∈ taken)); [rewrite !elem_of_nil; naive_solver|].
  intros taken b l Hl. rewrite elem_of_app, list_elem_of_singleton.
  destruct (0 <? b)%Z eqn:Eb; cbn [andb]; bool_facts.
  - case_bool_decide as Hb; cbn [negb]; [|rewrite elem_of_app, list_elem_of_singleton, Hl; naive_solver].
    rewrite Hl. split; [naive_solver|]. intros [Ha [?| ->]]; [naive_solver|]. by apply Hl.
  - rewrite Hl. split; [naive_solver|]. intros [? [?| ->]]; [done|lia].
Qed.

Section books.
Context `{UnicodeTables} (now : time).

Definition expire_all (os : list Override) : list Override := (λ o, if due now o then expired_at now o else o) <$> os.

Lemma due_active o : due now o = true → ov_Status o = OverrideActive.
Proof. unfold due. by intros [Hs%bool_decide_eq_true _]%andb_true_iff. Qed.

Lemma accounted_expire os os' asked ids :
  accounted os os' asked → (∀ a, a ∈ ids ↔ ∃ o, o ∈ os' ∧ due now o = true ∧ ov_AccountID o = a) →
  accounted os (expire_all os') (asked ++ merged ids).
Proof.
  intros [Hb Ha] Hids. split.
  - unfold expire_all. apply Forall2_fmap_r. eapply Forall2_impl; [exact Hb|]. intros o o' [Hid Ho]. cbn beta.
    unfold compose, became. destruct (due now o') eqn:Edue; [|by split]. apply due_active in Edue. split; [rewrite <-Hid; by destruct o'|]. right.
    split; [|by destruct o']. destruct Ho as [->|[? ?]]; [done|by congruence].
  - intros a. rewrite elem_of_app, elem_of_merged, Ha, Hids. unfold lost, expire_all. setoid_rewrite list_lookup_fmap. split.
    + intros [[Hpos (i & o & o' & Hi & Hi' & Hs & Hs' & Hid)]|[Hpos (o' & [i Hi']%list_elem_of_lookup & Hdue & Hid)]]; (split; [done|]).
      * exists i, o, o'. rewrite Hi'. cbn. destruct (due now o') eqn:Edue; [|done]. apply due_active in Edue. by rewrite Hs' in Edue.
      * destruct (Forall2_lookup_r _ _ _ _ _ Hb Hi') as (o & Hi & Hid' & Ho). exists i, o, (expired_at now o').
        rewrite Hi'. cbn. rewrite Hdue. apply due_active in Hdue. split_and!; [done..| |by destruct o'|by rewrite <-Hid'].
        destruct Ho as [->|[? ?]]; [done|by congruence].
    + intros [Hpos (i & o & o1 & Hi & Hi1 & Hs & Hs1 & Hid)]. destruct (os' !! i) as [o'|] eqn:Hi'; [|done]. cbn in Hi1. injection Hi1 as <-.
      destruct (Forall2_lookup_lr _ _ _ _ _ _ Hb Hi Hi') as [Hid' _].
      destruct (due now o') eqn:Edue; [right|left; naive_solver].
      split; [done|]. exists o'. split; [by eapply list_elem_of_lookup_2|]. by rewrite Hid'.
Qed.

Lemma expire_all_fewer os o : o ∈ os → due now o = true → active (expire_all os) < active os.
Proof.
  unfold active, expire_all. intros Ho Hdue. induction os as [|o' os IH]; [by apply elem_of_nil in Ho|].
  assert (length (filter (λ o, ov_Status o = OverrideActive) ((λ o, if due now o then expired_at now o else o) <$> os))
    ≤ length (filter (λ o, ov_Status o = OverrideActive) os)) as Hle.
  { clear. induction os as [|o os IH]; [done|]. rewrite fmap_cons, !filter_cons. destruct (due now o) eqn:Edue.
    - apply due_active in Edue. rewrite (decide_True _ _ Edue), decide_False by by destruct o. cbn. lia.
    - destruct (decide _); cbn; lia. }
  rewrite fmap_cons, !filter_cons. destruct (due now o') eqn:Edue.
  - apply due_active in Edue. rewrite (decide_True _ _ Edue), decide_False by by destruct o'. cbn. lia.
  - apply elem_of_cons in Ho as [->|Ho]; [by rewrite Edue in Hdue|]. specialize (IH Ho). destruct (decide _); cbn; lia.
Qed.

Lemma expire_all_none os : (∀ o, o ∈ os → due now o = false) → expire_all os = os.
Proof.
  intros Hnone. unfold expire_all. rewrite <-(list_fmap_id os) at 2. apply list_fmap_ext. intros i o Ho.
  by rewrite (Hnone o) by by eapply list_elem_of_lookup_2.
Qed.
End books.

(** The store, a clock of which every reading is later than the one before, and the accounts
    asked for. A wait is the end of the run: it is answered as a cancelled context does. *)
Record attic := mkAttic {
  at_db : database;
  at_now : time;
  at_asked : list Z;
}.

Definition stored {A} (r : result sql_error A) : result error A :=
  match r with Ok a => Ok a | Err _ => Err (NewError "store") end.

Section worker.
Context `{UnicodeTables} (tick : duration) (w : OverrideExpiryWorker).

Definition attic_serve (R : Type) (s : attic) (c : ExpiryCall R) : R * attic :=
  match c in ExpiryCall R return R * attic with
  | NextActiveAccountOverrideExpiry =>
      let '(r, d) := Store.NextActiveAccountOverrideExpiry (at_db s) in (stored r, s <| at_db := d |>)
  | ExpireActiveAccountOverrides now =>
      let '(r, d) := Store.ExpireActiveAccountOverrides now (at_db s) in (stored r, s <| at_db := d |>)
  | ExpiryNow => (at_now s, s <| at_now := (at_now s + tick)%Z |>)
  | ContextEnded => (false, s)
  | AwaitWake => (false, s)
  | Await _ => (expiryWaitCanceled, s)
  | ExpiryRequestFrom _ ids => ((), s <| at_asked := at_asked s ++ ids |>)
  | ExpiryRequest ids => ((), s <| at_asked := at_asked s ++ ids |>)
  end.
Definition on_attic : environment ExpiryCall attic := mkEnvironment attic attic_serve.

Lemma run_request {R B} (c : ExpiryCall R) (k : R → prog B) s r s' :
  attic_serve R s c = (r, s') → run on_attic (call c ≫= k) s = run on_attic (k r) s'.
Proof. intros E. rewrite run_bind. cbn. by rewrite E. Qed.

Lemma run_requested ids s : run on_attic (request_expired w ids) s = ((), s <| at_asked := at_asked s ++ merged ids |>).
Proof.
  unfold request_expired. case_bool_decide as Hids.
  - apply nil_length_inv in Hids as ->. destruct s. cbn. unfold update. cbn. by rewrite app_nil_r.
  - by destruct (ew_sourced w).
Qed.

(** The books of the store and of the requester, at [os]. *)
Record kept (os0 os : list Override) (s : attic) : Prop := {
  kp_rows : Forall2 override_row (db_overrides (at_db s)) os;
  kp_accounted : accounted os0 os (at_asked s);
}.

(** What a round that does not wait leaves. *)
Lemma run_expire os0 os s :
  kept os0 os s → four_digit_year (at_now s) →
  ∃ s', run on_attic (expire_due w) s = (Next (), s') ∧ at_now s' = (at_now s + tick)%Z ∧ kept os0 (expire_all (at_now s) os) s'.
Proof.
  intros [Hrows Hacc] Hy. set (now := at_now s) in *. unfold expire_due.
  rewrite (run_request _ _ _ false s) by done. cbv beta iota.
  rewrite (run_request _ _ _ now (s <| at_now := (now + tick)%Z |>)) by done. cbv beta iota.
  destruct (expire_rows now (at_db s) os Hrows Hy) as (ids & d' & E & Hrows' & _ & _ & _ & _ & Hids & _).
  rewrite (run_request _ _ _ (Ok ids) (s <| at_now := (now + tick)%Z |> <| at_db := d' |>)).
  2: { cbn. replace (at_db (s <| at_now := _ |>)) with (at_db s) by (by destruct s). by rewrite E. }
  cbv beta iota. rewrite run_bind, run_requested. eexists. split; [done|].
  split; [by destruct s|]. split; [by destruct s|].
  replace (at_asked _) with (at_asked s ++ merged ids) by (by destruct s).
  by apply accounted_expire.
Qed.

(** What it means that the worker waits. *)
Record waiting (os0 os : list Override) (s : attic) : Prop := {
  wt_kept : kept os0 os s;
  wt_future : ∀ o t, o ∈ os → expiring o t → ((at_now s - tick) / second ≤ t / second)%Z;
}.

(** The round is one in the second in which the nearest override has ended. *)
Definition within_second (now : time) (os : list Override) : Prop :=
  ∃ o e, o ∈ os ∧ expiring o e ∧ (∀ o' t, o' ∈ os → expiring o' t → (e / second ≤ t / second)%Z)
    ∧ (e ≤ now)%Z ∧ ((now + tick) / second ≤ e / second)%Z.

Lemma run_round os0 os s :
  kept os0 os s → four_digit_year (at_now s) → four_digit_year (at_now s + tick)%Z →
  ∃ out s', run on_attic (round w) s = (out, s') ∧
    (out = Return () ∧ waiting os0 os s'
     ∨ out = Next () ∧ at_now s' = (at_now s + 2 * tick)%Z ∧ ∃ os', kept os0 os' s'
       ∧ (active os' < active os ∨ os' = os ∧ within_second (at_now s) os)).
Proof.
  intros Hkept Hy Hy'. set (now := at_now s) in *. unfold round.
  destruct (next_expiry (at_db s) os (kp_rows _ _ _ Hkept)) as [[E Hnone]|(o & e & E & Ho & He & Hleast)].
  - rewrite (run_request _ _ _ (Ok None) s) by (unfold attic_serve; rewrite E; by destruct s). cbv beta iota.
    rewrite (run_request _ _ _ false s) by done. eexists _, s. split; [done|]. left. split; [done|].
    split; [done|]. intros o t Ho Ht. by destruct (Hnone o t Ho).
  - rewrite (run_request _ _ _ (Ok (Some e)) s) by (unfold attic_serve; rewrite E; by destruct s). cbv beta iota.
    set (s1 := s <| at_now := (now + tick)%Z |>). rewrite (run_request _ _ _ now s1) by done. cbv beta iota zeta.
    assert (kept os0 os s1) as Hkept1 by (destruct s, Hkept; by split).
    assert (at_now s1 = (now + tick)%Z) as Hnow1 by (by destruct s).
    destruct (0 <? sub_time e now)%Z eqn:Edelay; bool_facts.
    + rewrite (run_request _ _ _ expiryWaitCanceled s1) by done. eexists _, s1. split; [done|]. left. split; [done|].
      split; [done|]. intros o' t Ho' Ht. rewrite Hnow1. transitivity (e / second)%Z; [|by eapply Hleast].
      apply Z.div_le_mono; [done|]. unfold sub_time in Edelay. lia.
    + destruct (run_expire os0 os s1 Hkept1) as (s' & -> & Hnow' & Hkept'); [by rewrite Hnow1|].
      eexists _, s'. split; [done|]. right. split; [done|]. split; [lia|]. eexists. split; [exact Hkept'|]. rewrite Hnow1.
      destruct (due (now + tick) o) eqn:Edue; [left; by eapply expire_all_fewer|].
      destruct (existsb (due (now + tick)) os) eqn:Eany.
      * apply existsb_exists in Eany as (o' & Ho'%list_elem_of_In & Hdue'). left. by eapply expire_all_fewer.
      * right. split.
        { apply expire_all_none. intros o' Ho'. destruct (due (now + tick) o') eqn:Edue'; [|done].
          assert (existsb (due (now + tick)) os = true) as Ht by (apply existsb_exists; exists o'; by rewrite <-list_elem_of_In).
          by rewrite Eany in Ht. }
        exists o, e. split_and!; [done..| |].
        { unfold sub_time in Edelay. lia. }
        destruct (Z.le_gt_cases ((now + tick) / second) (e / second)) as [?|Hlt]; [done|exfalso].
        apply list_elem_of_lookup in Ho as [i Hi]. destruct (Forall2_lookup_r _ _ _ _ _ (kp_rows _ _ _ Hkept) Hi) as (r & _ & [Hst _]).
        destruct (due_time (now + tick) o e Hy' Hst (proj2 He)) as [_ Hd]. rewrite Hd in Edue; [done|apply He|lia].
Qed.

(** ** It comes to wait *)

Definition reaches (os0 : list Override) (s : attic) : Prop :=
  ∃ n s' os, run on_attic (Run w n) s = (Return (), s') ∧ waiting os0 os s'.

Lemma reaches_waiting os0 os s s' : run on_attic (round w) s = (Return (), s') → waiting os0 os s' → reaches os0 s.
Proof. intros E Hw. exists 1, s', os. cbn [Run]. by rewrite run_bind, E. Qed.

Lemma reaches_next os0 s s' : run on_attic (round w) s = (Next (), s') → reaches os0 s' → reaches os0 s.
Proof. intros E (n & s'' & os & Er & Hw). exists (S n), s'', os. cbn [Run]. by rewrite run_bind, E. Qed.

(** Rounds that expire nothing end with the second of the nearest end. *)
Lemma streak os0 os low m :
  (0 < tick)%Z → (∀ x, (low ≤ x ≤ (m + 1) * second + 2 * tick)%Z → four_digit_year x) →
  (∃ o e, o ∈ os ∧ expiring o e ∧ (e / second = m)%Z) →
  (∀ os' s, kept os0 os' s → active os' < active os → (low ≤ at_now s ≤ (m + 1) * second + 3 * tick)%Z → reaches os0 s) →
  ∀ k s, Z.to_nat ((m + 1) * second + 2 * tick - at_now s) ≤ k → kept os0 os s →
    (low ≤ at_now s ≤ (m + 1) * second + tick)%Z → reaches os0 s.
Proof.
  intros Ht Hy (o & e & Ho & He & Hm) Hfewer k. induction k as [|k IH]; intros s Hk Hkept Hnow; [lia|].
  destruct (run_round os0 os s Hkept) as (out & s' & E & [[-> Hw]|(-> & Hnow' & os' & Hkept' & Hor)]); [apply Hy; lia..| |].
  - by eapply reaches_waiting.
  - eapply reaches_next; [exact E|]. destruct Hor as [Hlt|[-> (o' & e' & Ho' & He' & Hleast & _ & Hsecond)]].
    + apply (Hfewer os'); [done..|lia].
    + assert ((at_now s + tick) / second ≤ m)%Z as Hm' by (specialize (Hleast o e Ho He); lia).
      assert (at_now s + tick < (m + 1) * second)%Z.
      { pose proof (Z.mod_pos_bound (at_now s + tick) second eq_refl). pose proof (Z.div_mod (at_now s + tick) second). unfold second in *. lia. }
      apply IH; [lia|done|lia].
Qed.

Lemma worker_reaches os0 a : (0 < tick)%Z → ∀ os s, active os = a → kept os0 os s → four_digit_year (at_now s) →
  four_digit_year (at_now s + (Z.of_nat a + 1) * (second + 4 * tick))%Z → reaches os0 s.
Proof.
  intros Ht. induction a as [a IH] using lt_wf_ind. intros os s <- Hkept Hy Hend.
  assert (0 < second)%Z as Hsec by done.
  assert (∀ x, (at_now s ≤ x ≤ at_now s + second + 4 * tick)%Z → four_digit_year x) as Hnear.
  { intros x Hx. apply (four_digit_between (at_now s) _ x Hy Hend). nia. }
  assert (∀ os' s', kept os0 os' s' → active os' < active os → (at_now s ≤ at_now s' ≤ at_now s + second + 4 * tick)%Z → reaches os0 s') as Hfewer.
  { intros os' s' Hkept' Hlt Hs'. apply (IH (active os') Hlt os' s' eq_refl Hkept'); [by apply Hnear|].
    apply (four_digit_between (at_now s) _ _ Hy Hend). nia. }
  destruct (run_round os0 os s Hkept Hy) as (out & s' & E & [[-> Hw]|(-> & Hnow & os' & Hkept' & Hor)]); [apply Hnear; lia| |].
  - by eapply reaches_waiting.
  - eapply reaches_next; [exact E|]. destruct Hor as [Hlt|[-> (o & e & Ho & He & _ & Hpast & Hsecond)]].
    + apply (Hfewer os'); [done..|lia].
    + set (m := (e / second)%Z) in *.
      assert ((m + 1) * second ≤ at_now s + second)%Z.
      { subst m. pose proof (Z.mul_div_le e second). unfold second in *. lia. }
      assert (at_now s + tick < (m + 1) * second)%Z.
      { pose proof (Z.mod_pos_bound (at_now s + tick) second eq_refl). pose proof (Z.div_mod (at_now s + tick) second). unfold second in *. lia. }
      apply (streak os0 os (at_now s) m) with (k := Z.to_nat ((m + 1) * second + 2 * tick - at_now s')); [done|..|done|lia].
      * intros x Hx. apply Hnear. lia.
      * by exists o, e.
      * intros os'' s'' Hk Hlt Hs. apply (Hfewer os''); [done..|lia].
      * lia.
Qed.
End worker.

Lemma accounted_start os : accounted os os [].
Proof.
  split.
  - apply Forall2_same_length_lookup. split; [done|]. intros i o o' Ho Ho'. rewrite Ho in Ho'. injection Ho' as <-. split; [done|by left].
  - intros a. rewrite elem_of_nil. split; [done|]. intros [_ (i & o & o' & Ho & Ho' & Hs & Hs' & _)].
    rewrite Ho in Ho'. injection Ho' as <-. by rewrite Hs in Hs'.
Qed.

Import Samples.

(** C26: the worker does not turn for ever: whatever overrides the store holds, however often
    it finds the nearest end behind the clock, on a clock that advances it comes to wait
    after finitely many rounds. Then every override that is still active ends in the second
    of the clock or later; of every other one only its status changed, from active to
    expired; and the accounts asked for are those with a positive number that lost one. *)
Theorem expiry_worker_comes_to_wait `{UnicodeTables} (tick : duration) (w : OverrideExpiryWorker) d os now :
  (0 < tick)%Z → Forall2 override_row (db_overrides d) os → four_digit_year now →
  four_digit_year (now + (Z.of_nat (active os) + 1) * (second + 4 * tick))%Z →
  ∃ n s os', run (on_attic tick) (Run w n) (mkAttic d now []) = (Return (), s)
    ∧ Forall2 override_row (db_overrides (at_db s)) os' ∧ Forall2 became os os'
    ∧ (∀ a, a ∈ at_asked s ↔ (0 < a)%Z ∧ lost os os' a)
    ∧ ∀ o t, o ∈ os' → expiring o t → ((at_now s - tick) / second ≤ t / second)%Z.
Proof.
  intros Ht Hrows Hy Hend. assert (kept os os (mkAttic d now [])) as Hkept by (split; [done|apply accounted_start]).
  destruct (worker_reaches tick w os (active os) Ht os (mkAttic d now []) eq_refl Hkept Hy Hend) as (n & s & os' & E & [[Hr [Hb Ha]] Hf]).
  exists n, s, os'. by split_and!.
Qed.

(** A worker that finds an override past its end expires it and waits for the next. *)
Definition two_ends : list Override := [until midnight; until (midnight + hour)%Z].

Definition started : attic := mkAttic (database_of two_ends) (midnight + minute)%Z [].
Definition worked : flow unit unit * attic := run (on_attic second) (Run (mkOverrideExpiryWorker true false) 5) started.

Lemma expiry_worker_comes_to_wait_witness :
  worked.1 = Return () ∧ at_asked worked.2 = [7%Z] ∧
  ∃ n s os', run (on_attic second) (Run (mkOverrideExpiryWorker true false) n) started = (Return (), s)
    ∧ Forall2 became two_ends os' ∧ ∀ o t, o ∈ os' → expiring o t → ((at_now s - second) / second ≤ t / second)%Z.
Proof.
  split; [by vm_compute|]. split; [by vm_compute|].
  destruct (expiry_worker_comes_to_wait (H:=plain_tables) second (mkOverrideExpiryWorker true false) (database_of two_ends) two_ends (midnight + minute)%Z)
    as (n & s & os' & E & _ & Hb & _ & Hf); [done|apply database_of_rows|..].
  - apply (bool_decide_unpack _). vm_compute. exact I.
  - apply (bool_decide_unpack _). vm_compute. exact I.
  - apply (bool_decide_unpack _). vm_compute. exact I.
  - by exists n, s, os'.
Defined.

(** Half a second past the end of an override its text is not due yet, and the worker turns
    without waiting until the second is over. *)
Example spins_within_a_second :
  (run (on_attic millisecond) (Run (mkOverrideExpiryWorker true false) 100) (mkAttic (database_of [until midnight]) half_past [])).1 = Next ().
Proof. by vm_compute. Qed.
