(* ===== verification/Coordinator.v ===== *)
(** * The reconciliation coordinator

    [internal/reconcile/coordinator.go]: requests for a pass, for some accounts or for
    all, are merged into one pending set; one loop, woken through a channel that holds
    one token, waits for a pause in the requests and runs a pass on what is pending. The
    critical sections are functions on the state, the goroutines a machine of
    [Threads]. *)

From S2P Require Import Prelude GoStd Threads.

Definition defaultReconcileDebounce : duration := (100 * millisecond)%Z.
Definition defaultReconcileInterval : duration := (50 * second)%Z.

Record Coordinator := mkCoordinator {
  co_debounce : duration;
  co_interval : duration;
  co_pendingFull : bool;
  co_pending : gset Z;
  co_sources : gset string;
  co_wake : bool;          (* the channel, of capacity one, holds a token *)
  co_requests : Z;         (* uint64 *)
  co_coalesced : Z;
  co_requestedAt : time;
}.

(** ** Construction *)

Definition WithReconcileDebounce (value : duration) (c : Coordinator) : Coordinator :=
  if (0 <=? value)%Z && (value <=? 500 * millisecond)%Z then c <| co_debounce := value |> else c.
Definition WithReconcileInterval (value : duration) (c : Coordinator) : Coordinator :=
  if (0 <? value)%Z then c <| co_interval := value |> else c.

(** The options are the two functions above, with their values. *)
Inductive CoordinatorOption := ReconcileDebounce (value : duration) | ReconcileInterval (value : duration).
Definition apply_option (c : Coordinator) (option : CoordinatorOption) : Coordinator :=
  match option with
  | ReconcileDebounce value => WithReconcileDebounce value c
  | ReconcileInterval value => WithReconcileInterval value c
  end.

Definition NewCoordinator (options : list CoordinatorOption) : Coordinator :=
  foldl apply_option
    (mkCoordinator defaultReconcileDebounce defaultReconcileInterval false ∅ ∅ false 0 0 zero_time) options.

(** ** Critical sections *)

Definition next_uint64 (n : Z) : Z := ((n + 1) mod 2 ^ 64)%Z.

Definition addSource (source : string) (c : Coordinator) : Coordinator :=
  let source := trim_space source in
  c <| co_sources := {[if bool_decide (source = "") then "unspecified" else source]} ∪ co_sources c |>.

(** A first request starts the clock of the wait. *)
Definition counted_request (now : time) (c : Coordinator) : Coordinator :=
  (if is_zero_time (co_requestedAt c) then c <| co_requestedAt := now |> else c)
    <| co_requests := next_uint64 (co_requests c) |>.
Definition coalesced_request (c : Coordinator) : Coordinator :=
  c <| co_coalesced := next_uint64 (co_coalesced c) |>.

(** The section of [RequestAccountsFrom], and whether it goes on to signal. *)
Definition RequestAccountsFrom (now : time) (source : string) (accountIDs : list Z) (c : Coordinator)
    : Coordinator * bool :=
  let c := addSource source c in
  if co_pendingFull c then (coalesced_request c, false) else
  let before := size (co_pending c) in
  let c := c <| co_pending := foldl (λ pending id, if (0 <? id)%Z then {[id]} ∪ pending else pending)
                                (co_pending c) accountIDs |> in
  (if (size (co_pending c) =? before)%nat then coalesced_request c else counted_request now c, true).

Definition RequestFullFrom (now : time) (source : string) (c : Coordinator) : Coordinator :=
  let c := addSource source c in
  if co_pendingFull c then coalesced_request c
  else counted_request now c <| co_pendingFull := true |> <| co_pending := ∅ |>.

Record taken := mkTaken {
  tk_full : bool;
  tk_ids : list Z;
  tk_sources : list string;
  tk_requests : Z;
  tk_coalesced : Z;
  tk_queueWait : duration;
}.

Definition takePending (now : time) (c : Coordinator) : taken * Coordinator :=
  let full := co_pendingFull c in
  (mkTaken full (if full then [] else sort_slice Z.ltb (elements (co_pending c)))
     (sort_slice string_less (elements (co_sources c))) (co_requests c) (co_coalesced c)
     (if is_zero_time (co_requestedAt c) then 0%Z else sub_time now (co_requestedAt c)),
   c <| co_pendingFull := false |> <| co_pending := ∅ |> <| co_sources := ∅ |>
     <| co_requests := 0%Z |> <| co_coalesced := 0%Z |> <| co_requestedAt := zero_time |>).

(** A non-blocking send. *)
Definition signal (c : Coordinator) : Coordinator := c <| co_wake := true |>.

(** ** What a pass is given *)

Inductive request :=
  | Accounts (source : string) (ids : list Z)
  | Full (source : string).

Definition handle (c : Coordinator) (r : time * request) : Coordinator :=
  match r.2 with
  | Accounts source ids => (RequestAccountsFrom r.1 source ids c).1
  | Full source => RequestFullFrom r.1 source c
  end.

Definition is_full (r : time * request) : bool := match r.2 with Full _ => true | _ => false end.
Definition accounts_of (r : time * request) : list Z := match r.2 with Accounts _ ids => ids | _ => [] end.
Definition source_of (r : time * request) : string :=
  let source := trim_space (match r.2 with Accounts s _ => s | Full s => s end) in
  if bool_decide (source = "") then "unspecified" else source.

Lemma foldl_pending ids (p : gset Z) a :
  a ∈ foldl (λ pending id, if (0 <? id)%Z then {[id]} ∪ pending else pending) p ids
  ↔ a ∈ p ∨ (0 < a)%Z ∧ a ∈ ids.
Proof.
  revert p. induction ids as [|id ids IH]; intros p; cbn; [set_solver|]. rewrite IH.
  destruct (0 <? id)%Z eqn:E; [apply Z.ltb_lt in E|apply Z.ltb_ge in E]; rewrite ?elem_of_union, elem_of_cons.
  - set_solver.
  - split; [set_solver|]. intros [?|[Ha [->|?]]]; [by left|lia|by right].
Qed.

(** What the requests since the last pass have left pending. *)
Record collected (rs : list (time * request)) (c : Coordinator) : Prop := {
  cd_full : co_pendingFull c = existsb is_full rs;
  cd_pending : ∀ a, a ∈ co_pending c ↔ co_pendingFull c = false ∧ (0 < a)%Z ∧ ∃ r, r ∈ rs ∧ a ∈ accounts_of r;
  cd_sources : ∀ s, s ∈ co_sources c ↔ s ∈ source_of <$> rs;
  cd_count : ((co_requests c + co_coalesced c) mod 2 ^ 64 = Z.of_nat (length rs) mod 2 ^ 64)%Z;
}.

Lemma counted_mod n m k :
  ((n + m) mod 2 ^ 64 = k mod 2 ^ 64 → (next_uint64 n + m) mod 2 ^ 64 = (k + 1) mod 2 ^ 64
    ∧ (n + next_uint64 m) mod 2 ^ 64 = (k + 1) mod 2 ^ 64)%Z.
Proof.
  intros E. unfold next_uint64. rewrite Zplus_mod_idemp_l, Zplus_mod_idemp_r.
  rewrite <-(Zplus_mod_idemp_l k 1), <-E, Zplus_mod_idemp_l. split; f_equal; lia.
Qed.

(** The fields the bookkeeping of a request touches. *)
Lemma coalesced_fields c :
  co_pendingFull (coalesced_request c) = co_pendingFull c ∧ co_pending (coalesced_request c) = co_pending c
  ∧ co_sources (coalesced_request c) = co_sources c ∧ co_wake (coalesced_request c) = co_wake c
  ∧ co_requests (coalesced_request c) = co_requests c
  ∧ co_coalesced (coalesced_request c) = next_uint64 (co_coalesced c).
Proof. by destruct c. Qed.
Lemma counted_fields now c :
  co_pendingFull (counted_request now c) = co_pendingFull c ∧ co_pending (counted_request now c) = co_pending c
  ∧ co_sources (counted_request now c) = co_sources c ∧ co_wake (counted_request now c) = co_wake c
  ∧ co_requests (counted_request now c) = next_uint64 (co_requests c)
  ∧ co_coalesced (counted_request now c) = co_coalesced c.
Proof. unfold counted_request. destruct c, (is_zero_time _); done. Qed.

(** A section of a request, by the fields it leaves. *)
Lemma RequestAccountsFrom_fields now source ids c :
  let '(c', signals) := RequestAccountsFrom now source ids c in
  co_pendingFull c' = co_pendingFull c ∧ signals = negb (co_pendingFull c) ∧ co_wake c' = co_wake c
  ∧ co_sources c' = {[source_of (now, Accounts source ids)]} ∪ co_sources c
  ∧ co_pending c' = (if co_pendingFull c then co_pending c else
      foldl (λ pending id, if (0 <? id)%Z then {[id]} ∪ pending else pending) (co_pending c) ids)
  ∧ (co_requests c' = next_uint64 (co_requests c) ∧ co_coalesced c' = co_coalesced c
     ∨ co_requests c' = co_requests c ∧ co_coalesced c' = next_uint64 (co_coalesced c)).
Proof.
  unfold RequestAccountsFrom. destruct c as [d i full p src w n m t]. unfold addSource. upd.
  destruct full; cbn; [by repeat split; auto|]. unfold counted_request. cbn.
  destruct (_ =? _)%nat, (is_zero_time t); cbn; by repeat split; auto.
Qed.

Lemma RequestFullFrom_fields now source c :
  let c' := RequestFullFrom now source c in
  co_pendingFull c' = true ∧ co_wake c' = co_wake c
  ∧ co_sources c' = {[source_of (now, Full source)]} ∪ co_sources c
  ∧ co_pending c' = (if co_pendingFull c then co_pending c else ∅)
  ∧ (co_requests c' = next_uint64 (co_requests c) ∧ co_coalesced c' = co_coalesced c
     ∨ co_requests c' = co_requests c ∧ co_coalesced c' = next_uint64 (co_coalesced c)).
Proof.
  unfold RequestFullFrom. destruct c as [d i full p src w n m t]. unfold addSource. upd.
  destruct full; cbn; [by repeat split; auto|]. unfold counted_request. cbn.
  destruct (is_zero_time t); cbn; by repeat split; auto.
Qed.

Lemma collected_handle rs c r : collected rs c → collected (rs ++ [r]) (handle c r).
Proof.
  intros [Hf Hp Hs Hc].
  assert (∀ s, s ∈ {[source_of r]} ∪ co_sources c ↔ s ∈ source_of <$> rs ++ [r]) as Hsrc
    by (intros s; rewrite fmap_app, elem_of_app, elem_of_union, Hs; set_solver).
  assert (∀ n m, n = next_uint64 (co_requests c) ∧ m = co_coalesced c
      ∨ n = co_requests c ∧ m = next_uint64 (co_coalesced c) →
    (n + m) mod 2 ^ 64 = Z.of_nat (length (rs ++ [r])) mod 2 ^ 64)%Z as Hcount.
  { intros n m Hnm. rewrite length_app, Nat2Z.inj_add. destruct (counted_mod _ _ _ Hc) as [Ha Hb].
    destruct Hnm as [[-> ->]|[-> ->]]; done. }
  destruct r as [now [source ids|source]]; unfold handle; cbn [fst snd].
  - pose proof (RequestAccountsFrom_fields now source ids c) as Hr.
    destruct (RequestAccountsFrom now source ids c) as [c' signals]. cbn [fst].
    destruct Hr as (Ef & _ & _ & Es & Ep & En). split.
    + rewrite Ef, Hf, existsb_app. cbn. by rewrite !orb_false_r.
    + intros a. rewrite Ep, Ef. destruct (co_pendingFull c).
      * rewrite Hp. naive_solver.
      * rewrite foldl_pending, Hp. setoid_rewrite elem_of_app. setoid_rewrite list_elem_of_singleton.
        split; [|naive_solver].
        intros [(_ & Ha & r & Hr & Hin)|[Ha Hin]]; (split; [done|]; split; [done|]); [exists r; auto|].
        exists (now, Accounts source ids). auto.
    + intros s. rewrite Es. apply Hsrc.
    + by apply Hcount.
  - pose proof (RequestFullFrom_fields now source c) as Hr. cbv zeta in Hr.
    set (c' := RequestFullFrom now source c) in *. clearbody c'. destruct Hr as (Ef & _ & Es & Ep & En). split.
    + rewrite Ef, existsb_app. cbn. by rewrite orb_true_r.
    + intros a. rewrite Ep, Ef. split; [|naive_solver]. destruct (co_pendingFull c); [|set_solver].
      rewrite Hp. naive_solver.
    + intros s. rewrite Es. apply Hsrc.
    + by apply Hcount.
Qed.

Lemma collected_handles rs c : collected [] c → collected rs (foldl handle c rs).
Proof.
  intros Hc. rewrite <-(rev_involutive rs). generalize (rev rs). clear rs. intros rs.
  induction rs as [|r rs IH]; [done|]. cbn [rev]. rewrite foldl_app. cbn. by apply collected_handle.
Qed.

(** Nothing is pending, as before the first request and after a pass was given its work. *)
Definition at_rest (c : Coordinator) : Prop := collected [] c ∧ co_requestedAt c = zero_time.

(** A pass is given exactly what was requested since the previous one, however the
    requests came: a full pass if one of them was for all accounts, and otherwise the
    positive identifiers requested, each once and in ascending order; the sources of the
    requests, each once and in order; counters that add up to the number of requests,
    modulo their width; and it leaves nothing pending. *)
Theorem takePending_collects now rs c :
  at_rest c →
  let '(t, c') := takePending now (foldl handle c rs) in
  tk_full t = existsb is_full rs
  ∧ StronglySorted (λ a b, a < b)%Z (tk_ids t)
  ∧ (∀ a, a ∈ tk_ids t ↔ tk_full t = false ∧ (0 < a)%Z ∧ ∃ r, r ∈ rs ∧ a ∈ accounts_of r)
  ∧ StronglySorted (not_after string_less) (tk_sources t) ∧ NoDup (tk_sources t)
  ∧ (∀ s, s ∈ tk_sources t ↔ s ∈ source_of <$> rs)
  ∧ ((tk_requests t + tk_coalesced t) mod 2 ^ 64 = Z.of_nat (length rs) mod 2 ^ 64)%Z
  ∧ at_rest c' ∧ co_wake c' = co_wake (foldl handle c rs).
Proof.
  intros [Hrest _]. pose proof (collected_handles rs c Hrest) as [Hf Hp Hs Hc].
  set (c1 := foldl handle c rs) in *. clearbody c1. unfold takePending. cbn [tk_full tk_ids tk_sources tk_requests tk_coalesced].
  split_and!; try done.
  - destruct (co_pendingFull c1); [constructor|].
    pose proof (sort_slice_sorted Z.ltb (elements (co_pending c1))) as Hsort.
    assert (NoDup (sort_slice Z.ltb (elements (co_pending c1)))) as Hnd by (rewrite sort_slice_Permutation; apply NoDup_elements).
    induction Hsort as [|a l _ IH Hall]; [constructor|]. apply NoDup_cons in Hnd as [Hnot Hnd].
    constructor; [by apply IH|]. rewrite Forall_forall in *. intros b Hb. specialize (Hall b Hb).
    unfold not_after in Hall. assert (a ≠ b) by (by intros ->). lia.
  - intros a. destruct (co_pendingFull c1) eqn:Ef; [split; [by intros []%not_elem_of_nil|naive_solver]|].
    by rewrite elem_of_sort_slice, elem_of_elements, Hp.
  - apply (sort_slice_sorted string_less).
  - rewrite sort_slice_Permutation. apply NoDup_elements.
  - intros s. by rewrite elem_of_sort_slice, elem_of_elements.
  - destruct c1. split; [split; upd; try done; set_solver|done].
  - by destruct c1.
Qed.

Lemma NewCoordinator_at_rest options :
  at_rest (NewCoordinator options) ∧ co_wake (NewCoordinator options) = false
  ∧ (0 ≤ co_debounce (NewCoordinator options) ≤ 500 * millisecond)%Z ∧ (0 < co_interval (NewCoordinator options))%Z.
Proof.
  unfold NewCoordinator. rewrite <-(rev_involutive options). generalize (rev options). clear options.
  induction l as [|[v|v] l IH]; cbn [rev]; [|rewrite foldl_app; cbn [foldl apply_option]..].
  - split; [split; [split; cbn; try done; set_solver|done]|]. by vm_compute.
  - set (c := foldl _ _ _) in *. clearbody c. unfold WithReconcileDebounce.
    destruct (_ && _) eqn:E; [|done]. bool_facts. destruct c. upd. destruct IH as ([[] ?] & ? & ? & ?). cbn in *.
    split; [split; [split; done|done]|]. split_and!; done || lia.
  - set (c := foldl _ _ _) in *. clearbody c. unfold WithReconcileInterval.
    destruct (_ <? _)%Z eqn:E; [|done]. bool_facts. destruct c. upd. destruct IH as ([[] ?] & ? & ? & ?). cbn in *.
    split; [split; [split; done|done]|]. split_and!; done || lia.
Qed.

(** ** Goroutines *)

Inductive coordinator_phase :=
  | Asking (r : request)       (* before the section of a request *)
  | Signalling                 (* between the section and the signal *)
  | Finished
  | Waiting                    (* [Run], in its select *)
  | Ticked                     (* its ticker has fired *)
  | TickSignalling
  | Debouncing                 (* [waitDebounce] *)
  | Taking                     (* the head of the loop of [runPending] *)
  | Passing (t : taken)        (* in [ReconcileFull] or [ReconcileAccounts] *)
  | Stopped                    (* the context is done *)
  | Clock (now : time).        (* time passes *)

(** The coordinator and the clock. When several cases of a select are ready any of them
    is taken; the error of a pass is only logged. *)
Definition coordinator_turn (a : action) (s : Coordinator * time) (p : coordinator_phase)
    : option ((Coordinator * time) * coordinator_phase) :=
  let '(c, now) := s in
  match p, a with
  | Asking (Accounts source ids), Proceed =>
      let '(c, signals) := RequestAccountsFrom now source ids c in
      Some ((c, now), if signals then Signalling else Finished)
  | Asking (Full source), Proceed => Some ((RequestFullFrom now source c, now), Signalling)
  | Signalling, Proceed => Some ((signal c, now), Finished)
  | Waiting, Proceed =>
      if co_wake c
      then Some ((c <| co_wake := false |>, now), if (co_debounce c <=? 0)%Z then Taking else Debouncing)
      else None
  | Waiting, Fire => Some ((c, now), Ticked)
  | Ticked, Proceed => Some ((RequestFullFrom now "periodic" c, now), TickSignalling)
  | TickSignalling, Proceed => Some ((signal c, now), Taking)
  | Debouncing, Proceed => if co_wake c then Some ((c <| co_wake := false |>, now), Debouncing) else None
  | Debouncing, Fire => Some ((c, now), Taking)
  | Taking, Proceed =>
      let '(t, c) := takePending now c in
      Some ((c, now), if negb (tk_full t) && bool_decide (tk_ids t = []) then Waiting else Passing t)
  | Passing _, Proceed => Some ((c, now), Taking)
  | (Waiting | Debouncing | Taking), Cancel => Some ((c, now), Stopped)
  | Clock later, Proceed => Some ((c, Z.max now later), Finished)
  | _, _ => None
  end.

Definition coordinator_arrives (p : coordinator_phase) : bool :=
  match p with Asking _ | Waiting | Clock _ => true | _ => false end.

Definition coordinator (options : list CoordinatorOption) : machine :=
  mkMachine (Coordinator * time) coordinator_phase (NewCoordinator options, zero_time)
    coordinator_arrives coordinator_turn.

(** ** No request is lost *)

Definition work (c : Coordinator) : Prop := co_pendingFull c = true ∨ co_pending c ≠ ∅.

(** The goroutine will signal, or look at what is pending, or its context is done. *)
Definition rousing (p : coordinator_phase) : bool :=
  match p with
  | Signalling | Ticked | TickSignalling | Debouncing | Taking | Passing _ | Stopped => true
  | _ => false
  end.

(** While something is pending, the loop has been woken or is about to be. *)
Definition awake (s : Coordinator * time) (ps : list coordinator_phase) : Prop :=
  work s.1 → co_wake s.1 = true ∨ ∃ t p, ps !! t = Some p ∧ rousing p = true.

(** After a turn of goroutine [t]: it is rousing, or the token was put in, or the turn
    took nothing away and found no goroutine rousing itself. *)
Lemma awake_turn s s' ps t p p' :
  awake s ps → ps !! t = Some p →
  (work s'.1 → rousing p' = true ∨ co_wake s'.1 = true
     ∨ rousing p = false ∧ work s.1 ∧ (co_wake s.1 = true → co_wake s'.1 = true)) →
  awake s' (<[t := p']> ps).
Proof.
  intros Ha Ht Hcases Hw. destruct (Hcases Hw) as [Hp'|[Hk|(Hp & Hw0 & Hk)]].
  - right. exists t, p'. split; [|done]. apply list_lookup_insert_eq. by eapply lookup_lt_Some.
  - by left.
  - destruct (Ha Hw0) as [?|(t1 & p1 & Ht1 & Hp1)]; [left; auto|].
    right. exists t1, p1. split; [|done]. rewrite list_lookup_insert_ne; [done|]. intros ->. congruence.
Qed.

Lemma takePending_rests now c : ¬ work (takePending now c).2.
Proof. destruct c. cbn. by intros [?|?]. Qed.

Lemma coordinator_awake options s : reachable (coordinator options) s → awake s.1 s.2.
Proof.
  apply (reachable_invariant (coordinator options) (λ s, awake s.1 s.2)); cbn [fst snd].
  - destruct (NewCoordinator_at_rest options) as ([[Hf Hp _ _] _] & _). cbn in Hf.
    intros [Hw|Hw]; cbn [fst initial coordinator] in Hw; [congruence|].
    apply set_choose_L in Hw as [a [_ [_ (r & []%not_elem_of_nil & _)]]%Hp].
  - intros [c now] ps t a p [c' now'] p' Ha Ht Hturn. eapply awake_turn; [exact Ha|exact Ht|]. cbn [fst].
    cbn [turn coordinator] in Hturn.
    destruct p, a; cbn [coordinator_turn] in Hturn; try discriminate Hturn; try (destruct r; discriminate Hturn).
    + destruct r as [source ids|source]; [|injection Hturn as <- <- <-; by left].
      pose proof (RequestAccountsFrom_fields now source ids c) as Hr.
      destruct (RequestAccountsFrom now source ids c) as [c1 signals].
      destruct Hr as (Ef & -> & Ek & _ & Ep & _). injection Hturn as <- <- <-.
      destruct (co_pendingFull c) eqn:E; cbn; [|by left]. intros _. right; right. split; [done|].
      split; [by left|]. by rewrite Ek.
    + injection Hturn as <- <- <-. intros _. right; left. by destruct c.
    + destruct (co_wake c); [|discriminate Hturn]. injection Hturn as <- <- <-. left. by destruct (_ <=? _)%Z.
    + injection Hturn as <- <- <-. by left.
    + injection Hturn as <- <- <-. by left.
    + injection Hturn as <- <- <-. by left.
    + injection Hturn as <- <- <-. by left.
    + destruct (co_wake c); [|discriminate Hturn]. injection Hturn as <- <- <-. by left.
    + injection Hturn as <- <- <-. by left.
    + injection Hturn as <- <- <-. by left.
    + pose proof (takePending_rests now c) as Hn. destruct (takePending now c) as [t1 c1].
      injection Hturn as <- <- <-. cbn in Hn. by intros Hw.
    + injection Hturn as <- <- <-. by left.
    + injection Hturn as <- <- <-. by left.
    + injection Hturn as <- <- <-. intros Hw. right; right. by split; [|split].
  - intros s1 ps p Ha _ Hw. destruct (Ha Hw) as [?|(t & p1 & Ht & Hp)]; [by left|].
    right. exists t, p1. split; [|done]. by apply lookup_app_l_Some.
Qed.

(** ** Progress *)

(** The pass is for the account. *)
Definition covers (t : taken) (account : Z) : Prop := tk_full t = true ∨ account ∈ tk_ids t.
Definition wanted (c : Coordinator) (account : Z) : Prop := co_pendingFull c = true ∨ account ∈ co_pending c.

Definition in_loop (p : coordinator_phase) : bool :=
  match p with
  | Waiting | Ticked | TickSignalling | Debouncing | Taking | Passing _ => true
  | _ => false
  end.

(** The turns that answer a request: all but the ticks of the loop, which come without
    one, and the end of a context. *)
Definition answers (a : action) (p : coordinator_phase) : bool :=
  match a, p with Cancel, _ | Fire, Waiting => false | _, _ => true end.

Section progress.
Context (options : list CoordinatorOption) (account : Z).
Abbreviation M := (coordinator options).
Abbreviation works := (moves M answers).

(** The next turn of some goroutine begins a pass for the account. *)
Definition serving (s : system M) : Prop :=
  ∃ t c' p, s.2 !! t = Some Taking ∧ turn M Proceed s.1 Taking = Some (c', Passing p) ∧ covers p account.

Lemma insert_phase {A} (ps : list A) t p p' : ps !! t = Some p → <[t := p']> ps !! t = Some p'.
Proof. intros Ht. apply list_lookup_insert_eq. by eapply lookup_lt_Some. Qed.

Lemma taking_serves c now ps t : ps !! t = Some Taking → wanted c account → serving ((c, now), ps).
Proof.
  intros Ht Hw. pose (r := takePending now c).
  assert (covers r.1 account) as Hc.
  { destruct Hw as [Hw|Hw]; unfold covers, r, takePending; cbn; [by left|].
    destruct (co_pendingFull c) eqn:E; [by left|right]. by rewrite elem_of_sort_slice, elem_of_elements. }
  exists t, (r.2, now), r.1. split; [exact Ht|]. split; [|exact Hc].
  cbn [turn coordinator coordinator_turn fst]. fold r. destruct r as [t1 c1]. cbn in Hc |- *.
  destruct Hc as [-> |Hin]; [done|]. rewrite bool_decide_false by (intros E; rewrite E in Hin; by apply not_elem_of_nil in Hin).
  by rewrite andb_false_r.
Qed.

(** From wherever the loop is, once it has been woken. *)
Lemma loop_serves c now ps t p :
  ps !! t = Some p → in_loop p = true → (p = Waiting → co_wake c = true) → wanted c account →
  ∃ s', bsteps works 2 ((c, now), ps) s' ∧ serving s'.
Proof.
  assert (∀ n c ps t, ps !! t = Some Taking → wanted c account →
    ∃ s', bsteps works n ((c, now), ps) s' ∧ serving s') as Htake.
  { intros n c1 ps1 t1 Ht Hw. eexists. split; [apply bsteps_refl|]. by apply (taking_serves c1 now ps1 t1). }
  assert (∀ n c ps t p, works ((c, now), ps) ((c, now), <[t := Taking]> ps) → ps !! t = Some p →
    wanted c account → ∃ s', bsteps works (S n) ((c, now), ps) s' ∧ serving s') as Hthen.
  { intros n c1 ps1 t1 p1 Hm Ht Hw. destruct (Htake n c1 (<[t1 := Taking]> ps1) t1) as (s' & Hs & Hp); [by eapply insert_phase|done|].
    exists s'. split; [|done]. eapply bsteps_l; [exact Hm|exact Hs]. }
  intros Ht Hp Hk Hw. destruct p; try discriminate Hp.
  - eapply (moves_then M answers t Proceed); [done|exact Ht|cbn; by rewrite Hk|].
    assert (wanted (c <| co_wake := false |>) account) as Hw' by by destruct c.
    destruct (co_debounce c <=? 0)%Z; [eapply Htake; [by eapply insert_phase|done]|].
    eapply Hthen; [|by eapply insert_phase|done]. exists t, Fire, Debouncing. eexists _, Taking.
    split; [done|]. split; [by eapply insert_phase|]. done.
  - eapply (moves_then M answers t Proceed); [done|exact Ht|done|].
    assert (wanted (RequestFullFrom now "periodic" c) account) as Hw'
      by (left; apply (RequestFullFrom_fields now "periodic" c)).
    eapply (moves_then M answers t Proceed); [done|by eapply insert_phase|done|].
    apply Htake with t; [by eapply insert_phase, insert_phase|].
    unfold wanted, signal in *. by destruct (RequestFullFrom now "periodic" c).
  - eapply (moves_then M answers t Proceed); [done|exact Ht|done|].
    apply (Htake 1%nat _ _ t); [by eapply insert_phase|]. by destruct c.
  - eapply (Hthen 1%nat); [|exact Ht|done]. exists t, Fire, Debouncing. by eexists _, Taking.
  - by eapply (Htake 2%nat).
  - eapply (Hthen 1%nat); [|exact Ht|done]. exists t, Proceed. by eexists _, _, Taking.
Qed.
(** The turn begins a pass for the account. *)
Definition begins (s s' : system M) : Prop :=
  ∃ t p, s.2 !! t = Some Taking ∧ s'.2 !! t = Some (Passing p) ∧ covers p account.
Definition defers (s s' : system M) : Prop := works s s' ∧ ¬ begins s s'.

(** A loop is running, no context is done, and the account is pending. *)
Definition pending (s : system M) : Prop :=
  wanted s.1.1 account ∧ Stopped ∉ s.2 ∧ ∃ t p, s.2 !! t = Some p ∧ in_loop p = true.

Lemma pending_serves s : reachable M s → pending s → ∃ s', bsteps works 3 s s' ∧ serving s'.
Proof.
  destruct s as [[c now] ps]. intros Hr (Hw & Hrun & t & p & Ht & Hp). cbn in Hw, Hrun, Ht.
  assert (work c) as Hwork by (destruct Hw as [?|Hin]; [by left|right; intros E; rewrite E in Hin; by apply elem_of_empty in Hin]).
  assert (∀ t p, ps !! t = Some p → in_loop p = true → (p = Waiting → co_wake c = true) →
    ∃ s, bsteps works 3 ((c, now), ps) s ∧ serving s) as Hloop.
  { intros t1 p1 Ht1 Hp1 Hk1. destruct (loop_serves c now ps t1 p1) as (s & Hs & Hserving); [done..|].
    exists s. split; [|done]. apply (bsteps_weaken 2); [lia|done]. }
  destruct (coordinator_awake options _ Hr Hwork) as [Hk|(t1 & p1 & Ht1 & Hp1)]; [by eapply Hloop|].
  destruct (decide (in_loop p1 = true)) as [Hl|Hl].
  { apply (Hloop t1 p1); [done|done|]. by intros ->. }
  assert (p1 = Signalling) as ->.
  { destruct p1; try done. exfalso. apply Hrun. by eapply (list_elem_of_lookup_2 ps t1). }
  eapply (moves_then M answers t1 Proceed); [done|exact Ht1|done|].
  apply (loop_serves _ now _ t p); [|done|by destruct c|by destruct c].
  rewrite list_lookup_insert_ne; [done|]. intros ->. pose proof (eq_trans (eq_sym Ht) Ht1) as [= ->]. done.
Qed.

(** A turn keeps what is wanted, unless it takes it into a pass. *)
Lemma turn_keeps a c now p c' now' p' :
  answers a p = true → coordinator_turn a (c, now) p = Some ((c', now'), p') → wanted c account →
  wanted c' account ∨ p = Taking ∧ ∃ t, p' = Passing t ∧ covers t account.
Proof.
  intros Ha Hturn Hw. destruct p, a; cbn [coordinator_turn] in Hturn; try discriminate Ha; try discriminate Hturn;
    try (destruct r; discriminate Hturn); try (injection Hturn as <- <- <-; left; by destruct c).
  - left. destruct r as [source ids|source].
    + pose proof (RequestAccountsFrom_fields now source ids c) as Hr.
      destruct (RequestAccountsFrom now source ids c) as [c1 signals]. destruct Hr as (Ef & _ & _ & _ & Ep & _).
      injection Hturn as <- <- <-. unfold wanted in *. rewrite Ef, Ep. destruct (co_pendingFull c); [by left|].
      destruct Hw as [?|Hw]; [done|]. right. apply foldl_pending. by left.
    + injection Hturn as <- <- <-. left. apply (RequestFullFrom_fields now source c).
  - left. destruct (co_wake c); [|discriminate Hturn]. injection Hturn as <- <- <-. by destruct c.
  - left. injection Hturn as <- <- <-. left. apply (RequestFullFrom_fields now "periodic" c).
  - left. destruct (co_wake c); [|discriminate Hturn]. injection Hturn as <- <- <-. by destruct c.
  - right. split; [done|]. destruct (taking_serves c now [Taking] 0 eq_refl Hw) as (t & c1 & q & Ht & Hq & Hc).
    destruct t; [|done]. cbn [turn coordinator coordinator_turn fst] in Hq. rewrite Hturn in Hq. injection Hq as <- ->. by exists q.
Qed.

(** The goroutines of the loop stay in it. *)
Lemma turn_stays a s p s' p' :
  answers a p = true → coordinator_turn a s p = Some (s', p') → (in_loop p = true → in_loop p' = true) ∧ p' ≠ Stopped.
Proof.
  destruct s as [c now]. intros Ha Hturn. destruct p, a; cbn [coordinator_turn] in Hturn; try discriminate Ha; try discriminate Hturn;
    try (destruct r; discriminate Hturn); try (by injection Hturn as <- <-).
  - destruct r; [destruct (RequestAccountsFrom _ _ _ _) as [? []]|]; by injection Hturn as <- <-.
  - destruct (co_wake c); [|discriminate Hturn]. injection Hturn as <- <-. by destruct (_ <=? _)%Z.
  - destruct (co_wake c); [|discriminate Hturn]. by injection Hturn as <- <-.
  - destruct (takePending now c). destruct (_ && _); by injection Hturn as <- <-.
Qed.

Lemma defers_pending s s' : pending s → defers s s' → pending s'.
Proof.
  destruct s as [[c now] ps]. intros (Hw & Hrun & t & p & Ht & Hp) [(t1 & a & p1 & [c' now'] & p1' & Ha & Ht1 & Hturn & ->) Hnot].
  cbn in Hw, Hrun, Ht, Ht1. change (coordinator_turn a (c, now) p1 = Some ((c', now'), p1')) in Hturn. destruct (turn_stays _ _ _ _ _ Ha Hturn) as [Hl Hs].
  pose proof (insert_phase ps t1 p1 p1' Ht1) as Ht1'. split; [|split].
  - destruct (turn_keeps _ _ _ _ _ _ _ Ha Hturn Hw) as [?|(-> & q & -> & Hc)]; [done|]. destruct Hnot. by exists t1, q.
  - cbn. intros (i & Hi)%list_elem_of_lookup. apply lookup_insert_phase in Hi as [[_ ?]|[_ Hi]]; [done|].
    apply Hrun. by eapply list_elem_of_lookup_2.
  - destruct (decide (t = t1)) as [->|Hne].
    + exists t1, p1'. split; [done|]. apply Hl. cbn in *. congruence.
    + exists t, p. split; [|done]. cbn. by rewrite list_lookup_insert_ne.
Qed.

(** What the goroutines have left to do. *)
Definition token_and_work (s : Coordinator * time) : nat :=
  (if co_wake s.1 then 3 else 0) + (if co_pendingFull s.1 || negb (bool_decide (co_pending s.1 = ∅)) then 2 else 0).
Definition turns_left (p : coordinator_phase) : nat :=
  match p with
  | Asking _ => 7 | Signalling => 4 | Ticked => 9 | TickSignalling => 5 | Debouncing => 2 | Taking => 1 | Passing _ => 2
  | Clock _ => 1 | Finished | Waiting | Stopped => 0
  end.

Lemma turn_spends a s p s' p' :
  answers a p = true → coordinator_turn a s p = Some (s', p') →
  token_and_work s' + turns_left p' < token_and_work s + turns_left p.
Proof.
  destruct s as [c now]. intros Ha Hturn. unfold token_and_work.
  destruct p, a; cbn [coordinator_turn] in Hturn; try discriminate Ha; try discriminate Hturn; try (destruct r; discriminate Hturn).
  - destruct r as [source ids|source].
    + pose proof (RequestAccountsFrom_fields now source ids c) as Hr.
      destruct (RequestAccountsFrom now source ids c) as [c1 signals]. destruct Hr as (Ef & _ & Ek & _).
      injection Hturn as <- <-. cbn [fst]. rewrite Ek. cbn [turns_left]. repeat case_match; cbn; lia.
    + pose proof (RequestFullFrom_fields now source c) as (_ & Ek & _). injection Hturn as <- <-. cbn [fst]. rewrite Ek.
      cbn [turns_left]. repeat case_match; lia.
  - injection Hturn as <- <-. destruct c as [? ? f q ? [] ? ? ?]; cbn; lia.
  - destruct (co_wake c) eqn:Ek; [|discriminate Hturn]. injection Hturn as <- <-. destruct c as [? ? f q ? k ? ? ?]. cbn in *. subst k.
    repeat case_match; cbn; lia.
  - pose proof (RequestFullFrom_fields now "periodic" c) as (_ & Ek & _). injection Hturn as <- <-. cbn [fst]. rewrite Ek.
    cbn [turns_left]. repeat case_match; lia.
  - injection Hturn as <- <-. destruct c as [? ? f q ? [] ? ? ?]; cbn; lia.
  - destruct (co_wake c) eqn:Ek; [|discriminate Hturn]. injection Hturn as <- <-. destruct c as [? ? f q ? k ? ? ?]. cbn in *. subst k.
    cbn. lia.
  - injection Hturn as <- <-. cbn. lia.
  - destruct c as [? ? f q ? k ? ? ?]. cbn in Hturn. destruct f; cbn in Hturn; injection Hturn as <- <-; cbn [fst co_wake co_pendingFull co_pending orb].
    + rewrite (bool_decide_true (∅ = ∅)) by done. destruct k; cbn; lia.
    + rewrite (bool_decide_true (∅ = ∅)) by done. destruct (decide (q = ∅)) as [->|Hq].
      * rewrite (bool_decide_true (∅ = ∅)), elements_empty, (bool_decide_true (sort_slice Z.ltb [] = [])) by done. destruct k; cbn; lia.
      * rewrite (bool_decide_false (q = ∅)) by done. destruct (bool_decide (sort_slice _ _ = [])), k; cbn; lia.
  - injection Hturn as <- <-. cbn. lia.
  - injection Hturn as <- <-. cbn. lia.
Qed.
End progress.

(** C17: no request for a pass is lost, however the goroutines are scheduled and without
    the ticker. Take any reachable state of the coordinator, with any number of goroutines
    requesting passes, in which an account is pending, or a full pass is, a loop is
    running and no context is done; and from there any run of turns of the goroutines
    already there, the ticks left out, that has not begun a pass which covers the account.
    The run is no longer than what those goroutines had left to do, and it is not stuck:
    at most three more turns, none of them a tick, lead to one that takes what is pending
    and begins a pass that covers the account. So every run without further requests
    begins such a pass: no wake-up is missed. *)
Theorem coordinator_loses_no_request options account s n s' :
  reachable (coordinator options) s → pending options account s →
  nsteps (defers options account) n s s' →
  n ≤ budget (coordinator options) token_and_work turns_left s
  ∧ ∃ s'', bsteps (moves (coordinator options) answers) 3 s' s'' ∧ serving options account s''.
Proof.
  intros Hr Hp Hn. split.
  - enough (n + budget (coordinator options) token_and_work turns_left s' ≤ budget (coordinator options) token_and_work turns_left s) by lia.
    apply (moves_spend (coordinator options) answers); [apply turn_spends|].
    clear Hr Hp. induction Hn as [|n s s1 s2 [Hs _] _ IH]; [constructor|by econstructor].
  - enough (reachable (coordinator options) s' ∧ pending options account s') as [? ?] by by apply pending_serves.
    induction Hn as [|n s s1 s2 Hs _ IH]; [done|]. apply IH.
    + eapply reachable_step; [exact Hr|]. apply (moves_step (coordinator options) answers), Hs.
    + by eapply defers_pending.
Qed.

(** ** A run of the coordinator *)

(** One goroutine asks for two accounts, another for one of them, while a pass is under
    way: the next pass is for both. *)
Definition asked_during_a_pass : list (move (coordinator [ReconcileDebounce 0])) :=
  let M := coordinator [ReconcileDebounce 0] in
  [Call (M:=M) Waiting; Call (M:=M) (Asking (Full "start")); Turn 1 Proceed; Turn 1 Proceed; Turn 0 Proceed; Turn 0 Proceed;
   Call (M:=M) (Asking (Accounts "balance" [9; 4; -1]%Z)); Turn 2 Proceed;
   Call (M:=M) (Asking (Accounts "" [4]%Z)); Turn 3 Proceed].

Definition during_a_pass : option (system (coordinator [ReconcileDebounce 0])) :=
  plays (coordinator [ReconcileDebounce 0]) (initial (coordinator [ReconcileDebounce 0]), []) asked_during_a_pass.

Lemma coordinator_loses_no_request_witness :
  match during_a_pass with
  | Some s => s.2 = [Passing (mkTaken true [] ["start"] 1 0 0); Finished; Signalling; Signalling]
      ∧ co_pending s.1.1 = {[4; 9]}%Z
      ∧ budget (coordinator [ReconcileDebounce 0]) token_and_work turns_left s = 12
      ∧ ∃ s', nsteps (defers [ReconcileDebounce 0] 9) 1 s s'
        ∧ ∃ s'', bsteps (moves (coordinator [ReconcileDebounce 0]) answers) 3 s' s'' ∧ serving [ReconcileDebounce 0] 9 s''
  | None => False
  end.
Proof.
  assert (snd <$> during_a_pass = Some [Passing (mkTaken true [] ["start"] 1 0 0); Finished; Signalling; Signalling])
    as Eps by (vm_compute; reflexivity).
  assert ((λ s : system (coordinator [ReconcileDebounce 0]), co_pending s.1.1) <$> during_a_pass = Some {[4; 9]}%Z) as Ep
    by (vm_compute; reflexivity).
  assert ((λ s, budget (coordinator [ReconcileDebounce 0]) token_and_work turns_left s) <$> during_a_pass = Some 12) as Eb
    by (vm_compute; reflexivity).
  destruct during_a_pass as [[[c now] ps]|] eqn:E; [|discriminate Eps].
  cbn in Eps, Ep. injection Eps as ->. injection Ep as Ec. injection Eb as Eb. cbn [fst snd]. rewrite Ec.
  split; [reflexivity|]. split; [reflexivity|]. split; [exact Eb|].
  assert (nsteps (defers [ReconcileDebounce 0] 9) 1
    ((c, now), [Passing (mkTaken true [] ["start"] 1 0 0); Finished; Signalling; Signalling])
    ((signal c, now), [Passing (mkTaken true [] ["start"] 1 0 0); Finished; Finished; Signalling])) as Hstep.
  { eapply nsteps_l; [|constructor]. split; [exists 2, Proceed, Signalling, (signal c, now), Finished; split_and!; reflexivity|].
    intros (t & p & Ht & Hp & _). destruct t as [|[|[|[|[]]]]]; discriminate Ht. }
  eexists. split; [exact Hstep|].
  refine (proj2 (coordinator_loses_no_request [ReconcileDebounce 0] 9 _ _ _ _ _ Hstep)).
  - eapply plays_reachable; [apply reachable_start|exact E].
  - split; [right; cbn; rewrite Ec; apply (bool_decide_unpack _); vm_compute; exact I|]. split.
    + intros Hin. repeat (apply elem_of_cons in Hin as [Hin|Hin]; [discriminate Hin|]). by apply not_elem_of_nil in Hin.
    + exists 0, (Passing (mkTaken true [] ["start"] 1 0 0)). split; reflexivity.
Defined.

Lemma takePending_collects_witness :
  let c := foldl handle (NewCoordinator []) [(5, Accounts " admin " [9; 4; -1]); (6, Accounts "" [4])]%Z in
  let '(t, c') := takePending 8 c in
  tk_ids t = [4; 9]%Z ∧ tk_sources t = ["admin"; "unspecified"] ∧ tk_queueWait t = 3%Z ∧ at_rest c'.
Proof.
  cbv zeta. pose proof (takePending_collects 8 [(5, Accounts " admin " [9; 4; -1]); (6, Accounts "" [4])]%Z
    (NewCoordinator []) (proj1 (NewCoordinator_at_rest []))) as Hc.
  destruct (takePending 8 _) as [t c'] eqn:E. vm_compute in E. injection E as <- <-.
  split; [reflexivity|]. split; [reflexivity|]. split; [reflexivity|]. apply Hc.
Defined.
