(* ===== verification/MutationError.v ===== *)
(** * Errors of external writes

    [internal/mutation/error.go]: whether an error of a write means that the upstream
    refused it, or leaves open whether it was carried out. An error is a tree: texts,
    [fmt.Errorf] with [%w], [errors.Join], the [Error] of the package, and errors made by
    code that is not modelled, of which the text and the answers to [errors.As] for the two
    interfaces of the package are kept. *)

From S2P Require Import Prelude GoStd.

Inductive failure :=
  | Foreign (text : string) (uncertain rejected : option bool)
  | NewFailure (text : string)
  | WrapFailure (text : string) (cause : failure)       (* fmt.Errorf(text + "%w", cause) *)
  | JoinFailures (failures : list failure)
  | UncertainFailure (operation : string) (cause : failure).

(** [Error()]; the operation of an [Error] is written trimmed. *)
Definition operation_text (operation : string) : string :=
  let operation := trim_space operation in
  if bool_decide (operation = "") then "外部写入" else operation.

Definition newline : string := string_of_bytes [0x0A%N].
Fixpoint join_lines (l : list string) : string :=
  match l with
  | [] => ""
  | [s] => s
  | s :: l => s +:+ newline +:+ join_lines l
  end.

Fixpoint failure_text (e : failure) : string :=
  match e with
  | Foreign text _ _ | NewFailure text => text
  | WrapFailure text cause => text +:+ failure_text cause
  | JoinFailures l => join_lines (map failure_text l)
  | UncertainFailure operation cause => operation_text operation +:+ "结果不明确: " +:+ failure_text cause
  end.

(** [errors.As]: the first error of the tree, from its root, that answers. *)
Fixpoint first_answer {A} (l : list (option A)) : option A :=
  match l with
  | [] => None
  | Some a :: _ => Some a
  | None :: l => first_answer l
  end.

Fixpoint as_uncertain (e : failure) : option bool :=
  match e with
  | Foreign _ uncertain _ => uncertain
  | NewFailure _ => None
  | WrapFailure _ cause => as_uncertain cause
  | JoinFailures l => first_answer (map as_uncertain l)
  | UncertainFailure _ _ => Some true
  end.

Fixpoint as_rejected (e : failure) : option bool :=
  match e with
  | Foreign _ _ rejected => rejected
  | NewFailure _ => None
  | WrapFailure _ cause | UncertainFailure _ cause => as_rejected cause
  | JoinFailures l => first_answer (map as_rejected l)
  end.

(** ** [definiteHTTP4xx]

    [(?i)(?:HTTP\s*|returned(?:\s+code)?\s+)(4\d\d)\b], on bytes: none of its letters has
    a case variant outside ASCII. *)

Definition re_space (b : N) : bool := bool_decide (b ∈ [0x09; 0x0A; 0x0C; 0x0D; 0x20]%N).
Definition re_digit (b : N) : bool := (0x30 <=? b)%N && (b <=? 0x39)%N.
Definition re_word (b : N) : bool :=
  re_digit b || (0x61 <=? fold_byte b)%N && (fold_byte b <=? 0x7A)%N || (b =? 0x5F)%N.

(** A literal, without regard to case; what follows it. *)
Fixpoint re_literal (p l : list N) : option (list N) :=
  match p, l with
  | [], _ => Some l
  | a :: p, b :: l => if (fold_byte b =? a)%N then re_literal p l else None
  | _ :: _, [] => None
  end.

Fixpoint re_spaces (l : list N) : list N :=
  match l with
  | b :: t => if re_space b then re_spaces t else l
  | [] => []
  end.
(** [\s+] *)
Definition re_gap (l : list N) : option (list N) :=
  match l with
  | b :: t => if re_space b then Some (re_spaces t) else None
  | [] => None
  end.

(** [(4\d\d)\b] *)
Definition re_4xx (l : list N) : bool :=
  match l with
  | a :: b :: c :: rest =>
      (a =? 0x34)%N && re_digit b && re_digit c && match rest with d :: _ => negb (re_word d) | [] => true end
  | _ => false
  end.

Definition re_here (l : list N) : bool :=
  match re_literal (bytes_of "http") l with Some rest => re_4xx (re_spaces rest) | None => false end
  || match re_literal (bytes_of "returned") l ≫= re_gap with
     | Some rest =>
         re_4xx rest
         || match re_literal (bytes_of "code") rest ≫= re_gap with Some rest => re_4xx rest | None => false end
     | None => false
     end.

Fixpoint re_anywhere (l : list N) : bool :=
  re_here l || match l with [] => false | _ :: t => re_anywhere t end.

Definition definiteHTTP4xx (text : string) : bool := re_anywhere (bytes_of text).

(** ** The package *)

Definition IsUncertain (e : failure) : bool := default false (as_uncertain e).

Definition DefinitelyRejected (e : option failure) : bool :=
  match e with
  | None => false
  | Some e => default false (as_rejected e) || definiteHTTP4xx (failure_text e)
  end.

Definition Wrap (operation : string) (e : option failure) : failure :=
  let e := default (NewFailure "未获得确认结果") e in
  if DefinitelyRejected (Some e) then WrapFailure (operation_text operation +:+ "被上游明确拒绝: ") e
  else UncertainFailure operation e.

(** ** The pattern as a regular expression *)

Module Regexp.
Inductive re :=
  | Sym (p : N → bool)
  | Nil
  | Cat (a b : re)
  | Alt (a b : re)
  | Star (a : re).

Inductive matches : re → list N → Prop :=
  | m_sym p b : p b = true → matches (Sym p) [b]
  | m_nil : matches Nil []
  | m_cat a b l1 l2 : matches a l1 → matches b l2 → matches (Cat a b) (l1 ++ l2)
  | m_alt_l a b l : matches a l → matches (Alt a b) l
  | m_alt_r a b l : matches b l → matches (Alt a b) l
  | m_star_nil a : matches (Star a) []
  | m_star_cons a l1 l2 : matches a l1 → matches (Star a) l2 → matches (Star a) (l1 ++ l2).

Definition literal (s : string) : re :=
  foldr (λ c r, Cat (Sym (λ b, fold_byte b =? c)%N) r) Nil (bytes_of s).
Definition gap : re := Cat (Sym re_space) (Star (Sym re_space)).
Definition digit : re := Sym re_digit.

(** [(?:HTTP\s*|returned(?:\s+code)?\s+)4\d\d], without regard to case *)
Definition pattern : re :=
  Cat (Alt (Cat (literal "http") (Star (Sym re_space)))
           (Cat (literal "returned") (Cat (Alt (Cat gap (literal "code")) Nil) gap)))
    (Cat (Sym (λ b, b =? 0x34)%N) (Cat digit digit)).

(** [\b] after a word character *)
Definition boundary (rest : list N) : Prop := match rest with [] => True | b :: _ => re_word b = false end.

(** What [f] accepts begins with what [r] matches, followed by what [g] accepts. *)
Definition reads (f : list N → bool) (r : re) (g : list N → bool) : Prop :=
  ∀ l, f l = true ↔ ∃ m rest, l = m ++ rest ∧ matches r m ∧ g rest = true.

Lemma reads_cat f g h a b : reads f a g → reads g b h → reads f (Cat a b) h.
Proof.
  intros Hf Hg l. rewrite (Hf l). split.
  - intros (m & rest & -> & Hm & Hr). apply Hg in Hr as (m' & rest' & -> & Hm' & Hr').
    exists (m ++ m'), rest'. rewrite (assoc_L (++)). split; [done|]. by split; [constructor|].
  - intros (m & rest & -> & Hm & Hr). inversion Hm; subst. eexists l1, (l2 ++ rest).
    rewrite (assoc_L (++)). split; [done|]. split; [done|]. apply Hg. eauto.
Qed.

Lemma reads_alt f f1 f2 g a b :
  (∀ l, f l = f1 l || f2 l) → reads f1 a g → reads f2 b g → reads f (Alt a b) g.
Proof.
  intros Hf H1 H2 l. rewrite Hf, orb_true_iff, (H1 l), (H2 l). split.
  - intros [(m & rest & ? & ? & ?)|(m & rest & ? & ? & ?)]; exists m, rest; (split; [done|]);
      (split; [|done]); [by apply m_alt_l|by apply m_alt_r].
  - intros (m & rest & ? & Hm & ?). inversion Hm; subst; eauto 10.
Qed.

Lemma reads_nil g : reads g Nil g.
Proof.
  intros l. split; [intros ?; exists [], l; split; [done|]; by split; [constructor|]|].
  intros (m & rest & -> & Hm & ?). by inversion Hm.
Qed.

Lemma reads_sym p g : reads (λ l, match l with b :: l => p b && g l | [] => false end) (Sym p) g.
Proof.
  intros l. split.
  - destruct l as [|b l]; [done|]. intros [Hp Hg]%andb_true_iff. exists [b], l. split; [done|]. by split; [constructor|].
  - intros (m & rest & -> & Hm & ?). inversion Hm; subst. cbn. by apply andb_true_iff.
Qed.

Lemma reads_literal s g :
  reads (λ l, match re_literal (bytes_of s) l with Some rest => g rest | None => false end) (literal s) g.
Proof.
  unfold literal. induction (bytes_of s) as [|c p IH]; [apply reads_nil|].
  intros l. etrans; [|apply (reads_cat _ _ g _ _ (reads_sym _ _) IH l)]. destruct l as [|b l]; [done|]. cbn.
  by destruct (fold_byte b =? c)%N.
Qed.

(** Spaces before something that does not begin with one. *)
Definition unspaced (g : list N → bool) : Prop := ∀ l, g l = true → re_spaces l = l.

Lemma reads_spaces g : unspaced g → reads (λ l, g (re_spaces l)) (Star (Sym re_space)) g.
Proof.
  intros Hg l. split.
  - induction l as [|b l IH]; cbn.
    + intros ?. exists [], []. split; [done|]. by split; [constructor|].
    + destruct (re_space b) eqn:Hb; [|intros ?; exists [], (b :: l); split; [done|]; by split; [constructor|]].
      intros (m & rest & -> & Hm & ?)%IH. exists ([b] ++ m), rest. split; [done|].
      split; [|done]. constructor; [by constructor|done].
  - intros (m & rest & -> & Hm & Hr). remember (Star (Sym re_space)) as r eqn:E.
    induction Hm as [| | | | | |a l1 l2 Ha _ Hs IH]; simplify_eq; cbn; [by rewrite Hg|].
    inversion Ha as [p b Hb| | | | | |]; subst. cbn. rewrite Hb. by apply IH.
Qed.

Lemma reads_gap g :
  unspaced g → reads (λ l, match re_gap l with Some rest => g rest | None => false end) gap g.
Proof.
  intros Hg l. unfold gap. etrans; [|apply (reads_cat _ _ g _ _ (reads_sym _ _) (reads_spaces g Hg) l)].
  destruct l as [|b l]; [done|]. cbn. by destruct (re_space b).
Qed.

Lemma reads_4xx :
  reads re_4xx (Cat (Sym (λ b, b =? 0x34)%N) (Cat digit digit))
    (λ rest, match rest with d :: _ => negb (re_word d) | [] => true end).
Proof.
  intros l. etrans; [|apply (reads_cat _ _ _ _ _ (reads_sym _ _) (reads_cat _ _ _ _ _ (reads_sym _ _) (reads_sym _ _)) l)].
  unfold re_4xx. destruct l as [|a [|b [|c l]]]; rewrite ?andb_false_r; try done. by rewrite !andb_assoc.
Qed.

Lemma re_4xx_unspaced : unspaced re_4xx.
Proof.
  intros [|a l]; [done|]. unfold re_4xx. destruct l as [|b [|c l]]; try done.
  destruct (N.eqb_spec a 0x34) as [->|_]; done.
Qed.

Lemma literal_unspaced s (g : list N → bool) :
  match bytes_of s with c :: _ => ∀ b, re_space b = true → fold_byte b ≠ c | [] => False end →
  unspaced (λ l, match re_literal (bytes_of s) l with Some rest => g rest | None => false end).
Proof.
  destruct (bytes_of s) as [|c p]; [done|]. intros Hc [|b l]; [done|]. cbn.
  destruct (re_space b) eqn:Hb; [|done]. by destruct (N.eqb_spec (fold_byte b) c) as [E|_]; [apply Hc in E|].
Qed.

Lemma reads_here :
  reads re_here pattern (λ rest, match rest with d :: _ => negb (re_word d) | [] => true end).
Proof.
  unfold pattern. eapply reads_cat; [|apply reads_4xx]. eapply reads_alt; [intros l; reflexivity|..].
  - eapply reads_cat; [apply reads_literal|]. apply (reads_spaces re_4xx re_4xx_unspaced).
  - pose (code l := match re_literal (bytes_of "code") l with
                    | Some rest => match re_gap rest with Some rest => re_4xx rest | None => false end
                    | None => false
                    end).
    assert (unspaced code) as Hcode.
    { apply (literal_unspaced "code"). cbn. unfold re_space. intros b Hb%bool_decide_eq_true Ec.
      repeat (apply elem_of_cons in Hb as [->|Hb]; [discriminate Ec|]). by apply not_elem_of_nil in Hb. }
    assert (reads (λ l, match re_gap l with Some rest => re_4xx rest || code rest | None => false end)
      (Cat (Alt (Cat gap (literal "code")) Nil) gap) re_4xx) as Htail.
    { pose proof (reads_gap re_4xx re_4xx_unspaced) as Hgap. eapply reads_cat; [|exact Hgap].
      apply (reads_alt _ (λ l, match re_gap l with Some rest => code rest | None => false end)
        (λ l, match re_gap l with Some rest => re_4xx rest | None => false end)); [| |apply reads_nil].
      - intros l. destruct (re_gap l); [apply orb_comm|done].
      - eapply reads_cat; [by apply (reads_gap code)|]. apply reads_literal. }
    intros l. etrans; [|exact (reads_cat _ _ _ _ _ (reads_literal "returned" _) Htail l)].
    unfold code, mbind, option_bind. destruct (re_literal _ l) as [rest|]; [|done].
    destruct (re_gap rest) as [rest'|]; [|done].
    by destruct (re_literal (bytes_of "code") rest') as [rest''|].
Qed.
End Regexp.

(** An error text is taken for a definite refusal exactly when a part of it matches
    the pattern of [definiteHTTP4xx], read as a regular expression, at the end of a word. *)
Theorem definiteHTTP4xx_is_pattern text :
  definiteHTTP4xx text = true ↔
  ∃ before m after, bytes_of text = before ++ m ++ after ∧ Regexp.matches Regexp.pattern m ∧ Regexp.boundary after.
Proof.
  unfold definiteHTTP4xx. set (l := bytes_of text). clearbody l.
  assert (∀ rest, match rest with d :: _ => negb (re_word d) | [] => true end = true ↔ Regexp.boundary rest) as Hb
    by (intros [|d rest]; [done|]; apply negb_true_iff).
  assert (re_anywhere l = true ↔ ∃ before rest, l = before ++ rest ∧ re_here rest = true) as ->.
  { induction l as [|b l IH]; cbn [re_anywhere]; rewrite orb_true_iff; [|rewrite IH]; split.
    - intros [?|?]; [by exists [], []|done].
    - intros (p & rest & E & ?). symmetry in E. apply app_nil in E as [-> ->]. by left.
    - intros [?|(p & rest & -> & ?)]; [by exists [], (b :: l)|by exists (b :: p), rest].
    - intros ([|b' p] & rest & E & ?); [left; by rewrite E|right]. injection E as -> ->. eauto. }
  pose proof Regexp.reads_here as Hr. unfold Regexp.reads in Hr. setoid_rewrite Hr. setoid_rewrite Hb. split.
  - intros (p & ? & -> & m & rest & -> & ? & ?). eauto 10.
  - intros (p & m & rest & -> & ? & ?). eauto 10.
Qed.

(** ** How errors are classified *)

Lemma re_anywhere_suffix p l : re_anywhere l = true → re_anywhere (p ++ l) = true.
Proof. intros Hl. induction p as [|b p IH]; [done|]. cbn [app re_anywhere]. by rewrite IH, orb_true_r. Qed.

Lemma rejected_statuses :
  Forall (λ n, DefinitelyRejected (Some (NewFailure ("上游返回 HTTP " +:+ format_int (100 + Z.of_nat n))))
    = bool_decide (400 ≤ 100 + Z.of_nat n < 500)%Z) (seq 0 900).
Proof. apply (bool_decide_unpack _). vm_compute. exact I. Qed.

Lemma Wrap_Some operation e :
  Wrap operation (Some e) =
    if DefinitelyRejected (Some e) then WrapFailure (operation_text operation +:+ "被上游明确拒绝: ") e
    else UncertainFailure operation e.
Proof. reflexivity. Qed.

(** An error wrapped as the outcome of a write counts as uncertain exactly when it is
    not taken for a definite refusal, or already says that it is uncertain; a status of the
    upstream outside 200 to 299, as the fetcher reports it, is a definite refusal exactly
    from 400 to 499; and no error at all is uncertain. *)
Theorem Wrap_classifies operation e :
  (IsUncertain (Wrap operation e) = true ↔
     DefinitelyRejected e = false ∨ ∃ e', e = Some e' ∧ IsUncertain e' = true)
  ∧ (∀ e', e = Some e' → DefinitelyRejected e = true → DefinitelyRejected (Some (Wrap operation e)) = true)
  ∧ ∀ status, (100 ≤ status < 1000)%Z →
      DefinitelyRejected (Some (NewFailure ("上游返回 HTTP " +:+ format_int status))) = bool_decide (400 ≤ status < 500)%Z.
Proof.
  split_and!.
  - destruct e as [e|]; [|split; [by left|done]]. rewrite Wrap_Some.
    destruct (DefinitelyRejected (Some e)) eqn:Hr; [|split; [by left|done]].
    change (IsUncertain (WrapFailure (operation_text operation +:+ "被上游明确拒绝: ") e)) with (IsUncertain e).
    split; [intros ?; right; by exists e|]. by intros [?|(e' & [= ->] & ?)].
  - intros e' -> Hr. rewrite Wrap_Some, Hr. revert Hr. unfold DefinitelyRejected.
    cbn [as_rejected failure_text]. destruct (default false (as_rejected e')); [done|].
    unfold definiteHTTP4xx. rewrite bytes_of_app. apply re_anywhere_suffix.
  - intros status Hs. pose proof rejected_statuses as Hall. rewrite Forall_forall in Hall.
    specialize (Hall (Z.to_nat (status - 100))). rewrite Z2Nat.id in Hall by lia.
    replace (100 + (status - 100))%Z with status in Hall by lia. apply Hall, elem_of_seq. lia.
Qed.

Lemma Wrap_classifies_witness :
  DefinitelyRejected (Some (NewFailure ("上游返回 HTTP " +:+ format_int 429))) = true
  ∧ DefinitelyRejected (Some (NewFailure ("上游返回 HTTP " +:+ format_int 503))) = false
  ∧ DefinitelyRejected (Some (Wrap "" (Some (NewFailure "HTTP 404")))) = true.
Proof.
  split; [apply (proj2 (proj2 (Wrap_classifies "" None)) 429%Z); lia|].
  split; [apply (proj2 (proj2 (Wrap_classifies "" None)) 503%Z); lia|].
  exact (proj1 (proj2 (Wrap_classifies "" (Some (NewFailure "HTTP 404")))) _ eq_refl eq_refl).
Defined.
