(* ===== verification/ModelFailover.v ===== *)
(** * The data of group failover

    [internal/model]: the upstream sources with their keys and groups, the policy that
    fixes the three groups a key may be moved between, the state kept of its moves and
    of the evidence about them, the transitions journaled and requested, and the
    snapshot the failover controller decides on. *)

From S2P Require Import Prelude GoStd Float Model ModelHealth.

Definition GroupTierMain : string := "main".
Definition GroupTierBackup : string := "backup".
Definition GroupTierEmergency : string := "emergency".

Definition GroupTransitionPending : string := "pending".
Definition GroupTransitionApplied : string := "applied".
Definition GroupTransitionCompleted : string := "completed".
Definition GroupTransitionFailed : string := "failed".
Definition GroupTransitionSimulated : string := "simulated".

Definition GroupValidationUnknown : string := "unknown".
Definition GroupValidationStable : string := "stable".
Definition GroupValidationTransitioning : string := "transitioning".
Definition GroupValidationAwaitingEvidence : string := "awaiting_evidence".
Definition GroupValidationProbing : string := "probing".
Definition GroupValidationConfirmedHealthy : string := "confirmed_healthy".
Definition GroupValidationConfirmedFailed : string := "confirmed_failed".
Definition GroupValidationUncertain : string := "uncertain".
Definition GroupValidationExhausted : string := "exhausted".

Definition GroupValidationModePassive : string := "passive".
Definition GroupValidationModeActive : string := "active".

Definition GroupValidationPropagationDelay : duration := (5 * second)%Z.
Definition GroupValidationMonitorRequestTimeout : duration := (45 * second)%Z.
Definition GroupValidationEvidenceTimeout : duration := (10 * minute)%Z.
Definition GroupValidationMinimumSuccesses : Z := 1%Z.

Definition EvidenceTimeBasisMonitorRequestStart : string := "monitor_request_start".
Definition EvidenceTimeBasisRequestStart : string := "request_start".
Definition EvidenceTimeBasisCompletion : string := "completion".

Definition FailoverModeDisabled : string := "disabled".
Definition FailoverModeObserve : string := "observe".
Definition FailoverModeControl : string := "control".
Record KeyRate := mkKeyRate {
  kr_ExternalID : string;
  kr_Name : string;
  kr_KeyHint : string;
  kr_GroupID : string;
  kr_GroupName : string;
  kr_RateMultiplier : option float64;
  kr_Dynamic : bool;
  kr_Status : string;
}.

Record UpstreamGroup := mkUpstreamGroup {
  ug_ExternalID : string;
  ug_Name : string;
  ug_RateMultiplier : float64;
}.

Record GroupFailoverState := mkGroupFailoverState {
  gs_SourceID : Z;
  gs_KeyID : string;
  gs_CurrentTier : string;
  gs_ObservedGroupID : string;
  gs_PreviousTier : string;
  gs_PreviousStableTier : string;
  gs_PreviousGroupID : string;
  gs_Frozen : bool;
  gs_FreezeReason : string;
  gs_LastError : string;
  gs_ManualHoldUntil : option time;
  gs_ManualOverrideUntil : option time;
  gs_CooldownUntil : option time;
  gs_ReturnBlockedUntil : option time;
  gs_RecoverySince : option time;
  gs_LastSwitchAt : option time;
  gs_LastTransitionAt : option time;
  gs_VerificationStartedAt : option time;
  gs_HealthySince : option time;
  gs_RecoveryHealthyCount : Z;
  gs_LastConfirmedAt : option time;
  gs_ValidationStatus : string;
  gs_ValidationMode : string;
  gs_ValidationTransitionID : Z;
  gs_ValidationFromTier : string;
  gs_ValidationTargetTier : string;
  gs_ValidationFromGroupID : string;
  gs_ValidationTargetGroupID : string;
  gs_SwitchRequestedAt : option time;
  gs_SwitchVerifiedAt : option time;
  gs_ValidationNotBefore : option time;
  gs_EvidenceDeadline : option time;
  gs_MonitorWatermark : Z;
  gs_TrafficWatermark : Z;
  gs_MonitorEvidenceCursor : Z;
  gs_TrafficEvidenceCursor : Z;
  gs_ActiveProbeAttempts : Z;
  gs_SuccessfulEvidenceCount : Z;
  gs_FailedEvidenceCount : Z;
  gs_LastEvidenceID : string;
  gs_LastEvidenceSource : string;
  gs_LastEvidenceReason : string;
  gs_LastEvidenceAt : option time;
  gs_UpdatedAt : time;
}.

Record GroupFailoverPolicy := mkGroupFailoverPolicy {
  gp_SourceID : Z;
  gp_KeyID : string;
  gp_KeyName : string;
  gp_KeyHint : string;
  gp_Enabled : bool;
  gp_MainEnabled : bool;
  gp_BackupEnabled : bool;
  gp_EmergencyEnabled : bool;
  gp_MainGroupID : string;
  gp_BackupGroupID : string;
  gp_EmergencyGroupID : string;
  gp_AccountIDs : list Z;
  gp_Pool : string;
  gp_Version : Z;
  gp_ConfirmedVersion : Z;
  gp_Confirmed : bool;
  gp_ConfirmedAt : option time;
  gp_ConfirmedBy : string;
  gp_State : GroupFailoverState;
  gp_CreatedAt : time;
  gp_UpdatedAt : time;
}.

Record AccountRef := mkAccountRef {
  ar_ID : Z;
  ar_Name : string;
  ar_Schedulable : bool;
}.

Record UpstreamSource := mkUpstreamSource {
  us_ID : Z;
  us_Name : string;
  us_Provider : string;
  us_BaseURL : string;
  us_NormalizedURL : string;
  us_CredentialNonce : string;
  us_CredentialCiphertext : string;
  us_CredentialConfigured : bool;
  us_UsernameHint : string;
  us_CredentialHint : string;
  us_CredentialMode : string;
  us_MigrationRequired : bool;
  us_PauseBelow : float64;
  us_ResumeAt : float64;
  us_Enabled : bool;
  us_Balance : option float64;
  us_Unit : string;
  us_LowStreak : Z;
  us_RecoveryStreak : Z;
  us_BalanceLocked : bool;
  us_LastAttemptAt : option time;
  us_LastSuccessAt : option time;
  us_LastError : string;
  us_Stale : bool;
  us_KeyRates : list KeyRate;
  us_Groups : list UpstreamGroup;
  us_SelectedKeyID : string;
  us_RoutingEnabled : bool;
  us_RoutingPool : string;
  us_MatchedAccounts : list AccountRef;
  us_FailoverPolicies : list GroupFailoverPolicy;
  us_CreatedAt : time;
  us_UpdatedAt : time;
}.

Record GroupValidationEvidence := mkGroupValidationEvidence {
  ge_ID : Z;
  ge_Source : string;
  ge_MonitorID : Z;
  ge_AccountID : Z;
  ge_Status : string;
  ge_ErrorClass : string;
  ge_ReasonCode : string;
  ge_ObservedAt : time;
  ge_RequestStartedAt : option time;
  ge_TimeBasis : string;
  ge_TransitionID : Z;
  ge_SourceID : Z;
  ge_KeyID : string;
  ge_TargetTier : string;
  ge_TargetGroupID : string;
}.

Record FailoverEvidenceWatermarks := mkFailoverEvidenceWatermarks {
  wm_Monitor : Z;
  wm_Traffic : Z;
}.

Record GroupTierTransitionRequest := mkGroupTierTransitionRequest {
  tr_SourceID : Z;
  tr_KeyID : string;
  tr_TargetTier : string;
  tr_IdempotencyKey : string;
  tr_Actor : string;
  tr_Producer : string;
  tr_Authority : string;
  tr_Reason : string;
  tr_Evidence : string;
  tr_SnapshotVersion : string;
  tr_Trigger : string;
  tr_PacketID : Z;
  tr_PacketHash : string;
  tr_RunID : Z;
  tr_GoalID : Z;
  tr_StepID : Z;
  tr_Manual : bool;
  tr_DryRun : bool;
  tr_ExpectedPool : string;
  tr_ExpectedFromTier : string;
  tr_EvidenceCutoffAt : option time;
  tr_AutomationLeaseHeld : bool;
}.

Record GroupTierTransition := mkGroupTierTransition {
  gt_ID : Z;
  gt_IdempotencyKey : string;
  gt_SourceID : Z;
  gt_KeyID : string;
  gt_FromTier : string;
  gt_ToTier : string;
  gt_FromGroupID : string;
  gt_ToGroupID : string;
  gt_Status : string;
  gt_Actor : string;
  gt_Producer : string;
  gt_Authority : string;
  gt_Reason : string;
  gt_Evidence : string;
  gt_SnapshotVersion : string;
  gt_Trigger : string;
  gt_PacketID : Z;
  gt_PacketHash : string;
  gt_RunID : Z;
  gt_GoalID : Z;
  gt_StepID : Z;
  gt_Error : string;
  gt_AttemptCount : Z;
  gt_BeforeState : string;
  gt_VerifiedAfter : string;
  gt_Uncertain : bool;
  gt_Manual : bool;
  gt_DryRun : bool;
  gt_CreatedAt : time;
  gt_CompletedAt : option time;
}.

Record UpstreamCredentials := mkUpstreamCredentials {
  cr_AuthMode : string;
  cr_AccessKey : string;
  cr_UserID : string;
  cr_Username : string;
  cr_Password : string;
}.

Record UpstreamResult := mkUpstreamResult {
  ur_Balance : float64;
  ur_Unit : string;
  ur_Username : string;
  ur_KeyRates : list KeyRate;
  ur_Groups : list UpstreamGroup;
  ur_FetchedAt : time;
  ur_RotatedAccessKey : string;
  ur_CredentialWarning : string;
}.

Record ResolvedBinding := mkResolvedBinding {
  rb_Monitor : option Monitor;
  rb_Account : Account;
  rb_Policy : Policy;
  rb_Source : string;
  rb_State : string;
  rb_Reason : string;
  rb_NormalizedEndpoint : string;
  rb_MonitorState : MonitorState;
  rb_HealthState : MonitorHealthState;
  rb_Decision : option HealthDecision;
  rb_Control : AccountControl;
  rb_FailureThreshold : Z;
  rb_BaseRecoveryThreshold : Z;
  rb_RecoveryThreshold : Z;
  rb_FlapEnabled : bool;
  rb_FlapWindowMinutes : Z;
  rb_FlapPauseThreshold : Z;
  rb_FlapRecoveryThreshold : Z;
}.

Record FreezeState := mkFreezeState {
  fs_Agent : bool;
  fs_AllAutomation : bool;
  fs_Mode : string;
  fs_Reason : string;
  fs_Actor : string;
  fs_ExpiresAt : option time;
  fs_UpdatedAt : time;
}.

Record Snapshot := mkSnapshot {
  sn_Bindings : list ResolvedBinding;
  sn_Unmatched : list Monitor;
  sn_Conflicts : list string;
  sn_LastSyncAt : option time;
  sn_LastSyncError : string;
  sn_Settings : Settings;
  sn_Freeze : FreezeState;
  sn_ServiceStarted : time;
}.

Record AgentWindowStats := mkAgentWindowStats {
  ws_Window : string;
  ws_SampleCount : Z;
  ws_EligibleCount : Z;
  ws_SuccessCount : Z;
  ws_ErrorCount : Z;
  ws_SuccessRate : float64;
  ws_P50DurationMS : Z;
  ws_P90DurationMS : Z;
  ws_P99DurationMS : Z;
  ws_ErrorCategoryCounts : gmap string Z;
  ws_StateChanges : Z;
  ws_AutomaticPauseCount : Z;
}.

(** ** Zero values *)

Definition no_key_rate : KeyRate :=
  mkKeyRate "" "" "" "" "" None false "".
Definition no_group_state : GroupFailoverState :=
  mkGroupFailoverState 0 "" "" "" "" "" "" false "" "" None None None None None None None None None
    0 None "" "" 0 "" "" "" "" None None None None 0 0 0 0 0 0 0 "" "" "" None zero_time.
Definition no_group_policy : GroupFailoverPolicy :=
  mkGroupFailoverPolicy 0 "" "" "" false false false false "" "" "" [] "" 0 0 false None ""
    no_group_state zero_time zero_time.
Definition no_source : UpstreamSource :=
  mkUpstreamSource 0 "" "" "" "" "" "" false "" "" "" false (of_int 0) (of_int 0) false None "" 0 0
    false None None "" false [] [] "" false "" [] [] zero_time zero_time.
Definition no_transition : GroupTierTransition :=
  mkGroupTierTransition 0 "" 0 "" "" "" "" "" "" "" "" "" "" "" "" "" 0 "" 0 0 0 "" 0 "" "" false
    false false zero_time None.
Definition no_upstream_result : UpstreamResult :=
  mkUpstreamResult (of_int 0) "" "" [] [] zero_time "" "".
Definition no_binding : ResolvedBinding :=
  mkResolvedBinding None (mkAccount 0 "" "" "" "" false "" None ∅ 0 None 0 "" None None None
    zero_time) (mkPolicy 0 "" None None false false None None None None None None None None None
    None None None None None None None) "" "" "" "" (mkMonitorState 0 None "" 0 0 "" zero_time)
    no_health_state None no_control 0 0 0 false 0 0 0.
Definition no_snapshot : Snapshot :=
  mkSnapshot [] [] [] None "" (mkSettings false "" "" 0 0 0 0 0 0 0 "" 0 0 0 0 0 0 0 0 0 0 0 0 0 0 0
    0 0 0 0 0 0 0 0 0 0 0 0 0 0 0 0 0 0 0 0 0 0 0 0 0 0 0 0 0) (mkFreezeState false false "" "" ""
    None zero_time) zero_time.
Definition no_evidence : GroupValidationEvidence :=
  mkGroupValidationEvidence 0 "" 0 0 "" "" "" zero_time None "" 0 0 "" "" "".
Definition no_transition_request : GroupTierTransitionRequest :=
  mkGroupTierTransitionRequest 0 "" "" "" "" "" "" "" "" "" "" 0 "" 0 0 0 false false "" "" None
    false.
