(* ===== verification/JsonRecords.v ===== *)
(** * JSON texts of records

    [json.Marshal] of the records that the engine digests or shows in events: members in
    the order of the struct, [omitempty] members left out, maps by their sorted keys. The
    text of a float is a parameter. *)

From S2P Require Import Prelude GoStd Float TimeText JsonText Model ModelHealth ModelFailover.

(** The text of a float in JSON. *)
Class JsonFloats := json_float : float64 → string.

Definition json_bool (b : bool) : string := if b then "true" else "false".
Definition json_int (n : Z) : string := format_int n.
Definition json_time (t : time) : string := json_string (formatTime t).   (* nothing in it is escaped *)

(** A member that is always written, and one with [omitempty]. *)
Definition member (name text : string) : list (string * string) := [(name, text)].
Definition optional {A} (name : string) (render : A → string) (value : option A) : list (string * string) :=
  match value with Some a => [(name, render a)] | None => [] end.
Definition nonempty (name : string) (value : string) : list (string * string) :=
  if bool_decide (value = "") then [] else [(name, json_string value)].

(** A slice or a map of texts already rendered. *)
Definition json_list (l : list string) : string := "[" +:+ String.concat "," l +:+ "]".
Definition json_counts (counts : gmap string Z) : string :=
  json_object (sort_slice (λ a b, string_less a.1 b.1) (prod_map id json_int <$> map_to_list counts)).

Definition json_policy (p : Policy) : string :=
  json_object (
    member "account_id" (json_int (pol_AccountID p)) ++
    nonempty "score_policy_source" (pol_ScorePolicySource p) ++
    optional "score_policy_version_id" json_int (pol_ScorePolicyVersionID p) ++
    optional "monitor_id" json_int (pol_MonitorID p) ++
    member "excluded" (json_bool (pol_Excluded p)) ++
    member "enabled" (json_bool (pol_Enabled p)) ++
    optional "failure_threshold" json_int (pol_FailureThreshold p) ++
    optional "recovery_threshold" json_int (pol_RecoveryThreshold p) ++
    optional "flap_enabled" json_bool (pol_FlapEnabled p) ++
    optional "flap_window_minutes" json_int (pol_FlapWindowMinutes p) ++
    optional "flap_pause_threshold" json_int (pol_FlapPauseThreshold p) ++
    optional "flap_recovery_threshold" json_int (pol_FlapRecoveryThreshold p) ++
    optional "healthy_score_threshold" json_int (pol_HealthHealthyScore p) ++
    optional "watch_score_threshold" json_int (pol_HealthWatchScore p) ++
    optional "quarantine_score_threshold" json_int (pol_HealthQuarantineScore p) ++
    optional "minimum_samples" json_int (pol_HealthMinSamples p) ++
    optional "latency_warning_ms" json_int (pol_HealthLatencyWarningMS p) ++
    optional "latency_critical_ms" json_int (pol_HealthLatencyCriticalMS p) ++
    optional "traffic_pause_below" json_int (pol_HealthTrafficPauseBelow p) ++
    optional "traffic_healthy_at" json_int (pol_HealthTrafficHealthyAt p) ++
    optional "hard_failures_10_threshold" json_int (pol_HealthHardFailures10 p) ++
    optional "persistent_slow_rate" json_int (pol_HealthPersistentSlowRate p)).

Definition json_monitor_state (s : MonitorState) : string :=
  json_object (
    member "monitor_id" (json_int (ms_MonitorID s)) ++
    optional "last_checked_at" json_time (ms_LastCheckedAt s) ++
    member "last_status" (json_string (ms_LastStatus s)) ++
    member "healthy_streak" (json_int (ms_HealthyStreak s)) ++
    member "unhealthy_streak" (json_int (ms_UnhealthyStreak s)) ++
    member "phase" (json_string (ms_Phase s)) ++
    member "updated_at" (json_time (ms_UpdatedAt s))).

Definition json_capability (c : AccountModelCapability) : string :=
  json_object (
    member "account_id" (json_int (cap_AccountID c)) ++
    member "model" (json_string (cap_Model c)) ++
    member "supported" (json_bool (cap_Supported c)) ++
    member "success_count" (json_int (cap_SuccessCount c)) ++
    member "failure_count" (json_int (cap_FailureCount c)) ++
    nonempty "last_error_class" (cap_LastErrorClass c) ++
    nonempty "last_reason_code" (cap_LastReasonCode c) ++
    member "last_observed_at" (json_time (cap_LastObservedAt c)) ++
    member "updated_at" (json_time (cap_UpdatedAt c))).

Definition json_freeze (f : FreezeState) : string :=
  json_object (
    member "agent" (json_bool (fs_Agent f)) ++
    member "all_automation" (json_bool (fs_AllAutomation f)) ++
    member "mode" (json_string (fs_Mode f)) ++
    nonempty "reason" (fs_Reason f) ++
    nonempty "actor" (fs_Actor f) ++
    optional "expires_at" json_time (fs_ExpiresAt f) ++
    member "updated_at" (json_time (fs_UpdatedAt f))).

Section floats.
Context `{JsonFloats}.

Definition json_health_state (s : MonitorHealthState) : string :=
  json_object (
    member "monitor_id" (json_int (hs_MonitorID s)) ++
    member "stage" (json_string (hs_Stage s)) ++
    member "score" (json_float (hs_Score s)) ++
    member "confidence" (json_float (hs_Confidence s)) ++
    member "current_latency_ms" (json_int (hs_CurrentLatencyMS s)) ++
    member "baseline_latency_ms" (json_float (hs_BaselineLatencyMS s)) ++
    member "availability_15m" (json_float (hs_Availability15M s)) ++
    member "availability_1h" (json_float (hs_Availability1H s)) ++
    member "availability_24h" (json_float (hs_Availability24H s)) ++
    member "sample_count" (json_int (hs_SampleCount s)) ++
    member "recovery_healthy_count" (json_int (hs_RecoveryHealthyCount s)) ++
    member "last_two_healthy" (json_bool (hs_LastTwoHealthy s)) ++
    member "recovery_eligible" (json_bool (hs_RecoveryEligible s)) ++
    member "next_recovery_condition" (json_string (hs_NextRecoveryCondition s)) ++
    optional "hold_until" json_time (hs_HoldUntil s) ++
    member "last_transition_at" (json_time (hs_LastTransitionAt s)) ++
    member "reason_json" (json_string (hs_ReasonJSON s)) ++
    member "updated_at" (json_time (hs_UpdatedAt s))).

Definition json_decision (d : HealthDecision) : string :=
  json_object (
    member "quality_score" (json_float (hd_QualityScore d)) ++
    member "hard_success_rate_10" (json_float (hd_HardSuccessRate10 d)) ++
    member "hard_success_rate_60" (json_float (hd_HardSuccessRate60 d)) ++
    member "degraded_rate_10" (json_float (hd_DegradedRate10 d)) ++
    member "degraded_rate_60" (json_float (hd_DegradedRate60 d)) ++
    member "traffic_success_rate" (json_float (hd_TrafficSuccessRate d)) ++
    member "traffic_sample_count" (json_int (hd_TrafficSampleCount d)) ++
    member "hard_failure_streak" (json_int (hd_HardFailureStreak d)) ++
    member "hard_failures_10" (json_int (hd_HardFailures10 d)) ++
    member "recovery_success_streak" (json_int (hd_RecoverySuccessStreak d)) ++
    member "suggested_load_percent" (json_int (hd_SuggestedLoadPercent d)) ++
    member "action" (json_string (hd_Action d)) ++
    member "disagreement" (json_bool (hd_Disagreement d)) ++
    member "response_p90_ms" (json_int (hd_ResponseP90MS d)) ++
    member "baseline_latency_ms" (json_float (hd_BaselineLatencyMS d)) ++
    member "reason_codes" (json_slice (hd_ReasonCodes d)) ++
    member "error_category_counts" (json_counts (hd_ErrorCategoryCounts d)) ++
    member "model_capabilities" (json_list (json_capability <$> hd_ModelCapabilities d)) ++
    member "checked_at" (json_time (hd_CheckedAt d))).
End floats.

Definition json_settings (s : Settings) : string :=
  json_object (
    member "dry_run" (json_bool (st_DryRun s)) ++
    member "scheduler_mode" (json_string (st_SchedulerMode s)) ++
    member "failover_mode" (json_string (st_FailoverMode s)) ++
    member "group_failover_mutation_budget" (json_int (st_FailoverMutationBudget s)) ++
    member "failure_threshold" (json_int (st_FailureThreshold s)) ++
    member "recovery_threshold" (json_int (st_RecoveryThreshold s)) ++
    member "manual_hold_minutes" (json_int (st_ManualHoldMinutes s)) ++
    member "flap_window_minutes" (json_int (st_FlapWindowMinutes s)) ++
    member "flap_pause_threshold" (json_int (st_FlapPauseThreshold s)) ++
    member "flap_recovery_threshold" (json_int (st_FlapRecoveryThreshold s)) ++
    member "health_engine_mode" (json_string (st_HealthMode s)) ++
    member "healthy_score_threshold" (json_int (st_HealthHealthyScore s)) ++
    member "watch_score_threshold" (json_int (st_HealthWatchScore s)) ++
    member "quarantine_score_threshold" (json_int (st_HealthQuarantineScore s)) ++
    member "minimum_samples" (json_int (st_HealthMinSamples s)) ++
    member "latency_warning_ms" (json_int (st_HealthLatencyWarningMS s)) ++
    member "latency_critical_ms" (json_int (st_HealthLatencyCriticalMS s)) ++
    member "traffic_pause_below" (json_int (st_HealthTrafficPauseBelow s)) ++
    member "traffic_healthy_at" (json_int (st_HealthTrafficHealthyAt s)) ++
    member "hard_failures_10_threshold" (json_int (st_HealthHardFailures10 s)) ++
    member "persistent_slow_rate" (json_int (st_HealthPersistentSlowRate s)) ++
    member "quarantine_minutes" (json_int (st_HealthQuarantineMinutes s)) ++
    member "recovery_window_size" (json_int (st_HealthRecoveryWindow s)) ++
    member "recovery_required_successes" (json_int (st_HealthRecoverySuccesses s)) ++
    member "recovery_initial_percent" (json_int (st_HealthTrialPercent s)) ++
    member "recovery_mid_percent" (json_int (st_HealthMidPercent s)) ++
    member "degraded_load_percent" (json_int (st_HealthDegradedPercent s)) ++
    member "recovery_stage_minutes" (json_int (st_HealthTrialMinutes s)) ++
    member "load_manual_hold_minutes" (json_int (st_HealthLoadOverrideMinutes s)) ++
    member "group_failover_account_fresh_minutes" (json_int (st_FailoverAccountFreshMinutes s)) ++
    member "group_failover_telemetry_fresh_minutes" (json_int (st_FailoverTelemetryFreshMinutes s)) ++
    member "group_failover_data_fresh_minutes" (json_int (st_FailoverGroupFreshMinutes s)) ++
    member "group_failover_agent_grace_seconds" (json_int (st_FailoverAgentGraceSeconds s)) ++
    member "group_failover_monitor_failures" (json_int (st_FailoverMonitorFailures s)) ++
    member "group_failover_no_traffic_failures" (json_int (st_FailoverNoTrafficFailures s)) ++
    member "group_failover_traffic_window_minutes" (json_int (st_FailoverTrafficWindowMinutes s)) ++
    member "group_failover_traffic_min_samples" (json_int (st_FailoverTrafficMinSamples s)) ++
    member "group_failover_traffic_success_below" (json_int (st_FailoverTrafficSuccessBelow s)) ++
    member "group_failover_consecutive_hard_errors" (json_int (st_FailoverConsecutiveHardErrors s)) ++
    member "group_failover_backup_verify_minutes" (json_int (st_FailoverBackupVerifyMinutes s)) ++
    member "group_failover_post_switch_monitors" (json_int (st_FailoverPostSwitchMonitors s)) ++
    member "group_failover_post_switch_requests" (json_int (st_FailoverPostSwitchRequests s)) ++
    member "group_failover_main_verify_minutes" (json_int (st_FailoverMainVerifyMinutes s)) ++
    member "group_failover_switch_cooldown_minutes" (json_int (st_FailoverSwitchCooldownMinutes s)) ++
    member "group_failover_manual_protection_minutes" (json_int (st_FailoverManualProtectionMinutes s)) ++
    member "group_failover_short_limit_window_minutes" (json_int (st_FailoverShortLimitWindowMinutes s)) ++
    member "group_failover_short_limit_count" (json_int (st_FailoverShortLimitCount s)) ++
    member "group_failover_long_limit_window_minutes" (json_int (st_FailoverLongLimitWindowMinutes s)) ++
    member "group_failover_long_limit_count" (json_int (st_FailoverLongLimitCount s)) ++
    member "group_failover_recovery_window_minutes" (json_int (st_FailoverRecoveryWindowMinutes s)) ++
    member "group_failover_recovery_stable_minutes" (json_int (st_FailoverRecoveryStableMinutes s)) ++
    member "group_failover_recovery_monitor_successes" (json_int (st_FailoverRecoveryMonitorSuccesses s)) ++
    member "group_failover_recovery_min_samples" (json_int (st_FailoverRecoveryMinSamples s)) ++
    member "group_failover_recovery_success_at" (json_int (st_FailoverRecoverySuccessAt s)) ++
    member "group_failover_return_retry_minutes" (json_int (st_FailoverReturnRetryMinutes s))).
