(* ===== verification/Json.v ===== *)
(** * JSON values

    [encoding/json] on values of any shape, with numbers kept as they are written
    ([Decoder.UseNumber]): the texts it reads and the text it writes. A value that was read
    is written in one way and read back the same, so that normalising a text again changes
    nothing. *)

From S2P Require Import Prelude GoStd JsonText.

(** The members of an object in the order of their keys, each key once. *)
Inductive json :=
  | JNull
  | JBool (b : bool)
  | JNumber (literal : string)
  | JString (s : string)
  | JArray (items : list json)
  | JObject (members : list (string * json)).

Fixpoint json_text (v : json) : string :=
  match v with
  | JNull => "null"
  | JBool b => if b then "true" else "false"
  | JNumber literal => literal
  | JString s => json_string s
  | JArray items => "[" +:+ String.concat "," (json_text <$> items) +:+ "]"
  | JObject members => json_object ((λ m, (m.1, json_text m.2)) <$> members)
  end.

(** ** Reading *)

Definition is_space (b : N) : bool := (b =? 0x20)%N || (b =? 0x09)%N || (b =? 0x0A)%N || (b =? 0x0D)%N.
Fixpoint skip_space (l : list N) : list N :=
  match l with b :: t => if is_space b then skip_space t else l | [] => [] end.

Definition hex_digit_of (b : N) : option N :=
  if (0x30 <=? b)%N && (b <=? 0x39)%N then Some (b - 0x30)%N else
  if (0x61 <=? b)%N && (b <=? 0x66)%N then Some (b - 0x57)%N else
  if (0x41 <=? b)%N && (b <=? 0x46)%N then Some (b - 0x37)%N else None.

Definition hex4 (l : list N) : option N :=
  match l with
  | a :: b :: c :: d :: _ =>
      a ← hex_digit_of a; b ← hex_digit_of b; c ← hex_digit_of c; d ← hex_digit_of d;
      Some (((a * 16 + b) * 16 + c) * 16 + d)%N
  | _ => None
  end.

(** [utf16.DecodeRune] of a pair that is one. *)
Definition pair_rune (r1 r2 : N) : option N :=
  if (0xD800 <=? r1)%N && (r1 <? 0xDC00)%N && (0xDC00 <=? r2)%N && (r2 <? 0xE000)%N
  then Some ((r1 - 0xD800) * 0x400 + (r2 - 0xDC00) + 0x10000)%N else None.

(** What follows a backslash: the bytes it stands for and how many bytes it is. *)
Definition read_escape (t : list N) : option (list N * nat) :=
  match t with
  | [] => None
  | c :: t =>
      if (c =? 0x22)%N || (c =? 0x5C)%N || (c =? 0x2F)%N then Some ([c], 1) else
      if (c =? 0x62)%N then Some ([8%N], 1) else if (c =? 0x66)%N then Some ([12%N], 1) else
      if (c =? 0x6E)%N then Some ([10%N], 1) else if (c =? 0x72)%N then Some ([13%N], 1) else
      if (c =? 0x74)%N then Some ([9%N], 1) else
      if negb (c =? 0x75)%N then None else
      r ← hex4 t;
      let paired :=
        match drop 4 t with
        | a :: b :: u => if (a =? 0x5C)%N && (b =? 0x75)%N then r2 ← hex4 u; pair_rune r r2 else None
        | _ => None
        end in
      match paired with
      | Some rune => Some (encode_rune rune, 11)
      | None => Some (encode_rune r, 5)       (* a lone surrogate is U+FFFD *)
      end
  end.

(** The contents of a string up to the closing quote, and what follows it. [skip] counts
    the bytes left of the rune or escape before. *)
Fixpoint read_string (skip : nat) (l : list N) : option (list N * list N) :=
  match l with
  | [] => None
  | a :: t =>
      match skip with
      | S k => read_string k t
      | O =>
          if (a =? 0x22)%N then Some ([], t) else
          if (a =? 0x5C)%N then
            '(out, n) ← read_escape t; '(rest, more) ← read_string n t; Some (out ++ rest, more)
          else if (a <? 0x20)%N then None else
            let '(r, w) := decode_rune l in
            '(rest, more) ← read_string (pred w) t; Some (encode_rune r ++ rest, more)
      end
  end.

Definition is_digit_byte (b : N) : bool := (0x30 <=? b)%N && (b <=? 0x39)%N.
Fixpoint span_digits (l : list N) : list N * list N :=
  match l with
  | b :: t => if is_digit_byte b then let '(ds, more) := span_digits t in (b :: ds, more) else ([], l)
  | [] => ([], [])
  end.

(** One digit at least. *)
Definition some_digits (l : list N) : option (list N * list N) :=
  match span_digits l with ([], _) => None | found => Some found end.

Definition read_fraction_part (l : list N) : option (list N * list N) :=
  match l with
  | b :: t => if (b =? 0x2E)%N then '(ds, more) ← some_digits t; Some (b :: ds, more) else Some ([], l)
  | [] => Some ([], [])
  end.

Definition is_exponent (b : N) : bool := (b =? 0x65)%N || (b =? 0x45)%N.
Definition is_sign (b : N) : bool := (b =? 0x2B)%N || (b =? 0x2D)%N.
Definition read_exponent_part (l : list N) : option (list N * list N) :=
  match l with
  | b :: t =>
      if is_exponent b then
        match t with
        | s :: u => if is_sign s then '(ds, more) ← some_digits u; Some (b :: s :: ds, more)
                    else '(ds, more) ← some_digits t; Some (b :: ds, more)
        | [] => None
        end
      else Some ([], l)
  | [] => Some ([], [])
  end.

Definition read_integer_part (l : list N) : option (list N * list N) :=
  match l with
  | b :: t => if (b =? 0x30)%N then Some ([b], t) else some_digits l
  | [] => None
  end.

Definition read_unsigned (l : list N) : option (list N * list N) :=
  '(i, l) ← read_integer_part l; '(f, l) ← read_fraction_part l; '(e, l) ← read_exponent_part l;
  Some (i ++ f ++ e, l).

Definition read_number (l : list N) : option (list N * list N) :=
  match l with
  | b :: t => if (b =? 0x2D)%N then '(ds, more) ← read_unsigned t; Some (b :: ds, more) else read_unsigned l
  | [] => None
  end.

Definition read_word (word : string) (v : json) (l : list N) : option (json * list N) :=
  if bool_decide (take (length (bytes_of word)) l = bytes_of word) then Some (v, drop (length (bytes_of word)) l) else None.

(** A member that the rest of an object does not have: the last member of a name is kept. *)
Fixpoint put_absent (k : string) (v : json) (m : list (string * json)) : list (string * json) :=
  match m with
  | [] => [(k, v)]
  | (k', v') :: m' =>
      if bool_decide (k = k') then m else if string_less k k' then (k, v) :: m else (k', v') :: put_absent k v m'
  end.

(** A value. [depth]: how many arrays and objects may still be opened (the decoder allows
    ten thousand); [fuel] bounds the steps. *)
Fixpoint read_value (fuel : nat) (depth : Z) (l : list N) : option (json * list N) :=
  match fuel with
  | O => None
  | S fuel =>
      match skip_space l with
      | [] => None
      | b :: t =>
          if (b =? 0x7B)%N then
            if (depth <=? 0)%Z then None else
            match skip_space t with
            | c :: u => if (c =? 0x7D)%N then Some (JObject [], u)
                        else '(m, more) ← read_members fuel (depth - 1) t; Some (JObject m, more)
            | [] => None
            end
          else if (b =? 0x5B)%N then
            if (depth <=? 0)%Z then None else
            match skip_space t with
            | c :: u => if (c =? 0x5D)%N then Some (JArray [], u)
                        else '(items, more) ← read_items fuel (depth - 1) t; Some (JArray items, more)
            | [] => None
            end
          else if (b =? 0x22)%N then '(s, more) ← read_string 0 t; Some (JString (string_of_bytes s), more)
          else if (b =? 0x74)%N then read_word "true" (JBool true) (b :: t)
          else if (b =? 0x66)%N then read_word "false" (JBool false) (b :: t)
          else if (b =? 0x6E)%N then read_word "null" JNull (b :: t)
          else '(ds, more) ← read_number (b :: t); Some (JNumber (string_of_bytes ds), more)
      end
  end
with read_items (fuel : nat) (depth : Z) (l : list N) : option (list json * list N) :=
  match fuel with
  | O => None
  | S fuel =>
      '(v, more) ← read_value fuel depth l;
      match skip_space more with
      | c :: t =>
          if (c =? 0x2C)%N then '(items, more) ← read_items fuel depth t; Some (v :: items, more)
          else if (c =? 0x5D)%N then Some ([v], t) else None
      | [] => None
      end
  end
with read_members (fuel : nat) (depth : Z) (l : list N) : option (list (string * json) * list N) :=
  match fuel with
  | O => None
  | S fuel =>
      match skip_space l with
      | b :: t =>
          if negb (b =? 0x22)%N then None else
          '(k, more) ← read_string 0 t;
          match skip_space more with
          | c :: t =>
              if negb (c =? 0x3A)%N then None else
              '(v, more) ← read_value fuel depth t;
              match skip_space more with
              | c :: t =>
                  if (c =? 0x2C)%N then
                    '(m, more) ← read_members fuel depth t; Some (put_absent (string_of_bytes k) v m, more)
                  else if (c =? 0x7D)%N then Some ([(string_of_bytes k, v)], t) else None
              | [] => None
              end
          | [] => None
          end
      | [] => None
      end
  end.

Definition max_depth : Z := 10000.
Definition enough (l : list N) : nat := S (2 * length l).

(** [Decoder.Decode] of a text that must hold one value and nothing more. *)
Definition json_parse (text : string) : option json :=
  '(v, more) ← read_value (enough (bytes_of text)) max_depth (bytes_of text);
  match skip_space more with [] => Some v | _ :: _ => None end.

(** A text with quotes for its apostrophes, for examples. *)
Definition quotes (s : string) : string :=
  string_of_bytes ((λ b, if (b =? 0x27)%N then 0x22%N else b) <$> bytes_of s).

Example reads_back :
  json_text <$> json_parse (quotes "{ 'b' : [1, -0.5e+3, true,null] , 'a':{'x':'\u00e9\ud83d\ude00<'}, 'b':[] }")
  = Some (quotes "{'a':{'x':'é😀\u003c'},'b':[]}").
Proof. vm_compute. done. Qed.
Example refuses : json_parse <$> ["01"; "[1,]"; "1 2"; "-"; "1."] = [None; None; None; None; None].
Proof. vm_compute. done. Qed.

(** * Reading what was written *)

(** ** Runes and strings *)

Lemma decode_encode_valid r more :
  (r < 0xD800 ∨ 0xDFFF < r < 0x110000)%N → decode_rune (encode_valid r ++ more) = (r, length (encode_valid r)).
Proof.
  intros Hr. unfold encode_valid. destruct (r <? 0x80)%N eqn:E1.
  { cbn [app decode_rune]. by rewrite E1. }
  destruct (r <? 0x800)%N eqn:E2; N_facts.
  { cbn [app decode_rune]. unfold cont. set (a := (0xC0 + r / 64)%N). set (b := (0x80 + r mod 64)%N).
    assert (0xC2 ≤ a < 0xE0 ∧ 0x80 ≤ b ≤ 0xBF ∧ (a - 0xC0) * 64 + (b - 0x80) = r)%N as (Ha & Hb & E) by (subst a b; div_lia).
    clearbody a b. settle. by rewrite E. }
  destruct (r <? 0x10000)%N eqn:E3; N_facts.
  { cbn [app decode_rune]. unfold cont. set (a := (0xE0 + r / 4096)%N). set (b := (0x80 + r / 64 mod 64)%N). set (c := (0x80 + r mod 64)%N).
    assert (0xE0 ≤ a < 0xF0 ∧ 0x80 ≤ b ≤ 0xBF ∧ 0x80 ≤ c ≤ 0xBF ∧ (a - 0xE0) * 4096 + (b - 0x80) * 64 + (c - 0x80) = r)%N as (Ha & Hb & Hc & E)
      by (subst a b c; div_lia).
    clearbody a b c. destruct (a =? 0xE0)%N eqn:E0, (a =? 0xED)%N eqn:Ed; N_facts; first [lia | settle; by rewrite E]. }
  cbn [app decode_rune]. unfold cont.
  set (a := (0xF0 + r / 262144)%N). set (b := (0x80 + r / 4096 mod 64)%N). set (c := (0x80 + r / 64 mod 64)%N). set (d := (0x80 + r mod 64)%N).
  assert (0xF0 ≤ a < 0xF5 ∧ 0x80 ≤ b ≤ 0xBF ∧ 0x80 ≤ c ≤ 0xBF ∧ 0x80 ≤ d ≤ 0xBF
    ∧ (a - 0xF0) * 262144 + (b - 0x80) * 4096 + (c - 0x80) * 64 + (d - 0x80) = r)%N as (Ha & Hb & Hc & Hd & E) by (subst a b c d; div_lia).
  clearbody a b c d. destruct (a =? 0xF0)%N eqn:E0, (a =? 0xF4)%N eqn:Ed; N_facts; first [lia | settle; by rewrite E].
Qed.

Definition scalar (r : N) : N := if surrogate r || (0x10FFFF <? r)%N then rune_error else r.

Lemma scalar_range r : (scalar r < 0xD800 ∨ 0xDFFF < scalar r < 0x110000)%N.
Proof.
  unfold scalar, surrogate. destruct ((0xD800 <=? r)%N && (r <=? 0xDFFF)%N || (0x10FFFF <? r)%N) eqn:E; [vm_compute; tauto|].
  apply orb_false_iff in E as [E ?]. apply andb_false_iff in E as [|]; N_facts; lia.
Qed.

Lemma decode_encode r more : decode_rune (encode_rune r ++ more) = (scalar r, length (encode_rune r)).
Proof. apply decode_encode_valid, scalar_range. Qed.

Lemma encode_scalar r : encode_rune (scalar r) = encode_rune r.
Proof. rewrite encode_rune_valid by apply scalar_range. done. Qed.

Lemma encode_rune_cons r : ∃ b t, encode_rune r = b :: t.
Proof. unfold encode_rune, encode_valid. repeat case_match; eauto. Qed.

Lemma to_valid_rune r l : to_valid_bytes 0 (encode_rune r ++ l) = encode_rune r ++ to_valid_bytes 0 l.
Proof.
  pose proof (decode_encode r l) as Hd. destruct (encode_rune_cons r) as (b & t & E). rewrite E in *.
  cbn [app to_valid_bytes]. cbn [app] in Hd. rewrite Hd, encode_scalar, E, to_valid_bytes_skip. cbn [length pred].
  by rewrite drop_app_length.
Qed.

Lemma read_string_skip k l : read_string k l = read_string 0 (drop k l).
Proof. revert l. induction k as [|k IH]; intros l; [done|]. destruct l as [|b t]; [done|]. apply IH. Qed.

Lemma read_string_rune r l :
  json_plain r → read_string 0 (encode_rune r ++ l) = '(rest, more) ← read_string 0 l; Some (encode_rune r ++ rest, more).
Proof.
  intros Hr. pose proof (decode_encode r l) as Hd. pose proof (encode_rune_plain r Hr) as Hplain.
  pose proof (encode_scalar r) as Es. destruct (encode_rune_cons r) as (b & t & E). rewrite E in *.
  inversion Hplain as [|? ? (Hb & Hq & Hs) _]; subst. cbn [app read_string]. cbn [app] in Hd. settle.
  rewrite Hd, Es. cbn [length pred]. by rewrite read_string_skip, drop_app_length.
Qed.

Lemma hex_digit_back d : (d < 16)%N → hex_digit_of (hex_digit d) = Some d.
Proof.
  intros Hd. unfold hex_digit_of, hex_digit. destruct (d <? 10)%N eqn:E; N_facts; settle; f_equal; lia.
Qed.

Lemma read_escaped l n out rest :
  read_escape (l ++ rest) = Some (out, n) → length l = n →
  read_string 0 (0x5C%N :: l ++ rest) = '(more, tail) ← read_string 0 rest; Some (out ++ more, tail).
Proof. intros He Hn. cbn [read_string]. rewrite He. cbn. rewrite read_string_skip. subst n. by rewrite drop_app_length. Qed.

Lemma read_short_escape c b rest :
  read_escape (c :: rest) = Some ([b], 1) → read_string 0 (0x5C%N :: c :: rest) = '(more, tail) ← read_string 0 rest; Some (b :: more, tail).
Proof. intros He. exact (read_escaped [c] 1 [b] rest He eq_refl). Qed.

Lemma read_unicode_escape a b c d r rest :
  hex4 [a; b; c; d] = Some r → surrogate r = false →
  read_string 0 ([0x5C; 0x75; a; b; c; d]%N ++ rest) = '(more, tail) ← read_string 0 rest; Some (encode_rune r ++ more, tail).
Proof.
  intros Hh Hs. apply (read_escaped [0x75; a; b; c; d]%N 5); [|done].
  assert (∀ u r2, (r2' ← hex4 u; pair_rune r r2') = Some r2 → False) as Hno.
  { intros u r2. destruct (hex4 u) as [r'|]; [|done]. cbn. unfold pair_rune, surrogate in *.
    destruct (0xD800 <=? r)%N; [|done]. cbn in *. destruct (r <? 0xDC00)%N eqn:E; [|done]. N_facts. lia. }
  assert (hex4 (a :: b :: c :: d :: rest) = Some r) as Hh' by exact Hh.
  cbn [app read_escape]. settle. rewrite Hh'. cbn [mbind option_bind drop]. rewrite ?drop_0.
  destruct rest as [|x [|y u]]; [done..|].
  destruct ((x =? 0x5C)%N && (y =? 0x75)%N); [|done].
  destruct (r2' ← hex4 u; pair_rune r r2') as [r2|] eqn:E; [|done]. by destruct (Hno u r2).
Qed.

(** What is written of a rune is read as the rune. *)
Lemma read_string_escape r w raw rest :
  encode_rune r = raw → (r < 0x110000)%N → ¬ (w = 1%nat ∧ r = rune_error) →
  read_string 0 (json_escape r w raw ++ rest) = '(more, tail) ← read_string 0 rest; Some (raw ++ more, tail).
Proof.
  intros Henc Hr Hok. unfold json_escape.
  rewrite (proj2 (andb_false_iff _ _)) by (rewrite Nat.eqb_neq, N.eqb_neq; lia).
  destruct ((r =? 0x22)%N || (r =? 0x5C)%N) eqn:Eq.
  { apply orb_true_iff in Eq as [Eq|Eq]; apply N.eqb_eq in Eq as ->; rewrite <-Henc; by apply read_short_escape. }
  apply orb_false_iff in Eq as [E22 E5c]. N_facts.
  do 5 (case_match eqn:E; [apply N.eqb_eq in E as ->; rewrite <-Henc; by apply read_short_escape|clear E]).
  case_match eqn:Ex.
  { assert (r < 0x80)%N by (rewrite !orb_true_iff in Ex; naive_solver (N_facts; lia)).
    rewrite <-Henc. apply (read_unicode_escape 0x30 0x30 (hex_digit (r / 16)) (hex_digit (r mod 16)) r rest).
    - cbn [hex4]. rewrite !hex_digit_back by div_lia. cbn. f_equal. div_lia.
    - unfold surrogate. by settle. }
  rewrite !orb_false_iff in Ex. destruct Ex as [[[Ex _] _] _]. N_facts.
  case_match eqn:El.
  { apply orb_true_iff in El as [El|El]; apply N.eqb_eq in El as ->; rewrite <-Henc; by apply read_unicode_escape. }
  rewrite <-Henc. by apply read_string_rune.
Qed.

Lemma read_string_bytes l more : read_string 0 (json_bytes 0 l ++ 0x22%N :: more) = Some (to_valid_bytes 0 l, more).
Proof.
  remember (length l) as n eqn:Hn. revert l Hn.
  induction (lt_wf n) as [n _ IH]. intros l ->. destruct l as [|b t]; [done|].
  cbn [json_bytes to_valid_bytes]. pose proof (decode_rune_width (b :: t) ltac:(done)) as Hw.
  destruct (decode_rune (b :: t)) as [r w] eqn:Hd. cbn [snd] in Hw.
  rewrite json_bytes_skip, to_valid_bytes_skip, <-app_assoc.
  assert (length (drop (pred w) t) < length (b :: t))%nat as Hlen by (rewrite length_drop; cbn; lia).
  specialize (IH _ Hlen _ eq_refl).
  destruct (decide (w = 1%nat ∧ r = rune_error)) as [[-> ->]|Hok].
  { unfold json_escape. cbn [Nat.eqb andb]. rewrite N.eqb_refl.
    rewrite (read_unicode_escape 0x66 0x66 0x66 0x64 rune_error) by done. by rewrite IH. }
  destruct (encode_decode_rune (b :: t) r w) as [Hr Henc]; [done..|].
  rewrite (read_string_escape r w (take w (b :: t))), IH by done. cbn. by rewrite Henc.
Qed.

(** What is read of a string is valid UTF-8. *)
Lemma read_escape_valid t out n rest :
  read_escape t = Some (out, n) → Forall is_byte out ∧ to_valid_bytes 0 (out ++ rest) = out ++ to_valid_bytes 0 rest.
Proof.
  assert (∀ b, (b < 0x80)%N → Forall is_byte [b] ∧ to_valid_bytes 0 ([b] ++ rest) = [b] ++ to_valid_bytes 0 rest) as Hascii.
  { intros b Hb. assert (encode_rune b = [b]) as <- by (rewrite encode_rune_valid by lia; unfold encode_valid; by settle).
    split; [apply encode_rune_bytes|apply to_valid_rune]. }
  destruct t as [|c t]; [done|]. cbn [read_escape].
  destruct ((c =? 0x22)%N || (c =? 0x5C)%N || (c =? 0x2F)%N) eqn:E.
  { intros [= <- _]. apply Hascii. rewrite !orb_true_iff in E. destruct E as [[]|]; N_facts; lia. }
  do 5 (case_match; [intros [= <- _]; by apply Hascii|]). destruct (negb _); [done|].
  destruct (hex4 t) as [r|]; [|done]. cbn [mbind option_bind].
  case_match; intros [= <- _]; (split; [apply encode_rune_bytes|apply to_valid_rune]).
Qed.

Lemma read_string_valid k l out more :
  read_string k l = Some (out, more) → Forall is_byte out ∧ to_valid_bytes 0 out = out ∧ length more < length l.
Proof.
  revert k out more. induction l as [|a t IH]; intros k out more; [by destruct k|].
  destruct k as [|k]; cbn [read_string length].
  2:{ intros (H1 & H2 & H3)%IH. split_and!; [done..|lia]. }
  destruct (a =? 0x22)%N; [intros [= <- <-]; split_and!; [constructor|done|lia]|].
  destruct (a =? 0x5C)%N.
  { destruct (read_escape t) as [[o n]|] eqn:E; [|done]. cbn. destruct (read_string n t) as [[rest tail]|] eqn:Er; [|done].
    intros [= <- <-]. destruct (read_escape_valid t o n rest E) as [H1 H2]. apply IH in Er as (H3 & H4 & H5).
    split_and!; [by apply Forall_app|by rewrite H2, H4|lia]. }
  destruct (a <? 0x20)%N; [done|]. destruct (decode_rune (a :: t)) as [r w].
  destruct (read_string (pred w) t) as [[rest tail]|] eqn:Er; [|done]. cbn. intros [= <- <-]. apply IH in Er as (H3 & H4 & H5).
  split_and!; [apply Forall_app; split; [apply encode_rune_bytes|done]|by rewrite to_valid_rune, H4|lia].
Qed.

(** ** Numbers *)

(** The rest does not start with such a byte. *)
Definition apart (p : N → bool) (more : list N) : Prop := match more with b :: _ => p b = false | [] => True end.

Definition is_point (b : N) : bool := (b =? 0x2E)%N.
Definition in_number (b : N) : bool := is_digit_byte b || is_point b || is_exponent b.

Lemma digit_apart b : is_digit_byte b = true → is_point b = false ∧ is_exponent b = false ∧ is_sign b = false.
Proof. unfold is_digit_byte, is_point, is_exponent, is_sign. intros [H1 H2]%andb_true_iff. N_facts. by settle. Qed.

Lemma in_number_apart more :
  apart in_number more → apart is_digit_byte more ∧ apart is_point more ∧ apart is_exponent more.
Proof. destruct more as [|b t]; [done|]. cbn. unfold in_number. rewrite !orb_false_iff. tauto. Qed.

Lemma span_digits_found l ds rest :
  span_digits l = (ds, rest) → l = ds ++ rest ∧ ∀ more, apart is_digit_byte more → span_digits (ds ++ more) = (ds, more).
Proof.
  revert ds rest. induction l as [|b t IH]; intros ds rest; cbn [span_digits].
  - intros [= <- <-]. split; [done|]. intros [|b more]; [done|]. cbn. by intros ->.
  - destruct (is_digit_byte b) eqn:E.
    + destruct (span_digits t) as [ds' rest']. intros [= <- <-]. destruct (IH _ _ eq_refl) as [-> Hm].
      split; [done|]. intros more Ha. cbn. by rewrite E, (Hm more Ha).
    + intros [= <- <-]. split; [done|]. intros [|c more]; [done|]. cbn. by intros ->.
Qed.

(** What a reader found is what it reads again, whatever follows that it would not go on with. *)
Definition rereads (ok : N → bool) (R : list N → option (list N * list N)) : Prop := ∀ l x rest,
  R l = Some (x, rest) → l = x ++ rest ∧ ∀ more, apart ok more → R (x ++ more) = Some (x, more).

Lemma some_digits_rereads : rereads is_digit_byte some_digits.
Proof.
  intros l x rest. unfold some_digits. destruct (span_digits l) as [ds more] eqn:E. apply span_digits_found in E as [-> Hm].
  destruct ds as [|d ds]; [done|]. intros [= <- <-]. split; [done|]. intros more' Ha. by rewrite Hm.
Qed.

Lemma integer_part_rereads : rereads is_digit_byte read_integer_part.
Proof.
  intros l x rest. destruct l as [|b t]; [done|]. cbn [read_integer_part]. destruct (b =? 0x30)%N eqn:E.
  - intros [= <- <-]. split; [done|]. intros more _. cbn. by rewrite E.
  - intros H. pose proof (some_digits_rereads _ _ _ H) as [Hl Hm]. split; [done|]. intros more Ha.
    destruct x as [|c x]; [unfold some_digits in H; by destruct (span_digits _) as [[|] ?]|].
    injection Hl as <- _. cbn. rewrite E. by apply (Hm more).
Qed.

Lemma fraction_part_rereads l x rest :
  read_fraction_part l = Some (x, rest) → l = x ++ rest ∧ apart is_digit_byte x
  ∧ ∀ more, apart is_digit_byte more → apart is_point more → read_fraction_part (x ++ more) = Some (x, more).
Proof.
  assert (∀ more, apart is_point more → read_fraction_part more = Some ([], more)) as Hnone.
  { intros [|b more]; [done|]. cbn. unfold is_point. by intros ->. }
  destruct l as [|b t]; cbn [read_fraction_part]; [intros [= <- <-]; split_and!; auto; done|].
  destruct (b =? 0x2E)%N eqn:E; [|intros [= <- <-]; split_and!; auto; done].
  destruct (some_digits t) as [[ds more]|] eqn:Ed; [|done]. cbn. intros [= <- <-].
  apply some_digits_rereads in Ed as [-> Hm]. split_and!; [done|by apply N.eqb_eq in E as ->|].
  intros more' Ha _. cbn. by rewrite E, (Hm more' Ha).
Qed.

Lemma exponent_part_rereads l x rest :
  read_exponent_part l = Some (x, rest) → l = x ++ rest ∧ apart is_digit_byte x ∧ apart is_point x
  ∧ ∀ more, apart is_digit_byte more → apart is_exponent more → read_exponent_part (x ++ more) = Some (x, more).
Proof.
  assert (∀ more, apart is_exponent more → read_exponent_part more = Some ([], more)) as Hnone.
  { intros [|b more]; [done|]. cbn. by intros ->. }
  destruct l as [|b t]; cbn [read_exponent_part]; [intros [= <- <-]; split_and!; auto; done|].
  destruct (is_exponent b) eqn:E; [|intros [= <- <-]; split_and!; auto; done].
  assert (is_digit_byte b = false ∧ is_point b = false) as [Hd Hp].
  { unfold is_exponent, is_digit_byte, is_point in *. apply orb_true_iff in E as [E|E]; apply N.eqb_eq in E as ->; done. }
  destruct t as [|s u]; [done|]. destruct (is_sign s) eqn:Es.
  - destruct (some_digits u) as [[ds more]|] eqn:Ed; [|done]. cbn. intros [= <- <-].
    apply some_digits_rereads in Ed as [-> Hm]. split_and!; [done..|].
    intros more' Ha _. cbn. by rewrite E, Es, (Hm more' Ha).
  - destruct (some_digits (s :: u)) as [[ds more]|] eqn:Ed; [|done]. cbn. intros [= <- <-].
    destruct (some_digits_rereads _ _ _ Ed) as [Hl Hm]. rewrite Hl. split_and!; [done..|].
    intros more' Ha _. destruct ds as [|d ds]; [unfold some_digits in Ed; by destruct (span_digits _) as [[|] ?]|].
    injection Hl as <- _. cbn [app read_exponent_part]. rewrite E, Es. cbn [app] in Hm. by rewrite (Hm more' Ha).
Qed.

Lemma apart_app p x more : apart p x → apart p more → apart p (x ++ more).
Proof. by destruct x. Qed.

Lemma unsigned_rereads : rereads in_number read_unsigned.
Proof.
  intros l x rest. unfold read_unsigned.
  destruct (read_integer_part l) as [[i l1]|] eqn:Ei; [|done]. cbn.
  destruct (read_fraction_part l1) as [[f l2]|] eqn:Ef; [|done]. cbn.
  destruct (read_exponent_part l2) as [[e l3]|] eqn:Ee; [|done]. cbn. intros [= <- <-].
  apply integer_part_rereads in Ei as [-> Hi]. apply fraction_part_rereads in Ef as (-> & Hfd & Hf).
  apply exponent_part_rereads in Ee as (-> & Hed & Hep & He). split; [by rewrite <-!app_assoc|].
  intros more (Hd & Hp & Hx)%in_number_apart. rewrite <-!app_assoc, Hi by (by repeat apply apart_app). cbn.
  rewrite Hf by (by apply apart_app). cbn. by rewrite He.
Qed.

Lemma number_rereads : rereads in_number read_number.
Proof.
  intros l x rest. destruct l as [|b t]; [done|]. cbn [read_number]. destruct (b =? 0x2D)%N eqn:E.
  - destruct (read_unsigned t) as [[ds more]|] eqn:Ed; [|done]. cbn. intros [= <- <-].
    apply unsigned_rereads in Ed as [-> Hm]. split; [done|]. intros more' Ha. cbn. by rewrite E, (Hm more' Ha).
  - intros H. pose proof (unsigned_rereads _ _ _ H) as [Hl Hm]. split; [done|]. intros more Ha.
    destruct x as [|c x]; [|injection Hl as <- _; cbn; rewrite E; by apply (Hm more)].
    by specialize (Hm [] I).
Qed.

(** ** Values *)

(** A value that a text can hold: its strings are UTF-8, its numbers are literals, and
    nothing is nested deeper than [depth]. *)
Inductive readable : Z → json → Prop :=
  | NullReadable depth : readable depth JNull
  | BoolReadable depth b : readable depth (JBool b)
  | NumberReadable depth literal :
      read_number (bytes_of literal) = Some (bytes_of literal, []) → readable depth (JNumber literal)
  | StringReadable depth s : valid_utf8 s → readable depth (JString s)
  | ArrayReadable depth items : (0 < depth)%Z → Forall (readable (depth - 1)) items → readable depth (JArray items)
  | ObjectReadable depth members :
      (0 < depth)%Z → StronglySorted (λ p q, string_less p.1 q.1 = true) members →
      Forall (λ p, valid_utf8 p.1) members → Forall (λ p, readable (depth - 1) p.2) members → readable depth (JObject members).

(** Induction with what holds of the parts of arrays and objects. *)
Lemma json_parts_ind (P : json → Prop) :
  P JNull → (∀ b, P (JBool b)) → (∀ l, P (JNumber l)) → (∀ s, P (JString s)) →
  (∀ items, Forall P items → P (JArray items)) → (∀ members, Forall (λ p, P p.2) members → P (JObject members)) → ∀ v, P v.
Proof.
  intros Hn Hb Hl Hs Ha Ho. fix IH 1. intros [|b|l|s|items|members]; [apply Hn|apply Hb|apply Hl|apply Hs|apply Ha|apply Ho].
  - induction items as [|v items IHi]; constructor; [apply IH|apply IHi].
  - induction members as [|[k v] members IHm]; constructor; [apply IH|apply IHm].
Qed.

Lemma skip_space_suffix l : skip_space l `suffix_of` l.
Proof. induction l as [|b t IH]; [done|]. cbn. destruct (is_space b); [|done]. by apply suffix_cons_r. Qed.

Lemma read_string_suffix k l out more : read_string k l = Some (out, more) → more `suffix_of` l.
Proof.
  revert k out. induction l as [|a t IH]; intros k out; [by destruct k|]. destruct k as [|k]; cbn [read_string].
  2:{ intros H%IH. by apply suffix_cons_r. }
  destruct (a =? 0x22)%N; [intros [= _ <-]; by apply suffix_cons_r|].
  assert (∀ n o, ('(o', more') ← read_string n t; Some (o ++ o', more')) = Some (out, more) → more `suffix_of` a :: t) as Hgo.
  { intros n o. destruct (read_string n t) as [[o' m]|] eqn:E; [|done]. cbn. intros [= _ <-]. apply IH in E. by apply suffix_cons_r. }
  destruct (a =? 0x5C)%N; [destruct (read_escape t) as [[o n]|]; [apply Hgo|done]|]. destruct (a <? 0x20)%N; [done|].
  destruct (decode_rune (a :: t)) as [r w]. apply Hgo.
Qed.

(** What is read of a text starts inside it. *)
Definition inside (more l : list N) : Prop := more `suffix_of` l ∧ length more < length l.

Lemma inside_suffix more l l' : inside more l → l `suffix_of` l' → inside more l'.
Proof. intros [H1 H2] H. split; [by etrans|]. apply suffix_length in H. lia. Qed.

Lemma inside_tail more b t : more `suffix_of` t → inside more (b :: t).
Proof. intros H. split; [by apply suffix_cons_r|]. apply suffix_length in H. cbn. lia. Qed.

Lemma suffix_bytes more l : more `suffix_of` l → Forall is_byte l → Forall is_byte more.
Proof. intros [p ->] [_ H]%Forall_app. done. Qed.

Lemma put_absent_keys (P : string → Prop) k v m : P k → Forall (λ p, P p.1) m → Forall (λ p, P p.1) (put_absent k v m).
Proof. intros Hk. induction 1 as [|[k' v'] m Hp Hm IH]; cbn; [by repeat constructor|]. repeat case_match; by repeat constructor. Qed.

Lemma put_absent_values (P : json → Prop) k v m : P v → Forall (λ p, P p.2) m → Forall (λ p, P p.2) (put_absent k v m).
Proof. intros Hk. induction 1 as [|[k' v'] m Hp Hm IH]; cbn; [by repeat constructor|]. repeat case_match; by repeat constructor. Qed.

Lemma put_absent_sorted k v m :
  StronglySorted (λ p q : string * json, string_less p.1 q.1 = true) m →
  StronglySorted (λ p q, string_less p.1 q.1 = true) (put_absent k v m).
Proof.
  induction 1 as [|[k' v'] m Hs IH Hall]; cbn; [by repeat constructor|].
  case_bool_decide as Hk; [by constructor|]. destruct (string_less k k') eqn:E.
  - constructor; [by constructor|]. constructor; [done|]. eapply Forall_impl; [exact Hall|]. intros [k2 v2] H2. cbn in *.
    by apply (less_trans k k' k2).
  - constructor; [done|]. apply (put_absent_keys (λ k2, string_less k' k2 = true)); [|done].
    destruct (string_less k' k) eqn:E'; [done|]. by destruct Hk; apply (less_connex (less:=string_less)).
Qed.

Lemma read_word_found word v l v' more :
  read_word word v l = Some (v', more) → word ≠ "" → v' = v ∧ l = bytes_of word ++ more ∧ inside more l.
Proof.
  unfold read_word. case_bool_decide as E; [|done]. intros [= <- <-] Hw.
  assert (l = bytes_of word ++ drop (length (bytes_of word)) l) as El by (rewrite <-E at 1; by rewrite take_drop).
  split_and!; [done..|]. split; [by eexists|]. rewrite El at 2. rewrite length_app.
  destruct word; [done|]. unfold bytes_of. cbn. lia.
Qed.

Lemma number_found l x more : read_number l = Some (x, more) → x ≠ [] ∧ inside more l.
Proof.
  intros H. pose proof (number_rereads _ _ _ H) as [Hl Hm]. specialize (Hm [] I). rewrite app_nil_r in Hm.
  assert (x ≠ []) as Hx by (by intros ->). split; [done|]. rewrite Hl. split; [by eexists|].
  rewrite length_app. destruct x; [done|cbn; lia].
Qed.

(** The first byte that is not a space. *)
Lemma skip_space_cons l b t : skip_space l = b :: t → b :: t `suffix_of` l.
Proof. intros <-. apply skip_space_suffix. Qed.

Definition values_found (fuel : nat) : Prop := ∀ depth l v more,
  read_value fuel depth l = Some (v, more) → Forall is_byte l → readable depth v ∧ inside more l.
Definition items_found (fuel : nat) : Prop := ∀ depth l items more,
  read_items fuel depth l = Some (items, more) → Forall is_byte l → Forall (readable depth) items ∧ inside more l.
Definition members_found (fuel : nat) : Prop := ∀ depth l m more,
  read_members fuel depth l = Some (m, more) → Forall is_byte l →
  (StronglySorted (λ p q, string_less p.1 q.1 = true) m ∧ Forall (λ p, valid_utf8 p.1) m ∧ Forall (λ p, readable depth p.2) m)
  ∧ inside more l.

Lemma read_string_text l s more :
  read_string 0 l = Some (s, more) → valid_utf8 (string_of_bytes s) ∧ more `suffix_of` l.
Proof.
  intros H. destruct (read_string_valid _ _ _ _ H) as (Hs & Hv & _). split; [|by eapply read_string_suffix].
  unfold valid_utf8. by rewrite bytes_of_string_of.
Qed.

Lemma value_found fuel : items_found fuel → members_found fuel → values_found (S fuel).
Proof.
  intros Hitems Hmembers depth l v more. cbn [read_value]. destruct (skip_space l) as [|b t] eqn:El; [done|].
  apply skip_space_cons in El. intros H Hl. pose proof (suffix_bytes _ _ El Hl) as Hb. inversion Hb as [|? ? _ Ht]; subst.
  enough (readable depth v ∧ inside more (b :: t)) as [? ?] by (split; [done|by eapply inside_suffix]).
  assert (∀ c u, skip_space t = c :: u → inside u (b :: t)) as Hskip.
  { intros c u E%skip_space_cons. apply inside_tail. etrans; [|exact E]. by apply suffix_cons_r. }
  destruct (b =? 0x7B)%N.
  { destruct (depth <=? 0)%Z eqn:Ed; [done|]. apply Z.leb_gt in Ed. destruct (skip_space t) as [|c u] eqn:Es; [done|].
    destruct (c =? 0x7D)%N; [injection H as <- <-; split; [by repeat constructor|by eapply Hskip]|].
    destruct (read_members fuel (depth - 1) t) as [[m more']|] eqn:Em; [|done]. injection H as <- <-.
    apply Hmembers in Em as [(?&?&?) [? ?]]; [done|]. split; [by constructor|by apply inside_tail]. }
  destruct (b =? 0x5B)%N.
  { destruct (depth <=? 0)%Z eqn:Ed; [done|]. apply Z.leb_gt in Ed. destruct (skip_space t) as [|c u] eqn:Es; [done|].
    destruct (c =? 0x5D)%N; [injection H as <- <-; split; [by repeat constructor|by eapply Hskip]|].
    destruct (read_items fuel (depth - 1) t) as [[m more']|] eqn:Em; [|done]. injection H as <- <-.
    apply Hitems in Em as [? [? ?]]; [done|]. split; [by constructor|by apply inside_tail]. }
  destruct (b =? 0x22)%N.
  { destruct (read_string 0 t) as [[s more']|] eqn:Es; [|done]. injection H as <- <-.
    apply read_string_text in Es as [? ?]. split; [by constructor|by apply inside_tail]. }
  do 3 (case_match; [apply read_word_found in H as (-> & _ & ?); [by split; [constructor|]|done]|]).
  destruct (read_number (b :: t)) as [[x more']|] eqn:En; [|done]. injection H as <- <-.
  destruct (number_found _ _ _ En) as [_ Hin]. split; [|done]. destruct (number_rereads _ _ _ En) as [Ex Hm].
  constructor. rewrite bytes_of_string_of; [|rewrite Ex in Hb; by apply Forall_app in Hb as [? _]].
  specialize (Hm [] I). by rewrite app_nil_r in Hm.
Qed.

Lemma item_found fuel : values_found fuel → items_found fuel → items_found (S fuel).
Proof.
  intros Hvalues Hitems depth l items more. cbn [read_items].
  destruct (read_value fuel depth l) as [[v l1]|] eqn:Ev; [|done]. cbn. intros H Hl. apply Hvalues in Ev as [Hv Hin]; [done|].
  destruct (skip_space l1) as [|c t] eqn:Es; [done|]. apply skip_space_cons in Es.
  assert (t `suffix_of` l1) as Ht by (etrans; [by apply suffix_cons_r|exact Es]).
  assert (∀ more, more `suffix_of` t → inside more l) as Hmore.
  { intros m Hm. eapply inside_suffix; [|exact (proj1 Hin)]. eapply inside_suffix; [|exact Es]. by apply inside_tail. }
  destruct (c =? 0x2C)%N.
  - destruct (read_items fuel depth t) as [[items' l2]|] eqn:Ei; [|done]. cbn in H. injection H as <- <-.
    apply Hitems in Ei as [? [? ?]]; [eapply suffix_bytes; [|exact Hl]; etrans; [exact Ht|apply Hin]|].
    split; [by constructor|by apply Hmore].
  - destruct (c =? 0x5D)%N; [|done]. injection H as <- <-. split; [by repeat constructor|by apply Hmore].
Qed.

Lemma member_found fuel : values_found fuel → members_found fuel → members_found (S fuel).
Proof.
  intros Hvalues Hmembers depth l m more. cbn [read_members].
  destruct (skip_space l) as [|b t] eqn:El; [done|]. apply skip_space_cons in El. destruct (negb _); [done|].
  destruct (read_string 0 t) as [[k l1]|] eqn:Ek; [|done]. cbn. apply read_string_text in Ek as [Hk Hl1].
  destruct (skip_space l1) as [|c t1] eqn:E1; [done|]. apply skip_space_cons in E1. destruct (negb _); [done|].
  destruct (read_value fuel depth t1) as [[v l2]|] eqn:Ev; [|done]. cbn.
  destruct (skip_space l2) as [|c2 t2] eqn:E2; [done|]. apply skip_space_cons in E2. intros H Hl.
  assert (inside t1 l) as Ht1.
  { eapply inside_suffix; [|exact El]. apply inside_tail. etrans; [by apply suffix_cons_r|]. by etrans. }
  apply Hvalues in Ev as [Hv Hl2]; [by eapply suffix_bytes; [apply Ht1|]|].
  assert (∀ more, more `suffix_of` t2 → inside more l) as Hmore.
  { intros m' Hm. eapply inside_suffix; [|exact (proj1 Ht1)]. eapply inside_suffix; [|exact (proj1 Hl2)].
    eapply inside_suffix; [|exact E2]. by apply inside_tail. }
  destruct (c2 =? 0x2C)%N.
  - destruct (read_members fuel depth t2) as [[m' l3]|] eqn:Em; [|done]. cbn in H. injection H as <- <-.
    apply Hmembers in Em as [(?&?&?) [? ?]]; [by eapply suffix_bytes; [apply (Hmore t2)|]|].
    split; [|by apply Hmore]. split_and!; [by apply put_absent_sorted|by apply put_absent_keys|by apply put_absent_values].
  - destruct (c2 =? 0x7D)%N; [|done]. injection H as <- <-. split; [|by apply Hmore]. split_and!; by repeat constructor.
Qed.

Lemma all_found fuel : values_found fuel ∧ items_found fuel ∧ members_found fuel.
Proof.
  induction fuel as [|fuel (IHv & IHi & IHm)]; [done|].
  split_and!; [by apply value_found|by apply item_found|by apply member_found].
Qed.

Lemma json_parse_readable text v : json_parse text = Some v → readable max_depth v.
Proof.
  unfold json_parse. destruct (read_value _ _ _) as [[v' more]|] eqn:E; [|done]. cbn. intros H.
  assert (v' = v) as <- by (destruct (skip_space more); congruence).
  by apply all_found in E as [? _]; [apply bytes_of_bytes|].
Qed.

(** ** What was written is read back *)

Lemma bytes_of_joined s l : bytes_of (String.concat "," (s :: l)) = bytes_of s ++ (l ≫= λ s, 0x2C%N :: bytes_of s).
Proof.
  revert s. induction l as [|s' l IH]; intros s; [by rewrite app_nil_r|].
  change (String.concat "," (s :: s' :: l)) with (s +:+ "," +:+ String.concat "," (s' :: l)).
  rewrite !bytes_of_app, IH. done.
Qed.

Lemma number_head l x more : read_number l = Some (x, more) → ∃ b t, l = b :: t ∧ (b = 0x2D%N ∨ is_digit_byte b = true).
Proof.
  destruct l as [|b t]; [done|]. cbn [read_number]. intros H. exists b, t. split; [done|].
  destruct (b =? 0x2D)%N eqn:E; [left; by apply N.eqb_eq|right]. unfold read_unsigned, read_integer_part, some_digits in H. cbn [span_digits] in H.
  destruct (b =? 0x30)%N eqn:E0; [by apply N.eqb_eq in E0 as ->|]. by destruct (is_digit_byte b).
Qed.

(** Invalid bytes replaced, in the strings and names, and the members as a map keeps them:
    sorted, the last of a name. *)
Definition to_valid (s : string) : string := string_of_bytes (to_valid_bytes 0 (bytes_of s)).
Definition kept_members (m : list (string * json)) : list (string * json) := foldr (λ p, put_absent p.1 p.2) [] m.
Fixpoint cleaned (v : json) : json :=
  match v with
  | JString s => JString (to_valid s)
  | JArray items => JArray (cleaned <$> items)
  | JObject members => JObject (kept_members ((λ m, (to_valid m.1, cleaned m.2)) <$> members))
  | _ => v
  end.
Definition cleaned_member (m : string * json) : string * json := (to_valid m.1, cleaned m.2).

(** A value that can be written: its numbers are literals, and the depth is bounded. *)
Inductive shaped : Z → json → Prop :=
  | NullShaped depth : shaped depth JNull
  | BoolShaped depth b : shaped depth (JBool b)
  | NumberShaped depth literal :
      read_number (bytes_of literal) = Some (bytes_of literal, []) → shaped depth (JNumber literal)
  | StringShaped depth s : shaped depth (JString s)
  | ArrayShaped depth items : (0 < depth)%Z → Forall (shaped (depth - 1)) items → shaped depth (JArray items)
  | ObjectShaped depth members : (0 < depth)%Z → Forall (λ p, shaped (depth - 1) p.2) members → shaped depth (JObject members).

Lemma readable_shaped v depth : readable depth v → shaped depth v.
Proof.
  revert depth. induction v as [|b|l|s|items IH|m IH] using json_parts_ind; intros depth Hr.
  - constructor.
  - constructor.
  - inversion Hr; by constructor.
  - constructor.
  - inversion Hr as [| | | |? ? ? Hall|]; subst. constructor; [done|]. rewrite Forall_forall in *. auto.
  - inversion Hr as [| | | | |? ? ? _ _ Hall]; subst. constructor; [done|]. rewrite Forall_forall in *. auto.
Qed.

Lemma put_absent_first k v m : Forall (λ p, string_less k p.1 = true) m → put_absent k v m = (k, v) :: m.
Proof.
  destruct 1 as [|[k' v'] m H _]; [done|]. cbn in *. rewrite H. case_bool_decide as E; [|done]. subst.
  by rewrite (less_irrefl (less:=string_less)) in H.
Qed.

Lemma kept_sorted m : StronglySorted (λ p q : string * json, string_less p.1 q.1 = true) m → kept_members m = m.
Proof.
  induction 1 as [|[k v] m Hs IH Hlt]; [done|].
  change (put_absent k v (kept_members m) = (k, v) :: m). rewrite IH. by apply put_absent_first.
Qed.

Lemma to_valid_fixed s : valid_utf8 s → to_valid s = s.
Proof. intros H. unfold to_valid. rewrite H. apply string_of_bytes_of. Qed.

Lemma readable_cleaned v depth : readable depth v → cleaned v = v.
Proof.
  revert depth. induction v as [|b|l|s|items IH|m IH] using json_parts_ind; intros depth Hr; try done.
  - inversion Hr; subst. cbn. by rewrite to_valid_fixed.
  - inversion Hr as [| | | |? ? _ Hall|]; subst. cbn. f_equal. rewrite <-(list_fmap_id items) at 2. apply list_fmap_ext.
    intros i v Hv%list_elem_of_lookup_2. rewrite Forall_forall in *. by eapply IH, Hall.
  - inversion Hr as [| | | | |? ? _ Hs Hk Hall]; subst. cbn. f_equal. rewrite <-(kept_sorted m Hs) at 2. f_equal.
    rewrite <-(list_fmap_id m) at 2. apply list_fmap_ext.
    intros i [k v] Hv%list_elem_of_lookup_2. rewrite Forall_forall in *. cbn. f_equal.
    + apply to_valid_fixed, (Hk _ Hv).
    + by eapply (IH _ Hv), (Hall _ Hv).
Qed.

(** The bytes that tell what a value is. *)
Definition starts_value (b : N) : bool := negb (is_space b) && negb (b =? 0x5D)%N.

Lemma text_head depth v : shaped depth v → ∃ b t, bytes_of (json_text v) = b :: t ∧ starts_value b = true.
Proof.
  destruct 1 as [|? []|? l H|? s| |]; try (by do 2 eexists).
  apply number_head in H as (b & t & E & Hb). exists b, t. split; [exact E|]. destruct Hb as [->|Hb]; [done|].
    unfold is_digit_byte, starts_value, is_space in *. apply andb_true_iff in Hb as [H1 H2]. N_facts. by settle.
Qed.

Lemma read_value_number fuel depth l x more :
  read_number l = Some (x, more) → read_value (S fuel) depth l = Some (JNumber (string_of_bytes x), more).
Proof.
  intros H. destruct (number_head _ _ _ H) as (b & t & -> & Hb).
  assert (is_space b = false ∧ b ≠ 0x7B ∧ b ≠ 0x5B ∧ b ≠ 0x22 ∧ b ≠ 0x74 ∧ b ≠ 0x66 ∧ b ≠ 0x6E)%N as (Hs & ? & ? & ? & ? & ? & ?).
  { destruct Hb as [->|Hb]; [done|]. unfold is_digit_byte, is_space in *. apply andb_true_iff in Hb as [H1 H2]. N_facts. settle. split_and!; lia. }
  cbn [read_value skip_space]. rewrite Hs. settle. by rewrite H.
Qed.

Definition written (v : json) : Prop := ∀ depth fuel more,
  shaped depth v → apart in_number more → 2 * length (bytes_of (json_text v)) ≤ S fuel →
  read_value fuel depth (bytes_of (json_text v) ++ more) = Some (cleaned v, more).

Definition joined (l : list string) : list N := l ≫= λ s, 0x2C%N :: bytes_of s.

Lemma read_items_written items v depth fuel more :
  Forall written (v :: items) → Forall (shaped depth) (v :: items) →
  2 * length (bytes_of (json_text v) ++ joined (json_text <$> items)) ≤ fuel →
  read_items fuel depth (bytes_of (json_text v) ++ joined (json_text <$> items) ++ 0x5D%N :: more)
  = Some (cleaned <$> v :: items, more).
Proof.
  revert v fuel. induction items as [|v' items IH]; intros v fuel Hw Hr Hf;
    inversion Hw as [|? ? Hv Hw']; inversion Hr as [|? ? Hrv Hr']; subst; rewrite length_app in Hf;
    destruct (text_head _ _ Hrv) as (b & t & Eb & _); (destruct fuel as [|fuel]; [rewrite Eb in Hf; cbn in Hf; lia|]); cbn [read_items].
  - rewrite (Hv depth) by (done || lia). done.
  - rewrite (Hv depth) by (done || lia). cbn in Hf |- *.
    change (joined (json_text <$> items)) with ((json_text <$> items) ≫= λ s, 0x2C%N :: bytes_of s) in IH.
    rewrite length_app in Hf. rewrite <-app_assoc. cbn.
    rewrite (IH v') by (done || (rewrite length_app; cbn in *; lia)). done.
Qed.

Definition member_text (m : string * json) : string := json_string m.1 +:+ ":" +:+ json_text m.2.

Lemma bytes_of_member k v more :
  bytes_of (member_text (k, v)) ++ more = 0x22%N :: json_bytes 0 (bytes_of k) ++ 0x22%N :: 0x3A%N :: bytes_of (json_text v) ++ more.
Proof.
  unfold member_text. cbn [fst snd]. rewrite !bytes_of_app, bytes_of_json_string, <-!app_assoc. done.
Qed.

Lemma length_member k v : length (bytes_of (member_text (k, v))) = 3 + length (json_bytes 0 (bytes_of k)) + length (bytes_of (json_text v)).
Proof. pose proof (bytes_of_member k v []) as E. rewrite !app_nil_r in E. rewrite E. cbn. rewrite !length_app. cbn. lia. Qed.

Lemma read_members_written m k v depth fuel more :
  Forall (λ p, written p.2) ((k, v) :: m) → Forall (λ p, shaped depth p.2) ((k, v) :: m) →
  2 * length (bytes_of (member_text (k, v)) ++ joined (member_text <$> m)) ≤ fuel →
  read_members fuel depth (bytes_of (member_text (k, v)) ++ joined (member_text <$> m) ++ 0x7D%N :: more)
  = Some (kept_members (cleaned_member <$> (k, v) :: m), more).
Proof.
  revert k v fuel. induction m as [|[k' v'] m IH]; intros k v fuel Hw Hr Hf;
    inversion Hw as [|? ? Hv Hw']; inversion Hr as [|? ? Hrv Hr']; subst;
    rewrite length_app, length_member in Hf; cbn [fst snd] in *; (destruct fuel as [|fuel]; [lia|]);
    rewrite bytes_of_member; cbn [read_members skip_space]; change (is_space 0x22) with false; cbn -[read_string read_value read_members];
    rewrite read_string_bytes; cbn -[read_string read_value read_members].
  - rewrite (Hv depth) by (done || lia). done.
  - rewrite (Hv depth) by (done || lia). cbn -[read_members kept_members].
    change (joined (member_text <$> m)) with ((member_text <$> m) ≫= λ s, 0x2C%N :: bytes_of s) in IH.
    rewrite <-app_assoc. cbn in Hf. rewrite length_app in Hf.
    rewrite (IH k' v') by (done || (rewrite length_app; cbn in *; lia)). done.
Qed.

Lemma read_value_items fuel depth t c u items more :
  (0 < depth)%Z → skip_space t = c :: u → c ≠ 0x5D%N → read_items fuel (depth - 1) t = Some (items, more) →
  read_value (S fuel) depth (0x5B%N :: t) = Some (JArray items, more).
Proof.
  intros Hd Hs Hc Hi. assert ((depth <=? 0)%Z = false) as Hd' by lia. cbn [read_value skip_space]. change (is_space 0x5B) with false. settle.
  by rewrite Hd', Hs, (proj2 (N.eqb_neq _ _) Hc), Hi.
Qed.

Lemma read_value_members fuel depth t c u m more :
  (0 < depth)%Z → skip_space t = c :: u → c ≠ 0x7D%N → read_members fuel (depth - 1) t = Some (m, more) →
  read_value (S fuel) depth (0x7B%N :: t) = Some (JObject m, more).
Proof.
  intros Hd Hs Hc Hi. assert ((depth <=? 0)%Z = false) as Hd' by lia. cbn [read_value skip_space]. change (is_space 0x7B) with false. settle.
  by rewrite Hd', Hs, (proj2 (N.eqb_neq _ _) Hc), Hi.
Qed.

Lemma read_value_empty fuel depth more :
  (0 < depth)%Z → read_value (S fuel) depth (0x5B :: 0x5D :: more)%N = Some (JArray [], more)
  ∧ read_value (S fuel) depth (0x7B :: 0x7D :: more)%N = Some (JObject [], more).
Proof. intros Hd. assert ((depth <=? 0)%Z = false) as Hd' by lia. by split; cbn; rewrite Hd'. Qed.

Lemma bytes_of_array v items more :
  bytes_of (json_text (JArray (v :: items))) ++ more
  = 0x5B%N :: bytes_of (json_text v) ++ joined (json_text <$> items) ++ 0x5D%N :: more.
Proof.
  cbn [json_text fmap list_fmap]. rewrite !bytes_of_app, bytes_of_joined, <-!app_assoc. done.
Qed.

Lemma bytes_of_object p m more :
  bytes_of (json_text (JObject (p :: m))) ++ more
  = 0x7B%N :: bytes_of (member_text p) ++ joined (member_text <$> m) ++ 0x7D%N :: more.
Proof.
  cbn [json_text]. unfold json_object. rewrite <-list_fmap_compose.
  change (_ <$> p :: m) with (member_text p :: (member_text <$> m)). rewrite !bytes_of_app, bytes_of_joined, <-!app_assoc. done.
Qed.

Lemma text_written v : written v.
Proof.
  induction v as [|b|l|s|items IH|m IH] using json_parts_ind; intros depth fuel more Hr Ha Hf; (destruct fuel as [|fuel];
    [destruct (text_head _ _ Hr) as (c & t & E & _); rewrite E in Hf; cbn in Hf; lia|]).
  - done.
  - by destruct b.
  - inversion Hr as [| |? ? Hl| | |]; subst. cbn [json_text].
    rewrite (read_value_number fuel depth _ (bytes_of l) more); [by rewrite string_of_bytes_of|]. by apply (number_rereads _ _ _ Hl).
  - cbn [json_text]. rewrite bytes_of_json_string, <-!app_assoc.
    cbn -[read_string]. by rewrite read_string_bytes.
  - inversion Hr as [| | | |? ? Hd Hall|]; subst. destruct items as [|v items]; [by apply read_value_empty|].
    rewrite <-(app_nil_r (bytes_of _)), bytes_of_array in Hf. rewrite bytes_of_array.
    inversion Hall as [|? ? Hv _]; subst. destruct (text_head _ _ Hv) as (c & t & E & Hc).
    unfold starts_value in Hc. apply andb_true_iff in Hc as [Hs%negb_true_iff Hc%negb_true_iff%N.eqb_neq].
    eapply (read_value_items _ _ _ c); [done| |done|apply (read_items_written items v (depth - 1) fuel more IH Hall)].
    + rewrite E. cbn. by rewrite Hs.
    + cbn in Hf. rewrite !length_app in *. cbn in Hf. lia.
  - inversion Hr as [| | | | |? ? Hd Hall]; subst. destruct m as [|[k v] m]; [by apply read_value_empty|].
    rewrite <-(app_nil_r (bytes_of _)), bytes_of_object in Hf. rewrite bytes_of_object.
    eapply (read_value_members _ _ _ 0x22); [done|by rewrite bytes_of_member|done|].
    rewrite (read_members_written m k v (depth - 1) fuel more IH Hall); [done|].
    cbn in Hf. rewrite !length_app in *. cbn in Hf. lia.
Qed.

(** ** Enough fuel *)

Definition same_values (n : nat) : Prop := ∀ fuel depth l, Forall is_byte l → 2 * length l < n → n ≤ fuel →
  read_value fuel depth l = read_value n depth l.
Definition same_items (n : nat) : Prop := ∀ fuel depth l, Forall is_byte l → 2 * length l + 1 < n → n ≤ fuel →
  read_items fuel depth l = read_items n depth l ∧ read_members fuel depth l = read_members n depth l.

Lemma fuel_enough n : same_values n ∧ same_items n.
Proof.
  induction n as [|n [IHv IHi]]; [split; intros fuel depth l _ H; lia|]. split.
  - intros [|fuel] depth l Hl Hn Hf; [lia|]. cbn [read_value]. destruct (skip_space l) as [|b t] eqn:E; [done|].
    apply skip_space_cons in E. pose proof (suffix_length _ _ E) as Hlen. cbn in Hlen.
    pose proof (suffix_bytes _ _ E Hl) as Hb. inversion Hb as [|? ? _ Ht]; subst.
    assert (∀ depth, read_items fuel depth t = read_items n depth t ∧ read_members fuel depth t = read_members n depth t) as Hsame
      by (intros d; apply IHi; [done|lia..]).
    by rewrite (proj1 (Hsame (depth - 1)%Z)), (proj2 (Hsame (depth - 1)%Z)).
  - intros [|fuel] depth l Hl Hn Hf; [lia|]. cbn [read_items read_members]. split.
    + rewrite (IHv fuel) by (done || lia). destruct (read_value n depth l) as [[v l1]|] eqn:Ev; [|done]. cbn.
      apply all_found in Ev as [_ [Hs Hlt]]; [done|]. destruct (skip_space l1) as [|c t] eqn:E; [done|].
      apply skip_space_cons in E. pose proof (suffix_length _ _ E) as Hlen. cbn in Hlen.
      assert (Forall is_byte t) as Ht by (eapply suffix_bytes; [|exact Hl]; etrans; [by apply suffix_cons_r|by etrans]).
      by rewrite (proj1 (IHi fuel depth t Ht ltac:(lia) ltac:(lia))).
    + destruct (skip_space l) as [|b t] eqn:E; [done|]. destruct (negb _); [done|].
      apply skip_space_cons in E. pose proof (suffix_length _ _ E) as Hlen. cbn in Hlen.
      destruct (read_string 0 t) as [[k l1]|] eqn:Ek; [|done]. cbn. destruct (skip_space l1) as [|c t1] eqn:E1; [done|]. destruct (negb _); [done|].
      apply read_string_suffix in Ek. apply skip_space_cons in E1.
      assert (t1 `suffix_of` l) as Hs1 by (etrans; [by apply suffix_cons_r|]; etrans; [exact E1|]; etrans; [exact Ek|]; etrans; [by apply suffix_cons_r|exact E]).
      pose proof (suffix_length _ _ E1) as Hlen1. pose proof (suffix_length _ _ Ek) as Hlenk. cbn in Hlen1.
      pose proof (suffix_bytes _ _ Hs1 Hl) as Ht1.
      rewrite (IHv fuel) by (done || lia). destruct (read_value n depth t1) as [[v l2]|] eqn:Ev; [|done]. cbn.
      apply all_found in Ev as [_ [Hs Hlt]]; [done|]. destruct (skip_space l2) as [|c2 t2] eqn:E2; [done|].
      apply skip_space_cons in E2. pose proof (suffix_length _ _ E2) as Hlen2. cbn in Hlen2.
      assert (Forall is_byte t2) as Ht2 by (eapply suffix_bytes; [|exact Ht1]; etrans; [by apply suffix_cons_r|by etrans]).
      by rewrite (proj2 (IHi fuel depth t2 Ht2 ltac:(lia) ltac:(lia))).
Qed.

(** More fuel than [json_parse] takes changes nothing. *)
Lemma json_parse_fuel fuel text :
  enough (bytes_of text) ≤ fuel →
  read_value fuel max_depth (bytes_of text) = read_value (enough (bytes_of text)) max_depth (bytes_of text).
Proof. intros Hf. apply fuel_enough; [apply bytes_of_bytes|unfold enough; lia|done]. Qed.

Lemma json_parse_written v : shaped max_depth v → json_parse (json_text v) = Some (cleaned v).
Proof.
  intros Hr. unfold json_parse. rewrite <-(app_nil_r (bytes_of (json_text v))) at 2.
  rewrite text_written; [done..|]. unfold enough. lia.
Qed.

Lemma json_parse_text v : readable max_depth v → json_parse (json_text v) = Some v.
Proof. intros Hr. rewrite json_parse_written by (by apply readable_shaped). by rewrite (readable_cleaned _ _ Hr). Qed.

(** Reading what was written of a value that was read. *)
Lemma json_reparse text v : json_parse text = Some v → json_parse (json_text v) = Some v.
Proof. intros H. by apply json_parse_text, (json_parse_readable text). Qed.
