(* ===== verification/AgentGrants.v ===== *)
(** * Administrator grants

    [internal/agent/administrator_grant.go] from the matching of a proposed call with an
    administrator's intent: the one-call grant that is minted, its identifier, its
    validation before the call is executed, and the grant that a scheduled command carries
    on to its target. The conservative reading of the administrator's message, which is
    regular expressions over Chinese text, is not modelled: the intent is a value. *)

From S2P Require Import Prelude GoStd Sha256 TimeText JsonText JsonRecords Json Intent AccountTypes.
From Stdlib Require Import Ascii.

(** The message of [encoding/json] for a text it cannot decode into a structure. *)
Class DecodeCauses := decode_cause : string → external_error.

Definition administratorGrantVersion : Z := 1.

Record AdministratorIntentGrant := mkIntentGrant {
  ig_Capability : string;
  ig_Clause : string;
  ig_ResourceKeys : list string;
  ig_LoadFactor : option Z;
  ig_TargetTier : string;
  ig_Enabled : option bool;
  ig_ExecuteAt : option time;
  ig_ExpiresAt : option time;
  ig_PermanentHold : bool;
}.

Record AdministratorIntent := mkAdministratorIntent {
  ai_Version : Z;
  ai_CommandHash : string;
  ai_GrantScopeID : string;
  ai_Explicit : bool;
  ai_Grants : list AdministratorIntentGrant;
  ai_Issues : list string;
}.

Record AdministratorGrant := mkAdministratorGrant {
  ag_Version : Z;
  ag_GrantID : string;
  ag_GrantScopeID : string;
  ag_CommandHash : string;
  ag_Clause : string;
  ag_Capability : string;
  ag_ArgumentsHash : string;
  ag_ResourceKeys : list string;
  ag_TargetCapability : string;
  ag_TargetArgumentsHash : string;
  ag_TargetResourceKeys : list string;
}.

(** [sa_Arguments] is the text of the value, empty if there is none. *)
Record administratorScheduleArguments := mkSchedule {
  sa_Capability : string;
  sa_Arguments : string;
  sa_ExecuteAt : time;
  sa_Timezone : string;
  sa_ExpiresAt : option time;
  sa_Reason : string;
}.

Definition no_schedule : administratorScheduleArguments := mkSchedule "" "" zero_time "" None "".

(** ** Arguments *)

(** The first value of a text, and what follows it. *)
Definition json_first (text : string) : option (json * list N) :=
  read_value (enough (bytes_of text)) max_depth (bytes_of text).

(** [Decode] into a [map[string]any] with [UseNumber]: [null] is an empty map. *)
Definition decode_map (text : string) : option (list (string * json)) :=
  match json_first text with
  | Some (JObject members, _) => Some members
  | Some (JNull, _) => Some []
  | _ => None
  end.

Definition member_of (members : list (string * json)) (k : string) : option json :=
  snd <$> list_find (λ m, m.1 = k) members ≫= λ found, Some found.2.

Definition normalizedArguments (payload : string) : result error string :=
  if bool_decide (payload = "") then Ok "{}" else
  match json_first payload with
  | Some (JObject members, more) =>
      match skip_space more with
      | [] => Ok (json_text (JObject members))
      | _ :: _ => Err (NewError "能力参数包含多余 JSON 内容")
      end
  | _ => Err (NewError "能力参数必须是 JSON 对象")
  end.

(** [strconv.Atoi] of a JSON number. *)
Definition atoi (literal : string) : option Z :=
  let '(negative, digits) := match bytes_of literal with b :: t => if (b =? 0x2D)%N then (true, t) else (false, b :: t) | [] => (false, []) end in
  if bool_decide (digits = []) || negb (forallb is_digit_byte digits) then None else
  let n := foldl (λ acc b, acc * 10 + Z.of_N (b - 0x30))%Z 0%Z digits in
  let n := if (negative : bool) then (- n)%Z else n in
  if (- 2 ^ 63 <=? n)%Z && (n <? 2 ^ 63)%Z then Some n else None.

Definition integerMapValue (values : list (string * json)) (key : string) : option Z :=
  match member_of values key with Some (JNumber literal) => atoi literal | _ => None end.

Definition string_member (values : list (string * json)) (key : string) : option string :=
  match member_of values key with Some (JString s) => Some s | _ => None end.

Section decode.
Context `{FoldTable, DecodeCauses}.

(** The field of a structure that a member belongs to: of the same name, else of the
    first that is the same but for its case. *)
Definition field_named (fields : list string) (name : string) : option string :=
  if bool_decide (name ∈ fields) then Some name else snd <$> list_find (λ f, EqualFold f name = true) fields.

Definition schedule_fields : list string := ["capability"; "arguments"; "execute_at"; "timezone"; "expires_at"; "reason"].

Definition decode_string (v : json) (old : string) : option string :=
  match v with JString s => Some s | JNull => Some old | _ => None end.

(** [Time.UnmarshalJSON]: strict RFC 3339. *)
Definition decode_time (v : json) (old : time) : option time :=
  match v with JString s => parse_rfc3339 s | JNull => Some old | _ => None end.

Definition decode_schedule_member (a : administratorScheduleArguments) (m : string * json) : option administratorScheduleArguments :=
  field ← field_named schedule_fields m.1;
  if bool_decide (field = "capability") then s ← decode_string m.2 (sa_Capability a); Some (a <| sa_Capability := s |>) else
  if bool_decide (field = "arguments") then Some (a <| sa_Arguments := json_text m.2 |>) else
  if bool_decide (field = "execute_at") then t ← decode_time m.2 (sa_ExecuteAt a); Some (a <| sa_ExecuteAt := t |>) else
  if bool_decide (field = "timezone") then s ← decode_string m.2 (sa_Timezone a); Some (a <| sa_Timezone := s |>) else
  if bool_decide (field = "expires_at") then
    match m.2 with
    | JNull => Some (a <| sa_ExpiresAt := None |>)
    | v => t ← decode_time v (default zero_time (sa_ExpiresAt a)); Some (a <| sa_ExpiresAt := Some t |>)
    end
  else s ← decode_string m.2 (sa_Reason a); Some (a <| sa_Reason := s |>).

(** [decodeCapabilityArguments] into an [administratorScheduleArguments], of normalised
    arguments: no member may be unknown. *)
Definition decode_schedule (payload : string) : result error administratorScheduleArguments :=
  let invalid := Errorf "能力参数无效" (External (decode_cause payload)) in
  match json_first payload with
  | None => Err invalid
  | Some (v, more) =>
      let decoded :=
        match v with
        | JObject members => foldl (λ a m, a ← a; decode_schedule_member a m) (Some no_schedule) members
        | JNull => Some no_schedule
        | _ => None
        end in
      match decoded with
      | None => Err invalid
      | Some a => match skip_space more with [] => Ok a | _ :: _ => Err (NewError "能力参数包含多余 JSON 内容") end
      end
  end.
End decode.

(** ** Resources *)

Definition normalizeResourceKeys (values : list string) : list string :=
  compact (sort_slice string_less (filter (λ v, v ≠ "") (trim_space <$> values))).

Definition equalResourceKeys (left right : list string) : bool :=
  bool_decide (normalizeResourceKeys left = normalizeResourceKeys right).

(** [appendInteger] *)
Definition append_integer (values : list (string * json)) (field prefix : string) (keys : list string) : result error (list string) :=
  match member_of values field with
  | None => Ok keys
  | Some _ =>
      match integerMapValue values field with
      | Some value => if (0 <? value)%Z then Ok (keys ++ [prefix +:+ ":" +:+ format_int value])
                      else Err (NewError (field +:+ " 资源编号无效"))
      | None => Err (NewError (field +:+ " 资源编号无效"))
      end
  end.

(** The levels of members below a value. *)
Fixpoint json_depth (v : json) : nat :=
  match v with
  | JArray items => foldr (λ v n, S (json_depth v) `max` n) 0 items
  | JObject members => foldr (λ m n, S (json_depth m.2) `max` n) 0 members
  | _ => 0
  end.

Section keys.
Context `{FoldTable, DecodeCauses}.

(** A schedule's resources are those of its target, whose arguments are nested one level
    deeper: [fuel] bounds the levels. *)
Fixpoint resource_keys (fuel : nat) (capability arguments : string) : result error (list string) :=
  match decode_map arguments with
  | None => Err (NewError "无法提取能力资源")
  | Some values =>
      keys ← append_integer values "account_id" "account" [];
      keys ← append_integer values "source_id" "source" keys;
      keys ← append_integer values "policy_id" "policy" keys;
      keys ← append_integer values "command_id" "command" keys;
      let keys := match string_member values "key_id" with
                  | Some value => if bool_decide (trim_space value = "") then keys else keys ++ ["key:" +:+ trim_space value]
                  | None => keys
                  end in
      let keys := if bool_decide (capability = "trigger_reconcile") then keys ++ ["global:scheduler"] else keys in
      let keys := if bool_decide (capability = "update_dispatch_policy") || bool_decide (capability = "propose_dispatch_policy")
                  then keys ++ ["policy_scope:" +:+ default "" (string_member values "scope_type") +:+ ":"
                                +:+ default "" (string_member values "scope_id")]
                  else keys in
      if bool_decide (capability = "schedule_command") then
        match fuel with
        | O => Err (NewError "")
        | S fuel =>
            schedule ← decode_schedule arguments;
            targetArguments ← normalizedArguments (sa_Arguments schedule);
            resource_keys fuel (sa_Capability schedule) targetArguments
        end
      else Ok (normalizeResourceKeys keys)
  end.

Definition capabilityResourceKeys (capability arguments : string) : result error (list string) :=
  resource_keys (S (default 0 (json_depth ∘ fst <$> json_first arguments))) capability arguments.
End keys.

(** ** Matching a call with an intent *)

(** [strings.SplitN(key, ":", 2)[0]] *)
Fixpoint before_colon (s : string) : string :=
  match s with String c s => if bool_decide (c = ":"%char) then "" else String c (before_colon s) | EmptyString => "" end.

Definition administratorResourcesMatch (expected actual : list string) : bool :=
  if bool_decide (expected = []) then bool_decide (actual = []) else
  forallb (λ key, bool_decide (key ∈ actual)) expected
  && forallb (λ key,
       let kind := before_colon key in
       forallb (λ wanted, negb (String.prefix (kind +:+ ":") wanted && bool_decide (key ≠ wanted) && bool_decide (kind ≠ "key"))) expected)
     actual.

(** [time.Parse(time.RFC3339, _)]: beside the strict format, an hour of one digit, a comma
    before the fraction, and any zone up to 24:60. *)
Definition read_hour (s : string) : option (Z * string) :=
  match s with
  | String a (String b rest as tail) =>
      if negb (is_digit a) then None else
      if is_digit b then Some ((digit_value a * 10 + digit_value b)%Z, rest) else Some (digit_value a, tail)
  | String a EmptyString => if is_digit a then Some (digit_value a, EmptyString) else None
  | EmptyString => None
  end.
Definition read_any_fraction (s : string) : Z * string :=
  match s with
  | String p (String c _ as rest) =>
      if (bool_decide (p = "."%char) || bool_decide (p = ","%char)) && is_digit c then read_fraction 9 rest else (0%Z, s)
  | _ => (0%Z, s)
  end.
Definition read_any_zone (s : string) : option Z :=
  match s with
  | String sign s =>
      if bool_decide (sign = "Z"%char) then guard (s = "");; Some 0%Z else
      guard (sign = "+" ∨ sign = "-")%char;;
      field 2 0 24 s (λ hours s, s ← expect ":" s;
      field 2 0 60 s (λ minutes s,
      guard (s = "");;
      let offset := ((hours * 60 + minutes) * 60)%Z in
      Some (if bool_decide (sign = "-"%char) then (- offset)%Z else offset)))
  | EmptyString => None
  end.
Definition parse_time (s : string) : option time :=
  field 4 0 9999 s (λ year s, s ← expect "-" s;
  field 2 1 12 s (λ month s, s ← expect "-" s;
  field 2 1 (days_in (12 * year + month - 1)) s (λ day s, s ← expect "T" s;
  '(hour, s) ← read_hour s; guard (hour ≤ 23)%Z;; s ← expect ":" s;
  field 2 0 59 s (λ minute s, s ← expect ":" s;
  field 2 0 59 s (λ seconds s,
  let '(nano, s) := read_any_fraction s in
  offset ← read_any_zone s;
  Some (time_of (mkDateTime year month day hour minute seconds nano) - offset * second)%Z))))).

(** [t.UTC().Truncate(time.Minute)] of two instants. *)
Definition same_minute (t u : time) : bool := (t / minute =? u / minute)%Z.

(** The fields a plain enabling or disabling may not carry. *)
Definition smuggled_fields : list string := ["pause_below"; "resume_at"; "routing_enabled"; "routing_pool"; "selected_key_id"].

Definition load_matches (grant : AdministratorIntentGrant) (values : list (string * json)) : bool :=
  match ig_LoadFactor grant with
  | Some wanted => bool_decide (integerMapValue values "load_factor" = Some wanted)
  | None => true
  end.
Definition tier_matches (grant : AdministratorIntentGrant) (values : list (string * json)) : bool :=
  bool_decide (ig_TargetTier grant = "") || bool_decide (default "" (string_member values "target_tier") = ig_TargetTier grant).
Definition enabled_matches (grant : AdministratorIntentGrant) (values : list (string * json)) : bool :=
  match ig_Enabled grant with
  | Some wanted =>
      match member_of values "enabled" with Some (JBool b) => Bool.eqb b wanted | _ => false end
      && (negb (bool_decide (ig_Capability grant = "update_upstream_control"))
          || forallb (λ f, match member_of values f with None | Some JNull => true | Some _ => false end) smuggled_fields)
  | None => true
  end.
Definition execution_matches (grant : AdministratorIntentGrant) (values : list (string * json)) (executeAt : time) : bool :=
  match ig_ExecuteAt grant with
  | Some wanted =>
      let actual := if is_zero_time executeAt
                    then default zero_time (string_member values "until" ≫= parse_time) else executeAt in
      negb (is_zero_time actual) && same_minute actual wanted
  | None => true
  end.
Definition expiry_matches (grant : AdministratorIntentGrant) (values : list (string * json)) : bool :=
  match ig_ExpiresAt grant with
  | Some wanted => match string_member values "expires_at" ≫= parse_time with Some actual => same_minute actual wanted | None => false end
  | None => true
  end.

Definition administratorConstraintsMatch (grant : AdministratorIntentGrant) (arguments : string) (executeAt : time) : bool :=
  match decode_map arguments with
  | None => false
  | Some values => load_matches grant values && tier_matches grant values && enabled_matches grant values
                   && execution_matches grant values executeAt && expiry_matches grant values
  end.

Definition matchingAdministratorIntentGrant (intent : AdministratorIntent) (capability clause : string) (resources : list string)
    (arguments : string) (executeAt : time) : option AdministratorIntentGrant :=
  snd <$> list_find (λ candidate, bool_decide (ig_Capability candidate = capability) && bool_decide (ig_Clause candidate = clause)
    && administratorResourcesMatch (ig_ResourceKeys candidate) resources
    && administratorConstraintsMatch candidate arguments executeAt = true) (ai_Grants intent).

(** ** Grants *)

Definition administratorArgumentsHash (arguments : string) : string :=
  if bool_decide (arguments = "") then "" else sha256_hex arguments.

(** The text of 32 bytes in hexadecimal digits of either case. *)
Definition validAdministratorCommandHash (value : string) : bool :=
  (String.length value =? 64)%nat && forallb (λ b, bool_decide (is_Some (hex_digit_of b))) (bytes_of value).

Definition validAdministratorGrantScopeID (value : string) : bool := validAdministratorCommandHash value.

Definition canonical_grant (grant : AdministratorGrant) : list (string * json) :=
  [("version", JNumber (json_int (ag_Version grant)));
   ("grant_scope_id", JString (ag_GrantScopeID grant));
   ("command_hash", JString (ag_CommandHash grant));
   ("clause", JString (ag_Clause grant));
   ("capability", JString (ag_Capability grant));
   ("arguments_hash", JString (ag_ArgumentsHash grant));
   ("resource_keys", JArray (JString <$> normalizeResourceKeys (ag_ResourceKeys grant)));
   ("target_capability", JString (ag_TargetCapability grant));
   ("target_arguments_hash", JString (ag_TargetArgumentsHash grant));
   ("target_resource_keys", JArray (JString <$> normalizeResourceKeys (ag_TargetResourceKeys grant)))].

Definition grant_domain : string := "sub2api-scheduler/administrator-grant/v1" +:+ string_of_bytes [0%N].

Definition deriveAdministratorGrantID (grant : option AdministratorGrant) : string :=
  match grant with
  | None => ""
  | Some grant =>
      if negb (validAdministratorGrantScopeID (ag_GrantScopeID grant)) then "" else
      "ag1_" +:+ sha256_hex (grant_domain +:+ json_text (JObject (canonical_grant grant)))
  end.

Definition with_id (grant : AdministratorGrant) : AdministratorGrant := grant <| ag_GrantID := deriveAdministratorGrantID (Some grant) |>.

Definition mintAdministratorGrant (grantScopeID commandHash clause capability arguments : string) (resources : list string)
    (targetCapability targetArguments : string) (targetResources : list string) : AdministratorGrant :=
  with_id (mkAdministratorGrant administratorGrantVersion "" grantScopeID commandHash clause capability
    (administratorArgumentsHash arguments) (normalizeResourceKeys resources) targetCapability
    (administratorArgumentsHash targetArguments) (normalizeResourceKeys targetResources)).

Section grants.
Context `{FoldTable, DecodeCauses}.

Definition administratorGrantForInvocation (intent : AdministratorIntent) (capability arguments : string)
    : result error (option AdministratorGrant) :=
  if negb (ai_Explicit intent) || negb (bool_decide (ai_Version intent = administratorGrantVersion))
     || negb (validAdministratorCommandHash (ai_CommandHash intent)) then Ok None else
  if negb (bool_decide (ai_Issues intent = [])) || bool_decide (ai_Grants intent = []) then Ok None else
  if negb (validAdministratorGrantScopeID (ai_GrantScopeID intent))
  then Err (NewError "管理员授权批次缺失或无效，请重新确认命令") else
  normalized ← normalizedArguments arguments;
  if bool_decide (capability = "schedule_command") then
    schedule ← decode_schedule normalized;
    _ ← fail_if (is_zero_time (sa_ExecuteAt schedule)) (NewError "定时命令参数无效");
    targetArguments ← normalizedArguments (sa_Arguments schedule);
    targetResources ← capabilityResourceKeys (sa_Capability schedule) targetArguments;
    match matchingAdministratorIntentGrant intent (sa_Capability schedule) "scheduled" targetResources targetArguments (sa_ExecuteAt schedule) with
    | None => Ok None
    | Some clause =>
        Ok (Some (mintAdministratorGrant (ai_GrantScopeID intent) (ai_CommandHash intent) (ig_Clause clause) capability normalized
          targetResources (sa_Capability schedule) targetArguments targetResources))
    end
  else
    resources ← capabilityResourceKeys capability normalized;
    match matchingAdministratorIntentGrant intent capability "immediate" resources normalized zero_time with
    | None => Ok None
    | Some clause =>
        Ok (Some (mintAdministratorGrant (ai_GrantScopeID intent) (ai_CommandHash intent) (ig_Clause clause) capability normalized
          resources "" "" []))
    end.

Definition validate_target (grant : AdministratorGrant) (capability arguments : string) : result error unit :=
  if bool_decide (capability = "schedule_command") then
    schedule ← decode_schedule arguments;
    targetArguments ← normalizedArguments (sa_Arguments schedule);
    targetResources ← capabilityResourceKeys (sa_Capability schedule) targetArguments;
    fail_if (negb (bool_decide (ag_TargetCapability grant = sa_Capability schedule))
             || negb (bool_decide (ag_TargetArgumentsHash grant = administratorArgumentsHash targetArguments))
             || negb (equalResourceKeys (ag_TargetResourceKeys grant) targetResources))
      (NewError "管理员精确授权与定时目标能力、参数或资源不匹配")
  else
    fail_if (negb (bool_decide (ag_TargetCapability grant = "")) || negb (bool_decide (ag_TargetArgumentsHash grant = ""))
             || negb (bool_decide (ag_TargetResourceKeys grant = [])))
      (NewError "非定时管理员授权包含非法嵌套目标").

Definition validateAdministratorGrant (grant : option AdministratorGrant) (capability arguments : string) : result error unit :=
  match grant with
  | None => Ok ()
  | Some grant =>
      _ ← fail_if (negb (bool_decide (ag_Version grant = administratorGrantVersion)) || negb (validAdministratorCommandHash (ag_CommandHash grant)))
            (NewError "管理员精确授权版本或命令哈希无效");
      _ ← fail_if (negb (validAdministratorGrantScopeID (ag_GrantScopeID grant)) || bool_decide (ag_GrantID grant = "")
                   || negb (bool_decide (ag_GrantID grant = deriveAdministratorGrantID (Some grant))))
            (NewError "管理员精确授权编号缺失、无效或已被篡改");
      _ ← fail_if (negb (bool_decide (ag_Clause grant = "immediate")) && negb (bool_decide (ag_Clause grant = "scheduled")))
            (NewError "管理员精确授权执行子句无效");
      _ ← fail_if (negb (bool_decide (ag_Capability grant = capability))
                   || negb (bool_decide (ag_ArgumentsHash grant = administratorArgumentsHash arguments)))
            (NewError "管理员精确授权与当前能力或参数不匹配");
      resources ← capabilityResourceKeys capability arguments;
      _ ← fail_if (negb (equalResourceKeys (ag_ResourceKeys grant) resources)) (NewError "管理员精确授权与当前资源不匹配");
      validate_target grant capability arguments
  end.

(** The grant of the target, before it has its identifier. *)
Definition target_grant (outer : AdministratorGrant) (capability arguments : string) (resources : list string) : AdministratorGrant :=
  mkAdministratorGrant (ag_Version outer) "" (ag_GrantScopeID outer) (ag_CommandHash outer) "scheduled" capability
    (administratorArgumentsHash arguments) resources "" "" [].

Definition scheduledTargetAdministratorGrant (outer : option AdministratorGrant) (capability arguments : string)
    : result error (option AdministratorGrant) :=
  match outer with
  | None => Ok None
  | Some outer =>
      _ ← fail_if (negb (bool_decide (ag_Capability outer = "schedule_command")) || negb (bool_decide (ag_TargetCapability outer = capability)))
            (NewError "定时管理员授权目标能力不匹配");
      resources ← capabilityResourceKeys capability arguments;
      let grant := target_grant outer capability arguments resources in
      _ ← fail_if (negb (bool_decide (ag_ArgumentsHash grant = ag_TargetArgumentsHash outer))
                   || negb (equalResourceKeys (ag_ResourceKeys grant) (ag_TargetResourceKeys outer)))
            (NewError "定时管理员授权目标参数或资源不匹配");
      let grant := with_id grant in
      _ ← fail_if (bool_decide (ag_GrantID grant = ag_GrantID outer)) (NewError "定时命令与目标动作的管理员授权编号发生冲突");
      Ok (Some grant)
  end.
End grants.

(** ** A grant on concrete calls *)

#[local] Instance plain_causes : DecodeCauses := λ _, mkExternal "" false false false false.
#[local] Existing Instance plain_folds.

Definition scope : string := sha256_hex "scope".
Definition told : AdministratorIntent :=
  mkAdministratorIntent 1 (sha256_hex "set account 7 to 40") scope true
    [mkIntentGrant "set_load_factor" "immediate" ["account:7"] (Some 40%Z) "" None None None false;
     mkIntentGrant "pause_account" "scheduled" ["account:7"] None "" None (Some (parseTime "2026-05-01T04:30:00Z")) None false] [].
Definition set_load : string := quotes "{'reason':'busy', 'load_factor':40,'account_id':7}".
Definition schedule_pause : string :=
  quotes "{'capability':'pause_account','arguments':{'account_id':7,'reason':'night'},'execute_at':'2026-05-01T12:30:20+08:00','reason':'night'}".
Definition schedule_pause_missed : string :=
  quotes "{'capability':'pause_account','arguments':{'account_id':7,'reason':'night'},'execute_at':'2026-05-01T12:30:20+08:00','missed_policy':'skip','reason':'night'}".

Definition the_grant (r : result error (option AdministratorGrant)) : option AdministratorGrant := match r with Ok g => g | Err _ => None end.
Definition grant_shape (g : AdministratorGrant) : string * list string * string * list string :=
  (ag_Capability g, ag_ResourceKeys g, ag_TargetCapability g, ag_TargetResourceKeys g).
Definition granted (capability arguments : string) : option (string * list string * string * list string) :=
  grant_shape <$> the_grant (administratorGrantForInvocation told capability arguments).
Example granted_calls :
  granted "set_load_factor" set_load = Some ("set_load_factor", ["account:7"], "", [])
  ∧ granted "schedule_command" schedule_pause = Some ("schedule_command", ["account:7"], "pause_account", ["account:7"])
  ∧ granted "pause_account" (quotes "{'account_id':7}") = None
  ∧ granted "set_load_factor" (quotes "{'account_id':8,'load_factor':40}") = None
  ∧ granted "set_load_factor" (quotes "{'account_id':7,'load_factor':4e1}") = None.
Proof. vm_compute. done. Qed.

(** * What grants guarantee *)

(** ** Normalised arguments *)

Definition normal (text : string) (m : list (string * json)) : Prop :=
  readable max_depth (JObject m) ∧ text = json_text (JObject m).

Lemma json_first_text v : shaped max_depth v → json_first (json_text v) = Some (cleaned v, []).
Proof.
  intros Hr. unfold json_first. rewrite <-(app_nil_r (bytes_of (json_text v))) at 2.
  apply text_written; [done..|]. unfold enough. lia.
Qed.

Lemma json_first_readable text v more : json_first text = Some (v, more) → readable max_depth v.
Proof. intros H. by apply all_found in H as [? _]; [apply bytes_of_bytes|]. Qed.

Lemma json_first_back v : readable max_depth v → json_first (json_text v) = Some (v, []).
Proof. intros H. rewrite json_first_text by (by apply readable_shaped). by rewrite (readable_cleaned _ _ H). Qed.

Lemma normal_first text m : normal text m → json_first text = Some (JObject m, []).
Proof. intros [H ->]. by apply json_first_back. Qed.

Lemma normal_map text m : normal text m → decode_map text = Some m.
Proof. intros H. unfold decode_map. by rewrite (normal_first _ _ H). Qed.

Lemma normalized_of p t :
  normalizedArguments p = Ok t →
  ∃ m, normal t m ∧ (p = "" ∧ m = [] ∨ ∃ more, json_first p = Some (JObject m, more) ∧ skip_space more = []).
Proof.
  unfold normalizedArguments. case_bool_decide as Ep.
  - intros [= <-]. exists []. split; [|by left]. split; [by repeat constructor|done].
  - destruct (json_first p) as [[[] more]|] eqn:E; try done. destruct (skip_space more) eqn:Es; [|done]. intros [= <-].
    exists members. split; [|right; eauto]. split; [by eapply json_first_readable|done].
Qed.

Lemma normalize_normal text m : normal text m → normalizedArguments text = Ok text.
Proof.
  intros H. unfold normalizedArguments. case_bool_decide as E.
  - destruct H as [_ ->]. by destruct m.
  - rewrite (normal_first _ _ H). destruct H as [_ ->]. done.
Qed.

Lemma readable_deeper v depth depth' : readable depth v → (depth ≤ depth')%Z → readable depth' v.
Proof.
  revert depth depth'. induction v as [|b|l|s|items IH|m IH] using json_parts_ind; intros depth depth' Hr Hd.
  - constructor.
  - constructor.
  - inversion Hr; by constructor.
  - inversion Hr; by constructor.
  - inversion Hr as [| | | |? ? ? Hall|]; subst. constructor; [lia|]. rewrite Forall_forall in *.
    intros v Hv. eapply IH; [done|by apply Hall|lia].
  - inversion Hr as [| | | | |? ? ? Hs Hk Hall]; subst. constructor; [lia|done..|]. rewrite Forall_forall in *.
    intros v Hv. eapply IH; [done|by apply Hall|lia].
Qed.

Lemma member_readable m k v : readable max_depth (JObject m) → (k, v) ∈ m → readable max_depth v.
Proof.
  intros Hr Hin. inversion Hr as [| | | | |? ? ? _ _ Hall]; subst. rewrite Forall_forall in Hall.
  eapply readable_deeper; [by apply (Hall _ Hin)|lia].
Qed.

Lemma member_depth m k v : (k, v) ∈ m → json_depth v < json_depth (JObject m).
Proof.
  cbn. induction m as [|[k' v'] m IH]; [by intros ?%elem_of_nil|]. cbn. intros [[= <- <-]|H%IH]%elem_of_cons; lia.
Qed.

Lemma member_of_elem m k v : member_of m k = Some v → (k, v) ∈ m.
Proof.
  unfold member_of. destruct (list_find _ m) as [[i [k' v']]|] eqn:E; [|done]. cbn. intros [= <-].
  apply list_find_Some in E as (Hi & <- & _). by eapply list_elem_of_lookup_2.
Qed.

(** ** Schedules *)

Section schedules.
Context `{FoldTable, DecodeCauses}.

(** The raw arguments of a schedule are those of a member, or there are none. *)
Lemma decoded_arguments members a0 a :
  foldl (λ a m, a ← a; decode_schedule_member a m) (Some a0) members = Some a →
  (∀ m, m ∈ members → is_Some (field_named schedule_fields m.1))
  ∧ (sa_Arguments a = sa_Arguments a0 ∨ ∃ k v, (k, v) ∈ members ∧ sa_Arguments a = json_text v).
Proof.
  revert a0. induction members as [|[k v] members IH]; intros a0; cbn.
  { intros [= <-]. split; [by intros m ?%elem_of_nil|by left]. }
  destruct (decode_schedule_member a0 (k, v)) as [a1|] eqn:E.
  2:{ intros Hf. exfalso. clear -Hf. by induction members. }
  intros [Hknown Hargs]%IH. split.
  - intros m [->|Hm]%elem_of_cons; [|by apply Hknown]. unfold decode_schedule_member in E. by destruct (field_named _ _).
  - destruct Hargs as [->|(k' & v' & Hin & ->)]; [|right; exists k', v'; split; [by right|done]].
    unfold decode_schedule_member in E. destruct (field_named _ _) as [field|]; [|done]. cbn -[decode_time decode_string] in E.
    repeat case_bool_decide; cbn -[decode_time decode_string] in E;
      try (destruct (decode_string v _); cbn in E; [|done]); try (destruct (decode_time v _); cbn in E; [|done]);
      try (apply (inj Some) in E as <-; by destruct a0; left).
    + apply (inj Some) in E as <-. right. exists k, v. split; [by left|by destruct a0].
    + destruct v; cbn -[parse_rfc3339] in E; try done; try (destruct (parse_rfc3339 s); cbn in E; [|done]);
        apply (inj Some) in E as <-; by destruct a0; left.
Qed.

Lemma decode_schedule_normal text m a :
  normal text m → decode_schedule text = Ok a →
  (∀ k v, (k, v) ∈ m → is_Some (field_named schedule_fields k))
  ∧ (sa_Arguments a = "" ∨ ∃ k v, (k, v) ∈ m ∧ sa_Arguments a = json_text v).
Proof.
  intros Hn. unfold decode_schedule. rewrite (normal_first _ _ Hn). destruct (foldl _ _ m) as [a'|] eqn:E; [|done]. cbn. intros [= <-].
  apply decoded_arguments in E as [Hk Ha]. split; [|done]. intros k v Hin. by apply (Hk (k, v)).
Qed.

(** The target's arguments, normalised, lie deeper. *)
Lemma target_normal text m a target :
  normal text m → decode_schedule text = Ok a → normalizedArguments (sa_Arguments a) = Ok target →
  ∃ m', normal target m' ∧ (json_depth (JObject m') = 0 ∨ json_depth (JObject m') < json_depth (JObject m)).
Proof.
  intros Hn Hd Ht. destruct (decode_schedule_normal _ _ _ Hn Hd) as [_ Ha]. destruct (normalized_of _ _ Ht) as (m' & Hm' & Hfrom).
  exists m'. split; [done|]. destruct Hfrom as [[_ ->]|(more & Hfirst & _)]; [by left|].
  destruct Ha as [Ha|(k & v & Hin & Ha)]; rewrite Ha in Hfirst; [done|].
  rewrite json_first_back in Hfirst by (eapply member_readable; [apply Hn|done]). injection Hfirst as -> _.
  right. by eapply member_depth.
Qed.
End schedules.

Section resources.
Context `{FoldTable, DecodeCauses}.

Lemma resource_keys_empty fuel : resource_keys fuel "" "{}" = Ok [].
Proof. by destruct fuel. Qed.

Lemma decode_schedule_empty : decode_schedule "{}" = Ok no_schedule.
Proof. done. Qed.

(** More fuel than the depth of the arguments changes nothing. *)
Lemma resource_keys_fuel n fuel capability text m :
  normal text m → json_depth (JObject m) < n → n ≤ fuel → resource_keys fuel capability text = resource_keys n capability text.
Proof.
  revert fuel capability text m. induction n as [|n IH]; intros [|fuel] capability text m Hn Hd Hf; try lia.
  cbn [resource_keys]. rewrite (normal_map _ _ Hn).
  do 4 (destruct (append_integer _ _ _ _) as [?|]; [cbn [mbind result_bind]|done]).
  case_bool_decide; [|done]. destruct (decode_schedule text) as [sch|] eqn:Ea; [|done]. cbn [mbind result_bind].
  destruct (normalizedArguments (sa_Arguments sch)) as [target|] eqn:Et; [|done]. cbn [mbind result_bind].
  destruct (target_normal _ _ _ _ Hn Ea Et) as (m' & Hm' & Hdepth).
  destruct m as [|[k v] m].
  - destruct Hn as [_ ->]. change (json_text (JObject [])) with "{}" in Ea. rewrite decode_schedule_empty in Ea.
    injection Ea as <-. injection Et as <-. by rewrite !resource_keys_empty.
  - assert (json_depth (JObject m') < n) as Hlt by (cbn in Hd, Hdepth |- *; lia).
    eapply IH; [done|done|lia].
Qed.

(** A schedule's resources are its target's. *)
Lemma schedule_resources text m a target :
  normal text m → decode_schedule text = Ok a → normalizedArguments (sa_Arguments a) = Ok target →
  capabilityResourceKeys "schedule_command" text = capabilityResourceKeys (sa_Capability a) target.
Proof.
  intros Hn Ha Ht. destruct (decode_schedule_normal _ _ _ Hn Ha) as [Hknown _].
  assert (∀ f prefix keys, field_named schedule_fields f = None → append_integer m f prefix keys = Ok keys) as Hno.
  { intros f prefix keys Hf. unfold append_integer. destruct (member_of m f) as [v|] eqn:E; [|done].
    apply member_of_elem, Hknown in E as [x Hx]. congruence. }
  destruct (target_normal _ _ _ _ Hn Ha Ht) as (m' & Hm' & Hdepth). unfold capabilityResourceKeys.
  rewrite (normal_first _ _ Hn), (normal_first _ _ Hm'). lazymatch goal with |- _ = ?r => set (rhs := r) end.
  cbn [resource_keys]. rewrite (normal_map _ _ Hn). do 4 (rewrite Hno by done; cbn [mbind result_bind]).
  rewrite (bool_decide_true ("schedule_command" = "schedule_command")) by done.
  rewrite Ha. cbn [mbind result_bind]. rewrite Ht. cbn [mbind result_bind]. subst rhs.
  cbn [compose fst default fmap option_fmap option_map from_option id].
  destruct m as [|[k v] m].
  - destruct Hn as [_ ->]. change (json_text (JObject [])) with "{}" in Ha. rewrite decode_schedule_empty in Ha.
    injection Ha as <-. injection Ht as <-. by rewrite !resource_keys_empty.
  - eapply resource_keys_fuel; [done|lia|]. cbn in Hdepth |- *. lia.
Qed.

(** ** Normalised resource keys *)

Lemma elem_of_normalizeResourceKeys x values :
  x ∈ normalizeResourceKeys values ↔ x ≠ "" ∧ x ∈ trim_space <$> values.
Proof.
  unfold normalizeResourceKeys. rewrite (proj2 (compact_sorted _ (sort_slice_sorted _ _))), elem_of_sort_slice, list_elem_of_filter. done.
Qed.

Lemma normalizeResourceKeys_sorted values : StronglySorted string_lt (normalizeResourceKeys values).
Proof. apply compact_sorted, sort_slice_sorted, _. Qed.

Lemma normalizeResourceKeys_idemp values : normalizeResourceKeys (normalizeResourceKeys values) = normalizeResourceKeys values.
Proof.
  apply string_lt_sorted_unique; [apply normalizeResourceKeys_sorted..|]. intros x. rewrite elem_of_normalizeResourceKeys. split.
  - intros [Hx (y & -> & Hy)%list_elem_of_fmap]. apply elem_of_normalizeResourceKeys in Hy as [_ (z & -> & Hz)%list_elem_of_fmap].
    rewrite trim_space_idemp in *. apply elem_of_normalizeResourceKeys. split; [done|by apply list_elem_of_fmap_2].
  - intros Hx. pose proof Hx as [Hne (z & -> & Hz)%list_elem_of_fmap]%elem_of_normalizeResourceKeys. split; [done|].
    apply list_elem_of_fmap. exists (trim_space z). by rewrite trim_space_idemp.
Qed.

Lemma equal_normalized keys : equalResourceKeys (normalizeResourceKeys keys) keys = true.
Proof. unfold equalResourceKeys. apply bool_decide_true, normalizeResourceKeys_idemp. Qed.
End resources.

(** ** A minted grant *)

Section minted.
Context `{FoldTable, DecodeCauses}.

(** What a call does and when: itself at once, or a schedule its target at its instant. *)
Inductive asks : string → string → string → string → string → time → Prop :=
  | AsksNow capability arguments :
      capability ≠ "schedule_command" → asks capability arguments capability arguments "immediate" zero_time
  | AsksLater arguments schedule target :
      decode_schedule arguments = Ok schedule → sa_ExecuteAt schedule ≠ zero_time →
      normalizedArguments (sa_Arguments schedule) = Ok target →
      asks "schedule_command" arguments (sa_Capability schedule) target "scheduled" (sa_ExecuteAt schedule).

(** The resources of a call are those of a clause, and beside them at most keys and
    resources of other kinds. *)
Definition resources_within (expected actual : list string) : Prop :=
  (expected = [] → actual = []) ∧ expected ⊆ actual
  ∧ ∀ key wanted, key ∈ actual → wanted ∈ expected →
      String.prefix (before_colon key +:+ ":") wanted = true → before_colon key ≠ "key" → key = wanted.

(** The arguments are those that a clause fixes. *)
Record clause_allows (clause : AdministratorIntentGrant) (values : list (string * json)) (at_ : time) : Prop := {
  allows_load n : ig_LoadFactor clause = Some n → integerMapValue values "load_factor" = Some n;
  allows_tier : ig_TargetTier clause ≠ "" → string_member values "target_tier" = Some (ig_TargetTier clause);
  allows_enabled b : ig_Enabled clause = Some b → member_of values "enabled" = Some (JBool b);
  allows_field b f : ig_Enabled clause = Some b → ig_Capability clause = "update_upstream_control" → f ∈ smuggled_fields →
    member_of values f = None ∨ member_of values f = Some JNull;
  allows_execution t : ig_ExecuteAt clause = Some t → ∃ actual, actual ≠ zero_time ∧ (actual / minute = t / minute)%Z
    ∧ (actual = at_ ∨ string_member values "until" ≫= parse_time = Some actual);
  allows_expiry t : ig_ExpiresAt clause = Some t →
    ∃ actual, string_member values "expires_at" ≫= parse_time = Some actual ∧ (actual / minute = t / minute)%Z;
}.

Lemma resources_match_within expected actual : administratorResourcesMatch expected actual = true → resources_within expected actual.
Proof.
  unfold administratorResourcesMatch. case_bool_decide as E.
  - intros Ha%bool_decide_eq_true. rewrite E, Ha. split_and!; [done..|]. by intros key wanted ?%elem_of_nil.
  - rewrite andb_true_iff, !List.forallb_forall. setoid_rewrite List.forallb_forall. setoid_rewrite <-list_elem_of_In.
    intros [Hin Hkind]. split_and!; [done|intros k Hk; by apply (bool_decide_eq_true (k ∈ actual)), Hin|].
    intros key wanted Hk Hw Hp Hne. specialize (Hkind key Hk wanted Hw). cbv zeta in Hkind. rewrite Hp in Hkind.
    rewrite (bool_decide_true (before_colon key ≠ "key")) in Hkind by done. cbn [andb] in Hkind.
    rewrite andb_true_r in Hkind. apply negb_true_iff, bool_decide_eq_false in Hkind. by apply dec_stable.
Qed.

Lemma constraints_match_allow clause arguments at_ :
  administratorConstraintsMatch clause arguments at_ = true → ∃ values, decode_map arguments = Some values ∧ clause_allows clause values at_.
Proof.
  unfold administratorConstraintsMatch. destruct (decode_map arguments) as [values|]; [|done]. rewrite !andb_true_iff.
  intros [[[[Hload Htier] Henabled] Hexec] Hexp]. exists values. split; [done|]. constructor.
  - unfold load_matches in Hload. intros n E. rewrite E in Hload. by apply bool_decide_eq_true in Hload.
  - unfold tier_matches in Htier. intros Hne. rewrite bool_decide_false in Htier by done. apply bool_decide_eq_true in Htier.
    destruct (string_member values "target_tier"); [by rewrite <-Htier|done].
  - unfold enabled_matches in Henabled. intros b E. rewrite E in Henabled. apply andb_true_iff in Henabled as [Hb _].
    destruct (member_of values "enabled") as [[]|]; try done. by apply Bool.eqb_prop in Hb as ->.
  - unfold enabled_matches in Henabled. intros b f E Ec Hf. rewrite E, Ec in Henabled. apply andb_true_iff in Henabled as [_ Hfs].
    rewrite bool_decide_true in Hfs by done. cbn [negb orb] in Hfs. rewrite List.forallb_forall in Hfs.
    apply list_elem_of_In, Hfs in Hf. destruct (member_of values f) as [[]|]; try done; [by right|by left].
  - unfold execution_matches, same_minute in Hexec. intros t E. rewrite E in Hexec. cbv zeta in Hexec.
    apply andb_true_iff in Hexec as [Hz Hm]. eexists. split_and!; [|by apply Z.eqb_eq in Hm|].
    + intros Hzero. unfold is_zero_time in Hz at 1. rewrite Hzero in Hz. by vm_compute in Hz.
    + destruct (is_zero_time at_); [|by left]. right. destruct (string_member values "until" ≫= parse_time); [done|]. by vm_compute in Hz.
  - unfold expiry_matches, same_minute in Hexp. intros t E. rewrite E in Hexp.
    destruct (string_member values "expires_at" ≫= parse_time) as [actual|]; [|done]. exists actual. split; [done|by apply Z.eqb_eq].
Qed.

(** The intent has a clause for it. *)
Definition told_to (intent : AdministratorIntent) (capability arguments when : string) (at_ : time) : Prop :=
  ai_Explicit intent = true ∧ ai_Issues intent = []
  ∧ ∃ clause resources values, clause ∈ ai_Grants intent
      ∧ ig_Capability clause = capability ∧ ig_Clause clause = when
      ∧ capabilityResourceKeys capability arguments = Ok resources ∧ resources_within (ig_ResourceKeys clause) resources
      ∧ decode_map arguments = Some values ∧ clause_allows clause values at_.

Lemma matching_found intent capability when resources arguments at_ clause :
  matchingAdministratorIntentGrant intent capability when resources arguments at_ = Some clause →
  clause ∈ ai_Grants intent ∧ ig_Capability clause = capability ∧ ig_Clause clause = when
  ∧ administratorResourcesMatch (ig_ResourceKeys clause) resources = true
  ∧ administratorConstraintsMatch clause arguments at_ = true.
Proof.
  unfold matchingAdministratorIntentGrant. destruct (list_find _ _) as [[i c]|] eqn:E; [|done]. cbn. intros [= ->].
  apply list_find_Some in E as (Hi & Hc & _). apply list_elem_of_lookup_2 in Hi.
  rewrite !andb_true_iff, !bool_decide_eq_true in Hc. tauto.
Qed.

Lemma derived_id g : validAdministratorGrantScopeID (ag_GrantScopeID g) = true →
  ag_GrantID (with_id g) = deriveAdministratorGrantID (Some (with_id g)) ∧ ag_GrantID (with_id g) ≠ "".
Proof. intros Hs. destruct g. unfold with_id, deriveAdministratorGrantID, update in *. cbn in *. rewrite Hs. done. Qed.

Lemma fail_if_false {E} (cond : bool) (e : E) : cond = false → fail_if cond e = Ok ().
Proof. by intros ->. Qed.

(** The checks of a grant that carries its own identifier. *)
Lemma validate_with_id g capability arguments resources :
  ag_Version g = administratorGrantVersion → validAdministratorCommandHash (ag_CommandHash g) = true →
  validAdministratorGrantScopeID (ag_GrantScopeID g) = true → ag_Clause g ∈ ["immediate"; "scheduled"] →
  ag_Capability g = capability → ag_ArgumentsHash g = administratorArgumentsHash arguments →
  capabilityResourceKeys capability arguments = Ok resources → equalResourceKeys (ag_ResourceKeys g) resources = true →
  validateAdministratorGrant (Some (with_id g)) capability arguments = validate_target (with_id g) capability arguments.
Proof.
  intros Hv Hc Hs Hcl Hcap Ha Hr Heq. destruct (derived_id g Hs) as [Hid Hne].
  unfold validateAdministratorGrant.
  assert (ag_Version (with_id g) = ag_Version g ∧ ag_CommandHash (with_id g) = ag_CommandHash g
    ∧ ag_GrantScopeID (with_id g) = ag_GrantScopeID g ∧ ag_Clause (with_id g) = ag_Clause g
    ∧ ag_Capability (with_id g) = ag_Capability g ∧ ag_ArgumentsHash (with_id g) = ag_ArgumentsHash g
    ∧ ag_ResourceKeys (with_id g) = ag_ResourceKeys g) as (-> & -> & -> & -> & -> & -> & ->) by (by destruct g).
  rewrite <-Hid, (bool_decide_false (ag_GrantID (with_id g) = "")) by done.
  rewrite Hv, Hc, Hs, Hcap, Ha, Hr.
  rewrite (bool_decide_true (administratorGrantVersion = _)), (bool_decide_true (ag_GrantID (with_id g) = _)),
    (bool_decide_true (capability = _)), (bool_decide_true (administratorArgumentsHash arguments = _)) by done.
  cbn [negb orb fail_if mbind result_bind]. rewrite Heq.
  cbn [negb fail_if mbind result_bind]. by apply list_elem_of_In in Hcl as [<-|[<-|[]]].
Qed.

(** What a call's target adds to its grant. *)
Definition grant_target (capability target targetArguments : string) (resources : list string) : string * string * list string :=
  if bool_decide (capability = "schedule_command") then (target, targetArguments, resources) else ("", "", []).

Lemma minted_from intent capability arguments g :
  administratorGrantForInvocation intent capability arguments = Ok (Some g) →
  ai_Explicit intent = true ∧ ai_Issues intent = [] ∧ validAdministratorCommandHash (ai_CommandHash intent) = true
  ∧ validAdministratorGrantScopeID (ai_GrantScopeID intent) = true
  ∧ ∃ normalized target targetArguments when at_ resources clause,
      normalizedArguments arguments = Ok normalized ∧ asks capability normalized target targetArguments when at_
      ∧ capabilityResourceKeys target targetArguments = Ok resources
      ∧ matchingAdministratorIntentGrant intent target when resources targetArguments at_ = Some clause
      ∧ let '(tc, ta, tr) := grant_target capability target targetArguments resources in
        g = mintAdministratorGrant (ai_GrantScopeID intent) (ai_CommandHash intent) (ig_Clause clause) capability normalized resources tc ta tr.
Proof.
  unfold administratorGrantForInvocation.
  destruct (ai_Explicit intent); [|done]. destruct (bool_decide (_ = administratorGrantVersion)); [|done].
  destruct (validAdministratorCommandHash (ai_CommandHash intent)); [|done]. cbn [negb orb].
  destruct (bool_decide (ai_Issues intent = [])) eqn:Eiss; [|done]. destruct (bool_decide (ai_Grants intent = [])); [done|].
  destruct (validAdministratorGrantScopeID (ai_GrantScopeID intent)); [|done]. cbn [negb orb].
  apply bool_decide_eq_true in Eiss. intros (normalized & En & Hg)%bind_ok. split_and!; [done..|]. exists normalized.
  unfold grant_target. destruct (decide (capability = "schedule_command")) as [->|Hcap].
  - rewrite (bool_decide_true ("schedule_command" = "schedule_command")) in Hg |- * by done.
    apply bind_ok in Hg as (sch & Es & Hg). apply bind_ok in Hg as ([] & Ez%fail_if_ok & Hg).
    apply bind_ok in Hg as (target & Et & Hg). apply bind_ok in Hg as (resources & Er & Hg).
    destruct (matchingAdministratorIntentGrant _ _ _ _ _ _) as [clause|] eqn:Ec; [|done]. injection Hg as <-.
    exists (sa_Capability sch), target, "scheduled", (sa_ExecuteAt sch), resources, clause. split_and!; try done.
    apply AsksLater; [done|unfold is_zero_time in Ez; lia|done].
  - rewrite bool_decide_false in Hg |- * by done. apply bind_ok in Hg as (resources & Er & Hg).
    destruct (matchingAdministratorIntentGrant _ _ _ _ _ _) as [clause|] eqn:Ec; [|done]. injection Hg as <-.
    exists capability, normalized, "immediate", zero_time, resources, clause. split_and!; try done. by apply AsksNow.
Qed.

Lemma asked_resources capability arguments m target targetArguments when at_ resources :
  normal arguments m → asks capability arguments target targetArguments when at_ →
  capabilityResourceKeys target targetArguments = Ok resources → capabilityResourceKeys capability arguments = Ok resources.
Proof.
  intros Hn Ha. revert Hn. destruct Ha as [|arguments sch target Es Hat Et]; intros Hn Hr; [done|].
  by rewrite (schedule_resources _ _ _ _ Hn Es Et).
Qed.

(** The check of the nested target. *)
Lemma asked_target g capability arguments target targetArguments when at_ resources :
  asks capability arguments target targetArguments when at_ → capabilityResourceKeys target targetArguments = Ok resources →
  (let '(tc, ta, tr) := grant_target capability target targetArguments resources in
   ag_TargetCapability g = tc ∧ ag_TargetArgumentsHash g = administratorArgumentsHash ta ∧ ag_TargetResourceKeys g = normalizeResourceKeys tr) →
  validate_target g capability arguments = Ok ().
Proof.
  unfold grant_target, validate_target. intros [capability' arguments' Hcap|arguments' sch target' Es _ Et] Hr.
  - rewrite (bool_decide_false (capability' = _)) by done. intros (-> & -> & ->). done.
  - rewrite (bool_decide_true ("schedule_command" = "schedule_command")) by done. intros (Hc & Ha & Hk).
    rewrite Es. cbn [mbind result_bind]. rewrite Et. cbn [mbind result_bind]. rewrite Hr. cbn [mbind result_bind].
    rewrite Hc, Ha, Hk, equal_normalized, !bool_decide_true by done. done.
Qed.

(** C31: the grant that is minted for a call, from a clause of an explicit intent without
    issues that asks for just this, is accepted for the call's normalised arguments, which
    normalise to themselves. *)
Theorem minted_grant_is_accepted intent capability arguments g :
  administratorGrantForInvocation intent capability arguments = Ok (Some g) →
  ∃ normalized, normalizedArguments arguments = Ok normalized ∧ normalizedArguments normalized = Ok normalized
  ∧ validateAdministratorGrant (Some g) capability normalized = Ok ()
  ∧ ∃ target targetArguments when at_,
      asks capability normalized target targetArguments when at_ ∧ told_to intent target targetArguments when at_.
Proof.
  intros (Hexp & Hiss & Hhash & Hscope & normalized & target & targetArguments & when & at_ & resources & clause & En & Hasks & Hr & Hclause & Hg)%minted_from.
  destruct (normalized_of _ _ En) as (m & Hn & _). apply matching_found in Hclause. exists normalized.
  split_and!; [done|by eapply normalize_normal| |].
  - pose proof (asked_target g capability normalized target targetArguments when at_ resources Hasks Hr) as Htarget.
    destruct (grant_target _ _ _ _) as [[tc ta] tr]. subst g. unfold mintAdministratorGrant in *.
    rewrite (validate_with_id _ capability normalized resources); try done.
    + by apply Htarget.
    + destruct Hclause as (_ & _ & Hwhen & _). cbn. rewrite Hwhen. destruct Hasks; listed.
    + by eapply asked_resources.
    + apply equal_normalized.
  - exists target, targetArguments, when, at_. split; [done|]. split_and!; [done..|].
    destruct Hclause as (Hin & Hcap & Hwhen & Hres & Hcons). apply constraints_match_allow in Hcons as (values & Hv & Hallows).
    exists clause, resources, values. split_and!; try done. by apply resources_match_within.
Qed.
End minted.

(** ** The identifier of a grant *)

Lemma to_valid_ascii l : Forall (λ b, (b < 0x80)%N) l → to_valid_bytes 0 l = l.
Proof.
  induction 1 as [|b l Hb _ IH]; [done|]. cbn [to_valid_bytes decode_rune]. settle.
  rewrite encode_rune_valid by lia. unfold encode_valid. settle. cbn. by rewrite IH.
Qed.

Lemma hash_valid value : validAdministratorCommandHash value = true → to_valid value = value.
Proof.
  unfold validAdministratorCommandHash. intros [_ Hh]%andb_true_iff. apply to_valid_fixed, to_valid_ascii.
  rewrite List.forallb_forall in Hh. apply List.Forall_forall. intros b Hb%Hh. apply bool_decide_eq_true in Hb as [d Hd].
  unfold hex_digit_of in Hd. repeat case_match; simplify_eq; bool_facts; N_facts; lia.
Qed.

Lemma sha_valid s : to_valid (sha256_hex s) = sha256_hex s.
Proof.
  apply to_valid_fixed, to_valid_ascii. eapply List.Forall_impl; [|apply sha256_hex_visible]. intros b. unfold visible. lia.
Qed.

Lemma argumentsHash_valid a : to_valid (administratorArgumentsHash a) = administratorArgumentsHash a.
Proof. unfold administratorArgumentsHash. case_bool_decide; [done|apply sha_valid]. Qed.

Lemma sha_nonempty s : sha256_hex s ≠ "".
Proof. intros H. apply (f_equal String.length) in H. by rewrite length_sha256_hex in H. Qed.

Lemma member_of_cons p m k : member_of (p :: m) k = if bool_decide (p.1 = k) then Some p.2 else member_of m k.
Proof.
  unfold member_of. cbn [list_find]. case_bool_decide as E.
  - by rewrite decide_True by done.
  - rewrite decide_False by done. by destruct (list_find _ m) as [[]|].
Qed.

Lemma member_of_put k v m k' :
  member_of m k = None → member_of (put_absent k v m) k' = if bool_decide (k = k') then Some v else member_of m k'.
Proof.
  induction m as [|[k2 v2] m IH]; cbn [put_absent]; [by rewrite member_of_cons|].
  rewrite (member_of_cons _ _ k). cbn [fst snd].
  destruct (decide (k2 = k)) as [E|E]; [by rewrite (bool_decide_true (k2 = k)) by done|]. rewrite (bool_decide_false (k2 = k)) by done. intros Hm.
  rewrite (bool_decide_false (k = k2)) by congruence. destruct (string_less k k2); [by rewrite member_of_cons|].
  rewrite !member_of_cons, IH by done. cbn [fst snd]. repeat case_bool_decide; congruence.
Qed.

Lemma member_of_none m k : member_of m k = None ↔ k ∉ m.*1.
Proof.
  induction m as [|[k' v] m IH]; [by split; [intros _ ?%elem_of_nil|]|]. rewrite member_of_cons. cbn [fmap list_fmap fst snd].
  rewrite elem_of_cons. case_bool_decide; [naive_solver|]. rewrite IH. naive_solver.
Qed.

Lemma member_of_kept m k : NoDup m.*1 → member_of (kept_members m) k = member_of m k.
Proof.
  revert k. induction m as [|[k' v] m IH]; intros k Hn; [done|]. cbn [fmap list_fmap fst] in Hn. apply NoDup_cons in Hn as [Hk Hn].
  change (kept_members ((k', v) :: m)) with (put_absent k' v (kept_members m)).
  rewrite member_of_put by (rewrite IH by done; by apply member_of_none). by rewrite IH, member_of_cons by done.
Qed.

Definition grant_message (g : AdministratorGrant) : string := grant_domain +:+ json_text (JObject (canonical_grant g)).

(** What the message says of a grant. *)
Definition said (g : AdministratorGrant) (k : string) : option json := member_of (cleaned_member <$> canonical_grant g) k.

Lemma canonical_said g g' k :
  ag_Version g = administratorGrantVersion → ag_Version g' = administratorGrantVersion →
  grant_message g = grant_message g' → said g k = said g' k.
Proof.
  intros Hv Hv' Hm. unfold grant_message in Hm. apply (f_equal bytes_of) in Hm. rewrite !(bytes_of_app grant_domain) in Hm.
  apply app_inv_head, (inj bytes_of) in Hm.
  assert (∀ g, ag_Version g = administratorGrantVersion → shaped max_depth (JObject (canonical_grant g))) as Hshaped.
  { intros x Hx. constructor; [done|]. unfold canonical_grant. rewrite Hx.
    repeat (constructor; [cbn [snd]; first [by constructor | constructor; [done|by apply Forall_fmap, Forall_true; constructor]]|]). constructor. }
  pose proof (json_parse_written _ (Hshaped g Hv)) as H1. rewrite Hm, (json_parse_written _ (Hshaped g' Hv')) in H1.
  apply (f_equal (λ v, match v with Some (JObject m) => member_of m k | _ => None end)) in H1. unfold said.
  rewrite <-(member_of_kept (cleaned_member <$> canonical_grant g)), <-(member_of_kept (cleaned_member <$> canonical_grant g')).
  - exact (eq_sym H1).
  - apply (bool_decide_unpack _). by vm_compute.
  - apply (bool_decide_unpack _). by vm_compute.
Qed.

Lemma same_identifier g g' :
  ag_Version g = administratorGrantVersion → ag_Version g' = administratorGrantVersion →
  validAdministratorGrantScopeID (ag_GrantScopeID g) = true → validAdministratorGrantScopeID (ag_GrantScopeID g') = true →
  deriveAdministratorGrantID (Some g) = deriveAdministratorGrantID (Some g') →
  (∀ k, said g k = said g' k) ∨ sha256_collision (grant_message g) (grant_message g').
Proof.
  intros Hv Hv' Hs Hs'. unfold deriveAdministratorGrantID. rewrite Hs, Hs'. cbn [negb]. intros E.
  apply (f_equal bytes_of) in E. rewrite !(bytes_of_app "ag1_") in E. apply app_inv_head, (inj bytes_of) in E.
  apply sha256_hex_inj_or_collision in E as [E|E]; [left|by right]. intros k. by apply canonical_said.
Qed.

Section validated.
Context `{FoldTable, DecodeCauses}.

(** What validation checks. *)
Lemma validated g capability arguments :
  validateAdministratorGrant (Some g) capability arguments = Ok () →
  ag_Version g = administratorGrantVersion ∧ validAdministratorCommandHash (ag_CommandHash g) = true
  ∧ validAdministratorGrantScopeID (ag_GrantScopeID g) = true ∧ ag_GrantID g = deriveAdministratorGrantID (Some g)
  ∧ ag_Clause g ∈ ["immediate"; "scheduled"] ∧ ag_Capability g = capability
  ∧ ag_ArgumentsHash g = administratorArgumentsHash arguments ∧ arguments ≠ ""
  ∧ (∃ resources, capabilityResourceKeys capability arguments = Ok resources ∧ equalResourceKeys (ag_ResourceKeys g) resources = true)
  ∧ validate_target g capability arguments = Ok ().
Proof.
  unfold validateAdministratorGrant.
  intros ([] & H1%fail_if_ok & Hg)%bind_ok. apply bind_ok in Hg as ([] & H2%fail_if_ok & Hg). apply bind_ok in Hg as ([] & H3%fail_if_ok & Hg).
  apply bind_ok in Hg as ([] & H4%fail_if_ok & Hg). apply bind_ok in Hg as (resources & Hr & Hg). apply bind_ok in Hg as ([] & H5%fail_if_ok & Hg).
  rewrite !orb_false_iff, !negb_false_iff, ?bool_decide_eq_true in *. apply andb_false_iff in H3. rewrite !negb_false_iff, !bool_decide_eq_true in H3.
  assert (arguments ≠ "") as Hne by (by intros ->).
  split_and!; try tauto; [|eauto]. destruct H3 as [->| ->]; listed.
Qed.

Lemma hash_arguments a b :
  a ≠ "" → b ≠ "" → administratorArgumentsHash a = administratorArgumentsHash b → a = b ∨ sha256_collision a b.
Proof. intros Ha Hb. unfold administratorArgumentsHash. rewrite !bool_decide_false by done. apply sha256_hex_inj_or_collision. Qed.

(** C30: the identifier of a grant names one call: two calls that grants of the same
    identifier are accepted for are the same capability with the same arguments, for the
    same command and scope, unless one of two pairs of texts is a collision of SHA-256. *)
Theorem grant_identifies_call g g' capability capability' arguments arguments' :
  validateAdministratorGrant (Some g) capability arguments = Ok () →
  validateAdministratorGrant (Some g') capability' arguments' = Ok () →
  valid_utf8 capability → valid_utf8 capability' → ag_GrantID g = ag_GrantID g' →
  (capability = capability' ∧ arguments = arguments' ∧ ag_GrantScopeID g = ag_GrantScopeID g' ∧ ag_CommandHash g = ag_CommandHash g')
  ∨ sha256_collision (grant_message g) (grant_message g') ∨ sha256_collision arguments arguments'.
Proof.
  intros (Hv & Hc & Hs & Hid & _ & <- & Ha & Hne & _)%validated (Hv' & Hc' & Hs' & Hid' & _ & <- & Ha' & Hne' & _)%validated Hu Hu' E.
  rewrite Hid, Hid' in E. apply same_identifier in E as [Hsaid|]; [|by right; left|done..].
  pose proof (Hsaid "capability") as H1. pose proof (Hsaid "arguments_hash") as H2. pose proof (Hsaid "grant_scope_id") as H3.
  pose proof (Hsaid "command_hash") as H4.
  change (Some (JString (to_valid (ag_Capability g))) = Some (JString (to_valid (ag_Capability g')))) in H1.
  change (Some (JString (to_valid (ag_ArgumentsHash g))) = Some (JString (to_valid (ag_ArgumentsHash g')))) in H2.
  change (Some (JString (to_valid (ag_GrantScopeID g))) = Some (JString (to_valid (ag_GrantScopeID g')))) in H3.
  change (Some (JString (to_valid (ag_CommandHash g))) = Some (JString (to_valid (ag_CommandHash g')))) in H4.
  rewrite !to_valid_fixed in H1 by done. rewrite Ha, Ha', !argumentsHash_valid in H2. rewrite !hash_valid in H3, H4 by done.
  assert (administratorArgumentsHash arguments = administratorArgumentsHash arguments') as E by congruence.
  apply hash_arguments in E as [|]; [left|by right; right|done..]. split_and!; congruence.
Qed.

Lemma target_grant_fields outer capability arguments resources :
  ag_Version (with_id (target_grant outer capability arguments resources)) = ag_Version outer
  ∧ ag_Clause (with_id (target_grant outer capability arguments resources)) = "scheduled"
  ∧ ag_GrantScopeID (with_id (target_grant outer capability arguments resources)) = ag_GrantScopeID outer
  ∧ ag_CommandHash (with_id (target_grant outer capability arguments resources)) = ag_CommandHash outer.
Proof. done. Qed.

(** The grant of a schedule carries on to its target: for the target of the schedule it
    is accepted for there is a grant of the same command and scope that is accepted for the
    target's call, and it is another grant, unless their messages are a collision. *)
Theorem schedule_grant_reaches_target outer arguments schedule target :
  validateAdministratorGrant (Some outer) "schedule_command" arguments = Ok () →
  decode_schedule arguments = Ok schedule → normalizedArguments (sa_Arguments schedule) = Ok target →
  sa_Capability schedule ≠ "schedule_command" →
  ∃ resources, let inner := with_id (target_grant outer (sa_Capability schedule) target resources) in
  capabilityResourceKeys (sa_Capability schedule) target = Ok resources
  ∧ validateAdministratorGrant (Some inner) (sa_Capability schedule) target = Ok ()
  ∧ (scheduledTargetAdministratorGrant (Some outer) (sa_Capability schedule) target = Ok (Some inner) ∧ ag_GrantID inner ≠ ag_GrantID outer
     ∨ sha256_collision (grant_message inner) (grant_message outer)).
Proof.
  intros (Hv & Hc & Hs & Hid & _ & Hcap & _ & _ & _ & Ht)%validated Es Et Hne. unfold validate_target in Ht.
  rewrite (bool_decide_true ("schedule_command" = "schedule_command")) in Ht by done. rewrite Es in Ht. cbn [mbind result_bind] in Ht.
  rewrite Et in Ht. cbn [mbind result_bind] in Ht. apply bind_ok in Ht as (resources & Hr & Ht%fail_if_ok).
  rewrite !orb_false_iff, !negb_false_iff, !bool_decide_eq_true in Ht. destruct Ht as [[Htc Hta] Htk].
  exists resources. set (inner := target_grant outer (sa_Capability schedule) target resources). cbv zeta.
  destruct (target_grant_fields outer (sa_Capability schedule) target resources) as (Fv & Fl & Fs & Fc). fold inner in Fv, Fl, Fs, Fc.
  assert (equalResourceKeys resources (ag_TargetResourceKeys outer) = true) as Hk.
  { unfold equalResourceKeys in *. apply bool_decide_eq_true in Htk. by apply bool_decide_true. }
  destruct (derived_id inner Hs) as [Hiid _]. split_and!; [done| |].
  - rewrite (validate_with_id inner (sa_Capability schedule) target resources); try done.
    + unfold validate_target. by rewrite (bool_decide_false (sa_Capability schedule = _)) by done.
    + listed.
    + unfold equalResourceKeys. by apply bool_decide_true.
  - unfold scheduledTargetAdministratorGrant. rewrite Hcap, Htc. rewrite (bool_decide_true ("schedule_command" = _)) by done.
    rewrite (bool_decide_true (sa_Capability schedule = _)) by done. cbn [negb orb fail_if mbind result_bind]. rewrite Hr. cbn [mbind result_bind].
    fold inner. change (ag_ArgumentsHash inner) with (administratorArgumentsHash target). rewrite <-Hta, (bool_decide_true (_ = ag_TargetArgumentsHash outer)) by done.
    change (ag_ResourceKeys inner) with resources. rewrite Hk. cbn [negb orb fail_if mbind result_bind].
    destruct (decide (ag_GrantID (with_id inner) = ag_GrantID outer)) as [E|E].
    + right. rewrite Hid, Hiid in E. apply same_identifier in E as [Hsaid|]; [|done..]. exfalso.
      pose proof (Hsaid "target_arguments_hash") as H1.
      change (Some (JString (to_valid "")) = Some (JString (to_valid (ag_TargetArgumentsHash outer)))) in H1.
      rewrite Hta, argumentsHash_valid in H1. unfold administratorArgumentsHash in H1.
      destruct (normalized_of _ _ Et) as (m & [_ Htext] & _).
      rewrite (bool_decide_false (target = "")) in H1 by (rewrite Htext; by destruct m).
      injection H1 as H1. by destruct (sha_nonempty target).
    + left. rewrite (bool_decide_false (_ = ag_GrantID outer)) by done. done.
Qed.

(** The schema of the capability that schedules a command requires the member
    [missed_policy], but no call that has it is granted, and no grant is accepted for it:
    the arguments are decoded into a structure without that field. *)
Theorem schedule_with_missed_policy_refused intent arguments normalized m policy :
  normalizedArguments arguments = Ok normalized → decode_map normalized = Some m → member_of m "missed_policy" = Some policy →
  ∀ g, administratorGrantForInvocation intent "schedule_command" arguments ≠ Ok (Some g)
     ∧ validateAdministratorGrant (Some g) "schedule_command" normalized ≠ Ok ().
Proof.
  intros En Hm Hp g. destruct (normalized_of _ _ En) as (m' & Hn & _). rewrite (normal_map _ _ Hn) in Hm. injection Hm as ->.
  assert (∀ sch, decode_schedule normalized ≠ Ok sch) as Hno.
  { intros sch Hs. destruct (decode_schedule_normal _ _ _ Hn Hs) as [Hk _]. apply member_of_elem, Hk in Hp as [f Hf].
    assert (field_named schedule_fields "missed_policy" = None) by done. congruence. }
  split.
  - intros (_ & _ & _ & _ & text & target & ta & when & at_ & resources & clause & En' & Ha & _)%minted_from.
    rewrite En in En'. injection En' as <-. inversion Ha as [|? sch target' Es]; subst; [done|by destruct (Hno sch)].
  - intros (_ & _ & _ & _ & _ & _ & _ & _ & _ & Ht)%validated. unfold validate_target in Ht.
    rewrite (bool_decide_true ("schedule_command" = "schedule_command")) in Ht by done. apply bind_ok in Ht as (sch & Es & _).
    by destruct (Hno sch).
Qed.
End validated.

(** ** The concrete calls *)

Definition no_grant : AdministratorGrant := mkAdministratorGrant 0 "" "" "" "" "" "" [] "" "" [].
Definition grant_of (capability arguments : string) : AdministratorGrant :=
  default no_grant (the_grant (administratorGrantForInvocation told capability arguments)).
Definition text_of (arguments : string) : string := match normalizedArguments arguments with Ok text => text | Err _ => "" end.

Lemma minted_grant_is_accepted_witness :
  administratorGrantForInvocation told "schedule_command" schedule_pause = Ok (Some (grant_of "schedule_command" schedule_pause))
  ∧ ∃ normalized, normalizedArguments schedule_pause = Ok normalized ∧ normalizedArguments normalized = Ok normalized
    ∧ validateAdministratorGrant (Some (grant_of "schedule_command" schedule_pause)) "schedule_command" normalized = Ok ()
    ∧ ∃ target targetArguments when at_,
        asks "schedule_command" normalized target targetArguments when at_ ∧ told_to told target targetArguments when at_.
Proof.
  assert (administratorGrantForInvocation told "schedule_command" schedule_pause = Ok (Some (grant_of "schedule_command" schedule_pause))) as H
    by (vm_compute; reflexivity).
  split; [exact H|]. exact (minted_grant_is_accepted told "schedule_command" schedule_pause _ H).
Defined.

Definition set_load_again : string := quotes "{'account_id':7,'load_factor':40,'reason':'busy'}".

Lemma grant_identifies_call_witness :
  text_of set_load = text_of set_load_again
  ∨ sha256_collision (grant_message (grant_of "set_load_factor" set_load)) (grant_message (grant_of "set_load_factor" set_load_again))
  ∨ sha256_collision (text_of set_load) (text_of set_load_again).
Proof.
  assert (validateAdministratorGrant (Some (grant_of "set_load_factor" set_load)) "set_load_factor" (text_of set_load) = Ok ()) as H1
    by (vm_compute; reflexivity).
  assert (validateAdministratorGrant (Some (grant_of "set_load_factor" set_load_again)) "set_load_factor" (text_of set_load_again) = Ok ()) as H2
    by (vm_compute; reflexivity).
  assert (ag_GrantID (grant_of "set_load_factor" set_load) = ag_GrantID (grant_of "set_load_factor" set_load_again)) as H3
    by (vm_compute; reflexivity).
  assert (valid_utf8 "set_load_factor") as H4 by (vm_compute; reflexivity).
  destruct (grant_identifies_call _ _ _ _ _ _ H1 H2 H4 H4 H3) as [(_ & H & _)|H]; [by left|by right].
Defined.

Definition the_schedule : administratorScheduleArguments :=
  match decode_schedule (text_of schedule_pause) with Ok sch => sch | Err _ => no_schedule end.

Lemma schedule_grant_reaches_target_witness :
  sa_Capability the_schedule = "pause_account" ∧ sa_Arguments the_schedule = quotes "{'account_id':7,'reason':'night'}"
  ∧ ∃ resources, capabilityResourceKeys "pause_account" (sa_Arguments the_schedule) = Ok resources
    ∧ validateAdministratorGrant
        (Some (with_id (target_grant (grant_of "schedule_command" schedule_pause) "pause_account" (sa_Arguments the_schedule) resources)))
        "pause_account" (sa_Arguments the_schedule) = Ok ().
Proof.
  assert (validateAdministratorGrant (Some (grant_of "schedule_command" schedule_pause)) "schedule_command" (text_of schedule_pause) = Ok ()) as H1
    by (vm_compute; reflexivity).
  assert (decode_schedule (text_of schedule_pause) = Ok the_schedule) as H2 by (vm_compute; reflexivity).
  assert (normalizedArguments (sa_Arguments the_schedule) = Ok (sa_Arguments the_schedule)) as H3 by (vm_compute; reflexivity).
  assert (sa_Capability the_schedule = "pause_account") as H4 by (vm_compute; reflexivity).
  assert (sa_Capability the_schedule ≠ "schedule_command") as H5 by (rewrite H4; discriminate).
  split; [exact H4|]. split; [vm_compute; reflexivity|]. rewrite <-H4.
  destruct (schedule_grant_reaches_target _ _ _ _ H1 H2 H3 H5) as (resources & Hr & Hv & _).
  exists resources. exact (conj Hr Hv).
Defined.

Lemma schedule_with_missed_policy_refused_witness :
  (λ m, member_of m "missed_policy") <$> decode_map (text_of schedule_pause_missed) = Some (Some (JString "skip"))
  ∧ ∀ g, administratorGrantForInvocation told "schedule_command" schedule_pause_missed ≠ Ok (Some g).
Proof.
  assert (normalizedArguments schedule_pause_missed = Ok (text_of schedule_pause_missed)) as H1 by (vm_compute; reflexivity).
  assert (decode_map (text_of schedule_pause_missed) = Some (default [] (decode_map (text_of schedule_pause_missed)))) as H2
    by (vm_compute; reflexivity).
  assert (member_of (default [] (decode_map (text_of schedule_pause_missed))) "missed_policy" = Some (JString "skip")) as H3
    by (vm_compute; reflexivity).
  split; [vm_compute; reflexivity|]. intros g. exact (proj1 (schedule_with_missed_policy_refused told _ _ _ _ H1 H2 H3 g)).
Defined.
