(* ===== verification/AgentGate.v ===== *)
(** * The gate before a capability

    [internal/agent/capabilities.go], the registry of what the model may call with the
    policy of each capability; [ExecuteCapability] of [capability_executor.go], the checks,
    the barrier, the freeze and the consumption of a grant before a capability's body runs
    (the bodies, and what they read for the audit, are requests); and
    [Store.ConsumeAdministratorGrant] of [store/agent_v2.go]. The descriptions and the JSON
    schemas that the registry shows to the model are left out. *)

From S2P Require Import Prelude GoStd Sha256 TimeText JsonText Json Requests Intent Model ModelFailover AccountTypes Sql AgentGrants.

Definition AgentRiskReadOnly : string := "read_only".
Definition AgentRiskLow : string := "low".
Definition AgentRiskMedium : string := "medium".
Definition AgentRiskHigh : string := "high".
Definition AgentRiskCritical : string := "critical".

Record ExecutionPolicy := mkExecutionPolicy {
  ep_Risk : string;
  ep_ReadOnly : bool;
  ep_SupportsAutonomous : bool;
  ep_RequiresExactGrant : bool;
  ep_RequiresConfirmation : bool;
  ep_RequiresFreshSnapshot : bool;
  ep_RequiresEvidence : bool;
  ep_SupportsScheduling : bool;
  ep_MaxScope : Z;
  ep_DefaultTTLSeconds : Z;
  ep_MaxTTLSeconds : Z;
}.

Record CapabilitySpec := mkCapabilitySpec {
  cs_Name : string;
  cs_RiskLevel : string;
  cs_Mutating : bool;
  cs_AdministratorDirect : bool;
  cs_Scopes : list string;
  cs_AutoExecutable : bool;
  cs_ApprovalRequired : bool;
  cs_SupportsSchedule : bool;
  cs_SupportsCompensation : bool;
  cs_ExecutionPolicy : ExecutionPolicy;
}.

Definition with_ttl (policy : ExecutionPolicy) : ExecutionPolicy :=
  policy <| ep_DefaultTTLSeconds := (15 * minute / second)%Z |> <| ep_MaxTTLSeconds := (2 * hour / second)%Z |>.

Definition executionPolicyFor (name : string) (mutating administratorDirect : bool) : ExecutionPolicy :=
  if negb mutating then mkExecutionPolicy "read_only" true true false false false false false 100 0 0 else
  let policy := mkExecutionPolicy AgentRiskHigh false false administratorDirect false true false true 1 0 0 in
  if bool_decide (name ∈ ["pause_account"; "resume_account"; "set_load_factor"; "pin_load_until"])
  then with_ttl (policy <| ep_SupportsAutonomous := true |> <| ep_RequiresEvidence := true |>)
  else if bool_decide (name ∈ ["manual_hold_account"; "clear_manual_override"; "clear_load_pin"])
  then policy <| ep_Risk := AgentRiskCritical |> <| ep_RequiresConfirmation := true |>
  else if bool_decide (name ∈ ["propose_dispatch_policy"; "update_dispatch_policy"])
  then policy <| ep_Risk := AgentRiskMedium |> <| ep_SupportsAutonomous := true |> <| ep_RequiresEvidence := true |>
              <| ep_RequiresExactGrant := false |> <| ep_SupportsScheduling := false |> <| ep_MaxScope := 100%Z |>
  else if bool_decide (name = "activate_policy_version")
  then policy <| ep_Risk := AgentRiskCritical |> <| ep_SupportsAutonomous := false |> <| ep_RequiresConfirmation := true |>
              <| ep_SupportsScheduling := false |>
  else if bool_decide (name = "transition_token_group_tier")
  then with_ttl (policy <| ep_Risk := AgentRiskCritical |> <| ep_SupportsAutonomous := false |> <| ep_RequiresEvidence := true |>
              <| ep_RequiresConfirmation := true |>)
  else if bool_decide (name = "schedule_command")
  then policy <| ep_Risk := AgentRiskCritical |> <| ep_RequiresConfirmation := true |> <| ep_SupportsScheduling := false |>
  else if bool_decide (name = "trigger_reconcile")
  then policy <| ep_Risk := AgentRiskLow |> <| ep_SupportsAutonomous := true |> <| ep_RequiresFreshSnapshot := false |>
  else if bool_decide (name = "refresh_upstream")
  then policy <| ep_Risk := AgentRiskMedium |> <| ep_SupportsAutonomous := true |>
  else policy.

Definition registerCapability (name : string) (mutating administratorDirect : bool) : CapabilitySpec :=
  let policy := executionPolicyFor name mutating administratorDirect in
  mkCapabilitySpec name (ep_Risk policy) mutating administratorDirect ["scheduler"; if mutating then "write" else "read"]
    (ep_ReadOnly policy || (ep_SupportsAutonomous policy && negb (ep_RequiresConfirmation policy)))
    (ep_RequiresConfirmation policy) (ep_SupportsScheduling policy) mutating policy.

(** [init]: the names, whether they write, whether an administrator may direct them. *)
Definition registered : list (string * bool * bool) :=
  ((λ name, (name, false, false)) <$>
     ["get_system_snapshot"; "get_account_evidence"; "get_pool_evidence"; "get_upstream_state"; "get_audit_events";
      "get_policy_history"; "get_action_outcomes"; "list_goals"; "list_scheduled_commands"; "search_memory"])
  ++ ((λ name, (name, true, true)) <$>
     ["pause_account"; "resume_account"; "manual_hold_account"; "set_load_factor"; "pin_load_until"; "clear_load_pin";
      "clear_flap_protection"; "clear_manual_override"; "update_binding"; "update_upstream_control"; "refresh_upstream";
      "transition_token_group_tier"; "propose_dispatch_policy"; "update_dispatch_policy"; "activate_policy_version";
      "trigger_reconcile"; "schedule_command"; "cancel_scheduled_command"]).

Definition capabilityRegistry : list CapabilitySpec :=
  (λ c, let '(name, mutating, direct) := c in registerCapability name mutating direct) <$> registered.

Definition capabilitySpec (name : string) : option CapabilitySpec := snd <$> list_find (λ spec, cs_Name spec = name) capabilityRegistry.

(** ** An invocation *)

Record CapabilityInvocation := mkInvocation {
  iv_Name : string;
  iv_Arguments : string;
  iv_RunID : Z;
  iv_GoalID : Z;
  iv_StepID : Z;
  iv_PacketID : Z;
  iv_PacketHash : string;
  iv_Actor : string;
  iv_IdempotencyKey : string;
  iv_AdministratorGrant : option AdministratorGrant;
  iv_DryRun : bool;
  iv_CreatedAt : time;
  iv_ExpiresAt : option time;
  iv_SnapshotVersion : string;
  iv_EvidenceRefs : list string;
}.

Record CapabilityExecution := mkExecution {
  ce_Capability : string;
  ce_Status : string;
  ce_DryRun : bool;
  ce_BeforeState : string;
  ce_AfterState : string;
  ce_Output : string;
  ce_Retryable : bool;
  ce_Message : string;
}.
Definition no_execution : CapabilityExecution := mkExecution "" "" false "" "" "" false "".

(** The TTL among the arguments: [result] is what an earlier member says. *)
Definition argument_expiry (members : list (string * json)) (key : string) (previous : option time) : result error (option time) :=
  match member_of members key with
  | None | Some JNull => Ok previous
  | Some v =>
      match decode_time v zero_time with
      | Some value =>
          if is_zero_time value then Err (NewError ("能力参数 " +:+ key +:+ " 不是有效时间")) else
          match previous with
          | Some before => if bool_decide (before = value) then Ok (Some value) else Err (NewError "能力参数包含冲突的 TTL")
          | None => Ok (Some value)
          end
      | None => Err (NewError ("能力参数 " +:+ key +:+ " 不是有效时间"))
      end
  end.

(** A JSON number as a decimal: its digits and the exponent of ten. *)
Definition number_parts (literal : string) : option (bool * Z * Z) :=
  let l := bytes_of literal in
  let '(negative, l) := match l with b :: t => if (b =? 0x2D)%N then (true, t) else (false, l) | [] => (false, l) end in
  '(i, l) ← read_integer_part l; '(f, l) ← read_fraction_part l; '(e, l) ← read_exponent_part l;
  let value := foldl (λ acc b, acc * 10 + Z.of_N (b - 0x30))%Z 0%Z in
  let exponent := match e with
                  | _ :: s :: ds => if is_sign s then (if (s =? 0x2D)%N then - value ds else value ds)%Z else value (s :: ds)
                  | _ => 0%Z
                  end in
  Some (negative, value (i ++ tail f), (exponent - Z.of_nat (length (tail f)))%Z).

(** [ParseFloat] refuses what rounds beyond the largest double: half a unit above it. *)
Definition float_overflows (literal : string) : bool :=
  match number_parts literal with
  | Some (_, m, e) => ((2 ^ 1024 - 2 ^ 970) * 10 ^ Z.max (- e) 0 <=? m * 10 ^ Z.max e 0)%Z
  | None => true
  end.

(** The double is positive zero, which prints as 0. *)
Definition float_zero (literal : string) : bool :=
  match number_parts literal with
  | Some (negative, m, e) => negb negative && (m * 10 ^ Z.max e 0 * 2 ^ 1075 <=? 10 ^ Z.max (- e) 0)%Z
  | None => false
  end.

Fixpoint all_doubles (v : json) : bool :=
  match v with
  | JNumber literal => negb (float_overflows literal)
  | JArray items => forallb all_doubles items
  | JObject members => forallb (λ m, all_doubles m.2) members
  | _ => true
  end.

(** [fmt.Sprint(value)] is neither empty nor 0, for a value that is not nil. *)
Definition names_resource (v : json) : bool :=
  match v with
  | JNull => false
  | JString s => negb (bool_decide (s = "")) && negb (bool_decide (s = "0"))
  | JNumber literal => negb (float_zero literal)
  | _ => true
  end.

Section gate.
Context `{UnicodeTables, FoldTable, DecodeCauses}.

(** Of normalised arguments, here and below. *)
Definition capabilityArgumentExpiry (arguments : string) : result error (option time) :=
  if bool_decide (arguments = "") then Ok None else
  match decode_map arguments with
  | None => Err (Errorf "能力参数无效" (External (decode_cause arguments)))
  | Some members => previous ← argument_expiry members "expires_at" None; argument_expiry members "until" previous
  end.

Definition capabilityInvocationScopeCount (name arguments : string) : result error Z :=
  match decode_map arguments with
  | Some members =>
      if negb (all_doubles (JObject members)) then Err (Errorf "能力参数无效" (External (decode_cause arguments))) else
      if existsb (λ key, default false (names_resource <$> member_of members key))
           ["account_id"; "source_id"; "policy_id"; "command_id"; "scope_id"] then Ok 1%Z else
      Ok (if bool_decide (name = "trigger_reconcile") || bool_decide (name = "schedule_command") then 1 else 0)%Z
  | None => Err (Errorf "能力参数无效" (External (decode_cause arguments)))
  end.

Definition applyExecutionPolicyDefaults (invocation : CapabilityInvocation) (spec : CapabilitySpec) : result error CapabilityInvocation :=
  if negb (cs_Mutating spec) then Ok invocation else
  argumentExpiry ← capabilityArgumentExpiry (iv_Arguments invocation);
  invocation ← match argumentExpiry with
               | None => Ok invocation
               | Some expiry =>
                   match iv_ExpiresAt invocation with
                   | Some granted => if bool_decide (granted = expiry) then Ok (invocation <| iv_ExpiresAt := Some expiry |>)
                                     else Err (NewError "能力参数 TTL 与目标授权 TTL 不一致")
                   | None => Ok (invocation <| iv_ExpiresAt := Some expiry |>)
                   end
               end;
  if bool_decide (is_Some (iv_ExpiresAt invocation)) || (ep_DefaultTTLSeconds (cs_ExecutionPolicy spec) <=? 0)%Z then Ok invocation else
  if is_zero_time (iv_CreatedAt invocation) then Err (NewError "写能力缺少创建时间，无法应用默认 TTL") else
  Ok (invocation <| iv_ExpiresAt := Some (iv_CreatedAt invocation + ep_DefaultTTLSeconds (cs_ExecutionPolicy spec) * second)%Z |>).

(** The grant, if there is one, and the actor it makes. *)
Definition check_grant (invocation : CapabilityInvocation) (spec : CapabilitySpec) : result error CapabilityInvocation :=
  match iv_AdministratorGrant invocation with
  | Some grant =>
      if negb (cs_AdministratorDirect spec) then Err (NewError "该能力不接受管理员直达授权") else
      match validateAdministratorGrant (Some grant) (iv_Name invocation) (iv_Arguments invocation) with
      | Err err => Err (Errorf "管理员精确授权无效" err)
      | Ok _ => Ok (invocation <| iv_Actor := "administrator:agent" |>)
      end
  | None => Ok (if bool_decide (iv_Actor invocation = "administrator:agent") then invocation <| iv_Actor := "agent:v2" |> else invocation)
  end.

Definition check_autonomy (invocation : CapabilityInvocation) (spec : CapabilitySpec) : result error unit :=
  if cs_Mutating spec && bool_decide (iv_AdministratorGrant invocation = None) then
    _ ← fail_if (ep_RequiresConfirmation (cs_ExecutionPolicy spec)) (NewError "该写能力需要载荷精确绑定的管理员确认");
    fail_if (negb (ep_SupportsAutonomous (cs_ExecutionPolicy spec))) (NewError "该写能力不支持自主执行")
  else Ok ().

Definition check_scope (invocation : CapabilityInvocation) (policy : ExecutionPolicy) : result error unit :=
  if (0 <? ep_MaxScope policy)%Z then
    count ← capabilityInvocationScopeCount (iv_Name invocation) (iv_Arguments invocation);
    fail_if (ep_MaxScope policy <? count)%Z (NewError ("写能力作用域超过上限 " +:+ format_int (ep_MaxScope policy)))
  else Ok ().

Definition check_ttl (invocation : CapabilityInvocation) (policy : ExecutionPolicy) : result error unit :=
  if (0 <? ep_MaxTTLSeconds policy)%Z then
    match iv_ExpiresAt invocation with
    | None => Err (NewError "写能力缺少 TTL")
    | Some expiresAt =>
        _ ← fail_if (is_zero_time (iv_CreatedAt invocation)) (NewError "写能力缺少创建时间");
        let ttl := sub_time expiresAt (iv_CreatedAt invocation) in
        fail_if ((ttl <=? 0)%Z || (ep_MaxTTLSeconds policy * second <? ttl)%Z) (NewError "写能力 TTL 超出执行策略")
    end
  else Ok ().

Definition check_policy (invocation : CapabilityInvocation) (spec : CapabilitySpec) : result error unit :=
  let policy := cs_ExecutionPolicy spec in
  if negb (cs_Mutating spec) then Ok () else
  _ ← fail_if (ep_RequiresEvidence policy && bool_decide (iv_EvidenceRefs invocation = [])) (NewError "写能力缺少 EvidenceRefs");
  _ ← fail_if (ep_RequiresFreshSnapshot policy && bool_decide (trim_space (iv_SnapshotVersion invocation) = "")) (NewError "写能力缺少 SnapshotVersion");
  _ ← check_scope invocation policy;
  check_ttl invocation policy.

(** The checks before anything is waited for or read. *)
Definition let_through (invocation : CapabilityInvocation) (spec : CapabilitySpec) : result error CapabilityInvocation :=
  invocation ← check_grant invocation spec;
  invocation ← applyExecutionPolicyDefaults invocation spec;
  _ ← check_autonomy invocation spec;
  _ ← check_policy invocation spec;
  Ok invocation.
End gate.

(** ** Execution *)

(** What a capability's execution asks of the store, the engine and the body. *)
Inductive GateCall : Type → Type :=
  | RecordAgentObservation (proposed executable violations structureErrors : Z) : GateCall unit
  | EnterMutation : GateCall (result error unit)                    (* [AutomationBarrier().EnterMutation] *)
  | ReleaseMutation : GateCall unit
  | EngineFreezeState : GateCall (result error FreezeState)
  | ConsumeGrant (grantID : string) (goalID stepID : Z) (capability argumentsHash : string) : GateCall (result error bool)
  | GateNow : GateCall time
  | CapabilityState (invocation : CapabilityInvocation) : GateCall string   (* [capabilityState] *)
  | CapabilityBody (context : option CommandContext) (invocation : CapabilityInvocation)
      : GateCall (string * bool * option error)                     (* [executeCapabilityBody] *)
  | CapabilityFailed (invocation : CapabilityInvocation) (message : string) : GateCall unit.

Abbreviation prog := (Requests.prog GateCall).
Abbreviation outcome := (CapabilityExecution * option error)%type.
Definition failed (err : error) : outcome := (no_execution, Some err).

(** [withAccountControlContext] *)
Definition account_context (invocation : CapabilityInvocation) (createdAt : time) : CommandContext :=
  let grantID := (λ grant, trim_space (ag_GrantID grant)) <$> iv_AdministratorGrant invocation in
  mkCommandContext (default (trim_space (iv_IdempotencyKey invocation)) grantID) createdAt (iv_ExpiresAt invocation)
    (trim_space (iv_SnapshotVersion invocation)) (iv_EvidenceRefs invocation) ""
    (bool_decide (is_Some (iv_AdministratorGrant invocation))) (default "" grantID)
    (iv_RunID invocation) (iv_GoalID invocation) (iv_StepID invocation) true.

Definition withAccountControlContext (invocation : CapabilityInvocation) : prog CommandContext :=
  if is_zero_time (iv_CreatedAt invocation)
  then now ← call GateNow; mret (account_context invocation now)
  else mret (account_context invocation (iv_CreatedAt invocation)).

Section execution.
Context `{UnicodeTables, FoldTable, DecodeCauses}.

Definition check_freeze (spec : CapabilitySpec) : prog (option error) :=
  if negb (cs_Mutating spec) then mret None else
  try freeze ← call EngineFreezeState catch err => mret (Some (Errorf "无法确认自动化冻结状态" err));
  mret (if fs_AllAutomation freeze then Some (NewError "全部自动化已被冻结") else
        if fs_Agent freeze then Some (NewError "智能体已被冻结") else None).

Definition consume_grant (invocation : CapabilityInvocation) (spec : CapabilitySpec) : prog (option error) :=
  match iv_AdministratorGrant invocation with
  | Some grant =>
      if negb (cs_Mutating spec) || iv_DryRun invocation then mret None else
      if (iv_GoalID invocation <=? 0)%Z || (iv_StepID invocation <=? 0)%Z
      then mret (Some (NewError "管理员精确授权缺少持久目标或步骤编号，已拒绝执行")) else
      try _ ← call (ConsumeGrant (ag_GrantID grant) (iv_GoalID invocation) (iv_StepID invocation) (iv_Name invocation)
        (administratorArgumentsHash (iv_Arguments invocation))) catch err => mret (Some (Errorf "管理员精确授权已失效或已被其他步骤消费" err));
      mret None
  | None => mret None
  end.

Definition observed (invocation : CapabilityInvocation) (spec : CapabilitySpec) (executable : Z) : prog unit :=
  if iv_DryRun invocation && cs_Mutating spec then call (RecordAgentObservation 1 executable 0 0) else mret ().

(** The body between what is read before and after it. *)
Definition run_body (context : option CommandContext) (invocation : CapabilityInvocation) (spec : CapabilitySpec) : prog outcome :=
  before ← call (CapabilityState invocation);
  ran ← call (CapabilityBody context invocation);
  let '(output, retryable, err) := ran in
  after ← call (CapabilityState invocation);
  let execution := mkExecution (iv_Name invocation) "" (iv_DryRun invocation) before after output retryable "" in
  match err with
  | Some err =>
      observed invocation spec 0;;
      call (CapabilityFailed invocation (iv_Name invocation +:+ " 执行失败: " +:+ error_text err));;
      mret (execution <| ce_Status := "failed" |> <| ce_Message := error_text err |>, Some err)
  | None =>
      observed invocation spec 1;;
      mret (if iv_DryRun invocation && cs_Mutating spec
            then execution <| ce_Status := "proposed" |> <| ce_Message := "观察模式：前置检查通过，未执行写入" |>
            else execution <| ce_Status := "completed" |> <| ce_Message := "已执行并回读确认" |>, None)
  end.

(** What runs inside the barrier. *)
Definition run_admitted (invocation : CapabilityInvocation) (spec : CapabilitySpec) : prog outcome :=
  frozen ← check_freeze spec;
  match frozen with
  | Some err => mret (failed err)
  | None =>
      consumed ← consume_grant invocation spec;
      match consumed with
      | Some err => mret (failed err)
      | None =>
          if cs_Mutating spec then context ← withAccountControlContext invocation; run_body (Some context) invocation spec
          else run_body None invocation spec
      end
  end.

Definition named (invocation : CapabilityInvocation) : CapabilityInvocation :=
  let actor := trim_space (iv_Actor invocation) in
  invocation <| iv_Name := trim_space (iv_Name invocation) |> <| iv_Actor := if bool_decide (actor = "") then "agent" else actor |>.

Definition ExecuteCapability (invocation : CapabilityInvocation) : prog outcome :=
  let invocation := named invocation in
  match capabilitySpec (iv_Name invocation) with
  | None => mret (failed (NewError ("未授权能力 " +:+ iv_Name invocation)))
  | Some spec =>
      match normalizedArguments (iv_Arguments invocation) with
      | Err err => observed invocation spec 0;; mret (failed err)
      | Ok arguments =>
          match let_through (invocation <| iv_Arguments := arguments |>) spec with
          | Err err => mret (failed err)
          | Ok invocation =>
              if cs_Mutating spec && negb (iv_DryRun invocation) then
                try _ ← call EnterMutation catch err => mret (failed (Errorf "等待智能体 mutation 冻结屏障" err));
                answer ← run_admitted invocation spec;
                call ReleaseMutation;;
                mret answer
              else run_admitted invocation spec
          end
      end
  end.
End execution.

(** ** The consumption of grants in the store *)

Definition consumptionColumns : list string := ["grant_id"; "goal_id"; "step_id"; "capability"; "arguments_hash"; "consumed_at"].

Inductive consume_error :=
  | InvalidGrantID
  | InvalidIdentity
  | InvalidArgumentsHash
  | AlreadyConsumed (grantID : string)        (* [ErrAdministratorGrantAlreadyConsumed] *)
  | ConsumeSQL (e : sql_error).

Definition hex_text (value : string) : bool := forallb (λ b, bool_decide (is_Some (hex_digit_of b))) (bytes_of value).

Definition scan_consumption : list sqlval → result sql_error (Z * Z * string * string) :=
  scan (goal ← int_cell; step ← int_cell; capability ← text_cell; hash ← text_cell; mret (goal, step, capability, hash)).

(** The table [agent_administrator_grant_consumptions], whose key is the grant. [now]: the
    clock. The reply is whether the row is new. *)
Definition ConsumeAdministratorGrant (now : time) (grantID : string) (goalID stepID : Z) (capability argumentsHash : string)
    (t : table) : result consume_error bool * table :=
  let grantID := trim_space grantID in
  let capability := trim_space capability in
  let argumentsHash := trim_space argumentsHash in
  if negb (String.length grantID =? 4 + 64)%nat || negb (String.prefix "ag1_" grantID) || negb (hex_text (trim_prefix grantID "ag1_"))
  then (Err InvalidGrantID, t) else
  if (goalID <=? 0)%Z || (stepID <=? 0)%Z || bool_decide (capability = "") || negb (String.length argumentsHash =? 64)%nat
  then (Err InvalidIdentity, t) else
  if negb (hex_text argumentsHash) then (Err InvalidArgumentsHash, t) else
  let '(t', inserted) :=
    match insert_into ["grant_id"] ∅ consumptionColumns
            [SText grantID; SInt goalID; SInt stepID; SText capability; SText argumentsHash; SText (formatTime now)] t with
    | Ok t' => (t', true)
    | Err _ => (t, false)       (* [OR IGNORE] *)
    end in
  match scan_row scan_consumption (select (take 4 (tail consumptionColumns)) (where_eq "grant_id" (SText grantID)) unordered t') with
  | Err e => (Err (ConsumeSQL e), t)
  | Ok existing =>
      if bool_decide (existing = (goalID, stepID, capability, argumentsHash)) then (Ok inserted, t') else (Err (AlreadyConsumed grantID), t)
  end.

(** [DELETE FROM agent_administrator_grant_consumptions WHERE consumed_at<?] of
    [CleanupAgentV2Data]: the retention forgets what was consumed before an instant. *)
Definition cleanup_consumptions (before : time) (t : table) : table :=
  filter (λ r, where_lt "consumed_at" (formatTime before) r = false) t.

(** * What the gate guarantees *)

(** ** Grounds of a body *)

(** Inside the barrier or not; the freeze state as it was last read, since the barrier was
    entered; the grant that was consumed, with the step that owns it. *)
Record gate := mkGate {
  gt_Held : bool;
  gt_Thawed : bool;
  gt_Consumed : option (string * Z * Z * string * string);
}.
Definition gate_start : gate := mkGate false false None.

Section protocol.
Context `{UnicodeTables, FoldTable, DecodeCauses}.

Definition watch_gate (w : gate) (R : Type) (c : GateCall R) : R → gate :=
  match c in GateCall R return R → gate with
  | EnterMutation => λ r, match r with Ok _ => mkGate true false (gt_Consumed w) | Err _ => w end
  | ReleaseMutation => λ _, mkGate false false None
  | EngineFreezeState => λ r, mkGate (gt_Held w)
      (match r with Ok freeze => negb (fs_AllAutomation freeze) && negb (fs_Agent freeze) | Err _ => false end) (gt_Consumed w)
  | ConsumeGrant grantID goalID stepID capability hash => λ r,
      mkGate (gt_Held w) (gt_Thawed w) (match r with Ok _ => Some (grantID, goalID, stepID, capability, hash) | Err _ => gt_Consumed w end)
  | _ => λ _, w
  end.

(** Who may have it done: an administrator whose grant was accepted for this very call and
    consumed by this step, or the agent by itself. *)
Definition authorised (w : gate) (context : CommandContext) (invocation : CapabilityInvocation) (spec : CapabilitySpec) : Prop :=
  match iv_AdministratorGrant invocation with
  | Some grant =>
      cs_AdministratorDirect spec = true
      ∧ validateAdministratorGrant (Some grant) (iv_Name invocation) (iv_Arguments invocation) = Ok ()
      ∧ cc_Administrator context = true ∧ cc_GrantConsumptionID context = trim_space (ag_GrantID grant)
      ∧ (iv_DryRun invocation = false →
          (0 < iv_GoalID invocation)%Z ∧ (0 < iv_StepID invocation)%Z
          ∧ gt_Consumed w = Some (ag_GrantID grant, iv_GoalID invocation, iv_StepID invocation, iv_Name invocation,
                                  administratorArgumentsHash (iv_Arguments invocation)))
  | None => ep_SupportsAutonomous (cs_ExecutionPolicy spec) = true ∧ ep_RequiresConfirmation (cs_ExecutionPolicy spec) = false
            ∧ cc_Administrator context = false
  end.

(** Within the policy: evidence, a snapshot, a bounded scope as far as it is counted, a
    bounded lifetime. *)
Definition within_policy (invocation : CapabilityInvocation) (policy : ExecutionPolicy) : Prop :=
  (ep_RequiresEvidence policy = true → iv_EvidenceRefs invocation ≠ [])
  ∧ (ep_RequiresFreshSnapshot policy = true → trim_space (iv_SnapshotVersion invocation) ≠ "")
  ∧ ((0 < ep_MaxScope policy)%Z → ∃ count,
       capabilityInvocationScopeCount (iv_Name invocation) (iv_Arguments invocation) = Ok count ∧ (count ≤ ep_MaxScope policy)%Z)
  ∧ ((0 < ep_MaxTTLSeconds policy)%Z → ∃ expiresAt, iv_ExpiresAt invocation = Some expiresAt
       ∧ (0 < sub_time expiresAt (iv_CreatedAt invocation) ≤ ep_MaxTTLSeconds policy * second)%Z).

Definition body_grounds (w : gate) (context : option CommandContext) (invocation : CapabilityInvocation) : Prop :=
  ∃ spec, capabilitySpec (iv_Name invocation) = Some spec
  ∧ normalizedArguments (iv_Arguments invocation) = Ok (iv_Arguments invocation)
  ∧ (cs_Mutating spec = true → ∃ context', context = Some context'
      ∧ gt_Thawed w = true ∧ (iv_DryRun invocation = false → gt_Held w = true)
      ∧ authorised w context' invocation spec ∧ within_policy invocation (cs_ExecutionPolicy spec)).

Definition gate_permits (w : gate) (R : Type) (c : GateCall R) : Prop :=
  match c with
  | EnterMutation => gt_Held w = false
  | ReleaseMutation => gt_Held w = true
  | ConsumeGrant _ _ _ _ _ => gt_Held w = true ∧ gt_Thawed w = true
  | CapabilityBody context invocation => body_grounds w context invocation
  | _ => True
  end.
Definition gate_protocol : Requests.protocol GateCall := mkProtocol gate gate_permits watch_gate.

Definition wpg {A} (p : prog A) (w : gate) (Q : A → gate → Prop) : Prop := wp gate_protocol p w Q.

Lemma wpg_bind {A B} (p : prog A) (f : A → prog B) w Q : wpg p w (λ a w, wpg (f a) w Q) → wpg (p ≫= f) w Q.
Proof. intros Hp. by apply wp_bind. Qed.

Lemma wpg_call {R B} (c : GateCall R) (k : R → prog B) w Q :
  gate_permits w R c → (∀ r, wpg (k r) (watch_gate w R c r) Q) → wpg (call c ≫= k) w Q.
Proof. intros Hc Hk. apply (wp_request gate_protocol c k w Q Hc Hk). Qed.

Lemma observed_wp invocation spec executable w : wpg (observed invocation spec executable) w (λ _ w', w' = w).
Proof. unfold observed. by destruct (iv_DryRun invocation && cs_Mutating spec). Qed.

Lemma run_body_wp context invocation spec w :
  body_grounds w context invocation → wpg (run_body context invocation spec) w (λ _ w', w' = w).
Proof.
  intros Hg. unfold run_body. apply wpg_call; [done|]. intros before. apply wpg_call; [done|]. intros [[output retryable] err].
  apply wpg_call; [done|]. intros after. cbn [watch_gate]. destruct err as [err|].
  - apply wpg_bind. eapply wp_mono; [|apply observed_wp]. intros [] w' ->. apply wpg_call; [done|]. intros []. done.
  - apply wpg_bind. eapply wp_mono; [|apply observed_wp]. intros [] w' ->. done.
Qed.

Lemma context_wp invocation w (Q : CommandContext → gate → Prop) :
  (∀ at_, Q (account_context invocation at_) w) → wpg (withAccountControlContext invocation) w Q.
Proof. intros HQ. unfold withAccountControlContext. destruct (is_zero_time _); [|apply HQ]. apply wpg_call; [done|]. intros now. apply HQ. Qed.

(** What [let_through] lets through: the call it was asked for, checked. *)
Record admitted (invocation invocation' : CapabilityInvocation) (spec : CapabilitySpec) : Prop := {
  am_Name : iv_Name invocation' = iv_Name invocation;
  am_Arguments : iv_Arguments invocation' = iv_Arguments invocation;
  am_DryRun : iv_DryRun invocation' = iv_DryRun invocation;
  am_Grant : match iv_AdministratorGrant invocation' with
             | Some grant => cs_AdministratorDirect spec = true
                 ∧ validateAdministratorGrant (Some grant) (iv_Name invocation) (iv_Arguments invocation) = Ok ()
             | None => cs_Mutating spec = true →
                 ep_SupportsAutonomous (cs_ExecutionPolicy spec) = true ∧ ep_RequiresConfirmation (cs_ExecutionPolicy spec) = false
             end;
  am_Policy : cs_Mutating spec = true → within_policy invocation' (cs_ExecutionPolicy spec);
}.

Lemma check_ttl_ok invocation policy :
  check_ttl invocation policy = Ok () → (0 < ep_MaxTTLSeconds policy)%Z →
  ∃ expiresAt, iv_ExpiresAt invocation = Some expiresAt
    ∧ (0 < sub_time expiresAt (iv_CreatedAt invocation) ≤ ep_MaxTTLSeconds policy * second)%Z.
Proof.
  unfold check_ttl. intros Ht Hm. rewrite (proj2 (Z.ltb_lt 0 _) Hm) in Ht. destruct (iv_ExpiresAt invocation) as [expiresAt|]; [|done].
  apply bind_ok in Ht as ([] & _ & Ht%fail_if_ok). apply orb_false_iff in Ht as [Hlo Hhi]. exists expiresAt. split; [done|]. lia.
Qed.

Lemma check_scope_ok invocation policy :
  check_scope invocation policy = Ok () → (0 < ep_MaxScope policy)%Z →
  ∃ count, capabilityInvocationScopeCount (iv_Name invocation) (iv_Arguments invocation) = Ok count ∧ (count ≤ ep_MaxScope policy)%Z.
Proof.
  unfold check_scope. intros Hc Hm. rewrite (proj2 (Z.ltb_lt 0 _) Hm) in Hc. apply bind_ok in Hc as (count & Hcount & Hc%fail_if_ok).
  exists count. split; [done|lia].
Qed.

Lemma check_policy_ok invocation spec :
  check_policy invocation spec = Ok () → cs_Mutating spec = true → within_policy invocation (cs_ExecutionPolicy spec).
Proof.
  unfold check_policy. intros Hp Hm. rewrite Hm in Hp. cbn [negb] in Hp.
  apply bind_ok in Hp as ([] & Hev%fail_if_ok & Hp). apply bind_ok in Hp as ([] & Hsn%fail_if_ok & Hp). apply bind_ok in Hp as ([] & Hscope & Hp).
  split_and!; [| |by apply check_scope_ok|by apply check_ttl_ok].
  - intros Hr. rewrite Hr in Hev. by apply bool_decide_eq_false in Hev.
  - intros Hr. rewrite Hr in Hsn. by apply bool_decide_eq_false in Hsn.
Qed.

(** Only the lifetime changes. *)
Lemma defaults_ok invocation spec invocation' :
  applyExecutionPolicyDefaults invocation spec = Ok invocation' → ∃ expiry, invocation' = invocation <| iv_ExpiresAt := expiry |>.
Proof.
  unfold applyExecutionPolicyDefaults. assert (∀ i : CapabilityInvocation, i = i <| iv_ExpiresAt := iv_ExpiresAt i |>) as Hsame by (by intros []).
  destruct (cs_Mutating spec); cbn [negb]; [|intros [= <-]; by exists (iv_ExpiresAt invocation)].
  intros (expiry & _ & Hd)%bind_ok. apply bind_ok in Hd as (i & Hi & Hd).
  assert (∃ e, i = invocation <| iv_ExpiresAt := e |>) as [e ->].
  { clear Hd. destruct expiry as [expiry|]; [|injection Hi as <-; by exists (iv_ExpiresAt invocation)].
    destruct (iv_ExpiresAt invocation); [case_bool_decide; [|done]|]; injection Hi as <-; by exists (Some expiry). }
  destruct (_ || _); [injection Hd as <-; by exists e|]. destruct (is_zero_time _); [done|]. injection Hd as <-.
  eexists. by destruct invocation.
Qed.

Lemma check_grant_ok invocation spec invocation' :
  check_grant invocation spec = Ok invocation' →
  (∃ actor, invocation' = invocation <| iv_Actor := actor |>)
  ∧ match iv_AdministratorGrant invocation with
    | Some grant => cs_AdministratorDirect spec = true
        ∧ validateAdministratorGrant (Some grant) (iv_Name invocation) (iv_Arguments invocation) = Ok ()
    | None => True
    end.
Proof.
  unfold check_grant. destruct (iv_AdministratorGrant invocation) as [grant|].
  - destruct (cs_AdministratorDirect spec); [|done]. cbn [negb].
    destruct (validateAdministratorGrant _ _ _) as [[]|]; [|done]. intros [= <-]. split; [by eexists|done].
  - intros [= <-]. split; [|done]. case_bool_decide; [by eexists|]. exists (iv_Actor invocation). by destruct invocation.
Qed.

Lemma admit_ok invocation spec invocation' : let_through invocation spec = Ok invocation' → admitted invocation invocation' spec.
Proof.
  unfold let_through. intros (i1 & Hgrant & Hd)%bind_ok. apply bind_ok in Hd as (i2 & Hdef & Hd). apply bind_ok in Hd as ([] & Hauto & Hd).
  apply bind_ok in Hd as ([] & Hpol & Hd). injection Hd as ->.
  apply check_grant_ok in Hgrant as [[actor ->] Hgrant]. apply defaults_ok in Hdef as [expiry ->]. destruct invocation. constructor; try done.
  - cbn in *. destruct iv_AdministratorGrant0 as [grant|]; [done|]. intros Hm. unfold check_autonomy in Hauto. rewrite Hm in Hauto. cbn in Hauto.
    apply bind_ok in Hauto as ([] & Hconf%fail_if_ok & Hauto%fail_if_ok). by apply negb_false_iff in Hauto.
  - by apply check_policy_ok.
Qed.

(** What runs after the checks and, for a write, inside the barrier. *)
Lemma run_admitted_wp invocation spec w :
  capabilitySpec (iv_Name invocation) = Some spec → normalizedArguments (iv_Arguments invocation) = Ok (iv_Arguments invocation) →
  (cs_Mutating spec = true → iv_DryRun invocation = false → gt_Held w = true) → admitted invocation invocation spec →
  wpg (run_admitted invocation spec) w (λ _ w', gt_Held w' = gt_Held w).
Proof.
  intros Hspec Hnorm Hheld Hadmitted. unfold run_admitted, check_freeze. destruct (cs_Mutating spec) eqn:Em; cbn [negb].
  2:{ unfold consume_grant. rewrite Em. destruct (iv_AdministratorGrant invocation); cbn [negb orb mbind prog_mbind prog_bind];
        (eapply wp_mono; [|apply run_body_wp; exists spec; by rewrite Em]); by intros answer w' ->. }
  apply wpg_bind. apply wpg_call; [done|]. intros [freeze|err]; [|done].
  destruct (fs_AllAutomation freeze) eqn:Eall; [done|]. destruct (fs_Agent freeze) eqn:Eagent; [done|].
  cbn [watch_gate negb andb]. rewrite Eall, Eagent. cbn [negb andb].
  assert (∀ w', gt_Thawed w' = true → gt_Held w' = gt_Held w →
    (∀ grant, iv_AdministratorGrant invocation = Some grant → iv_DryRun invocation = false →
      (0 < iv_GoalID invocation)%Z ∧ (0 < iv_StepID invocation)%Z
      ∧ gt_Consumed w' = Some (ag_GrantID grant, iv_GoalID invocation, iv_StepID invocation, iv_Name invocation,
                               administratorArgumentsHash (iv_Arguments invocation))) →
    wpg (context ← withAccountControlContext invocation; run_body (Some context) invocation spec) w' (λ _ w', gt_Held w' = gt_Held w)) as Hbody.
  { intros w' Hth Hh Hcons. apply wpg_bind, context_wp. intros at_. eapply wp_mono; [|apply run_body_wp]; [by intros answer w2 ->|].
    exists spec. split_and!; [done..|]. intros _. exists (account_context invocation at_). split_and!; [done..|by rewrite Hh; apply Hheld| |].
    - pose proof (am_Grant _ _ _ Hadmitted) as Hg. unfold authorised, account_context.
      destruct (iv_AdministratorGrant invocation) as [grant|]; [|by destruct (Hg Em)].
      destruct Hg as [Hdirect Hv]. split_and!; try done. intros Hdry. by apply Hcons.
    - by apply (am_Policy _ _ _ Hadmitted). }
  unfold consume_grant. rewrite Em. cbn [negb orb mbind prog_mbind prog_bind].
  destruct (iv_AdministratorGrant invocation) as [grant|] eqn:Eg; [|by apply Hbody].
  destruct (iv_DryRun invocation) eqn:Edry; [by apply Hbody|].
  destruct ((iv_GoalID invocation <=? 0)%Z || (iv_StepID invocation <=? 0)%Z) eqn:Eids; [done|].
  apply orb_false_iff in Eids as [Hgoal Hstep]. apply wpg_bind. apply wpg_call; [split; [by apply Hheld|done]|].
  intros [fresh|err]; [|done]. apply Hbody; [done|done|]. intros grant' [= <-] _. split_and!; [lia|lia|done].
Qed.

Lemma ExecuteCapability_wp invocation w :
  gt_Held w = false → wpg (ExecuteCapability invocation) w (λ _ w', gt_Held w' = false).
Proof.
  intros Hw. unfold ExecuteCapability. set (i := named invocation). clearbody i. destruct (capabilitySpec (iv_Name i)) as [spec|] eqn:Es; [|done].
  destruct (normalizedArguments (iv_Arguments i)) as [arguments|err] eqn:En.
  2:{ apply wpg_bind. eapply wp_mono; [|apply observed_wp]. by intros [] w' ->. }
  destruct (let_through _ spec) as [i'|err] eqn:Ea; [|done]. apply admit_ok in Ea.
  assert (capabilitySpec (iv_Name i') = Some spec) as Hspec by (rewrite (am_Name _ _ _ Ea); by destruct i).
  assert (iv_Arguments i' = arguments) as Harg by (rewrite (am_Arguments _ _ _ Ea); by destruct i).
  assert (normalizedArguments (iv_Arguments i') = Ok (iv_Arguments i')) as Hnorm.
  { rewrite Harg. destruct (normalized_of _ _ En) as (m & Hn & _). by eapply normalize_normal. }
  assert (admitted i' i' spec) as Hself.
  { destruct Ea as [Hname Hargs Hdry Hgrant Hpol]. constructor; try done. by rewrite Hname, Hargs. }
  destruct (cs_Mutating spec && negb (iv_DryRun i')) eqn:Eb.
  - apply wpg_call; [done|]. intros [[]|err]; [|done]. apply wpg_bind. eapply wp_mono; [|apply run_admitted_wp; done].
    intros answer w' Hh. apply wpg_call; [exact Hh|]. intros []. done.
  - eapply wp_mono; [|apply run_admitted_wp; [done..| |done]].
    + intros answer w' Hh. by rewrite Hh.
    + intros Hm Hdry. by rewrite Hm, Hdry in Eb.
Qed.

(** C28: every run of [ExecuteCapability], to wherever it gets, runs the body of a registered
    capability, with arguments in normal form, and a write only after the freeze state was
    read as thawed, inside the barrier unless it is a dry run, within the policy's demands
    of evidence, snapshot, scope and lifetime, and either under a grant that was accepted for this
    very call and consumed by this step, in whose name account control is told to act, or
    for a capability that the agent may use by itself; the barrier is left at the end. *)
Theorem capability_runs_on_grounds invocation tr value :
  trace (ExecuteCapability invocation) tr value →
  respects gate_protocol gate_start tr ∧ (is_Some value → gt_Held (watch_after gate_protocol gate_start tr) = false).
Proof.
  intros Ht. destruct (wp_adequate gate_protocol _ _ _ _ _ (ExecuteCapability_wp invocation gate_start eq_refl) Ht) as [Hr Hv].
  split; [done|]. intros [a Ha]. by apply (Hv a).
Qed.
End protocol.

(** ** Consumption *)

Record consumption := mkConsumption {
  cn_Now : time;
  cn_GrantID : string;
  cn_GoalID : Z;
  cn_StepID : Z;
  cn_Capability : string;
  cn_ArgumentsHash : string;
}.
Definition consume (c : consumption) : table → result consume_error bool * table :=
  ConsumeAdministratorGrant (cn_Now c) (cn_GrantID c) (cn_GoalID c) (cn_StepID c) (cn_Capability c) (cn_ArgumentsHash c).

(** The step that asks, and for what. *)
Definition owner (c : consumption) : Z * Z * string * string :=
  (cn_GoalID c, cn_StepID c, trim_space (cn_Capability c), trim_space (cn_ArgumentsHash c)).

(** One call: done, or refused by the engine, before or after the commit. *)
Definition consumes (t : table) (c : consumption) (r : result consume_error bool) (t' : table) : Prop :=
  (r, t') = consume c t ∨ ∃ text, r = Err (ConsumeSQL (EngineError text)) ∧ (t' = t ∨ t' = (consume c t).2).

(** What happens to the table: calls, with their replies, and the daily run of the
    retention, of which the engine may refuse the transaction. *)
Inductive consumption_event :=
  | Asked (c : consumption) (r : result consume_error bool)
  | Forgot (before : time).

Inductive consumed : table → list consumption_event → table → Prop :=
  | ConsumedNone t : consumed t [] t
  | ConsumedMore t log t' c r t'' : consumed t log t' → consumes t' c r t'' → consumed t (log ++ [Asked c r]) t''
  | ConsumedForgot t log t' before t'' :
      consumed t log t' → t'' = t' ∨ t'' = cleanup_consumptions before t' → consumed t (log ++ [Forgot before]) t''.

(** A row says that the grant was consumed before the instant. *)
Definition spent_before (t : table) (log : list consumption_event) (grantID : string) (before : time) : Prop :=
  (∃ r, r ∈ t ∧ column "grant_id" r = SText grantID ∧ where_lt "consumed_at" (formatTime before) r = true)
  ∨ ∃ c r, Asked c r ∈ log ∧ trim_space (cn_GrantID c) = grantID ∧ string_less (formatTime (cn_Now c)) (formatTime before) = true.
(** The retention ran with a boundary after a consumption of the grant. *)
Definition forgotten (t : table) (log : list consumption_event) (grantID : string) : Prop :=
  ∃ before, Forgot before ∈ log ∧ spent_before t log grantID before.

(** The primary key. *)
Definition keyed (t : table) : Prop := NoDup (column "grant_id" <$> t).

(** A row of the grant that names the owner. *)
Definition owned (t : table) (c : consumption) : Prop :=
  ∃ r, r ∈ t ∧ column "grant_id" r = SText (trim_space (cn_GrantID c))
    ∧ scan_consumption (values (take 4 (tail consumptionColumns)) r) = Ok (owner c).

Lemma inserted_once (unique columns : list string) (defaults : gmap string sqlval) vals t t' :
  insert_into unique defaults columns vals t = Ok t' →
  t' = t ++ [row_of columns vals ∪ defaults] ∧ ∀ c, c ∈ unique → taken c (column c (row_of columns vals ∪ defaults)) t = false.
Proof.
  unfold insert_into. destruct (negb _); [done|]. destruct (filter _ unique) as [|c l] eqn:Ef; [|done]. intros [= <-]. split; [done|].
  intros c Hc. apply not_true_iff_false. intros Htaken.
  assert (c ∈ filter (λ c, taken c (column c (row_of columns vals ∪ defaults)) t = true) unique) as Hin by (by apply list_elem_of_filter).
  rewrite Ef in Hin. by apply elem_of_nil in Hin.
Qed.

Lemma taken_false c v t : v ≠ SNull → taken c v t = false ↔ v ∉ (column c <$> t).
Proof.
  intros Hv. unfold taken, where_eq. rewrite <-not_true_iff_false, existsb_exists. rewrite list_elem_of_fmap.
  rewrite bool_decide_true by done. cbn [andb]. setoid_rewrite bool_decide_eq_true. setoid_rewrite list_elem_of_In.
  split; intros Hn (r & Hr & Hin); apply Hn; exists r; naive_solver.
Qed.

(** What a consumption does to the table, and what an acknowledgment means. *)
Lemma consume_effect c t :
  (let t' := (consume c t).2 in
   (t' = t ∨ ∃ r, t' = t ++ [r] ∧ column "grant_id" r = SText (trim_space (cn_GrantID c))
      ∧ column "consumed_at" r = SText (formatTime (cn_Now c)) ∧ SText (trim_space (cn_GrantID c)) ∉ (column "grant_id" <$> t))
   ∧ ∀ fresh, (consume c t).1 = Ok fresh → owned t' c
       ∧ (fresh = true → SText (trim_space (cn_GrantID c)) ∉ (column "grant_id" <$> t))).
Proof.
  unfold consume, ConsumeAdministratorGrant. cbv zeta.
  destruct (negb (_ =? _)%nat || _ || _); [by split; [left|]|].
  destruct ((_ <=? 0)%Z || _ || _ || _); [by split; [left|]|]. destruct (negb (hex_text _)); [by split; [left|]|].
  set (id := trim_space (cn_GrantID c)).
  set (vals := [SText id; SInt (cn_GoalID c); SInt (cn_StepID c); SText (trim_space (cn_Capability c));
                SText (trim_space (cn_ArgumentsHash c)); SText (formatTime (cn_Now c))]).
  assert (column "grant_id" (row_of consumptionColumns vals ∪ ∅) = SText id) as Hcol.
  { unfold column. rewrite map_union_empty, (row_of_lookup consumptionColumns vals 0 "grant_id" (SText id)); try done.
    apply (bool_decide_unpack _). by vm_compute. }
  assert (column "consumed_at" (row_of consumptionColumns vals ∪ ∅) = SText (formatTime (cn_Now c))) as Hdate.
  { unfold column. rewrite map_union_empty, (row_of_lookup consumptionColumns vals 5 "consumed_at" (SText (formatTime (cn_Now c)))); try done.
    apply (bool_decide_unpack _). by vm_compute. }
  set (select_row := λ t, select (take 4 (tail consumptionColumns)) (where_eq "grant_id" (SText id)) unordered t).
  assert (∀ t', (∀ vals, scan_row scan_consumption (select_row t') = Ok vals →
      ∃ r, r ∈ t' ∧ column "grant_id" r = SText id ∧ scan_consumption (values (take 4 (tail consumptionColumns)) r) = Ok vals)) as Hread.
  { intros t' found. unfold select_row, select. rewrite sort_slice_unordered.
    destruct (filter _ t') as [|r l] eqn:Ef; [done|]. cbn [fmap list_fmap scan_row]. intros Hs. exists r.
    assert (r ∈ filter (λ r, where_eq "grant_id" (SText id) r = true) t') as Hin by (rewrite Ef; by left).
    apply list_elem_of_filter in Hin as [Hw Hin]. split_and!; [done| |done].
    unfold where_eq in Hw. apply andb_true_iff in Hw as [_ Hw]. by apply bool_decide_eq_true in Hw. }
  destruct (insert_into ["grant_id"] ∅ consumptionColumns vals t) as [t1|e] eqn:Ei.
  - apply inserted_once in Ei as [-> Hfree]. specialize (Hfree "grant_id" ltac:(by left)). rewrite Hcol, taken_false in Hfree by done.
    fold (select_row (t ++ [row_of consumptionColumns vals ∪ ∅])).
    destruct (scan_row scan_consumption _) as [existing|e] eqn:Es; [|split; [by left|done]].
    case_bool_decide as E; cbn [fst snd]; [|split; [by left|done]]. split; [right; by eexists|].
    intros fresh _. split; [|done]. apply Hread in Es. by rewrite E in Es.
  - fold (select_row t). destruct (scan_row scan_consumption _) as [existing|e'] eqn:Es; [|split; [by left|done]].
    case_bool_decide as E; cbn [fst snd]; [|split; [by left|done]]. split; [by left|].
    intros fresh [= <-]. split; [|done]. apply Hread in Es. by rewrite E in Es.
Qed.

Lemma owned_more t r c : owned t c → owned (t ++ [r]) c.
Proof. intros (x & Hin & Hx). exists x. split; [by apply elem_of_app; left|done]. Qed.

Lemma consumes_step t c r t' :
  consumes t c r t' → keyed t →
  keyed t' ∧ (∀ c', owned t c' → owned t' c')
  ∧ ∀ fresh, r = Ok fresh → owned t' c ∧ (fresh = true → ∀ c', owned t c' → trim_space (cn_GrantID c') ≠ trim_space (cn_GrantID c)).
Proof.
  intros Hstep Hk. destruct (consume_effect c t) as [Htable Hok].
  assert (∀ t', (t' = t ∨ t' = (consume c t).2) → keyed t' ∧ ∀ c', owned t c' → owned t' c') as Hkeep.
  { intros t2 [->| ->]; [done|]. destruct Htable as [->|(row & -> & Hrow & _ & Hnew)]; [done|]. split; [|intros c'; apply owned_more].
    unfold keyed in *. rewrite fmap_app. apply NoDup_app. split_and!; [done| |by apply NoDup_singleton].
    intros v Hv Hv'. cbn in Hv'. apply list_elem_of_singleton in Hv' as ->. by rewrite Hrow in Hv. }
  destruct Hstep as [E|(text & -> & Ht')].
  - assert (t' = (consume c t).2) as Et by (by rewrite <-E). destruct (Hkeep t' (or_intror Et)) as [Hk' Hk'']. split_and!; [done..|].
    intros fresh Hr. rewrite <-E in Hok. destruct (Hok fresh Hr) as [Hown Hnew]. split; [done|]. intros Hfresh c' (row & Hin & Hid & _) Heq.
    apply (Hnew Hfresh). rewrite <-Heq, <-Hid. by apply list_elem_of_fmap_2.
  - destruct (Hkeep t' Ht') as [Hk' Hk'']. by split_and!.
Qed.

Lemma spent_before_snoc t log e grantID before : spent_before t log grantID before → spent_before t (log ++ [e]) grantID before.
Proof. intros [?|(c & r & Hin & Hc)]; [by left|]. right. exists c, r. split; [|done]. apply elem_of_app. by left. Qed.
Lemma forgotten_snoc t log e grantID : forgotten t log grantID → forgotten t (log ++ [e]) grantID.
Proof. intros (before & Hb & Hs). exists before. split; [apply elem_of_app; by left|by apply spent_before_snoc]. Qed.

(** A row was there, or is dated by the call that put it there. *)
Definition dated (t : table) (log : list consumption_event) (t' : table) : Prop :=
  ∀ row, row ∈ t' → row ∈ t ∨ ∃ c r, Asked c r ∈ log ∧ column "grant_id" row = SText (trim_space (cn_GrantID c))
    ∧ column "consumed_at" row = SText (formatTime (cn_Now c)).

Lemma consumed_dated t log t' : consumed t log t' → dated t log t'.
Proof.
  induction 1 as [t|t log t' c r t'' _ IH Hstep|t log t' before t'' _ IH Hstep]; intros row Hin; [by left|..].
  - assert (row ∈ t' ∨ column "grant_id" row = SText (trim_space (cn_GrantID c)) ∧ column "consumed_at" row = SText (formatTime (cn_Now c))) as [Hold|Hnew].
    { destruct (consume_effect c t') as [Htable _]. assert (t'' = t' ∨ t'' = (consume c t').2) as [->| ->]; [|by left|].
      { destruct Hstep as [E|(text & _ & ?)]; [right; by rewrite <-E|done]. }
      destruct Htable as [E|(x & E & ? & ? & _)]; rewrite E in Hin; [by left|]. apply elem_of_app in Hin as [?|Hx]; [by left|].
      apply list_elem_of_singleton in Hx as ->. by right. }
    + destruct (IH row Hold) as [?|(c' & r' & Hc' & ?)]; [by left|]. right. exists c', r'. split; [apply elem_of_app; by left|done].
    + right. exists c, r. split; [apply elem_of_app; right; left|done].
  - assert (row ∈ t') as Hold by (destruct Hstep as [->| ->]; [done|by apply list_elem_of_filter in Hin as [_ ?]]).
    destruct (IH row Hold) as [?|(c' & r' & Hc' & ?)]; [by left|]. right. exists c', r'. split; [apply elem_of_app; by left|done].
Qed.

Lemma cleanup_keyed before t : keyed t → keyed (cleanup_consumptions before t).
Proof.
  unfold keyed, cleanup_consumptions. intros Hk. eapply sublist_NoDup; [exact Hk|]. clear Hk. induction t as [|r t IH]; [constructor|].
  rewrite filter_cons. case_decide; by constructor.
Qed.

(** While the grant is not forgotten, what was acknowledged is still there. *)
Lemma consumed_owned t log t' :
  consumed t log t' → keyed t →
  keyed t' ∧ ∀ c fresh, Asked c (Ok fresh) ∈ log → ¬ forgotten t log (trim_space (cn_GrantID c)) → owned t' c.
Proof.
  induction 1 as [t|t log t' c r t'' _ IH Hstep|t log t' before t'' Hprev IH Hstep]; intros Hk; [split; [done|by intros ? ? ?%elem_of_nil]|..].
  - destruct (IH Hk) as [Hk' Hlog]. destruct (consumes_step _ _ _ _ Hstep Hk') as (Hk'' & Hkeep & Hok). split; [done|].
    intros c' fresh [Hin|[= -> Hr]%list_elem_of_singleton]%elem_of_app Hnot; [|by eapply Hok].
    eapply Hkeep, Hlog; [done|]. intros Hf. by apply Hnot, forgotten_snoc.
  - destruct (IH Hk) as [Hk' Hlog]. split; [destruct Hstep as [->| ->]; [done|by apply cleanup_keyed]|].
    intros c' fresh [Hin|Hin%list_elem_of_singleton]%elem_of_app Hnot; [|done].
    assert (owned t' c') as (row & Hrow & Hid & Ho) by (eapply Hlog; [done|]; intros Hf; by apply Hnot, forgotten_snoc).
    destruct Hstep as [->| ->]; [by exists row|]. exists row. split; [|done]. apply list_elem_of_filter. split; [|done].
    apply not_true_iff_false. intros Hlt. apply Hnot. exists before. split; [apply elem_of_app; right; left|]. apply spent_before_snoc.
    destruct (consumed_dated _ _ _ Hprev row Hrow) as [?|(c2 & r2 & Hc2 & Hid2 & Hdate)]; [left; by exists row|]. right. exists c2, r2.
    split; [done|]. rewrite Hid in Hid2. injection Hid2 as E. split; [done|]. unfold where_lt in Hlt. by rewrite Hdate in Hlt.
Qed.

Lemma owned_once t c c' : keyed t → owned t c → owned t c' → trim_space (cn_GrantID c) = trim_space (cn_GrantID c') → owner c = owner c'.
Proof.
  intros Hk (r & Hr & Hid & Ho) (r' & Hr' & Hid' & Ho') E.
  apply list_elem_of_lookup in Hr as [i Hi]. apply list_elem_of_lookup in Hr' as [j Hj].
  assert (i = j) as ->.
  { apply (NoDup_lookup (column "grant_id" <$> t) i j (SText (trim_space (cn_GrantID c)))); [done|rewrite list_lookup_fmap..].
    - by rewrite Hi, <-Hid.
    - by rewrite Hj, E, <-Hid'. }
  rewrite Hi in Hj. injection Hj as <-. clear -Ho Ho'. congruence.
Qed.

(** ** Executions over the store *)

Section store.
Context `{UnicodeTables, FoldTable, DecodeCauses}.

(** Every acknowledgment that an execution received was given by the store. Executions may
    run at the same time: only the order of the store's own answers is fixed. *)
Definition acknowledged (log : list consumption_event) (tr : list (exchange GateCall)) : Prop :=
  ∀ grantID goalID stepID capability hash fresh,
    Exchange (ConsumeGrant grantID goalID stepID capability hash) (Ok fresh) ∈ tr →
    ∃ now, Asked (mkConsumption now grantID goalID stepID capability hash) (Ok fresh) ∈ log.

(** A write that was carried out, not only proposed. *)
Definition wrote (tr : list (exchange GateCall)) (invocation : CapabilityInvocation) : Prop :=
  (∃ context r, Exchange (CapabilityBody context invocation) r ∈ tr) ∧ iv_DryRun invocation = false
  ∧ ∃ spec, capabilitySpec (iv_Name invocation) = Some spec ∧ cs_Mutating spec = true.

(** What is held as consumed was acknowledged. *)
Lemma consumed_before (w : gate) tr grantID goalID stepID capability hash :
  gt_Consumed (watch_after gate_protocol w tr) = Some (grantID, goalID, stepID, capability, hash) →
  gt_Consumed w = Some (grantID, goalID, stepID, capability, hash)
  ∨ ∃ fresh, Exchange (ConsumeGrant grantID goalID stepID capability hash) (Ok fresh) ∈ tr.
Proof.
  revert w. induction tr as [|[R c r] tr IH]; intros w Hw; [by left|]. cbn [watch_after] in Hw.
  destruct (IH _ Hw) as [Hc|[fresh Hin]]; [|right; exists fresh; by right]. clear IH Hw.
  destruct c; cbn in Hc; try (by left); [by destruct r; left|].
  destruct r as [fresh|]; [|by left]. injection Hc as -> -> -> -> ->. right. exists fresh. by left.
Qed.

(** A body has its grounds in what came before it. *)
Lemma body_grounded invocation tr value context i r :
  trace (ExecuteCapability invocation) tr value → Exchange (CapabilityBody context i) r ∈ tr →
  ∃ before after, tr = before ++ after ∧ body_grounds (watch_after gate_protocol gate_start before) context i.
Proof.
  intros Ht Hin. destruct (wp_adequate gate_protocol _ _ _ _ _ (ExecuteCapability_wp invocation gate_start eq_refl) Ht) as [Hr _].
  apply list_elem_of_split in Hin as (before & after & ->). apply respects_app in Hr as [_ [Hgrounds _]]. by eexists _, _.
Qed.

Lemma wrote_under_grant invocation tr value i grant :
  trace (ExecuteCapability invocation) tr value → wrote tr i → iv_AdministratorGrant i = Some grant →
  ∃ fresh, Exchange (ConsumeGrant (ag_GrantID grant) (iv_GoalID i) (iv_StepID i) (iv_Name i) (administratorArgumentsHash (iv_Arguments i))) (Ok fresh) ∈ tr.
Proof.
  intros Ht ((context & r & Hin) & Hdry & spec & Hspec & Hm) Hg.
  apply (body_grounded _ _ _ _ _ _ Ht) in Hin as (before & after & -> & spec' & Hspec' & _ & Hwrite). rewrite Hspec in Hspec'. injection Hspec' as <-.
  destruct (Hwrite Hm) as (context' & _ & _ & _ & Hauth & _). unfold authorised in Hauth. rewrite Hg in Hauth.
  destruct Hauth as (_ & _ & _ & _ & Hc). destruct (Hc Hdry) as (_ & _ & Hcons).
  apply consumed_before in Hcons as [|[fresh Hin]]; [done|]. exists fresh. apply elem_of_app. by left.
Qed.

Lemma trim_registered name spec : capabilitySpec name = Some spec → trim_space name = name.
Proof.
  assert (Forall (λ spec, trim_space (cs_Name spec) = cs_Name spec) capabilityRegistry) as Hall
    by (apply (bool_decide_unpack _); vm_compute; exact I).
  unfold capabilitySpec. destruct (list_find _ capabilityRegistry) as [[i x]|] eqn:E; [|done]. intros _.
  apply list_find_Some in E as (Hx & <- & _). exact (Forall_lookup_1 _ _ _ _ Hall Hx).
Qed.

(** The arguments of a write are a text. *)
Lemma written_arguments invocation tr value i context r :
  trace (ExecuteCapability invocation) tr value → Exchange (CapabilityBody context i) r ∈ tr → iv_Arguments i ≠ "".
Proof.
  intros Ht Hin. apply (body_grounded _ _ _ _ _ _ Ht) in Hin as (before & after & -> & spec & _ & Hn & _).
  destruct (normalized_of _ _ Hn) as (m & [_ Htext] & _). rewrite Htext. by destruct m.
Qed.

Lemma trim_hash arguments : arguments ≠ "" → trim_space (administratorArgumentsHash arguments) = sha256_hex arguments.
Proof.
  intros Hn. unfold administratorArgumentsHash. rewrite bool_decide_false by done. apply trim_space_visible, sha256_hex_visible.
Qed.

(** C29: a grant writes for one step, as long as its consumption is remembered: two writes
    that executions carried out under grants of one identifier, with the store answering
    the consumptions in any order, its engine failing as it may and the retention deleting
    old rows in between, are for the same goal and step and are the same call of the same
    capability, up to a collision of SHA-256 between the texts of their arguments; unless
    the retention ran with a boundary later than a consumption of this grant, after which
    the grant may be consumed anew. *)
Theorem grant_writes_for_one_step t log t' invocation tr value i grant invocation' tr' value' i' grant' :
  keyed t → consumed t log t' →
  trace (ExecuteCapability invocation) tr value → acknowledged log tr → wrote tr i → iv_AdministratorGrant i = Some grant →
  trace (ExecuteCapability invocation') tr' value' → acknowledged log tr' → wrote tr' i' → iv_AdministratorGrant i' = Some grant' →
  trim_space (ag_GrantID grant) = trim_space (ag_GrantID grant') →
  ¬ forgotten t log (trim_space (ag_GrantID grant)) →
  iv_GoalID i = iv_GoalID i' ∧ iv_StepID i = iv_StepID i' ∧ iv_Name i = iv_Name i'
  ∧ (iv_Arguments i = iv_Arguments i' ∨ sha256_collision (iv_Arguments i) (iv_Arguments i')).
Proof.
  intros Hk Hlog Ht Hack Hw Hg Ht' Hack' Hw' Hg' Hid Hnot.
  destruct (consumed_owned _ _ _ Hlog Hk) as [Hkeyed Hown].
  destruct (wrote_under_grant _ _ _ _ _ Ht Hw Hg) as [fresh Hin]. apply Hack in Hin as [now Hin].
  destruct (wrote_under_grant _ _ _ _ _ Ht' Hw' Hg') as [fresh' Hin']. apply Hack' in Hin' as [now' Hin'].
  pose proof (owned_once _ _ _ Hkeyed (Hown _ _ Hin Hnot) (Hown _ _ Hin' ltac:(cbn; by rewrite <-Hid)) Hid) as Howner. unfold owner in Howner. cbn in Howner.
  destruct Hw as (Hw & _ & spec & Hs & _). destruct Hw' as (Hw' & _ & spec' & Hs' & _).
  rewrite (trim_registered _ _ Hs), (trim_registered _ _ Hs') in Howner. injection Howner as Hgoal Hstep Hname Hhash.
  split_and!; [done..|]. destruct Hw as (context & r & Hb), Hw' as (context' & r' & Hb').
  rewrite (trim_hash _ (written_arguments _ _ _ _ _ _ Ht Hb)), (trim_hash _ (written_arguments _ _ _ _ _ _ Ht' Hb')) in Hhash.
  by apply sha256_hex_inj_or_collision.
Qed.
End store.

(** ** On concrete calls *)

Import Samples.
#[local] Existing Instances plain_folds plain_causes.

(** The engine's answers as the executor sees them. *)
Definition consume_text (e : consume_error) : error :=
  match e with
  | InvalidGrantID | InvalidIdentity | InvalidArgumentsHash => NewError "invalid administrator grant consumption"
  | AlreadyConsumed grantID => Errorf grantID (NewError "already consumed")
  | ConsumeSQL _ => NewError "database"
  end.

(** A process with the store, whose freeze state is [frozen], and whose bodies do nothing.
    The state: the table and the bodies that ran. *)
Definition process (frozen : bool) : environment GateCall (table * list CapabilityInvocation) :=
  mkEnvironment (table * list CapabilityInvocation) (λ R s c,
    match c in GateCall R return R * (table * list CapabilityInvocation) with
    | RecordAgentObservation _ _ _ _ | ReleaseMutation | CapabilityFailed _ _ => ((), s)
    | EnterMutation => (Ok (), s)
    | EngineFreezeState => (Ok (mkFreezeState frozen false "" "" "" None midnight), s)
    | ConsumeGrant grantID goalID stepID capability hash =>
        let '(r, t) := ConsumeAdministratorGrant midnight grantID goalID stepID capability hash s.1 in
        (match r with Ok fresh => Ok fresh | Err e => Err (consume_text e) end, (t, s.2))
    | GateNow => (midnight, s)
    | CapabilityState _ => ("{}", s)
    | CapabilityBody _ invocation => (("{}", false, None), (s.1, s.2 ++ [invocation]))
    end).

Definition load_step (step : Z) : CapabilityInvocation :=
  mkInvocation "set_load_factor" set_load 1 1 step 0 "" "agent" "run-1" (Some (grant_of "set_load_factor" set_load)) false midnight None
    "snapshot-9" ["account:7/load"].
Definition hold_account : CapabilityInvocation :=
  mkInvocation "manual_hold_account" (quotes "{'account_id':7,'reason':'night'}") 1 1 9 0 "" "agent" "run-1" None false midnight None
    "snapshot-9" ["account:7/load"].

Definition execute (frozen : bool) (s : table * list CapabilityInvocation) (invocation : CapabilityInvocation) :=
  run (process frozen) (ExecuteCapability invocation) s.
Definition answers (frozen : bool) (invocations : list CapabilityInvocation) : list string * Z :=
  let '(said, s) := foldl (λ acc invocation, let '(answer, s) := execute frozen acc.2 invocation in
      (acc.1 ++ [match answer.2 with Some err => error_text err | None => ce_Status answer.1 end], s)) ([], ([], [])) invocations in
  (said, Z.of_nat (length s.2)).

(** The same step again, another step, without a grant, frozen. *)
Example answered :
  answers false [load_step 9; load_step 9; load_step 10; hold_account]
  = (["completed"; "completed";
      "管理员精确授权已失效或已被其他步骤消费: " +:+ error_text (consume_text (AlreadyConsumed (ag_GrantID (grant_of "set_load_factor" set_load))));
      "该写能力需要载荷精确绑定的管理员确认"], 2%Z)
  ∧ answers true [load_step 9] = (["智能体已被冻结"], 0%Z).
Proof. split; vm_compute; reflexivity. Qed.

(** The bodies of a trace, and the consumptions it was told of. *)
Definition bodies (tr : list (exchange GateCall)) : list CapabilityInvocation :=
  omap (λ x, match x with Exchange c _ => match c with CapabilityBody _ invocation => Some invocation | _ => None end end) tr.
Definition told_consumed (tr : list (exchange GateCall)) : list consumption_event :=
  omap (λ x, match x with Exchange c r =>
    match c in GateCall R return R → option consumption_event with
    | ConsumeGrant grantID goalID stepID capability hash => λ r,
        match r with Ok fresh => Some (Asked (mkConsumption midnight grantID goalID stepID capability hash) (Ok fresh)) | Err _ => None end
    | _ => λ _, None
    end r end) tr.

Lemma bodies_of tr i : i ∈ bodies tr → ∃ context r, Exchange (CapabilityBody context i) r ∈ tr.
Proof.
  intros ([R c r] & Hin & Hx)%list_elem_of_omap. destruct c; try done. injection Hx as ->. by eexists _, _.
Qed.

Lemma wrote_of tr i spec :
  bodies tr = [i] → iv_DryRun i = false → capabilitySpec (iv_Name i) = Some spec → cs_Mutating spec = true → wrote tr i.
Proof. intros Hb Hdry Hs Hm. split; [apply bodies_of; rewrite Hb; left|]. split; [done|by exists spec]. Qed.

Lemma told_acknowledged log tr : told_consumed tr ⊆ log → acknowledged log tr.
Proof.
  intros Hlog grantID goalID stepID capability hash fresh Hin. exists midnight. apply Hlog.
  apply list_elem_of_omap. by eexists.
Qed.

Definition first_run : list (exchange GateCall) := run_trace (process false) (ExecuteCapability (load_step 9)) ([], []).
Definition second_run : list (exchange GateCall) :=
  run_trace (process false) (ExecuteCapability (load_step 9)) (execute false ([], []) (load_step 9)).2.

Lemma capability_runs_on_grounds_witness :
  bodies first_run ≠ [] ∧ respects gate_protocol gate_start first_run ∧ gt_Held (watch_after gate_protocol gate_start first_run) = false.
Proof.
  split; [vm_compute; discriminate|].
  destruct (capability_runs_on_grounds _ _ _ (run_traces (process false) (ExecuteCapability (load_step 9)) ([], []))) as [Hr Hh].
  exact (conj Hr (Hh (ex_intro _ _ eq_refl))).
Defined.

Definition step_consumption : consumption :=
  mkConsumption midnight (ag_GrantID (grant_of "set_load_factor" set_load)) 1 9 "set_load_factor" (sha256_hex (text_of set_load)).
Definition two_consumptions : list consumption_event := [Asked step_consumption (Ok true); Asked step_consumption (Ok false)].
Definition the_write (tr : list (exchange GateCall)) : CapabilityInvocation := default hold_account (head (bodies tr)).

Lemma step_consumed : consumed [] two_consumptions (consume step_consumption (consume step_consumption []).2).2.
Proof.
  apply (ConsumedMore [] [Asked step_consumption (Ok true)] (consume step_consumption []).2).
  - apply (ConsumedMore [] [] []); [constructor|]. left. vm_compute. reflexivity.
  - left. vm_compute. reflexivity.
Qed.

Lemma grant_writes_for_one_step_witness :
  iv_StepID (the_write first_run) = 9%Z ∧ iv_StepID (the_write first_run) = iv_StepID (the_write second_run)
  ∧ (iv_Arguments (the_write first_run) = iv_Arguments (the_write second_run)
     ∨ sha256_collision (iv_Arguments (the_write first_run)) (iv_Arguments (the_write second_run))).
Proof.
  assert (acknowledged two_consumptions first_run) as Ha1.
  { apply told_acknowledged. assert (told_consumed first_run = [Asked step_consumption (Ok true)]) as E by (vm_compute; reflexivity).
    rewrite E. intros c Hc%list_elem_of_singleton. rewrite Hc. left. }
  assert (acknowledged two_consumptions second_run) as Ha2.
  { apply told_acknowledged. assert (told_consumed second_run = [Asked step_consumption (Ok false)]) as E by (vm_compute; reflexivity).
    rewrite E. intros c Hc%list_elem_of_singleton. rewrite Hc. right. left. }
  assert (wrote first_run (the_write first_run)) as Hw1 by (apply (wrote_of _ _ (registerCapability "set_load_factor" true true)); vm_compute; reflexivity).
  assert (wrote second_run (the_write second_run)) as Hw2 by (apply (wrote_of _ _ (registerCapability "set_load_factor" true true)); vm_compute; reflexivity).
  assert (iv_AdministratorGrant (the_write first_run) = Some (grant_of "set_load_factor" set_load)) as Hg1 by (vm_compute; reflexivity).
  assert (iv_AdministratorGrant (the_write second_run) = Some (grant_of "set_load_factor" set_load)) as Hg2 by (vm_compute; reflexivity).
  assert (¬ forgotten [] two_consumptions (trim_space (ag_GrantID (grant_of "set_load_factor" set_load)))) as Hkept.
  { intros (before & Hb & _). unfold two_consumptions in Hb. apply elem_of_cons in Hb as [?|Hb%list_elem_of_singleton]; done. }
  destruct (grant_writes_for_one_step [] two_consumptions _ (load_step 9) first_run _ (the_write first_run) (grant_of "set_load_factor" set_load)
      (load_step 9) second_run _ (the_write second_run) (grant_of "set_load_factor" set_load) NoDup_nil_2 step_consumed
      (run_traces (process false) (ExecuteCapability (load_step 9)) ([], [])) Ha1 Hw1 Hg1
      (run_traces (process false) (ExecuteCapability (load_step 9)) (execute false ([], []) (load_step 9)).2) Ha2 Hw2 Hg2
      (eq_refl (trim_space (ag_GrantID (grant_of "set_load_factor" set_load)))) Hkept) as (_ & Hs & _ & Hc).
  split; [vm_compute; reflexivity|]. exact (conj Hs Hc).
Defined.

(** Once the retention has deleted the row, another step consumes the grant. *)
Definition other_consumption : consumption :=
  step_consumption <| cn_Now := (midnight + 240 * hour)%Z |> <| cn_StepID := 10%Z |>.
Example forgotten_grant_is_consumed_anew :
  let t := (consume step_consumption []).2 in
  (consume other_consumption t).1 = Err (AlreadyConsumed (cn_GrantID step_consumption))
  ∧ (consume other_consumption (cleanup_consumptions (midnight + 72 * hour) t)).1 = Ok true.
Proof. split; vm_compute; reflexivity. Qed.
