(* ===== verification/FailoverPolicy.v ===== *)
(** * The decisions of group failover

    The functions of [internal/failover/controller.go] that neither read the store nor
    write to it: the tiers of a policy, the evidence of an outage that a binding carries,
    and whether an observation is evidence about a transition. *)

From S2P Require Import Prelude GoStd JsonText Model ModelHealth ModelFailover.

(** [time.Duration(n) * time.Minute], in 64 bits *)
Definition minutes (n : Z) : duration := wrap64 (n * minute).
Definition seconds (n : Z) : duration := wrap64 (n * second).

Definition maxDuration (left right : duration) : duration := if (right <? left)%Z then left else right.

Fixpoint firstNonEmpty (values : list string) : string :=
  match values with
  | [] => ""
  | value :: values => if bool_decide (trim_space value = "") then firstNonEmpty values else trim_space value
  end.

(** [before(value, now)]: the instant is still ahead. *)
Definition before_now (value : option time) (now : time) : bool :=
  match value with Some value => before now value | None => false end.

Definition normalizedPool (value : string) : string :=
  let value := trim_space value in if bool_decide (value = "") then "默认调度池" else value.

Definition failoverPolicyKey (policy : GroupFailoverPolicy) : string :=
  format_int (gp_SourceID policy) +:+ ":" +:+ trim_space (gp_KeyID policy).

Definition underscored (b : N) : N := if bool_decide (b ∈ [0x2F; 0x5C; 0x20]%N) then 0x5F%N else b.
Definition safeID (value : string) : string :=
  string_of_bytes (take 48 (underscored <$> bytes_of (trim_space value))).

Definition tierLabel (tier : string) : string :=
  if bool_decide (tier = GroupTierMain) then "主分组" else
  if bool_decide (tier = GroupTierBackup) then "备用分组" else
  if bool_decide (tier = GroupTierEmergency) then "紧急分组" else tier.

(** ** Tiers *)

Definition groupForTier (policy : GroupFailoverPolicy) (tier : string) : string :=
  if bool_decide (tier = GroupTierMain) then gp_MainGroupID policy else
  if bool_decide (tier = GroupTierBackup) then gp_BackupGroupID policy else
  if bool_decide (tier = GroupTierEmergency) then gp_EmergencyGroupID policy else "".

(** The group the source lists for the key, or else the one observed last. *)
Definition current_group (policy : GroupFailoverPolicy) (source : UpstreamSource) : string :=
  match list_find (λ rate, kr_ExternalID rate = gp_KeyID policy) (us_KeyRates source) with
  | Some (_, rate) => kr_GroupID rate
  | None => gs_ObservedGroupID (gp_State policy)
  end.

Definition effectiveTier (policy : GroupFailoverPolicy) (source : UpstreamSource) : string :=
  let groupID := current_group policy source in
  if bool_decide (groupID = gp_MainGroupID policy) then GroupTierMain else
  if bool_decide (groupID = gp_BackupGroupID policy) then GroupTierBackup else
  if bool_decide (groupID = gp_EmergencyGroupID policy) then GroupTierEmergency else "".

Definition groupTierEnabled (policy : GroupFailoverPolicy) (tier : string) : bool :=
  if negb (gp_MainEnabled policy) && negb (gp_BackupEnabled policy) && negb (gp_EmergencyEnabled policy)
  then negb (bool_decide (trim_space (groupForTier policy tier) = ""))
  else
    if bool_decide (tier = GroupTierMain) then gp_MainEnabled policy else
    if bool_decide (tier = GroupTierBackup) then gp_BackupEnabled policy else
    if bool_decide (tier = GroupTierEmergency) then gp_EmergencyEnabled policy else false.

Definition tiers : list string := [GroupTierMain; GroupTierBackup; GroupTierEmergency].

Fixpoint tiers_after (current : string) (l : list string) : option (list string) :=
  match l with
  | [] => None
  | tier :: l => if bool_decide (tier = current) then Some l else tiers_after current l
  end.

(** The tier may be moved to. *)
Definition usable_tier (policy : GroupFailoverPolicy) (tier : string) : bool :=
  groupTierEnabled policy tier && negb (bool_decide (trim_space (groupForTier policy tier) = "")).

Fixpoint first_usable (policy : GroupFailoverPolicy) (skipped l : list string) : string * list string :=
  match l with
  | [] => ("", skipped)
  | tier :: l => if usable_tier policy tier then (tier, skipped) else first_usable policy (skipped ++ [tier]) l
  end.

(** The second component is the slice of the tiers passed over; [None] is the nil slice. *)
Definition nextEnabledTier (policy : GroupFailoverPolicy) (current : string) : string * option (list string) :=
  match tiers_after current tiers with
  | None => ("", None)
  | Some rest => let '(tier, skipped) := first_usable policy [] rest in (tier, Some skipped)
  end.

Definition confirmed_policy (policy : GroupFailoverPolicy) : bool :=
  gp_Enabled policy && gp_Confirmed policy && bool_decide (gp_ConfirmedVersion policy = gp_Version policy).

Definition sourceHasGroup (source : UpstreamSource) (groupID : string) : bool :=
  existsb (λ group, bool_decide (ug_ExternalID group = groupID)) (us_Groups source).

Definition hasConfirmedGroupFailure (policies : list GroupFailoverPolicy) : bool :=
  existsb (λ policy, bool_decide (gs_ValidationStatus (gp_State policy) = GroupValidationConfirmedFailed)) policies.

(** The policy whose key is away from its main group, or in the middle of a move. *)
Definition in_progress : list string :=
  [GroupValidationConfirmedFailed; GroupValidationAwaitingEvidence; GroupValidationTransitioning;
   GroupValidationProbing; GroupValidationUncertain].

Definition is_active_policy (sources : gmap Z UpstreamSource) (policy : GroupFailoverPolicy) : bool :=
  let observed := match sources !! gp_SourceID policy with
                  | Some source => effectiveTier policy source
                  | None => ""
                  end in
  let tier := if bool_decide (observed = "") then gs_CurrentTier (gp_State policy) else observed in
  negb (gs_Frozen (gp_State policy)) && confirmed_policy policy
  && (bool_decide (tier = GroupTierBackup) || bool_decide (tier = GroupTierEmergency)
      || bool_decide (gs_ValidationStatus (gp_State policy) ∈ in_progress)).

Definition activeFixedPolicy (policies : list GroupFailoverPolicy) (sources : gmap Z UpstreamSource) : string :=
  match filter (λ policy, is_active_policy sources policy = true) policies with
  | policy :: _ => failoverPolicyKey policy
  | [] => ""
  end.

Definition bindingsForPool (bindings : list ResolvedBinding) (pool : string) (policies : list GroupFailoverPolicy)
    (sourcePoolByURL : gmap string string) : list ResolvedBinding :=
  let accountIDs := policies ≫= gp_AccountIDs in
  filter (λ binding, acc_ID (rb_Account binding) ∈ accountIDs
      ∨ normalizedPool (default "" (sourcePoolByURL !! rb_NormalizedEndpoint binding)) = pool) bindings.

Definition monitorIDsForAccounts (bindings : list ResolvedBinding) (accountIDs : list Z) : list Z :=
  let listed binding :=
    match rb_Monitor binding with
    | Some monitor =>
        if bool_decide (acc_ID (rb_Account binding) ∈ accountIDs) && (0 <? mon_ID monitor)%Z
        then [mon_ID monitor] else []
    | None => []
    end in
  sort_slice Z.ltb (foldl (λ seen id, if bool_decide (id ∈ seen) then seen else seen ++ [id]) [] (bindings ≫= listed)).

(** ** Evidence of an outage *)

Definition hard_status (status : string) : bool :=
  equal_fold status StatusFailed || equal_fold status StatusError.

Definition hasDistinctMonitorHardStreak (binding : ResolvedBinding) (now : time) (threshold : Z) (maxAge : duration) : bool :=
  match rb_Monitor binding with
  | Some monitor =>
      match mon_LastCheckedAt monitor, ms_LastCheckedAt (rb_MonitorState binding) with
      | Some checkedAt, Some stateCheckedAt =>
          mon_Enabled monitor
          && negb (after checkedAt now || (maxAge <? sub_time now checkedAt)%Z || negb (checkedAt =? stateCheckedAt)%Z)
          && hard_status (mon_PrimaryStatus monitor) && hard_status (ms_LastStatus (rb_MonitorState binding))
          && (threshold <=? ms_UnhealthyStreak (rb_MonitorState binding))%Z
      | _, _ => false
      end
  | None => false
  end.

(** ** Evidence after a transition *)

(** An identifier the observation carries must be that of the transition. *)
Definition evidenceMatchesValidation (item : GroupValidationEvidence) (state : GroupFailoverState) : bool :=
  negb ((0 <? ge_TransitionID item)%Z && negb (ge_TransitionID item =? gs_ValidationTransitionID state)%Z)
  && negb ((0 <? ge_SourceID item)%Z && negb (ge_SourceID item =? gs_SourceID state)%Z)
  && (bool_decide (trim_space (ge_KeyID item) = "") || bool_decide (trim_space (ge_KeyID item) = trim_space (gs_KeyID state)))
  && (bool_decide (trim_space (ge_TargetTier item) = "")
      || bool_decide (trim_space (ge_TargetTier item) = gs_ValidationTargetTier state))
  && (bool_decide (trim_space (ge_TargetGroupID item) = "")
      || bool_decide (trim_space (ge_TargetGroupID item) = gs_ValidationTargetGroupID state)).

(** When what was observed happened, where that can be told. *)
Definition evidenceOccurrenceAt (item : GroupValidationEvidence) (state : GroupFailoverState) : option time :=
  let observed := ge_ObservedAt item in
  let otherwise :=
    if bool_decide (ge_TimeBasis item = EvidenceTimeBasisMonitorRequestStart)
       || bool_decide (ge_TimeBasis item = EvidenceTimeBasisRequestStart)
    then if is_zero_time observed then None else Some observed
    else if bool_decide (ge_TimeBasis item = EvidenceTimeBasisCompletion)
    then match gs_SwitchVerifiedAt state with
         | Some verified =>
             if negb (bool_decide (ge_Source item = "monitor")) || is_zero_time observed then None else
             let safeBoundary := (verified + (GroupValidationPropagationDelay + GroupValidationMonitorRequestTimeout))%Z in
             if before observed safeBoundary then None else Some observed
         | None => None
         end
    else None in
  match ge_RequestStartedAt item with
  | Some started => if is_zero_time started then otherwise else Some started
  | None => otherwise
  end.

Section with_unicode.
Context `{UnicodeTables}.

Definition keyRateActive (status : string) : bool :=
  bool_decide (to_lower (trim_space status) ∈ ["1"; "active"; "enabled"; "normal"]).

Definition sourceHasKey (source : UpstreamSource) (keyID : string) : bool :=
  existsb (λ rate, bool_decide (kr_ExternalID rate = keyID) && keyRateActive (kr_Status rate)) (us_KeyRates source).

Definition no_channel_reasons : list string :=
  ["no_available_channel"; "no_channel_available"; "no_schedulable_channel"; "无可用渠道"; "没有可用渠道"].
Definition hasExplicitNoChannelReason (decision : option HealthDecision) : bool :=
  match decision with
  | Some decision => existsb (λ reason, bool_decide (to_lower (trim_space reason) ∈ no_channel_reasons)) (hd_ReasonCodes decision)
  | None => false
  end.

Definition error_count (window : AgentWindowStats) (class : string) : Z :=
  default 0%Z (ws_ErrorCategoryCounts window !! class).
Definition allowedHardErrors (binding : ResolvedBinding) (window : AgentWindowStats) : Z :=
  (error_count window ErrorClassInfrastructure + error_count window ErrorClassCapacity
   + if hasExplicitNoChannelReason (rb_Decision binding) then error_count window ErrorClassModelCapability else 0)%Z.

Inductive verdict := Success | Failed.
Definition classifyPostSwitchEvidence (item : GroupValidationEvidence) : option verdict :=
  if bool_decide (ge_Source item = "monitor") then
    let status := to_lower (trim_space (ge_Status item)) in
    if bool_decide (status = StatusOperational) then Some Success else
    if bool_decide (status = StatusFailed) || bool_decide (status = StatusError) then Some Failed else None
  else if equal_fold (ge_Status item) "success" then Some Success
  else if negb (equal_fold (ge_Status item) "error") then None
  else
    let class := to_lower (trim_space (ge_ErrorClass item)) in
    if bool_decide (class = ErrorClassInfrastructure) || bool_decide (class = ErrorClassCapacity) then Some Failed else None.

(** The members of the object are in the order of their names. *)
Definition validationDetails (state : GroupFailoverState) : string :=
  json_object [
    ("failed_evidence", format_int (gs_FailedEvidenceCount state)); ("key_id", json_string (gs_KeyID state));
    ("last_evidence_id", json_string (gs_LastEvidenceID state));
    ("last_evidence_source", json_string (gs_LastEvidenceSource state));
    ("reason_code", json_string (gs_LastError state)); ("source_id", format_int (gs_SourceID state));
    ("successful_evidence", format_int (gs_SuccessfulEvidenceCount state));
    ("target_group_id", json_string (gs_ValidationTargetGroupID state));
    ("target_level", json_string (gs_ValidationTargetTier state));
    ("transition_id", format_int (gs_ValidationTransitionID state));
    ("validation_status", json_string (gs_ValidationStatus state))].
End with_unicode.
