(* ===== verification/FailoverController.v ===== *)
(** * The failover controller

    [internal/failover/controller.go]: a cycle assesses every pool and moves at most a
    budget of keys one tier down; committed telemetry, or a probe, confirms or refutes a
    move. The methods are programs in the sense of [Requests] over the controller's
    store, snapshots, upstream manager, telemetry and clock; the map of outages, which
    only the running cycle touches, is passed along. *)

From S2P Require Import Prelude GoStd Float JsonText Model ModelHealth ModelFailover JsonRecords Requests MutationError FailoverPolicy.

Record PostSwitchProbeRequest := mkPostSwitchProbeRequest {
  pq_Policy : GroupFailoverPolicy;
  pq_TransitionID : Z;
  pq_SourceID : Z;
  pq_KeyID : string;
  pq_TargetTier : string;
  pq_TargetGroupID : string;
  pq_RequestStartedAt : time;
}.

Record PostSwitchProbeResult := mkPostSwitchProbeResult {
  pr_TransitionID : Z;
  pr_SourceID : Z;
  pr_KeyID : string;
  pr_TargetTier : string;
  pr_TargetGroupID : string;
  pr_RequestStartedAt : time;
  pr_Status : string;
  pr_EvidenceID : string;
  pr_ObservedAt : time;
  pr_ReasonCode : string;
}.

(** The interfaces [Store], [evidenceStore], [SnapshotProvider], [UpstreamManager],
    [TelemetryStatus] and [PostSwitchProbe], the clock, and the fields goroutines share:
    the two flags, the wake channel, the time of the last run and its error. *)
Inductive Request : Type → Type :=
  | ListGroupFailoverPolicies (sourceID : Z) : Request (result failure (list GroupFailoverPolicy))
  | SaveGroupFailoverState (state : GroupFailoverState) : Request (result failure unit)
  | CompareAndSaveGroupFailoverState (expected next : GroupFailoverState) : Request (result failure bool)
  | CountCompletedGroupTierTransitions (sourceID : Z) (keyID : string) (since : time) : Request (result failure Z)
  | GetAgentWindowStats (accountID : Z) (since until : time) (label : string) : Request (result failure AgentWindowStats)
  | GetSettings : Request (result failure Settings)
  | AddEvent (event : Event) : Request (result failure unit)
  | ListGroupValidationEvidence (monitorIDs accountIDs : list Z) (monitorAfter trafficAfter : Z)
      : Request (result failure (list GroupValidationEvidence))
  | GetSnapshot : Request Snapshot
  | ListSources : Request (result failure (list UpstreamSource))
  | TransitionGroupTier (request : GroupTierTransitionRequest) : Request (GroupTierTransition * option failure)
  | GetTelemetryStatus : Request (option time * string)
  | Probe (request : PostSwitchProbeRequest) : Request (PostSwitchProbeResult * option failure)
  | Now : Request time
  | SwapRunning (value : bool) : Request bool       (* running, its former value *)
  | SwapEvidenceRun (value : bool) : Request bool
  | SetLastRunAt (value : time) : Request unit
  | SwapLastError (value : string) : Request string
  | WakeController : Request unit.
Abbreviation prog := (Requests.prog Request).

(** How the controller was constructed. *)
Record Controller := mkController {
  c_interval : duration;
  c_evidence : bool;      (* the store is an [evidenceStore] *)
  c_probe : bool;         (* a probe is configured *)
}.

Definition NewController (interval : duration) (evidence probe : bool) : Controller :=
  mkController (if (interval <? 10 * second)%Z then (50 * second)%Z else interval) evidence probe.

Section controller.
Context `{UnicodeTables, JsonFloats} (c : Controller).

(** [record]: an event without a time is given the clock's; its failure is logged. *)
Definition record (event : Event) : prog unit :=
  event ← (if is_zero_time (ev_CreatedAt event)
           then now ← call Now; mret (event <| ev_CreatedAt := now |>) else mret event);
  _ ← call (AddEvent event);
  mret ().

Definition failover_event (kind severity message actor details : string) : Event :=
  mkEvent 0 0 0 kind severity None None message "" "" (DetailsText details) actor zero_time.

(** ** Assessing a pool *)

Record poolAssessment := mkPoolAssessment {
  pa_Outage : bool;
  pa_ReasonCode : string;
  pa_Evidence : string;
  pa_Samples : Z;
  pa_Eligible : Z;
  pa_Success : Z;
  pa_HardErrors : Z;
}.
Definition no_assessment : poolAssessment := mkPoolAssessment false "" "" 0 0 0 0.

Record trafficAggregate := mkTrafficAggregate { ta_samples : Z; ta_hard : Z }.

Definition aggregateTraffic (bindings : list ResolvedBinding) (since until : time) (label : string)
    : prog (flow trafficAggregate (trafficAggregate * failure)) :=
  for_each (λ binding result,
    window ← call (GetAgentWindowStats (acc_ID (rb_Account binding)) since until label);
    mret match window with
         | Err e => Return (result, e)
         | Ok window => Next (mkTrafficAggregate (ta_samples result + ws_SampleCount window)
                                (ta_hard result + allowedHardErrors binding window))
         end) bindings (mkTrafficAggregate 0 0).

(** The bisection: [n] halvings of the span in which the tail begins. *)
Fixpoint narrow_tail (bindings : list ResolvedBinding) (now : time) (required : Z) (n : nat) (low high : time)
    (best : trafficAggregate) : prog (flow trafficAggregate failure) :=
  match n with
  | O => mret (Next best)
  | S n =>
      let mid := (low + Z.quot (sub_time high low) 2)%Z in
      tail ← aggregateTraffic bindings mid (now + 1)%Z "hard_tail";
      match tail with
      | Return (_, e) => mret (Return e)
      | Next tail =>
          if (required <=? ta_samples tail)%Z then narrow_tail bindings now required n mid high tail
          else narrow_tail bindings now required n low mid best
      end
  end.

Definition hasConsecutiveHardTraffic (bindings : list ResolvedBinding) (now : time) (settings : Settings)
    : prog (result failure bool) :=
  let required := st_FailoverConsecutiveHardErrors settings in
  let start := (now - minutes (st_FailoverTrafficWindowMinutes settings))%Z in
  best ← aggregateTraffic bindings start (now + 1)%Z "hard_tail";
  match best with
  | Return (_, e) => mret (Err e)
  | Next best =>
      if (ta_samples best <? required)%Z || (ta_hard best <? required)%Z then mret (Ok false) else
      best ← narrow_tail bindings now required 12 start now best;
      mret match best with
           | Return e => Err e
           | Next best => Ok ((required <=? ta_samples best)%Z && (ta_samples best =? ta_hard best)%Z)
           end
  end.

(** What the loop over the bindings gathers. *)
Record pool_scan := mkPoolScan {
  sc_result : poolAssessment;
  sc_hardThree : bool;
  sc_hardFive : bool;
  sc_allStopped : bool;
  sc_allDisabled : bool;
}.

Definition scan_binding (now : time) (settings : Settings) (binding : ResolvedBinding) (s : pool_scan)
    : prog (flow pool_scan (poolAssessment * failure)) :=
  let channelActive := equal_fold (trim_space (acc_Status (rb_Account binding))) "active" in
  let maxAge := minutes (st_FailoverAccountFreshMinutes settings) in
  let s := mkPoolScan (sc_result s)
    (sc_hardThree s && hasDistinctMonitorHardStreak binding now (st_FailoverMonitorFailures settings) maxAge)
    (sc_hardFive s && hasDistinctMonitorHardStreak binding now (st_FailoverNoTrafficFailures settings) maxAge)
    (if acc_Schedulable (rb_Account binding) && channelActive then false else sc_allStopped s)
    (if channelActive then false else sc_allDisabled s) in
  let windowMinutes := st_FailoverTrafficWindowMinutes settings in
  window ← call (GetAgentWindowStats (acc_ID (rb_Account binding)) (now - minutes windowMinutes)%Z (now + 1)%Z
                   (format_int windowMinutes +:+ "m"));
  mret match window with
       | Err e => Return (sc_result s, e)
       | Ok window =>
           let result := sc_result s in
           Next (s <| sc_result := result
             <| pa_Samples := (pa_Samples result + ws_SampleCount window)%Z |>
             <| pa_Eligible := (pa_Eligible result + ws_EligibleCount window)%Z |>
             <| pa_Success := (pa_Success result + ws_SuccessCount window)%Z |>
             <| pa_HardErrors := (pa_HardErrors result + allowedHardErrors binding window)%Z |> |>)
       end.

Definition outage_evidence (bindings : list ResolvedBinding) (settings : Settings) (result : poolAssessment)
    (successRate : float64) (consecutiveHard allStopped noTrafficFallback : bool) : string :=
  json_object [
    ("all_accounts_unschedulable", json_bool allStopped); ("bindings", format_int (Z.of_nat (length bindings)));
    ("consecutive_hard_traffic", json_bool consecutiveHard); ("eligible_requests", format_int (pa_Eligible result));
    ("hard_errors", format_int (pa_HardErrors result)); ("no_traffic_fallback", json_bool noTrafficFallback);
    ("success_rate", json_float successRate); ("successful_requests", format_int (pa_Success result));
    ("traffic_samples", format_int (pa_Samples result));
    ("traffic_window_minutes", format_int (st_FailoverTrafficWindowMinutes settings))].

Definition success_rate (result : poolAssessment) : float64 :=
  if (0 <? pa_Eligible result)%Z
  then (of_int (pa_Success result) * of_int 100 / of_int (pa_Eligible result))%float else of_int 0.

(** Failed requests, all of them allowed hard errors, above the threshold. *)
Definition rate_hard (settings : Settings) (result : poolAssessment) : bool :=
  let failedEligible := (pa_Eligible result - pa_Success result)%Z in
  (st_FailoverTrafficMinSamples settings <=? pa_Eligible result)%Z
  && flt (success_rate result) (of_int (st_FailoverTrafficSuccessBelow settings))
  && (0 <? failedEligible)%Z && (failedEligible <=? pa_HardErrors result)%Z.

Definition assessPool (bindings : list ResolvedBinding) (now : time) (settings : Settings)
    : prog (poolAssessment * option failure) :=
  if bool_decide (bindings = []) then mret (no_assessment <| pa_ReasonCode := "group_empty" |>, None) else
  scan ← for_each (scan_binding now settings) bindings (mkPoolScan no_assessment true true true true);
  match scan with
  | Return (result, e) => mret (result, Some e)
  | Next s =>
      let result := sc_result s in
      if sc_allDisabled s
      then mret (result <| pa_Outage := true |> <| pa_ReasonCode := "all_channels_disabled" |>, None)
      else if negb (sc_hardThree s)
      then mret (if sc_allStopped s
                 then result <| pa_Outage := true |> <| pa_ReasonCode := "no_schedulable_channels" |>
                 else result <| pa_ReasonCode := "evidence_insufficient" |>, None)
      else
      consecutive ← hasConsecutiveHardTraffic bindings now settings;
      match consecutive with
      | Err e => mret (result, Some e)
      | Ok consecutiveHard =>
          let trafficHard := sc_allStopped s && (rate_hard settings result || consecutiveHard) in
          let noTrafficFallback := (pa_Samples result =? 0)%Z && sc_hardFive s && sc_allStopped s in
          let outage := trafficHard || sc_allStopped s in
          let result := result <| pa_Outage := outage |>
            <| pa_ReasonCode := if trafficHard then "all_channels_failed" else
                                if sc_allStopped s then "no_schedulable_channels" else "evidence_insufficient" |> in
          mret (if outage
                then result <| pa_Evidence := outage_evidence bindings settings result (success_rate result)
                                 consecutiveHard (sc_allStopped s) noTrafficFallback |>
                else result, None)
      end
  end.

(** ** Handling an outage *)

Definition transition_key (pool target : string) (policy : GroupFailoverPolicy) (now : time) : string :=
  "fallback-" +:+ safeID pool +:+ "-" +:+ format_int (gp_SourceID policy) +:+ "-" +:+ safeID (gp_KeyID policy) +:+ "-"
  +:+ target +:+ "-" +:+ format_int (Z.quot (now / second) (Z.quot (c_interval c) second)).

Definition transition_request (pool target : string) (skipped : option (list string)) (policy : GroupFailoverPolicy)
    (assessment : poolAssessment) (now : time) (dryRun : bool) : GroupTierTransitionRequest :=
  {| tr_SourceID := gp_SourceID policy; tr_KeyID := gp_KeyID policy; tr_TargetTier := target;
     tr_IdempotencyKey := transition_key pool target policy now; tr_Actor := "system:failover";
     tr_Producer := "deterministic_failover"; tr_Authority := "deterministic_safety";
     tr_Reason := "当前固定层级已确认失败，切换到" +:+ tierLabel target;
     tr_Evidence := json_object [("assessment", json_string (pa_Evidence assessment));
                                 ("reason_code", json_string "fixed_next_level");
                                 ("skipped_levels", json_pointer json_array skipped)];
     tr_SnapshotVersion := ""; tr_Trigger := "fixed_next_level"; tr_PacketID := 0; tr_PacketHash := "";
     tr_RunID := 0; tr_GoalID := 0; tr_StepID := 0; tr_Manual := false; tr_DryRun := dryRun; tr_ExpectedPool := "";
     tr_ExpectedFromTier := ""; tr_EvidenceCutoffAt := None; tr_AutomationLeaseHeld := false |}.

(** The policy and its source allow an automatic move now. *)
Definition source_fit (source : UpstreamSource) (now : time) (settings : Settings) : bool :=
  us_Enabled source && bool_decide (us_CredentialMode source = "password") && negb (us_MigrationRequired source)
  && negb (us_BalanceLocked source)
  && match us_Balance source with Some balance => negb (flt balance (us_PauseBelow source)) | None => false end
  && match us_LastSuccessAt source with
     | Some success => (sub_time now success <=? minutes (st_FailoverGroupFreshMinutes settings))%Z
     | None => false
     end.

Definition policy_fit (policy : GroupFailoverPolicy) (now : time) : bool :=
  confirmed_policy policy && negb (bool_decide (gp_AccountIDs policy = []))
  && negb (gs_Frozen (gp_State policy)) && negb (before_now (gs_ManualHoldUntil (gp_State policy)) now)
  && negb (before_now (gs_ManualOverrideUntil (gp_State policy)) now).

(** A move of the key is under way, or nothing is left to try. *)
Definition unsettled : list string :=
  [GroupValidationTransitioning; GroupValidationAwaitingEvidence; GroupValidationProbing; GroupValidationUncertain;
   GroupValidationExhausted].

Definition set_error {R S} (r : result failure R) (k : prog (flow S (bool * option failure)))
    : prog (flow S (bool * option failure)) :=
  match r with
  | Err e => mret (Return (false, Some e))
  | Ok _ => k
  end.

(** The state is saved as failed first, where it was not. *)
Definition confirm_failed (state : GroupFailoverState) (assessment : poolAssessment)
    (k : GroupFailoverState → prog (flow unit (bool * option failure))) : prog (flow unit (bool * option failure)) :=
  if bool_decide (gs_ValidationStatus state = GroupValidationConfirmedFailed) then k state else
  if negb (pa_Outage assessment) then mret (Next ()) else
  let state := state <| gs_ValidationStatus := GroupValidationConfirmedFailed |>
    <| gs_LastError := firstNonEmpty [pa_ReasonCode assessment; "current_level_confirmed_failed"] |> in
  saved ← call (SaveGroupFailoverState state);
  set_error saved (k state).

(** No tier is left. *)
Definition exhaust (policy : GroupFailoverPolicy) (source : UpstreamSource) (state : GroupFailoverState)
    (current : string) (skipped : option (list string)) : prog (flow unit (bool * option failure)) :=
  let state := state <| gs_ValidationStatus := GroupValidationExhausted |> <| gs_Frozen := true |>
    <| gs_FreezeReason := "fixed_failover_levels_exhausted" |> <| gs_LastError := "fixed_failover_levels_exhausted" |> in
  saved ← call (SaveGroupFailoverState state);
  set_error saved (
    record (failover_event "group_failover_exhausted" "critical"
      (us_Name source +:+ " 的已配置固定救灾层级均已确认失败") "system"
      (json_object [("current_level", json_string current); ("key_id", json_string (gp_KeyID policy));
                    ("reason_code", json_string "fixed_failover_levels_exhausted");
                    ("skipped_levels", json_pointer json_array skipped); ("source_id", format_int (gp_SourceID policy))]));;
    mret (Return (false, None))).

(** The move itself, within the limits on how many there may be. *)
Definition attempt (pool : string) (policy : GroupFailoverPolicy) (source : UpstreamSource) (state : GroupFailoverState)
    (target : string) (skipped : option (list string)) (assessment : poolAssessment) (now : time) (dryRun : bool)
    (settings : Settings) : prog (flow unit (bool * option failure)) :=
  count30 ← call (CountCompletedGroupTierTransitions (gp_SourceID policy) (gp_KeyID policy)
                    (now - minutes (st_FailoverShortLimitWindowMinutes settings))%Z);
  match count30 with Err e => mret (Return (false, Some e)) | Ok count30 =>
  count6h ← call (CountCompletedGroupTierTransitions (gp_SourceID policy) (gp_KeyID policy)
                    (now - minutes (st_FailoverLongLimitWindowMinutes settings))%Z);
  match count6h with Err e => mret (Return (false, Some e)) | Ok count6h =>
  if (st_FailoverShortLimitCount settings <=? count30)%Z || (st_FailoverLongLimitCount settings <=? count6h)%Z then
    _ ← call (SaveGroupFailoverState (state <| gs_Frozen := true |> <| gs_FreezeReason := "自动切换次数超过安全上限" |>));
    mret (Next ())
  else
  let groupID := groupForTier policy target in
  if bool_decide (groupID = "") || negb (sourceHasGroup source groupID) || negb (sourceHasKey source (gp_KeyID policy)) then
    _ ← call (SaveGroupFailoverState (state <| gs_ValidationStatus := GroupValidationUncertain |>
                                            <| gs_LastError := "configuration_invalid" |>));
    mret (Return (false, Some (NewFailure "固定下一级分组配置无效")))
  else
  reply ← call (TransitionGroupTier (transition_request pool target skipped policy assessment now dryRun));
  mret (Return (true, reply.2))
  end end.

Definition handle_policy (pool : string) (activePolicy : string) (sources : gmap Z UpstreamSource)
    (assessment : poolAssessment) (now : time) (dryRun : bool) (settings : Settings) (policy : GroupFailoverPolicy)
    (_ : unit) : prog (flow unit (bool * option failure)) :=
  if negb (bool_decide (activePolicy = "")) && negb (bool_decide (failoverPolicyKey policy = activePolicy))
  then mret (Next ()) else
  match sources !! gp_SourceID policy with
  | None => mret (Next ())
  | Some source =>
      if negb (policy_fit policy now && source_fit source now settings) then mret (Next ()) else
      if bool_decide (gs_ValidationStatus (gp_State policy) ∈ unsettled) then mret (Next ()) else
      let current := effectiveTier policy source in
      confirm_failed (gp_State policy) assessment (λ state,
        let '(target, skipped) := nextEnabledTier policy current in
        if bool_decide (target = "") then exhaust policy source state current skipped else
        if before_now (gs_CooldownUntil state) now
           && negb (bool_decide (current = GroupTierBackup) && bool_decide (target = GroupTierEmergency))
        then mret (Next ())
        else attempt pool policy source state target skipped assessment now dryRun settings)
  end.

(** Whether a transition was requested, and the error that ended the handling. *)
Definition handleOutage (pool : string) (policies : list GroupFailoverPolicy) (sources : gmap Z UpstreamSource)
    (assessment : poolAssessment) (now : time) (dryRun : bool) (settings : Settings) : prog (bool * option failure) :=
  result ← for_each (handle_policy pool (activeFixedPolicy policies sources) sources assessment now dryRun settings)
             policies ();
  mret match result with Next _ => (false, None) | Return r => r end.

(** ** A cycle *)

(** What the cycle carries from pool to pool. *)
Record cycle := mkCycle {
  cy_outageSince : gmap string time;
  cy_mutations : Z;
  cy_errors : list failure;
}.

Definition pool_event (kind severity message pool : string) (details : list (string * string)) : Event :=
  failover_event kind severity message "system" (json_object (("pool", quote pool) :: details)).

(** How long an outage must last before the cycle moves a key. *)
Definition agent_grace (settings : Settings) : duration :=
  maxDuration (wrap64 (2 * c_interval c)) (seconds (st_FailoverAgentGraceSeconds settings)).

(** The plan of a cycle: what it read, and is the same for all of its pools. *)
Record plan := mkPlan {
  pn_now : time;
  pn_settings : Settings;
  pn_dryRun : bool;
  pn_budget : Z;
  pn_snapshot : Snapshot;
  pn_sourceByID : gmap Z UpstreamSource;
  pn_sourcePoolByURL : gmap string string;
  pn_poolPolicies : gmap string (list GroupFailoverPolicy);
}.

Definition pool_policies (policies : list GroupFailoverPolicy) (sourceByID : gmap Z UpstreamSource)
    : gmap string (list GroupFailoverPolicy) :=
  foldl (λ pools policy,
    match sourceByID !! gp_SourceID policy with
    | None => pools
    | Some source =>
        let pool := normalizedPool (firstNonEmpty [gp_Pool policy; us_RoutingPool source]) in
        <[pool := default [] (pools !! pool) ++ [policy <| gp_Pool := pool |>]]> pools
    end) ∅ policies.

Definition make_plan (now : time) (settings : Settings) (snapshot : Snapshot) (sources : list UpstreamSource)
    (policies : list GroupFailoverPolicy) : plan :=
  let sourceByID := foldl (λ m source, <[us_ID source := source]> m) ∅ sources in
  {| pn_now := now; pn_settings := settings;
     pn_dryRun := negb (bool_decide (st_FailoverMode settings = FailoverModeControl));
     pn_budget := if (st_FailoverMutationBudget settings <? 1)%Z then 1%Z else st_FailoverMutationBudget settings;
     pn_snapshot := snapshot; pn_sourceByID := sourceByID;
     pn_sourcePoolByURL := foldl (λ m source, <[us_NormalizedURL source := normalizedPool (us_RoutingPool source)]> m) ∅ sources;
     pn_poolPolicies := pool_policies policies sourceByID |}.

(** The outage is handled once it was confirmed by evidence about a move, or has lasted. *)
Definition act_on_outage (p : plan) (pool : string) (policies : list GroupFailoverPolicy) (assessment : poolAssessment)
    (s : cycle) : prog cycle :=
  let budgetAvailable := (cy_mutations s <? pn_budget p)%Z in
  handled ← handleOutage pool policies (pn_sourceByID p) assessment (pn_now p) (pn_dryRun p || negb budgetAvailable)
              (pn_settings p);
  match handled with
  | (_, Some e) =>
      mret (s <| cy_errors := cy_errors s ++ [WrapFailure ("处理倍率池 " +:+ pool +:+ " 断流: ") e] |>)
  | (false, None) => mret s
  | (true, None) =>
      if budgetAvailable && negb (pn_dryRun p) then mret (s <| cy_mutations := (cy_mutations s + 1)%Z |>)
      else if negb (pn_dryRun p) then
        record (pool_event "group_failover_mutation_deferred" "warning" "本轮分组写入预算已用尽，候选动作已延后" pool
          [("reason_code", json_string "mutation_budget_exhausted"); ("budget", format_int (pn_budget p))]);;
        mret s
      else mret s
  end.

Definition run_pool (p : plan) (pool : string) (s : cycle) : prog cycle :=
  let policies := default [] (pn_poolPolicies p !! pool) in
  let bindings := bindingsForPool (sn_Bindings (pn_snapshot p)) pool policies (pn_sourcePoolByURL p) in
  assessed ← assessPool bindings (pn_now p) (pn_settings p);
  match assessed with
  | (_, Some e) =>
      record (pool_event "group_failover_pool_assessment_failed" "error" "调度池救灾评估失败，已继续处理其他池" pool
        [("reason_code", json_string "pool_assessment_failed")]);;
      mret (s <| cy_errors := cy_errors s ++ [WrapFailure ("评估倍率池 " +:+ pool +:+ ": ") e] |>)
  | (assessment, None) =>
      if hasConfirmedGroupFailure policies
      then act_on_outage p pool policies assessment (s <| cy_outageSince := delete pool (cy_outageSince s) |>)
      else if negb (pa_Outage assessment) then mret (s <| cy_outageSince := delete pool (cy_outageSince s) |>)
      else
      let since := default zero_time (cy_outageSince s !! pool) in
      if is_zero_time since then
        record (failover_event "group_failover_outage_confirmed" "critical" ("调度池 " +:+ pool +:+ " 已确认没有可用渠道")
          "system" (pa_Evidence assessment));;
        mret (s <| cy_outageSince := <[pool := pn_now p]> (cy_outageSince s) |>)
      else if (sub_time (pn_now p) since <? agent_grace (pn_settings p))%Z then mret s
      else act_on_outage p pool policies assessment s
  end.

Definition stale_snapshot (snapshot : Snapshot) (now : time) (maxAge : duration) : bool :=
  match sn_LastSyncAt snapshot with
  | None => true
  | Some at_ => (maxAge <? sub_time now at_)%Z || negb (bool_decide (sn_LastSyncError snapshot = ""))
  end.
Definition stale_telemetry (status : option time * string) (now : time) (maxAge : duration) : bool :=
  match status.1 with
  | None => true
  | Some at_ => (maxAge <? sub_time now at_)%Z || negb (bool_decide (status.2 = ""))
  end.

Definition join (failures : list failure) : option failure :=
  match failures with [] => None | _ => Some (JoinFailures failures) end.

(** ** Evidence after a move *)

Definition awaiting : list string :=
  [GroupValidationAwaitingEvidence; GroupValidationProbing; GroupValidationUncertain].

(** The observation is of the transition the state waits for, in time, and says something. *)
Definition attributable (settings : Settings) (now : time) (item : GroupValidationEvidence) (state : GroupFailoverState)
    : option verdict :=
  if negb (evidenceMatchesValidation item state) || is_zero_time (ge_ObservedAt item) || after (ge_ObservedAt item) now
     || (minutes (st_FailoverAccountFreshMinutes settings) <? sub_time now (ge_ObservedAt item))%Z then None else
  match evidenceOccurrenceAt item state, gs_ValidationNotBefore state with
  | Some occurrenceAt, Some notBefore =>
      if before occurrenceAt notBefore || after occurrenceAt now then None else classifyPostSwitchEvidence item
  | _, _ => None
  end.

Definition advance_cursors (item : GroupValidationEvidence) (p : GroupFailoverState * bool) : GroupFailoverState * bool :=
  let p := if bool_decide (ge_Source item = "monitor") && (gs_MonitorEvidenceCursor p.1 <? ge_ID item)%Z
           then (p.1 <| gs_MonitorEvidenceCursor := ge_ID item |>, true) else p in
  if bool_decide (ge_Source item = "traffic") && (gs_TrafficEvidenceCursor p.1 <? ge_ID item)%Z
  then (p.1 <| gs_TrafficEvidenceCursor := ge_ID item |>, true) else p.

Definition note_evidence (item : GroupValidationEvidence) (state : GroupFailoverState) : GroupFailoverState :=
  state <| gs_LastEvidenceID := ge_Source item +:+ ":" +:+ format_int (ge_ID item) |>
    <| gs_LastEvidenceSource := ge_Source item |>
    <| gs_LastEvidenceReason := firstNonEmpty [ge_ReasonCode item; ge_ErrorClass item; ge_Status item] |>
    <| gs_LastEvidenceAt := Some (ge_ObservedAt item) |>.

Definition count_success (item : GroupValidationEvidence) (state : GroupFailoverState) : GroupFailoverState :=
  let state := state <| gs_SuccessfulEvidenceCount := (gs_SuccessfulEvidenceCount state + 1)%Z |> in
  if (GroupValidationMinimumSuccesses <=? gs_SuccessfulEvidenceCount state)%Z
  then state <| gs_ValidationStatus := GroupValidationConfirmedHealthy |>
         <| gs_LastConfirmedAt := Some (ge_ObservedAt item) |> <| gs_LastError := "" |>
  else state.

Definition count_failure (settings : Settings) (state : GroupFailoverState) : GroupFailoverState :=
  let state := state <| gs_FailedEvidenceCount := (gs_FailedEvidenceCount state + 1)%Z |> in
  if (st_FailoverMonitorFailures settings <=? gs_FailedEvidenceCount state)%Z
  then state <| gs_ValidationStatus := GroupValidationConfirmedFailed |> <| gs_LastError := "post_switch_failure_threshold" |>
  else state.

(** An iteration of the loop over the observations: the state, and whether it changed. *)
Definition absorb (settings : Settings) (now : time) (p : GroupFailoverState * bool) (item : GroupValidationEvidence)
    : GroupFailoverState * bool :=
  let p := advance_cursors item p in
  match attributable settings now item p.1 with
  | None => p
  | Some Success => (count_success item (note_evidence item p.1), true)
  | Some Failed => (count_failure settings (note_evidence item p.1), true)
  end.

Definition past_deadline (now : time) (state : GroupFailoverState) : bool :=
  negb (bool_decide (gs_ValidationStatus state = GroupValidationConfirmedHealthy))
  && negb (bool_decide (gs_ValidationStatus state = GroupValidationConfirmedFailed))
  && match gs_EvidenceDeadline state with Some deadline => negb (before now deadline) | None => false end.

Definition judge (settings : Settings) (now : time) (items : list GroupValidationEvidence) (state : GroupFailoverState)
    : GroupFailoverState * bool :=
  let p := foldl (absorb settings now) (state, false) items in
  if past_deadline now p.1
  then (p.1 <| gs_ValidationStatus := GroupValidationUncertain |> <| gs_LastError := "evidence_timeout" |>, true)
  else p.

Definition validation_event (kind severity message : string) (state : GroupFailoverState) : Event :=
  failover_event kind severity message "system:telemetry" (validationDetails state).

Definition report_validation (state : GroupFailoverState) : prog unit :=
  if bool_decide (gs_ValidationStatus state = GroupValidationConfirmedHealthy) then
    record (validation_event "group_failover_validation_healthy" "info" "固定层级已由切换后新证据确认可用" state)
  else if bool_decide (gs_ValidationStatus state = GroupValidationConfirmedFailed) then
    record (validation_event "group_failover_validation_failed" "critical" "固定层级已由切换后新证据确认失败" state);;
    call WakeController
  else if bool_decide (gs_ValidationStatus state = GroupValidationUncertain) then
    record (validation_event "group_failover_validation_uncertain" "warning" "切换后证据超时或归属不明确，未自动推进" state)
  else mret ().

Definition process_policy (settings : Settings) (now : time) (snapshot : Snapshot) (policy : GroupFailoverPolicy)
    (errors : list failure) : prog (list failure) :=
  let expected := gp_State policy in
  if negb (bool_decide (is_Some (gs_SwitchVerifiedAt expected)) && bool_decide (is_Some (gs_ValidationNotBefore expected))
           && bool_decide (gs_ValidationStatus expected ∈ awaiting)) then mret errors else
  items ← call (ListGroupValidationEvidence (monitorIDsForAccounts (sn_Bindings snapshot) (gp_AccountIDs policy))
                  (gp_AccountIDs policy) (gs_MonitorEvidenceCursor expected) (gs_TrafficEvidenceCursor expected));
  match items with
  | Err e => mret (errors ++ [WrapFailure ("读取 " +:+ failoverPolicyKey policy +:+ " 切换后证据: ") e])
  | Ok items =>
      let '(state, changed) := judge settings now items expected in
      if negb changed then mret errors else
      saved ← call (CompareAndSaveGroupFailoverState expected state);
      match saved with
      | Err e => mret (errors ++ [WrapFailure ("保存 " +:+ failoverPolicyKey policy +:+ " 验证状态: ") e])
      | Ok false => mret errors
      | Ok true => report_validation state;; mret errors
      end
  end.

Definition ProcessFailoverEvidence : prog (option failure) :=
  busy ← call (SwapEvidenceRun true);
  if (busy : bool) then mret None else
  result ← (
    if negb (c_evidence c) then mret (Some (NewFailure "failover evidence store is unavailable")) else
    settings ← call GetSettings;
    match settings with Err e => mret (Some e) | Ok settings =>
    policies ← call (ListGroupFailoverPolicies 0);
    match policies with Err e => mret (Some e) | Ok policies =>
    snapshot ← call GetSnapshot;
    now ← call Now;
    errors ← for_all (process_policy settings now snapshot) policies [];
    mret (join errors)
    end end);
  _ ← call (SwapEvidenceRun false);
  mret result.

(** ** An active probe *)

Definition postSwitchProbeResultMatches (request : PostSwitchProbeRequest) (reply : PostSwitchProbeResult) : bool :=
  (pr_TransitionID reply =? pq_TransitionID request)%Z && (pr_SourceID reply =? pq_SourceID request)%Z
  && bool_decide (trim_space (pr_KeyID reply) = pq_KeyID request)
  && bool_decide (pr_TargetTier reply = pq_TargetTier request)
  && bool_decide (pr_TargetGroupID reply = pq_TargetGroupID request)
  && negb (is_zero_time (pr_RequestStartedAt reply)) && (pr_RequestStartedAt reply =? pq_RequestStartedAt request)%Z.

(** A save that must find the state it was computed from. *)
Definition save_over (expected next : GroupFailoverState) (superseded : string) (k : prog (option failure))
    : prog (option failure) :=
  saved ← call (CompareAndSaveGroupFailoverState expected next);
  match saved with
  | Err e => mret (Some e)
  | Ok false => mret (Some (NewFailure superseded))
  | Ok true => k
  end.

Definition rejectActiveProbeResult (probing : GroupFailoverState) (reason : string) : prog (option failure) :=
  save_over probing (probing <| gs_ValidationStatus := GroupValidationUncertain |> <| gs_LastError := reason |>)
    "active probe result belongs to a superseded transition" (mret (Some (NewFailure reason))).

Definition probe_failure_threshold (settings : Settings) : Z :=
  if (st_FailoverMonitorFailures settings <? 2)%Z then 2%Z else st_FailoverMonitorFailures settings.

(** What the probe's reply makes of the state. *)
Definition probed (settings : Settings) (transitionID : Z) (reply : PostSwitchProbeResult) (probeErr : option failure)
    (state : GroupFailoverState) : GroupFailoverState :=
  let state := state
    <| gs_LastEvidenceID := "active_probe:" +:+ format_int transitionID +:+ ":" +:+ trim_space (pr_EvidenceID reply) |>
    <| gs_LastEvidenceSource := "active_probe" |> <| gs_LastEvidenceReason := pr_ReasonCode reply |>
    <| gs_LastEvidenceAt := Some (pr_ObservedAt reply) |> in
  if bool_decide (is_Some probeErr) || equal_fold (pr_Status reply) GroupValidationUncertain
  then state <| gs_ValidationStatus := GroupValidationUncertain |> <| gs_LastError := "active_probe_uncertain" |>
  else if equal_fold (pr_Status reply) "success" || equal_fold (pr_Status reply) StatusOperational
  then state <| gs_SuccessfulEvidenceCount := (gs_SuccessfulEvidenceCount state + 1)%Z |>
         <| gs_ValidationStatus := GroupValidationConfirmedHealthy |>
         <| gs_LastConfirmedAt := Some (pr_ObservedAt reply) |> <| gs_LastError := "" |>
  else
    let state := state <| gs_FailedEvidenceCount := (gs_FailedEvidenceCount state + 1)%Z |> in
    state <| gs_ValidationStatus :=
        if (probe_failure_threshold settings <=? gs_FailedEvidenceCount state)%Z
        then GroupValidationConfirmedFailed else GroupValidationAwaitingEvidence |>
      <| gs_LastError := "active_probe_failed" |>.

Definition probe_policy (settings : Settings) (policy : GroupFailoverPolicy) : prog (option failure) :=
  let expected := gp_State policy in
  match gs_SwitchVerifiedAt expected with
  | None => mret (Some (NewFailure "active probe requires an applied transition awaiting evidence"))
  | Some verified =>
  if negb (bool_decide (gs_ValidationStatus expected = GroupValidationAwaitingEvidence))
  then mret (Some (NewFailure "active probe requires an applied transition awaiting evidence")) else
  requestStartedAt ← call Now;
  if negb (after requestStartedAt verified)
     || match gs_ValidationNotBefore expected with Some notBefore => before requestStartedAt notBefore | None => true end
  then mret (Some (NewFailure "active probe cannot start before the post-switch validation boundary")) else
  let state := expected <| gs_ValidationStatus := GroupValidationProbing |>
    <| gs_ValidationMode := GroupValidationModeActive |>
    <| gs_ActiveProbeAttempts := (gs_ActiveProbeAttempts expected + 1)%Z |> in
  save_over expected state "active probe transition was superseded before start" (
    let request := mkPostSwitchProbeRequest policy (gs_ValidationTransitionID state) (gs_SourceID state)
      (trim_space (gs_KeyID state)) (gs_ValidationTargetTier state) (gs_ValidationTargetGroupID state) requestStartedAt in
    '(reply, probeErr) ← call (Probe request);
    now ← call Now;
    let reply := if is_zero_time (pr_ObservedAt reply) then reply <| pr_ObservedAt := now |> else reply in
    if negb (bool_decide (is_Some probeErr)) && negb (postSwitchProbeResultMatches request reply)
    then rejectActiveProbeResult state "active_probe_binding_mismatch"
    else if before (pr_ObservedAt reply) requestStartedAt
    then rejectActiveProbeResult state "active_probe_time_invalid"
    else
    let next := probed settings (pq_TransitionID request) reply probeErr state in
    (if bool_decide (gs_ValidationStatus next = GroupValidationConfirmedFailed) then call WakeController else mret ());;
    save_over state next "active probe result belongs to a superseded transition" (mret None))
  end.

Definition RunPostSwitchProbe (sourceID : Z) (keyID : string) : prog (option failure) :=
  if negb (c_probe c) then mret (Some (NewFailure "post-switch active probe is not configured")) else
  policies ← call (ListGroupFailoverPolicies sourceID);
  match policies with Err e => mret (Some e) | Ok policies =>
  settings ← call GetSettings;
  match settings with Err e => mret (Some e) | Ok settings =>
  match filter (λ policy, gp_KeyID policy = trim_space keyID) policies with
  | policy :: _ => probe_policy settings policy
  | [] => mret (Some (NewFailure "fixed failover policy not found"))
  end end end.

(** ** [RunOnce] *)

Definition run_plan (p : plan) (outageSince : gmap string time) : prog (gmap string time * option failure) :=
  let pools := sort_slice string_less (elements (dom (pn_poolPolicies p))) in
  s ← for_all (run_pool p) pools (mkCycle outageSince 0 []);
  call (SetLastRunAt (pn_now p));;
  mret (cy_outageSince s, join (cy_errors s)).

(** The cycle proper, after the evidence was processed. *)
Definition run_cycle (outageSince : gmap string time) : prog (gmap string time * option failure) :=
  now ← call Now;
  snapshot ← call GetSnapshot;
  if fs_AllAutomation (sn_Freeze snapshot) then call (SetLastRunAt now);; mret (outageSince, None) else
  settings ← call GetSettings;
  match settings with Err e => mret (outageSince, Some (WrapFailure "读取救灾策略: " e)) | Ok settings =>
  if bool_decide (st_FailoverMode settings = FailoverModeDisabled) then call (SetLastRunAt now);; mret (outageSince, None) else
  if stale_snapshot snapshot now (minutes (st_FailoverAccountFreshMinutes settings))
  then mret (outageSince, Some (NewFailure "data_stale: 账号与监控快照不新鲜")) else
  telemetry ← call GetTelemetryStatus;
  if stale_telemetry telemetry now (minutes (st_FailoverTelemetryFreshMinutes settings))
  then mret (outageSince, Some (NewFailure "data_stale: 真实流量数据不新鲜")) else
  sources ← call ListSources;
  match sources with Err e => mret (outageSince, Some (WrapFailure "读取上游状态: " e)) | Ok sources =>
  policies ← call (ListGroupFailoverPolicies 0);
  match policies with Err e => mret (outageSince, Some (WrapFailure "读取三级分组策略: " e)) | Ok policies =>
  if bool_decide (policies = []) then call (SetLastRunAt now);; mret (outageSince, None) else
  run_plan (make_plan now settings snapshot sources policies) outageSince
  end end end.

Definition RunOnce (outageSince : gmap string time) : prog (gmap string time * option failure) :=
  busy ← call (SwapRunning true);
  if (busy : bool) then mret (outageSince, None) else
  evidence ← (if c_evidence c then ProcessFailoverEvidence else mret None);
  result ← match evidence with
           | Some e => mret (outageSince, Some (WrapFailure "处理切换后证据: " e))
           | None => run_cycle outageSince
           end;
  _ ← call (SwapRunning false);
  mret result.

Definition runLogged (outageSince : gmap string time) : prog (gmap string time) :=
  '(outageSince, err) ← RunOnce outageSince;
  let message := match err with Some e => failure_text e | None => "" end in
  last ← call (SwapLastError message);
  (if bool_decide (message = last) then mret () else
   now ← call Now;
   _ ← call (AddEvent (match err with
     | Some _ => failover_event "group_failover_cycle_failed" "error" message "system" ""
     | None => failover_event "group_failover_cycle_recovered" "info" "三级分组救灾判定已恢复" "system" ""
     end <| ev_CreatedAt := now |>));
   mret ());;
  mret outageSince.
End controller.
