(* ===== verification/TrafficStats.v ===== *)
(** * Statistics of the recorded traffic

    [GetAgentWindowStats] of [internal/store/agent.go] as a function of the rows of
    [traffic_events]: how many requests of an account a window holds, how many of them
    count, succeeded, or failed in which class, and how long they took. *)

From S2P Require Import Prelude GoStd Float Model ModelHealth ModelFailover.

(** ** Window statistics *)

(** A row of [traffic_events]. The texts its times are written as have a fixed width, so
    they compare as the times do. *)
Record traffic_row := mkTrafficRow {
  tf_AccountID : Z;
  tf_kind : string;
  tf_error_class : string;
  tf_duration_ms : Z;
  tf_created_at : time;
}.

(** [math.Round], half away from zero, of a value that is not negative; [round2]. *)
Definition round_int (x : float64) : Z :=
  match x with
  | S754_finite false m e => if (0 <=? e)%Z then (Z.pos m * 2 ^ e)%Z else ((Z.pos m + 2 ^ (- e - 1)) / 2 ^ (- e))%Z
  | _ => 0%Z
  end.
Definition round2 (x : float64) : float64 := (of_int (round_int (x * of_int 100)%float) / of_int 100)%float.

Definition percentile (values : list Z) (ratio : float64) : Z :=
  let position := (ceil_int (of_int (Z.of_nat (length values)) * ratio)%float - 1)%Z in
  let position := if (position <? 0)%Z then 0%Z else position in
  let position := if (Z.of_nat (length values) <=? position)%Z then (Z.of_nat (length values) - 1)%Z else position in
  default 0%Z (values !! Z.to_nat position).

Definition hundredths (n : Z) : float64 := (of_int n / of_int 100)%float.

Definition eligible_class (class : string) : bool :=
  negb (bool_decide (class ∈ [ErrorClassClient; ErrorClassModelCapability; ErrorClassSemantic])).

Definition in_window (accountID : Z) (since until : time) (row : traffic_row) : bool :=
  (since <=? tf_created_at row)%Z && (tf_created_at row <? until)%Z
  && ((accountID <=? 0)%Z || (tf_AccountID row =? accountID)%Z).

Definition is_success (row : traffic_row) : bool := bool_decide (tf_kind row = "success").

(** How many elements satisfy a condition. *)
Definition tally {A} (f : A → bool) (l : list A) : Z := Z.of_nat (length (filter (λ a, f a = true) l)).

Lemma tally_split {A} (f g h : A → bool) l :
  (∀ a, f a = g a || h a) → (∀ a, g a && h a = false) → tally f l = (tally g l + tally h l)%Z.
Proof.
  intros Hf Hd. unfold tally. induction l as [|a l IH]; [done|]. rewrite !filter_cons.
  specialize (Hf a). specialize (Hd a). destruct (f a), (g a), (h a); try done; cbn [length] in *; case_decide; try done;
    repeat case_decide; try done; cbn [length]; lia.
Qed.

Lemma tally_fmap {A B} (f : B → bool) (g : A → B) l : tally f (g <$> l) = tally (λ a, f (g a)) l.
Proof. unfold tally. induction l as [|a l IH]; [done|]. rewrite fmap_cons, !filter_cons. repeat case_decide; try done; cbn; lia. Qed.

Lemma tally_app {A} (f : A → bool) l1 l2 : tally f (l1 ++ l2) = (tally f l1 + tally f l2)%Z.
Proof. unfold tally. rewrite filter_app, length_app. lia. Qed.

Lemma tally_le {A} (f : A → bool) l : (tally f l ≤ Z.of_nat (length l))%Z.
Proof. unfold tally. pose proof (length_filter (λ a, f a = true) l). lia. Qed.

Lemma tally_all {A} (f : A → bool) l : tally f l = Z.of_nat (length l) ↔ Forall (λ a, f a = true) l.
Proof.
  split; [|induction 1 as [|a l Ha _ IH]; [done|]; unfold tally in *; rewrite filter_cons, decide_True by done; cbn; lia].
  induction l as [|a l IH]; [by constructor|]. unfold tally in *. rewrite filter_cons.
  case_decide; cbn [length]; intros E; [constructor; [done|]; apply IH; lia|].
  pose proof (tally_le f l) as Hle. unfold tally in Hle. lia.
Qed.

Definition class_counts (rows : list traffic_row) : gmap string Z :=
  foldl (λ counts row, if is_success row then counts
           else <[tf_error_class row := (default 0 (counts !! tf_error_class row) + 1)%Z]> counts) ∅ rows.

(** [stateChanges] and [automaticPauses] are the counts of the two further queries, over
    the events of the account. *)
Definition window_stats (log : list traffic_row) (stateChanges automaticPauses : Z) (accountID : Z)
    (since until : time) (label : string) : AgentWindowStats :=
  let rows := filter (λ row, in_window accountID since until row = true) log in
  let success := tally is_success rows in
  let eligible := tally (λ row, is_success row || eligible_class (tf_error_class row)) rows in
  let durations := sort_slice Z.ltb (filter (λ d, 0 ≤ d)%Z (tf_duration_ms <$> filter (λ row, is_success row = true) rows)) in
  {| ws_Window := label; ws_SampleCount := Z.of_nat (length rows); ws_EligibleCount := eligible; ws_SuccessCount := success;
     ws_ErrorCount := (Z.of_nat (length rows) - success)%Z;
     ws_SuccessRate := if (0 <? eligible)%Z then round2 (of_int success * of_int 100 / of_int eligible)%float else of_int 0;
     ws_P50DurationMS := percentile durations (hundredths 50); ws_P90DurationMS := percentile durations (hundredths 90);
     ws_P99DurationMS := percentile durations (hundredths 99); ws_ErrorCategoryCounts := class_counts rows;
     ws_StateChanges := if (0 <? accountID)%Z then stateChanges else 0%Z;
     ws_AutomaticPauseCount := if (0 <? accountID)%Z then automaticPauses else 0%Z |}.

Lemma class_counts_lookup class rows :
  default 0%Z (class_counts rows !! class)
  = tally (λ row, negb (is_success row) && bool_decide (tf_error_class row = class)) rows.
Proof.
  unfold class_counts. rewrite <-(rev_involutive rows). generalize (rev rows). clear rows. intros rows.
  induction rows as [|row rows IH]; [done|]. cbn [rev]. rewrite foldl_app. cbn [foldl].
  unfold tally in *. rewrite filter_app, length_app, Nat2Z.inj_add. rewrite filter_cons, filter_nil.
  destruct (is_success row) eqn:Es; cbn [negb andb].
  { rewrite decide_False by done. rewrite IH. cbn. lia. }
  destruct (decide (tf_error_class row = class)) as [<-|Hne].
  - rewrite lookup_insert_eq, bool_decide_true, decide_True by done. cbn [default length]. rewrite <-IH. cbn. lia.
  - rewrite lookup_insert_ne, bool_decide_false, decide_False by done. rewrite IH. cbn. lia.
Qed.
