(* ===== verification/FailoverSandbox.v ===== *)
(** * A deployment of the failover controller

    A concrete environment for the controller's requests: a store that keeps policies
    and their states, recorded traffic and evidence, and an upstream manager that notes
    the transitions asked of it. *)

From S2P Require Import Prelude GoStd Float Model ModelHealth ModelFailover JsonRecords Requests MutationError TrafficStats FailoverPolicy FailoverController.

Record deployment := mkDeployment {
  dp_policies : list GroupFailoverPolicy;
  dp_sources : list UpstreamSource;
  dp_settings : Settings;
  dp_snapshot : Snapshot;
  dp_traffic : list traffic_row;
  dp_evidence : list GroupValidationEvidence;
  dp_now : time;
  dp_probe : PostSwitchProbeResult * option failure;
  dp_asked : list GroupTierTransitionRequest;
  dp_events : list string;
  dp_wake : bool;
}.

Definition same_key (s : GroupFailoverState) (p : GroupFailoverPolicy) : bool :=
  (gp_SourceID p =? gs_SourceID s)%Z && bool_decide (gp_KeyID p = gs_KeyID s).

Definition save_state (s : GroupFailoverState) (d : deployment) : deployment :=
  d <| dp_policies := (λ p, if same_key s p then p <| gp_State := s |> else p) <$> dp_policies d |>.

(** The comparison of [CompareAndSaveGroupFailoverState]. *)
Definition unchanged (expected s : GroupFailoverState) : bool :=
  (gs_ValidationTransitionID s =? gs_ValidationTransitionID expected)%Z
  && bool_decide (gs_ValidationStatus s = gs_ValidationStatus expected)
  && bool_decide (gs_ValidationTargetTier s = gs_ValidationTargetTier expected)
  && bool_decide (gs_ValidationTargetGroupID s = gs_ValidationTargetGroupID expected).

Definition fresh_evidence (monitorAfter trafficAfter : Z) (item : GroupValidationEvidence) : bool :=
  ((if bool_decide (ge_Source item = "monitor") then monitorAfter else trafficAfter) <? ge_ID item)%Z.

Definition deployment_serve (R : Type) (d : deployment) (c : Request R) : R * deployment :=
  match c in Request R return R * deployment with
  | ListGroupFailoverPolicies _ => (Ok (dp_policies d), d)
  | SaveGroupFailoverState s => (Ok (), save_state s d)
  | CompareAndSaveGroupFailoverState expected next =>
      if existsb (λ p, same_key expected p && unchanged expected (gp_State p)) (dp_policies d)
      then (Ok true, save_state next d) else (Ok false, d)
  | CountCompletedGroupTierTransitions _ _ _ => (Ok 0%Z, d)
  | GetAgentWindowStats accountID since until label => (Ok (window_stats (dp_traffic d) 0 0 accountID since until label), d)
  | GetSettings => (Ok (dp_settings d), d)
  | AddEvent event => (Ok (), d <| dp_events := dp_events d ++ [ev_Type event] |>)
  | ListGroupValidationEvidence _ _ m t => (Ok (filter (λ item, fresh_evidence m t item = true) (dp_evidence d)), d)
  | GetSnapshot => (dp_snapshot d, d)
  | ListSources => (Ok (dp_sources d), d)
  | TransitionGroupTier request => ((no_transition, None), d <| dp_asked := dp_asked d ++ [request] |>)
  | GetTelemetryStatus => ((Some (dp_now d), ""), d)
  | Probe _ => (dp_probe d, d)
  | Now => (dp_now d, d)
  | SwapRunning _ => (false, d)
  | SwapEvidenceRun _ => (false, d)
  | SetLastRunAt _ => (tt, d)
  | SwapLastError _ => ("", d)
  | WakeController => (tt, d <| dp_wake := true |>)
  end.
Definition deployed : environment Request deployment := mkEnvironment deployment deployment_serve.

(** ** A key with three groups, whose only account has failed *)

Definition noon : time := (1767268800 * second)%Z.

Definition the_source : UpstreamSource :=
  no_source <| us_ID := 3%Z |> <| us_Name := "relay" |> <| us_NormalizedURL := "https://relay.example" |>
    <| us_CredentialMode := "password" |> <| us_Enabled := true |> <| us_Balance := Some (of_int 20) |>
    <| us_PauseBelow := of_int 5 |> <| us_LastSuccessAt := Some (noon - 30 * second)%Z |>
    <| us_KeyRates := [no_key_rate <| kr_ExternalID := "k1" |> <| kr_GroupID := "g1" |> <| kr_Status := "active" |>] |>
    <| us_Groups := [mkUpstreamGroup "g1" "one" (of_int 1); mkUpstreamGroup "g2" "two" (of_int 2); mkUpstreamGroup "g3" "three" (of_int 3)] |>.

Definition the_state : GroupFailoverState :=
  no_group_state <| gs_SourceID := 3%Z |> <| gs_KeyID := "k1" |> <| gs_ValidationStatus := GroupValidationStable |>.

Definition the_policy : GroupFailoverPolicy :=
  no_group_policy <| gp_SourceID := 3%Z |> <| gp_KeyID := "k1" |> <| gp_Enabled := true |> <| gp_MainEnabled := true |>
    <| gp_EmergencyEnabled := true |> <| gp_MainGroupID := "g1" |> <| gp_BackupGroupID := "g2" |>
    <| gp_EmergencyGroupID := "g3" |> <| gp_AccountIDs := [7%Z] |> <| gp_Version := 2%Z |> <| gp_ConfirmedVersion := 2%Z |>
    <| gp_Confirmed := true |> <| gp_State := the_state |>.

Definition the_settings : Settings :=
  (sn_Settings no_snapshot) <| st_FailoverMode := FailoverModeControl |> <| st_FailoverMutationBudget := 1%Z |>
    <| st_FailoverAccountFreshMinutes := 10%Z |> <| st_FailoverTelemetryFreshMinutes := 10%Z |>
    <| st_FailoverGroupFreshMinutes := 10%Z |> <| st_FailoverMonitorFailures := 2%Z |>
    <| st_FailoverTrafficWindowMinutes := 10%Z |> <| st_FailoverConsecutiveHardErrors := 3%Z |>
    <| st_FailoverShortLimitCount := 4%Z |> <| st_FailoverLongLimitCount := 9%Z |>.

Definition the_binding : ResolvedBinding :=
  no_binding <| rb_Account := (rb_Account no_binding) <| acc_ID := 7%Z |> <| acc_Status := "error" |> |>
    <| rb_NormalizedEndpoint := "https://relay.example" |>.

Definition outage_row (kind class : string) (at_ : time) : traffic_row := mkTrafficRow 7 kind class 40 at_.
Definition failed_traffic : list traffic_row :=
  [outage_row "success" "" (noon - 300 * second)%Z; outage_row "error" ErrorClassInfrastructure (noon - 200 * second)%Z;
   outage_row "error" ErrorClassCapacity (noon - 90 * second)%Z; outage_row "error" ErrorClassInfrastructure (noon - 10 * second)%Z].

Definition the_deployment : deployment := {|
  dp_policies := [the_policy]; dp_sources := [the_source]; dp_settings := the_settings;
  dp_snapshot := no_snapshot <| sn_Bindings := [the_binding] |> <| sn_LastSyncAt := Some (noon - 20 * second)%Z |>;
  dp_traffic := failed_traffic; dp_evidence := []; dp_now := noon;
  dp_probe := (mkPostSwitchProbeResult 0 0 "" "" "" zero_time "" "" zero_time "", None);
  dp_asked := []; dp_events := []; dp_wake := false |}.

#[export] Instance plain_floats : JsonFloats := λ _, "0".
