(* ===== verification/FailoverTraffic.v ===== *)
(** * Traffic as evidence of an outage

    What the controller's bisection makes of the recorded traffic: it looks for a tail of
    the window that holds enough records and only allowed hard errors. *)

From S2P Require Import Prelude GoStd Float Model ModelHealth ModelFailover Requests MutationError TrafficStats FailoverPolicy FailoverController FailoverSandbox.

(** ** The bisection *)

Section bisection.
Context `{UnicodeTables} {T : Type} (env : environment Request T).
Context (log : list traffic_row) (bindings : list ResolvedBinding) (now : time).

Definition hard_row (p : ResolvedBinding * traffic_row) : bool :=
  negb (is_success p.2)
  && (bool_decide (tf_error_class p.2 = ErrorClassInfrastructure) || bool_decide (tf_error_class p.2 = ErrorClassCapacity)
      || hasExplicitNoChannelReason (rb_Decision p.1) && bool_decide (tf_error_class p.2 = ErrorClassModelCapability)).

(** The traffic of the bindings' accounts from [since] until now. *)
Definition recent (since : time) : list (ResolvedBinding * traffic_row) :=
  bindings ≫= λ binding,
    (binding,.) <$> filter (λ row, in_window (acc_ID (rb_Account binding)) since (now + 1) row = true) log.
Definition samples (since : time) : Z := Z.of_nat (length (recent since)).
Definition hard (since : time) : Z := tally hard_row (recent since).

(** The store answers from the log. *)
Definition answers_from_log (s : T) : Prop := ∀ accountID since until label,
  ∃ stateChanges automaticPauses,
    serve env s (GetAgentWindowStats accountID since until label)
    = (Ok (window_stats log stateChanges automaticPauses accountID since until label), s).

Lemma allowed_in_window binding sc ap accountID since until label :
  allowedHardErrors binding (window_stats log sc ap accountID since until label)
  = tally (λ row, hard_row (binding, row)) (filter (λ row, in_window accountID since until row = true) log).
Proof.
  unfold allowedHardErrors, error_count. cbn [ws_ErrorCategoryCounts window_stats]. rewrite !class_counts_lookup.
  generalize (filter (λ row, in_window accountID since until row = true) log). intros rows.
  assert (∀ c1 c2 : string, c1 ≠ c2 → ∀ row, (negb (is_success row) && bool_decide (tf_error_class row = c1))
    && (negb (is_success row) && bool_decide (tf_error_class row = c2)) = false) as Hd.
  { intros c1 c2 Hc row. destruct (is_success row); [done|]. cbn. destruct (decide (tf_error_class row = c1)) as [E|E].
    - rewrite bool_decide_true by done. rewrite bool_decide_false; [done|congruence].
    - by rewrite bool_decide_false by done. }
  unfold hard_row. cbn [fst snd]. destruct (hasExplicitNoChannelReason (rb_Decision binding)); cbn [andb].
  - etrans; [|symmetry; apply (tally_split _ (λ row, negb (is_success row)
        && (bool_decide (tf_error_class row = ErrorClassInfrastructure) || bool_decide (tf_error_class row = ErrorClassCapacity)))
      (λ row, negb (is_success row) && bool_decide (tf_error_class row = ErrorClassModelCapability)))].
    + f_equal. symmetry. apply tally_split; [intros row; by rewrite andb_orb_distrib_r|by apply Hd].
    + intros row. by rewrite <-andb_orb_distrib_r.
    + intros row. rewrite andb_orb_distrib_r, andb_orb_distrib_l. by rewrite !Hd.
  - rewrite Z.add_0_r. symmetry. apply tally_split; [intros row|by apply Hd].
    by rewrite orb_false_r, andb_orb_distrib_r.
Qed.

(** What [aggregateTraffic] returns. *)
Lemma aggregateTraffic_run since label s :
  answers_from_log s →
  run env (aggregateTraffic bindings since (now + 1)%Z label) s
  = (Next (mkTrafficAggregate (samples since) (hard since)), s).
Proof.
  intros Hlog. unfold aggregateTraffic. set (f := λ binding result, _).
  assert (∀ bs n m, run env (for_each f bs (mkTrafficAggregate n m)) s = (Next (mkTrafficAggregate
    (n + Z.of_nat (length (bs ≫= λ b, (b,.) <$> filter (λ row, in_window (acc_ID (rb_Account b)) since (now + 1) row = true) log)))
    (m + tally hard_row (bs ≫= λ b, (b,.) <$> filter (λ row, in_window (acc_ID (rb_Account b)) since (now + 1) row = true) log))), s))
    as Hall; [|apply Hall].
  intros bs. induction bs as [|b bs IH]; intros n m.
  - cbn. by rewrite !Z.add_0_r.
  - cbn [for_each]. rewrite run_bind. unfold f at 1 3.
    destruct (Hlog (acc_ID (rb_Account b)) since (now + 1)%Z label) as (sc & ap & Hs).
    cbn [mbind prog_mbind prog_bind call run]. rewrite Hs. cbn [run mret prog_ret fst snd].
    rewrite bind_cons, length_app, tally_app, length_fmap, tally_fmap, allowed_in_window.
    etrans; [apply IH|]. f_equal. f_equal. f_equal; cbn; lia.
Qed.

Lemma filter_bind {A B} (f : B → bool) (g : A → list B) l :
  filter (λ b, f b = true) (l ≫= g) = l ≫= λ a, filter (λ b, f b = true) (g a).
Proof. induction l as [|a l IH]; [done|]. by rewrite !bind_cons, filter_app, IH. Qed.

Lemma filter_fmap {A B} (f : B → bool) (g : A → B) (l : list A) :
  filter (λ b, f b = true) (g <$> l) = g <$> filter (λ a, f (g a) = true) l.
Proof. induction l as [|a l IH]; [done|]. rewrite fmap_cons, !filter_cons. case_decide; by rewrite ?fmap_cons, IH. Qed.

(** A later tail is the part of an earlier one that is late enough. *)
Lemma recent_later t u :
  (t ≤ u)%Z → recent u = filter (λ p, (u <=? tf_created_at p.2)%Z = true) (recent t).
Proof.
  intros Htu. unfold recent. rewrite (filter_bind (λ p, (u <=? tf_created_at p.2)%Z)).
  induction bindings as [|b bs IH]; [done|]. rewrite !bind_cons, IH. f_equal.
  rewrite (filter_fmap (λ p, (u <=? tf_created_at p.2)%Z)). f_equal. rewrite list_filter_filter.
  apply list_filter_iff. intros row. cbn. unfold in_window. rewrite !andb_true_iff, !Z.leb_le. lia.
Qed.

Lemma samples_later t u : (t ≤ u)%Z → (samples u ≤ samples t)%Z.
Proof. intros Htu. unfold samples. rewrite (recent_later t u Htu). pose proof (length_filter (λ p, (u <=? tf_created_at p.2)%Z = true) (recent t)). lia. Qed.

(** The recorded traffic from [t] on consists of allowed hard errors. *)
Definition all_hard (t : time) : Prop := samples t = hard t.

Lemma all_hard_later t u : (t ≤ u)%Z → all_hard t → all_hard u.
Proof.
  unfold all_hard, samples, hard. intros Htu Ht. symmetry in Ht |- *. rewrite tally_all in *.
  rewrite (recent_later t u Htu).
  rewrite Forall_forall in *. intros p [_ Hp]%list_elem_of_filter. by apply Ht.
Qed.

Lemma hard_later t u : (t ≤ u)%Z → (hard u ≤ hard t)%Z.
Proof.
  unfold hard. intros Htu. rewrite (recent_later t u Htu). unfold tally.
  induction (recent t) as [|p l IH]; [done|]. rewrite !filter_cons. repeat case_decide; rewrite ?filter_cons;
    repeat case_decide; cbn; try done; lia.
Qed.

(** The width of a span after [n] halvings, rounded up. *)
Definition halved (n : nat) (w : Z) : Z := ((w + 2 ^ Z.of_nat n - 1) / 2 ^ Z.of_nat n)%Z.

Lemma halved_step n w w' : (2 * w' ≤ w + 1)%Z → (halved n w' ≤ halved (S n) w)%Z.
Proof.
  intros Hw. unfold halved. rewrite Nat2Z.inj_succ, Z.pow_succ_r by lia.
  rewrite <-Z.div_div by lia. apply Z.div_le_mono; [lia|]. apply Z.div_le_lower_bound; lia.
Qed.

Lemma narrow_tail_run n low high required s :
  answers_from_log s → (0 ≤ high - low < 2 ^ 63)%Z → (required ≤ samples low)%Z →
  (∀ t, t ≤ now → required ≤ samples t → t ≤ high)%Z →
  ∃ low', run env (narrow_tail bindings now required n low high (mkTrafficAggregate (samples low) (hard low))) s
      = (Next (mkTrafficAggregate (samples low') (hard low')), s)
    ∧ (low ≤ low')%Z ∧ (required ≤ samples low')%Z
    ∧ ∀ t, (t ≤ now → required ≤ samples t → t ≤ low' + halved n (high - low))%Z.
Proof.
  intros Hlog. revert low high. induction n as [|n IH]; intros low high Hw Hlow Hhigh.
  { exists low. split; [done|]. split; [lia|]. split; [done|]. intros t Ht Hs. specialize (Hhigh t Ht Hs).
    unfold halved. rewrite Z.div_1_r. lia. }
  cbn [narrow_tail]. rewrite run_bind, aggregateTraffic_run by done. cbn [fst snd ta_samples].
  replace (sub_time high low) with (high - low)%Z by (unfold sub_time; lia).
  rewrite Z.quot_div_nonneg by lia. set (mid := (low + (high - low) / 2)%Z).
  assert (2 * ((high - low) / 2) ≤ high - low ≤ 2 * ((high - low) / 2) + 1)%Z as Hmid
    by (pose proof (Z.div_mod (high - low) 2); pose proof (Z.mod_pos_bound (high - low) 2); lia).
  destruct (Z.leb_spec required (samples mid)) as [Hle|Hgt].
  - destruct (IH mid high) as (low' & Hrun & Hl & Hr & Ht); [lia|done|done|].
    exists low'. split; [exact Hrun|]. split; [lia|]. split; [done|]. intros t Htn Hts. specialize (Ht t Htn Hts).
    pose proof (halved_step n (high - low) (high - mid)). lia.
  - destruct (IH low mid) as (low' & Hrun & Hl & Hr & Ht); [lia|done| |].
    { intros t Htn Hts. destruct (Z.le_gt_cases t mid) as [?|Hlt]; [done|].
      pose proof (samples_later mid t). lia. }
    exists low'. split; [exact Hrun|]. split; [lia|]. split; [done|]. intros t Htn Hts. specialize (Ht t Htn Hts).
    pose proof (halved_step n (high - low) (mid - low)). lia.
Qed.
End bisection.

(** The controller takes the newest traffic for consecutive hard errors only when some
    tail of the window holds at least the required number of records and nothing but
    allowed hard errors; and twelve halvings are enough to find such a tail whenever it
    starts more than a 4096th of the window after the last record of another kind. *)
Theorem hasConsecutiveHardTraffic_decides `{UnicodeTables} {T} (env : environment Request T) log bindings now settings s :
  answers_from_log env log s →
  (0 ≤ st_FailoverTrafficWindowMinutes settings ≤ 1000000)%Z →
  let window := (st_FailoverTrafficWindowMinutes settings * minute)%Z in
  let required := st_FailoverConsecutiveHardErrors settings in
  let '(r, s') := run env (hasConsecutiveHardTraffic bindings now settings) s in
  s' = s ∧ ∃ b, r = Ok b
  ∧ (b = true → ∃ t, (now - window ≤ t)%Z ∧ (required ≤ samples log bindings now t)%Z ∧ all_hard log bindings now t)
  ∧ ((∃ t, (now - window ≤ t ≤ now)%Z ∧ (required ≤ samples log bindings now t)%Z
        ∧ all_hard log bindings now (t - (window + 4095) / 4096)) → b = true).
Proof.
  intros Hlog Hwin window required. unfold hasConsecutiveHardTraffic.
  replace (minutes (st_FailoverTrafficWindowMinutes settings)) with window
    by (unfold minutes; rewrite wrap64_id; [done|]; unfold in_int64, minute, second; lia).
  fold required. rewrite run_bind, (aggregateTraffic_run env log) by done. cbn [fst snd ta_samples ta_hard].
  set (sm := samples log bindings now). set (hd := hard log bindings now).
  destruct ((sm (now - window) <? required)%Z || (hd (now - window) <? required)%Z) eqn:Eb.
  { split; [done|]. exists false. split; [done|]. split; [done|]. intros (t & Ht & Hr & Hall). exfalso.
    pose proof (samples_later log bindings now (now - window) t ltac:(lia)) as Hs. fold sm in Hs, Hr.
    apply orb_true_iff in Eb as [E%Z.ltb_lt|E%Z.ltb_lt]; [lia|].
    assert (all_hard log bindings now t) as Ht' 
      by (eapply (all_hard_later log bindings now); [|exact Hall]; pose proof (Z.div_pos (window + 4095) 4096); lia).
    pose proof (hard_later log bindings now (now - window) t ltac:(lia)) as Hh. unfold all_hard in Ht'.
    fold sm in Ht'. fold hd in Hh, Ht'. lia. }
  bool_facts.
  destruct (narrow_tail_run env log bindings now 12 (now - window) now required s) as (low & Hrun & Hlow & Hr & Hfar);
    [done|unfold window, minute, second in *; lia|done|done|].
  change (samples log bindings now) with sm in Hrun. change (hard log bindings now) with hd in Hrun.
  rewrite run_bind, Hrun. cbn [fst snd run mret prog_ret ta_samples ta_hard].
  split; [done|]. eexists. split; [reflexivity|]. split.
  - intros [_ E%Z.eqb_eq]%andb_true_iff. exists low. by split_and!.
  - intros (t & Ht & Hrt & Hall). apply andb_true_iff. split; [by apply Z.leb_le|]. apply Z.eqb_eq.
    eapply (all_hard_later log bindings now); [|exact Hall]. specialize (Hfar t). unfold halved in Hfar.
    replace (now - (now - window))%Z with window in Hfar by lia. change (2 ^ Z.of_nat 12)%Z with 4096%Z in Hfar.
    replace (window + 4096 - 1)%Z with (window + 4095)%Z in Hfar by lia.
    specialize (Hfar ltac:(lia) Hrt). lia.
Qed.

(** Three of the four records are hard errors, and they are the newest. *)
Lemma hasConsecutiveHardTraffic_decides_witness :
  let M := plain_tables in
  run deployed (hasConsecutiveHardTraffic [the_binding] noon the_settings) the_deployment = (Ok true, the_deployment)
  ∧ ∃ t, (noon - 600 * second ≤ t)%Z ∧ (3 ≤ samples failed_traffic [the_binding] noon t)%Z
      ∧ all_hard failed_traffic [the_binding] noon t.
Proof.
  cbv zeta. pose proof (hasConsecutiveHardTraffic_decides (H:=plain_tables) deployed failed_traffic [the_binding] noon
    the_settings the_deployment) as Hd.
  assert (Hrun : run deployed (hasConsecutiveHardTraffic (H:=plain_tables) [the_binding] noon the_settings) the_deployment
    = (Ok true, the_deployment)) by (vm_compute; reflexivity).
  rewrite Hrun in Hd |- *. split; [reflexivity|].
  destruct Hd as (_ & b & [= <-] & Hfound & _); [..|exact (Hfound eq_refl)].
  - intros account since until label. exists 0%Z, 0%Z. reflexivity.
  - vm_compute; split; discriminate.
Defined.
