(* ===== verification/FailoverSafety.v ===== *)
(** * When the controller moves a key

    The grounds on which a cycle of the failover controller asks the upstream manager
    for a transition, as a protocol in the sense of [Requests]: what it must have read,
    and what must hold of it. *)

From S2P Require Import Prelude GoStd Float JsonText Model ModelHealth ModelFailover JsonRecords Requests MutationError TrafficStats FailoverPolicy FailoverController FailoverSandbox.

(** What a run has read, and how many transitions were carried out without an error. *)
Record failover_watch := mkFailoverWatch {
  fw_settings : option Settings;
  fw_snapshot : option Snapshot;
  fw_telemetry : option (option time * string);
  fw_sources : option (list UpstreamSource);
  fw_policies : option (list GroupFailoverPolicy);
  fw_clock : list time;
  fw_counts : list (Z * string * time * Z);
  fw_moves : Z;
}.
Definition nothing_read : failover_watch := mkFailoverWatch None None None None None [] [] 0.

Definition noted (w : failover_watch) R (c : Request R) : R → failover_watch :=
  match c in Request R return R → failover_watch with
  | GetSettings => λ r, match r with Ok settings => w <| fw_settings := Some settings |> | Err _ => w end
  | GetSnapshot => λ snapshot, w <| fw_snapshot := Some snapshot |>
  | GetTelemetryStatus => λ status, w <| fw_telemetry := Some status |>
  | ListSources => λ r, match r with Ok sources => w <| fw_sources := Some sources |> | Err _ => w end
  | ListGroupFailoverPolicies _ => λ r, match r with Ok policies => w <| fw_policies := Some policies |> | Err _ => w end
  | Now => λ now, w <| fw_clock := now :: fw_clock w |>
  | CountCompletedGroupTierTransitions sourceID keyID since => λ r,
      match r with Ok n => w <| fw_counts := (sourceID, keyID, since, n) :: fw_counts w |> | Err _ => w end
  | TransitionGroupTier request => λ r,
      match r.2 with
      | None => if tr_DryRun request then w else w <| fw_moves := (fw_moves w + 1)%Z |>
      | Some _ => w
      end
  | _ => λ _, w
  end.

Section grounds.
Context `{UnicodeTables} (c : Controller) (outageSince : gmap string time).

(** The plan [p] was made from what was read, none of it stale. *)
Record ready (w : failover_watch) (p : plan) : Prop := {
  gr_read : fw_settings w = Some (pn_settings p) ∧ fw_snapshot w = Some (pn_snapshot p) ∧ pn_now p ∈ fw_clock w
    ∧ ∃ sources policies, fw_sources w = Some sources ∧ fw_policies w = Some policies
        ∧ p = make_plan (pn_now p) (pn_settings p) (pn_snapshot p) sources policies;
  gr_automation : fs_AllAutomation (sn_Freeze (pn_snapshot p)) = false;
  gr_fresh : stale_snapshot (pn_snapshot p) (pn_now p) (minutes (st_FailoverAccountFreshMinutes (pn_settings p))) = false
    ∧ ∃ status, fw_telemetry w = Some status
        ∧ stale_telemetry status (pn_now p) (minutes (st_FailoverTelemetryFreshMinutes (pn_settings p))) = false;
}.

(** A cycle may move a key of the pool; [outageSince] are the outages known before the
    cycle. *)
Record cycle_grounds (w : failover_watch) (p : plan) (pool : string) : Prop := {
  gr_ready : ready w p;
  gr_mode : st_FailoverMode (pn_settings p) = FailoverModeControl;
  gr_budget : (fw_moves w < pn_budget p)%Z;
  gr_outage : hasConfirmedGroupFailure (default [] (pn_poolPolicies p !! pool)) = true
    ∨ ∃ since, outageSince !! pool = Some since ∧ is_zero_time since = false
        ∧ (agent_grace c (pn_settings p) ≤ sub_time (pn_now p) since)%Z;
}.

(** The request is for a key of the pool that may be moved, to the next tier it can use. *)
Record grounds (w : failover_watch) (request : GroupTierTransitionRequest) (p : plan) (pool : string)
    (policy : GroupFailoverPolicy) (source : UpstreamSource) : Prop := {
  gr_cycle : cycle_grounds w p pool;
  gr_policy : policy ∈ default [] (pn_poolPolicies p !! pool);
  gr_source : pn_sourceByID p !! gp_SourceID policy = Some source;
  gr_fit : policy_fit policy (pn_now p) = true ∧ source_fit source (pn_now p) (pn_settings p) = true
    ∧ gs_ValidationStatus (gp_State policy) ∉ unsettled;
  gr_target : let current := effectiveTier policy source in
    tr_TargetTier request = (nextEnabledTier policy current).1 ∧ tr_TargetTier request ≠ ""
    ∧ (before_now (gs_CooldownUntil (gp_State policy)) (pn_now p) = false
       ∨ current = GroupTierBackup ∧ tr_TargetTier request = GroupTierEmergency);
  gr_group : sourceHasGroup source (groupForTier policy (tr_TargetTier request)) = true
    ∧ sourceHasKey source (gp_KeyID policy) = true;
  gr_limits : ∃ n30 n6h,
    (gp_SourceID policy, gp_KeyID policy, (pn_now p - minutes (st_FailoverShortLimitWindowMinutes (pn_settings p)))%Z, n30)
      ∈ fw_counts w
    ∧ (gp_SourceID policy, gp_KeyID policy, (pn_now p - minutes (st_FailoverLongLimitWindowMinutes (pn_settings p)))%Z, n6h)
      ∈ fw_counts w
    ∧ (n30 < st_FailoverShortLimitCount (pn_settings p))%Z ∧ (n6h < st_FailoverLongLimitCount (pn_settings p))%Z;
  gr_request : tr_SourceID request = gp_SourceID policy ∧ tr_KeyID request = gp_KeyID policy
    ∧ tr_Manual request = false ∧ tr_AutomationLeaseHeld request = false;
}.

Definition may_ask (w : failover_watch) R (r : Request R) : Prop :=
  match r with
  | TransitionGroupTier request => tr_DryRun request = true ∨ ∃ p pool policy source, grounds w request p pool policy source
  | _ => True
  end.

Definition failover_protocol : protocol Request := mkProtocol failover_watch may_ask noted.

(** What stays as it was, and what is only added to. *)
Record later (w w' : failover_watch) : Prop := {
  lt_settings : fw_settings w' = fw_settings w;
  lt_snapshot : fw_snapshot w' = fw_snapshot w;
  lt_telemetry : fw_telemetry w' = fw_telemetry w;
  lt_sources : fw_sources w' = fw_sources w;
  lt_policies : fw_policies w' = fw_policies w;
  lt_moves : fw_moves w' = fw_moves w;
  lt_clock : fw_clock w ⊆ fw_clock w';
  lt_counts : fw_counts w ⊆ fw_counts w';
}.

#[export] Instance later_preorder : PreOrder later.
Proof. split; [by split|]. intros w1 w2 w3 [] []. split; try congruence; by etrans. Qed.
End grounds.

(** Requests that read nothing a plan is made from, and move nothing. *)
Definition quiet {R} (r : Request R) : bool :=
  match r with
  | GetSettings | GetSnapshot | GetTelemetryStatus | ListSources | ListGroupFailoverPolicies _ | TransitionGroupTier _ => false
  | _ => true
  end.

Lemma noted_quiet w R (r : Request R) x : quiet r = true → later w (noted w R r x).
Proof.
  destruct r; try done; intros _; cbn [noted]; try destruct x; try reflexivity; split; read_fields; try done;
    intros y Hy; by right.
Qed.

(** Chains what is later. *)
Ltac stays := cbn; first [reflexivity | assumption | etrans; [eassumption|]; stays].

Section steps.
Context `{UnicodeTables, JsonFloats} (c : Controller) (outageSince : gmap string time).
Abbreviation wpf := (wp (failover_protocol c outageSince)).

Lemma wp_step {A R} (r : Request R) (k : R → prog A) w Q :
  quiet r = true → (∀ x, later w (noted w R r x) → wpf (k x) (noted w R r x) Q) → wpf (call r ≫= k) w Q.
Proof.
  intros Hr Hk. apply wp_request; [by destruct r|]. intros x. by apply Hk, noted_quiet.
Qed.

Lemma wp_later_bind {A B} (p : prog A) (f : A → prog B) w Q :
  wpf p w (λ _, later w) → (∀ a w', later w w' → wpf (f a) w' Q) → wpf (p ≫= f) w Q.
Proof. intros Hp Hf. rewrite wp_bind. eapply wp_mono; [|exact Hp]. cbn. intros a w'. apply Hf. Qed.

Lemma record_later event w : wpf (record event) w (λ _, later w).
Proof.
  unfold record. apply wp_later_bind.
  { destruct (is_zero_time _); [|stays]. apply wp_step; [done|]. intros now Hl. stays. }
  intros e w1 Hl1. apply wp_step; [done|]. intros x Hl2. stays.
Qed.

Lemma aggregateTraffic_later bindings since until label w :
  wpf (aggregateTraffic bindings since until label) w (λ _, later w).
Proof.
  eapply wp_mono; [|apply (wp_for_each (failover_protocol c outageSince) _ (λ _, later w) (λ _, later w)); [reflexivity|]].
  { by intros [?|?]. }
  intros b r w1 _ Hl. apply wp_step; [done|]. intros [?|?] Hl'; stays.
Qed.

Lemma narrow_tail_later bindings now required n low high best w :
  wpf (narrow_tail bindings now required n low high best) w (λ _, later w).
Proof.
  revert low high best w. induction n as [|n IH]; intros low high best w; [stays|]. cbn [narrow_tail].
  apply wp_later_bind; [apply aggregateTraffic_later|]. intros [tail|[? e]] w1 Hl; [|stays].
  destruct (_ <=? _)%Z; (eapply wp_mono; [|apply IH]); intros; stays.
Qed.

Lemma hasConsecutiveHardTraffic_later bindings now settings w :
  wpf (hasConsecutiveHardTraffic bindings now settings) w (λ _, later w).
Proof.
  apply wp_later_bind; [apply aggregateTraffic_later|].
  intros [best|[? e]] w1 Hl; [|stays]. destruct (_ || _); [stays|].
  apply wp_later_bind; [eapply wp_mono; [|apply narrow_tail_later]; intros; stays|]. intros [?|?] w2 Hl2; stays.
Qed.

Lemma assessPool_later bindings now settings w : wpf (assessPool bindings now settings) w (λ _, later w).
Proof.
  unfold assessPool. case_bool_decide; [stays|]. apply wp_later_bind.
  { eapply wp_mono; [|apply (wp_for_each (failover_protocol c outageSince) _ (λ _, later w) (λ _, later w)); [reflexivity|]].
    { by intros [?|?]. }
    intros b s w1 _ Hl. apply wp_step; [done|]. intros [?|?] Hl'; stays. }
  intros [s|[result e]] w1 Hl; [|stays]. destruct (sc_allDisabled s); [stays|]. destruct (sc_hardThree s); [|stays].
  cbn [negb]. apply wp_later_bind; [|intros [b|e] w2 Hl2; stays]. eapply wp_mono; [|apply hasConsecutiveHardTraffic_later]. intros; stays.
Qed.

Lemma ready_later w w' p : later w w' → ready w p → ready w' p.
Proof.
  intros [] [(? & ? & ? & sources & policies & ? & ? & ?) ? [? (status & ? & ?)]].
  split; [|done|split; [done|exists status; by split; [congruence|]]].
  split; [congruence|]. split; [congruence|]. split; [auto|]. exists sources, policies. split_and!; try done; congruence.
Qed.

Lemma cycle_grounds_later w w' p pool :
  later w w' → cycle_grounds c outageSince w p pool → cycle_grounds c outageSince w' p pool.
Proof. intros Hl [? ? ? ?]. split; [by eapply ready_later|done|by rewrite (lt_moves _ _ Hl)|done]. Qed.

(** One more transition was carried out. *)
Definition moved (w w' : failover_watch) : Prop := later (w <| fw_moves := (fw_moves w + 1)%Z |>) w'.


Lemma later_moved w w1 w2 : later w w1 → moved w1 w2 → moved w w2.
Proof.
  intros [] []. destruct w, w1. upd in lt_settings1. upd in lt_snapshot1. upd in lt_telemetry1. upd in lt_sources1.
  upd in lt_policies1. upd in lt_moves1. upd in lt_clock1. upd in lt_counts1. cbn in *. split; upd; try congruence; by etrans.
Qed.

Lemma moved_later w w1 w2 : moved w w1 → later w1 w2 → moved w w2.
Proof. unfold moved. intros ? ?. by etrans. Qed.

(** What the handling of an outage leaves. *)
Definition handled (dryRun : bool) (w : failover_watch) (r : bool * option failure) (w' : failover_watch) : Prop :=
  match r with
  | (true, None) => if dryRun then later w w' else moved w w'
  | _ => later w w'
  end.
Definition handled_so_far (dryRun : bool) (w : failover_watch) (next : flow unit (bool * option failure)) (w' : failover_watch)
    : Prop :=
  match next with Next _ => later w w' | Return r => handled dryRun w r w' end.

Lemma handled_later dryRun w w1 next w2 :
  later w w1 → handled_so_far dryRun w1 next w2 → handled_so_far dryRun w next w2.
Proof.
  intros Hl. destruct next as [[]|[[] [e|]]]; cbn; try (intros ?; by etrans).
  destruct dryRun; [intros ?; by etrans|by apply later_moved].
Qed.

Section handling.
Context (p : plan) (pool : string) (dryRun : bool) (assessment : poolAssessment).
Abbreviation policies := (default [] (pn_poolPolicies p !! pool)).

Lemma attempt_wp policy source state target skipped w :
  policy ∈ policies → pn_sourceByID p !! gp_SourceID policy = Some source →
  policy_fit policy (pn_now p) = true → source_fit source (pn_now p) (pn_settings p) = true →
  gs_ValidationStatus (gp_State policy) ∉ unsettled →
  nextEnabledTier policy (effectiveTier policy source) = (target, skipped) → target ≠ "" →
  (before_now (gs_CooldownUntil (gp_State policy)) (pn_now p) = false
    ∨ effectiveTier policy source = GroupTierBackup ∧ target = GroupTierEmergency) →
  (dryRun = false → cycle_grounds c outageSince w p pool) →
  wpf (attempt c pool policy source state target skipped assessment (pn_now p) dryRun (pn_settings p)) w
    (handled_so_far dryRun w).
Proof.
  intros Hpolicy Hsource Hfit Hsfit Hsettled Htarget Hne Hcool Hcycle. unfold attempt.
  apply wp_step; [done|]. intros [n30|e] Hl1; [|stays].
  apply wp_step; [done|]. intros [n6h|e] Hl2; [|stays].
  destruct (_ || _) eqn:Elimit; [apply wp_step; [done|]; intros x Hl3; stays|].
  destruct (_ || _ || _) eqn:Egroup; [apply wp_step; [done|]; intros x Hl3; stays|].
  apply orb_false_iff in Elimit as [E30%Z.leb_gt E6h%Z.leb_gt].
  apply orb_false_iff in Egroup as [[_ Eg%negb_false_iff]%orb_false_iff Ek%negb_false_iff].
  apply wp_request.
  - destruct dryRun; [by left|right]. exists p, pool, policy, source. specialize (Hcycle eq_refl).
    assert (later w (noted (noted w _ (CountCompletedGroupTierTransitions (gp_SourceID policy) (gp_KeyID policy)
      (pn_now p - minutes (st_FailoverShortLimitWindowMinutes (pn_settings p)))) (Ok n30)) _
      (CountCompletedGroupTierTransitions (gp_SourceID policy) (gp_KeyID policy)
      (pn_now p - minutes (st_FailoverLongLimitWindowMinutes (pn_settings p)))) (Ok n6h))) as Hl by (by etrans).
    split; cbn [tr_TargetTier transition_request tr_SourceID tr_KeyID tr_Manual tr_AutomationLeaseHeld]; try done.
    + by eapply cycle_grounds_later.
    + rewrite Htarget. done.
    + exists n30, n6h. cbn [noted]. read_fields. split; [right; by left|]. split; [by left|done].
  - intros [t [e|]]; cbn [noted tr_DryRun transition_request snd]; cbn; [stays|].
    destruct dryRun; [stays|]. apply (later_moved w _ _ (transitivity Hl1 Hl2)). unfold moved. cbn [noted]. reflexivity.
Qed.

Lemma exhaust_wp policy source state current skipped w :
  wpf (exhaust policy source state current skipped) w (handled_so_far dryRun w).
Proof.
  apply wp_step; [done|]. intros [u|e] Hl; [|stays]. cbn [set_error].
  apply wp_later_bind; [apply record_later|]. intros ? w1 Hl1. stays.
Qed.

Lemma handle_policy_wp activePolicy policy w :
  policy ∈ policies → (dryRun = false → cycle_grounds c outageSince w p pool) →
  wpf (handle_policy c pool activePolicy (pn_sourceByID p) assessment (pn_now p) dryRun (pn_settings p) policy ()) w
    (handled_so_far dryRun w).
Proof.
  intros Hpolicy Hcycle. unfold handle_policy. destruct (_ && _); [stays|].
  destruct (pn_sourceByID p !! gp_SourceID policy) as [source|] eqn:Hsource; [|stays].
  destruct (policy_fit policy (pn_now p)) eqn:Hfit; [|stays].
  destruct (source_fit source (pn_now p) (pn_settings p)) eqn:Hsfit; [|stays]. cbn [andb negb].
  case_bool_decide as Hsettled; [stays|].
  assert (∀ state w1, later w w1 → gs_CooldownUntil state = gs_CooldownUntil (gp_State policy) →
    wpf (let '(target, skipped) := nextEnabledTier policy (effectiveTier policy source) in
         if bool_decide (target = "") then exhaust policy source state (effectiveTier policy source) skipped else
         if before_now (gs_CooldownUntil state) (pn_now p)
            && negb (bool_decide (effectiveTier policy source = GroupTierBackup) && bool_decide (target = GroupTierEmergency))
         then mret (Next ())
         else attempt c pool policy source state target skipped assessment (pn_now p) dryRun (pn_settings p)) w1
      (handled_so_far dryRun w)) as Hmove.
  { intros state w1 Hl Hcool. destruct (nextEnabledTier policy (effectiveTier policy source)) as [target skipped] eqn:Etarget.
    eapply wp_mono; [intros a w2; by apply (handled_later dryRun w w1)|].
    case_bool_decide as Hne; [apply exhaust_wp|]. destruct (_ && negb _) eqn:Ecool; [stays|].
    apply attempt_wp; try done; [|intros Hd; eapply cycle_grounds_later; [exact Hl|by apply Hcycle]].
    rewrite Hcool in Ecool. destruct (before_now _ _); [right|by left]. cbn in Ecool. bool_facts. done. }
  unfold confirm_failed. destruct (bool_decide (gs_ValidationStatus (gp_State policy) = _)); [by apply Hmove|]. destruct (negb _); [stays|].
  apply wp_step; [done|]. intros [u|e] Hl; [|stays]. cbn [set_error]. apply Hmove; [done|]. by read_fields.
Qed.

Lemma handleOutage_wp w :
  (dryRun = false → cycle_grounds c outageSince w p pool) →
  wpf (handleOutage c pool policies (pn_sourceByID p) assessment (pn_now p) dryRun (pn_settings p)) w (handled dryRun w).
Proof.
  intros Hcycle. unfold handleOutage. rewrite wp_bind.
  eapply wp_mono; [|apply (wp_for_each (failover_protocol c outageSince) _ (λ _, later w) (handled dryRun w)); [reflexivity|]].
  { by intros [[]|r] w1. }
  intros policy [] w1 Hpolicy Hl. eapply wp_mono; [|apply handle_policy_wp; [done|]].
  - intros next w2 Hn. apply (handled_later dryRun w w1 next w2 Hl) in Hn. by destruct next.
  - intros Hd. eapply cycle_grounds_later; [exact Hl|by apply Hcycle].
Qed.
End handling.

(** ** Cycles *)

Lemma ready_moved w w' p : moved w w' → ready w p → ready w' p.
Proof.
  intros Hm Hr. apply (ready_later _ w' p Hm). destruct Hr as [Hread ? [? Hs]]. split; by read_fields.
Qed.

(** Between the pools: what was carried out is what was counted. *)
Record on_plan (p : plan) (s : cycle) (w : failover_watch) : Prop := {
  op_ready : ready w p;
  op_moves : fw_moves w = cy_mutations s;
}.

Lemma on_plan_later p s w w' : later w w' → on_plan p s w → on_plan p s w'.
Proof. intros Hl [? ?]. split; [by eapply ready_later|by rewrite (lt_moves _ _ Hl)]. Qed.

Lemma act_on_outage_wp p pool assessment s w :
  on_plan p s w → pn_dryRun p = negb (bool_decide (st_FailoverMode (pn_settings p) = FailoverModeControl)) →
  (hasConfirmedGroupFailure (default [] (pn_poolPolicies p !! pool)) = true
   ∨ ∃ since, outageSince !! pool = Some since ∧ is_zero_time since = false
       ∧ (agent_grace c (pn_settings p) ≤ sub_time (pn_now p) since)%Z) →
  wpf (act_on_outage c p pool (default [] (pn_poolPolicies p !! pool)) assessment s) w
    (λ s' w', on_plan p s' w' ∧ cy_outageSince s' = cy_outageSince s).
Proof.
  intros [Hready Hmoves] Hdry Houtage. unfold act_on_outage.
  set (budgetAvailable := (cy_mutations s <? pn_budget p)%Z).
  rewrite wp_bind. eapply wp_mono; [|apply (handleOutage_wp p pool (pn_dryRun p || negb budgetAvailable))].
  - intros [acted err] w1 Hh.
    assert (∀ s1, cy_mutations s1 = cy_mutations s → later w w1 → on_plan p s1 w1) as Hsame.
    { intros s1 Hs1 Hl. split; [by eapply ready_later|]. by rewrite (lt_moves _ _ Hl), Hs1. }
    destruct err as [e|].
    { cbn [handled] in Hh. destruct acted; cbn; (split; [|by read_fields]); (apply Hsame; [by read_fields|done]). }
    destruct acted; [|cbn; by split; [apply Hsame|]]. cbn [handled] in Hh.
    destruct budgetAvailable, (pn_dryRun p); cbn [orb negb andb] in Hh |- *.
    + cbn. by split; [apply Hsame|].
    + cbn. split; [|by read_fields]. split; [by eapply ready_moved|]. read_fields.
      rewrite (lt_moves _ _ Hh). read_fields. by rewrite Hmoves.
    + cbn. by split; [apply Hsame|].
    + apply wp_later_bind; [apply record_later|]. intros [] w2 Hl. cbn. split; [|done].
      eapply on_plan_later; [exact Hl|]. by apply Hsame.
  - intros [Hd Hb%negb_false_iff]%orb_false_iff. rewrite Hd in Hdry. split; [done| | |done].
    + symmetry in Hdry. apply negb_false_iff, bool_decide_eq_true in Hdry. done.
    + unfold budgetAvailable in Hb. rewrite Hmoves. by apply Z.ltb_lt.
Qed.

(** The pools that are left know the outages of before. *)
Definition outages_kept (pools : list string) (s : cycle) : Prop :=
  NoDup pools ∧ ∀ pool, pool ∈ pools → cy_outageSince s !! pool = outageSince !! pool.

Lemma outages_kept_next pool pools s s' :
  outages_kept (pool :: pools) s → (∀ other, other ≠ pool → cy_outageSince s' !! other = cy_outageSince s !! other) →
  outages_kept pools s'.
Proof.
  intros [[Hnot Hnd]%NoDup_cons Hk] Hs'. split; [done|]. intros other Hin. rewrite Hs' by (intros ->; done).
  apply Hk. by right.
Qed.

Lemma run_pool_wp p pool pools s w :
  pn_dryRun p = negb (bool_decide (st_FailoverMode (pn_settings p) = FailoverModeControl)) →
  on_plan p s w ∧ outages_kept (pool :: pools) s →
  wpf (run_pool c p pool s) w (λ s' w', on_plan p s' w' ∧ outages_kept pools s').
Proof.
  intros Hdry [Hop Hk]. unfold run_pool. apply wp_later_bind; [apply assessPool_later|].
  intros [assessment err] w1 Hl. apply (on_plan_later _ _ _ _ Hl) in Hop.
  destruct err as [e|].
  { apply wp_later_bind; [apply record_later|]. intros [] w2 Hl2. cbn. split.
    - destruct (on_plan_later _ _ _ _ Hl2 Hop). by split; read_fields.
    - apply (outages_kept_next pool _ s); [done|]. intros other _. by read_fields. }
  assert (∀ s1, cy_mutations s1 = cy_mutations s → on_plan p s1 w1) as Hop1
    by (intros s1 Hs1; destruct Hop; split; congruence).
  destruct (hasConfirmedGroupFailure _) eqn:Hconfirmed.
  { eapply wp_mono; [|apply act_on_outage_wp; [by apply Hop1; read_fields|done|by left]].
    intros s' w2 [? Eo]. split; [done|]. apply (outages_kept_next pool _ s _ Hk). intros other Hne. rewrite Eo. read_fields.
    by rewrite lookup_delete_ne. }
  destruct (pa_Outage assessment); cbn [negb].
  2:{ cbn. split; [by apply Hop1; read_fields|]. apply (outages_kept_next pool _ s _ Hk). intros other Hne. read_fields.
      by rewrite lookup_delete_ne. }
  destruct (is_zero_time (default zero_time (cy_outageSince s !! pool))) eqn:Ez.
  { apply wp_later_bind; [apply record_later|]. intros [] w2 Hl2. cbn. split.
    - eapply on_plan_later; [exact Hl2|]. by apply Hop1; read_fields.
    - apply (outages_kept_next pool _ s _ Hk). intros other Hne. read_fields. by rewrite lookup_insert_ne. }
  destruct (_ <? _)%Z eqn:Egrace; [cbn; split; [done|]; by apply (outages_kept_next pool _ s)|].
  eapply wp_mono; [|apply act_on_outage_wp; [done|done|right]].
  - intros s' w2 [? Eo]. split; [done|]. apply (outages_kept_next pool _ s _ Hk). intros other Hne. by rewrite Eo.
  - destruct Hk as [_ Hk]. rewrite Hk in Ez, Egrace by (by left).
    destruct (outageSince !! pool) as [since|]; cbn in Ez, Egrace; [|done].
    exists since. split; [done|]. split; [done|]. by apply Z.ltb_ge in Egrace.
Qed.

Lemma run_plan_wp p w :
  ready w p → fw_moves w = 0%Z → pn_dryRun p = negb (bool_decide (st_FailoverMode (pn_settings p) = FailoverModeControl)) →
  wpf (run_plan c p outageSince) w (λ _ _, True).
Proof.
  intros Hready Hmoves Hdry. unfold run_plan. rewrite wp_bind.
  eapply wp_mono; [|apply (wp_for_all (failover_protocol c outageSince) _
    (λ pools s w, on_plan p s w ∧ outages_kept pools s))].
  - intros s w1 _. cbn. by split.
  - split; [by split|]. split; [|done]. rewrite sort_slice_Permutation. apply NoDup_elements.
  - intros pool pools s w1. by apply run_pool_wp.
Qed.

Lemma run_cycle_wp w : fw_moves w = 0%Z → wpf (run_cycle c outageSince) w (λ _ _, True).
Proof.
  intros Hmoves. unfold run_cycle. apply wp_request; [done|]. intros now. apply wp_request; [done|]. intros snapshot.
  destruct (fs_AllAutomation _) eqn:Hauto; [cbn; by split|].
  apply wp_request; [done|]. intros [settings|e]; [|done].
  case_bool_decide; [cbn; by split|]. destruct (stale_snapshot _ _ _) eqn:Hfresh; [done|].
  apply wp_request; [done|]. intros status. destruct (stale_telemetry _ _ _) eqn:Htelemetry; [done|].
  apply wp_request; [done|]. intros [sources|e]; [|done].
  apply wp_request; [done|]. intros [policies|e]; [|done]. case_bool_decide; [cbn; by split|].
  apply run_plan_wp; [|cbn [observe failover_protocol noted]; by read_fields|done].
  cbn [observe failover_protocol noted]. split; cbn [pn_settings pn_snapshot pn_now make_plan]; read_fields; try done.
  - split; [done|]. split; [done|]. split; [by left|]. exists sources, policies. by read_fields.
  - split; [done|]. exists status. by read_fields.
Qed.

Lemma ProcessFailoverEvidence_wp w : wpf (ProcessFailoverEvidence c) w (λ _ w', fw_moves w' = fw_moves w).
Proof.
  unfold ProcessFailoverEvidence. apply wp_request; [done|]. intros busy. destruct busy; [done|].
  rewrite wp_bind. eapply (wp_mono (failover_protocol c outageSince) _ _ (λ _ w', fw_moves w' = fw_moves w)).
  { intros r w1 Hw1. cbn. by split. }
  destruct (negb _); [done|]. apply wp_request; [done|]. intros [settings|e]; [|done].
  apply wp_request; [done|]. intros [policies|e]; [|cbn; by read_fields].
  apply wp_request; [done|]. intros snapshot. apply wp_request; [done|]. intros now. rewrite wp_bind.
  set (w0 := observe _ _ _ _ _). assert (fw_moves w0 = fw_moves w) as <- by (cbn; by read_fields).
  eapply wp_mono; [|apply (wp_for_all (failover_protocol c outageSince) _ (λ _ _, later w0)); [reflexivity|]].
  { intros errors w1 Hl. cbn. by rewrite (lt_moves _ _ Hl). }
  intros policy _ errors w1 Hl1. unfold process_policy. destruct (negb _); [stays|].
  apply wp_step; [done|]. intros [items|e] Hl2; [|stays].
  destruct (judge settings now items (gp_State policy)) as [state changed]. destruct (negb changed); [stays|].
  apply wp_step; [done|]. intros [[]|e] Hl3; [|stays|stays].
  apply wp_later_bind; [|intros; stays]. unfold report_validation.
  destruct (bool_decide _); [eapply wp_mono; [|apply record_later]; intros; stays|].
  destruct (bool_decide _).
  - apply wp_later_bind; [apply record_later|]. intros [] w4 Hl4. cbn. split; [done|]. intros []. stays.
  - destruct (bool_decide _); [eapply wp_mono; [|apply record_later]; intros; stays|stays].
Qed.

Lemma RunOnce_wp : wpf (RunOnce c outageSince) nothing_read (λ _ _, True).
Proof.
  unfold RunOnce. apply wp_request; [done|]. intros busy. destruct busy; [done|]. rewrite wp_bind.
  eapply (wp_mono (failover_protocol c outageSince) _ _ (λ _ w, fw_moves w = 0%Z)).
  - intros [e|] w1 Hw1; rewrite wp_bind; [cbn; by split|].
    eapply wp_mono; [|by apply run_cycle_wp]. cbn. by split.
  - destruct (c_evidence c); [|done]. eapply wp_mono; [|apply ProcessFailoverEvidence_wp]. done.
Qed.
End steps.


