(* ===== verification/FailoverEvidence.v ===== *)
(** * Evidence about a move is counted once, and only when it is about the move

    The loop of [ProcessFailoverEvidence] over the observations, as what it leaves of the
    state of a policy: the counts, the status they lead to, and the cursors. *)

From S2P Require Import Prelude GoStd Float JsonText Model ModelHealth ModelFailover Requests MutationError TrafficStats FailoverPolicy FailoverController FailoverSandbox.

(** What the loop never changes, and evidence is judged by. *)
Record same_move (s s' : GroupFailoverState) : Prop := {
  sm_source : gs_SourceID s' = gs_SourceID s;
  sm_key : gs_KeyID s' = gs_KeyID s;
  sm_transition : gs_ValidationTransitionID s' = gs_ValidationTransitionID s;
  sm_tier : gs_ValidationTargetTier s' = gs_ValidationTargetTier s;
  sm_group : gs_ValidationTargetGroupID s' = gs_ValidationTargetGroupID s;
  sm_verified : gs_SwitchVerifiedAt s' = gs_SwitchVerifiedAt s;
  sm_boundary : gs_ValidationNotBefore s' = gs_ValidationNotBefore s;
  sm_deadline : gs_EvidenceDeadline s' = gs_EvidenceDeadline s;
  sm_frozen : gs_Frozen s' = gs_Frozen s;
  sm_hold : gs_ManualHoldUntil s' = gs_ManualHoldUntil s;
  sm_override : gs_ManualOverrideUntil s' = gs_ManualOverrideUntil s;
  sm_cooldown : gs_CooldownUntil s' = gs_CooldownUntil s;
  sm_current : gs_CurrentTier s' = gs_CurrentTier s;
  sm_observed : gs_ObservedGroupID s' = gs_ObservedGroupID s;
}.

#[export] Instance same_move_preorder : PreOrder same_move.
Proof. split; [by split|]. intros s1 s2 s3 [] []. split; congruence. Qed.

Section judging.
Context `{UnicodeTables} (settings : Settings) (now : time).

Lemma attributable_same item s s' : same_move s s' → attributable settings now item s' = attributable settings now item s.
Proof.
  intros Hs. unfold attributable, evidenceMatchesValidation, evidenceOccurrenceAt.
  by rewrite (sm_source _ _ Hs), (sm_key _ _ Hs), (sm_transition _ _ Hs), (sm_tier _ _ Hs), (sm_group _ _ Hs),
    (sm_verified _ _ Hs), (sm_boundary _ _ Hs).
Qed.

(** The observation is of the move: it carries no identifier of another one, is fresh,
    and what it observed happened after the boundary. *)
Record about_move (item : GroupValidationEvidence) (s : GroupFailoverState) (v : verdict) : Prop := {
  am_matches : evidenceMatchesValidation item s = true;
  am_classified : classifyPostSwitchEvidence item = Some v;
  am_fresh : (ge_ObservedAt item ≤ now)%Z
    ∧ (sub_time now (ge_ObservedAt item) ≤ minutes (st_FailoverAccountFreshMinutes settings))%Z;
  am_after : ∃ occurrence boundary, evidenceOccurrenceAt item s = Some occurrence
    ∧ gs_ValidationNotBefore s = Some boundary ∧ (boundary ≤ occurrence ≤ now)%Z;
}.

Lemma attributable_about item s v : attributable settings now item s = Some v → about_move item s v.
Proof.
  unfold attributable. destruct (_ || _) eqn:E; [done|]. bool_facts.
  destruct (evidenceOccurrenceAt item s) as [occurrence|] eqn:Eo; [|done].
  destruct (gs_ValidationNotBefore s) as [boundary|] eqn:Eb; [|done].
  destruct (_ || _) eqn:E'; [done|]. intros Hv. bool_facts. unfold before, after in *. bool_facts.
  split; [done|done|done|]. exists occurrence, boundary. done.
Qed.

(** The verdicts of the observations about the move, in order. *)
Definition verdicts (s : GroupFailoverState) (items : list GroupValidationEvidence) : list verdict :=
  omap (λ item, attributable settings now item s) items.

Definition is_success (v : verdict) : bool := match v with Success => true | Failed => false end.
Definition successes (l : list verdict) : Z := tally is_success l.
Definition failures (l : list verdict) : Z := tally (λ v, negb (is_success v)) l.

(** The status that the verdicts lead to, one after the other: a success is enough, a
    failure counts from the threshold on. *)
Fixpoint reached (failed : Z) (status : string) (l : list verdict) : string :=
  match l with
  | [] => status
  | Success :: l => reached failed GroupValidationConfirmedHealthy l
  | Failed :: l =>
      reached (failed + 1)
        (if (st_FailoverMonitorFailures settings <=? failed + 1)%Z then GroupValidationConfirmedFailed else status) l
  end.

Definition cursor (source : string) (s : GroupFailoverState) : Z :=
  if bool_decide (source = "monitor") then gs_MonitorEvidenceCursor s else gs_TrafficEvidenceCursor s.

(** The observation is of one of the two kinds the store lists. *)
Definition known_source (item : GroupValidationEvidence) : Prop := ge_Source item = "monitor" ∨ ge_Source item = "traffic".

(** Not yet passed by the cursor of its kind, as the store selects. *)
Definition unread (s : GroupFailoverState) (item : GroupValidationEvidence) : bool := (cursor (ge_Source item) s <? ge_ID item)%Z.

(** What one observation leaves. *)
Record absorbed (item : GroupValidationEvidence) (s s' : GroupFailoverState) : Prop := {
  ab_same : same_move s s';
  ab_monitor : (gs_MonitorEvidenceCursor s ≤ gs_MonitorEvidenceCursor s')%Z;
  ab_traffic : (gs_TrafficEvidenceCursor s ≤ gs_TrafficEvidenceCursor s')%Z;
  ab_read : known_source item → unread s' item = false;
  ab_success : gs_SuccessfulEvidenceCount s' = (gs_SuccessfulEvidenceCount s + successes (verdicts s [item]))%Z;
  ab_failed : gs_FailedEvidenceCount s' = (gs_FailedEvidenceCount s + failures (verdicts s [item]))%Z;
  ab_status : (0 ≤ gs_SuccessfulEvidenceCount s)%Z →
    gs_ValidationStatus s' = reached (gs_FailedEvidenceCount s) (gs_ValidationStatus s) (verdicts s [item]);
}.

Lemma advance_cursors_same item p :
  same_move p.1 (advance_cursors item p).1
  ∧ (gs_MonitorEvidenceCursor p.1 ≤ gs_MonitorEvidenceCursor (advance_cursors item p).1)%Z
  ∧ (gs_TrafficEvidenceCursor p.1 ≤ gs_TrafficEvidenceCursor (advance_cursors item p).1)%Z
  ∧ (known_source item → unread (advance_cursors item p).1 item = false)
  ∧ gs_SuccessfulEvidenceCount (advance_cursors item p).1 = gs_SuccessfulEvidenceCount p.1
  ∧ gs_FailedEvidenceCount (advance_cursors item p).1 = gs_FailedEvidenceCount p.1
  ∧ gs_ValidationStatus (advance_cursors item p).1 = gs_ValidationStatus p.1
  ∧ ((advance_cursors item p).2 = false → (advance_cursors item p).1 = p.1).
Proof.
  destruct p as [s changed]. unfold advance_cursors, unread, cursor. cbn [fst snd].
  destruct (bool_decide (ge_Source item = "monitor")) eqn:Em, (bool_decide (ge_Source item = "traffic")) eqn:Et; bool_facts;
    try congruence; cbn [andb].
  - destruct (_ <? _)%Z eqn:E; cbn [fst snd]; split_and!; read_fields; try done; try (by split; read_fields);
      cbn [fst snd] in *; bool_facts; try lia; try discriminate; intros _; apply Z.ltb_ge; lia.
  - destruct (_ <? _)%Z eqn:E; cbn [fst snd]; split_and!; read_fields; try done; try (by split; read_fields);
      cbn [fst snd] in *; bool_facts; try lia; try discriminate; intros _; apply Z.ltb_ge; lia.
  - cbn [fst snd]. split_and!; try done. intros [?|?]; congruence.
Qed.

(** What a counted observation changes besides the note of it. *)
Record counted (s s' : GroupFailoverState) (successes failures : Z) : Prop := {
  co_same : same_move s s';
  co_monitor : gs_MonitorEvidenceCursor s' = gs_MonitorEvidenceCursor s;
  co_traffic : gs_TrafficEvidenceCursor s' = gs_TrafficEvidenceCursor s;
  co_success : gs_SuccessfulEvidenceCount s' = (gs_SuccessfulEvidenceCount s + successes)%Z;
  co_failed : gs_FailedEvidenceCount s' = (gs_FailedEvidenceCount s + failures)%Z;
}.

Lemma count_success_counted item s :
  counted s (count_success item (note_evidence item s)) 1 0
  ∧ ((0 ≤ gs_SuccessfulEvidenceCount s)%Z →
      gs_ValidationStatus (count_success item (note_evidence item s)) = GroupValidationConfirmedHealthy).
Proof.
  unfold count_success, note_evidence. destruct (_ <=? _)%Z eqn:E; (split; [split; [split|..]|]); read_fields; try done; try lia.
  revert E. read_fields. unfold GroupValidationMinimumSuccesses. intros ?%Z.leb_gt ?. lia.
Qed.

Lemma count_failure_counted item s :
  counted s (count_failure settings (note_evidence item s)) 0 1
  ∧ gs_ValidationStatus (count_failure settings (note_evidence item s))
    = if (st_FailoverMonitorFailures settings <=? gs_FailedEvidenceCount s + 1)%Z
      then GroupValidationConfirmedFailed else gs_ValidationStatus s.
Proof.
  unfold count_failure, note_evidence. destruct (_ <=? _)%Z eqn:E; (split; [split; [split|..]|]); read_fields; try done; try lia.
  all: revert E; read_fields; by intros ->.
Qed.

Lemma absorb_absorbed item p : absorbed item p.1 (absorb settings now p item).1.
Proof.
  destruct (advance_cursors_same item p) as (Hs & Hm & Ht & Hr & Hok & Hko & Hst & _).
  unfold absorb. set (p1 := advance_cursors item p) in *. clearbody p1.
  assert (attributable settings now item p1.1 = attributable settings now item p.1) as Ha by (by apply attributable_same).
  rewrite Ha. destruct p as [s ch], p1 as [s1 ch1]. cbn [fst] in *.
  assert (∀ s2 n m, counted s1 s2 n m → n = successes (verdicts s [item]) → m = failures (verdicts s [item]) →
    ((0 ≤ gs_SuccessfulEvidenceCount s)%Z → gs_ValidationStatus s2
      = reached (gs_FailedEvidenceCount s) (gs_ValidationStatus s) (verdicts s [item])) → absorbed item s s2) as Hkeep.
  { intros s2 n m [] -> -> ?. split; try done; try lia; [by etrans|]. unfold unread, cursor in *. by rewrite co_monitor0, co_traffic0. }
  assert (verdicts s [item] = match attributable settings now item s with Some v => [v] | None => [] end) as Ev
    by (unfold verdicts; cbn; by destruct (attributable settings now item s)).
  destruct (attributable settings now item s) as [[]|]; cbn [fst]; eapply Hkeep; rewrite ?Ev; try reflexivity.
  - apply count_success_counted.
  - rewrite <-Hok. apply count_success_counted.
  - apply count_failure_counted.
  - intros _. cbn. rewrite <-Hko, <-Hst. apply count_failure_counted.
  - change (successes []) with 0%Z. change (failures []) with 0%Z. split; try done; lia.
  - by intros _.
Qed.

Lemma absorb_changed item p :
  (absorb settings now p item).2 = false → (absorb settings now p item).1 = p.1 ∧ p.2 = false.
Proof.
  destruct (advance_cursors_same item p) as (_ & _ & _ & _ & _ & _ & _ & He). unfold absorb.
  assert ((advance_cursors item p).2 = false → p.2 = false) as Hmono.
  { unfold advance_cursors. cbv zeta. repeat case_match; done. }
  destruct (attributable _ _ _ _) as [[]|]; [done..|]. auto.
Qed.

(** What a list of observations leaves. *)
Record judged (items : list GroupValidationEvidence) (s s' : GroupFailoverState) : Prop := {
  ju_same : same_move s s';
  ju_monitor : (gs_MonitorEvidenceCursor s ≤ gs_MonitorEvidenceCursor s')%Z;
  ju_traffic : (gs_TrafficEvidenceCursor s ≤ gs_TrafficEvidenceCursor s')%Z;
  ju_read : ∀ item, item ∈ items → known_source item → unread s' item = false;
  ju_success : gs_SuccessfulEvidenceCount s' = (gs_SuccessfulEvidenceCount s + successes (verdicts s items))%Z;
  ju_failed : gs_FailedEvidenceCount s' = (gs_FailedEvidenceCount s + failures (verdicts s items))%Z;
  ju_status : (0 ≤ gs_SuccessfulEvidenceCount s)%Z →
    gs_ValidationStatus s' = reached (gs_FailedEvidenceCount s) (gs_ValidationStatus s) (verdicts s items);
}.

Lemma verdicts_same items s s' : same_move s s' → verdicts s' items = verdicts s items.
Proof.
  intros Hs. unfold verdicts. induction items as [|item items IH]; [done|]. cbn.
  by rewrite (attributable_same item s s' Hs), IH.
Qed.

Lemma verdicts_cons item items s : verdicts s (item :: items) = verdicts s [item] ++ verdicts s items.
Proof. unfold verdicts. cbn. by destruct (attributable settings now item s). Qed.

Lemma reached_app failed status l1 l2 :
  reached failed status (l1 ++ l2) = reached (failed + failures l1) (reached failed status l1) l2.
Proof.
  revert failed status. induction l1 as [|[] l1 IH]; intros failed status; cbn [app reached].
  - unfold failures, tally. cbn. by rewrite Z.add_0_r.
  - rewrite IH. done.
  - rewrite IH. f_equal. unfold failures, tally. rewrite filter_cons, decide_True by done. cbn [length]. lia.
Qed.

Lemma unread_later s s' item :
  (gs_MonitorEvidenceCursor s ≤ gs_MonitorEvidenceCursor s')%Z → (gs_TrafficEvidenceCursor s ≤ gs_TrafficEvidenceCursor s')%Z →
  unread s item = false → unread s' item = false.
Proof. unfold unread, cursor. intros Hm Ht. case_bool_decide; rewrite !Z.ltb_ge; lia. Qed.

Lemma absorb_all items p : judged items p.1 (foldl (absorb settings now) p items).1.
Proof.
  revert p. induction items as [|item items IH]; intros p.
  - split; cbn; try done; try lia; [by intros ? ?%not_elem_of_nil|unfold successes, tally; cbn; lia|unfold failures, tally; cbn; lia].
  - cbn [foldl]. destruct (IH (absorb settings now p item)) as [Hs Hm Ht Hr Hok Hko Hst].
    destruct (absorb_absorbed item p) as [Hs1 Hm1 Ht1 Hr1 Hok1 Hko1 Hst1].
    set (p1 := absorb settings now p item) in *. clearbody p1. set (p2 := foldl _ p1 items) in *. clearbody p2.
    rewrite (verdicts_same items _ _ Hs1) in Hok, Hko, Hst.
    split; rewrite ?(verdicts_cons item items); try lia; [by etrans|..].
    + intros i [->|Hi]%elem_of_cons Hk; [|by apply Hr]. eapply unread_later; [exact Hm|exact Ht|by apply Hr1].
    + unfold successes in *. rewrite tally_app. lia.
    + unfold failures in *. rewrite tally_app. lia.
    + intros Hpos. rewrite reached_app, Hst, Hst1, Hko1 by (try done; unfold successes, tally in *; lia). done.
Qed.

Lemma absorb_all_changed items p :
  (foldl (absorb settings now) p items).2 = false → (foldl (absorb settings now) p items).1 = p.1.
Proof.
  assert ((foldl (absorb settings now) p items).2 = false → (foldl (absorb settings now) p items).1 = p.1 ∧ p.2 = false) as Hall;
    [|intros Hf; by apply Hall].
  revert p. induction items as [|item items IH]; intros p; [done|]. cbn [foldl]. intros [E1 E2]%IH.
  apply absorb_changed in E2 as [E3 E4]. split; [congruence|done].
Qed.
End judging.

(** C19: after the observations the store lists as unread, in their order: the counts have
    grown by the verdicts of those about the move, where each of these is an observation
    that carries no identifier of another move, is fresh and is of something that happened
    between the boundary after the switch and now; the status is the one these verdicts
    lead to, or, where that confirms nothing and the deadline has passed, uncertain; the
    move, the freeze, the holds and the cooldown are as they were; if nothing is said to
    have changed, nothing has; and none of the observations will be listed again, so each
    is counted at most once. *)
Theorem judge_counts_once `{UnicodeTables} settings now log s :
  (0 ≤ gs_SuccessfulEvidenceCount s)%Z → Forall known_source log →
  let items := filter (λ item, unread s item = true) log in
  let verdicts := verdicts settings now s items in
  let '(s', changed) := judge settings now items s in
  let status := reached settings (gs_FailedEvidenceCount s) (gs_ValidationStatus s) verdicts in
  gs_SuccessfulEvidenceCount s' = (gs_SuccessfulEvidenceCount s + successes verdicts)%Z
  ∧ gs_FailedEvidenceCount s' = (gs_FailedEvidenceCount s + failures verdicts)%Z
  ∧ (∀ item v, item ∈ items → attributable settings now item s = Some v → about_move settings now item s v)
  ∧ gs_ValidationStatus s'
    = (if negb (bool_decide (status = GroupValidationConfirmedHealthy)) && negb (bool_decide (status = GroupValidationConfirmedFailed))
          && match gs_EvidenceDeadline s with Some deadline => negb (before now deadline) | None => false end
       then GroupValidationUncertain else status)
  ∧ same_move s s'
  ∧ (changed = false → s' = s)
  ∧ filter (λ item, unread s' item = true) log = [].
Proof.
  intros Hpos Hlog items vs. unfold judge.
  destruct (absorb_all settings now items (s, false)) as [Hs Hm Ht Hr Hok Hko Hst].
  pose proof (absorb_all_changed settings now items (s, false)) as Hch.
  set (p := foldl _ _ _) in *. clearbody p. destruct p as [s1 changed]. cbn [fst snd] in *. fold vs in Hok, Hko, Hst.
  specialize (Hst Hpos).
  assert (filter (λ item, unread s1 item = true) log = []) as Hnone.
  { destruct (filter (λ item, unread s1 item = true) log) as [|item rest] eqn:E; [reflexivity|exfalso].
    assert (item ∈ filter (λ item, unread s1 item = true) log) as [Hun Hin]%list_elem_of_filter by (rewrite E; by left).
    destruct (unread s item) eqn:Eu; [|by rewrite (unread_later s s1) in Hun].
    rewrite Hr in Hun; [done| |by rewrite Forall_forall in Hlog; apply Hlog]. by apply list_elem_of_filter. }
  assert (∀ item v, item ∈ items → attributable settings now item s = Some v → about_move settings now item s v) as Habout
    by (intros item v _; apply attributable_about).
  unfold past_deadline. rewrite Hst, (sm_deadline _ _ Hs).
  destruct (_ && _ && _) eqn:E; cbn [fst snd]; split_and!; read_fields; try done.
  etrans; [exact Hs|]. split; by read_fields.
Qed.

(** ** A move refuted by two failures *)

Definition moving_state : GroupFailoverState :=
  the_state <| gs_ValidationStatus := GroupValidationAwaitingEvidence |> <| gs_ValidationTransitionID := 11%Z |>
    <| gs_ValidationTargetTier := GroupTierBackup |> <| gs_SwitchVerifiedAt := Some (noon - 60 * second)%Z |>
    <| gs_ValidationNotBefore := Some (noon - 55 * second)%Z |> <| gs_EvidenceDeadline := Some (noon + 500 * second)%Z |>
    <| gs_MonitorEvidenceCursor := 4%Z |> <| gs_TrafficEvidenceCursor := 8%Z |>.

Definition observation (id : Z) (source status class : string) (observed : time) (started : option time) : GroupValidationEvidence :=
  no_evidence <| ge_ID := id |> <| ge_Source := source |> <| ge_Status := status |> <| ge_ErrorClass := class |>
    <| ge_ObservedAt := observed |> <| ge_RequestStartedAt := started |>.

(** A check that began before the switch, then a failed check and a failed request. *)
Definition three_observations : list GroupValidationEvidence :=
  [observation 5 "monitor" "operational" "" (noon - 40 * second)%Z (Some (noon - 70 * second)%Z);
   observation 6 "monitor" "Failed" "" (noon - 30 * second)%Z (Some (noon - 31 * second)%Z);
   observation 9 "traffic" "error" "capacity" (noon - 20 * second)%Z (Some (noon - 22 * second)%Z)].

Lemma judge_counts_once_witness :
  let M := plain_tables in
  let s' := (judge the_settings noon (filter (λ item, unread moving_state item = true) three_observations) moving_state).1 in
  gs_ValidationStatus s' = GroupValidationConfirmedFailed ∧ gs_FailedEvidenceCount s' = 2%Z
  ∧ gs_SuccessfulEvidenceCount s' = 0%Z ∧ filter (λ item, unread s' item = true) three_observations = [].
Proof.
  cbv zeta.
  pose proof (judge_counts_once (H:=plain_tables) the_settings noon three_observations moving_state) as Hj.
  cbv zeta in Hj. destruct (judge _ _ _ _) as [s' changed] eqn:Ej.
  destruct Hj as (_ & _ & _ & _ & _ & _ & Hnone).
  - vm_compute. discriminate.
  - repeat (constructor; [by (left; reflexivity) || (right; reflexivity)|]). constructor.
  - cbn [fst]. split_and!; [..|exact Hnone]; vm_compute in Ej; injection Ej as <- _; reflexivity.
Defined.
