(* ===== verification/BalanceCalls.v ===== *)
(** * The balance manager: its requests and its helpers

    [internal/balance/manager.go] and the small functions of [fetcher.go] and
    [failover.go]: what the manager asks of the store, of the fetcher of upstream
    accounts, of the box that keeps credentials, of the locks, the barrier and the freeze
    state, of Sub2API, the trigger and the clock; and the functions on tiers, rates,
    addresses and names that its methods share. *)

From S2P Require Import Prelude GoStd Float JsonText Model ModelHealth ModelFailover Requests MutationError.

Record SourceInput := mkSourceInput {
  si_Name : string;
  si_Provider : string;
  si_BaseURL : string;
  si_Username : string;
  si_Password : string;
  si_PauseBelow : float64;
  si_ResumeAt : float64;
  si_Enabled : bool;
  si_SelectedKeyID : string;
  si_RoutingEnabled : bool;
  si_RoutingPool : string;
}.

(** The interfaces the trigger has beside [Trigger]. *)
Variant requester := SourcedAccounts | PlainAccounts | TriggerOnly.

(** How the manager was constructed. *)
Record Manager := mkManager {
  bm_interval : duration;
  bm_box : bool;             (* a box for credentials is configured *)
  bm_boundary : bool;        (* the trigger offers the barrier and the freeze state *)
  bm_snapshots : bool;       (* the trigger offers snapshots *)
  bm_requester : requester;
  bm_allowInsecure : bool;   (* of the fetcher *)
}.

(** Requests. The mutexes [runMu] and [routeMu] are locked and unlocked; the map
    [sourceRuns] is set and cleared under its own mutex, [manualRuns] read and written. *)
Inductive ManagerCall : Type → Type :=
  (* the store *)
  | ListUpstreamSources : ManagerCall (result failure (list UpstreamSource))
  | GetUpstreamSource (id : Z) : ManagerCall (result failure UpstreamSource)
  | CreateUpstreamSource (source : UpstreamSource) : ManagerCall (result failure UpstreamSource)
  | UpdateUpstreamSource (source : UpstreamSource) : ManagerCall (result failure unit)
  | UpdateUpstreamSourceWithPolicyInvalidation (source : UpstreamSource) (invalidate : bool) : ManagerCall (result failure unit)
  | ResetUpstreamControl (id : Z) : ManagerCall (result failure unit)
  | DeleteUpstreamSource (id : Z) : ManagerCall (result failure unit)
  | MarkUpstreamCredentialMigrationRequired (id : Z) : ManagerCall (result failure unit)
  | SaveUpstreamSuccess (source : UpstreamSource) (rates : list KeyRate) (groups : list UpstreamGroup) : ManagerCall (result failure unit)
  | SaveUpstreamFailure (id : Z) (attempted : time) (message : string) : ManagerCall (result failure unit)
  | SyncBalanceLocks (sourceID : Z) (accountIDs : list Z) (locked : bool) : ManagerCall (result failure unit)
  | SyncBalanceLocksChanged (sourceID : Z) (accountIDs : list Z) (locked : bool) : ManagerCall (result failure (list Z))
  | ListUpstreamKeyRates (sourceID : Z) : ManagerCall (result failure (list KeyRate))
  | ListUpstreamGroups (sourceID : Z) : ManagerCall (result failure (list UpstreamGroup))
  | ListCostLocks : ManagerCall (result failure (list CostLock))
  | SyncCostLocksChanged (desired : list CostLock) : ManagerCall (result failure (list Z))
  | GetControl (accountID : Z) : ManagerCall (result failure AccountControl)
  | GetSettings : ManagerCall (result failure Settings)
  | ListGroupFailoverPolicies (sourceID : Z) : ManagerCall (result failure (list GroupFailoverPolicy))
  | GetGroupFailoverPolicy (sourceID : Z) (keyID : string) : ManagerCall (result failure GroupFailoverPolicy)
  | SaveGroupFailoverPolicy (policy : GroupFailoverPolicy) : ManagerCall (result failure GroupFailoverPolicy)
  | ConfirmGroupFailoverPolicy (sourceID : Z) (keyID : string) (version : Z) (actor : string) : ManagerCall (result failure GroupFailoverPolicy)
  | DeleteGroupFailoverPolicy (sourceID : Z) (keyID : string) : ManagerCall (result failure unit)
  | SaveGroupFailoverState (state : GroupFailoverState) : ManagerCall (result failure unit)
  | GetGroupTierTransitionByKey (key : string) : ManagerCall (result failure GroupTierTransition)
  | ListGroupTierTransitions (sourceID : Z) (keyID : string) (limit : Z) : ManagerCall (result failure (list GroupTierTransition))
  | ListPendingGroupTierTransitions : ManagerCall (result failure (list GroupTierTransition))
  | AssertNoPendingGroupTransition (sourceID : Z) (keyID : string) : ManagerCall (result failure unit)
  | BeginGroupTierTransition (transition : GroupTierTransition) : ManagerCall (GroupTierTransition * bool * option failure)
  | SimulateGroupTierTransition (id : Z) (now : time) : ManagerCall (result failure unit)
  | FailGroupTierTransition (id : Z) (message : string) (now : time) : ManagerCall (result failure unit)
  | MarkGroupTierTransitionUncertain (id : Z) (message : string) : ManagerCall (result failure unit)
  | CompleteGroupTierTransition (id : Z) (state : GroupFailoverState) (now : time) : ManagerCall (result failure unit)
  | GetFailoverEvidenceWatermarks : ManagerCall (result failure FailoverEvidenceWatermarks)
  | HasAutomaticGroupTransitionInPoolSince (pool : string) (since : time) : ManagerCall (result failure bool)
  | CountCompletedGroupTierTransitions (sourceID : Z) (keyID : string) (since : time) : ManagerCall (result failure Z)
  | AddEvent (event : Event) : ManagerCall (result failure unit)
  (* the fetcher and the box *)
  | Fetch (provider baseURL : string) (credentials : UpstreamCredentials) : ManagerCall (result failure UpstreamResult)
  | SwitchGroup (provider baseURL : string) (credentials : UpstreamCredentials) (keyID groupID : string) : ManagerCall (result failure UpstreamResult)
  | Invalidate (provider baseURL : string) (credentials : UpstreamCredentials) : ManagerCall unit
  | BoxEncrypt (plaintext : string) : ManagerCall (result failure (string * string))
  | BoxDecrypt (nonce ciphertext : string) : ManagerCall (result failure string)
  (* locks, the barrier, the freeze state *)
  | LockRun : ManagerCall unit
  | UnlockRun : ManagerCall unit
  | LockRoute : ManagerCall unit
  | UnlockRoute : ManagerCall unit
  | StartSourceRun (id : Z) : ManagerCall bool            (* false: it was running *)
  | EndSourceRun (id : Z) : ManagerCall unit
  | ClaimManualRun (id : Z) (now : time) : ManagerCall bool   (* false: within 30 seconds of the last *)
  | ForgetManualRun (id : Z) : ManagerCall unit
  | AcquireGroup (sourceID : Z) (keyID : string) : ManagerCall (result failure unit)
  | ReleaseGroup (sourceID : Z) (keyID : string) : ManagerCall unit
  | EnterMutation : ManagerCall (result failure unit)
  | LeaveMutation : ManagerCall unit
  | GetFreezeState : ManagerCall (result failure FreezeState)
  (* Sub2API, the trigger, the clock *)
  | ListAccounts : ManagerCall (result failure (list Account))
  | Trigger : ManagerCall unit
  | RequestAccountsFrom (source : string) (accountIDs : list Z) : ManagerCall unit
  | RequestAccounts (accountIDs : list Z) : ManagerCall unit
  | GetSnapshot : ManagerCall Snapshot
  (* the order in which a range over a map visits its keys *)
  | RangePools (keys : list string) : ManagerCall (list string)
  | RangeAccounts (keys : list Z) : ManagerCall (list Z)
  | Now : ManagerCall time.
Abbreviation prog := (Requests.prog ManagerCall).

(** [encoding/json] on [UpstreamCredentials], and the text [%g] gives a float. *)
Class Codecs := {
  encode_credentials : UpstreamCredentials → string;
  decode_credentials : string → option UpstreamCredentials;
  float_g : float64 → string;
}.

(** ** Tiers, keys and groups *)

Definition groupIDForTier (policy : GroupFailoverPolicy) (tier : string) : string :=
  if bool_decide (tier = GroupTierMain) then gp_MainGroupID policy else
  if bool_decide (tier = GroupTierBackup) then gp_BackupGroupID policy else
  if bool_decide (tier = GroupTierEmergency) then gp_EmergencyGroupID policy else "".

Definition tierEnabled (policy : GroupFailoverPolicy) (tier : string) : bool :=
  if bool_decide (tier = GroupTierMain) then gp_MainEnabled policy else
  if bool_decide (tier = GroupTierBackup) then gp_BackupEnabled policy else
  if bool_decide (tier = GroupTierEmergency) then gp_EmergencyEnabled policy else false.

Definition tierForGroup (policy : GroupFailoverPolicy) (groupID : string) : string :=
  let groupID := trim_space groupID in
  if bool_decide (groupID = trim_space (gp_MainGroupID policy)) then GroupTierMain else
  if bool_decide (groupID = trim_space (gp_BackupGroupID policy)) then GroupTierBackup else
  if bool_decide (groupID = trim_space (gp_EmergencyGroupID policy)) then GroupTierEmergency else "".

Definition validGroupTier (tier : string) : bool :=
  bool_decide (tier = GroupTierMain) || bool_decide (tier = GroupTierBackup) || bool_decide (tier = GroupTierEmergency).

Definition containsGroup (groups : list UpstreamGroup) (groupID : string) : bool :=
  existsb (λ group, bool_decide (ug_ExternalID group = groupID)) groups.

Fixpoint findKeyRate (rates : list KeyRate) (keyID : string) : option KeyRate :=
  match rates with
  | [] => None
  | key :: rates => if bool_decide (kr_ExternalID key = keyID) then Some key else findKeyRate rates keyID
  end.

Definition until_after (t : option time) (now : time) : bool :=
  match t with Some t => before now t | None => false end.
Definition activeUntil (first second : option time) (now : time) : bool :=
  until_after first now || until_after second now.

Definition fallbackActor (actor : string) : string :=
  let actor := trim_space actor in if bool_decide (actor = "") then "system" else actor.

(** ** Rates and locks *)

Definition rate_tolerance : float64 := fdiv (of_int 1) (of_int 1000000).
Definition sameRate (left right : float64) : bool := flt (SFabs (fsub left right)) rate_tolerance.

Definition same_lock (left right : CostLock) : bool :=
  bool_decide (cl_SourceID left = cl_SourceID right) && bool_decide (cl_Pool left = cl_Pool right)
  && sameRate (cl_RateMultiplier left) (cl_RateMultiplier right).

Definition costLocksEqual (current desired : gmap Z CostLock) : bool :=
  bool_decide (size current = size desired)
  && forallb (λ p, match desired !! p.1 with Some other => same_lock p.2 other | None => false end) (map_to_list current).

(** ** Names and credentials *)

(** [value[:i]], [value[i:]], by bytes. *)
Definition slice_to (i : nat) (s : string) : string := string_of_bytes (take i (bytes_of s)).
Definition slice_from (i : nat) (s : string) : string := string_of_bytes (drop i (bytes_of s)).

Fixpoint index_byte (b : N) (l : list N) : option nat :=
  match l with
  | [] => None
  | a :: l => if (a =? b)%N then Some 0 else S <$> index_byte b l
  end.

Definition maskUsername (value : string) : string :=
  let value := trim_space value in
  let masked := if (length (bytes_of value) <=? 2)%nat then "**"
                else slice_to 1 value +:+ "***" +:+ slice_from (length (bytes_of value) - 1) value in
  match index_byte 0x40 (bytes_of value) with
  | Some at_ => if (1 <? at_)%nat then slice_to 1 value +:+ "***" +:+ slice_from at_ value else masked
  | None => masked
  end.

Definition credentialHint (credentials : UpstreamCredentials) : string :=
  if negb (bool_decide (cr_AccessKey credentials = "")) then "旧访问密钥（需要迁移）" else
  if negb (bool_decide (cr_Username credentials = "")) then "账号密码 " +:+ maskUsername (cr_Username credentials)
  else "未配置".

Definition credentialsFromInput (input : SourceInput) : UpstreamCredentials :=
  mkUpstreamCredentials "password" "" "" (trim_space (si_Username input)) (si_Password input).

(** [strings.TrimRight(value, "/")] *)
Fixpoint drop_slashes (l : list N) : list N :=
  match l with
  | b :: t => if (b =? 0x2F)%N then drop_slashes t else l
  | [] => []
  end.
Definition trim_slashes (s : string) : string := string_of_bytes (rev (drop_slashes (rev (bytes_of s)))).

Section with_unicode.
Context `{UnicodeTables}.

Definition keyRateActive (status : string) : bool :=
  bool_decide (to_lower (trim_space status) ∈ ["1"; "active"; "enabled"; "normal"]).

Definition normalizeProvider (value : string) : string :=
  let value := to_lower (trim_space value) in
  if bool_decide (value = "new-api") then "newapi" else
  if bool_decide (value = "sub2api") then "sub2" else value.

Definition NormalizeURL `{UrlParser} (raw : string) (allowInsecure : bool) : result failure string :=
  match url_parse (trim_space raw) with
  | Some (scheme, host, port) =>
      if bool_decide (host = "") || bool_decide (scheme = "") then Err (NewFailure "上游地址无效") else
      let scheme := to_lower scheme in
      if negb (bool_decide (scheme = "https")) && negb (allowInsecure && bool_decide (scheme = "http"))
      then Err (NewFailure "上游地址必须使用 HTTPS") else
      Ok (origin_of scheme (to_lower host) port)
  | None => Err (NewFailure "上游地址无效")
  end.

Definition validateInput `{UrlParser} (m : Manager) (input : SourceInput) (requirePassword : bool) : result failure unit :=
  if bool_decide (trim_space (si_Name input) = "") then Err (NewFailure "站点名称不能为空") else
  let provider := normalizeProvider (si_Provider input) in
  if negb (bool_decide (provider = "newapi")) && negb (bool_decide (provider = "sub2"))
  then Err (NewFailure "上游类型只能是 New API 或 Sub2") else
  _ ← NormalizeURL (si_BaseURL input) (bm_allowInsecure m);
  if bool_decide (trim_space (si_Username input) = "") || (requirePassword && bool_decide (si_Password input = ""))
  then Err (NewFailure "登录账号和密码不能为空") else
  if si_RoutingEnabled input
     && (bool_decide (trim_space (si_SelectedKeyID input) = "") || bool_decide (trim_space (si_RoutingPool input) = ""))
  then Err (NewFailure "启用倍率调度时必须选择调度令牌并填写倍率池") else
  if flt (si_PauseBelow input) (of_int 0) || fle (si_ResumeAt input) (si_PauseBelow input)
  then Err (NewFailure "恢复阈值必须大于停用阈值，且停用阈值不能为负数") else
  Ok ().

(** The account's address is the source's. *)
Definition at_source `{UrlParser} (source : UpstreamSource) (account : Account) : bool :=
  match NormalizeURL (BaseURL account) true with
  | Ok key => bool_decide (key = us_NormalizedURL source)
  | Err _ => false
  end.

(** The credentials the automation may use: an account with its password. *)
Definition password_login (credentials : UpstreamCredentials) : bool :=
  negb (bool_decide (cr_AuthMode credentials = "access_key")) && bool_decide (cr_AccessKey credentials = "")
  && negb (bool_decide (cr_Username credentials = "")) && negb (bool_decide (cr_Password credentials = "")).

(** ** Shared requests *)

Definition record (event : Event) : prog unit :=
  event ← (if is_zero_time (ev_CreatedAt event)
           then now ← call Now; mret (event <| ev_CreatedAt := now |>) else mret event);
  _ ← call (AddEvent event);
  mret ().

Definition manager_event (kind severity message actor details : string) : Event :=
  mkEvent 0 0 0 kind severity None None message "" "" (DetailsText details) actor zero_time.

Definition requestAccounts (m : Manager) (source : string) (accountIDs : list Z) : prog unit :=
  if bool_decide (accountIDs = []) then mret () else
  match bm_requester m with
  | SourcedAccounts => call (RequestAccountsFrom source accountIDs)
  | PlainAccounts => call (RequestAccounts accountIDs)
  | TriggerOnly => call Trigger
  end.

Definition encrypt `{Codecs} (m : Manager) (credentials : UpstreamCredentials) : prog (result failure (string * string)) :=
  if bm_box m then call (BoxEncrypt (encode_credentials credentials))
  else mret (Err (NewFailure "服务器尚未配置上游凭据加密密钥")).

Definition decrypt `{Codecs} (m : Manager) (source : UpstreamSource) : prog (result failure UpstreamCredentials) :=
  if bm_box m then
    try payload ← call (BoxDecrypt (us_CredentialNonce source) (us_CredentialCiphertext source)) catch err => mret (Err err);
    mret match decode_credentials payload with
         | Some credentials => Ok credentials
         | None => Err (NewFailure "上游凭据解密失败")
         end
  else mret (Err (NewFailure "服务器尚未配置上游凭据加密密钥")).
End with_unicode.
