(* ===== verification/CostRouting.v ===== *)
(** * Cost routing

    [reconcileCostRouting] of [internal/balance/manager.go]: within a pool of sources the
    accounts at the lowest usable rate serve, and the others are put in standby by a lock.
    Go visits the entries of a map in no order: where the code does, the order is a reply
    of the environment. *)

From S2P Require Import Prelude GoStd Float JsonText Model ModelHealth ModelFailover Requests MutationError BalanceCalls.

Record routingSource := mkRoutingSource {
  rs_source : UpstreamSource;
  rs_rate : float64;
  rs_accounts : list Account;
  rs_available : bool;
  rs_activationReady : bool;
  rs_serving : bool;
}.

(** [math.MaxFloat64] *)
Definition max_float : float64 := dyadic (2 ^ 53 - 1) 971.

(** The account can take requests as far as its state and its other locks go. *)
Definition unhindered (control : result failure AccountControl) (account : Account) : bool :=
  match control with
  | Err _ => false
  | Ok control =>
      bool_decide (acc_Status account = "active") && bool_decide (acc_ErrorMessage account = "")
      && negb (ct_HealthLocked control) && negb (ct_BalanceLocked control) && negb (ct_ManualLocked control)
  end.

Section routing.
Context `{UnicodeTables, UrlParser, Codecs} (m : Manager).

(** ** The sources of the pools *)

Definition routed (source : UpstreamSource) : bool :=
  us_Enabled source && us_RoutingEnabled source && negb (bool_decide (trim_space (us_RoutingPool source) = "")).

Definition selected_rate (source : UpstreamSource) (rates : result failure (list KeyRate)) : float64 :=
  match rates with
  | Err _ => of_int 0
  | Ok rates =>
      match list_find (λ rate, kr_ExternalID rate = us_SelectedKeyID source ∧ kr_Dynamic rate = false
                               ∧ is_Some (kr_RateMultiplier rate) ∧ keyRateActive (kr_Status rate) = true) rates with
      | Some (_, rate) => default (of_int 0) (kr_RateMultiplier rate)
      | None => of_int 0
      end
  end.

(** An iteration of the first loop over the accounts: an account at the source's address
    that serves. *)
Definition note_account (source : UpstreamSource) (lockByAccount : gmap Z CostLock) (account : Account)
    (item : routingSource) : prog routingSource :=
  if negb (at_source source account) then mret item else
  let item := item <| rs_accounts := rs_accounts item ++ [account] |> in
  control ← call (GetControl (acc_ID account));
  mret (if unhindered control account && acc_Schedulable account && bool_decide (lockByAccount !! acc_ID account = None)
        then item <| rs_serving := true |> else item).

Definition fresh (source : UpstreamSource) (now : time) : bool :=
  match us_LastSuccessAt source with
  | Some success => (sub_time now success <=? 3 * bm_interval m)%Z
  | None => false
  end.

(** Whether one of the accounts serves or would, were its cost lock lifted. *)
Definition usable_account (lockByAccount : gmap Z CostLock) (account : Account) (_ : unit) : prog (flow unit unit) :=
  control ← call (GetControl (acc_ID account));
  let owned := match control with Ok control => ct_OwnsPause control | Err _ => false end in
  mret (if unhindered control account
           && (acc_Schedulable account || (owned && negb (bool_decide (lockByAccount !! acc_ID account = None))))
        then Return () else Next ()).

Definition route_source (accounts : list Account) (lockByAccount : gmap Z CostLock) (now : time) (source : UpstreamSource)
    : prog routingSource :=
  rates ← call (ListUpstreamKeyRates (us_ID source));
  item ← for_all (note_account source lockByAccount) accounts
           (mkRoutingSource source (selected_rate source rates) [] false false false);
  let available := flt (of_int 0) (rs_rate item) && negb (bool_decide (rs_accounts item = []))
    && bool_decide (is_Some (us_Balance source)) && fresh source now && negb (us_BalanceLocked source) in
  available ← (if available : bool then
                 usable ← for_each (usable_account lockByAccount) (rs_accounts item) ();
                 mret match usable with Return _ => true | Next _ => false end
               else mret false);
  let ready := available && match us_Balance source with
                            | Some balance => fle (us_ResumeAt source) balance && (2 <=? us_RecoveryStreak source)%Z
                            | None => false
                            end in
  mret (item <| rs_available := available |> <| rs_activationReady := ready |>).

(** The pools' sources, in the order they are listed. *)
Definition route_one (accounts : list Account) (lockByAccount : gmap Z CostLock) (now : time) (source : UpstreamSource)
    (pools : gmap string (list routingSource)) : prog (gmap string (list routingSource)) :=
  if negb (routed source) then mret pools else
  item ← route_source accounts lockByAccount now source;
  let pool := trim_space (us_RoutingPool source) in
  mret (<[pool := default [] (pools !! pool) ++ [item]]> pools).

(** ** The rate that serves *)

Definition serves (item : routingSource) : bool := rs_serving item && rs_available item.
Definition ready (item : routingSource) : bool := rs_available item && rs_activationReady item.
Definition funded (item : routingSource) : bool :=
  rs_available item
  && match us_Balance (rs_source item) with Some balance => fle (us_PauseBelow (rs_source item)) balance | None => false end.

(** The lowest rate of the chosen sources, and whether there was one below the start. *)
Definition lowest_rate (chosen : routingSource → bool) (start : float64) (items : list routingSource) : float64 * bool :=
  foldl (λ p item, if chosen item && flt (rs_rate item) p.1 then (rs_rate item, true) else p) (start, false) items.

Definition targetRate (items : list routingSource) : float64 :=
  let '(currentRate, currentHealthy) := lowest_rate serves max_float items in
  if currentHealthy then (lowest_rate ready currentRate items).1 else (lowest_rate funded max_float items).1.

(** ** The locks wanted *)

Definition keep (keeps : CostLock → bool) (currentLocks : list CostLock) (desired : gmap Z CostLock) : gmap Z CostLock :=
  foldl (λ desired lock, if keeps lock then <[cl_AccountID lock := lock]> desired else desired) desired currentLocks.

Definition of_pool (pool : string) (items : list routingSource) (lock : CostLock) : bool :=
  bool_decide (cl_Pool lock = pool) && existsb (λ item, bool_decide (us_ID (rs_source item) = cl_SourceID lock)) items.

Definition at_rate (target : float64) (items : list routingSource) (lock : CostLock) : bool :=
  existsb (λ item, sameRate (rs_rate item) target
                   && existsb (λ account, bool_decide (acc_ID account = cl_AccountID lock)) (rs_accounts item)) items.

Definition standby_lock (pool : string) (lockByAccount : gmap Z CostLock) (now : time) (item : routingSource)
    (account : Account) : CostLock :=
  mkCostLock (us_ID (rs_source item)) (acc_ID account) pool (rs_rate item)
    (match lockByAccount !! acc_ID account with Some previous => cl_CreatedAt previous | None => now end).

Definition put_in_standby (pool : string) (lockByAccount : gmap Z CostLock) (now : time) (target : float64)
    (items : list routingSource) (desired : gmap Z CostLock) : gmap Z CostLock :=
  foldl (λ desired item,
    if sameRate (rs_rate item) target then desired else
    foldl (λ desired account, <[acc_ID account := standby_lock pool lockByAccount now item account]> desired)
      desired (rs_accounts item)) desired items.

Definition pool_locks (currentLocks : list CostLock) (lockByAccount : gmap Z CostLock) (now : time) (pool : string)
    (items : list routingSource) (desired : gmap Z CostLock) : gmap Z CostLock :=
  let target := targetRate items in
  if bool_decide (target = max_float) then keep (of_pool pool items) currentLocks desired else
  if negb (existsb (λ item, sameRate (rs_rate item) target && rs_serving item) items)
  then keep (λ lock, of_pool pool items lock && negb (at_rate target items lock)) currentLocks desired
  else put_in_standby pool lockByAccount now target items desired.

(** ** The pass *)

Definition lock_event (kind severity message before after : string) (accountID : Z) (lock : CostLock) : Event :=
  (manager_event kind severity message "system"
     (json_object [("source_id", format_int (cl_SourceID lock)); ("pool", quote (cl_Pool lock));
                   ("rate", float_g (cl_RateMultiplier lock))]))
    <| ev_AccountID := Some accountID |> <| ev_BeforeState := before |> <| ev_AfterState := after |>.

(** The locks of one map that the other has not, in the order the range visits them. *)
Definition report_new (known : gmap Z CostLock) (event : Z → CostLock → Event) (locks : gmap Z CostLock) : prog unit :=
  order ← call (RangeAccounts (map_to_list locks).*1);
  for_all (λ accountID _,
    match locks !! accountID, known !! accountID with
    | Some lock, None => record (event accountID lock)
    | _, _ => mret ()
    end) order ().

Definition desired_locks (order : list string) (pools : gmap string (list routingSource)) (currentLocks : list CostLock)
    (lockByAccount : gmap Z CostLock) (now : time) : gmap Z CostLock :=
  foldl (λ desired pool, match pools !! pool with
                         | Some items => pool_locks currentLocks lockByAccount now pool items desired
                         | None => desired
                         end) ∅ order.

Definition lock_map (locks : list CostLock) : gmap Z CostLock :=
  foldl (λ byAccount item, <[cl_AccountID item := item]> byAccount) ∅ locks.

Definition route_costs : prog (option failure) :=
  try sources ← call ListUpstreamSources catch err => mret (Some err);
  try accounts ← call ListAccounts catch err => mret (Some (WrapFailure "读取 Sub2API 账号失败: " err));
  try currentLocks ← call ListCostLocks catch err => mret (Some err);
  let lockByAccount := lock_map currentLocks in
  now ← call Now;
  pools ← for_all (route_one accounts lockByAccount now) sources (∅ : gmap string (list routingSource));
  order ← call (RangePools (map_to_list pools).*1);
  let desired := desired_locks order pools currentLocks lockByAccount now in
  order ← call (RangeAccounts (map_to_list desired).*1);
  if costLocksEqual lockByAccount desired then mret None else
  try changedAccounts ← call (SyncCostLocksChanged (omap (λ accountID, desired !! accountID) order)) catch err => mret (Some err);
  report_new lockByAccount (λ accountID lock,
    lock_event "cost_tier_disabled" "info" ("倍率池 " +:+ cl_Pool lock +:+ " 已优先使用更低倍率来源，高倍率账号进入待命")
      "schedulable" "cost_locked" accountID lock) desired;;
  report_new desired (λ accountID lock,
    lock_event "cost_tier_enabled" "warning" ("倍率池 " +:+ cl_Pool lock +:+ " 的低倍率来源不可用，已启用备用倍率账号")
      "cost_locked" "schedulable" accountID lock) lockByAccount;;
  requestAccounts m "cost_lock" changedAccounts;;
  mret None.

Definition reconcileCostRouting : prog (option failure) :=
  call LockRoute;; failed ← route_costs; call UnlockRoute;; mret failed.

End routing.
