(* ===== verification/BalanceSources.v ===== *)
(** * Upstream accounts and their balances

    [internal/balance/manager.go]: adding, changing, removing and listing upstream
    accounts, refreshing one, and what a successful reading does to it: the streaks of low
    and sufficient balances, and the lock they lead to. [refreshAll], which refreshes every
    account from goroutines of its own, is not modelled. *)

From S2P Require Import Prelude GoStd Float JsonText Model ModelHealth ModelFailover Requests MutationError BalanceCalls CostRouting.

(** The balance was read at [now]: the streaks and the lock. *)
Definition count_balance (value : float64) (source : UpstreamSource) : UpstreamSource :=
  if negb (us_Enabled source) then
    source <| us_LowStreak := 0%Z |> <| us_RecoveryStreak := 0%Z |> <| us_BalanceLocked := false |>
  else if flt value (us_PauseBelow source) then
    let source := source <| us_LowStreak := (us_LowStreak source + 1)%Z |> <| us_RecoveryStreak := 0%Z |> in
    if (2 <=? us_LowStreak source)%Z then source <| us_BalanceLocked := true |> else source
  else if fle (us_ResumeAt source) value then
    let source := source <| us_RecoveryStreak := (us_RecoveryStreak source + 1)%Z |> <| us_LowStreak := 0%Z |> in
    if (2 <=? us_RecoveryStreak source)%Z then source <| us_BalanceLocked := false |> else source
  else source <| us_LowStreak := 0%Z |> <| us_RecoveryStreak := 0%Z |>.

Section sources.
Context `{UnicodeTables, UrlParser, Codecs} (m : Manager).

Definition source_details (id : Z) : string := json_object [("source_id", format_int id)].
Definition balance_details (source : UpstreamSource) (value : float64) : string :=
  json_object [("source_id", format_int (us_ID source)); ("balance", float_g value); ("unit", quote (us_Unit source))].
Definition balance_event (kind severity message before after : string) (source : UpstreamSource) (value : float64) : Event :=
  (manager_event kind severity message "system" (balance_details source value))
    <| ev_BeforeState := before |> <| ev_AfterState := after |>.

(** A rotated access key is kept, but never in place of a password. *)
Definition keep_rotated_key (source : UpstreamSource) (result : UpstreamResult) : prog (Prelude.result failure UpstreamSource) :=
  if bool_decide (ur_RotatedAccessKey result = "") then mret (Ok source) else
  try credentials ← decrypt m source catch err => mret (Err err);
  if bool_decide (cr_AuthMode credentials = "access_key") || negb (bool_decide (cr_AccessKey credentials = "")) then
    try sealed ← encrypt m (credentials <| cr_AccessKey := ur_RotatedAccessKey result |>) catch err => mret (Err err);
    let source := source <| us_CredentialNonce := sealed.1 |> <| us_CredentialCiphertext := sealed.2 |> in
    try _ ← call (UpdateUpstreamSource source) catch err => mret (Err err);
    mret (Ok source)
  else mret (Ok source).

Definition applySuccess (source : UpstreamSource) (result : UpstreamResult) : prog (option failure) :=
  let wasLocked := us_BalanceLocked source in
  let value := ur_Balance result in
  now ← (if is_zero_time (ur_FetchedAt result) then call Now else mret (ur_FetchedAt result));
  let source := source <| us_Balance := Some value |> <| us_Unit := ur_Unit result |>
    <| us_LastAttemptAt := Some now |> <| us_LastSuccessAt := Some now |> <| us_LastError := "" |> in
  try source ← keep_rotated_key (count_balance value source) result catch err => mret (Some err);
  try _ ← call (SaveUpstreamSuccess source (ur_KeyRates result) (ur_Groups result)) catch err => mret (Some err);
  try accounts ← call ListAccounts catch err => mret (Some (WrapFailure "读取 Sub2API 账号失败: " err));
  let accountIDs := acc_ID <$> filter (λ account, at_source source account = true) accounts in
  try changedAccounts ← call (SyncBalanceLocksChanged (us_ID source) accountIDs (us_Enabled source && us_BalanceLocked source))
    catch err => mret (Some err);
  (if negb wasLocked && us_BalanceLocked source
   then record (balance_event "balance_low_detected" "warning" (us_Name source +:+ " 余额连续低于阈值，已建立余额锁")
                  "normal" "balance_locked" source value)
   else mret ());;
  (if wasLocked && negb (us_BalanceLocked source)
   then record (balance_event "balance_recovered" "info" (us_Name source +:+ " 余额连续达到恢复阈值，已解除余额锁")
                  "balance_locked" "normal" source value)
   else mret ());;
  requestAccounts m "balance_lock" changedAccounts;;
  mret None.

(** ** Reading *)

Definition hide_credentials (credentials : option UpstreamCredentials) (source : UpstreamSource) : UpstreamSource :=
  let source := match credentials with
    | None => source
    | Some credentials =>
        let source := source <| us_UsernameHint := maskUsername (cr_Username credentials) |>
                        <| us_CredentialHint := credentialHint credentials |> in
        if negb (password_login credentials)
        then source <| us_CredentialMode := "access_key" |> <| us_MigrationRequired := true |>
        else source <| us_CredentialMode := "password" |>
    end in
  source <| us_CredentialNonce := "" |> <| us_CredentialCiphertext := "" |>.

Definition value_or {A} (zero : A) (r : Prelude.result failure A) : A := match r with Ok a => a | Err _ => zero end.

Definition list_source (accounts : Prelude.result failure (list Account)) (now : time) (source : UpstreamSource)
    (listed : list UpstreamSource) : prog (list UpstreamSource) :=
  credentials ← decrypt m source;
  let source := hide_credentials (match credentials with Ok c => Some c | Err _ => None end) source in
  rates ← call (ListUpstreamKeyRates (us_ID source));
  groups ← call (ListUpstreamGroups (us_ID source));
  policies ← call (ListGroupFailoverPolicies (us_ID source));
  let matched := filter (λ account, at_source source account = true) (value_or [] accounts) in
  let stale := match us_LastSuccessAt source with
               | None => true
               | Some success => (3 * bm_interval m <? sub_time now success)%Z
               end in
  mret (listed ++ [source <| us_KeyRates := value_or [] rates |> <| us_Groups := value_or [] groups |>
    <| us_FailoverPolicies := value_or [] policies |>
    <| us_MatchedAccounts := (λ a, mkAccountRef (acc_ID a) (acc_Name a) (acc_Schedulable a)) <$> matched |>
    <| us_Stale := stale |>]).

Definition List : prog (Prelude.result failure (list UpstreamSource)) :=
  try items ← call ListUpstreamSources catch err => mret (Err err);
  accounts ← call ListAccounts;
  now ← call Now;
  listed ← for_all (list_source accounts now) items [];
  mret (Ok listed).

Definition Get (id : Z) : prog (Prelude.result failure UpstreamSource) :=
  try items ← List catch err => mret (Err err);
  mret match list_find (λ item, us_ID item = id) items with
       | Some (_, item) => Ok item
       | None => Err (NewFailure "上游配置不存在")
       end.

(** ** Refreshing *)

Definition refresh_source (id : Z) : prog (option failure) :=
  try source ← call (GetUpstreamSource id) catch err => mret (Some err);
  if negb (us_Enabled source) then mret (Some (NewFailure "该上游余额规则已关闭")) else
  try credentials ← decrypt m source catch err => mret (Some err);
  if bool_decide (cr_AuthMode credentials = "access_key") || negb (bool_decide (trim_space (cr_AccessKey credentials) = ""))
     || bool_decide (trim_space (cr_Username credentials) = "") || bool_decide (cr_Password credentials = "") then
    _ ← call (MarkUpstreamCredentialMigrationRequired (us_ID source));
    call Trigger;;
    mret (Some (NewFailure "该上游仍使用旧访问密钥，必须改用账号密码并重新测试连接"))
  else
  attemptedAt ← call Now;
  try result ← call (Fetch (us_Provider source) (us_BaseURL source) credentials)
    catch err =>
      (_ ← call (SaveUpstreamFailure (us_ID source) attemptedAt (failure_text err));
       record (manager_event "balance_query_failed" "error" (us_Name source +:+ " 余额查询失败: " +:+ failure_text err)
                 "system" (source_details (us_ID source)));;
       mret (Some err));
  failed ← applySuccess source result;
  match failed with Some err => mret (Some err) | None => reconcileCostRouting m end.

Definition refreshLocked (id : Z) : prog (option failure) :=
  started ← call (StartSourceRun id);
  if negb started then mret (Some (NewFailure "该上游正在刷新，请稍后重试")) else
  failed ← refresh_source id;
  call (EndSourceRun id);;
  mret failed.

(** ** Adding, changing, removing *)

Definition Validate (input : SourceInput) : prog (Prelude.result failure UpstreamResult) :=
  match validateInput m input true with
  | Err err => mret (Err err)
  | Ok _ =>
      let credentials := credentialsFromInput input in
      call (Invalidate (si_Provider input) (si_BaseURL input) credentials);;
      call (Fetch (si_Provider input) (si_BaseURL input) credentials)
  end.

(** The fields of the source the input sets. *)
Definition from_input (input : SourceInput) (sealed : string * string) (source : UpstreamSource) : UpstreamSource :=
  source <| us_Name := trim_space (si_Name input) |> <| us_Provider := normalizeProvider (si_Provider input) |>
    <| us_BaseURL := trim_slashes (trim_space (si_BaseURL input)) |>
    <| us_NormalizedURL := value_or "" (NormalizeURL (si_BaseURL input) (bm_allowInsecure m)) |>
    <| us_CredentialNonce := sealed.1 |> <| us_CredentialCiphertext := sealed.2 |>
    <| us_PauseBelow := si_PauseBelow input |> <| us_ResumeAt := si_ResumeAt input |> <| us_Enabled := si_Enabled input |>
    <| us_SelectedKeyID := trim_space (si_SelectedKeyID input) |> <| us_RoutingEnabled := si_RoutingEnabled input |>
    <| us_RoutingPool := trim_space (si_RoutingPool input) |> <| us_CredentialMode := "password" |>
    <| us_MigrationRequired := false |>.

Definition create_source (input : SourceInput) (actor : string) : prog (Prelude.result failure UpstreamSource) :=
  try result ← Validate input catch err => mret (Err err);
  try sealed ← encrypt m (credentialsFromInput input) catch err => mret (Err err);
  try source ← call (CreateUpstreamSource (from_input input sealed no_source)) catch err => mret (Err err);
  failed ← applySuccess source result;
  match failed with Some err => mret (Err err) | None =>
  record (manager_event "upstream_created" "info" ("已添加上游余额账户 " +:+ us_Name source) actor (source_details (us_ID source)));;
  call Trigger;;
  failed ← reconcileCostRouting m;
  match failed with Some err => mret (Err err) | None => Get (us_ID source) end end.

Definition Create (input : SourceInput) (actor : string) : prog (Prelude.result failure UpstreamSource) :=
  call LockRun;; answer ← create_source input actor; call UnlockRun;; mret answer.

(** Provider, address or user name differ from what the source has. *)
Definition identity_changed (input : SourceInput) (current : UpstreamSource) (credentials : UpstreamCredentials) : bool :=
  negb (bool_decide (normalizeProvider (si_Provider input) = normalizeProvider (us_Provider current)))
  || negb (bool_decide (trim_slashes (trim_space (si_BaseURL input)) = trim_slashes (trim_space (us_BaseURL current))))
  || negb (bool_decide (trim_space (si_Username input) = trim_space (cr_Username credentials))).

(** The input with the user name and the password it leaves out taken from the stored
    credentials, where that is allowed. *)
Definition complete_input (input : SourceInput) (current : UpstreamSource) (credentials : UpstreamCredentials)
    : Prelude.result failure SourceInput :=
  if negb (bool_decide (si_Password input = "")) then Ok input else
  if bool_decide (cr_AuthMode credentials = "access_key") || negb (bool_decide (cr_AccessKey credentials = ""))
     || identity_changed input current credentials
  then Err (NewFailure "旧访问密钥配置或登录身份发生变化，必须重新填写账号密码并测试连接")
  else Ok (input <| si_Password := cr_Password credentials |>).

Definition fetch_for (input : SourceInput) : prog (Prelude.result failure UpstreamResult) :=
  if si_Enabled input then
    let credentials := credentialsFromInput input in
    call (Invalidate (si_Provider input) (si_BaseURL input) credentials);;
    call (Fetch (si_Provider input) (si_BaseURL input) credentials)
  else mret (Ok no_upstream_result).

Definition store_update (input : SourceInput) (current : UpstreamSource) (identityChanged : bool) (result : UpstreamResult)
    : prog (option failure) :=
  try _ ← call (UpdateUpstreamSourceWithPolicyInvalidation current identityChanged) catch err => mret (Some err);
  if si_Enabled input then applySuccess current result else
  try _ ← call (ResetUpstreamControl (us_ID current)) catch err => mret (Some err);
  mret None.

Definition update_source (id : Z) (input : SourceInput) (actor : string) : prog (Prelude.result failure UpstreamSource) :=
  try current ← call (GetUpstreamSource id) catch err => mret (Err err);
  try credentials ← decrypt m current catch err => mret (Err err);
  let input := if bool_decide (trim_space (si_Username input) = "")
               then input <| si_Username := cr_Username credentials |> else input in
  let identityChanged := identity_changed input current credentials in
  match complete_input input current credentials with Err err => mret (Err err) | Ok input =>
  match validateInput m input true with Err err => mret (Err err) | Ok _ =>
  try result ← fetch_for input catch err => mret (Err err);
  try sealed ← encrypt m (credentialsFromInput input) catch err => mret (Err err);
  let current := from_input input sealed current in
  current ← (if si_Enabled input then mret current else
             _ ← call (SyncBalanceLocks id [] false);
             mret (current <| us_BalanceLocked := false |> <| us_LowStreak := 0%Z |> <| us_RecoveryStreak := 0%Z |>));
  failed ← store_update input current identityChanged result;
  match failed with Some err => mret (Err err) | None =>
  record (manager_event "upstream_updated" "info" ("已更新上游余额账户 " +:+ us_Name current) actor (source_details (us_ID current)));;
  (if identityChanged
   then record (manager_event "group_failover_policy_invalidated" "warning" "上游登录身份已变化，三级分组策略确认已撤销" actor
                  (source_details (us_ID current)))
   else mret ());;
  call Trigger;;
  failed ← reconcileCostRouting m;
  match failed with Some err => mret (Err err) | None => Get id end end end end.

Definition Update (id : Z) (input : SourceInput) (actor : string) : prog (Prelude.result failure UpstreamSource) :=
  call LockRun;; answer ← update_source id input actor; call UnlockRun;; mret answer.

Definition delete_source (id : Z) (actor : string) : prog (option failure) :=
  try source ← call (GetUpstreamSource id) catch err => mret (Some err);
  try _ ← call (SyncBalanceLocks id [] false) catch err => mret (Some err);
  try _ ← call (DeleteUpstreamSource id) catch err => mret (Some err);
  call (ForgetManualRun id);;
  record (manager_event "upstream_deleted" "warning" ("已删除上游余额账户 " +:+ us_Name source) actor (source_details id));;
  call Trigger;;
  reconcileCostRouting m.

Definition Delete (id : Z) (actor : string) : prog (option failure) :=
  call LockRun;; answer ← delete_source id actor; call UnlockRun;; mret answer.

End sources.
