(* ===== verification/GroupTransition.v ===== *)
(** * Transitions of a key between its groups

    [TransitionGroupTier] of [internal/balance/failover.go], the only entry through which a
    group is written upstream, and the recovery of transitions that a crash left pending. *)

From S2P Require Import Prelude GoStd Float JsonText Model ModelHealth ModelFailover Requests MutationError BalanceCalls CostRouting BalanceSources.

Definition minutes (n : Z) : duration := wrap64 (n * minute).

(** [(GroupTierTransition, error)] *)
Abbreviation answer := (GroupTierTransition * option failure)%type (only parsing).
Definition refuse (err : failure) : prog answer := mret (no_transition, Some err).
Definition deny (reason : string) : prog answer := refuse (NewFailure reason).

(** [_ = ...]: the error of the request is dropped. *)
Definition ignore {R} (c : ManagerCall R) : prog unit := _ ← call c; mret ().

Section transitions.
Context `{UnicodeTables, UrlParser, Codecs} (m : Manager).

(** ** The request *)

Definition groupRequestIdentity (request : GroupTierTransitionRequest) : string * string :=
  let producer := trim_space (tr_Producer request) in
  let authority := trim_space (tr_Authority request) in
  let producer :=
    if negb (bool_decide (producer = "")) then producer else
    if tr_Manual request then "human_operator" else
    if contains (to_lower (tr_Actor request)) "agent" then "agent_operator" else "deterministic_failover" in
  let authority :=
    if negb (bool_decide (authority = "")) then authority else
    if tr_Manual request then "administrator_command" else
    if bool_decide (producer = "agent_operator") then "autonomous_agent" else "deterministic_safety" in
  (producer, authority).

Definition groupRequestMatchesExisting (request : GroupTierTransitionRequest) (existing : GroupTierTransition) : bool :=
  let '(producer, authority) := groupRequestIdentity request in
  (tr_SourceID request =? gt_SourceID existing)%Z && bool_decide (trim_space (tr_KeyID request) = gt_KeyID existing)
  && bool_decide (to_lower (trim_space (tr_TargetTier request)) = gt_ToTier existing)
  && bool_decide (fallbackActor (tr_Actor request) = gt_Actor existing)
  && bool_decide (producer = gt_Producer existing) && bool_decide (authority = gt_Authority existing)
  && bool_decide (trim_space (tr_Reason request) = gt_Reason existing)
  && bool_decide (trim_space (tr_Evidence request) = gt_Evidence existing)
  && bool_decide (trim_space (tr_SnapshotVersion request) = gt_SnapshotVersion existing)
  && bool_decide (tr_Trigger request = gt_Trigger existing) && (tr_PacketID request =? gt_PacketID existing)%Z
  && (tr_RunID request =? gt_RunID existing)%Z && (tr_GoalID request =? gt_GoalID existing)%Z
  && (tr_StepID request =? gt_StepID existing)%Z && eqb (tr_Manual request) (gt_Manual existing)
  && eqb (tr_DryRun request) (gt_DryRun existing).

Definition normalize_request (request : GroupTierTransitionRequest) : GroupTierTransitionRequest :=
  let request := request <| tr_KeyID := trim_space (tr_KeyID request) |>
    <| tr_TargetTier := to_lower (trim_space (tr_TargetTier request)) |>
    <| tr_IdempotencyKey := trim_space (tr_IdempotencyKey request) |>
    <| tr_Actor := fallbackActor (tr_Actor request) |> in
  let identity := groupRequestIdentity request in
  request <| tr_Producer := identity.1 |> <| tr_Authority := identity.2 |>.

Definition ErrGroupTransitionIdempotencyConflict : failure := NewFailure "group transition idempotency conflict".

(** The answer to a request whose idempotency key was used before. *)
Definition replayed (request : GroupTierTransitionRequest) : prog (option answer) :=
  existing ← call (GetGroupTierTransitionByKey (tr_IdempotencyKey request));
  mret match existing with
       | Err _ => None
       | Ok existing =>
           if groupRequestMatchesExisting request existing then Some (existing, None)
           else Some (no_transition, Some ErrGroupTransitionIdempotencyConflict)
       end.

(** ** Events *)

Definition transitionDetails (item : GroupTierTransition) : string :=
  json_object [("transition_id", format_int (gt_ID item)); ("source_id", format_int (gt_SourceID item));
    ("from_tier", quote (gt_FromTier item)); ("to_tier", quote (gt_ToTier item));
    ("producer", quote (gt_Producer item)); ("authority", quote (gt_Authority item)); ("status", quote (gt_Status item));
    ("verified", format_bool (negb (bool_decide (gt_VerifiedAfter item = "")))); ("uncertain", format_bool (gt_Uncertain item));
    ("packet_id", format_int (gt_PacketID item)); ("run_id", format_int (gt_RunID item));
    ("goal_id", format_int (gt_GoalID item)); ("step_id", format_int (gt_StepID item))].

Definition transitionEvent (item : GroupTierTransition) (event : Event) : Event :=
  event <| ev_GoalID := gt_GoalID item |> <| ev_StepID := gt_StepID item |>.

Definition transition_event (item : GroupTierTransition) (kind severity message actor : string) : Event :=
  transitionEvent item (manager_event kind severity message actor (transitionDetails item)).

(** ** What the transition is decided on *)

Record grounds := mkGrounds {
  gr_settings : Settings;
  gr_source : UpstreamSource;
  gr_policy : GroupFailoverPolicy;
  gr_credentials : UpstreamCredentials;
  gr_now : time;
  gr_targetGroupID : string;
  gr_key : KeyRate;                (* as the store has it; after the readback, as upstream *)
  gr_currentTier : string;
}.

Definition confirmed (policy : GroupFailoverPolicy) : bool :=
  gp_Confirmed policy && (gp_ConfirmedVersion policy =? gp_Version policy)%Z.

(** A monitor of one of the accounts will report before the evidence is due. *)
Definition timely_monitor (accountIDs : list Z) (binding : ResolvedBinding) : bool :=
  match rb_Monitor binding with
  | None => false
  | Some monitor =>
      bool_decide (acc_ID (rb_Account binding) ∈ accountIDs) && mon_Enabled monitor && (0 <? mon_IntervalSeconds monitor)%Z
      && (GroupValidationPropagationDelay + mon_IntervalSeconds monitor * second + GroupValidationMonitorRequestTimeout
          <? GroupValidationEvidenceTimeout)%Z
  end.

Definition validateGroupFailoverEvidenceSource (policy : GroupFailoverPolicy) : prog (result failure unit) :=
  if negb (gp_Enabled policy) then mret (Ok ()) else
  if negb (bm_snapshots m)
  then mret (Err (NewFailure "validation_evidence_source_unavailable: 无法确认三级救灾的被动证据来源")) else
  snapshot ← call GetSnapshot;
  mret (if existsb (timely_monitor (gp_AccountIDs policy)) (sn_Bindings snapshot) then Ok ()
        else Err (NewFailure "validation_evidence_source_unavailable: 没有关联 monitor 能在证据截止时间前完成一次切换后检查")).

(** The state of the policy, under the key it is for. *)
Definition keyed_state (source : UpstreamSource) (policy : GroupFailoverPolicy) : GroupFailoverState :=
  (gp_State policy) <| gs_SourceID := us_ID source |> <| gs_KeyID := gp_KeyID policy |>.

(** The state frozen for a reason, saved. *)
Definition freeze_state (state : GroupFailoverState) (reason : string) : prog unit :=
  ignore (SaveGroupFailoverState
    (state <| gs_Frozen := true |> <| gs_FreezeReason := reason |> <| gs_LastError := reason |>)).

Definition no_source_to_switch (request : GroupTierTransitionRequest) (source : UpstreamSource) : bool :=
  negb (tr_Manual request) && (negb (us_Enabled source) || us_MigrationRequired source).

(** The source, its credentials and the policy allow the transition. *)
Definition check_policy (request : GroupTierTransitionRequest) (k : grounds → prog answer) : prog answer :=
  try settings ← call GetSettings catch err => refuse (WrapFailure "读取救灾策略: " err);
  try source ← call (GetUpstreamSource (tr_SourceID request)) catch err => refuse err;
  try policy ← call (GetGroupFailoverPolicy (tr_SourceID request) (tr_KeyID request)) catch err => refuse err;
  if no_source_to_switch request source then deny "上游已停用或账号密码尚未重新配置" else
  try credentials ← decrypt m source catch err => refuse err;
  if negb (tr_Manual request) && negb (password_login credentials) then
    ignore (MarkUpstreamCredentialMigrationRequired (us_ID source));;
    call Trigger;;
    deny "自动切组仅允许使用已验证的账号密码"
  else
  if (negb (tr_Manual request) && negb (gp_Enabled policy)) || negb (confirmed policy)
  then deny "三级分组策略未启用或尚未确认当前版本" else
  try _ ← (if tr_Manual request then mret (Ok ()) else validateGroupFailoverEvidenceSource policy) catch err => refuse err;
  if negb (tierEnabled policy (tr_TargetTier request))
     || bool_decide (trim_space (groupIDForTier policy (tr_TargetTier request)) = "")
  then deny "目标固定层级未配置或已停用" else
  let expectedPool := trim_space (tr_ExpectedPool request) in
  if negb (bool_decide (expectedPool = "")) && negb (bool_decide (expectedPool = trim_space (gp_Pool policy)))
  then deny "调度池策略已变化，拒绝执行过期的切组动作" else
  now ← call Now;
  k (mkGrounds settings source policy credentials now (groupIDForTier policy (tr_TargetTier request)) no_key_rate "").

Definition stale_groups (g : grounds) : bool :=
  match us_LastSuccessAt (gr_source g) with
  | None => true
  | Some success => (minutes (st_FailoverGroupFreshMinutes (gr_settings g)) <? sub_time (gr_now g) success)%Z
  end.
Definition unfunded (source : UpstreamSource) : bool :=
  match us_Balance source with
  | None => true
  | Some balance => us_BalanceLocked source || flt balance (us_PauseBelow source)
  end.

(** The stored data are fresh, the balance is sufficient, the target group exists, and
    the key is in a known group. *)
Definition check_stored (request : GroupTierTransitionRequest) (g : grounds) (k : grounds → prog answer) : prog answer :=
  let manual := tr_Manual request in
  if negb manual && stale_groups g
  then deny ("令牌和分组数据超过 " +:+ format_int (st_FailoverGroupFreshMinutes (gr_settings g)) +:+ " 分钟未更新，禁止切换") else
  if negb manual && unfunded (gr_source g) then deny "上游余额不足或余额状态不可信，禁止切换" else
  groups ← call (ListUpstreamGroups (us_ID (gr_source g)));
  if negb (containsGroup (value_or [] groups) (gr_targetGroupID g)) then deny "目标分组不存在或分组快照不可用" else
  try rates ← call (ListUpstreamKeyRates (us_ID (gr_source g))) catch err => refuse err;
  let found := findKeyRate rates (tr_KeyID request) in
  if negb manual && negb (match found with Some key => keyRateActive (kr_Status key) | None => false end)
  then deny "受控令牌不存在或已停用" else
  let key := match found with
             | Some key => key
             | None => no_key_rate <| kr_ExternalID := gp_KeyID (gr_policy g) |>
                         <| kr_GroupID := gs_ObservedGroupID (gp_State (gr_policy g)) |>
             end in
  if bool_decide (tierForGroup (gr_policy g) (kr_GroupID key) = "") && negb manual then
    freeze_state ((keyed_state (gr_source g) (gr_policy g)) <| gs_ObservedGroupID := kr_GroupID key |>) "检测到未知的上游令牌分组";;
    deny "当前令牌分组不在已确认策略中，已冻结自动切换"
  else k (g <| gr_key := key |>).

(** The group upstream is another than the one on record: somebody moved the key. *)
Definition moved_state (g : grounds) (liveGroupID liveTier : string) : GroupFailoverState :=
  let state := keyed_state (gr_source g) (gr_policy g) in
  let protected := Some (gr_now g + minutes (st_FailoverManualProtectionMinutes (gr_settings g)))%Z in
  let state := state <| gs_PreviousTier := gs_CurrentTier state |> <| gs_PreviousGroupID := gs_ObservedGroupID state |>
    <| gs_ObservedGroupID := liveGroupID |> <| gs_LastConfirmedAt := None |>
    <| gs_ValidationStatus := GroupValidationUncertain |>
    <| gs_LastError := "manual_switch_requires_new_evidence_boundary" |> in
  if bool_decide (liveTier = "")
  then state <| gs_Frozen := true |> <| gs_FreezeReason := "切组前检测到上游后台已将令牌改到未知分组" |>
         <| gs_LastError := "切组前检测到上游后台已将令牌改到未知分组" |>
  else state <| gs_CurrentTier := liveTier |> <| gs_Frozen := false |> <| gs_FreezeReason := "" |>
         <| gs_ManualHoldUntil := protected |> <| gs_ManualOverrideUntil := protected |>.

Definition override_details (policy : GroupFailoverPolicy) (tier : string) : string :=
  json_object [("source_id", format_int (gp_SourceID policy)); ("key_id", quote (gp_KeyID policy)); ("tier", quote tier)].

(** The key is read back from upstream before anything is decided. *)
Definition check_live (request : GroupTierTransitionRequest) (g : grounds) (k : grounds → prog answer) : prog answer :=
  let manual := tr_Manual request in
  try live ← call (Fetch (us_Provider (gr_source g)) (us_BaseURL (gr_source g)) (gr_credentials g))
    catch err => refuse (WrapFailure "切组前无法回读上游令牌实际状态: " err);
  match findKeyRate (ur_KeyRates live) (tr_KeyID request) with
  | None =>
      freeze_state (keyed_state (gr_source g) (gr_policy g)) "切组前回读发现受控令牌不存在或已停用";;
      deny "切组前回读发现受控令牌不存在或已停用"
  | Some liveKey =>
      if negb manual && negb (keyRateActive (kr_Status liveKey)) then
        freeze_state (keyed_state (gr_source g) (gr_policy g)) "切组前回读发现受控令牌不存在或已停用";;
        deny "切组前回读发现受控令牌不存在或已停用"
      else
      let liveTier := tierForGroup (gr_policy g) (kr_GroupID liveKey) in
      if negb (bool_decide (kr_GroupID liveKey = kr_GroupID (gr_key g))) && negb manual then
        ignore (SaveGroupFailoverState (moved_state g (kr_GroupID liveKey) liveTier));;
        record (manager_event "group_manual_override_detected" "warning"
          "切组前回读发现上游后台已人工修改令牌分组，自动动作已取消" "system" (override_details (gr_policy g) liveTier));;
        deny "上游令牌实际分组已变化，已进入人工保护或冻结状态"
      else
      if bool_decide (liveTier = "") && negb manual then deny "上游令牌实际分组不在已确认策略中" else
      k (g <| gr_key := liveKey |> <| gr_currentTier := if bool_decide (liveTier = "") then "unknown" else liveTier |>)
  end.

Definition emergency_escalation (request : GroupTierTransitionRequest) (g : grounds) : bool :=
  bool_decide (gr_currentTier g = GroupTierBackup) && bool_decide (tr_TargetTier request = GroupTierEmergency).

(** The limits on automatic transitions. *)
Definition check_limits (request : GroupTierTransitionRequest) (g : grounds) (state : GroupFailoverState)
    (k : prog answer) : prog answer :=
  if tr_Manual request then k else
  if activeUntil (gs_ManualOverrideUntil state) (gs_ManualHoldUntil state) (gr_now g)
  then deny "人工保护期内禁止自动切换" else
  if until_after (gs_CooldownUntil state) (gr_now g) && negb (emergency_escalation request g)
  then deny ("令牌仍在 " +:+ format_int (st_FailoverSwitchCooldownMinutes (gr_settings g)) +:+ " 分钟切换冷却期") else
  try count30 ← call (CountCompletedGroupTierTransitions (us_ID (gr_source g)) (gp_KeyID (gr_policy g))
                        (gr_now g - minutes (st_FailoverShortLimitWindowMinutes (gr_settings g)))%Z) catch err => refuse err;
  try count6h ← call (CountCompletedGroupTierTransitions (us_ID (gr_source g)) (gp_KeyID (gr_policy g))
                        (gr_now g - minutes (st_FailoverLongLimitWindowMinutes (gr_settings g)))%Z) catch err => refuse err;
  if (st_FailoverShortLimitCount (gr_settings g) <=? count30)%Z || (st_FailoverLongLimitCount (gr_settings g) <=? count6h)%Z then
    freeze_state state "自动切换次数达到安全上限";;
    deny "自动切换次数达到上限，已冻结该令牌"
  else k.

(** The request's expectations and the state allow the transition. *)
Definition check_state (request : GroupTierTransitionRequest) (g : grounds) (k : prog answer) : prog answer :=
  let state := keyed_state (gr_source g) (gr_policy g) in
  let expectedTier := trim_space (tr_ExpectedFromTier request) in
  if negb (bool_decide (expectedTier = "")) && negb (bool_decide (expectedTier = gr_currentTier g))
  then deny "令牌当前层级已经变化，拒绝执行过期的切组动作" else
  try changed ← (match tr_EvidenceCutoffAt request with
                 | Some cutoff => call (HasAutomaticGroupTransitionInPoolSince (gp_Pool (gr_policy g)) cutoff)
                 | None => mret (Ok false)
                 end) catch err => refuse err;
  if changed : bool then deny "分析数据生成后该调度池已有救灾动作，必须重新分析" else
  if gs_Frozen state && negb (tr_Manual request) then deny "该令牌的自动切换已冻结" else
  check_limits request g state k.
End transitions.
