(* ===== verification/GroupExecution.v ===== *)
(** * Carrying a transition out, and recovering one

    The journaled part of [TransitionGroupTier] of [internal/balance/failover.go], with the
    transport behind the barrier and the freeze state, and [RecoverGroupTransitions]. *)

From S2P Require Import Prelude GoStd Float JsonText Model ModelHealth ModelFailover Requests MutationError BalanceCalls CostRouting BalanceSources GroupTransition.

Section execution.
Context `{UnicodeTables, UrlParser, Codecs} (m : Manager).

(** ** The write *)

Definition write_unless_frozen (source : UpstreamSource) (credentials : UpstreamCredentials) (keyID targetGroupID : string)
    : prog (result failure UpstreamResult) :=
  try freeze ← call GetFreezeState catch err => mret (Err (WrapFailure "切组前读取自动化冻结状态失败: " err));
  if fs_AllAutomation freeze then mret (Err (NewFailure "全部自动化已冻结，自动切组被拒绝"))
  else call (SwitchGroup (us_Provider source) (us_BaseURL source) credentials keyID targetGroupID).

Definition executeGroupTransport (manual automationLeaseHeld : bool) (source : UpstreamSource)
    (credentials : UpstreamCredentials) (keyID targetGroupID : string) : prog (result failure UpstreamResult) :=
  if manual then call (SwitchGroup (us_Provider source) (us_BaseURL source) credentials keyID targetGroupID) else
  if negb (bm_boundary m) then mret (Err (NewFailure "自动切组缺少全局冻结屏障，已拒绝外部写入")) else
  if automationLeaseHeld then write_unless_frozen source credentials keyID targetGroupID else
  try _ ← call EnterMutation catch err => mret (Err (WrapFailure "等待自动切组冻结屏障: " err));
  result ← write_unless_frozen source credentials keyID targetGroupID;
  call LeaveMutation;;
  mret result.

(** ** The journal row and the state *)

Definition new_transition (request : GroupTierTransitionRequest) (g : grounds) : GroupTierTransition :=
  {| gt_ID := 0; gt_IdempotencyKey := tr_IdempotencyKey request; gt_SourceID := us_ID (gr_source g);
     gt_KeyID := gp_KeyID (gr_policy g); gt_FromTier := gr_currentTier g; gt_ToTier := tr_TargetTier request;
     gt_FromGroupID := kr_GroupID (gr_key g); gt_ToGroupID := gr_targetGroupID g; gt_Status := "";
     gt_Actor := tr_Actor request; gt_Producer := tr_Producer request; gt_Authority := tr_Authority request;
     gt_Reason := trim_space (tr_Reason request); gt_Evidence := trim_space (tr_Evidence request);
     gt_SnapshotVersion := trim_space (tr_SnapshotVersion request); gt_Trigger := tr_Trigger request;
     gt_PacketID := tr_PacketID request; gt_PacketHash := tr_PacketHash request; gt_RunID := tr_RunID request;
     gt_GoalID := tr_GoalID request; gt_StepID := tr_StepID request; gt_Error := ""; gt_AttemptCount := 0;
     gt_BeforeState := kr_GroupID (gr_key g); gt_VerifiedAfter := ""; gt_Uncertain := false; gt_Manual := tr_Manual request;
     gt_DryRun := tr_DryRun request; gt_CreatedAt := gr_now g; gt_CompletedAt := None |}.

(** The state while the write is under way: what the evidence will be measured from. *)
Definition transitioning_state (request : GroupTierTransitionRequest) (g : grounds) (transitionID : Z)
    (watermarks : FailoverEvidenceWatermarks) : GroupFailoverState :=
  (keyed_state (gr_source g) (gr_policy g))
    <| gs_ValidationStatus := GroupValidationTransitioning |> <| gs_ValidationMode := GroupValidationModePassive |>
    <| gs_ValidationTransitionID := transitionID |> <| gs_ValidationFromTier := gr_currentTier g |>
    <| gs_ValidationTargetTier := tr_TargetTier request |> <| gs_ValidationFromGroupID := kr_GroupID (gr_key g) |>
    <| gs_ValidationTargetGroupID := gr_targetGroupID g |> <| gs_SwitchRequestedAt := Some (gr_now g) |>
    <| gs_SwitchVerifiedAt := None |> <| gs_ValidationNotBefore := None |> <| gs_EvidenceDeadline := None |>
    <| gs_MonitorWatermark := wm_Monitor watermarks |> <| gs_TrafficWatermark := wm_Traffic watermarks |>
    <| gs_MonitorEvidenceCursor := wm_Monitor watermarks |> <| gs_TrafficEvidenceCursor := wm_Traffic watermarks |>
    <| gs_ActiveProbeAttempts := 0%Z |> <| gs_SuccessfulEvidenceCount := 0%Z |> <| gs_FailedEvidenceCount := 0%Z |>
    <| gs_LastEvidenceID := "" |> <| gs_LastEvidenceSource := "" |> <| gs_LastEvidenceReason := "" |>
    <| gs_LastEvidenceAt := None |>.

(** The boundaries of the evidence after a move read back at [at_]. *)
Definition awaiting_evidence (at_ : time) (state : GroupFailoverState) : GroupFailoverState :=
  state <| gs_ValidationStatus := GroupValidationAwaitingEvidence |> <| gs_SwitchVerifiedAt := Some at_ |>
    <| gs_ValidationNotBefore := Some (at_ + GroupValidationPropagationDelay)%Z |>
    <| gs_EvidenceDeadline := Some (at_ + GroupValidationEvidenceTimeout)%Z |>.

(** The state after a move from one tier and group to another. *)
Definition moved_tiers (fromTier fromGroup toTier toGroup : string) (at_ : time) (state : GroupFailoverState)
    : GroupFailoverState :=
  state <| gs_PreviousTier := fromTier |> <| gs_PreviousStableTier := fromTier |> <| gs_PreviousGroupID := fromGroup |>
    <| gs_CurrentTier := toTier |> <| gs_ObservedGroupID := toGroup |> <| gs_Frozen := false |> <| gs_FreezeReason := "" |>
    <| gs_LastError := "" |> <| gs_LastSwitchAt := Some at_ |> <| gs_LastTransitionAt := Some at_ |>
    <| gs_VerificationStartedAt := Some at_ |> <| gs_LastConfirmedAt := None |>.

Definition applied_state (request : GroupTierTransitionRequest) (g : grounds) (completedAt : time) (state : GroupFailoverState)
    : GroupFailoverState :=
  let state := moved_tiers (gr_currentTier g) (kr_GroupID (gr_key g)) (tr_TargetTier request) (gr_targetGroupID g)
                 completedAt state in
  let state := awaiting_evidence completedAt (state <| gs_ValidationMode := GroupValidationModePassive |>) in
  let state := state
    <| gs_CooldownUntil := Some (completedAt + minutes (st_FailoverSwitchCooldownMinutes (gr_settings g)))%Z |>
    <| gs_HealthySince := None |> <| gs_RecoveryHealthyCount := 0%Z |> in
  let protected := Some (completedAt + minutes (st_FailoverManualProtectionMinutes (gr_settings g)))%Z in
  if tr_Manual request then state <| gs_ManualHoldUntil := protected |> <| gs_ManualOverrideUntil := protected |>
  else state.

(** ** Endings *)

(** The write ended with an error. *)
Definition end_failed (request : GroupTierTransitionRequest) (g : grounds) (transition : GroupTierTransition)
    (state : GroupFailoverState) (switchErr : failure) : prog answer :=
  let previous := gs_ValidationStatus (gp_State (gr_policy g)) in
  if IsUncertain switchErr then
    ignore (MarkGroupTierTransitionUncertain (gt_ID transition) (failure_text switchErr));;
    ignore (SaveGroupFailoverState (state <| gs_ValidationStatus := GroupValidationUncertain |>
                                          <| gs_LastError := "switch_result_uncertain" |>));;
    let transition := transition <| gt_Error := failure_text switchErr |> <| gt_Uncertain := true |> in
    record (transition_event transition "group_failover_transition_reconciling" "critical"
      (us_Name (gr_source g) +:+ " 三级分组切换结果不明确，已保留幂等流水并只允许回读: " +:+ failure_text switchErr)
      (tr_Actor request));;
    mret (transition, Some switchErr)
  else
    ignore (FailGroupTierTransition (gt_ID transition) (failure_text switchErr) (gr_now g));;
    ignore (SaveGroupFailoverState (state <| gs_ValidationStatus := previous |> <| gs_LastError := failure_text switchErr |>));;
    record (transition_event transition "group_failover_transition_failed" "error"
      (us_Name (gr_source g) +:+ " 三级分组切换失败: " +:+ failure_text switchErr) (tr_Actor request));;
    mret (transition, Some switchErr).

(** The write was read back in the target group. *)
Definition end_applied (request : GroupTierTransitionRequest) (g : grounds) (transition : GroupTierTransition)
    (state : GroupFailoverState) (result : UpstreamResult) : prog answer :=
  completedAt ← call Now;
  try _ ← call (CompleteGroupTierTransition (gt_ID transition) (applied_state request g completedAt state) completedAt)
    catch err => mret (transition, Some err);
  _ ← applySuccess m (gr_source g) result;
  let transition := transition <| gt_Status := GroupTransitionApplied |> <| gt_VerifiedAfter := gr_targetGroupID g |>
                      <| gt_CompletedAt := Some completedAt |> in
  record ((transition_event transition "group_failover_transition_applied" "warning"
    (us_Name (gr_source g) +:+ " 令牌已从 " +:+ gr_currentTier g +:+ " 切换到 " +:+ tr_TargetTier request
     +:+ " 并完成写后确认，等待切换后证据") (tr_Actor request))
    <| ev_BeforeState := gr_currentTier g |> <| ev_AfterState := tr_TargetTier request |>);;
  call Trigger;;
  mret (transition, None).

(** The reply to the write does not show the key in the target group. *)
Definition end_mismatch (transition : GroupTierTransition) (state : GroupFailoverState) : prog answer :=
  let switchErr := NewFailure "上游写后确认结果与目标分组不一致" in
  now ← call Now;
  ignore (FailGroupTierTransition (gt_ID transition) (failure_text switchErr) now);;
  ignore (SaveGroupFailoverState (state <| gs_ValidationStatus := GroupValidationUncertain |>
                                        <| gs_LastError := "post_write_readback_mismatch" |>));;
  mret (transition, Some switchErr).

Definition in_group (rates : list KeyRate) (keyID groupID : string) : bool :=
  match findKeyRate rates keyID with
  | Some key => bool_decide (kr_GroupID key = groupID)
  | None => false
  end.

Definition switch (request : GroupTierTransitionRequest) (g : grounds) (transition : GroupTierTransition)
    (state : GroupFailoverState) : prog answer :=
  reply ← executeGroupTransport (tr_Manual request) (tr_AutomationLeaseHeld request) (gr_source g) (gr_credentials g)
            (gp_KeyID (gr_policy g)) (gr_targetGroupID g);
  match reply with
  | Err switchErr => end_failed request g transition state switchErr
  | Ok result =>
      if in_group (ur_KeyRates result) (gp_KeyID (gr_policy g)) (gr_targetGroupID g)
      then end_applied request g transition state result
      else end_mismatch transition state
  end.

(** The key is in the target group already. *)
Definition end_noop (g : grounds) (transition : GroupTierTransition) (state : GroupFailoverState) : prog answer :=
  let state := state <| gs_CurrentTier := gr_currentTier g |> <| gs_ObservedGroupID := kr_GroupID (gr_key g) |>
                 <| gs_ValidationStatus := gs_ValidationStatus (gp_State (gr_policy g)) |> in
  try _ ← call (CompleteGroupTierTransition (gt_ID transition) state (gr_now g)) catch err => mret (transition, Some err);
  mret (transition <| gt_Status := GroupTransitionApplied |> <| gt_VerifiedAfter := kr_GroupID (gr_key g) |>
          <| gt_CompletedAt := Some (gr_now g) |>, None).

Definition simulate (g : grounds) (transition : GroupTierTransition) : prog answer :=
  try _ ← call (SimulateGroupTierTransition (gt_ID transition) (gr_now g)) catch err => mret (transition, Some err);
  mret (transition <| gt_Status := GroupTransitionSimulated |> <| gt_CompletedAt := Some (gr_now g) |>, None).

(** ** The whole of it *)

Definition carry_out (request : GroupTierTransitionRequest) (g : grounds) : prog answer :=
  try _ ← call (AssertNoPendingGroupTransition (us_ID (gr_source g)) (gp_KeyID (gr_policy g))) catch err => refuse err;
  begun ← call (BeginGroupTierTransition (new_transition request g));
  let '(transition, existed, failed) := begun in
  if bool_decide (is_Some failed) || existed then mret (transition, failed) else
  if tr_DryRun request then simulate g transition else
  try watermarks ← call GetFailoverEvidenceWatermarks
    catch err => (ignore (FailGroupTierTransition (gt_ID transition) (failure_text err) (gr_now g));;
                  mret (transition, Some (WrapFailure "读取切换证据水位: " err)));
  let state := transitioning_state request g (gt_ID transition) watermarks in
  try _ ← call (SaveGroupFailoverState state)
    catch err => (ignore (FailGroupTierTransition (gt_ID transition) (failure_text err) (gr_now g));;
                  mret (transition, Some err));
  if bool_decide (gr_currentTier g = tr_TargetTier request) && bool_decide (kr_GroupID (gr_key g) = gr_targetGroupID g)
  then end_noop g transition state
  else switch request g transition state.

Definition transition_locked (request : GroupTierTransitionRequest) : prog answer :=
  existing ← replayed request;
  match existing with Some answer => mret answer | None =>
  check_policy m request (λ g, check_stored request g (λ g, check_live request g (λ g,
    check_state request g (carry_out request g))))
  end.

Definition TransitionGroupTier (request : GroupTierTransitionRequest) : prog answer :=
  let request := normalize_request request in
  if negb (validGroupTier (tr_TargetTier request)) then deny "目标层级只能是 main、backup 或 emergency" else
  if bool_decide (tr_IdempotencyKey request = "") then deny "切换幂等编号不能为空" else
  existing ← replayed request;
  match existing with Some answer => mret answer | None =>
  try _ ← call (AcquireGroup (tr_SourceID request) (tr_KeyID request)) catch err => refuse err;
  answer ← transition_locked request;
  call (ReleaseGroup (tr_SourceID request) (tr_KeyID request));;
  mret answer
  end.

(** ** Recovery *)

(** The state of a transition that was found carried out. *)
Definition recovered_validation (current : GroupTierTransition) (now : time) (state : GroupFailoverState) : GroupFailoverState :=
  if (gs_ValidationTransitionID state =? gt_ID current)%Z
     && bool_decide (gs_ValidationStatus state = GroupValidationTransitioning)
  then awaiting_evidence now state
  else state <| gs_ValidationStatus := GroupValidationUncertain |> <| gs_LastError := "recovered_without_evidence_watermark" |>.

Definition recovered_state (current : GroupTierTransition) (now : time) (policy : GroupFailoverPolicy) : GroupFailoverState :=
  recovered_validation current now
    (moved_tiers (gt_FromTier current) (gt_FromGroupID current) (gt_ToTier current) (gt_ToGroupID current) now
       ((gp_State policy) <| gs_SourceID := gt_SourceID current |> <| gs_KeyID := gt_KeyID current |>)).

Definition finish_recovered (current : GroupTierTransition) (source : UpstreamSource) (result : UpstreamResult) (now : time)
    : prog (option failure) :=
  try policy ← call (GetGroupFailoverPolicy (gt_SourceID current) (gt_KeyID current)) catch err => mret (Some err);
  try _ ← call (CompleteGroupTierTransition (gt_ID current) (recovered_state current now policy) now)
    catch err => mret (Some err);
  _ ← applySuccess m source result;
  record (transition_event current "group_transition_recovered" "warning" "分组切换流水已通过只读回读恢复" "system:recovery");;
  call Trigger;;
  mret None.

Definition recover_locked (item : GroupTierTransition) : prog (option failure) :=
  try current ← call (GetGroupTierTransitionByKey (gt_IdempotencyKey item)) catch err => mret (Some err);
  if negb (bool_decide (gt_Status current = GroupTransitionPending)) then mret None else
  try source ← call (GetUpstreamSource (gt_SourceID current)) catch err => mret (Some err);
  try credentials ← decrypt m source catch err => mret (Some err);
  try result ← call (Fetch (us_Provider source) (us_BaseURL source) credentials) catch err => mret (Some err);
  match findKeyRate (ur_KeyRates result) (gt_KeyID current) with
  | None => mret (Some (NewFailure "readback did not contain the controlled key"))
  | Some key =>
      now ← call Now;
      if bool_decide (kr_GroupID key = gt_FromGroupID current) then
        try _ ← call (FailGroupTierTransition (gt_ID current) "recovery readback confirmed the write was not applied" now)
          catch err => mret (Some err);
        mret None
      else if negb (bool_decide (kr_GroupID key = gt_ToGroupID current))
      then mret (Some (NewFailure "readback group does not match journal before or target state"))
      else finish_recovered current source result now
  end.

Definition recoverGroupTransition (item : GroupTierTransition) : prog (option failure) :=
  try _ ← call (AcquireGroup (gt_SourceID item) (gt_KeyID item)) catch err => mret (Some err);
  failed ← recover_locked item;
  call (ReleaseGroup (gt_SourceID item) (gt_KeyID item));;
  mret failed.

Definition RecoverGroupTransitions : prog (option failure) :=
  try items ← call ListPendingGroupTierTransitions catch err => mret (Some err);
  errors ← for_all (λ item errors,
    failed ← recoverGroupTransition item;
    mret match failed with
         | Some err => errors ++ [WrapFailure ("recover transition " +:+ format_int (gt_ID item) +:+ ": ") err]
         | None => errors
         end) items [];
  mret match errors with [] => None | _ => Some (JoinFailures errors) end.
End execution.
