(* ===== verification/GroupPolicies.v ===== *)
(** * Failover policies and observed groups

    [internal/balance/failover.go]: saving, confirming and deleting the policy that fixes
    the three groups of a key, and the comparison of the groups upstream with the states
    kept, after every refresh; and [Refresh] of [manager.go], which ends with it. *)

From S2P Require Import Prelude GoStd Float JsonText Model ModelHealth ModelFailover Requests MutationError BalanceCalls CostRouting BalanceSources GroupTransition GroupExecution.

Section policies.
Context `{UnicodeTables, UrlParser, Codecs} (m : Manager).

(** ** Observed groups *)

(** The key is not listed any more. *)
Definition lost_key_state (policy : GroupFailoverPolicy) : GroupFailoverState :=
  (gp_State policy) <| gs_Frozen := true |> <| gs_FreezeReason := "受控令牌已不存在" |>
    <| gs_LastError := "受控令牌已不存在" |>.

Definition cooled (settings : Settings) (now : time) (state : GroupFailoverState) : GroupFailoverState :=
  state <| gs_CooldownUntil := Some (now + minutes (st_FailoverSwitchCooldownMinutes settings))%Z |>.

(** A pending transition whose target group is the key's. *)
Definition found_applied (settings : Settings) (now : time) (transition : GroupTierTransition) (state : GroupFailoverState)
    : GroupFailoverState :=
  let state := state <| gs_PreviousTier := gt_FromTier transition |> <| gs_PreviousStableTier := gt_FromTier transition |>
    <| gs_PreviousGroupID := gt_FromGroupID transition |> <| gs_CurrentTier := gt_ToTier transition |>
    <| gs_ObservedGroupID := gt_ToGroupID transition |> <| gs_LastTransitionAt := Some now |>
    <| gs_LastConfirmedAt := None |> <| gs_VerificationStartedAt := Some now |> in
  cooled settings now (recovered_validation transition now state).

Definition settle_pending (settings : Settings) (now : time) (key : KeyRate) (transition : GroupTierTransition)
    (state : GroupFailoverState) : prog (flow GroupFailoverState failure) :=
  if negb (bool_decide (gt_Status transition = GroupTransitionPending)) then mret (Next state) else
  if bool_decide (kr_GroupID key = gt_ToGroupID transition) then
    let state := found_applied settings now transition state in
    try _ ← call (CompleteGroupTierTransition (gt_ID transition) state now) catch err => mret (Return err);
    record (transition_event transition "group_failover_transition_recovered" "warning"
      "服务重启后已通过上游实际分组确认未完成的切换流水" "system");;
    mret (Next state)
  else
    try _ ← call (FailGroupTierTransition (gt_ID transition) "服务重启后实际分组未达到目标，未重放写操作" now)
      catch err => mret (Return err);
    mret (Next state).

(** Somebody moved the key upstream. *)
Definition protected_state (settings : Settings) (now : time) (tier : string) (state : GroupFailoverState)
    : GroupFailoverState :=
  let protected := Some (now + minutes (st_FailoverManualProtectionMinutes settings))%Z in
  state <| gs_PreviousTier := gs_CurrentTier state |> <| gs_PreviousGroupID := gs_ObservedGroupID state |>
    <| gs_CurrentTier := tier |> <| gs_ManualHoldUntil := protected |> <| gs_ManualOverrideUntil := protected |>
    <| gs_LastTransitionAt := Some now |> <| gs_ValidationStatus := GroupValidationUncertain |>
    <| gs_LastConfirmedAt := None |> <| gs_LastError := "manual_switch_requires_new_evidence_boundary" |>
    <| gs_Frozen := false |> <| gs_FreezeReason := "" |>.

Definition observed_state (settings : Settings) (now : time) (policy : GroupFailoverPolicy) (key : KeyRate)
    (state : GroupFailoverState) : prog GroupFailoverState :=
  let tier := tierForGroup policy (kr_GroupID key) in
  if bool_decide (tier = "") then
    mret (state <| gs_Frozen := true |> <| gs_FreezeReason := "检测到未知的上游令牌分组" |>
                <| gs_LastError := "检测到未知的上游令牌分组" |>)
  else if negb (bool_decide (gs_ObservedGroupID state = ""))
          && negb (bool_decide (gs_ObservedGroupID state = kr_GroupID key)) then
    record (manager_event "group_manual_override_detected" "warning"
      ("检测到上游后台人工切换令牌分组，已进入 " +:+ format_int (st_FailoverManualProtectionMinutes settings) +:+ " 分钟保护")
      "system" (override_details policy tier));;
    mret (protected_state settings now tier state)
  else mret (state <| gs_CurrentTier := tier |> <| gs_Frozen := false |> <| gs_FreezeReason := "" |>).

Definition save_state (state : GroupFailoverState) : prog (flow unit failure) :=
  try _ ← call (SaveGroupFailoverState state) catch err => mret (Return err);
  mret (Next ()).

Definition reconcile_policy (settings : Settings) (now : time) (refreshed : option (gset Z)) (policy : GroupFailoverPolicy)
    (_ : unit) : prog (flow unit failure) :=
  if match refreshed with Some refreshed => bool_decide (gp_SourceID policy ∉ refreshed) | None => false end
  then mret (Next ()) else
  try rates ← call (ListUpstreamKeyRates (gp_SourceID policy)) catch err => mret (Return err);
  match findKeyRate rates (gp_KeyID policy) with
  | None => save_state (lost_key_state policy)
  | Some key =>
      try pending ← call (ListGroupTierTransitions (gp_SourceID policy) (gp_KeyID policy) 100) catch err => mret (Return err);
      settled ← for_each (settle_pending settings now key) pending (gp_State policy);
      match settled with
      | Return err => mret (Return err)
      | Next state =>
          state ← observed_state settings now policy key state;
          save_state (state <| gs_ObservedGroupID := kr_GroupID key |>)
      end
  end.

Definition reconcileGroupFailoverStatesForSourcesLocked (refreshed : option (gset Z)) : prog (option failure) :=
  try settings ← call GetSettings catch err => mret (Some (WrapFailure "读取救灾策略: " err));
  try policies ← call (ListGroupFailoverPolicies 0) catch err => mret (Some err);
  now ← call Now;
  ended ← for_each (reconcile_policy settings now refreshed) policies ();
  mret match ended with Return err => Some err | Next _ => None end.

Definition ReconcileGroupFailoverStates : prog (option failure) :=
  call LockRun;; failed ← reconcileGroupFailoverStatesForSourcesLocked None; call UnlockRun;; mret failed.

Definition Refresh (id : Z) : prog (option failure) :=
  call LockRun;;
  failed ← (failed ← refreshLocked m id;
            match failed with
            | Some err => mret (Some err)
            | None => reconcileGroupFailoverStatesForSourcesLocked (Some {[id]})
            end);
  call UnlockRun;;
  mret failed.

Definition RefreshManual (id : Z) : prog (option failure) :=
  now ← call Now;
  claimed ← call (ClaimManualRun id now);
  if negb claimed then mret (Some (NewFailure "该上游刚刚手动刷新过，请 30 秒后再试")) else Refresh id.

(** ** Validating a policy *)

(** The groups of the enabled tiers; all of the tiers, where none is. *)
Definition with_tiers (policy : GroupFailoverPolicy) : GroupFailoverPolicy :=
  if negb (gp_MainEnabled policy) && negb (gp_BackupEnabled policy) && negb (gp_EmergencyEnabled policy)
  then policy <| gp_MainEnabled := true |> <| gp_BackupEnabled := true |> <| gp_EmergencyEnabled := true |> else policy.

Definition add_tier (policy : GroupFailoverPolicy) (tier : string) (groups : list string) : result failure (list string) :=
  if negb (tierEnabled policy tier) then Ok groups else
  let groupID := trim_space (groupIDForTier policy tier) in
  if bool_decide (groupID = "") then Err (NewFailure "启用的固定层级必须配置分组") else
  if bool_decide (groupID ∈ groups) then Err (NewFailure "启用的固定层级必须使用不同分组") else
  Ok (groups ++ [groupID]).

Definition policy_groups (policy : GroupFailoverPolicy) : result failure (list string) :=
  groups ← add_tier policy GroupTierMain [];
  groups ← add_tier policy GroupTierBackup groups;
  groups ← add_tier policy GroupTierEmergency groups;
  if bool_decide (groups = []) then Err (NewFailure "固定三级策略至少需要一个启用层级") else Ok groups.

Fixpoint unmatched_account (source : UpstreamSource) (accounts : list Account) (accountIDs : list Z) : option Z :=
  match accountIDs with
  | [] => None
  | accountID :: accountIDs =>
      if existsb (λ account, at_source source account && (acc_ID account =? accountID)%Z) accounts
      then unmatched_account source accounts accountIDs else Some accountID
  end.

Definition validateGroupFailoverPolicy (policy : GroupFailoverPolicy)
    : prog (result failure (UpstreamSource * KeyRate * string)) :=
  let policy := with_tiers policy in
  match policy_groups policy with Err err => mret (Err err) | Ok groups =>
  try source ← call (GetUpstreamSource (gp_SourceID policy)) catch err => mret (Err err);
  if negb (us_Enabled source) || us_MigrationRequired source
  then mret (Err (NewFailure "上游已停用或账号密码尚未重新配置")) else
  try settings ← call GetSettings catch err => mret (Err (WrapFailure "读取救灾策略: " err));
  try credentials ← decrypt m source catch err => mret (Err err);
  if negb (password_login credentials) then
    ignore (MarkUpstreamCredentialMigrationRequired (us_ID source));;
    call Trigger;;
    mret (Err (NewFailure "三级分组策略仅允许使用已验证的账号密码"))
  else
  now ← call Now;
  if match us_LastSuccessAt source with
     | None => true
     | Some success => (minutes (st_FailoverGroupFreshMinutes settings) <? sub_time now success)%Z
     end
  then mret (Err (NewFailure ("令牌和分组数据超过 " +:+ format_int (st_FailoverGroupFreshMinutes settings) +:+ " 分钟未更新")))
  else
  try rates ← call (ListUpstreamKeyRates (us_ID source)) catch err => mret (Err err);
  match findKeyRate rates (gp_KeyID policy) with
  | None => mret (Err (NewFailure "受控令牌不存在或已停用"))
  | Some key =>
      if negb (keyRateActive (kr_Status key)) then mret (Err (NewFailure "受控令牌不存在或已停用")) else
      try availableGroups ← call (ListUpstreamGroups (us_ID source)) catch err => mret (Err err);
      if negb (forallb (containsGroup availableGroups) groups) then mret (Err (NewFailure "目标分组不存在")) else
      try accounts ← call ListAccounts catch err => mret (Err (WrapFailure "读取 Sub2API 账号失败: " err));
      mret match unmatched_account source accounts (gp_AccountIDs policy) with
           | Some accountID => Err (NewFailure ("账号 " +:+ format_int accountID +:+ " 与该上游地址不匹配"))
           | None => Ok (source, key, tierForGroup policy (kr_GroupID key))
           end
  end end.

(** ** Saving, confirming, deleting *)

(** The state of a policy that was saved. *)
Definition reset_state (saved : GroupFailoverPolicy) (key : KeyRate) (observedTier : string) : GroupFailoverState :=
  let state := (gp_State saved) <| gs_SourceID := gp_SourceID saved |> <| gs_KeyID := gp_KeyID saved |>
    <| gs_ObservedGroupID := kr_GroupID key |> <| gs_CurrentTier := observedTier |> <| gs_LastConfirmedAt := None |> in
  let state := if bool_decide (gs_ValidationStatus state = "")
               then state <| gs_ValidationStatus := GroupValidationUnknown |> else state in
  let state := if bool_decide (gs_ValidationMode state = "")
               then state <| gs_ValidationMode := GroupValidationModePassive |> else state in
  if bool_decide (observedTier = "")
  then state <| gs_Frozen := true |> <| gs_FreezeReason := "当前令牌分组不在已配置的主、备用、紧急分组中" |>
  else state <| gs_Frozen := false |> <| gs_FreezeReason := "" |> <| gs_LastError := "" |>.

Definition policy_details (sourceID : Z) (keyID : string) (more : list (string * string)) : string :=
  json_object (("source_id", format_int sourceID) :: ("key_id", quote keyID) :: more).

Definition save_policy (policy : GroupFailoverPolicy) (actor : string) : prog (result failure GroupFailoverPolicy) :=
  let policy := policy <| gp_KeyID := trim_space (gp_KeyID policy) |> <| gp_Pool := trim_space (gp_Pool policy) |> in
  if (gp_SourceID policy <=? 0)%Z || bool_decide (gp_KeyID policy = "")
  then mret (Err (NewFailure "上游和受控令牌不能为空")) else
  if bool_decide (gp_Pool policy = "") then mret (Err (NewFailure "受控令牌必须指定调度池")) else
  if bool_decide (gp_AccountIDs policy = []) then mret (Err (NewFailure "至少绑定一个 Sub2API 账号")) else
  try checked ← validateGroupFailoverPolicy policy catch err => mret (Err err);
  let '(source, key, observedTier) := checked in
  try _ ← validateGroupFailoverEvidenceSource m policy catch err => mret (Err err);
  let policy := policy <| gp_KeyName := kr_Name key |> <| gp_KeyHint := kr_KeyHint key |> in
  try saved ← call (SaveGroupFailoverPolicy policy) catch err => mret (Err err);
  try _ ← call (SaveGroupFailoverState (reset_state saved key observedTier)) catch err => mret (Err err);
  try saved ← call (GetGroupFailoverPolicy (gp_SourceID saved) (gp_KeyID saved)) catch err => mret (Err err);
  record (manager_event "group_failover_policy_saved" "info" (us_Name source +:+ " 的三级分组策略已保存，等待确认")
    (fallbackActor actor)
    (policy_details (gp_SourceID saved) (gp_KeyID saved)
       [("version", format_int (gp_Version saved)); ("pool", quote (gp_Pool saved))]));;
  call Trigger;;
  mret (Ok saved).

Definition confirm_policy (sourceID : Z) (keyID : string) (version : Z) (actor : string)
    : prog (result failure GroupFailoverPolicy) :=
  try policy ← call (GetGroupFailoverPolicy sourceID keyID) catch err => mret (Err err);
  if negb (gp_Version policy =? version)%Z then mret (Err (NewFailure "策略版本已变化，请重新检查后确认")) else
  try checked ← validateGroupFailoverPolicy policy catch err => mret (Err err);
  if bool_decide (checked.2 = "")
  then mret (Err (NewFailure "当前令牌分组不属于主、备用或紧急分组，不能确认自动救灾")) else
  try _ ← validateGroupFailoverEvidenceSource m policy catch err => mret (Err err);
  try confirmed ← call (ConfirmGroupFailoverPolicy sourceID keyID version (fallbackActor actor)) catch err => mret (Err err);
  record (manager_event "group_failover_policy_confirmed" "warning" "三级分组自动救灾策略已人工确认" (fallbackActor actor)
    (policy_details sourceID keyID [("version", format_int version)]));;
  call Trigger;;
  mret (Ok confirmed).

Definition delete_policy (sourceID : Z) (keyID actor : string) : prog (option failure) :=
  try _ ← call (GetGroupFailoverPolicy sourceID keyID) catch err => mret (Some err);
  try _ ← call (DeleteGroupFailoverPolicy sourceID keyID) catch err => mret (Some err);
  record (manager_event "group_failover_policy_deleted" "warning" "已删除三级分组自动救灾策略" (fallbackActor actor)
    (policy_details sourceID keyID []));;
  call Trigger;;
  mret None.

(** A method that runs under [runMu]. *)
Definition locked {R} (body : prog R) : prog R :=
  call LockRun;; answer ← body; call UnlockRun;; mret answer.

Definition SaveFailoverPolicy (policy : GroupFailoverPolicy) (actor : string) : prog (result failure GroupFailoverPolicy) :=
  locked (save_policy policy actor).
Definition ConfirmFailoverPolicy (sourceID : Z) (keyID : string) (version : Z) (actor : string)
    : prog (result failure GroupFailoverPolicy) :=
  locked (confirm_policy sourceID keyID version actor).
Definition DeleteFailoverPolicy (sourceID : Z) (keyID actor : string) : prog (option failure) :=
  locked (delete_policy sourceID keyID actor).
End policies.
