(* ===== verification/GroupSafety.v ===== *)
(** * When a group is written

    What a run of [TransitionGroupTier] must have read and journaled before it writes a
    group upstream, and what it must have read back before it closes the journal row; and
    the same for the recovery of pending transitions, which never writes. *)

From S2P Require Import Prelude GoStd Float JsonText Model ModelHealth ModelFailover Requests MutationError BalanceCalls CostRouting BalanceSources GroupTransition GroupExecution.

(** What was exchanged since the lock on the key was taken, and where the run stands. *)
Record group_watch := mkGroupWatch {
  gw_lock : option (Z * string);
  gw_history : list (exchange ManagerCall);
  gw_lease : bool;                      (* inside the barrier *)
  gw_unfrozen : bool;                   (* and no freeze of the automation read there *)
  gw_begun : option (GroupTierTransition * GroupTierTransition);   (* the row, and as stored *)
  gw_saved : option GroupFailoverState;
  gw_switched : option (result failure UpstreamResult);
}.
Definition nothing_done : group_watch := mkGroupWatch None [] false false None None None.

Definition seen (w : group_watch) {R} (c : ManagerCall R) (r : R) : Prop := Exchange c r ∈ gw_history w.

Definition noted (w : group_watch) R (c : ManagerCall R) (r : R) : group_watch :=
  let w := w <| gw_history := Exchange c r :: gw_history w |> in
  match c in ManagerCall R return R → group_watch with
  | AcquireGroup sourceID keyID => λ r,
      match r with Ok _ => nothing_done <| gw_lock := Some (sourceID, keyID) |> | Err _ => w end
  | ReleaseGroup _ _ => λ _, nothing_done
  | EnterMutation => λ r, match r with Ok _ => w <| gw_lease := true |> <| gw_unfrozen := false |> | Err _ => w end
  | LeaveMutation => λ _, w <| gw_lease := false |> <| gw_unfrozen := false |>
  | GetFreezeState => λ r, w <| gw_unfrozen := match r with Ok freeze => negb (fs_AllAutomation freeze) | Err _ => false end |>
  | BeginGroupTierTransition transition => λ r,
      match r with
      | (row, false, None) => w <| gw_begun := Some (transition, row) |>
      | _ => w
      end
  | SaveGroupFailoverState state => λ r, match r with Ok _ => w <| gw_saved := Some state |> | Err _ => w end
  | SwitchGroup _ _ _ _ _ => λ r, w <| gw_switched := Some r |>
  | _ => λ _, w
  end r.

Section grounds.
Context `{UnicodeTables, UrlParser, Codecs} (m : Manager).

(** ** Transitions *)

Section transition.
Context (request : GroupTierTransitionRequest).

(** What the run decides on is what it was told under the lock. *)
Record told (w : group_watch) (g : grounds) : Prop := {
  to_lock : gw_lock w = Some (tr_SourceID request, tr_KeyID request);
  to_new : ∃ err, seen w (GetGroupTierTransitionByKey (tr_IdempotencyKey request)) (Err err);
  to_settings : seen w GetSettings (Ok (gr_settings g));
  to_source : seen w (GetUpstreamSource (tr_SourceID request)) (Ok (gr_source g));
  to_policy : seen w (GetGroupFailoverPolicy (tr_SourceID request) (tr_KeyID request)) (Ok (gr_policy g));
  to_credentials : ∃ payload, decode_credentials payload = Some (gr_credentials g)
    ∧ seen w (BoxDecrypt (us_CredentialNonce (gr_source g)) (us_CredentialCiphertext (gr_source g))) (Ok payload);
  to_now : seen w Now (gr_now g);
}.

(** The policy names the target. *)
Record target_fits (g : grounds) : Prop := {
  tf_confirmed : gp_Confirmed (gr_policy g) = true ∧ gp_ConfirmedVersion (gr_policy g) = gp_Version (gr_policy g);
  tf_group : gr_targetGroupID g = groupIDForTier (gr_policy g) (tr_TargetTier request)
    ∧ trim_space (gr_targetGroupID g) ≠ "";
  tf_enabled : tierEnabled (gr_policy g) (tr_TargetTier request) = true;
  tf_pool : trim_space (tr_ExpectedPool request) = "" ∨ trim_space (tr_ExpectedPool request) = trim_space (gp_Pool (gr_policy g));
}.

(** What an automatic transition needs beside. *)
Record automatic_source (g : grounds) : Prop := {
  as_source : us_Enabled (gr_source g) = true ∧ us_MigrationRequired (gr_source g) = false;
  as_password : password_login (gr_credentials g) = true;
  as_policy : gp_Enabled (gr_policy g) = true;
}.
Record automatic_stored (w : group_watch) (g : grounds) (stored : KeyRate) : Prop := {
  ao_fresh : stale_groups g = false;
  ao_funded : unfunded (gr_source g) = false;
  ao_key : ∃ rates, seen w (ListUpstreamKeyRates (us_ID (gr_source g))) (Ok rates)
    ∧ findKeyRate rates (tr_KeyID request) = Some stored ∧ keyRateActive (kr_Status stored) = true
    ∧ tierForGroup (gr_policy g) (kr_GroupID stored) ≠ "";
}.
Record automatic_state (w : group_watch) (g : grounds) : Prop := {
  au_frozen : gs_Frozen (gp_State (gr_policy g)) = false;
  au_held : activeUntil (gs_ManualOverrideUntil (gp_State (gr_policy g))) (gs_ManualHoldUntil (gp_State (gr_policy g))) (gr_now g) = false;
  au_cooled : until_after (gs_CooldownUntil (gp_State (gr_policy g))) (gr_now g) = false ∨ emergency_escalation request g = true;
  au_limits : ∃ short long,
    seen w (CountCompletedGroupTierTransitions (us_ID (gr_source g)) (gp_KeyID (gr_policy g))
              (gr_now g - minutes (st_FailoverShortLimitWindowMinutes (gr_settings g)))%Z) (Ok short)
    ∧ seen w (CountCompletedGroupTierTransitions (us_ID (gr_source g)) (gp_KeyID (gr_policy g))
              (gr_now g - minutes (st_FailoverLongLimitWindowMinutes (gr_settings g)))%Z) (Ok long)
    ∧ (short < st_FailoverShortLimitCount (gr_settings g))%Z ∧ (long < st_FailoverLongLimitCount (gr_settings g))%Z;
}.

(** The key as it was read back from upstream. *)
Record live (w : group_watch) (g : grounds) : Prop := {
  lv_key : ∃ result, seen w (Fetch (us_Provider (gr_source g)) (us_BaseURL (gr_source g)) (gr_credentials g)) (Ok result)
    ∧ findKeyRate (ur_KeyRates result) (tr_KeyID request) = Some (gr_key g);
  lv_tier : gr_currentTier g = let tier := tierForGroup (gr_policy g) (kr_GroupID (gr_key g)) in
                               if bool_decide (tier = "") then "unknown" else tier;
  lv_active : tr_Manual request = false →
    keyRateActive (kr_Status (gr_key g)) = true ∧ tierForGroup (gr_policy g) (kr_GroupID (gr_key g)) ≠ "";
}.

(** Everything there is to know before the transition is journaled. *)
Record decided (w : group_watch) (g : grounds) : Prop := {
  dc_told : told w g;
  dc_target : target_fits g;
  dc_groups : ∃ groups, seen w (ListUpstreamGroups (us_ID (gr_source g))) (Ok groups)
    ∧ containsGroup groups (gr_targetGroupID g) = true;
  dc_live : live w g;
  dc_expected : trim_space (tr_ExpectedFromTier request) = "" ∨ trim_space (tr_ExpectedFromTier request) = gr_currentTier g;
  dc_cutoff : ∀ cutoff, tr_EvidenceCutoffAt request = Some cutoff →
    seen w (HasAutomaticGroupTransitionInPoolSince (gp_Pool (gr_policy g)) cutoff) (Ok false);
  dc_automatic : tr_Manual request = false →
    automatic_source g
    ∧ (∃ stored, automatic_stored w g stored ∧ kr_GroupID stored = kr_GroupID (gr_key g))
    ∧ automatic_state w g;
}.

(** The row of this transition is open, and is not a simulation. *)
Definition journaled (w : group_watch) (g : grounds) (row : GroupTierTransition) : Prop :=
  gw_begun w = Some (new_transition request g, row) ∧ tr_DryRun request = false.

Definition may_begin (w : group_watch) (transition : GroupTierTransition) : Prop :=
  ∃ g, decided w g ∧ transition = new_transition request g ∧ gw_begun w = None ∧ gw_switched w = None
    ∧ seen w (AssertNoPendingGroupTransition (us_ID (gr_source g)) (gp_KeyID (gr_policy g))) (Ok ()).

Definition may_switch (w : group_watch) (provider baseURL : string) (credentials : UpstreamCredentials)
    (keyID groupID : string) : Prop :=
  ∃ g row watermarks, decided w g ∧ journaled w g row ∧ gw_switched w = None
    ∧ seen w GetFailoverEvidenceWatermarks (Ok watermarks)
    ∧ gw_saved w = Some (transitioning_state request g (gt_ID row) watermarks)
    ∧ ¬ (gr_currentTier g = tr_TargetTier request ∧ kr_GroupID (gr_key g) = gr_targetGroupID g)
    ∧ provider = us_Provider (gr_source g) ∧ baseURL = us_BaseURL (gr_source g) ∧ credentials = gr_credentials g
    ∧ keyID = gp_KeyID (gr_policy g) ∧ groupID = gr_targetGroupID g
    ∧ (tr_Manual request = false →
         bm_boundary m = true ∧ (gw_lease w = true ∨ tr_AutomationLeaseHeld request = true) ∧ gw_unfrozen w = true).

(** The row is closed as carried out: the reply to the write shows the key in the target
    group, or it was there all along and nothing was written. *)
Definition may_complete (w : group_watch) (id : Z) (state : GroupFailoverState) : Prop :=
  ∃ g row, decided w g ∧ journaled w g row ∧ id = gt_ID row ∧ gs_ObservedGroupID state = gr_targetGroupID g
    ∧ match gw_switched w with
      | Some (Ok result) => in_group (ur_KeyRates result) (gp_KeyID (gr_policy g)) (gr_targetGroupID g) = true
          ∧ gs_ValidationStatus state = GroupValidationAwaitingEvidence
      | Some (Err _) => False
      | None => kr_GroupID (gr_key g) = gr_targetGroupID g
      end.

(** The row is closed as failed: nothing was written, or the write was refused, or its
    reply does not show the key in the target group. *)
Definition may_fail (w : group_watch) (id : Z) : Prop :=
  ∃ g row, decided w g ∧ journaled w g row ∧ id = gt_ID row
    ∧ match gw_switched w with
      | Some (Ok result) => in_group (ur_KeyRates result) (gp_KeyID (gr_policy g)) (gr_targetGroupID g) = false
      | Some (Err err) => IsUncertain err = false
      | None => True
      end.

Definition may_leave_uncertain (w : group_watch) (id : Z) : Prop :=
  ∃ g row, decided w g ∧ journaled w g row ∧ id = gt_ID row
    ∧ match gw_switched w with
      | Some (Ok _) => False
      | Some (Err err) => IsUncertain err = true
      | None => True
      end.

Definition may_simulate (w : group_watch) (id : Z) : Prop :=
  ∃ g row, decided w g ∧ gw_begun w = Some (new_transition request g, row) ∧ tr_DryRun request = true ∧ id = gt_ID row
    ∧ gw_switched w = None.

(** Requests that neither journal nor write a transition. *)
Definition harmless {R} (c : ManagerCall R) : bool :=
  match c with
  | ListUpstreamSources | GetUpstreamSource _ | UpdateUpstreamSource _ | MarkUpstreamCredentialMigrationRequired _
  | SaveUpstreamSuccess _ _ _ | SyncBalanceLocksChanged _ _ _ | ListUpstreamKeyRates _ | ListUpstreamGroups _
  | GetSettings | GetGroupFailoverPolicy _ _ | GetGroupTierTransitionByKey _ | ListPendingGroupTierTransitions
  | AssertNoPendingGroupTransition _ _ | GetFailoverEvidenceWatermarks | HasAutomaticGroupTransitionInPoolSince _ _
  | CountCompletedGroupTierTransitions _ _ _ | AddEvent _ | Fetch _ _ _ | BoxEncrypt _ | BoxDecrypt _ _
  | GetFreezeState | ListAccounts | Trigger | RequestAccountsFrom _ _ | RequestAccounts _ | GetSnapshot | Now => true
  | _ => false
  end.

Definition transition_permits (w : group_watch) R (c : ManagerCall R) : Prop :=
  match c with
  | AcquireGroup _ _ => gw_lock w = None
  | ReleaseGroup sourceID keyID => gw_lock w = Some (sourceID, keyID) ∧ gw_lease w = false
  | EnterMutation => gw_lease w = false
  | LeaveMutation => gw_lease w = true
  | SaveGroupFailoverState _ => is_Some (gw_lock w)
  | BeginGroupTierTransition transition => may_begin w transition
  | SwitchGroup provider baseURL credentials keyID groupID => may_switch w provider baseURL credentials keyID groupID
  | CompleteGroupTierTransition id state _ => may_complete w id state
  | FailGroupTierTransition id _ _ => may_fail w id
  | MarkGroupTierTransitionUncertain id _ => may_leave_uncertain w id
  | SimulateGroupTierTransition id _ => may_simulate w id
  | c => harmless c = true
  end.

Definition transition_protocol : protocol ManagerCall := mkProtocol group_watch transition_permits noted.
End transition.

(** ** Recovery *)

(** A row found pending under the lock, and the group of its key read back after. *)
Definition read_back (w : group_watch) (current : GroupTierTransition) (groupID : string) : Prop :=
  gt_Status current = GroupTransitionPending
  ∧ (∃ key, seen w (GetGroupTierTransitionByKey key) (Ok current))
  ∧ ∃ source credentials result, seen w (GetUpstreamSource (gt_SourceID current)) (Ok source)
      ∧ seen w (Fetch (us_Provider source) (us_BaseURL source) credentials) (Ok result)
      ∧ in_group (ur_KeyRates result) (gt_KeyID current) groupID = true.

Definition recovery_permits (w : group_watch) R (c : ManagerCall R) : Prop :=
  match c with
  | AcquireGroup _ _ => gw_lock w = None
  | ReleaseGroup sourceID keyID => gw_lock w = Some (sourceID, keyID)
  | CompleteGroupTierTransition id state now =>
      is_Some (gw_lock w) ∧ ∃ current policy, read_back w current (gt_ToGroupID current) ∧ id = gt_ID current
        ∧ gt_ToGroupID current ≠ gt_FromGroupID current
        ∧ seen w (GetGroupFailoverPolicy (gt_SourceID current) (gt_KeyID current)) (Ok policy)
        ∧ state = recovered_state current now policy
  | FailGroupTierTransition id _ _ =>
      is_Some (gw_lock w) ∧ ∃ current, read_back w current (gt_FromGroupID current) ∧ id = gt_ID current
  | c => harmless c = true
  end.

Definition recovery_protocol : protocol ManagerCall := mkProtocol group_watch recovery_permits noted.

(** ** Steps *)

(** The run stands where it stood, and has been told more. *)
Record later (w w' : group_watch) : Prop := {
  lt_lock : gw_lock w' = gw_lock w;
  lt_lease : gw_lease w' = gw_lease w;
  lt_begun : gw_begun w' = gw_begun w;
  lt_switched : gw_switched w' = gw_switched w;
  lt_history : gw_history w ⊆ gw_history w';
}.
#[export] Instance later_preorder : PreOrder later.
Proof. split; [by split|]. intros w1 w2 w3 [] []. split; try congruence; by etrans. Qed.

(** The run may have gone on, under the same lock. *)
Record learned (w w' : group_watch) : Prop := {
  ln_lock : gw_lock w' = gw_lock w;
  ln_history : gw_history w ⊆ gw_history w';
}.
#[export] Instance learned_preorder : PreOrder learned.
Proof. split; [by split|]. intros w1 w2 w3 [] []. split; [congruence|by etrans]. Qed.
Lemma later_learned w w' : later w w' → learned w w'.
Proof. by intros []. Qed.
Lemma seen_learned w w' {R} (c : ManagerCall R) r : learned w w' → seen w c r → seen w' c r.
Proof. intros [] Hs. by apply ln_history0. Qed.

Lemma seen_later w w' {R} (c : ManagerCall R) r : later w w' → seen w c r → seen w' c r.
Proof. intros [] Hs. by apply lt_history0. Qed.

Lemma noted_harmless w R (c : ManagerCall R) r : harmless c = true → later w (noted w R c r) ∧ seen (noted w R c r) c r.
Proof.
  intros Hc. unfold seen. destruct c; try done; cbn [noted]; (split; [split|]); read_fields; try done;
    try (by left); intros x Hx; by right.
Qed.
End grounds.
