(* ===== verification/GroupSteps.v ===== *)
(** * Steps of a transition

    How the stages of [TransitionGroupTier] and of the recovery keep to the protocols of
    [GroupSafety]: each lemma follows one stage through [wp]. *)

From S2P Require Import Prelude GoStd Float JsonText Model ModelHealth ModelFailover Requests MutationError BalanceCalls CostRouting BalanceSources GroupTransition GroupExecution GroupSafety.

Ltac chain := first [reflexivity | eassumption | etrans; [eassumption|]; chain].

Section harmless_steps.
Context `{UnicodeTables, UrlParser, Codecs} (m : Manager).
Context (permits : group_watch → ∀ R, ManagerCall R → Prop).
Context (Hharmless : ∀ w R (c : ManagerCall R), harmless c = true → permits w R c).
Abbreviation wpg := (wp (mkProtocol group_watch permits noted)).

Lemma wp_harmless {A R} (c : ManagerCall R) (k : R → prog A) w Q :
  harmless c = true →
  (∀ r w', later w w' → seen w' c r → wpg (k r) w' Q) → wpg (call c ≫= k) w Q.
Proof.
  intros Hc Hk. apply wp_request; [by apply Hharmless|]. intros r.
  destruct (noted_harmless w R c r Hc). by apply Hk.
Qed.

Lemma wp_harmless_bind {A B} (p : prog A) (f : A → prog B) w Q :
  wpg p w (λ _, later w) → (∀ a w', later w w' → wpg (f a) w' Q) → wpg (p ≫= f) w Q.
Proof. intros Hp Hf. rewrite wp_bind. eapply wp_mono; [|exact Hp]. cbn. intros a w'. apply Hf. Qed.

Lemma call_later {R} (c : ManagerCall R) w : harmless c = true → wpg (call c) w (λ _, later w).
Proof. intros Hc. split; [by apply Hharmless|]. intros r. by apply noted_harmless. Qed.

Lemma ignore_later {R} (c : ManagerCall R) w : harmless c = true → wpg (ignore c) w (λ _, later w).
Proof. intros Hc. apply wp_harmless; [done|]. intros r w' Hl _. exact Hl. Qed.

Lemma record_harmless event w : wpg (record event) w (λ _, later w).
Proof.
  unfold record. apply wp_harmless_bind.
  { destruct (is_zero_time _); [|cbn; reflexivity]. apply wp_harmless; [done|]. intros now w1 Hl _. exact Hl. }
  intros e w1 Hl1. apply wp_harmless; [done|]. intros x w2 Hl2 _. cbn. chain.
Qed.

Lemma decrypt_told source w :
  wpg (decrypt m source) w (λ r w', later w w' ∧ ∀ credentials, r = Ok credentials →
    ∃ payload, decode_credentials payload = Some credentials
      ∧ seen w' (BoxDecrypt (us_CredentialNonce source) (us_CredentialCiphertext source)) (Ok payload)).
Proof.
  unfold decrypt. destruct (bm_box m); [|split; [reflexivity|done]].
  apply wp_harmless; [done|]. intros [payload|e] w1 Hl Hs; [|by split]. cbn. split; [done|].
  intros credentials. destruct (decode_credentials payload) as [c|] eqn:Ec; [|done]. intros [= ->]. eauto.
Qed.

Lemma decrypt_later source w : wpg (decrypt m source) w (λ _, later w).
Proof. eapply wp_mono; [|apply decrypt_told]. by intros r w' [? _]. Qed.

Lemma keep_rotated_key_later source result w : wpg (keep_rotated_key m source result) w (λ _, later w).
Proof.
  unfold keep_rotated_key. case_bool_decide; [cbn; reflexivity|].
  apply wp_harmless_bind; [apply decrypt_later|]. intros [credentials|e] w1 Hl1; [|exact Hl1].
  destruct (_ || _); [|exact Hl1]. apply wp_harmless_bind.
  { unfold encrypt. destruct (bm_box m); [|cbn; reflexivity]. by apply call_later. }
  intros [sealed|e] w2 Hl2; [|cbn; chain]. apply wp_harmless; [done|]. intros [u|e] w3 Hl3 _; cbn; chain.
Qed.

Lemma requestAccounts_later source accountIDs w : wpg (requestAccounts m source accountIDs) w (λ _, later w).
Proof.
  unfold requestAccounts. case_bool_decide; [cbn; reflexivity|]. destruct (bm_requester m); by apply call_later.
Qed.

Lemma applySuccess_later source result w : wpg (applySuccess m source result) w (λ _, later w).
Proof.
  unfold applySuccess. apply wp_harmless_bind.
  { destruct (is_zero_time _); [by apply call_later|cbn; reflexivity]. }
  intros now w1 Hl1. apply wp_harmless_bind; [apply keep_rotated_key_later|]. intros [kept|e] w2 Hl2; [|cbn; chain].
  apply wp_harmless; [done|]. intros [u|e] w3 Hl3 _; [|cbn; chain].
  apply wp_harmless; [done|]. intros [accounts|e] w4 Hl4 _; [|cbn; chain].
  apply wp_harmless; [done|]. intros [changed|e] w5 Hl5 _; [|cbn; chain].
  apply wp_harmless_bind; [destruct (_ && _); [apply record_harmless|cbn; reflexivity]|]. intros [] w6 Hl6.
  apply wp_harmless_bind; [destruct (_ && _); [apply record_harmless|cbn; reflexivity]|]. intros [] w7 Hl7.
  apply wp_harmless_bind; [apply requestAccounts_later|]. intros [] w8 Hl8. cbn. chain.
Qed.

Lemma validateEvidence_later policy w : wpg (validateGroupFailoverEvidenceSource m policy) w (λ _, later w).
Proof.
  unfold validateGroupFailoverEvidenceSource. destruct (negb _); [cbn; reflexivity|].
  destruct (negb _); [cbn; reflexivity|]. apply wp_harmless; [done|]. intros snapshot w1 Hl _. exact Hl.
Qed.
End harmless_steps.

(** ** Before the journal *)

Section stages.
Context `{UnicodeTables, UrlParser, Codecs} (m : Manager) (request : GroupTierTransitionRequest).
Abbreviation wpt := (wp (transition_protocol m request)).
Abbreviation permits := (transition_permits m request).

Lemma harmless_permitted w R (c : ManagerCall R) : harmless c = true → permits w R c.
Proof. by destruct c. Qed.

(** The lock is held, and the run is outside the barrier. *)
Record held (w : group_watch) : Prop := {
  hd_lock : gw_lock w = Some (tr_SourceID request, tr_KeyID request);
  hd_lease : gw_lease w = false;
}.
Record standing (w : group_watch) : Prop := {
  sd_held : held w;
  sd_begun : gw_begun w = None;
  sd_switched : gw_switched w = None;
}.

Lemma held_later w w' : later w w' → held w → held w'.
Proof. intros [] []. split; congruence. Qed.
Lemma standing_later w w' : later w w' → standing w → standing w'.
Proof. intros Hl [Hh ? ?]. split; [by eapply held_later|destruct Hl; congruence|destruct Hl; congruence]. Qed.

Lemma told_learned w w' g : learned w w' → told request w g → told request w' g.
Proof.
  intros Hl [? [err ?] ? ? ? [payload [? ?]] ?].
  split; [destruct Hl; congruence|exists err|..|exists payload; split; [done|]|]; by eapply seen_learned.
Qed.
Lemma live_learned w w' g : learned w w' → live request w g → live request w' g.
Proof. intros Hl [[r [? ?]] ? ?]. split; [exists r; split; [by eapply seen_learned|done]|done|done]. Qed.
Lemma automatic_stored_learned w w' g stored : learned w w' → automatic_stored request w g stored → automatic_stored request w' g stored.
Proof. intros Hl [? ? [r [? ?]]]. split; [done|done|exists r; split; [by eapply seen_learned|done]]. Qed.
Lemma automatic_state_learned w w' g : learned w w' → automatic_state request w g → automatic_state request w' g.
Proof.
  intros Hl [? ? ? (s & l & ? & ? & ?)]. split; [done|done|done|]. exists s, l. split; [by eapply seen_learned|].
  split; [by eapply seen_learned|done].
Qed.
Lemma decided_learned w w' g : learned w w' → decided request w g → decided request w' g.
Proof.
  intros Hl [? ? [gs [? ?]] ? ? Hc Ha]. split; [by eapply told_learned|done| |by eapply live_learned|done| |].
  - exists gs. split; [by eapply seen_learned|done].
  - intros cutoff Hcut. eapply seen_learned; [done|]. by apply Hc.
  - intros Hm. destruct (Ha Hm) as (? & (stored & ? & ?) & ?). split; [done|].
    split; [exists stored; split; [by eapply automatic_stored_learned|done]|by eapply automatic_state_learned].
Qed.

(** Ends a branch that returns without having done anything. *)
Ltac stop :=
  cbn; match goal with Hh : held ?w0 |- _ => refine (held_later w0 _ _ Hh); chain end.

Lemma deny_held reason w : held w → wpt (deny reason) w (λ _ w', held w').
Proof. done. Qed.

Lemma save_held {A} state (k : prog A) w :
  held w → (∀ w', held w' → gw_begun w' = gw_begun w → gw_switched w' = gw_switched w → gw_history w ⊆ gw_history w' →
    wpt k w' (λ _ w', held w')) →
  wpt (ignore (SaveGroupFailoverState state);; k) w (λ _ w', held w').
Proof.
  intros [Hlock Hlease] Hk. rewrite wp_bind. split; [exact (mk_is_Some _ _ Hlock)|]. intros r. cbn. apply Hk.
  - split; destruct r; cbn [noted]; by read_fields.
  - destruct r; cbn [noted]; by read_fields.
  - destruct r; cbn [noted]; by read_fields.
  - destruct r; cbn [noted]; read_fields; intros x Hx; by right.
Qed.

Lemma check_policy_wp k w :
  standing w → (∃ err, seen w (GetGroupTierTransitionByKey (tr_IdempotencyKey request)) (Err err)) →
  (∀ g w', later w w' → told request w' g → target_fits request g → (tr_Manual request = false → automatic_source g) →
    wpt (k g) w' (λ _ w', held w')) →
  wpt (check_policy m request k) w (λ _ w', held w').
Proof.
  intros [Hheld _ _] [err Hnew] Hk. unfold check_policy.
  apply (wp_harmless _ harmless_permitted); [done|]. intros [settings|e] w1 Hl1 Hs1; [|stop].
  apply (wp_harmless _ harmless_permitted); [done|]. intros [source|e] w2 Hl2 Hs2; [|stop].
  apply (wp_harmless _ harmless_permitted); [done|]. intros [policy|e] w3 Hl3 Hs3; [|stop].
  destruct (no_source_to_switch request source) eqn:Esource; [stop|].
  rewrite wp_bind. eapply wp_mono; [|exact (decrypt_told m _ harmless_permitted source w3)].
  cbn beta. intros [credentials|e] w4 [Hl4 Hcred]; [|stop]. destruct (Hcred credentials eq_refl) as (payload & Hdec & Hs4).
  destruct (negb (tr_Manual request) && negb (password_login credentials)) eqn:Epass.
  { apply (wp_harmless_bind permits); [by apply (ignore_later _ harmless_permitted)|].
    intros [] w5 Hl5. apply (wp_harmless _ harmless_permitted); [done|]. intros [] w6 Hl6 _. stop. }
  destruct ((negb (tr_Manual request) && negb (gp_Enabled policy)) || negb (confirmed policy)) eqn:Econf; [stop|].
  apply (wp_harmless_bind permits).
  { destruct (tr_Manual request); [cbn; reflexivity|exact (validateEvidence_later m _ harmless_permitted policy w4)]. }
  intros [[]|e] w5 Hl5; [|stop].
  destruct (negb (tierEnabled policy _) || _) eqn:Etier; [stop|].
  destruct (negb (bool_decide (trim_space (tr_ExpectedPool request) = "")) && _) eqn:Epool; [stop|].
  apply (wp_harmless _ harmless_permitted); [done|]. intros now w6 Hl6 Hs6.
  apply orb_false_iff in Econf as [Eenabled Econf%negb_false_iff]. apply andb_true_iff in Econf as [Ec Ev%Z.eqb_eq].
  apply orb_false_iff in Etier as [Etier%negb_false_iff Egroup%bool_decide_eq_false].
  apply Hk.
  - chain.
  - split; cbn; [|exists err|..|exists payload; split; [done|]|]; try (eapply seen_later; [|eassumption]; chain).
    rewrite (lt_lock w w6) by chain. apply Hheld.
  - split; cbn; [done|done|done|]. apply andb_false_iff in Epool. destruct Epool; bool_facts; [by left|by right].
  - intros Hm. rewrite Hm in Epass, Eenabled. unfold no_source_to_switch in Esource. rewrite Hm in Esource. cbn in *.
    apply orb_false_iff in Esource as [? ?]. split; cbn; [split; [by apply negb_false_iff|done]|by apply negb_false_iff..].
Qed.

Lemma check_stored_wp k w g :
  standing w → told request w g →
  (∀ w' stored, later w w' →
    (∃ groups, seen w' (ListUpstreamGroups (us_ID (gr_source g))) (Ok groups) ∧ containsGroup groups (gr_targetGroupID g) = true) →
    (tr_Manual request = false → automatic_stored request w' g stored) →
    wpt (k (g <| gr_key := stored |>)) w' (λ _ w', held w')) →
  wpt (check_stored request g k) w (λ _ w', held w').
Proof.
  intros [Hheld _ _] Htold Hk. unfold check_stored.
  destruct (negb (tr_Manual request) && stale_groups g) eqn:Estale; [stop|].
  destruct (negb (tr_Manual request) && unfunded (gr_source g)) eqn:Efund; [stop|].
  apply (wp_harmless _ harmless_permitted); [done|]. intros groups w1 Hl1 Hs1.
  destruct (negb (containsGroup _ _)) eqn:Egroup; [stop|]. apply negb_false_iff in Egroup.
  assert (∃ l, groups = Ok l ∧ containsGroup l (gr_targetGroupID g) = true) as (l & -> & Hl).
  { destruct groups as [l|e]; [by exists l|done]. }
  apply (wp_harmless _ harmless_permitted); [done|]. intros [rates|e] w2 Hl2 Hs2; [|stop].
  destruct (negb (tr_Manual request) && negb _) eqn:Ekey; [stop|].
  set (key := match findKeyRate rates (tr_KeyID request) with Some key => key | None => _ end).
  destruct (bool_decide (tierForGroup _ _ = "") && negb (tr_Manual request)) eqn:Etier.
  { apply save_held; [stop|]. intros w3 ? _ _ _. by apply deny_held. }
  apply Hk; [chain|exists l; split; [eapply seen_later; [|eassumption]; chain|done]|].
  intros Hm. rewrite Hm in Estale, Efund, Ekey, Etier. cbn in Estale, Efund, Ekey. rewrite andb_true_r in Etier.
  apply negb_false_iff in Ekey. apply bool_decide_eq_false in Etier. unfold key in *.
  destruct (findKeyRate rates (tr_KeyID request)) as [stored|] eqn:Efound; [|done].
  split; [done|done|]. exists rates. by split_and!.
Qed.

Lemma check_live_wp k w g :
  standing w →
  (∀ key tier w', later w w' → live request w' (g <| gr_key := key |> <| gr_currentTier := tier |>) →
    (tr_Manual request = false → kr_GroupID key = kr_GroupID (gr_key g)) →
    wpt (k (g <| gr_key := key |> <| gr_currentTier := tier |>)) w' (λ _ w', held w')) →
  wpt (check_live request g k) w (λ _ w', held w').
Proof.
  intros [Hheld _ _] Hk. unfold check_live.
  apply (wp_harmless _ harmless_permitted); [done|]. intros [result|e] w1 Hl1 Hs1; [|stop].
  destruct (findKeyRate _ _) as [key|] eqn:Ekey.
  2:{ apply save_held; [stop|]. intros w2 ? _ _ _. by apply deny_held. }
  destruct (negb (tr_Manual request) && negb (keyRateActive (kr_Status key))) eqn:Eactive.
  { apply save_held; [stop|]. intros w2 ? _ _ _. by apply deny_held. }
  destruct (negb (bool_decide (kr_GroupID key = _)) && negb (tr_Manual request)) eqn:Emoved.
  { apply save_held; [stop|]. intros w2 Hw2 _ _ _. apply (wp_harmless_bind permits); [by apply (record_harmless _ harmless_permitted)|].
    intros [] w3 Hl3. stop. }
  destruct (bool_decide (tierForGroup _ (kr_GroupID key) = "") && negb (tr_Manual request)) eqn:Etier; [stop|].
  apply Hk; [done| |].
  - split; read_fields; [|done|].
    + by exists result.
    + intros Hm. rewrite Hm in Eactive, Etier. cbn in Eactive. rewrite andb_true_r in Etier. bool_facts. done.
  - intros Hm. rewrite Hm in Emoved. rewrite andb_true_r in Emoved. by bool_facts.
Qed.

Lemma check_limits_wp k w g :
  standing w →
  let state := keyed_state (gr_source g) (gr_policy g) in
  gs_Frozen state = false ∨ tr_Manual request = true →
  (∀ w', later w w' → (tr_Manual request = false → automatic_state request w' g) → wpt k w' (λ _ w', held w')) →
  wpt (check_limits request g state k) w (λ _ w', held w').
Proof.
  intros [Hheld _ _] state Hfrozen Hk. unfold check_limits.
  destruct (tr_Manual request) eqn:Hm; [apply Hk; [chain|done]|]. destruct Hfrozen as [Hfrozen|?]; [|done].
  destruct (activeUntil _ _ _) eqn:Eactive; [stop|]. destruct (until_after _ _ && _) eqn:Ecool; [stop|].
  apply (wp_harmless _ harmless_permitted); [done|]. intros [short|e] w1 Hl1 Hs1; [|stop].
  apply (wp_harmless _ harmless_permitted); [done|]. intros [long|e] w2 Hl2 Hs2; [|stop].
  destruct (_ || _) eqn:Elimit.
  { apply save_held; [stop|]. intros w3 ? _ _ _. by apply deny_held. }
  apply orb_false_iff in Elimit as [? ?]. bool_facts. apply Hk; [chain|]. intros _.
  unfold state, keyed_state in *. revert Hfrozen Eactive Ecool. read_fields. intros Hfrozen Eactive Ecool.
  split; [done|done| |].
  - apply andb_false_iff in Ecool as [?|?%negb_false_iff]; [by left|by right].
  - exists short, long. split; [eapply seen_later; [|eassumption]; chain|done].
Qed.

Lemma check_state_wp k w g :
  standing w →
  (∀ w', later w w' →
    (trim_space (tr_ExpectedFromTier request) = "" ∨ trim_space (tr_ExpectedFromTier request) = gr_currentTier g) →
    (∀ cutoff, tr_EvidenceCutoffAt request = Some cutoff →
      seen w' (HasAutomaticGroupTransitionInPoolSince (gp_Pool (gr_policy g)) cutoff) (Ok false)) →
    (tr_Manual request = false → automatic_state request w' g) → wpt k w' (λ _ w', held w')) →
  wpt (check_state request g k) w (λ _ w', held w').
Proof.
  intros Hstanding Hk. pose proof (sd_held _ Hstanding) as Hheld. unfold check_state.
  destruct (negb (bool_decide (trim_space (tr_ExpectedFromTier request) = "")) && _) eqn:Eexpected; [stop|].
  rewrite wp_bind. eapply (wp_mono (transition_protocol m request) _ _ (λ r w', later w w' ∧
    (r = Ok false → ∀ cutoff, tr_EvidenceCutoffAt request = Some cutoff →
      seen w' (HasAutomaticGroupTransitionInPoolSince (gp_Pool (gr_policy g)) cutoff) (Ok false)))).
  - intros [[]|e] w1 [Hl1 Hs1]; [stop| |stop].
    destruct (gs_Frozen _ && negb (tr_Manual request)) eqn:Efrozen; [stop|].
    apply check_limits_wp; [by eapply standing_later|by apply andb_false_iff in Efrozen as [?|?%negb_false_iff]; [left|right]|].
    intros w2 Hl2 Hauto. apply Hk; [chain| | |done].
    + apply andb_false_iff in Eexpected. destruct Eexpected; bool_facts; [by left|by right].
    + intros cutoff Hcut. eapply seen_later; [exact Hl2|]. by apply Hs1.
  - destruct (tr_EvidenceCutoffAt request) as [cutoff|]; [|split; [reflexivity|done]].
    split; [done|]. intros r. destruct (noted_harmless w _ (HasAutomaticGroupTransitionInPoolSince (gp_Pool (gr_policy g)) cutoff) r eq_refl).
    split; [done|]. intros -> c [= <-]. done.
Qed.
End stages.
