(* ===== verification/BalanceSandbox.v ===== *)
(** * A deployment of the balance manager to run it in

    An executable environment for the programs of the balance manager: the rows of the
    store, the group each key is in upstream, Sub2API's accounts and a clock; used by the
    closed examples. *)

From S2P Require Import Prelude GoStd Float Model ModelHealth ModelFailover Requests MutationError FailoverPolicy FailoverController FailoverSandbox BalanceCalls GroupTransition GroupExecution GroupPolicies.

Record site := mkSite {
  ste_sources : list UpstreamSource;
  ste_rates : list KeyRate;              (* as last stored, for every source *)
  ste_groups : gmap string string;       (* the group of each key upstream *)
  ste_policies : list GroupFailoverPolicy;
  ste_rows : list GroupTierTransition;
  ste_settings : Settings;
  ste_snapshot : Snapshot;
  ste_accounts : list Account;
  ste_controls : gmap Z AccountControl;
  ste_locks : list CostLock;
  ste_freeze : bool;
  ste_refusal : option failure;          (* how the next write ends, after it was carried out *)
  ste_now : time;
  ste_writes : list (string * string);   (* the groups written *)
  ste_events : list string;
}.

Definition find_or {A} (p : A → bool) (l : list A) (what : string) : result failure A :=
  match List.find p l with Some a => Ok a | None => Err (NewFailure (what +:+ " not found")) end.

Definition key_of (groups : gmap string string) (rate : KeyRate) : KeyRate :=
  rate <| kr_GroupID := default (kr_GroupID rate) (groups !! kr_ExternalID rate) |>.

(** What a login reads upstream. *)
Definition reading (s : site) : UpstreamResult :=
  no_upstream_result <| ur_Balance := of_int 20 |> <| ur_KeyRates := key_of (ste_groups s) <$> ste_rates s |>
    <| ur_FetchedAt := ste_now s |>.

Definition close_row (id : Z) (status : string) (s : site) : site :=
  s <| ste_rows := (λ row, if (gt_ID row =? id)%Z then row <| gt_Status := status |> else row) <$> ste_rows s |>.

Definition keep_state (state : GroupFailoverState) (s : site) : site :=
  s <| ste_policies := (λ p, if (gp_SourceID p =? gs_SourceID state)%Z && bool_decide (gp_KeyID p = gs_KeyID state)
                             then p <| gp_State := state |> else p) <$> ste_policies s |>.

Definition insert_row (row : GroupTierTransition) (s : site) : GroupTierTransition * site :=
  let row := row <| gt_ID := Z.of_nat (S (length (ste_rows s))) |> <| gt_Status := GroupTransitionPending |> in
  (row, s <| ste_rows := ste_rows s ++ [row] |>).

Definition site_serve (R : Type) (s : site) (c : ManagerCall R) : R * site :=
  match c in ManagerCall R return R * site with
  | ListUpstreamSources => (Ok (ste_sources s), s)
  | GetUpstreamSource id => (find_or (λ source, us_ID source =? id)%Z (ste_sources s) "source", s)
  | CreateUpstreamSource source => (Ok source, s <| ste_sources := ste_sources s ++ [source] |>)
  | UpdateUpstreamSource _ | UpdateUpstreamSourceWithPolicyInvalidation _ _ | ResetUpstreamControl _
  | DeleteUpstreamSource _ | MarkUpstreamCredentialMigrationRequired _ | SaveUpstreamFailure _ _ _
  | SyncBalanceLocks _ _ _ | DeleteGroupFailoverPolicy _ _ | MarkGroupTierTransitionUncertain _ _ => (Ok tt, s)
  | SaveUpstreamSuccess source rates _ =>
      (Ok tt, s <| ste_rates := rates |>
                <| ste_sources := (λ o, if (us_ID o =? us_ID source)%Z then source else o) <$> ste_sources s |>)
  | SyncBalanceLocksChanged _ _ _ => (Ok [], s)
  | ListUpstreamKeyRates _ => (Ok (ste_rates s), s)
  | ListUpstreamGroups id => (Ok (flat_map us_Groups (ste_sources s)), s)
  | ListCostLocks => (Ok (ste_locks s), s)
  | SyncCostLocksChanged desired => (Ok (cl_AccountID <$> desired), s <| ste_locks := desired |>)
  | GetControl accountID => (match ste_controls s !! accountID with
                             | Some control => Ok control
                             | None => Err (NewFailure "control not found")
                             end, s)
  | GetSettings => (Ok (ste_settings s), s)
  | ListGroupFailoverPolicies _ => (Ok (ste_policies s), s)
  | GetGroupFailoverPolicy sourceID keyID =>
      (find_or (λ p, (gp_SourceID p =? sourceID)%Z && bool_decide (gp_KeyID p = keyID)) (ste_policies s) "policy", s)
  | SaveGroupFailoverPolicy policy => (Ok policy, s)
  | ConfirmGroupFailoverPolicy sourceID keyID _ _ =>
      (find_or (λ p, (gp_SourceID p =? sourceID)%Z && bool_decide (gp_KeyID p = keyID)) (ste_policies s) "policy", s)
  | SaveGroupFailoverState state => (Ok tt, keep_state state s)
  | GetGroupTierTransitionByKey key => (find_or (λ row, bool_decide (gt_IdempotencyKey row = key)) (ste_rows s) "transition", s)
  | ListGroupTierTransitions _ _ _ => (Ok (ste_rows s), s)
  | ListPendingGroupTierTransitions =>
      (Ok (List.filter (λ row, bool_decide (gt_Status row = GroupTransitionPending)) (ste_rows s)), s)
  | AssertNoPendingGroupTransition _ _ =>
      (if existsb (λ row, bool_decide (gt_Status row = GroupTransitionPending)) (ste_rows s)
       then Err (NewFailure "pending") else Ok tt, s)
  | BeginGroupTierTransition row => let '(row, s) := insert_row row s in (row, false, None, s)
  | SimulateGroupTierTransition id _ => (Ok tt, close_row id GroupTransitionSimulated s)
  | FailGroupTierTransition id _ _ => (Ok tt, close_row id GroupTransitionFailed s)
  | CompleteGroupTierTransition id state _ => (Ok tt, keep_state state (close_row id GroupTransitionApplied s))
  | GetFailoverEvidenceWatermarks => (Ok (mkFailoverEvidenceWatermarks 40 70), s)
  | HasAutomaticGroupTransitionInPoolSince _ _ => (Ok false, s)
  | CountCompletedGroupTierTransitions _ _ _ => (Ok 0%Z, s)
  | AddEvent event => (Ok tt, s <| ste_events := ste_events s ++ [ev_Type event] |>)
  | Fetch _ _ _ => (Ok (reading s), s)
  | SwitchGroup _ _ _ keyID groupID =>
      let s := s <| ste_groups := <[keyID := groupID]> (ste_groups s) |> <| ste_writes := ste_writes s ++ [(keyID, groupID)] |> in
      (match ste_refusal s with Some err => Err err | None => Ok (reading s) end, s)
  | Invalidate _ _ _ => (tt, s)
  | BoxEncrypt plaintext => (Ok ("nonce", plaintext), s)
  | BoxDecrypt _ ciphertext => (Ok ciphertext, s)
  | LockRun | UnlockRun | LockRoute | UnlockRoute | EndSourceRun _ | ForgetManualRun _ | ReleaseGroup _ _ | LeaveMutation
  | Trigger | RequestAccountsFrom _ _ | RequestAccounts _ => (tt, s)
  | StartSourceRun _ | ClaimManualRun _ _ => (true, s)
  | AcquireGroup _ _ | EnterMutation => (Ok tt, s)
  | GetFreezeState => (Ok (mkFreezeState false (ste_freeze s) "" "" "" None zero_time), s)
  | ListAccounts => (Ok (ste_accounts s), s)
  | GetSnapshot => (ste_snapshot s, s)
  | RangePools keys => (keys, s)
  | RangeAccounts keys => (keys, s)
  | Now => (ste_now s, s <| ste_now := (ste_now s + 1)%Z |>)
  end.
Definition running : environment ManagerCall site := mkEnvironment site site_serve.

(** Addresses of the form scheme://host, and one account for every payload. *)
#[export] Instance plain_urls : UrlParser := λ s,
  if String.prefix "https://" s then Some ("https", String.substring 8 (String.length s - 8) s, "") else None.
#[export] Instance plain_codecs : Codecs :=
  {| encode_credentials := cr_Password; decode_credentials := λ payload, Some (mkUpstreamCredentials "password" "" "" "admin" payload);
     float_g := λ _, "0" |}.

Definition the_manager : Manager := mkManager (10 * minute)%Z true true true SourcedAccounts false.

(** The monitor of the account checks every minute. *)
Definition watched_binding : ResolvedBinding :=
  the_binding <| rb_Monitor := Some (mkMonitor 5 "watch" "openai" "https://relay.example" "m" true 60 None "" 0 None [] [] false) |>.

Definition the_site : site := {|
  ste_sources := [the_source <| us_CredentialCiphertext := "secret" |>]; ste_rates := us_KeyRates the_source;
  ste_groups := {["k1" := "g1"]}; ste_policies := [the_policy]; ste_rows := []; ste_settings := the_settings;
  ste_snapshot := no_snapshot <| sn_Bindings := [watched_binding] |>; ste_accounts := []; ste_controls := ∅;
  ste_locks := []; ste_freeze := false; ste_refusal := None; ste_now := noon; ste_writes := []; ste_events := [] |}.

(** A failover of the key to its emergency group. *)
Definition the_request : GroupTierTransitionRequest :=
  no_transition_request <| tr_SourceID := 3%Z |> <| tr_KeyID := " k1" |> <| tr_TargetTier := "Emergency" |>
    <| tr_IdempotencyKey := "move-1" |> <| tr_Actor := "system:failover" |> <| tr_Reason := "outage" |>.

(** * Surprises of group failover

    Runs that end where the design does not want them. A manual transition to the tier the
    key is in clears the boundaries of the evidence of the move before, and puts its status
    back: the validation can then neither succeed nor time out, and the failover controller
    leaves the key alone. *)

(** The key was moved to its main group two seconds ago, and evidence is awaited. *)
Definition awaiting_state : GroupFailoverState :=
  the_state <| gs_ValidationStatus := GroupValidationAwaitingEvidence |> <| gs_SwitchVerifiedAt := Some (noon - 2 * second)%Z |>
    <| gs_ValidationNotBefore := Some (noon + 3 * second)%Z |> <| gs_EvidenceDeadline := Some (noon + 598 * second)%Z |>.
Definition awaiting_site : site :=
  the_site <| ste_policies := [the_policy <| gp_State := awaiting_state |>] |>.
Definition stay_request : GroupTierTransitionRequest :=
  the_request <| tr_TargetTier := "main" |> <| tr_Manual := true |>.
Definition after_noop : list GroupFailoverPolicy :=
  ste_policies (run running (TransitionGroupTier (H:=plain_tables) the_manager stay_request) awaiting_site).2.

Example noop_strands_validation :
  (λ p, (gs_ValidationStatus (gp_State p), gs_SwitchVerifiedAt (gp_State p), gs_EvidenceDeadline (gp_State p))) <$> after_noop
    = [(GroupValidationAwaitingEvidence, None, None)]
  ∧ let M := plain_tables in
    let d := the_deployment <| dp_policies := after_noop |> in
    let after := (run deployed (ProcessFailoverEvidence (NewController 0 true false)) d).2 in
    let later := (run deployed (RunOnce (NewController 0 true false) {["默认调度池" := noon - 600 * second]}%Z) d).2 in
    dp_policies after = dp_policies d ∧ dp_asked later = [].
Proof. split; [vm_compute; reflexivity|]. cbv zeta. split; vm_compute; reflexivity. Qed.

(** A freeze does not last: the next comparison of the groups lifts it, without anybody
    having saved or confirmed the policy, as soon as the key is in a known group. *)
Definition frozen_state : GroupFailoverState :=
  the_state <| gs_Frozen := true |> <| gs_FreezeReason := "自动切换次数达到安全上限" |> <| gs_ObservedGroupID := "g1" |>.
Definition after_refresh : list GroupFailoverPolicy :=
  ste_policies (run running (ReconcileGroupFailoverStates (H:=plain_tables))
    (the_site <| ste_policies := [the_policy <| gp_State := frozen_state |>] |>)).2.

Example freeze_is_lifted_by_refresh : (λ p, gs_Frozen (gp_State p)) <$> after_refresh = [false].
Proof. vm_compute. reflexivity. Qed.
