(* ===== verification/GroupProtocol.v ===== *)
(** * Transitions keep to the protocol

    The journaled part of a transition and the recovery followed through the protocols of
    [GroupSafety], and what they say of whole runs. *)

From S2P Require Import Prelude GoStd Float JsonText Model ModelHealth ModelFailover Requests MutationError BalanceCalls CostRouting BalanceSources GroupTransition GroupExecution GroupSafety GroupSteps FailoverSandbox BalanceSandbox.

Section journaled.
Context `{UnicodeTables, UrlParser, Codecs} (m : Manager) (request : GroupTierTransitionRequest) (g : grounds).
Abbreviation wpt := (wp (transition_protocol m request)).
Abbreviation permits := (transition_permits m request).
Abbreviation held := (held request).

(** The row is open, and nothing was written yet. *)
Record started (row : GroupTierTransition) (w : group_watch) : Prop := {
  sr_held : held w;
  sr_decided : decided request w g;
  sr_begun : gw_begun w = Some (new_transition request g, row);
  sr_switched : gw_switched w = None;
}.

Lemma started_later row w w' : later w w' → started row w → started row w'.
Proof.
  intros Hl [Hh Hd Hb Hs]. split; [by eapply held_later|eapply decided_learned; [by eapply later_learned|done]|..];
    destruct Hl; congruence.
Qed.

(** The row is open, and the write replied; or it was not reached, and there is an error. *)
Record written (row : GroupTierTransition) (reply : result failure UpstreamResult) (w : group_watch) : Prop := {
  wr_held : held w;
  wr_decided : decided request w g;
  wr_begun : gw_begun w = Some (new_transition request g, row);
  wr_switched : gw_switched w = Some reply ∨ is_ok reply = false ∧ gw_switched w = None;
}.

Lemma written_later row reply w w' : later w w' → written row reply w → written row reply w'.
Proof.
  intros Hl [Hh Hd Hb Hs]. split; [by eapply held_later|eapply decided_learned; [by eapply later_learned|done]|..];
    destruct Hl as [_ _ Eb Es _]; [congruence|by rewrite Es].
Qed.

(** A request that closes the row, or saves the state: everything but the history and
    the state saved stays. *)
Definition closes {R} (c : ManagerCall R) : bool :=
  match c with
  | SaveGroupFailoverState _ | FailGroupTierTransition _ _ _ | MarkGroupTierTransitionUncertain _ _
  | CompleteGroupTierTransition _ _ _ | SimulateGroupTierTransition _ _ => true
  | _ => false
  end.

Lemma wp_close {A R} (c : ManagerCall R) (k : R → prog A) w Q :
  closes c = true → permits w R c → (∀ r w', later w w' → wpt (k r) w' Q) → wpt (call c ≫= k) w Q.
Proof.
  intros Hc Hp Hk. apply wp_request; [done|]. intros r. apply Hk.
  change (later w (noted w R c r)).
  destruct c; try done; try destruct r; cbn [noted]; split; read_fields; try done; intros x Hx; by right.
Qed.

Lemma wp_ignore {A R} (c : ManagerCall R) (k : prog A) w Q :
  closes c = true → permits w R c → (∀ w', later w w' → wpt k w' Q) → wpt (ignore c;; k) w Q.
Proof.
  intros Hc Hp Hk. unfold ignore. rewrite wp_bind. apply wp_close; [done..|]. intros r w' Hl. cbn. by apply Hk.
Qed.

Ltac stop := cbn; match goal with Hh : held ?w0 |- _ => refine (held_later _ w0 _ _ Hh); chain end.

Lemma held_saves state w : held w → permits w _ (SaveGroupFailoverState state).
Proof. intros [Hlock _]. exact (mk_is_Some _ _ Hlock). Qed.

(** ** The write *)

Context (Hdry : tr_DryRun request = false).

(** All that the write needs, the barrier apart. *)
Record writable (row : GroupTierTransition) (watermarks : FailoverEvidenceWatermarks) (w : group_watch) : Prop := {
  wb_lock : gw_lock w = Some (tr_SourceID request, tr_KeyID request);
  wb_decided : decided request w g;
  wb_begun : gw_begun w = Some (new_transition request g, row);
  wb_switched : gw_switched w = None;
  wb_watermarks : seen w GetFailoverEvidenceWatermarks (Ok watermarks);
  wb_saved : gw_saved w = Some (transitioning_state request g (gt_ID row) watermarks);
}.

Lemma writable_kept row watermarks w w' :
  learned w w' → gw_begun w' = gw_begun w → gw_switched w' = gw_switched w → gw_saved w' = gw_saved w →
  writable row watermarks w → writable row watermarks w'.
Proof.
  intros Hl Eb Es Ev []. split; try congruence; [destruct Hl; congruence|by eapply decided_learned|by eapply seen_learned].
Qed.

Section writing.
Context (row : GroupTierTransition) (watermarks : FailoverEvidenceWatermarks).
Context (Hmove : ¬ (gr_currentTier g = tr_TargetTier request ∧ kr_GroupID (gr_key g) = gr_targetGroupID g)).

Lemma switch_wp w :
  writable row watermarks w →
  (tr_Manual request = false →
     bm_boundary m = true ∧ (gw_lease w = true ∨ tr_AutomationLeaseHeld request = true) ∧ gw_unfrozen w = true) →
  wpt (call (SwitchGroup (us_Provider (gr_source g)) (us_BaseURL (gr_source g)) (gr_credentials g)
              (gp_KeyID (gr_policy g)) (gr_targetGroupID g))) w
    (λ reply w', gw_switched w' = Some reply ∧ gw_lease w' = gw_lease w ∧ gw_lock w' = gw_lock w
                 ∧ gw_begun w' = gw_begun w ∧ decided request w' g).
Proof.
  intros [] Hauto. split.
  - exists g, row, watermarks. by split_and!.
  - intros reply. cbn [wp]. change (observe _ _ _ _ _) with (noted w _ (SwitchGroup (us_Provider (gr_source g))
      (us_BaseURL (gr_source g)) (gr_credentials g) (gp_KeyID (gr_policy g)) (gr_targetGroupID g)) reply).
    cbn [noted]. read_fields. do 4 (split; [done|]). eapply decided_learned; [|done].
    split; read_fields; [done|]. intros x Hx. by right.
Qed.

(** What there is when the write was reached, or was not, inside the barrier or not. *)
Definition attempted (lease : bool) (reply : result failure UpstreamResult) (w : group_watch) : Prop :=
  gw_lock w = Some (tr_SourceID request, tr_KeyID request) ∧ gw_lease w = lease ∧ decided request w g
  ∧ gw_begun w = Some (new_transition request g, row)
  ∧ (gw_switched w = Some reply ∨ is_ok reply = false ∧ gw_switched w = None).

Lemma write_unless_frozen_wp w :
  writable row watermarks w → bm_boundary m = true → gw_lease w = true ∨ tr_AutomationLeaseHeld request = true →
  wpt (write_unless_frozen (gr_source g) (gr_credentials g) (gp_KeyID (gr_policy g)) (gr_targetGroupID g)) w
    (attempted (gw_lease w)).
Proof.
  intros Hw Hboundary Hlease. unfold write_unless_frozen. apply wp_request; [done|]. intros r.
  change (observe _ _ _ _ _) with (noted w _ GetFreezeState r). set (w1 := noted _ _ _ _).
  assert (writable row watermarks w1 ∧ gw_lease w1 = gw_lease w
    ∧ gw_unfrozen w1 = match r with Ok freeze => negb (fs_AllAutomation freeze) | Err _ => false end) as (Hw1 & Elease & Efree).
  { unfold w1. cbn [noted]. read_fields. split; [|done]. apply (writable_kept row watermarks w); [|by read_fields..|done].
    split; read_fields; [done|]. intros x Hx. by right. }
  assert (∀ err, attempted (gw_lease w) (Err err) w1) as Hnone.
  { intros err. rewrite <- Elease. destruct Hw1. split_and!; try done. by right. }
  destruct r as [freeze|e]; [|apply Hnone]. destruct (fs_AllAutomation freeze); [apply Hnone|].
  eapply wp_mono; [|apply switch_wp; [done|]].
  - intros reply w2 (Hs & El & Elock & Eb & Hd). destruct Hw1. split_and!; try congruence. by left.
  - intros _. rewrite Elease. by split_and!.
Qed.

Lemma executeGroupTransport_wp w :
  writable row watermarks w → gw_lease w = false →
  wpt (executeGroupTransport m (tr_Manual request) (tr_AutomationLeaseHeld request) (gr_source g) (gr_credentials g)
         (gp_KeyID (gr_policy g)) (gr_targetGroupID g)) w (written row).
Proof.
  intros Hw Hlease. pose proof Hw as []. unfold executeGroupTransport.
  assert (∀ reply w', attempted false reply w' → written row reply w') as Hdone.
  { intros reply w' (? & ? & ? & ? & ?). by split. }
  assert (∀ err, written row (Err err) w) as Hnone by (intros err; split; [done|done|done|by right]).
  destruct (tr_Manual request) eqn:Hm.
  { eapply wp_mono; [|apply switch_wp; [done|congruence]]. intros reply w' (Hs & El & Elock & Eb & Hd).
    apply Hdone. split_and!; try congruence. by left. }
  destruct (bm_boundary m) eqn:Hboundary; [|apply Hnone]. cbn [negb].
  destruct (tr_AutomationLeaseHeld request) eqn:Hheld.
  { eapply wp_mono; [|apply write_unless_frozen_wp; [done|done|by right]]. intros reply w'. rewrite Hlease. apply Hdone. }
  apply wp_request; [done|]. intros r. change (observe _ _ _ _ _) with (noted w _ EnterMutation r).
  set (w1 := noted _ _ _ _). assert (writable row watermarks w1) as Hw1.
  { apply (writable_kept row watermarks w); [|by destruct r; unfold w1; cbn [noted]; read_fields..|done].
    destruct r; unfold w1; cbn [noted]; split; read_fields; try done; intros x Hx; by right. }
  assert (gw_lease w1 = is_ok r) as El1 by (destruct r; unfold w1; cbn [noted is_ok]; by read_fields).
  destruct r as [[]|e].
  - rewrite wp_bind. eapply wp_mono; [|apply write_unless_frozen_wp; [done|done|by left]].
    intros reply w2 (Hlock & Hl & Hd & Hb & Hs). rewrite El1 in Hl. apply wp_request; [exact Hl|]. intros [].
    change (observe _ _ _ _ _) with (noted w2 _ LeaveMutation ()). apply Hdone. unfold attempted. cbn [noted]. read_fields.
    do 2 (split; [done|]). split; [|done]. eapply decided_learned; [|done]. split; read_fields; [done|]. intros x Hx. by right.
  - destruct Hw1. split; [by split|done|done|by right].
Qed.
End writing.

(** ** Endings *)

Lemma harmless_tail {A} (p : prog A) row reply w :
  written row reply w → wpt p w (λ _, later w) → wpt p w (λ _ w', held w').
Proof. intros Hw Hp. eapply wp_mono; [|exact Hp]. intros a w' Hl. eapply held_later; [exact Hl|]. apply Hw. Qed.

Lemma end_failed_wp row state err w :
  written row (Err err) w → wpt (end_failed request g row state err) w (λ _ w', held w').
Proof.
  intros Hw. unfold end_failed.
  assert (∀ w1, later w w1 → written row (Err err) w1) as Hlater by (intros w1 Hl; by eapply written_later).
  destruct (IsUncertain err) eqn:Hu.
  - apply wp_ignore; [done| |].
    { exists g, row. split; [apply Hw|]. split; [split; [apply Hw|done]|]. split; [done|].
      destruct (wr_switched _ _ _ Hw) as [->|[_ ->]]; done. }
    intros w1 Hl1. apply wp_ignore; [done|by apply held_saves, (Hlater w1 Hl1)|]. intros w2 Hl2.
    apply (wp_harmless_bind permits); [by apply (record_harmless _ (harmless_permitted m request))|].
    intros [] w3 Hl3. cbn. apply (held_later request w2); [done|]. apply Hlater. by etrans.
  - apply wp_ignore; [done| |].
    { exists g, row. split; [apply Hw|]. split; [split; [apply Hw|done]|]. split; [done|].
      destruct (wr_switched _ _ _ Hw) as [->|[_ ->]]; done. }
    intros w1 Hl1. apply wp_ignore; [done|by apply held_saves, (Hlater w1 Hl1)|]. intros w2 Hl2.
    apply (wp_harmless_bind permits); [by apply (record_harmless _ (harmless_permitted m request))|].
    intros [] w3 Hl3. cbn. apply (held_later request w2); [done|]. apply Hlater. by etrans.
Qed.

Lemma end_applied_wp row state result w :
  written row (Ok result) w → in_group (ur_KeyRates result) (gp_KeyID (gr_policy g)) (gr_targetGroupID g) = true →
  wpt (end_applied m request g row state result) w (λ _ w', held w').
Proof.
  intros Hw Hin. unfold end_applied. apply (wp_harmless _ (harmless_permitted m request)); [done|].
  intros completedAt w1 Hl1 _. apply (written_later _ _ _ _ Hl1) in Hw. apply wp_close; [done| |].
  { exists g, row. split; [apply Hw|]. split; [split; [apply Hw|done]|]. split; [done|].
    destruct (wr_switched _ _ _ Hw) as [->|[? _]]; [|done]. unfold applied_state, awaiting_evidence, moved_tiers.
    destruct (tr_Manual request); read_fields; done. }
  intros [[]|e] w2 Hl2; [|eapply held_later; [exact Hl2|apply Hw]].
  apply (written_later _ _ _ _ Hl2) in Hw. eapply harmless_tail; [exact Hw|].
  apply (wp_harmless_bind permits); [exact (applySuccess_later m _ (harmless_permitted m request) _ _ _)|]. intros failed w3 Hl3.
  apply (wp_harmless_bind permits); [by apply (record_harmless _ (harmless_permitted m request))|]. intros [] w4 Hl4.
  apply (wp_harmless _ (harmless_permitted m request)); [done|]. intros [] w5 Hl5 _. cbn. chain.
Qed.

Lemma end_mismatch_wp row state result w :
  written row (Ok result) w → in_group (ur_KeyRates result) (gp_KeyID (gr_policy g)) (gr_targetGroupID g) = false →
  wpt (end_mismatch row state) w (λ _ w', held w').
Proof.
  intros Hw Hin. unfold end_mismatch. apply (wp_harmless _ (harmless_permitted m request)); [done|].
  intros now w1 Hl1 _. apply (written_later _ _ _ _ Hl1) in Hw. apply wp_ignore; [done| |].
  { exists g, row. split; [apply Hw|]. split; [split; [apply Hw|done]|]. split; [done|].
    by destruct (wr_switched _ _ _ Hw) as [->|[? _]]. }
  intros w2 Hl2. apply (written_later _ _ _ _ Hl2) in Hw.
  apply wp_ignore; [done|by apply held_saves, Hw|]. intros w3 Hl3. cbn.
  eapply held_later; [exact Hl3|apply Hw].
Qed.

Lemma switch_ends row state watermarks w :
  writable row watermarks w → gw_lease w = false →
  ¬ (gr_currentTier g = tr_TargetTier request ∧ kr_GroupID (gr_key g) = gr_targetGroupID g) →
  wpt (switch m request g row state) w (λ _ w', held w').
Proof.
  intros Hw Hlease Hmove. unfold switch. rewrite wp_bind.
  eapply wp_mono; [|by eapply executeGroupTransport_wp]. intros [result|err] w1 Hw1.
  - destruct (in_group _ _ _) eqn:Hin; [by apply end_applied_wp|by eapply end_mismatch_wp].
  - by apply end_failed_wp.
Qed.
End journaled.

Section transition.
Context `{UnicodeTables, UrlParser, Codecs} (m : Manager) (request : GroupTierTransitionRequest).
Abbreviation wpt := (wp (transition_protocol m request)).

Lemma started_fails g row message now w :
  started request g row w → tr_DryRun request = false → transition_permits m request w _ (FailGroupTierTransition (gt_ID row) message now).
Proof.
  intros [? ? ? Hs] Hdry. exists g, row. split; [done|]. split; [by split|]. split; [done|]. by rewrite Hs.
Qed.

Lemma begun_started g w row :
  standing request w → decided request w g →
  let w' := noted w _ (BeginGroupTierTransition (new_transition request g)) (row, false, None) in started request g row w' ∧ learned w w'.
Proof.
  intros [Hh ? ?] Hd w'. assert (learned w w') as Hl.
  { unfold w'. cbn [noted]. split; read_fields; [done|]. intros x Hx. by right. }
  split; [|done]. split; [|by eapply decided_learned|unfold w'; cbn [noted]; by read_fields..].
  destruct Hh. unfold w'. cbn [noted]. split; by read_fields.
Qed.

Lemma carry_transition_wp g w :
  standing request w → decided request w g → wpt (carry_out m request g) w (λ _ w', held request w').
Proof.
  intros Hst Hd. unfold carry_out. apply (wp_harmless _ (harmless_permitted m request)); [done|]. intros [[]|e] w1 Hl1 Hs1.
  2:{ eapply held_later; [exact Hl1|apply Hst]. }
  apply (standing_later _ _ _ Hl1) in Hst. apply (decided_learned _ _ _ _ (later_learned _ _ Hl1)) in Hd.
  apply wp_request.
  { destruct Hst. exists g. by split_and!. }
  intros [[row existed] failed]. change (observe _ _ _ _ _) with (noted w1 _ (BeginGroupTierTransition (new_transition request g)) (row, existed, failed)).
  destruct (bool_decide (is_Some failed) || existed) eqn:Ebegun.
  { cbn. destruct Hst as [[Hlock Hlease] _ _]. destruct existed, failed; try done; cbn [noted]; split; by read_fields. }
  apply orb_false_iff in Ebegun as [Efailed%bool_decide_eq_false ->].
  destruct failed as [e|]; [by destruct Efailed|]. destruct (begun_started g w1 row Hst Hd) as [Hstarted _].
  set (w2 := noted _ _ _ _) in *. clearbody w2. clear Hst Hd Hs1 Hl1 w w1.
  destruct (tr_DryRun request) eqn:Hdry.
  { unfold simulate. apply wp_close; [done| |].
    - destruct Hstarted. exists g, row. by split_and!.
    - intros [[]|e] w3 Hl3; (eapply held_later; [exact Hl3|apply Hstarted]). }
  apply (wp_harmless _ (harmless_permitted m request)); [done|]. intros [watermarks|e] w3 Hl3 Hs3;
    apply (started_later _ _ _ _ _ Hl3) in Hstarted.
  2:{ apply wp_ignore; [done|by eapply started_fails|]. intros w4 Hl4. cbn. eapply held_later; [exact Hl4|apply Hstarted]. }
  apply wp_request; [by eapply held_saves, Hstarted|]. intros r.
  change (observe _ _ _ _ _) with (noted w3 _ (SaveGroupFailoverState (transitioning_state request g (gt_ID row) watermarks)) r).
  set (w4 := noted _ _ _ _). assert (later w3 w4) as Hl4.
  { unfold w4. destruct r; cbn [noted]; split; read_fields; try done; intros x Hx; by right. }
  pose proof (started_later _ _ _ _ _ Hl4 Hstarted) as Hst4. destruct r as [[]|e].
  2:{ apply wp_ignore; [done|by eapply started_fails|]. intros w5 Hl5. cbn. eapply held_later; [exact Hl5|apply Hst4]. }
  assert (writable request g row watermarks w4 ∧ gw_lease w4 = false) as [Hwritable Hlease].
  { destruct Hst4 as [[? ?] ? ? ?]. split; [|done]. split; try done; [by eapply seen_later|]. unfold w4. cbn [noted]. by read_fields. }
  destruct (bool_decide (gr_currentTier g = _) && bool_decide (kr_GroupID (gr_key g) = _)) eqn:Esame.
  - apply andb_true_iff in Esame as [_ Egroup%bool_decide_eq_true]. unfold end_noop. apply wp_close; [done| |].
    + destruct Hst4 as [? ? ? Hs]. exists g, row. split; [done|]. split; [by split|]. split; [done|]. rewrite Hs. read_fields. done.
    + intros [[]|e] w5 Hl5; (eapply held_later; [exact Hl5|apply Hst4]).
  - eapply switch_ends; [done|done|done|]. intros [E1 E2]. by rewrite (bool_decide_true _ E1), (bool_decide_true _ E2) in Esame.
Qed.
End transition.

(** ** Whole runs *)

Section runs.
Context `{UnicodeTables, UrlParser, Codecs} (m : Manager).

Lemma replayed_wp request w :
  wp (transition_protocol m request) (replayed request) w (λ answer w', later w w' ∧
    (answer = None → ∃ err, seen w' (GetGroupTierTransitionByKey (tr_IdempotencyKey request)) (Err err))).
Proof.
  unfold replayed. apply (wp_harmless _ (harmless_permitted m request)); [done|]. intros [existing|e] w1 Hl1 Hs1; cbn.
  - split; [done|]. by case_match.
  - eauto.
Qed.

Lemma transition_locked_wp request w :
  standing request w → wp (transition_protocol m request) (transition_locked m request) w (λ _ w', held request w').
Proof.
  intros Hst. unfold transition_locked. rewrite wp_bind. eapply wp_mono; [|apply replayed_wp].
  intros [answer|] w1 [Hl1 Hnew]; [eapply held_later; [exact Hl1|apply Hst]|]. specialize (Hnew eq_refl).
  apply (standing_later _ _ _ Hl1) in Hst. apply check_policy_wp; [done..|]. intros g w2 Hl2 Htold Hfits Hsource.
  apply (standing_later _ _ _ Hl2) in Hst. apply check_stored_wp; [done..|]. intros w3 stored Hl3 Hgroups Hstored.
  apply (standing_later _ _ _ Hl3) in Hst. apply check_live_wp; [done|]. intros key tier w4 Hl4 Hlive Hsame.
  apply (standing_later _ _ _ Hl4) in Hst. apply check_state_wp; [done|]. intros w5 Hl5 Hexpected Hcutoff Hstate.
  apply (standing_later _ _ _ Hl5) in Hst. apply carry_transition_wp; [done|].
  revert Hlive Hsame Hexpected Hcutoff Hstate. destruct g. cbn. intros.
  apply (told_learned _ _ w5) in Htold; [|apply later_learned; chain].
  apply (live_learned _ _ w5) in Hlive; [|apply later_learned; chain].
  destruct Htold, Hfits. split; [by split|by split| |exact Hlive|done|done|].
  - destruct Hgroups as (groups & ? & ?). exists groups. split; [eapply seen_later; [|done]; chain|done].
  - intros Hm. split; [by destruct (Hsource Hm)|]. split; [|by apply Hstate]. exists stored. split; [|symmetry; by apply Hsame].
    destruct (Hstored Hm) as [? ? (rates & ? & ?)]. split; [done|done|]. exists rates.
    split; [eapply seen_later; [|done]; chain|done].
Qed.

Lemma TransitionGroupTier_wp request :
  let normalized := normalize_request request in
  wp (transition_protocol m normalized) (TransitionGroupTier m request) nothing_done (λ _ _, True).
Proof.
  intros normalized. unfold TransitionGroupTier. fold normalized. cbv zeta.
  destruct (negb (validGroupTier _)); [done|]. destruct (bool_decide _); [done|].
  rewrite wp_bind. eapply wp_mono; [|apply replayed_wp]. intros [answer|] w1 [Hl1 _]; [done|].
  apply wp_request; [exact (lt_lock _ _ Hl1)|]. intros [[]|e]; [|done].
  rewrite wp_bind. eapply wp_mono; [|apply transition_locked_wp].
  - intros answer w2 [Hlock Hlease]. apply wp_request; [done|]. done.
  - cbn. split; [split|..]; by read_fields.
Qed.
End runs.

Section recovery.
Context `{UnicodeTables, UrlParser, Codecs} (m : Manager).
Abbreviation wpr := (wp recovery_protocol).

Lemma harmless_recovers w R (c : ManagerCall R) : harmless c = true → recovery_permits w R c.
Proof. by destruct c. Qed.

Lemma in_group_found rates keyID key : findKeyRate rates keyID = Some key → in_group rates keyID (kr_GroupID key) = true.
Proof. unfold in_group. intros ->. by rewrite bool_decide_true. Qed.

(** The lock stays as it is. *)
Lemma recover_row_wp item w :
  is_Some (gw_lock w) → wpr (recover_locked m item) w (λ _ w', gw_lock w' = gw_lock w).
Proof.
  intros Hlock. unfold recover_locked.
  apply (wp_harmless _ harmless_recovers); [done|]. intros [current|e] w1 Hl1 Hs1; [|apply Hl1].
  destruct (bool_decide (gt_Status current = GroupTransitionPending)) eqn:Epending; [|apply Hl1].
  apply bool_decide_eq_true in Epending. cbn [negb].
  apply (wp_harmless _ harmless_recovers); [done|]. intros [source|e] w2 Hl2 Hs2; [|exact (lt_lock w w2 ltac:(chain))].
  apply (wp_harmless_bind recovery_permits); [exact (decrypt_later m _ harmless_recovers source w2)|].
  intros [credentials|e] w3 Hl3; [|exact (lt_lock w w3 ltac:(chain))].
  apply (wp_harmless _ harmless_recovers); [done|]. intros [result|e] w4 Hl4 Hs4; [|exact (lt_lock w w4 ltac:(chain))].
  destruct (findKeyRate _ _) as [key|] eqn:Ekey; [|exact (lt_lock w w4 ltac:(chain))].
  apply (wp_harmless _ harmless_recovers); [done|]. intros now w5 Hl5 _. apply in_group_found in Ekey.
  assert (read_back w5 current (kr_GroupID key)) as Hread.
  { split; [done|]. split; [exists (gt_IdempotencyKey item); eapply seen_later; [|exact Hs1]; chain|].
    exists source, credentials, result. split; [eapply seen_later; [|exact Hs2]; chain|].
    split; [eapply seen_later; [|exact Hs4]; chain|done]. }
  assert (gw_lock w5 = gw_lock w) as Elock by (apply lt_lock; chain).
  case_bool_decide as Efrom.
  { apply wp_request; [split; [by rewrite Elock|]; exists current; by rewrite <- Efrom|].
    intros [[]|e]; cbn; by read_fields. }
  case_bool_decide as Eto; cbn [negb]; [|done]. unfold finish_recovered.
  apply (wp_harmless _ harmless_recovers); [done|]. intros [policy|e] w6 Hl6 Hs6; [|by rewrite <- Elock; apply Hl6].
  assert (gw_lock w6 = gw_lock w) as Elock6 by (rewrite <- Elock; apply Hl6).
  apply wp_request.
  { split; [by rewrite Elock6|]. exists current, policy. rewrite <- Eto. split; [|by split_and!].
    destruct Hread as (? & (k & ?) & s & c & r & ? & ? & ?). split; [done|].
    split; [exists k; by eapply seen_later|]. exists s, c, r. split_and!; [by eapply seen_later..|done]. }
  intros [[]|e]; [|cbn; by read_fields]. set (w7 := observe _ _ _ _ _).
  assert (gw_lock w7 = gw_lock w) as Elock7 by (unfold w7; cbn; by read_fields). clearbody w7.
  apply (wp_harmless_bind recovery_permits); [exact (applySuccess_later m _ harmless_recovers _ _ _)|]. intros failed w8 Hl8.
  apply (wp_harmless_bind recovery_permits); [by apply (record_harmless _ harmless_recovers)|]. intros [] w9 Hl9.
  apply (wp_harmless _ harmless_recovers); [done|]. intros [] w10 Hl10 _. cbn. rewrite <- Elock7. apply lt_lock. chain.
Qed.

Lemma recoverGroupTransition_wp item w :
  gw_lock w = None → wpr (recoverGroupTransition m item) w (λ _ w', gw_lock w' = None).
Proof.
  intros Hlock. unfold recoverGroupTransition. apply wp_request; [exact Hlock|].
  intros [[]|e]; [|cbn; by read_fields]. rewrite wp_bind. eapply wp_mono; [|apply recover_row_wp].
  - intros failed w1 Hw1. apply wp_request; [|done]. refine (eq_trans Hw1 _). cbn. by read_fields.
  - cbn. by read_fields.
Qed.

Lemma RecoverGroupTransitions_wp : wpr (RecoverGroupTransitions m) nothing_done (λ _ _, True).
Proof.
  unfold RecoverGroupTransitions. apply (wp_harmless _ harmless_recovers); [done|]. intros [items|e] w1 Hl1 _; [|done].
  rewrite wp_bind. eapply wp_mono; [|apply (wp_for_all recovery_protocol _ (λ _ _ w, gw_lock w = None))].
  - by intros [|] w2 _.
  - exact (lt_lock _ _ Hl1).
  - intros item items' errors w2 Hw2. rewrite wp_bind.
    eapply wp_mono; [|by apply recoverGroupTransition_wp]. intros [e|] w3 Hw3; exact Hw3.
Qed.
End recovery.

(** C20: a run of [TransitionGroupTier], whatever the replies and wherever it stops, writes
    a group upstream at most once, and only after it has, under the key's lock, found its
    idempotency key unused, read the settings, the source, the policy confirmed in its
    version, the stored groups and the key upstream, journaled the transition where none
    is pending, and saved the state that marks the evidence read before the write; an
    automatic run only for an enabled source with a password and sufficient balance, an
    active key in a known group that nobody moved, outside holds, cooldown and the limits,
    and inside the barrier after reading that the automation is not frozen. It closes the
    row as carried out only when the key was read back in the target group, as failed only
    when nothing was written, the write was refused or the reply shows another group. And
    a recovery writes no group: it closes a row only as the key was read back, under the
    lock, in the row's target group or in its original group. *)
Theorem transitions_keep_protocol `{UnicodeTables, UrlParser, Codecs} (m : Manager) tr :
  (∀ request value, trace (TransitionGroupTier m request) tr value →
     respects (transition_protocol m (normalize_request request)) nothing_done tr)
  ∧ (∀ value, trace (RecoverGroupTransitions m) tr value → respects recovery_protocol nothing_done tr).
Proof.
  split.
  - intros request value Htr. exact (proj1 (wp_adequate _ _ _ _ _ _ (TransitionGroupTier_wp m request) Htr)).
  - intros value Htr. exact (proj1 (wp_adequate _ _ _ _ _ _ (RecoverGroupTransitions_wp m) Htr)).
Qed.

(** The key is moved once; asked again, with the reply to the write lost and the row left
    pending, a recovery finds it moved. *)
Lemma transitions_keep_protocol_witness :
  let M := plain_tables in
  let moved := (run running (TransitionGroupTier the_manager the_request) the_site).2 in
  let lost := (run running (TransitionGroupTier the_manager the_request)
                 (the_site <| ste_refusal := Some (UncertainFailure "write" (NewFailure "timeout")) |>)).2 in
  let recovered := (run running (RecoverGroupTransitions the_manager) lost).2 in
  (ste_writes moved, gt_Status <$> ste_rows moved) = ([("k1", "g3")], [GroupTransitionApplied])
  ∧ (ste_writes recovered, gt_Status <$> ste_rows lost, gt_Status <$> ste_rows recovered)
    = ([("k1", "g3")], [GroupTransitionPending], [GroupTransitionApplied])
  ∧ respects (transition_protocol the_manager (normalize_request the_request)) nothing_done
      (run_trace running (TransitionGroupTier the_manager the_request) the_site)
  ∧ respects recovery_protocol nothing_done (run_trace running (RecoverGroupTransitions the_manager) lost).
Proof.
  cbv zeta. split; [vm_compute; reflexivity|]. split; [vm_compute; reflexivity|]. split.
  - exact (proj1 (transitions_keep_protocol (H:=plain_tables) the_manager _) the_request _
      (run_traces running (TransitionGroupTier (H:=plain_tables) the_manager the_request) the_site)).
  - exact (proj2 (transitions_keep_protocol (H:=plain_tables) the_manager _) _
      (run_traces running (RecoverGroupTransitions (H:=plain_tables) the_manager) _)).
Defined.
