(* ===== verification/CostRoutingFacts.v ===== *)
(** * What cost routing leaves serving

    [reconcileCostRouting] followed through the requests it makes: whom it puts in standby,
    and what it has seen serve in the same pool. *)

From S2P Require Import Prelude GoStd Float Model ModelHealth ModelFailover Requests MutationError FailoverSandbox BalanceCalls CostRouting BalanceSandbox.

Lemma NoDup_fmap_inj_on {A B} (f : A → B) l x y : NoDup (f <$> l) → x ∈ l → y ∈ l → f x = f y → x = y.
Proof.
  intros Hnd (i & Hi)%list_elem_of_lookup (j & Hj)%list_elem_of_lookup E.
  assert (i = j) as <-; [|congruence]. apply (NoDup_lookup (f <$> l) i j (f x) Hnd); rewrite list_lookup_fmap.
  - by rewrite Hi.
  - by rewrite Hj, E.
Qed.

Lemma flt_irrefl x : flt x x = false.
Proof.
  assert (∀ m, PosDef.Pos.compare_cont Eq m m = Eq) as Hm by (intros m; exact (Pos.compare_refl m)).
  unfold flt, SFltb, SFcompare. destruct x as [[]|[]| |[] m e]; cbn; try done; by rewrite Z.compare_refl, Hm.
Qed.

(** ** The rate that serves *)

(** The rate found only falls. *)
Lemma lowest_rate_falls chosen x start items :
  flt x start = false → flt x (lowest_rate chosen start items).1 = false.
Proof.
  intros Hstart. unfold lowest_rate. apply (foldl_keeps (λ p, flt x p.1 = false)); [done|].
  intros item [rate b] _ Hrate. cbn in *. destruct (chosen item && flt (rs_rate item) rate) eqn:E; [|done]. cbn.
  apply andb_true_iff in E as [_ E]. apply not_true_is_false. intros Hx. by rewrite (flt_trans _ _ _ Hx E) in Hrate.
Qed.

Lemma lowest_rate_app chosen start items items' :
  (lowest_rate chosen start (items ++ items')).1 = (lowest_rate chosen (lowest_rate chosen start items).1 items').1.
Proof.
  unfold lowest_rate. rewrite foldl_app. destruct (foldl _ (start, false) items) as [rate b]. cbn.
  revert rate b. generalize false. induction items' as [|item items' IH]; intros b' rate b; [done|]. cbn.
  destruct (chosen item && flt (rs_rate item) rate); apply IH.
Qed.

(** No chosen source has a lower rate. *)
Lemma lowest_rate_least chosen start items item :
  item ∈ items → chosen item = true → flt (rs_rate item) (lowest_rate chosen start items).1 = false.
Proof.
  intros (before & after & ->)%list_elem_of_split Hchosen. rewrite lowest_rate_app. set (rate := (lowest_rate chosen start before).1).
  change (item :: after) with ([item] ++ after). rewrite lowest_rate_app. apply lowest_rate_falls. unfold lowest_rate. cbn. rewrite Hchosen. cbn.
  destruct (flt (rs_rate item) rate) eqn:E; [apply flt_irrefl|done].
Qed.

Lemma lowest_rate_found chosen start items :
  (lowest_rate chosen start items).2 = false → (lowest_rate chosen start items).1 = start.
Proof.
  unfold lowest_rate. apply (foldl_keeps (λ p, p.2 = false → p.1 = start)); [done|].
  intros item p _ Hp. by destruct (chosen item && flt (rs_rate item) p.1).
Qed.

(** Nothing that serves is cheaper than the rate chosen. *)
Lemma targetRate_least items item : item ∈ items → serves item = true → flt (rs_rate item) (targetRate items) = false.
Proof.
  intros Hin Hs. pose proof (lowest_rate_least serves max_float items item Hin Hs) as Hcurrent. unfold targetRate.
  pose proof (lowest_rate_found serves max_float items) as Hfound.
  destruct (lowest_rate serves max_float items) as [current healthy]. cbn in *.
  destruct healthy; apply lowest_rate_falls; [done|]. by rewrite <- Hfound.
Qed.

(** ** Where a wanted lock comes from *)

Section locks.
Context (currentLocks : list CostLock) (lockByAccount : gmap Z CostLock) (now : time).

(** A lock that puts an account in standby, for a source at the target rate that serves. *)
Definition standby (pool : string) (items : list routingSource) (lock : CostLock) : Prop :=
  ∃ item account server, item ∈ items ∧ account ∈ rs_accounts item
    ∧ lock = standby_lock pool lockByAccount now item account
    ∧ sameRate (rs_rate item) (targetRate items) = false
    ∧ server ∈ items ∧ sameRate (rs_rate server) (targetRate items) = true ∧ rs_serving server = true.

(** It was there before, or one of the pools wants it. *)
Definition wanted (pools : gmap string (list routingSource)) (id : Z) (lock : CostLock) : Prop :=
  cl_AccountID lock = id ∧ (lock ∈ currentLocks ∨ ∃ pool items, pools !! pool = Some items ∧ standby pool items lock).

Lemma keep_wanted pools keeps desired :
  map_Forall (wanted pools) desired → map_Forall (wanted pools) (keep keeps currentLocks desired).
Proof.
  intros Hd. unfold keep. apply foldl_keeps; [done|]. intros lock d Hin Hd'. destruct (keeps lock); [|done].
  apply map_Forall_insert_2; [|done]. split; [done|by left].
Qed.

Lemma pool_locks_wanted pools pool items desired :
  pools !! pool = Some items → map_Forall (wanted pools) desired →
  map_Forall (wanted pools) (pool_locks currentLocks lockByAccount now pool items desired).
Proof.
  intros Hpool Hd. unfold pool_locks. destruct (bool_decide _); [by apply keep_wanted|].
  destruct (existsb _ items) eqn:Eserver; cbn [negb]; [|by apply keep_wanted].
  apply existsb_exists in Eserver as (server & Hserver%list_elem_of_In & [Hrate Hserving]%andb_true_iff).
  unfold put_in_standby. apply foldl_keeps; [done|]. intros item d Hitem Hd'.
  destruct (sameRate (rs_rate item) (targetRate items)) eqn:Esame; [done|].
  apply foldl_keeps; [done|]. intros account d' Haccount Hd''. apply map_Forall_insert_2; [|done].
  split; [done|]. right. exists pool, items. split; [done|]. by exists item, account, server.
Qed.

Lemma desired_locks_wanted order pools :
  map_Forall (wanted pools) (desired_locks order pools currentLocks lockByAccount now).
Proof.
  unfold desired_locks. apply foldl_keeps; [apply map_Forall_empty|]. intros pool d _ Hd.
  destruct (pools !! pool) as [items|] eqn:Epool; [by apply pool_locks_wanted|done].
Qed.
End locks.

Lemma lock_map_has locks lock : lock ∈ locks → is_Some (lock_map locks !! cl_AccountID lock).
Proof.
  unfold lock_map. generalize (∅ : gmap Z CostLock). induction locks as [|other locks IH]; intros m Hin; [by apply elem_of_nil in Hin|].
  apply elem_of_cons in Hin as [<-|Hin]; [|by apply IH]. cbn.
  apply (foldl_keeps (λ m : gmap Z CostLock, is_Some (m !! cl_AccountID lock))).
  - rewrite lookup_insert_eq. by eexists.
  - intros x m' _ Hm'. destruct (decide (cl_AccountID x = cl_AccountID lock)) as [->|Hne];
      [rewrite lookup_insert_eq; by eexists|by rewrite lookup_insert_ne].
Qed.

Lemma lock_map_none locks id : lock_map locks !! id = None ↔ id ∉ (cl_AccountID <$> locks).
Proof.
  split.
  - intros Hnone (lock & -> & Hin)%list_elem_of_fmap. apply lock_map_has in Hin as [? ?]. congruence.
  - intros Hnot. unfold lock_map. apply (foldl_keeps (λ m : gmap Z CostLock, m !! id = None)); [apply lookup_empty|].
    intros lock m Hin Hm. rewrite lookup_insert_ne; [done|]. intros <-. by apply Hnot, list_elem_of_fmap_2.
Qed.

(** ** What the pass has seen *)

Abbreviation history := (list (exchange ManagerCall)).
Definition told (w : history) {R} (c : ManagerCall R) (r : R) : Prop := Exchange c r ∈ w.

Section pass.
Context `{UnicodeTables, UrlParser, Codecs} (m : Manager).

(** The account takes requests now, as far as the reply about its locks says. *)
Definition takes_requests (locks : gmap Z CostLock) (control : result failure AccountControl) (account : Account) : bool :=
  unhindered control account && acc_Schedulable account && bool_decide (locks !! acc_ID account = None).

(** The rate the pass read for a source. *)
Definition rate_read (w : history) (source : UpstreamSource) (rate : float64) : Prop :=
  ∃ rates, told w (ListUpstreamKeyRates (us_ID source)) rates ∧ rate = selected_rate source rates.

(** The pass read the source to be of no use: it has no rate, its balance is not known, is
    old or is locked, or no account at its address takes requests. *)
Definition out_of_service (w : history) (accounts : list Account) (locks : gmap Z CostLock) (now : time)
    (source : UpstreamSource) (rate : float64) : Prop :=
  flt (of_int 0) rate = false ∨ us_Balance source = None ∨ fresh m source now = false ∨ us_BalanceLocked source = true
  ∨ ∀ account, account ∈ accounts → at_source source account = true →
      ∃ control, told w (GetControl (acc_ID account)) control ∧ takes_requests locks control account = false.

(** A source that is routed in the pool, and what the pass read it charges. *)
Definition in_pool (w : history) (sources : list UpstreamSource) (pool : string) (source : UpstreamSource) (rate : float64) : Prop :=
  source ∈ sources ∧ routed source = true ∧ trim_space (us_RoutingPool source) = pool ∧ rate_read w source rate.

(** The account was read to take requests at the address of the source. *)
Definition seen_serving (w : history) (accounts : list Account) (locks : gmap Z CostLock) (source : UpstreamSource)
    (account : Account) : Prop :=
  account ∈ accounts ∧ at_source source account = true
  ∧ ∃ control, told w (GetControl (acc_ID account)) control ∧ takes_requests locks control account = true.

(** A new lock puts an account of a source of its pool in standby; the pool serves at
    another rate, at which an account was read to take requests that is given no lock; and
    no source of the pool at a lower rate than that was of use. *)
Record puts_aside (w : history) (sources : list UpstreamSource) (accounts : list Account) (locks : gmap Z CostLock)
    (now : time) (desired : list CostLock) (lock : CostLock) (target : float64) : Prop := {
  pa_whom : ∃ source account, in_pool w sources (cl_Pool lock) source (cl_RateMultiplier lock) ∧ us_ID source = cl_SourceID lock
    ∧ account ∈ accounts ∧ at_source source account = true ∧ acc_ID account = cl_AccountID lock;
  pa_other : sameRate (cl_RateMultiplier lock) target = false;
  pa_server : ∃ source rate account, in_pool w sources (cl_Pool lock) source rate ∧ sameRate rate target = true
    ∧ seen_serving w accounts locks source account ∧ acc_ID account ∉ (cl_AccountID <$> desired);
  pa_least : ∀ source, source ∈ sources → routed source = true → trim_space (us_RoutingPool source) = cl_Pool lock →
    ∃ rate, rate_read w source rate ∧ (flt rate target = true → out_of_service w accounts locks now source rate);
}.

(** What the set of locks that a pass writes may hold. *)
Definition leaves_serving (w : history) (desired : list CostLock) : Prop :=
  ∃ sources accounts currentLocks now,
    told w ListUpstreamSources (Ok sources) ∧ told w ListAccounts (Ok accounts) ∧ told w ListCostLocks (Ok currentLocks)
    ∧ told w Now now
    ∧ (NoDup (us_NormalizedURL <$> sources) → NoDup (acc_ID <$> accounts) →
       ∀ lock, lock ∈ desired → cl_AccountID lock ∉ (cl_AccountID <$> currentLocks) →
       ∃ target, puts_aside w sources accounts (lock_map currentLocks) now desired lock target).

Definition routing_permits (w : history) R (c : ManagerCall R) : Prop :=
  match c with
  | ListUpstreamSources | ListAccounts | ListCostLocks | Now | ListUpstreamKeyRates _ | GetControl _ | RangePools _
  | RangeAccounts _ | AddEvent _ | LockRoute | UnlockRoute | RequestAccountsFrom _ _ | RequestAccounts _ | Trigger => True
  | SyncCostLocksChanged desired => leaves_serving w desired
  | _ => False
  end.
Definition routing_protocol : protocol ManagerCall :=
  mkProtocol history routing_permits (λ w R c r, Exchange c r :: w).
Abbreviation wpr := (wp routing_protocol).

(** ** The sources of the pools *)

(** What an item says of its source has been read. *)
Record item_of (w : history) (accounts : list Account) (locks : gmap Z CostLock) (now : time) (source : UpstreamSource)
    (item : routingSource) : Prop := {
  io_source : rs_source item = source;
  io_accounts : ∀ account, account ∈ rs_accounts item ↔ account ∈ accounts ∧ at_source source account = true;
  io_rate : rate_read w source (rs_rate item);
  io_serving : rs_serving item = true → ∃ account, account ∈ rs_accounts item ∧ seen_serving w accounts locks source account;
  io_idle : serves item = false → out_of_service w accounts locks now source (rs_rate item);
}.

Lemma rate_read_more w w' source rate : w ⊆ w' → rate_read w source rate → rate_read w' source rate.
Proof. intros Hw (rates & ? & ?). exists rates. split; [by apply Hw|done]. Qed.
Lemma seen_more w w' accounts locks source account :
  w ⊆ w' → seen_serving w accounts locks source account → seen_serving w' accounts locks source account.
Proof. intros Hw (? & ? & control & ? & ?). split; [done|]. split; [done|]. exists control. split; [by apply Hw|done]. Qed.
Lemma out_more w w' accounts locks now source rate :
  w ⊆ w' → out_of_service w accounts locks now source rate → out_of_service w' accounts locks now source rate.
Proof.
  intros Hw [?|[?|[?|[?|Hnone]]]]; [by left|by right; left|by do 2 right; left|by do 3 right; left|]. do 4 right.
  intros account Ha Hat. destruct (Hnone account Ha Hat) as (control & ? & ?). exists control. split; [by apply Hw|done].
Qed.
Lemma item_of_more w w' accounts locks now source item :
  w ⊆ w' → item_of w accounts locks now source item → item_of w' accounts locks now source item.
Proof.
  intros Hw [? ? ? Hs Hidle]. split; [done|done|by eapply rate_read_more| |].
  - intros Hserving. destruct (Hs Hserving) as (a & ? & ?). exists a. split; [done|]. by eapply seen_more.
  - intros Hnot. eapply out_more; [exact Hw|auto].
Qed.

(** The first loop over the accounts has gone through those that are not left. *)
Record noted (w0 w : history) (accounts : list Account) (locks : gmap Z CostLock) (source : UpstreamSource) (rate : float64)
    (left : list Account) (item : routingSource) : Prop := {
  nt_seen : w0 ⊆ w;
  nt_item : rs_source item = source ∧ rs_rate item = rate;
  nt_accounts : ∃ visited, accounts = visited ++ left
    ∧ (∀ account, account ∈ rs_accounts item ↔ account ∈ visited ∧ at_source source account = true);
  nt_serving : if rs_serving item then ∃ account, account ∈ rs_accounts item ∧ seen_serving w accounts locks source account
    else ∀ account, account ∈ rs_accounts item →
      ∃ control, told w (GetControl (acc_ID account)) control ∧ takes_requests locks control account = false;
}.

Lemma note_account_wp w0 accounts locks source rate account left item w :
  noted w0 w accounts locks source rate (account :: left) item →
  wpr (note_account source locks account item) w (λ item w, noted w0 w accounts locks source rate left item).
Proof.
  intros [Hw Hitem (visited & Hvisited & Haccounts) Hs]. unfold note_account.
  assert (accounts = (visited ++ [account]) ++ left) as Hsplit by by rewrite <- app_assoc.
  destruct (at_source source account) eqn:Eat; cbn [negb].
  2:{ cbn. split; [done|done| |done]. exists (visited ++ [account]). split; [done|]. intros a. rewrite Haccounts, elem_of_app, list_elem_of_singleton.
      naive_solver congruence. }
  apply wp_request; [done|]. intros control. set (w1 := observe _ _ _ _ _). assert (w ⊆ w1) as Hw1 by (intros x; by right).
  assert (told w1 (GetControl (acc_ID account)) control) as Htold by by left. clearbody w1.
  assert (∀ a, a ∈ rs_accounts item ++ [account] ↔ a ∈ visited ++ [account] ∧ at_source source a = true) as Haccounts'.
  { intros a. rewrite !elem_of_app, Haccounts, list_elem_of_singleton. naive_solver. }
  change (unhindered control account && acc_Schedulable account && bool_decide (locks !! acc_ID account = None))
    with (takes_requests locks control account).
  assert (account ∈ accounts) as Hin by (rewrite Hvisited; set_solver).
  destruct (takes_requests locks control account) eqn:Etakes; cbn; (split; read_fields; [set_solver|done|by exists (visited ++ [account])|]).
  - exists account. split; [apply elem_of_app; right; by left|]. split; [done|]. split; [done|]. by exists control.
  - destruct (rs_serving item).
    + destruct Hs as (a & Ha & Hseen). exists a. split; [apply elem_of_app; by left|]. by eapply seen_more.
    + intros a [Ha|Ha%list_elem_of_singleton]%elem_of_app; [|subst a; by exists control].
      destruct (Hs a Ha) as (c & ? & ?). exists c. split; [by apply Hw1|done].
Qed.

(** The second loop ends without a usable account only when each was read to be in use by
    none. *)
Lemma usable_accounts_wp locks w0 items w :
  w0 ⊆ w →
  wpr (for_each (usable_account locks) items ()) w
    (λ next w', w0 ⊆ w' ∧ match next with
       | Next _ => ∀ account, account ∈ items →
           ∃ control, told w' (GetControl (acc_ID account)) control ∧ takes_requests locks control account = false
       | Return _ => True end).
Proof.
  intros Hw. eapply wp_mono; [|apply (wp_for_each_left routing_protocol _ (λ left _ w', w0 ⊆ w' ∧ ∃ visited, items = visited ++ left
    ∧ ∀ account, account ∈ visited →
        ∃ control, told w' (GetControl (acc_ID account)) control ∧ takes_requests locks control account = false) (λ _ w', w0 ⊆ w'))].
  - intros [[]|[]] w'; [|done]. intros (? & visited & -> & Hv). by rewrite app_nil_r in *.
  - split; [done|]. exists []. split; [done|]. intros a Ha. by apply elem_of_nil in Ha.
  - intros account left [] w1 (Hw1 & visited & -> & Hv). unfold usable_account. apply wp_request; [done|]. intros control. cbv zeta.
    set (w2 := observe _ _ _ _ _). assert (w1 ⊆ w2) as Hw2 by (intros x; by right).
    assert (told w2 (GetControl (acc_ID account)) control) as Htold by by left. clearbody w2. cbn [wp mret prog_ret].
    destruct (unhindered control account && _) eqn:Eusable; [set_solver|]. split; [set_solver|].
    exists (visited ++ [account]). rewrite <- app_assoc. split; [done|]. intros a [Ha|Ha%list_elem_of_singleton]%elem_of_app.
    + destruct (Hv a Ha) as (c & ? & ?). exists c. split; [by apply Hw2|done].
    + subst a. exists control. split; [done|]. unfold takes_requests.
      destruct (unhindered control account), (acc_Schedulable account); cbn in *; congruence.
Qed.

Lemma route_source_wp accounts locks now source w :
  wpr (route_source m accounts locks now source) w (λ item w', w ⊆ w' ∧ item_of w' accounts locks now source item).
Proof.
  unfold route_source. apply wp_request; [done|]. intros rates. rewrite wp_bind.
  set (w1 := observe _ _ _ _ _). assert (w ⊆ w1) as Hw1 by (intros x; by right).
  assert (rate_read w1 source (selected_rate source rates)) as Hrate by (exists rates; split; [by left|done]). clearbody w1.
  eapply wp_mono; [|apply (wp_for_all routing_protocol _ (λ left item w', noted w1 w' accounts locks source (selected_rate source rates) left item))].
  2:{ split; [done|done| |cbn; intros a Ha; by apply elem_of_nil in Ha]. exists []. split; [done|]. cbn. set_solver. }
  2:{ intros a left item w2. apply note_account_wp. }
  intros item w2 [Hw2 [Hsource Erate] (visited & Hvisited & Haccounts) Hs]. rewrite app_nil_r in Hvisited. subst visited.
  cbv zeta. rewrite wp_bind.
  eapply (wp_mono routing_protocol _ _ (λ available w3, w2 ⊆ w3 ∧ (available = false →
    out_of_service w3 accounts locks now source (rs_rate item)))).
  - intros available w3 [Hw3 Hun]. cbn. split; [set_solver|]. split; read_fields.
    + done.
    + exact Haccounts.
    + rewrite Erate. apply (rate_read_more w1); [set_solver|done].
    + intros Hserving. rewrite Hserving in Hs. destruct Hs as (a & ? & ?). exists a. split; [done|]. by eapply seen_more.
    + unfold serves. read_fields. intros Hnot. destruct (rs_serving item); [by apply Hun|].
      do 4 right. intros a Ha Hat. destruct (Hs a) as (c & ? & ?); [by apply Haccounts|]. exists c. split; [by apply Hw3|done].
  - destruct (flt (of_int 0) (rs_rate item) && _ && _ && _ && negb (us_BalanceLocked source)) eqn:Efit; cbn [andb].
    + rewrite wp_bind. eapply wp_mono; [|apply (usable_accounts_wp locks w2); done].
      intros [[]|[]] w3 [Hw3 Hun]; cbn; (split; [done|]); [|done]. intros _. do 4 right. intros a Ha Hat. by apply Hun, Haccounts.
    + cbn. split; [done|]. intros _. unfold out_of_service.
      destruct (flt (of_int 0) (rs_rate item)); [|by left].
      destruct (decide (rs_accounts item = [])) as [Enone|Hsome].
      { do 4 right. intros a Ha Hat. exfalso. apply (not_elem_of_nil a). rewrite <- Enone. by apply Haccounts. }
      rewrite (bool_decide_false (rs_accounts item = [])) in Efit by done.
      destruct (us_Balance source); [|by right; left]. rewrite bool_decide_true in Efit by done.
      destruct (fresh m source now); [|by do 2 right; left]. destruct (us_BalanceLocked source); [by do 3 right; left|done].
Qed.

(** The pools hold an item for every routed source seen so far, and for no other. *)
Record pools_of (w : history) (accounts : list Account) (locks : gmap Z CostLock) (now : time) (visited : list UpstreamSource)
    (pools : gmap string (list routingSource)) : Prop := {
  po_items : ∀ pool items item, pools !! pool = Some items → item ∈ items →
    ∃ source, source ∈ visited ∧ routed source = true ∧ trim_space (us_RoutingPool source) = pool ∧ item_of w accounts locks now source item;
  po_complete : ∀ source, source ∈ visited → routed source = true →
    ∃ items item, pools !! trim_space (us_RoutingPool source) = Some items ∧ item ∈ items ∧ item_of w accounts locks now source item;
  po_distinct : NoDup visited → ∀ pool items, pools !! pool = Some items → NoDup (rs_source <$> items);
}.

Lemma route_one_wp accounts locks now source visited pools w :
  pools_of w accounts locks now visited pools →
  wpr (route_one m accounts locks now source pools) w
    (λ pools' w', w ⊆ w' ∧ pools_of w' accounts locks now (visited ++ [source]) pools').
Proof.
  intros [Hitems Hcomplete Hdistinct]. unfold route_one.
  destruct (routed source) eqn:Erouted; cbn [negb].
  2:{ cbn. split; [done|]. split.
      - intros pool items item Hpool Hin. destruct (Hitems pool items item Hpool Hin) as (s & ? & ?).
        exists s. split; [apply elem_of_app; by left|done].
      - intros s [Hs|Hs%list_elem_of_singleton]%elem_of_app Hr; [by apply Hcomplete|congruence].
      - intros [Hnd _]%NoDup_app. by apply Hdistinct. }
  rewrite wp_bind. eapply wp_mono; [|apply route_source_wp]. intros item w1 [Hw1 Hitem]. cbn. split; [done|].
  set (pool := trim_space (us_RoutingPool source)).
  assert (∀ items, default [] (pools !! pool) = items → ∀ old, old ∈ items →
    ∃ source, source ∈ visited ∧ routed source = true ∧ trim_space (us_RoutingPool source) = pool ∧ item_of w1 accounts locks now source old) as Hold.
  { intros items <- old Hin. destruct (pools !! pool) as [items|] eqn:Ep; [|by apply elem_of_nil in Hin].
    destruct (Hitems pool items old Ep Hin) as (s & ? & ? & ? & ?). exists s. split_and!; try done. by eapply item_of_more. }
  split.
  - intros p items old. destruct (decide (pool = p)) as [<-|Hne].
    + rewrite lookup_insert_eq. intros [= <-] [Hin|Hin]%elem_of_app; [|apply list_elem_of_singleton in Hin as ->].
      * destruct (Hold _ eq_refl old Hin) as (s & ? & ?). exists s. split; [apply elem_of_app; by left|done].
      * exists source. split; [apply elem_of_app; right; by left|done].
    + rewrite lookup_insert_ne by done. intros Hp Hin. destruct (Hitems p items old Hp Hin) as (s & ? & ? & ? & ?).
      exists s. split; [apply elem_of_app; by left|]. split_and!; try done. by eapply item_of_more.
  - intros s [Hs|Hs%list_elem_of_singleton]%elem_of_app Hr; [|subst s; rewrite lookup_insert_eq; eexists _, item; split; [done|];
      split; [apply elem_of_app; right; by left|done]].
    destruct (Hcomplete s Hs Hr) as (items & old & Hp & Hin & Hold'). apply (item_of_more w w1) in Hold'; [|done].
    destruct (decide (trim_space (us_RoutingPool s) = pool)) as [E|Hne]; [rewrite E in Hp |- *|].
    + rewrite lookup_insert_eq, Hp. eexists _, old. split; [done|]. split; [apply elem_of_app; by left|done].
    + rewrite lookup_insert_ne by done. by exists items, old.
  - intros (Hnd & Hnot & _)%NoDup_app p items. destruct (decide (pool = p)) as [<-|Hne].
    + rewrite lookup_insert_eq. intros [= <-]. rewrite fmap_app. apply NoDup_app. split_and!.
      * destruct (pools !! pool) as [items|] eqn:Ep; [by apply Hdistinct with pool|apply NoDup_nil_2].
      * intros s Hold_s Hs. apply list_elem_of_fmap in Hold_s as (old & -> & Hin). cbn in Hs. rewrite (io_source _ _ _ _ _ _ Hitem) in Hs.
        apply list_elem_of_singleton in Hs. destruct (Hold _ eq_refl old Hin) as (s' & Hvisited & _ & _ & Hold').
        apply (Hnot s'); [done|]. rewrite (io_source _ _ _ _ _ _ Hold') in Hs. rewrite Hs. by left.
      * apply NoDup_singleton.
    + rewrite lookup_insert_ne by done. by apply Hdistinct.
Qed.

(** ** Whom the locks leave *)

Section left.
Context (sources : list UpstreamSource) (accounts : list Account) (currentLocks : list CostLock) (now : time).
Context (w : history) (pools : gmap string (list routingSource)).
Abbreviation locks := (lock_map currentLocks).
Context (Hpools : pools_of w accounts locks now sources pools).
Context (Hurls : NoDup (us_NormalizedURL <$> sources)) (Hids : NoDup (acc_ID <$> accounts)).

Lemma same_account a b : a ∈ accounts → b ∈ accounts → acc_ID a = acc_ID b → a = b.
Proof. intros Ha Hb E. by apply (NoDup_fmap_inj_on acc_ID accounts). Qed.

Lemma same_source s t account :
  s ∈ sources → t ∈ sources → at_source s account = true → at_source t account = true → s = t.
Proof.
  intros Hs Ht Es Et. unfold at_source in *. destruct (NormalizeURL _ _); [|done]. bool_facts.
  apply (NoDup_fmap_inj_on us_NormalizedURL sources); [done|done|done|congruence].
Qed.

(** What an item of a pool is of. *)
Lemma in_pool_item pool items item :
  pools !! pool = Some items → item ∈ items →
  ∃ source, in_pool w sources pool source (rs_rate item) ∧ item_of w accounts locks now source item.
Proof.
  intros Hp Hi. destruct (po_items _ _ _ _ _ _ Hpools pool items item Hp Hi) as (s & ? & ? & ? & Hitem). exists s.
  split; [|done]. split_and!; [done..|]. apply Hitem.
Qed.

Lemma same_item pool pool' items items' item item' account account' :
  pools !! pool = Some items → pools !! pool' = Some items' → item ∈ items → item' ∈ items' →
  account ∈ rs_accounts item → account' ∈ rs_accounts item' → acc_ID account = acc_ID account' → pool = pool' ∧ item = item'.
Proof.
  intros Hp Hp' Hi Hi' Ha Ha' Eid.
  destruct (in_pool_item pool items item Hp Hi) as (s & (Hs & _ & Epool & _) & [Es Has _ _ _]).
  destruct (in_pool_item pool' items' item' Hp' Hi') as (s' & (Hs' & _ & Epool' & _) & [Es' Has' _ _ _]).
  apply Has in Ha as [Ha Hat]. apply Has' in Ha' as [Ha' Hat']. pose proof (same_account _ _ Ha Ha' Eid) as <-.
  pose proof (same_source s s' account Hs Hs' Hat Hat') as <-. subst pool pool'. split; [done|].
  rewrite Hp in Hp'. injection Hp' as <-.
  apply (NoDup_fmap_inj_on rs_source items); [|done|done|congruence].
  eapply po_distinct; [exact Hpools| |exact Hp]. by eapply NoDup_fmap_1.
Qed.

(** No source of the pool below the rate chosen is of use. *)
Lemma chosen_least pool items source :
  pools !! pool = Some items → source ∈ sources → routed source = true → trim_space (us_RoutingPool source) = pool →
  ∃ rate, rate_read w source rate ∧ (flt rate (targetRate items) = true → out_of_service w accounts locks now source rate).
Proof.
  intros Hp Hs Hr Epool. destruct (po_complete _ _ _ _ _ _ Hpools source Hs Hr) as (items' & item & Hp' & Hi & Hitem).
  rewrite Epool, Hp in Hp'. injection Hp' as <-. exists (rs_rate item). split; [apply Hitem|]. intros Hlt. apply Hitem.
  apply not_true_iff_false. intros Hserves. pose proof (targetRate_least items item Hi Hserves). congruence.
Qed.

Lemma locks_leave_serving order desired (written : list CostLock) :
  desired_locks order pools currentLocks locks now = desired →
  (∀ lock, lock ∈ written → desired !! cl_AccountID lock = Some lock) →
  ∀ lock, lock ∈ written → cl_AccountID lock ∉ (cl_AccountID <$> currentLocks) →
  ∃ target, puts_aside w sources accounts locks now written lock target.
Proof.
  intros <- Hwritten lock Hin Hnew. pose proof (Hwritten lock Hin) as Hlock.
  set (desired := desired_locks order pools currentLocks locks now) in *.
  pose proof (desired_locks_wanted currentLocks locks now order pools) as Hwanted. fold desired in Hwanted.
  destruct (Hwanted _ lock Hlock) as [_ [Hold|(pool & items & Hp & item & account & server & Hi & Ha & -> & Hrate & Hsi & Hsame & Hserving)]].
  { destruct Hnew. by apply list_elem_of_fmap_2. }
  destruct (in_pool_item pool items item Hp Hi) as (s & Hpool & [Es Has _ _ _]).
  destruct (in_pool_item pool items server Hp Hsi) as (s' & Hpool' & [Es' Has' _ Hsv _]).
  destruct (Hsv Hserving) as (b & Hb & Hseen). exists (targetRate items). split; cbn [cl_Pool cl_RateMultiplier cl_SourceID cl_AccountID standby_lock].
  - exists s, account. apply Has in Ha as [Ha Hat]. by rewrite Es.
  - done.
  - exists s', (rs_rate server), b. split_and!; [done..|]. intros (other & E & Hother)%list_elem_of_fmap.
    apply Hwritten in Hother. rewrite <- E in Hother. destruct Hseen as (Hba & Hbat & control & _ & Htakes).
    unfold takes_requests in Htakes. rewrite !andb_true_iff in Htakes. destruct Htakes as [_ Hfree%bool_decide_eq_true].
    destruct (Hwanted _ _ Hother) as [Hoid [Hoold|(pool2 & items2 & Hp2 & item2 & account2 & server2 & Hi2 & Ha2 & -> & Hrate2 & _)]].
    + apply lock_map_has in Hoold as [? ?]. congruence.
    + destruct (same_item pool pool2 items items2 server item2 b account2 Hp Hp2 Hsi Hi2 Hb Ha2) as [<- <-]; [by cbn in Hoid|].
      rewrite Hp in Hp2. injection Hp2 as <-. congruence.
  - intros source Hs Hr Epool. by apply (chosen_least pool items).
Qed.
End left.

Lemma told_more w w' {R} (c : ManagerCall R) r : w ⊆ w' → told w c r → told w' c r.
Proof. intros Hw. apply Hw. Qed.

Lemma record_routes event w : wpr (record event) w (λ _ _, True).
Proof. unfold record. destruct (is_zero_time _); [split; [done|]; intros ?|]; by split. Qed.

Lemma report_new_routes known event wanted w : wpr (report_new known event wanted) w (λ _ _, True).
Proof.
  unfold report_new. apply wp_request; [done|]. intros order.
  eapply wp_mono; [|apply (wp_for_all routing_protocol _ (λ _ _ _, True)); [done|]]; [done|].
  intros accountID left [] w1 _. destruct (wanted !! accountID), (known !! accountID); try done. apply record_routes.
Qed.

Lemma route_costs_wp w : wpr (route_costs m) w (λ _ _, True).
Proof.
  unfold route_costs. apply wp_request; [done|]. intros [sources|e]; [|done].
  apply wp_request; [done|]. intros [accounts|e]; [|done]. apply wp_request; [done|]. intros [currentLocks|e]; [|done].
  apply wp_request; [done|]. intros now. cbv zeta. rewrite wp_bind. set (w1 := observe _ _ _ _ _).
  assert (told w1 ListUpstreamSources (Ok sources) ∧ told w1 ListAccounts (Ok accounts) ∧ told w1 ListCostLocks (Ok currentLocks))
    as (Hsources & Haccounts & Hlocks) by (split_and!; unfold told, w1; cbn; set_solver).
  assert (told w1 Now now) as Hnow by (unfold told, w1; cbn; by left).
  clearbody w1. eapply wp_mono; [|apply (wp_for_all routing_protocol _ (λ left pools w', ∃ visited, sources = visited ++ left
    ∧ w1 ⊆ w' ∧ pools_of w' accounts (lock_map currentLocks) now visited pools))].
  - intros pools w2 (visited & Evisited & Hw2 & Hpools). rewrite app_nil_r in Evisited. subst visited.
    apply wp_request; [done|]. intros order. apply wp_request; [done|]. intros ids. cbv zeta.
    destruct (costLocksEqual _ _); [done|].
    set (w3 := observe _ _ _ _ _). assert (w2 ⊆ w3) as Hw3 by (unfold w3; cbn; set_solver). clearbody w3.
    assert (w1 ⊆ w3) as Hw1 by set_solver.
    apply wp_request.
    + exists sources, accounts, currentLocks, now. do 4 (split; [by eapply told_more|]). intros Hurls Hids lock Hlock Hnew.
      assert (pools_of w3 accounts (lock_map currentLocks) now sources pools) as Hpools3.
      { destruct Hpools as [Hitems Hcomplete Hdistinct]. split; [| |done].
        - intros pool items item Hp Hi. destruct (Hitems pool items item Hp Hi) as (s & ? & ? & ? & ?). exists s.
          do 3 (split; [done|]). by apply (item_of_more w2).
        - intros s Hs Hr. destruct (Hcomplete s Hs Hr) as (items & item & ? & ? & ?). exists items, item.
          do 2 (split; [done|]). by apply (item_of_more w2). }
      eapply (locks_leave_serving sources accounts currentLocks now w3 pools Hpools3 Hurls Hids order); [done| |exact Hlock|exact Hnew].
      intros l (id & _ & Hid)%list_elem_of_omap. by destruct (desired_locks_wanted _ _ _ _ _ _ _ Hid) as [-> _].
    + intros [changed|e]; [|done]. rewrite wp_bind. eapply wp_mono; [|apply report_new_routes]. intros [] w4 _.
      rewrite wp_bind. eapply wp_mono; [|apply report_new_routes]. intros [] w5 _. rewrite wp_bind.
      eapply (wp_mono routing_protocol _ _ (λ _ _, True)); [done|]. unfold requestAccounts.
      case_bool_decide; [done|]. by destruct (bm_requester m).
  - exists []. split; [done|]. split; [done|]. split; [|by intros ? ?%elem_of_nil|done]. intros pool items item. by rewrite lookup_empty.
  - intros source left pools w2 (visited & -> & Hw2 & Hpools). eapply wp_mono; [|by apply route_one_wp].
    intros pools' w3 [Hw3 Hpools']. exists (visited ++ [source]). rewrite <- app_assoc. split; [done|]. split; [set_solver|done].
Qed.

Lemma reconcileCostRouting_wp : wpr (reconcileCostRouting m) [] (λ _ _, True).
Proof.
  unfold reconcileCostRouting. apply wp_request; [done|]. intros []. rewrite wp_bind.
  eapply wp_mono; [|apply route_costs_wp]. by intros failed w _.
Qed.
End pass.

(** C21: whatever the replies and wherever the run stops, a pass of cost routing writes
    nothing but the set of locks, and a lock that was not there before is sound by what
    the pass has read, as long as no two sources share an address and no two accounts an
    identifier. It is on an account at the address of an enabled source of its pool, with
    the rate read for that source. There is a rate, other than that one, at which another
    source of the pool was read and at which an account was read to take requests: active,
    schedulable, without error and without a health, balance, manual or cost lock; and
    that account is given no lock, old or new. And no source of the pool below that rate
    was of any use: it has no positive rate, its balance is unknown, outdated or locked, or
    each account at its address was read not to take requests. So cheap accounts that
    serve are never put in standby for dear ones. *)
Theorem cost_routing_leaves_one_serving `{UnicodeTables, UrlParser, Codecs} (m : Manager) :
  ∀ tr value, trace (reconcileCostRouting m) tr value → respects (routing_protocol m) [] tr.
Proof. intros tr value Htr. exact (proj1 (wp_adequate _ _ _ _ _ _ (reconcileCostRouting_wp m) Htr)). Qed.

(** Two sources of a pool, at rates 1 and 2, with an account each that serves. *)
Definition pooled (id : Z) (url keyID : string) : UpstreamSource :=
  the_source <| us_ID := id |> <| us_NormalizedURL := url |> <| us_SelectedKeyID := keyID |> <| us_RoutingEnabled := true |>
    <| us_RoutingPool := "p" |>.
Definition rated (keyID : string) (rate : Z) : KeyRate :=
  no_key_rate <| kr_ExternalID := keyID |> <| kr_Status := "active" |> <| kr_RateMultiplier := Some (of_int rate) |>.
Definition account_at (id : Z) (url : string) : Account :=
  (rb_Account no_binding) <| acc_ID := id |> <| acc_Status := "active" |> <| acc_Schedulable := true |>
    <| acc_Credentials := {["base_url" := AnyString url]} |>.
Definition two_sources : site :=
  the_site <| ste_sources := [pooled 3 "https://one.example" "k1"; pooled 4 "https://two.example" "k2"] |>
    <| ste_rates := [rated "k1" 1; rated "k2" 2] |>
    <| ste_accounts := [account_at 11 "https://one.example"; account_at 12 "https://two.example"] |>
    <| ste_controls := {[11%Z := no_control; 12%Z := no_control]} |>.

(** The account of the dearer source is put in standby. *)
Lemma cost_routing_leaves_one_serving_witness :
  let M := plain_tables in
  ((λ lock, (cl_AccountID lock, cl_SourceID lock)) <$> ste_locks (run running (reconcileCostRouting the_manager) two_sources).2)
    = [(12, 4)]%Z
  ∧ respects (routing_protocol the_manager) [] (run_trace running (reconcileCostRouting the_manager) two_sources).
Proof.
  cbv zeta. split; [vm_compute; reflexivity|].
  exact (cost_routing_leaves_one_serving (H:=plain_tables) the_manager _ _
    (run_traces running (reconcileCostRouting (H:=plain_tables) the_manager) two_sources)).
Defined.
