(* ===== verification/Matcher.v ===== *)
(** * Which monitor watches which account

    [internal/reconcile/matcher.go]: an account is bound to the monitor its policy names,
    or else to the only monitor of its platform at its upstream address. *)

From S2P Require Import Prelude GoStd Model ModelHealth ModelFailover MutationError.

Section matcher.
Context `{UnicodeTables, FoldTable, UrlParser}.

Definition NormalizeEndpoint (raw : string) : result failure string :=
  match url_parse (trim_space raw) with
  | Some (scheme, hostname, port) =>
      if bool_decide (scheme = "") || bool_decide (hostname = "")
      then Err (NewFailure ("invalid endpoint " +:+ quote raw)) else
      Ok (origin_of (to_lower scheme) (to_lower hostname) port)
  | None => Err (NewFailure ("invalid endpoint " +:+ quote raw))
  end.

Definition providerCompatible (provider platform : string) : bool :=
  EqualFold (trim_space provider) (trim_space platform).

(** [monitor.Provider + "|" + key], the key of [monitorsByKey]. *)
Definition endpoint_key (provider key : string) : string := provider +:+ "|" +:+ key.

Definition monitor_key (monitor : Monitor) : option string :=
  match NormalizeEndpoint (mon_Endpoint monitor) with
  | Ok key => Some (endpoint_key (mon_Provider monitor) key)
  | Err _ => None
  end.

(** [monitorByID]: of monitors with the same identifier the last. *)
Definition monitorByID (monitors : list Monitor) : gmap Z Monitor :=
  foldl (λ m monitor, <[mon_ID monitor := monitor]> m) ∅ monitors.

Definition monitorsByKey (monitors : list Monitor) : gmap string (list Monitor) :=
  foldl (λ m monitor, match monitor_key monitor with
                      | Some key => <[key := default [] (m !! key) ++ [monitor]]> m
                      | None => m
                      end) ∅ monitors.

(** [Policy{AccountID: id, Enabled: true}] *)
Definition default_policy (accountID : Z) : Policy :=
  mkPolicy accountID "" None None false true None None None None None None None None None None None
    None None None None None.

Definition policy_of (policies : gmap Z Policy) (accountID : Z) : Policy :=
  default (default_policy accountID) (policies !! accountID).

(** The variables the loop over the accounts carries. *)
Record matching := mkMatching {
  mg_resolved : list ResolvedBinding;
  mg_usedMonitors : gset Z;
  mg_conflicts : list string;
}.

Definition add_binding (m : matching) (binding : ResolvedBinding) : matching :=
  m <| mg_resolved := mg_resolved m ++ [binding] |>.

Definition unresolved (account : Account) (policy : Policy) : ResolvedBinding :=
  no_binding <| rb_Account := account |> <| rb_Policy := policy |> <| rb_Source := "auto" |> <| rb_State := "unmatched" |>.

Definition bind_to (binding : ResolvedBinding) (monitor : Monitor) : ResolvedBinding :=
  binding <| rb_Monitor := Some monitor |> <| rb_State := "bound" |>.

Definition use_monitor (m : matching) (monitor : Monitor) : matching :=
  m <| mg_usedMonitors := {[mon_ID monitor]} ∪ mg_usedMonitors m |>.

Definition add_conflict (m : matching) (text : string) : matching :=
  m <| mg_conflicts := mg_conflicts m ++ [text] |>.

(** The policy names a monitor. *)
Definition resolve_manual (byID : gmap Z Monitor) (binding : ResolvedBinding) (monitorID : Z) (m : matching) : matching :=
  let binding := binding <| rb_Source := "manual" |> in
  let account := rb_Account binding in
  match byID !! monitorID with
  | None => add_binding m (binding <| rb_State := "frozen" |> <| rb_Reason := "指定监控不存在" |>)
  | Some monitor =>
      if negb (providerCompatible (mon_Provider monitor) (acc_Platform account)) then
        let m := add_conflict m ("账号 " +:+ format_int (acc_ID account) +:+ " 的指定监控平台不兼容") in
        add_binding m (binding <| rb_State := "conflict" |> <| rb_Reason := "指定监控与账号平台不兼容" |>)
      else add_binding (use_monitor m monitor) (bind_to binding monitor)
  end.

(** By platform and address. *)
Definition resolve_auto (byKey : gmap string (list Monitor)) (binding : ResolvedBinding) (key : string) (m : matching) : matching :=
  let account := rb_Account binding in
  match default [] (byKey !! endpoint_key (acc_Platform account) key) with
  | [] => add_binding m (binding <| rb_Reason := "没有相同上游地址的监控" |>)
  | [monitor] => add_binding (use_monitor m monitor) (bind_to binding monitor)
  | candidates =>
      let m := add_conflict m ("账号 " +:+ format_int (acc_ID account) +:+ " 匹配到 "
                               +:+ format_int (Z.of_nat (length candidates)) +:+ " 个监控") in
      add_binding m (binding <| rb_State := "conflict" |> <| rb_Reason := "同一上游地址存在多个监控" |>)
  end.

Definition resolve_account (monitors : list Monitor) (policies : gmap Z Policy) (m : matching) (account : Account) : matching :=
  let baseURL := trim_space (BaseURL account) in
  if bool_decide (baseURL = "") then m else
  let policy := policy_of policies (acc_ID account) in
  let binding := unresolved account policy in
  match NormalizeEndpoint baseURL with
  | Err _ => add_binding m (binding <| rb_Reason := "账号上游地址无效" |>)
  | Ok key =>
      let binding := binding <| rb_NormalizedEndpoint := key |> in
      if pol_Excluded policy || negb (pol_Enabled policy)
      then add_binding m (binding <| rb_State := "excluded" |> <| rb_Reason := "已排除自动调度" |>) else
      match pol_MonitorID policy with
      | Some monitorID => resolve_manual (monitorByID monitors) binding monitorID m
      | None => resolve_auto (monitorsByKey monitors) binding key m
      end
  end.

Definition ResolveBindings (monitors : list Monitor) (accounts : list Account) (policies : gmap Z Policy)
    : list ResolvedBinding * list Monitor * list string :=
  let m := foldl (resolve_account monitors policies) (mkMatching [] ∅ []) accounts in
  let unmatched := filter (λ monitor, mon_ID monitor ∉ mg_usedMonitors m) monitors in
  (sort_slice (λ left right, (acc_ID (rb_Account left) <? acc_ID (rb_Account right))%Z) (mg_resolved m),
   sort_slice (λ left right, (mon_ID left <? mon_ID right)%Z) unmatched,
   mg_conflicts m).
End matcher.

(** * The matching of accounts and monitors is the documented one

    Which monitor a binding may carry, stated from the lists the matcher was given. *)

Lemma sorted_by_key {A} (key : A → Z) l : StronglySorted (λ a b, key a ≤ key b)%Z (sort_slice (λ a b, (key a <? key b)%Z) l).
Proof.
  pose proof (strict_weak_key Z.ltb key _) as Hweak.
  induction (sort_slice_sorted (λ a b, (key a <? key b)%Z) l) as [|a l' Hl IH Ha]; constructor; [done|].
  eapply Forall_impl; [exact Ha|]. intros b Hab%Z.ltb_ge. done.
Qed.

Section facts.
Context `{UnicodeTables, FoldTable, UrlParser}.

Lemma monitorByID_last monitors id :
  monitorByID monitors !! id = last (filter (λ monitor, mon_ID monitor = id) monitors).
Proof.
  unfold monitorByID.
  apply (foldl_done (λ done (m : gmap Z Monitor), m !! id = last (filter (λ monitor, mon_ID monitor = id) done))); [done|].
  intros done monitor m Hm. rewrite filter_app. destruct (decide (mon_ID monitor = id)) as [<-|Hne].
  - by rewrite lookup_insert_eq, filter_cons_True, filter_nil, last_snoc.
  - by rewrite lookup_insert_ne, filter_cons_False, filter_nil, app_nil_r.
Qed.

Lemma monitorsByKey_filter monitors key :
  default [] (monitorsByKey monitors !! key) = filter (λ monitor, monitor_key monitor = Some key) monitors.
Proof.
  unfold monitorsByKey.
  apply (foldl_done (λ done (m : gmap string (list Monitor)),
           default [] (m !! key) = filter (λ monitor, monitor_key monitor = Some key) done)); [done|].
  intros done monitor m Hm. rewrite filter_app. destruct (decide (monitor_key monitor = Some key)) as [E|Hne].
  - rewrite E, lookup_insert_eq, filter_cons_True, filter_nil by done. cbn. by rewrite Hm.
  - rewrite filter_cons_False, filter_nil, app_nil_r by done. rewrite <- Hm.
    destruct (monitor_key monitor) as [other|]; [|done]. rewrite lookup_insert_ne by congruence. done.
Qed.

(** The account may be bound, by its policy and its address. *)
Definition bindable (policy : Policy) : Prop := pol_Excluded policy = false ∧ pol_Enabled policy = true.

(** The monitor that watches the account: the one its policy names, of its platform, or
    else the only one whose provider is the account's platform and whose address is the
    account's. *)
Definition watches (monitors : list Monitor) (policy : Policy) (account : Account) (monitor : Monitor) : Prop :=
  bindable policy ∧
  ∃ key, NormalizeEndpoint (trim_space (BaseURL account)) = Ok key ∧
  match pol_MonitorID policy with
  | Some id => last (filter (λ m, mon_ID m = id) monitors) = Some monitor
               ∧ providerCompatible (mon_Provider monitor) (acc_Platform account) = true
  | None => filter (λ m, monitor_key m = Some (endpoint_key (acc_Platform account) key)) monitors = [monitor]
  end.

Definition resolved (monitors : list Monitor) (policies : gmap Z Policy) (b : ResolvedBinding) : Prop :=
  rb_Policy b = policy_of policies (acc_ID (rb_Account b))
  ∧ (rb_State b = "bound" ↔ is_Some (rb_Monitor b))
  ∧ ∀ monitor, rb_Monitor b = Some monitor ↔ watches monitors (rb_Policy b) (rb_Account b) monitor.

(** What one account adds to the matching. *)
Inductive adds (monitors : list Monitor) (policies : gmap Z Policy) (account : Account) (m : matching) : matching → Prop :=
  | Skips : trim_space (BaseURL account) = "" → adds monitors policies account m m
  | Binds b m' :
      trim_space (BaseURL account) ≠ "" → rb_Account b = account → resolved monitors policies b →
      mg_resolved m' = mg_resolved m ++ [b] →
      mg_usedMonitors m' = match rb_Monitor b with Some monitor => {[mon_ID monitor]} ∪ mg_usedMonitors m | None => mg_usedMonitors m end →
      adds monitors policies account m m'.

Ltac binds := eapply Binds; [done| | |unfold add_binding, use_monitor, add_conflict; upd; reflexivity|]; [reflexivity| |reflexivity].
Ltac unbound := split; [done|]; split; [by split; [done|intros [? [=]]]|];
  intros other; split; [done|]; intros ([Hout Hon] & key' & Hkey & Hw); upd in Hkey; upd in Hw; upd in Hout; upd in Hon.

Lemma resolve_account_adds monitors policies m account :
  adds monitors policies account m (resolve_account monitors policies m account).
Proof.
  destruct m as [bindings used conflicts]. unfold resolve_account. case_bool_decide as Hurl; [by constructor|]. cbv zeta.
  set (policy := policy_of policies (acc_ID account)).
  destruct (NormalizeEndpoint _) as [key|] eqn:Ekey; [|binds; unbound; congruence].
  destruct (pol_Excluded policy || negb (pol_Enabled policy)) eqn:Epolicy.
  { binds. unbound. by rewrite Hout, Hon in Epolicy. }
  apply orb_false_iff in Epolicy as [Hx He%negb_false_iff].
  destruct (pol_MonitorID policy) as [id|] eqn:Eid.
  - unfold resolve_manual. upd. rewrite monitorByID_last.
    destruct (last _) as [monitor|] eqn:Elast; [|binds; unbound; rewrite Eid in Hw; destruct Hw; congruence].
    destruct (providerCompatible _ _) eqn:Ecompatible; cbn [negb]; [|binds; unbound; rewrite Eid in Hw; destruct Hw; congruence].
    binds. split; [done|]. split; [done|]. intros monitor'. upd. split.
    + intros [= <-]. split; [done|]. exists key. cbn. by rewrite Eid.
    + intros (_ & key' & _ & Hw). upd in Hw. rewrite Eid in Hw. destruct Hw; congruence.
  - unfold resolve_auto. upd. rewrite monitorsByKey_filter.
    destruct (filter _ monitors) as [|monitor [|second rest]] eqn:Efilter;
      [binds; unbound; rewrite Eid in Hw; assert (key' = key) as -> by congruence; congruence| |binds; unbound; rewrite Eid in Hw; assert (key' = key) as -> by congruence; congruence].
    binds. split; [done|]. split; [done|]. intros monitor'. upd. split.
    + intros [= <-]. split; [done|]. exists key. cbn. by rewrite Eid.
    + intros (_ & key' & Hkey & Hw). upd in Hkey. upd in Hw. rewrite Eid in Hw. assert (key' = key) as -> by congruence. congruence.
Qed.

Definition has_url (account : Account) : Prop := trim_space (BaseURL account) ≠ "".
#[local] Instance has_url_dec account : Decision (has_url account) := _.

Definition matched (monitors : list Monitor) (policies : gmap Z Policy) (taken : list Account) (m : matching) : Prop :=
  rb_Account <$> mg_resolved m = filter has_url taken
  ∧ Forall (resolved monitors policies) (mg_resolved m)
  ∧ ∀ id, id ∈ mg_usedMonitors m ↔ ∃ b monitor, b ∈ mg_resolved m ∧ rb_Monitor b = Some monitor ∧ mon_ID monitor = id.

Lemma accounts_matched monitors policies accounts :
  matched monitors policies accounts (foldl (resolve_account monitors policies) (mkMatching [] ∅ []) accounts).
Proof.
  apply (foldl_done (matched monitors policies)).
  { split; [done|]. split; [constructor|]. intros id. split; [set_solver|]. by intros (b & ? & Hb%not_elem_of_nil & _). }
  intros taken account m (Haccounts & Hall & Hused). unfold matched. rewrite filter_app.
  destruct (resolve_account_adds monitors policies m account) as [Hurl|b m' Hurl Hb Hr Em' Eused].
  - by rewrite filter_cons_False, filter_nil, app_nil_r by (by intros []).
  - rewrite Em', fmap_app, Haccounts, filter_cons_True, filter_nil by done. cbn. rewrite Hb. split; [done|].
    rewrite Forall_app, Forall_singleton. split; [done|]. intros id. rewrite Eused. setoid_rewrite elem_of_app.
    setoid_rewrite list_elem_of_singleton.
    destruct (rb_Monitor b) as [monitor|] eqn:Em; [rewrite elem_of_union, elem_of_singleton|]; rewrite Hused; naive_solver.
Qed.
(** C27: of every account with an upstream address there is one binding, in the order of
    the identifiers. It carries a monitor exactly when it is bound, and exactly the one
    that watches the account: named by its policy and of its platform, or the only one of
    the platform at the account's normalised address, and only for a policy that is enabled
    and not excluded. The monitors returned as unmatched are those no binding carries. *)
Theorem ResolveBindings_correct monitors accounts policies :
  let '(bindings, unmatched, _) := ResolveBindings monitors accounts policies in
  rb_Account <$> bindings ≡ₚ filter has_url accounts
  ∧ StronglySorted (λ b b', acc_ID (rb_Account b) ≤ acc_ID (rb_Account b'))%Z bindings
  ∧ Forall (resolved monitors policies) bindings
  ∧ StronglySorted (λ m m', mon_ID m ≤ mon_ID m')%Z unmatched
  ∧ ∀ monitor, monitor ∈ unmatched ↔
      monitor ∈ monitors ∧ ∀ b m, b ∈ bindings → rb_Monitor b = Some m → mon_ID m ≠ mon_ID monitor.
Proof.
  unfold ResolveBindings. cbv zeta.
  destruct (accounts_matched monitors policies accounts) as (Haccounts & Hall & Hused).
  set (m := foldl _ _ accounts) in *.
  split; [|split; [|split; [|split]]].
  - by rewrite sort_slice_Permutation, Haccounts.
  - by apply sorted_by_key.
  - by rewrite sort_slice_Permutation.
  - by apply sorted_by_key.
  - intros monitor. rewrite elem_of_sort_slice, list_elem_of_filter, Hused. setoid_rewrite elem_of_sort_slice. naive_solver.
Qed.
End facts.
