(* ===== verification/EngineCalls.v ===== *)
(** * The reconciliation engine: its requests and its helpers

    [internal/reconcile/engine.go]: what the engine asks of its store, of Sub2API, of the
    barrier, of the coordinator and of account control, and the functions on controls,
    policies and accounts that its methods share. Account control works on the same store,
    transport and clock: its requests are among the engine's. *)

From S2P Require Import Prelude GoStd Float Model ModelHealth ModelFailover HealthV3 AccountTypes JsonText JsonRecords Requests Effects AccountService.
From S2P Require Import Intent.

Definition maxLaggingV3RecoveryAge : duration := (3 * minute)%Z.

Record DecisionSnapshot := mkDecisionSnapshot {
  ds_DecisionID : string;
  ds_MonitorID : option Z;
  ds_AccountID : option Z;
  ds_CheckedAt : time;
  ds_AvailabilityState : string;
  ds_LoadStage : string;
  ds_TargetLoadPercent : Z;
  ds_Action : string;
  ds_ActionResult : string;
  ds_ReasonCode : string;
  ds_Evidence : DecisionEvidence;
  ds_CreatedAt : time;
}.

(** [DecisionEvidence{}] *)
Definition no_decision_evidence : DecisionEvidence :=
  mkDecisionEvidence 0 0 (S754_zero false) (S754_zero false) 0 0 0 0 0 0 0 (S754_zero false) (S754_zero false)
    (S754_zero false) (S754_zero false).

(** How the engine was constructed: which optional interfaces the store offers. *)
Record Engine := mkEngine {
  e_startedAt : time;
  e_batch : bool;          (* [UpsertPolicies] *)
  e_transitions : bool;    (* [HasPendingAccountOverrideTransition] *)
  e_expiry : bool;         (* there is an expiry worker *)
}.

(** [AccountCall] carries the requests of the account service, which include those the engine
    makes of the store and the transport it shares with it. The snapshot, under its
    mutex, and the conflicts known are read and replaced. *)
Inductive EngineCall : Type → Type :=
  | AccountCall {R} (c : Call R) : EngineCall R
  (* the store *)
  | GetSettings : EngineCall (result error Settings)
  | UpdateSettings (settings : Settings) : EngineCall (result error unit)
  | SetAgentFreezeState (state : AgentFreezeState) : EngineCall (result error unit)
  | ListPolicies : EngineCall (result error (gmap Z Policy))
  | UpsertPolicy (policy : Policy) : EngineCall (result error unit)
  | UpsertPolicies (policies : list Policy) : EngineCall (result error unit)
  | GetMonitorState (monitorID : Z) : EngineCall (result error MonitorState)
  | UpsertMonitorState (state : MonitorState) : EngineCall (result error unit)
  | InsertMonitorObservation (observation : MonitorObservation) : EngineCall (result error bool)
  | ListMonitorObservations (monitorID : Z) (since : time) (limit : Z) : EngineCall (result error (list MonitorObservation))
  | ListMonitorHistory (monitorID : Z) (model : string) (limit : Z) : EngineCall (result error (list MonitorHistoryRecord))
  | GetTrafficWindow (accountID : Z) (since until : time) : EngineCall (result error TrafficWindow)
  | ListAccountModelCapabilities (accountID : Z) : EngineCall (result error (list AccountModelCapability))
  | CommitDecisionSnapshot (snapshot : DecisionSnapshot) (event : Event) : EngineCall (result error bool)
  | GetMonitorHealthState (monitorID : Z) : EngineCall (result error MonitorHealthState)
  | UpsertMonitorHealthState (state : MonitorHealthState) : EngineCall (result error unit)
  | DeleteMonitorObservationsBefore (before : time) : EngineCall (result error unit)
  | UpsertControl (control : AccountControl) : EngineCall (result error unit)
  | AddEvent (event : Event) : EngineCall (result error unit)
  | CountAutomaticPauses (accountID : Z) (since until : time) : EngineCall (result error Z)
  | CommitControlEvents (control : AccountControl) (events : list Event) : EngineCall (result error unit)
  | HasPendingAccountOverrideTransition (accountID : Z) (operation : Operation) : EngineCall (result error bool)
  (* Sub2API *)
  | ListMonitors : EngineCall (result error (list Monitor))
  (* the recovery of account control, which works on several goroutines *)
  | ReconcilePendingAccountMutations : EngineCall (result error unit)
  (* the barrier, the mutex [runMu], the snapshot, the conflicts *)
  | EnterMutation : EngineCall (result error unit)
  | LeaveMutation : EngineCall unit
  | EnterFreeze : EngineCall (result error unit)
  | LeaveFreeze : EngineCall unit
  | LockRun : EngineCall unit
  | UnlockRun : EngineCall unit
  | GetSnapshot : EngineCall Snapshot
  | ModifySnapshot (f : Snapshot → Snapshot) : EngineCall unit
  | GetConflicts : EngineCall (gset string)
  | SetConflicts (conflicts : gset string) : EngineCall unit
  (* the coordinator, the expiry worker *)
  | RequestAccountsFrom (source : string) (accountIDs : list Z) : EngineCall unit
  | RequestFullFrom (source : string) : EngineCall unit
  | WakeExpiry : EngineCall unit
  | SpawnCoordinator : EngineCall unit
  | SpawnExpiry : EngineCall unit
  (* the order in which a range over a map visits its keys, random numbers, the clock *)
  | RangeTexts (keys : list string) : EngineCall (list string)
  | NewCommandID : EngineCall (result error string)
  | EngineNow : EngineCall time.
Abbreviation prog := (Requests.prog EngineCall).

Definition account {R} (c : Call R) : prog R := call (AccountCall c).

(** A method of account control. *)
Definition control {A} (p : Effects.prog A) : prog A := lift (@AccountCall) p.

(** ** Controls, policies, accounts *)

Definition maxInt (left right : Z) : Z := if (right <? left)%Z then left else right.
Definition minInt (left right : Z) : Z := if (left <? right)%Z then left else right.

Definition sameLoadFactor (left right : option Z) : bool :=
  match left, right with
  | Some l, Some r => (l =? r)%Z
  | None, None => true
  | _, _ => false
  end.

Definition formatLoadFactor (value : option Z) : string :=
  match value with None => "default" | Some n => format_int n end.

Definition effectiveFreezeState (state : AgentFreezeState) (now : time) : FreezeState :=
  let mode := match fz_ExpiresAt state with
              | Some until => if negb (after until now) then AgentFreezeModeActive else fz_Mode state
              | None => fz_Mode state
              end in
  let view := mkFreezeState false false mode (fz_Reason state) (fz_Actor state) (fz_ExpiresAt state) (fz_UpdatedAt state) in
  if bool_decide (mode = AgentFreezeModeAgentPaused) then view <| fs_Agent := true |> else
  if bool_decide (mode = AgentFreezeModeReadOnly) || bool_decide (mode = AgentFreezeModeWritesFrozen)
  then view <| fs_Agent := true |> <| fs_AllAutomation := true |> else view.

Definition resolveFlapPolicy (settings : Settings) (policy : Policy) : FlapPolicy :=
  mkFlapPolicy (default true (pol_FlapEnabled policy))
    (default (st_FlapWindowMinutes settings) (pol_FlapWindowMinutes policy))
    (default (st_FlapPauseThreshold settings) (pol_FlapPauseThreshold policy))
    (default (st_FlapRecoveryThreshold settings) (pol_FlapRecoveryThreshold policy)).

Definition effectiveRecoveryThreshold (base : Z) (control : AccountControl) : Z :=
  if negb (ct_FlapActive control) then base else maxInt base (ct_FlapRecoveryRequired control).

Definition clearFlapState (control : AccountControl) : AccountControl :=
  control <| ct_FlapActive := false |> <| ct_FlapTriggeredAt := None |> <| ct_FlapRecoveryRequired := 0%Z |>.

Definition bindingMonitorID (binding : ResolvedBinding) : option Z := mon_ID <$> rb_Monitor binding.

Definition accountCanBeManaged (account : Account) (now : time) : bool :=
  if negb (bool_decide (acc_Status account = "active")) || negb (bool_decide (acc_ErrorMessage account = "")) then false else
  match acc_ExpiresAt account with
  | Some seconds => negb ((0 <? seconds)%Z && before (seconds * second)%Z now)
  | None => true
  end.

Definition isRecoveryLoadStage (stage : string) : bool :=
  bool_decide (stage = HealthStageRecovering25) || bool_decide (stage = HealthStageRecovering50)
  || bool_decide (stage = HealthStageRecovering80).

Definition loadControlExpired (control : AccountControl) (now : time) : bool :=
  match ct_LoadOverrideUntil control with Some until => negb (after until now) | None => false end
  || match ct_LoadPinUntil control with Some until => negb (after until now) | None => false end.

(** [int(math.Ceil(float64(base) * float64(percent) / 100))] *)
Definition share_of (base percent : Z) : Z := ceil_int (fdiv (fmul (of_int base) (of_int percent)) (of_int 100)).

Definition desiredLoadFactor (account : Account) (control : AccountControl) (percent : Z) : option Z :=
  let percent := if (percent <? 1)%Z then 1%Z else percent in
  let base :=
    if ct_OwnsLoadFactor control then
      match ct_OriginalLoadFactor control with
      | Some original => if (0 <? original)%Z then original else acc_Concurrency account
      | None => acc_Concurrency account
      end
    else match acc_LoadFactor account with
         | Some factor => if (0 <? factor)%Z then factor else acc_Concurrency account
         | None => acc_Concurrency account
         end in
  let base := if (base <? 1)%Z then 1%Z else base in
  let target := share_of base percent in
  Some (if (target <? 1)%Z then 1%Z else target).

Definition loadStageForPercent (percent : Z) : string :=
  if (percent <=? 25)%Z then HealthStageLimited25 else
  if (percent <=? 50)%Z then HealthStageLimited50 else
  if (percent <=? 80)%Z then HealthStageLimited80 else HealthStageHealthy.

Definition findBinding (bindings : list ResolvedBinding) (accountID : Z) : option ResolvedBinding :=
  List.find (λ binding, (acc_ID (rb_Account binding) =? accountID)%Z) bindings.

(** ** Events *)

Definition engine_event (kind severity : string) (monitorID accountID : option Z) (message before after details actor : string)
    (created : time) : Event :=
  mkEvent 0 0 0 kind severity monitorID accountID message before after (DetailsText details) actor created.

(** [record]: a failure is only logged. *)
Definition record (event : Event) : prog unit := _ ← call (AddEvent event); mret ().

Definition flapClearedEvent (accountID monitorID : option Z) (actor reason : string) (now : time) : Event :=
  engine_event "flap_protection_cleared" "info" monitorID accountID reason "flap_protected" "normal_recovery" "" actor now.

Definition healthStageSeverity (stage : string) : string :=
  if bool_decide (stage = HealthStageQuarantined) then "error" else
  if bool_decide (stage = HealthStageDegraded) || bool_decide (stage = HealthStageFrozen) then "warning" else "info".

Definition HealthStageLabels : list (string * string) :=
  [(HealthStageHealthy, "健康"); (HealthStageWatch, "观察"); (HealthStageDegraded, "性能下降");
   (HealthStageQuarantined, "已隔离"); (HealthStageRecovering25, "恢复试运行（25%）");
   (HealthStageRecovering50, "恢复试运行（50%）"); (HealthStageRecovering80, "恢复试运行（80%）");
   (HealthStageLimited25, "限制负载（25%）"); (HealthStageLimited50, "限制负载（50%）");
   (HealthStageLimited80, "限制负载（80%）"); (HealthStageFrozen, "数据冻结")].
Definition healthStageLabel (stage : string) : string :=
  match List.find (λ label, bool_decide (label.1 = stage)) HealthStageLabels with
  | Some label => label.2
  | None => "未知"
  end.

Section details.
Context `{JsonFloats}.

(** Keys in their order in the text, which is sorted. *)
Definition actionDetails (binding : ResolvedBinding) (control : AccountControl) (reason : string) : string :=
  json_object (
    optional "decision" json_decision (rb_Decision binding) ++
    member "load_stage" (json_string (ct_LoadStage control)) ++
    member "locks" (json_object [("balance", json_bool (ct_BalanceLocked control)); ("cost", json_bool (ct_CostLocked control));
                                 ("health", json_bool (ct_HealthLocked control)); ("manual", json_bool (ct_ManualLocked control))]) ++
    member "reason" (json_string reason) ++
    optional "reason_codes" (λ decision, json_slice (hd_ReasonCodes decision)) (rb_Decision binding)).
End details.

(** ** The freeze state *)

Definition FreezeState_read : prog (result error FreezeState) :=
  try state ← account (GetAgentFreezeState "global" "") catch err => mret (Err err);
  now ← call EngineNow;
  mret (Ok (effectiveFreezeState state now)).

Definition ensureActorAutomationAllowed `{UnicodeTables} (actor : string) : prog (option error) :=
  if negb (String.prefix "agent:" (to_lower (trim_space actor))) then mret None else
  try state ← FreezeState_read catch err => mret (Some (Errorf "读取自动化冻结状态失败" err));
  if fs_AllAutomation state then mret (Some (NewError "全部自动化已冻结，智能体写操作被拒绝")) else
  if fs_Agent state then mret (Some (NewError "智能体已冻结，写操作被拒绝")) else
  mret None.
