(* ===== verification/EngineHealth.v ===== *)
(** * What the engine learns of a monitor

    [internal/reconcile/engine.go]: the streaks of a monitor, the stage of its health, and
    the decision the third policy takes from its history, the account's traffic and the
    account's policy. *)

From S2P Require Import Prelude GoStd Float TimeText JsonText Sha256 Model ModelHealth ModelFailover HealthV3 Health AccountTypes JsonRecords Requests Effects EngineCalls.

(** [math.Round]: halves away from zero. *)
Definition fround (x : float64) : float64 :=
  match x with
  | S754_finite s m e =>
      if (0 <=? e)%Z then x else
      let n := ((Z.pos m + 2 ^ (- e - 1)) / 2 ^ (- e))%Z in
      if (n =? 0)%Z then S754_zero s else of_int (if s then (- n)%Z else n)
  | _ => x
  end.
#[global] Arguments fround _ : simpl never.

(** The conversion of a float without fraction. *)
Definition float_int (x : float64) : Z := ceil_int x.

Definition v3CheckFromHistory (item : MonitorHistoryRecord) : Check :=
  let check := mkCheck (mh_CheckedAt item) (mh_Status item) (mh_StatusCode item) "" (mh_LatencyMS item) false 6000 in
  let class := mh_ErrorClass item in
  if bool_decide (class = ErrorClassCredential) then
    check <| ck_HTTPStatus := 401%Z |> <| ck_Message := "credential rejected" |> else
  if bool_decide (class = ErrorClassInfrastructure) then
    (if (ck_HTTPStatus check =? 0)%Z then check <| ck_HTTPStatus := 502%Z |> else check) <| ck_Message := "upstream timeout" |> else
  if bool_decide (class = ErrorClassCapacity) then
    check <| ck_HTTPStatus := 429%Z |> <| ck_Message := "rate limit" |> else
  if bool_decide (class = ErrorClassSemantic) then check <| ck_Message := "challenge mismatch" |> else
  if bool_decide (class = ErrorClassClient) then check <| ck_Message := "invalid parameter" |> else
  if bool_decide (class = ErrorClassModelCapability) then check <| ck_Message := "model not found" |> else
  check.

Definition healthDecisionFromResult (result : V3Result) (capabilities : list AccountModelCapability) : HealthDecision :=
  mkHealthDecision (vr_QualityScore result) (vr_HardSuccessRate10 result) (vr_HardSuccessRate60 result)
    (vr_DegradedRate10 result) (vr_DegradedRate60 result) (vr_TrafficSuccessRate result) (vr_TrafficSampleCount result)
    (vr_HardFailureStreak result) (vr_HardFailures10 result) 0 (vr_SuggestedLoadPercent result) (vr_Action result)
    (vr_Disagreement result) (vr_ResponseP90MS result) (vr_BaselineLatencyMS result) (vr_ReasonCodes result)
    (vr_ErrorCategoryCounts result) capabilities (vr_CheckedAt result).

Definition normalizePercentPointer (value : option float64) : option float64 :=
  match value with
  | None => None
  | Some value => Some (if fle (of_int 0) value && fle value (of_int 1) then fmul value (of_int 100) else value)
  end.

(** The loop runs from the last check back. *)
Fixpoint leading_successes (checks : list ClassifiedCheck) : Z :=
  match checks with
  | [] => 0
  | check :: checks =>
      if negb (cc_CountedInAvailability check) || negb (cc_AvailabilitySuccess check) then 0%Z
      else (1 + leading_successes checks)%Z
  end.
Definition trailingV3Successes (checks : list ClassifiedCheck) : Z := leading_successes (reverse checks).

Definition trailingSignalCount (checks : list ClassifiedCheck) (class : SignalClass) : Z :=
  leading_class_count (reverse checks) class.

Definition countRate (rate : float64) (samples : Z) : Z := float_int (fround (fdiv (fmul rate (of_int samples)) (of_int 100))).

Definition seven_tenths : float64 := dyadic 6305039478318694 (-53).
Definition three_tenths : float64 := dyadic 5404319552844595 (-54).
Definition v3Confidence (monitorSamples trafficSamples : Z) : float64 :=
  let monitorPart := fmul (fmin (of_int 1) (fdiv (of_int monitorSamples) (of_int 60))) seven_tenths in
  let trafficPart := fmul (fmin (of_int 1) (fdiv (of_int trafficSamples) (of_int 20))) three_tenths in
  fdiv (fround (fmul (fadd monitorPart trafficPart) (of_int 1000))) (of_int 1000).

Definition decisionSeverity (result : V3Result) : string :=
  if vr_Pause result then "error" else if (vr_RecommendedLoad result <? 100)%Z then "warning" else "info".

Section health.
Context `{UnicodeTables, JsonFloats}.

Definition v3LatencyBaseline (checks : list Check) : float64 :=
  let values := sort_slice Z.ltb (ck_LatencyMS <$>
    List.filter (λ check, cc_AvailabilitySuccess (ClassifyCheck check) && (0 <? ck_LatencyMS check)%Z) checks) in
  match values with
  | [] => of_int 0
  | _ =>
      let middle := (length values / 2)%nat in
      if (length values mod 2 =? 1)%nat then of_int (nth middle values 0%Z)
      else fdiv (of_int (wrap64 (nth (middle - 1) values 0 + nth middle values 0)%Z)) (of_int 2)
  end.

(** ** The streaks of a monitor *)

(** Three intervals, and three minutes at least. *)
Definition stale_after (monitor : Monitor) : duration :=
  let staleAfter := wrap64 (wrap64 (mon_IntervalSeconds monitor * 3) * second) in
  if (staleAfter <? 3 * minute)%Z then (3 * minute)%Z else staleAfter.

Definition freeze_phase (state : MonitorState) : MonitorState :=
  state <| ms_Phase := PhaseFrozen |> <| ms_HealthyStreak := 0%Z |> <| ms_UnhealthyStreak := 0%Z |>.

(** The state a new check leads to. *)
Definition count_status (monitor : Monitor) (checked : time) (state : MonitorState) : MonitorState :=
  let state := state <| ms_LastCheckedAt := Some checked |> <| ms_LastStatus := mon_PrimaryStatus monitor |> in
  let status := mon_PrimaryStatus monitor in
  if bool_decide (status = StatusOperational) then
    state <| ms_HealthyStreak := (ms_HealthyStreak state + 1)%Z |> <| ms_UnhealthyStreak := 0%Z |> <| ms_Phase := PhaseHealthy |> else
  if bool_decide (status = StatusFailed) || bool_decide (status = StatusError) then
    state <| ms_UnhealthyStreak := (ms_UnhealthyStreak state + 1)%Z |> <| ms_HealthyStreak := 0%Z |> <| ms_Phase := PhaseUnhealthy |> else
  state <| ms_HealthyStreak := 0%Z |> <| ms_UnhealthyStreak := 0%Z |>
        <| ms_Phase := if bool_decide (status = StatusDegraded) then PhaseDegraded else PhaseUnknown |>.

(** The state to return, and whether it is written. *)
Definition next_monitor_state (monitor : Monitor) (now : time) (state : MonitorState) : MonitorState * bool :=
  match mon_LastCheckedAt monitor with
  | Some checked =>
      if negb (mon_Enabled monitor) then (freeze_phase state, true) else
      if (stale_after monitor <? sub_time now checked)%Z then (freeze_phase state, true) else
      if bool_decide (ms_LastCheckedAt state = Some checked) then (state, false) else
      (count_status monitor checked state, true)
  | None => (freeze_phase state, true)
  end.

Definition advanceMonitorState (monitor : Monitor) (now : time) : prog (result error MonitorState) :=
  try state ← call (GetMonitorState (mon_ID monitor)) catch err => mret (Err err);
  let '(state, changed) := next_monitor_state monitor now state in
  if negb changed then mret (Ok state) else
  try _ ← call (UpsertMonitorState state) catch err => mret (Err err);
  mret (Ok state).

Definition stage_changed_event (monitor : Monitor) (previous state : MonitorHealthState) (now : time) : Event :=
  engine_event "health_stage_changed" (healthStageSeverity (hs_Stage state)) (Some (mon_ID monitor)) None
    ("渠道健康阶段由" +:+ healthStageLabel (hs_Stage previous) +:+ "变为" +:+ healthStageLabel (hs_Stage state))
    (hs_Stage previous) (hs_Stage state) (hs_ReasonJSON state) "system" now.

Definition would_event (kind message : string) (monitor : Monitor) (state : MonitorHealthState) (now : time) : Event :=
  engine_event kind "warning" (Some (mon_ID monitor)) None message "" "" (hs_ReasonJSON state) "system" now.

Definition advanceHealthState (monitor : Monitor) (settings : Settings) (now : time) : prog (result error MonitorHealthState) :=
  try previous ← call (GetMonitorHealthState (mon_ID monitor)) catch err => mret (Err err);
  try observations ← call (ListMonitorObservations (mon_ID monitor) (now + - 24 * hour)%Z 2500) catch err => mret (Err err);
  let '(state, observation) := Evaluate monitor observations previous settings now in
  try inserted ← (if negb (is_zero_time (obs_CheckedAt observation)) then call (InsertMonitorObservation observation)
                  else mret (Ok false)) catch err => mret (Err err);
  try _ ← call (UpsertMonitorHealthState state) catch err => mret (Err err);
  (if negb (bool_decide (hs_Stage previous = "")) && negb (bool_decide (hs_Stage previous = hs_Stage state))
   then record (stage_changed_event monitor previous state now) else mret ());;
  (if (inserted : bool) && bool_decide (st_HealthMode settings = HealthModeObserve) then
     if bool_decide (hs_Stage state = HealthStageDegraded)
     then record (would_event "would_reduce_load" "智能判定建议降低渠道负载" monitor state now) else
     if bool_decide (hs_Stage state = HealthStageQuarantined)
     then record (would_event "would_quarantine" "智能判定建议隔离渠道" monitor state now) else mret ()
   else mret ());;
  mret (Ok state).

(** ** The decision of the third policy *)

(** [history] is the newest first; the evaluator reads in the order of time. *)
Definition checks_of (history : list MonitorHistoryRecord) (resolved : Settings) : list Check :=
  (λ item, (v3CheckFromHistory item) <| ck_SlowThresholdMS := st_HealthLatencyWarningMS resolved |>) <$> reverse history.

Definition v3_input (binding : ResolvedBinding) (monitor : Monitor) (resolved : Settings) (checks : list Check)
    (traffic : TrafficWindow) : V3Input :=
  mkV3Input checks (v3LatencyBaseline checks) (normalizePercentPointer (mon_Availability7D monitor))
    (mkRealTraffic (tw_EligibleCount traffic) (tw_SuccessCount traffic))
    (maxInt 20 (st_HealthMinSamples resolved)) (maxInt 1 (rb_FailureThreshold binding))
    (maxInt (st_HealthHardFailures10 resolved) (rb_FailureThreshold binding))
    (of_int (st_HealthTrafficPauseBelow resolved)) (of_int (st_HealthTrafficHealthyAt resolved))
    (st_HealthLatencyWarningMS resolved) (st_HealthLatencyCriticalMS resolved)
    (of_int (st_HealthHealthyScore resolved)) (of_int (st_HealthWatchScore resolved))
    (of_int (st_HealthQuarantineScore resolved)) (of_int (st_HealthPersistentSlowRate resolved)).

Definition decision_of (result : V3Result) (capabilities : list AccountModelCapability) (latest : time) : HealthDecision :=
  let decision := (healthDecisionFromResult result capabilities) <| hd_RecoverySuccessStreak := trailingV3Successes (vr_Checks result) |> in
  if is_zero_time (hd_CheckedAt decision) then decision <| hd_CheckedAt := latest |> else decision.

Definition evidence_of (result : V3Result) (traffic traffic60 : TrafficWindow) : DecisionEvidence :=
  let checks := Z.of_nat (length (vr_Checks result)) in
  mkDecisionEvidence (vr_HardFailureStreak result) (vr_HardFailures10 result) (vr_HardSuccessRate10 result)
    (vr_HardSuccessRate60 result) (countRate (vr_DegradedRate10 result) (minInt checks 10))
    (countRate (vr_DegradedRate60 result) (minInt checks 60)) (trailingSignalCount (vr_Checks result) SignalPerformanceSlow)
    (vr_ResponseP90MS result) (float_int (fround (vr_BaselineLatencyMS result)))
    (tw_SuccessCount traffic) (maxInt 0 (tw_EligibleCount traffic - tw_SuccessCount traffic)) (tw_SuccessRate traffic)
    (tw_SuccessRate traffic60) (vr_QualityScore result) (v3Confidence checks (tw_EligibleCount traffic)).

Definition snapshot_of (settings : Settings) (monitorID accountID : Z) (result : V3Result) (decision : HealthDecision)
    (traffic traffic60 : TrafficWindow) (now : time) : DecisionSnapshot :=
  let actionResult := if bool_decide (st_HealthMode settings = HealthModeObserve) then "proposed" else
                      if bool_decide (st_HealthMode settings = HealthModeAdaptive) then "eligible" else "informational" in
  let availability := if vr_Pause result then PhaseUnhealthy else
                      if (vr_RecommendedLoad result <? 100)%Z then PhaseDegraded else PhaseHealthy in
  mkDecisionSnapshot
    (sha256_hex ("v3:" +:+ format_int monitorID +:+ ":" +:+ format_int accountID +:+ ":" +:+ formatTime (hd_CheckedAt decision)))
    (Some monitorID) (Some accountID) (hd_CheckedAt decision) availability (loadStageForPercent (vr_RecommendedLoad result))
    (vr_RecommendedLoad result) (vr_Action result) actionResult (default "healthy" (head (hd_ReasonCodes decision)))
    (evidence_of result traffic traffic60) now.

Definition decision_event (binding : ResolvedBinding) (monitorID : Z) (result : V3Result) (decision : HealthDecision)
    (now : time) : Event :=
  engine_event "health_decision_snapshot" (decisionSeverity result) (Some monitorID) (Some (acc_ID (rb_Account binding)))
    "已生成第三版渠道决策" (formatLoadFactor (acc_LoadFactor (rb_Account binding)))
    (vr_Action result +:+ ":" +:+ format_int (vr_RecommendedLoad result) +:+ "%") (json_decision decision) "system" now.

(** The monitor is bound, and its state is neither frozen nor unknown. *)
Definition informed (binding : ResolvedBinding) : option Monitor :=
  if negb (bool_decide (rb_State binding = "bound")) || bool_decide (ms_Phase (rb_MonitorState binding) = PhaseFrozen)
     || bool_decide (ms_Phase (rb_MonitorState binding) = PhaseUnknown) then None else rb_Monitor binding.

Definition evaluateV3Decision (binding : ResolvedBinding) (now : time) (settings : Settings) : prog (result error (option HealthDecision)) :=
  match informed binding with
  | None => mret (Ok None)
  | Some monitor =>
  let accountID := acc_ID (rb_Account binding) in
  let failed text id text' err := mret (Err (Errorf (text +:+ format_int id +:+ text') err)) in
  try history ← call (ListMonitorHistory (mon_ID monitor) (mon_PrimaryModel monitor) 60)
    catch err => failed "读取监控 " (mon_ID monitor) " 第三版证据失败" err;
  match history, mon_LastCheckedAt monitor with
  | newest :: _, Some _ =>
      let resolved := ResolveSettings settings (rb_Policy binding) in
      try traffic ← call (GetTrafficWindow accountID (now + - 10 * minute)%Z (now + 1)%Z)
        catch err => failed "读取账号 " accountID " 真实流量失败" err;
      try traffic60 ← call (GetTrafficWindow accountID (now + - hour)%Z (now + 1)%Z)
        catch err => failed "读取账号 " accountID " 一小时真实流量失败" err;
      let result := EvaluateV3 (v3_input binding monitor resolved (checks_of history resolved) traffic) in
      try capabilities ← call (ListAccountModelCapabilities accountID)
        catch err => failed "读取账号 " accountID " 模型能力失败" err;
      let decision := decision_of result capabilities (mh_CheckedAt newest) in
      try _ ← call (CommitDecisionSnapshot (snapshot_of settings (mon_ID monitor) accountID result decision traffic traffic60 now)
                      (decision_event binding (mon_ID monitor) result decision now))
        catch err => failed "保存账号 " accountID " 第三版决策失败" err;
      mret (Ok (Some decision))
  | _, _ => mret (Ok None)
  end
  end.
End health.
