(* ===== verification/EngineControl.v ===== *)
(** * How a decision moves an account's control

    [internal/reconcile/engine.go]: the health lock and the stage of the load, which the
    adaptive mode moves by the decision of the third policy. Recovery goes through
    twenty-five, fifty and eighty percent, each held for a time. *)

From S2P Require Import Prelude GoStd Float Model ModelHealth ModelFailover HealthV3 AccountTypes JsonRecords Requests Effects EngineCalls.

Definition canUseLaggingV3Recovery (binding : ResolvedBinding) (decision : HealthDecision)
    (decisionCheckedAt monitorCheckedAt now : time) : bool :=
  match rb_Monitor binding with
  | None => false
  | Some monitor =>
      if negb (bool_decide (mon_PrimaryStatus monitor = StatusOperational))
         || negb (bool_decide (ms_Phase (rb_MonitorState binding) = PhaseHealthy)) then false else
      let required := maxInt 1 (rb_RecoveryThreshold binding) in
      if (hd_RecoverySuccessStreak decision <? required)%Z || (ms_HealthyStreak (rb_MonitorState binding) <? required)%Z then false else
      let lag := sub_time monitorCheckedAt decisionCheckedAt in
      let age := sub_time now decisionCheckedAt in
      (0 <? lag)%Z && (lag <=? maxLaggingV3RecoveryAge)%Z && (0 <=? age)%Z && (age <=? maxLaggingV3RecoveryAge)%Z
  end.

(** A stage with its step, and when it began. *)
Definition set_stage (stage : string) (step : Z) (started : option time) (control : AccountControl) : AccountControl :=
  control <| ct_LoadStage := stage |> <| ct_RecoveryStep := step |> <| ct_RecoveryStartedAt := started |>.

(** What one recovery stage needs: the load suggested to stay and to move on, the stage to
    fall back to, how many holds it lasts, and what follows it. *)
Definition base_hold (settings : Settings) : duration :=
  let baseHold := wrap64 (st_HealthTrialMinutes settings * minute) in
  if (baseHold <? minute)%Z then (5 * minute)%Z else baseHold.

Definition advance_stage (stay move : Z) (fallback : string) (hold : duration) (next : AccountControl → AccountControl)
    (decision : HealthDecision) (now started : time) (allowRegression : bool) (control : AccountControl) : AccountControl :=
  if (hd_SuggestedLoadPercent decision <? stay)%Z then
    if allowRegression then set_stage fallback 0 None control else control
  else if (move <=? hd_SuggestedLoadPercent decision)%Z && (hold <=? sub_time now started)%Z then next control
  else control.

Definition advanceV3RecoveryStage (binding : ResolvedBinding) (control : AccountControl) (settings : Settings) (now : time)
    (allowRegression : bool) : AccountControl :=
  match rb_Decision binding with
  | None => control
  | Some decision =>
      let stageStarted := default now (ct_RecoveryStartedAt control) in
      let control := control <| ct_RecoveryStartedAt := Some stageStarted |> in
      let baseHold := base_hold settings in
      let stage := ct_LoadStage control in
      if bool_decide (stage = HealthStageRecovering25) then
        advance_stage 25 50 HealthStageLimited25 baseHold (set_stage HealthStageRecovering50 2 (Some now))
          decision now stageStarted allowRegression control else
      if bool_decide (stage = HealthStageRecovering50) then
        advance_stage 50 80 HealthStageLimited25 (wrap64 (2 * baseHold)) (set_stage HealthStageRecovering80 3 (Some now))
          decision now stageStarted allowRegression control else
      if bool_decide (stage = HealthStageRecovering80) then
        advance_stage 80 100 (loadStageForPercent (hd_SuggestedLoadPercent decision)) (wrap64 (3 * baseHold))
          (λ control, control <| ct_LoadStage := HealthStageHealthy |> <| ct_RecoveryStep := 4%Z |>)
          decision now stageStarted allowRegression control
      else control
  end.

(** The load returns to full from a limited stage: through the recovery stages. *)
Definition begin_recovery (now : time) (control : AccountControl) : AccountControl :=
  let stage := ct_LoadStage control in
  if bool_decide (stage = HealthStageLimited25) then set_stage HealthStageRecovering25 1 (Some now) control else
  if bool_decide (stage = HealthStageLimited50) then set_stage HealthStageRecovering50 2 (Some now) control else
  if bool_decide (stage = HealthStageLimited80) then set_stage HealthStageRecovering80 3 (Some now) control else
  control <| ct_LoadStage := HealthStageHealthy |>.

Section control.
Context `{JsonFloats}.

Definition recovery_event (binding : ResolvedBinding) (decision : HealthDecision) (now : time) : Event :=
  engine_event "health_recovery_started" "info" (bindingMonitorID binding) (Some (acc_ID (rb_Account binding)))
    "硬可用性连续恢复，进入百分之二十五试运行" "" "" (json_decision decision) "system" now.

(** The event, if any, is recorded when the control has been moved. *)
Definition advanceV3HealthControl (binding : ResolvedBinding) (control : AccountControl) (settings : Settings) (now : time)
    : AccountControl * option Event :=
  match rb_Decision binding, rb_Monitor binding ≫= mon_LastCheckedAt with
  | Some decision, Some monitorCheckedAt =>
      let phase := ms_Phase (rb_MonitorState binding) in
      if bool_decide (phase = PhaseFrozen) || bool_decide (phase = PhaseUnknown) || is_zero_time (hd_CheckedAt decision)
      then (control, None) else
      let decisionCheckedAt := hd_CheckedAt decision in
      let decisionBehind := before decisionCheckedAt monitorCheckedAt in
      if bool_decide (hd_Action decision = RecommendationPause) then
        if decisionBehind then (control, None) else
        (set_stage HealthStageQuarantined 0 None (control <| ct_HealthLocked := true |>), None)
      else if decisionBehind && negb (canUseLaggingV3Recovery binding decision decisionCheckedAt monitorCheckedAt now)
      then (control, None)
      else if ct_HealthLocked control then
        if (hd_RecoverySuccessStreak decision <? rb_RecoveryThreshold binding)%Z
           || negb (accountCanBeManaged (rb_Account binding) now) then (control, None) else
        (set_stage HealthStageRecovering25 1 (Some now) (control <| ct_HealthLocked := false |>),
         Some (recovery_event binding decision now))
      else if decisionBehind then
        (if ct_OwnsLoadFactor control && isRecoveryLoadStage (ct_LoadStage control)
         then advanceV3RecoveryStage binding control settings now false else control, None)
      else if isRecoveryLoadStage (ct_LoadStage control) then
        (advanceV3RecoveryStage binding control settings now true, None)
      else
        let targetStage := loadStageForPercent (hd_SuggestedLoadPercent decision) in
        if bool_decide (targetStage = HealthStageHealthy) && ct_OwnsLoadFactor control
        then (begin_recovery now control, None)
        else (set_stage targetStage 0 None control, None)
  | _, _ => (control, None)
  end.

Definition advanceAdaptiveHealthControl (binding : ResolvedBinding) (control : AccountControl) (settings : Settings) (now : time)
    : AccountControl * option Event :=
  match rb_Monitor binding with
  | None => (control, None)
  | Some _ =>
      if negb (bool_decide (rb_State binding = "bound")) then (control, None) else
      if negb (acc_Schedulable (rb_Account binding)) && negb (ct_OwnsPause control) then (control, None) else
      match rb_Decision binding with
      | Some _ => advanceV3HealthControl binding control settings now
      | None =>
          (if negb (ct_HealthLocked control) && bool_decide (ct_LoadStage control = "")
           then control <| ct_LoadStage := HealthStageFrozen |> else control, None)
      end
  end.

(** The health lock in the legacy mode. *)
Definition legacy_health_lock (binding : ResolvedBinding) (now : time) (control : AccountControl) : AccountControl :=
  let phase := ms_Phase (rb_MonitorState binding) in
  let healthUsable := bool_decide (rb_State binding = "bound") && bool_decide (is_Some (rb_Monitor binding))
                      && negb (bool_decide (phase = PhaseFrozen)) && negb (bool_decide (phase = PhaseUnknown)) in
  let manageable := accountCanBeManaged (rb_Account binding) now in
  let control :=
    if healthUsable && bool_decide (phase = PhaseUnhealthy)
       && (rb_FailureThreshold binding <=? ms_UnhealthyStreak (rb_MonitorState binding))%Z && manageable
    then control <| ct_HealthLocked := true |> else control in
  if healthUsable && bool_decide (phase = PhaseHealthy)
     && (rb_RecoveryThreshold binding <=? ms_HealthyStreak (rb_MonitorState binding))%Z && manageable
  then control <| ct_HealthLocked := false |> else control.
End control.

(** * The health lock and the recovery of the load keep to the evidence

    What one decision may do to the control of an account, and what a sequence of them
    cannot: a decision older than the monitor's last check neither locks nor lowers, and an
    account that was locked is back at full load only after three holds. *)

(** The part of the load a stage lets through. *)
Definition stage_share (stage : string) : Z :=
  if bool_decide (stage = HealthStageQuarantined) then 0 else
  if bool_decide (stage ∈ [HealthStageLimited25; HealthStageRecovering25]) then 25 else
  if bool_decide (stage ∈ [HealthStageLimited50; HealthStageRecovering50; HealthStageDegraded]) then 50 else
  if bool_decide (stage ∈ [HealthStageLimited80; HealthStageRecovering80]) then 80 else 100.

(** The decision of a bound monitor in a known state, and the monitor's last check. *)
Definition decided (binding : ResolvedBinding) (decision : HealthDecision) (checked : time) : Prop :=
  rb_State binding = "bound" ∧ rb_Decision binding = Some decision
  ∧ rb_Monitor binding ≫= mon_LastCheckedAt = Some checked
  ∧ ms_Phase (rb_MonitorState binding) ∉ [PhaseFrozen; PhaseUnknown].

(** The fields the health policy moves; the others are left as they are. *)
Definition moves_health_only (c c' : AccountControl) : Prop :=
  c' = c <| ct_HealthLocked := ct_HealthLocked c' |> <| ct_LoadStage := ct_LoadStage c' |>
         <| ct_RecoveryStep := ct_RecoveryStep c' |> <| ct_RecoveryStartedAt := ct_RecoveryStartedAt c' |>.

Section facts.
Context `{JsonFloats}.

(** What happens to the control, in the words of the source. *)
Inductive moved (binding : ResolvedBinding) (settings : Settings) (now : time) (c : AccountControl) : AccountControl → option Event → Prop :=
  | Unmoved : moved binding settings now c c None
  | Unobserved : ct_HealthLocked c = false → ct_LoadStage c = "" →
      moved binding settings now c (c <| ct_LoadStage := HealthStageFrozen |>) None
  | Locks decision checked :
      decided binding decision checked → hd_Action decision = RecommendationPause → (checked ≤ hd_CheckedAt decision)%Z →
      moved binding settings now c (set_stage HealthStageQuarantined 0 None (c <| ct_HealthLocked := true |>)) None
  | Unlocks decision checked :
      decided binding decision checked → hd_Action decision ≠ RecommendationPause → ct_HealthLocked c = true →
      (rb_RecoveryThreshold binding ≤ hd_RecoverySuccessStreak decision)%Z → accountCanBeManaged (rb_Account binding) now = true →
      moved binding settings now c (set_stage HealthStageRecovering25 1 (Some now) (c <| ct_HealthLocked := false |>))
        (Some (recovery_event binding decision now))
  | Recovers decision checked allowRegression :
      decided binding decision checked → ct_HealthLocked c = false → isRecoveryLoadStage (ct_LoadStage c) = true →
      (allowRegression = true → checked ≤ hd_CheckedAt decision)%Z →
      moved binding settings now c (advanceV3RecoveryStage binding c settings now allowRegression) None
  | Begins decision checked :
      decided binding decision checked → ct_HealthLocked c = false → ct_OwnsLoadFactor c = true →
      isRecoveryLoadStage (ct_LoadStage c) = false → (checked ≤ hd_CheckedAt decision)%Z →
      moved binding settings now c (begin_recovery now c) None
  | Limits decision checked :
      decided binding decision checked → ct_HealthLocked c = false → isRecoveryLoadStage (ct_LoadStage c) = false →
      (checked ≤ hd_CheckedAt decision)%Z →
      (loadStageForPercent (hd_SuggestedLoadPercent decision) = HealthStageHealthy → ct_OwnsLoadFactor c = false) →
      moved binding settings now c (set_stage (loadStageForPercent (hd_SuggestedLoadPercent decision)) 0 None c) None.

Lemma advance_moved binding c settings now :
  moved binding settings now c (advanceAdaptiveHealthControl binding c settings now).1 (advanceAdaptiveHealthControl binding c settings now).2.
Proof.
  unfold advanceAdaptiveHealthControl. destruct (rb_Monitor binding) as [monitor|] eqn:Emonitor; [|constructor].
  destruct (bool_decide (rb_State binding = "bound")) eqn:Estate; cbn [negb]; [|constructor].
  destruct (negb _ && _); [constructor|]. apply bool_decide_eq_true in Estate.
  destruct (rb_Decision binding) as [decision|] eqn:Edecision.
  2: { destruct (ct_HealthLocked c) eqn:El; cbn [negb andb fst snd]; [constructor|]. case_bool_decide; by constructor. }
  unfold advanceV3HealthControl. rewrite Edecision, Emonitor. cbn [mbind option_bind].
  destruct (mon_LastCheckedAt monitor) as [checked|] eqn:Echecked; [|constructor].
  destruct (_ || _ || _) eqn:Ephase; [constructor|]. bool_facts.
  assert (decided binding decision checked) as Hdecided.
  { split; [done|]. split; [done|]. rewrite Emonitor. cbn. split; [done|]. set_solver. }
  case_bool_decide as Haction.
  { destruct (before _ _) eqn:Ebehind; [constructor|]. eapply Locks; [done..|]. unfold before in Ebehind. by bool_facts. }
  destruct (_ && negb _); [constructor|]. destruct (ct_HealthLocked c) eqn:Elocked.
  { destruct (_ || _) eqn:Eready; [constructor|]. bool_facts. by eapply Unlocks. }
  destruct (before _ _) eqn:Ebehind.
  { destruct (_ && isRecoveryLoadStage _) eqn:Erecovering; [|constructor]. bool_facts. by eapply Recovers. }
  unfold before in Ebehind. bool_facts.
  destruct (isRecoveryLoadStage _) eqn:Erecovering; [by eapply Recovers|].
  destruct (bool_decide _ && ct_OwnsLoadFactor c) eqn:Ebegins; bool_facts; [by eapply Begins|].
  eapply Limits; [done..|]. intros Ehealthy. by apply andb_false_iff in Ebegins as [Hne%bool_decide_eq_false|?].
Qed.

(** ** One recovery stage *)

(** What follows a stage: the load suggested for it, and the holds before it. *)
Definition next_stage (stage : string) : option (string * Z * Z) :=
  if bool_decide (stage = HealthStageRecovering25) then Some (HealthStageRecovering50, 50, 1)%Z else
  if bool_decide (stage = HealthStageRecovering50) then Some (HealthStageRecovering80, 80, 2)%Z else
  if bool_decide (stage = HealthStageRecovering80) then Some (HealthStageHealthy, 100, 3)%Z else None.

Inductive stage_step (decision : HealthDecision) (settings : Settings) (now started : time) (allowRegression : bool)
    (c c' : AccountControl) : Prop :=
  | Holds : ct_LoadStage c' = ct_LoadStage c → ct_RecoveryStartedAt c' = Some started →
      stage_step decision settings now started allowRegression c c'
  | Advances next move holds :
      next_stage (ct_LoadStage c) = Some (next, move, holds) → (move ≤ hd_SuggestedLoadPercent decision)%Z →
      (wrap64 (holds * base_hold settings) ≤ sub_time now started)%Z →
      ct_LoadStage c' = next → ct_RecoveryStartedAt c' = Some now ∨ next = HealthStageHealthy →
      stage_step decision settings now started allowRegression c c'
  | FallsBack :
      allowRegression = true → ct_LoadStage c' ∈ [HealthStageLimited25; HealthStageLimited50; HealthStageLimited80] →
      stage_step decision settings now started allowRegression c c'.

Lemma base_hold_positive settings : (minute ≤ base_hold settings)%Z.
Proof. unfold base_hold. destruct (_ <? _)%Z eqn:E; bool_facts; unfold minute, second in *; lia. Qed.

Lemma base_hold_int settings : in_int64 (base_hold settings).
Proof.
  unfold base_hold. destruct (_ <? _)%Z; [unfold in_int64, minute, second; lia|]. unfold in_int64, wrap64.
  pose proof (Z.mod_pos_bound (st_HealthTrialMinutes settings * minute + 2 ^ 63) (2 ^ 64)). lia.
Qed.

Lemma limited_percent percent : (percent < 80)%Z →
  loadStageForPercent percent ∈ [HealthStageLimited25; HealthStageLimited50; HealthStageLimited80].
Proof. intros Hp. unfold loadStageForPercent. repeat (case_goal; [listed|]). bool_facts. lia. Qed.

Lemma recovery_step binding c settings now allow decision :
  rb_Decision binding = Some decision → isRecoveryLoadStage (ct_LoadStage c) = true →
  let c' := advanceV3RecoveryStage binding c settings now allow in
  ct_HealthLocked c' = ct_HealthLocked c ∧ moves_health_only c c'
  ∧ stage_step decision settings now (default now (ct_RecoveryStartedAt c)) allow c c'.
Proof.
  intros Hd Hr. unfold advanceV3RecoveryStage, advance_stage. rewrite Hd. cbv zeta.
  set (started := default now (ct_RecoveryStartedAt c)). destruct c. upd. cbn in Hr.
  clear Hd. assert (ct_LoadStage = HealthStageRecovering25 ∨ ct_LoadStage = HealthStageRecovering50
          ∨ ct_LoadStage = HealthStageRecovering80) as [->|[->| ->]].
  { unfold isRecoveryLoadStage in Hr. rewrite !orb_true_iff, !bool_decide_eq_true in Hr. naive_solver. }
  all: repeat first [rewrite bool_decide_true by done | rewrite bool_decide_false by done];
    (destruct (_ <? _)%Z eqn:Estay; [destruct allow|destruct (_ && _) eqn:Emove]); (split; [done|]); (split; [done|]);
    try (by apply Holds); bool_facts.
  all: try (apply FallsBack; [done|]; cbn; first [listed | by apply limited_percent]).
  - eapply Advances; [done|done|by rewrite Z.mul_1_l, wrap64_id by apply base_hold_int|done|by left].
  - eapply Advances; [done..|by left].
  - eapply Advances; [done..|by right].
Qed.

Lemma moved_health_only binding settings now c c' event : moved binding settings now c c' event → moves_health_only c c'.
Proof.
  intros [| | | |decision checked allow (_ & Hd & _) _ Hr _| |]; try (by destruct c).
  - by apply (recovery_step binding c settings now allow decision Hd Hr).
  - unfold begin_recovery. repeat case_bool_decide; by destruct c.
Qed.

Definition behind (binding : ResolvedBinding) : Prop :=
  ∃ decision checked, rb_Decision binding = Some decision ∧ rb_Monitor binding ≫= mon_LastCheckedAt = Some checked
  ∧ (hd_CheckedAt decision < checked)%Z.

Lemma behind_decided binding decision checked :
  decided binding decision checked → behind binding → (checked ≤ hd_CheckedAt decision)%Z → False.
Proof. intros (_ & Hd & Hm & _) (d & m & Hd' & Hm' & Hb) Hle. simplify_eq. lia. Qed.

Lemma share_next stage next move holds :
  next_stage stage = Some (next, move, holds) → (stage_share stage ≤ stage_share next)%Z.
Proof. unfold next_stage. repeat case_bool_decide; intros [= <- _ _]; subst; vm_compute; congruence. Qed.

Lemma recovering_share binding c settings now decision :
  rb_Decision binding = Some decision → isRecoveryLoadStage (ct_LoadStage c) = true →
  (stage_share (ct_LoadStage c) ≤ stage_share (ct_LoadStage (advanceV3RecoveryStage binding c settings now false)))%Z.
Proof.
  intros Hd Hr. destruct (recovery_step binding c settings now false decision Hd Hr) as (_ & _ & [-> _|next move holds Hn _ _ -> _|]); [done| |done].
  by eapply share_next.
Qed.

Ltac control_fields := unfold set_stage, begin_recovery; read_fields.

(** C23: one decision locks an account only when it is a pause that is not older than the
    monitor's last check, of a bound monitor in a known state; it unlocks only after the
    successes the account needs, for an account that can be managed, and to a quarter of
    the load, with an event. A decision older than the last check neither locks nor lowers
    the load. Nothing but the lock and the stage of the load is touched. *)
Theorem health_control_moves binding c settings now :
  let '(c', event) := advanceAdaptiveHealthControl binding c settings now in
  moves_health_only c c'
  ∧ (ct_HealthLocked c = false → ct_HealthLocked c' = true →
       ct_LoadStage c' = HealthStageQuarantined ∧
       ∃ decision checked, decided binding decision checked ∧ hd_Action decision = RecommendationPause ∧ (checked ≤ hd_CheckedAt decision)%Z)
  ∧ (ct_HealthLocked c = true → ct_HealthLocked c' = false →
       ct_LoadStage c' = HealthStageRecovering25 ∧ ct_RecoveryStartedAt c' = Some now ∧ is_Some event
       ∧ accountCanBeManaged (rb_Account binding) now = true
       ∧ ∃ decision checked, decided binding decision checked ∧ hd_Action decision ≠ RecommendationPause
           ∧ (rb_RecoveryThreshold binding ≤ hd_RecoverySuccessStreak decision)%Z)
  ∧ (behind binding → ct_HealthLocked c = false →
       ct_HealthLocked c' = false ∧ (stage_share (ct_LoadStage c) ≤ stage_share (ct_LoadStage c'))%Z).
Proof.
  pose proof (advance_moved binding c settings now) as Hmoved.
  destruct (advanceAdaptiveHealthControl binding c settings now) as [c' event]. cbn in Hmoved.
  split; [by eapply moved_health_only|].
  destruct Hmoved as [|Hl Hs|decision checked Hd Ha Hc|decision checked Hd Ha Hl Hr Hm|decision checked allow Hd Hl Hr Hc
    |decision checked Hd Hl Ho Hr Hc|decision checked Hd Hl Hr Hc Hn].
  - split; [congruence|]. split; [congruence|]. done.
  - control_fields. split; [congruence|]. split; [congruence|]. intros _ _. split; [done|]. rewrite Hs. vm_compute. congruence.
  - control_fields. split; [intros _ _; split; [done|eauto]|]. split; [done|]. intros Hb. by destruct (behind_decided _ _ _ Hd Hb).
  - control_fields. split; [done|]. split; [|congruence]. intros _ _. eauto 10.
  - destruct Hd as (Hs & Hd & Hrest). destruct (recovery_step binding c settings now allow decision Hd Hr) as (Hlock & _ & Hstep).
    split; [congruence|]. split; [congruence|]. intros Hb _. split; [congruence|].
    destruct allow; [|by eapply recovering_share]. by destruct (behind_decided binding decision checked (conj Hs (conj Hd Hrest)) Hb (Hc eq_refl)).
  - unfold begin_recovery. repeat case_bool_decide; control_fields; (split; [congruence|]);
      (split; [congruence|]); intros Hb; by destruct (behind_decided _ _ _ Hd Hb).
  - control_fields. split; [congruence|]. split; [congruence|]. intros Hb; by destruct (behind_decided _ _ _ Hd Hb).
Qed.

(** ** Sequences of decisions *)

(** Between two decisions others may change the control, but not what the health policy
    keeps in it; and when a decision is made on an account that is not locked, the policy
    owns its load. *)
Definition same_health (c c' : AccountControl) : Prop :=
  ct_HealthLocked c' = ct_HealthLocked c ∧ ct_LoadStage c' = ct_LoadStage c ∧ ct_RecoveryStartedAt c' = ct_RecoveryStartedAt c
  ∧ (ct_HealthLocked c' = false → ct_OwnsLoadFactor c' = true).

(** One decision at a time [now], with stages of at least [hold]. *)
Inductive pass (hold : duration) : AccountControl * time → AccountControl * time → Prop :=
  | Pass c t binding c0 settings now :
      (t ≤ now)%Z → (hold ≤ base_hold settings)%Z → (3 * base_hold settings < 2 ^ 63)%Z → same_health c c0 →
      pass hold (c, t) ((advanceAdaptiveHealthControl binding c0 settings now).1, now).

(** The account was unlocked at [u], in a pass of the sequence. *)
Definition unlocked_at (hold : duration) (start : AccountControl * time) (u : time) (state : AccountControl * time) : Prop :=
  ∃ before after, rtc (pass hold) start before ∧ ct_HealthLocked before.1 = true
  ∧ pass hold before (after, u) ∧ ct_HealthLocked after = false ∧ rtc (pass hold) (after, u) state.

(** What has been earned since. *)
Definition earned (hold : duration) (u t : time) (c : AccountControl) : Prop :=
  (u ≤ t)%Z ∧
  (ct_LoadStage c ∈ [HealthStageLimited25; HealthStageLimited50; HealthStageLimited80]
   ∨ isRecoveryLoadStage (ct_LoadStage c) = true ∧ (∃ s, ct_RecoveryStartedAt c = Some s ∧ u ≤ s)%Z
   ∨ (u + 3 * hold ≤ t)%Z).

Lemma begin_earned hold u t now c :
  earned hold u t c → (t ≤ now)%Z → isRecoveryLoadStage (ct_LoadStage c) = false → earned hold u now (begin_recovery now c).
Proof.
  intros (Hu & Hstage) Hnow Hr. split; [lia|]. unfold begin_recovery.
  destruct Hstage as [Hin|[[Hyes _]|H3]]; [|congruence|right; right; lia].
  right; left. rewrite !elem_of_cons, elem_of_nil in Hin.
  destruct Hin as [->|[->|[->|[]]]]; repeat first [rewrite bool_decide_true by done | rewrite bool_decide_false by done];
    control_fields; (split; [done|]); exists now; (split; [done|lia]).
Qed.

Lemma percent_earned hold u t percent c :
  (u ≤ t)%Z → (loadStageForPercent percent = HealthStageHealthy → (u + 3 * hold ≤ t)%Z) → earned hold u t (set_stage (loadStageForPercent percent) 0 None c).
Proof.
  intros Hu Hh. split; [done|]. control_fields. revert Hh. unfold loadStageForPercent. repeat (case_goal; [intros _; left; listed|]).
  intros Hh. right; right. by apply Hh.
Qed.

Lemma recovery_earned hold u t now binding settings c decision allow :
  earned hold u t c → (t ≤ now)%Z → (0 ≤ hold ≤ base_hold settings)%Z → (3 * base_hold settings < 2 ^ 63)%Z →
  rb_Decision binding = Some decision → isRecoveryLoadStage (ct_LoadStage c) = true →
  earned hold u now (advanceV3RecoveryStage binding c settings now allow).
Proof.
  intros (Hu & Hstage) Hnow Hhold Hmax Hd Hr. split; [lia|].
  destruct Hstage as [Hin|[(_ & s & Hs & Hus)|H3]]; [|..|right; right; lia].
  { rewrite !elem_of_cons, elem_of_nil in Hin. by destruct Hin as [E|[E|[E|[]]]]; rewrite E in Hr. }
  destruct (recovery_step binding c settings now allow decision Hd Hr) as (_ & _ & Hstep). rewrite Hs in Hstep. cbn in Hstep.
  destruct Hstep as [Hsame Hstarted|next move holds Hn _ Hlong Hnext Hstarted|_ Hlimited]; [right; left|right|by left].
  - rewrite Hsame. eauto.
  - rewrite Hnext. unfold next_stage in Hn. repeat (case_bool_decide; [injection Hn as <- <- <-|]); [..|done].
    1-2: left; destruct Hstarted as [Hstarted|]; [|done]; (split; [done|]); exists now; (split; [done|lia]).
    right. rewrite wrap64_id in Hlong by (unfold in_int64; pose proof (base_hold_positive settings); unfold minute, second in *; lia).
    unfold sub_time in Hlong. pose proof (base_hold_positive settings). unfold minute, second in *. lia.
Qed.

Lemma pass_earned hold u t c binding settings now c0 :
  (0 ≤ hold ≤ base_hold settings)%Z → (3 * base_hold settings < 2 ^ 63)%Z → (t ≤ now)%Z → ct_OwnsLoadFactor c0 = true →
  ct_HealthLocked c0 = false → earned hold u t c0 → c = (advanceAdaptiveHealthControl binding c0 settings now).1 →
  ct_HealthLocked c = false → earned hold u now c.
Proof.
  intros Hhold Hmax Hnow Hown Hl He ->. pose proof (advance_moved binding c0 settings now) as Hmoved.
  assert ((u ≤ now)%Z) as Hu by (destruct He; lia).
  destruct Hmoved as [|_ Hs|decision checked|decision checked Hd Ha Hlocked|decision checked allow Hd _ Hr Hc
    |decision checked Hd _ Ho Hr Hc|decision checked Hd _ Hr Hc Hn].
  - destruct He as (_ & Hstage). intros _. split; [done|]. destruct Hstage as [|[|]]; [by left|by right; left|right; right; lia].
  - destruct He as (_ & Hstage). rewrite Hs in Hstage. intros _. split; [done|]. destruct Hstage as [Hin|[[]|]]; [|done|right; right; lia].
    by rewrite !elem_of_cons, elem_of_nil in Hin; destruct Hin as [|[|[|[]]]].
  - control_fields. done.
  - congruence.
  - intros _. destruct Hd as (_ & Hd & _). by eapply recovery_earned.
  - intros _. by eapply begin_earned.
  - intros _. apply percent_earned; [done|]. intros E. rewrite (Hn E) in Hown. done.
Qed.

Lemma unlocked_later hold start u state state' :
  unlocked_at hold start u state → pass hold state state' → unlocked_at hold start u state'.
Proof. intros (b & a & ? & ? & ? & ? & ?) Hp. exists b, a. do 4 (split; [done|]). by eapply rtc_r. Qed.

Lemma sequence_earned hold start state :
  (0 ≤ hold)%Z → ct_HealthLocked start.1 = true → rtc (pass hold) start state → ct_HealthLocked state.1 = false →
  ∃ u, unlocked_at hold start u state ∧ earned hold u state.2 state.1.
Proof.
  intros Hhold Hstart Hrtc. revert state Hrtc. apply (rtc_ind_r (λ state : AccountControl * time, ct_HealthLocked state.1 = false →
    ∃ u, unlocked_at hold start u state ∧ earned hold u state.2 state.1)); [congruence|].
  intros state state' Hrtc Hp IH Hfree.
  destruct (ct_HealthLocked state.1) eqn:Elocked.
  - destruct Hp as [c t binding c0 settings now Hnow Hbase Hmax (Hl & Hs & Hr & Ho)]. cbn in *.
    exists now. split; [exists (c, t), (advanceAdaptiveHealthControl binding c0 settings now).1; by repeat (split; [done || by constructor|])|].
    split; [done|]. pose proof (health_control_moves binding c0 settings now) as Hmoves.
    destruct (advanceAdaptiveHealthControl binding c0 settings now) as [c' event]. cbn in *.
    destruct Hmoves as (_ & _ & Hunlock & _). destruct Hunlock as (Hstage & Hat & _); [congruence|done|].
    right; left. rewrite Hstage. split; [done|]. exists now. split; [done|lia].
  - destruct (IH eq_refl) as (u & Hu & He). exists u. split; [by eapply unlocked_later|].
    destruct Hp as [c t binding c0 settings now Hnow Hbase Hmax (Hl & Hs & Hr & Ho)]. cbn in *.
    eapply (pass_earned hold u t _ binding settings now c0); [lia|done|done|apply Ho; congruence|congruence| |done|done].
    destruct He as [Hut Hstage]. split; [done|]. by rewrite Hs, Hr.
Qed.

(** C24: an account that the policy locked is at full load again only when it was unlocked
    and three holds have passed since, however the decisions went in between, provided
    that from its unlocking on the policy owns its load factor whenever a decision is made,
    that nobody else changes the health policy's fields, and that the settings of no
    decision ask for shorter stages. (An account whose load factor is not the policy's
    returns at once, as [unowned_load_returns_at_once] computes.) *)
Theorem full_load_is_earned hold start state :
  (0 ≤ hold)%Z → ct_HealthLocked start.1 = true → rtc (pass hold) start state →
  ct_HealthLocked state.1 = false → ct_LoadStage state.1 = HealthStageHealthy →
  ∃ u, unlocked_at hold start u state ∧ (u + 3 * hold ≤ state.2)%Z.
Proof.
  intros Hhold Hstart Hrtc Hfree Hfull. destruct (sequence_earned hold start state) as (u & Hu & Hut & He); [done..|].
  exists u. split; [done|]. rewrite Hfull in He. destruct He as [Hin|[[]|]]; [|done..].
  by rewrite !elem_of_cons, elem_of_nil in Hin; destruct Hin as [|[|[|[]]]].
Qed.
End facts.

(** A monitor whose last check is also the decision's, for full load, at minute [n]. *)
Definition healthy_at (n : Z) : ResolvedBinding :=
  let decision := mkHealthDecision (of_int 100) (of_int 100) (of_int 100) (of_int 0) (of_int 0) (of_int 0) 0 0 0 5 100 "full" false 0
    (of_int 0) [] ∅ [] (n * minute)%Z in
  let monitor := mkMonitor 5 "watch" "openai" "https://relay.example" "m" true 60 (Some (n * minute)%Z) "operational" 0 None [] [] false in
  no_binding <| rb_Monitor := Some monitor |> <| rb_State := "bound" |> <| rb_Decision := Some decision |>
    <| rb_MonitorState := mkMonitorState 5 None "operational" 5 0 PhaseHealthy zero_time |> <| rb_RecoveryThreshold := 3%Z |>
    <| rb_Account := (rb_Account no_binding) <| acc_Status := "active" |> <| acc_Schedulable := true |> |>.

Definition locked_control : AccountControl :=
  no_control <| ct_HealthLocked := true |> <| ct_LoadStage := HealthStageQuarantined |> <| ct_OwnsLoadFactor := true |>.

#[local] Instance no_floats : JsonFloats := λ _, "0".

Definition at_minute (c : AccountControl) (n : Z) : AccountControl * time :=
  ((advanceAdaptiveHealthControl (healthy_at n) c (sn_Settings no_snapshot) (n * minute)%Z).1, (n * minute)%Z).

Definition recovered : AccountControl * time :=
  at_minute (at_minute (at_minute (at_minute locked_control 10).1 15).1 25).1 40.

Lemma pass_at c n m :
  (n ≤ m)%Z → ct_OwnsLoadFactor c = true → pass (5 * minute)%Z (c, (n * minute)%Z) (at_minute c m).
Proof. intros Hnm Ho. constructor; [unfold minute, second; lia|by vm_compute..|by split_and!]. Qed.

Lemma full_load_is_earned_witness :
  ct_LoadStage recovered.1 = HealthStageHealthy
  ∧ ∃ u, unlocked_at (5 * minute)%Z (locked_control, 0%Z) u recovered ∧ (u + 3 * (5 * minute) ≤ recovered.2)%Z.
Proof.
  split; [by vm_compute|]. apply full_load_is_earned; [by vm_compute|done| |by vm_compute|by vm_compute].
  apply (rtc_r _ (at_minute (at_minute (at_minute locked_control 10).1 15).1 25)); [|by apply (pass_at _ 25); vm_compute].
  apply (rtc_r _ (at_minute (at_minute locked_control 10).1 15)); [|by apply (pass_at _ 15); vm_compute].
  apply (rtc_r _ (at_minute locked_control 10)); [|by apply (pass_at _ 10); vm_compute].
  by apply rtc_once, (pass_at _ 0); vm_compute.
Defined.

(** Without the ownership: two decisions after the unlocking the account is at full load,
    all at one instant, the first of the two having asked for a tenth of the load. *)
Definition tenth_of_the_load (binding : ResolvedBinding) : ResolvedBinding :=
  binding <| rb_Decision := (λ decision, decision <| hd_SuggestedLoadPercent := 10%Z |>) <$> rb_Decision binding |>.
Definition decide_at (binding : ResolvedBinding) (c : AccountControl) : AccountControl :=
  (advanceAdaptiveHealthControl binding c (sn_Settings no_snapshot) (10 * minute)%Z).1.
Example unowned_load_returns_at_once :
  let unlocked := decide_at (healthy_at 10) (locked_control <| ct_OwnsLoadFactor := false |>) in
  let limited := decide_at (tenth_of_the_load (healthy_at 10)) unlocked in
  let full := decide_at (healthy_at 10) limited in
  (ct_HealthLocked unlocked, ct_LoadStage <$> [unlocked; limited; full])
  = (false, [HealthStageRecovering25; HealthStageLimited25; HealthStageHealthy]).
Proof. vm_compute. reflexivity. Qed.
