(* ===== verification/EngineAccounts.v ===== *)
(** * What the engine asks of account control

    [internal/reconcile/engine.go] and [account_control.go]: the intents of the policy,
    with an identity made of the policy, of what was observed and of the overrides; and
    what a reconciliation of one account submits: its load, a pause, a resumption. *)

From S2P Require Import Prelude GoStd Float TimeText JsonText Sha256 Intent Model ModelHealth ModelFailover HealthV3 AccountTypes Bridge JsonRecords Requests Effects AccountService EngineCalls EngineHealth EngineControl.

(** ** Identities *)

(** The bytes written to the hash are those of [deriveDigest] of the bridge. *)
Definition stableDigest (prefix : string) (values : list string) : string :=
  prefix +:+ sha256_hex (digest_input values).
#[global] Arguments stableDigest : simpl never.

Definition stablePolicyVersion (policy : Policy) : string :=
  match pol_ScorePolicyVersionID policy with
  | Some id => "score-policy:" +:+ format_int id
  | None => stableDigest "policy-v1-" [json_policy policy]
  end.

(** ** Errors *)

(** [errors.As] for the errors of account control. *)
Fixpoint as_blocked (e : error) : option Result :=
  match e with
  | BlockedError result => Some result
  | Errorf _ cause | MutationStateError _ (Some cause) => as_blocked cause
  | _ => None
  end.
Fixpoint as_mutation_state (e : error) : option Result :=
  match e with
  | MutationStateError result _ => Some result
  | Errorf _ cause => as_mutation_state cause
  | _ => None
  end.

Definition expectedPolicyBlock (err : option error) : bool :=
  match err ≫= as_blocked with
  | Some result => bool_decide (rs_BlockedReason result ∈ [BlockWritesFrozen; BlockStaleTelemetry; BlockCooldown])
  | None => false
  end.

Record AccountReconcileIssue := mkAccountReconcileIssue {
  is_AccountID : Z;
  is_Status : MutationStatus;
  is_Code : string;
  is_Err : error;
}.

Definition accountReconcileIssue (accountID : Z) (err : error) : AccountReconcileIssue :=
  let issue := mkAccountReconcileIssue accountID StatusFailed "account_error" err in
  match as_blocked err with
  | Some result => issue <| is_Status := StatusBlocked |> <| is_Code := rs_BlockedReason result |>
  | None =>
      match as_mutation_state err with
      | Some result =>
          let code := rs_BlockedReason result in
          issue <| is_Status := rs_Status result |>
                <| is_Code := if bool_decide (code = "") then "mutation_" +:+ rs_Status result else code |>
      | None => issue
      end
  end.

Section accounts.
Context `{UnicodeTables, JsonFloats} (e : Engine).

Definition AccountReconcileIssue_Error (i : AccountReconcileIssue) : string :=
  "account " +:+ format_int (is_AccountID i) +:+ " reconcile " +:+ is_Status i +:+ " (" +:+ is_Code i +:+ "): " +:+ error_text (is_Err i).
Definition AccountReconcileErrors_Error (issues : list AccountReconcileIssue) : string :=
  String.concat "; " (AccountReconcileIssue_Error <$> issues).

(** ** Submitting *)

Definition submitAccountMutation (commandContext : option CommandContext) (submission : Submission) : prog answer :=
  let command := CommandContextFrom commandContext in
  answer ← (if cc_AutomationLeaseHeld command then control (Submit commandContext submission) else
            try _ ← call EnterMutation catch err => mret (no_answer, Some (Errorf "等待账号 mutation 冻结屏障" err));
            answer ← control (Submit commandContext submission);
            _ ← call LeaveMutation;
            mret answer);
  (if e_expiry e then call WakeExpiry else mret ());;
  mret answer.

(** ** The intents of the policy *)

(** When the binding was last observed. *)
Definition observed_at (binding : ResolvedBinding) : time :=
  let created := ms_UpdatedAt (rb_MonitorState binding) in
  let created := match rb_Decision binding with
                 | Some decision => if is_zero_time (hd_CheckedAt decision) then created else hd_CheckedAt decision
                 | None => created
                 end in
  let created := match rb_Monitor binding ≫= mon_LastCheckedAt with
                 | Some checked => if after checked created then checked else created
                 | None => created
                 end in
  if is_zero_time created then acc_UpdatedAt (rb_Account binding) else created.

Definition observation_json (binding : ResolvedBinding) : string :=
  json_object [("MonitorState", json_monitor_state (rb_MonitorState binding)); ("HealthState", json_health_state (rb_HealthState binding));
               ("Decision", json_pointer json_decision (rb_Decision binding));
               ("AccountUpdated", json_time (acc_UpdatedAt (rb_Account binding)))].

(** The watermark, its time, and whether the monitor is not stale. *)
Definition stableSnapshotVersion (binding : ResolvedBinding) : prog (string * time * bool) :=
  let created := observed_at binding in
  if is_zero_time created then mret ("", zero_time, false) else
  fresh ← match rb_Monitor binding with
          | Some monitor =>
              match mon_LastCheckedAt monitor with
              | Some checked => now ← call EngineNow; mret (sub_time now checked <=? stale_after monitor)%Z
              | None => mret true
              end
          | None => mret true
          end;
  mret (stableDigest "snapshot-v1-" [observation_json binding], created, fresh : bool).

Definition policyContext (binding : ResolvedBinding) (operation : Operation) (reason : string)
    : prog (result error (LegacyContext * SafetyContext)) :=
  let policyVersion := stablePolicyVersion (rb_Policy binding) in
  watermark ← stableSnapshotVersion binding;
  let '(snapshotVersion, created, fresh) := watermark in
  if bool_decide (snapshotVersion = "") || is_zero_time created
  then mret (Err (NewError "policy action lacks an actual observation watermark")) else
  try revision ← control (ArbitrationRevision (acc_ID (rb_Account binding)) operation)
    catch err => mret (Err (Errorf "load account override revision" err));
  let sourceID := policyVersion +:+ ":" +:+ snapshotVersion +:+ ":" +:+ stableDigest "override-revision-v1-" [revision] in
  mret (Ok (mkLegacyContext SourcePolicyDecision sourceID "scheduler" reason [] policyVersion snapshotVersion created None,
            mkSafetyContext fresh (ct_FlapActive (rb_Control binding)))).

Definition mapped_intent (conversion : ConversionResult) : result error Intent :=
  match MappedIntent conversion with Ok intent => Ok intent | Err text => Err (NewError text) end.

Definition policySchedulableIntent (binding : ResolvedBinding) (desired : bool) (reason : string)
    : prog (result error (Intent * SafetyContext)) :=
  try context ← policyContext binding OperationSetAccountSchedulable reason catch err => mret (Err err);
  let '(legacy, safety) := context in
  let conversion := AdaptPolicyAccountSchedulable (mkAccountSchedulableInput legacy (acc_ID (rb_Account binding)) desired) in
  mret (intent ← mapped_intent conversion; Ok (intent, safety)).

Definition policyLoadIntent (binding : ResolvedBinding) (desired : option Z) (reason : string)
    : prog (result error (Intent * SafetyContext)) :=
  try context ← policyContext binding OperationSetAccountLoadFactor reason catch err => mret (Err err);
  let '(legacy, safety) := context in
  let conversion := AdaptPolicyAccountLoadFactor (mkAccountLoadFactorInput legacy (acc_ID (rb_Account binding)) desired) in
  mret (intent ← mapped_intent conversion; Ok (intent, safety)).

(** [Event{Type: kind, Severity: severity, MonitorID: id, Message: message}] *)
Definition bare_event (kind severity : string) (monitorID : option Z) (message : string) : Event :=
  (event_of_type kind) <| ev_Severity := severity |> <| ev_MonitorID := monitorID |> <| ev_Message := message |>.

Definition policy_submission (intent : Intent) (safety : SafetyContext) (event : Event) (flap : option FlapPolicy) : Submission :=
  mkSubmission (in_ID intent) intent "" "" false "" "" safety event flap.

(** The end the four methods below share: a block the policy expects is no error, and what
    was verified is noted in the binding. *)
Definition note_load (binding : ResolvedBinding) (result : Result) : ResolvedBinding :=
  match rs_VerifiedAfter result with
  | Some state => binding <| rb_Account := (rb_Account binding) <| acc_LoadFactor := AccountTypes.st_LoadFactor state |> |>
  | None => binding
  end.
Definition note_schedulable (binding : ResolvedBinding) (result : Result) : ResolvedBinding :=
  match rs_VerifiedAfter result with
  | Some state => binding <| rb_Account := (rb_Account binding) <| acc_Schedulable := AccountTypes.st_Schedulable state |> |>
  | None => binding
  end.
Definition settle (note : ResolvedBinding → Result → ResolvedBinding) (binding : ResolvedBinding) (answer : answer)
    : ResolvedBinding * option error :=
  if expectedPolicyBlock answer.2 then (binding, None) else
  match answer.2 with
  | Some err => (binding, Some err)
  | None => (note binding answer.1, None)
  end.

(** An intent from the binding as [asked], and what came of it noted in [binding]. *)
Definition submit_load (binding : ResolvedBinding) (desired : option Z) (reason : string) (event : Event) : prog (ResolvedBinding * option error) :=
  try intent ← policyLoadIntent binding desired reason catch err => mret (binding, Some err);
  let '(intent, safety) := intent in
  answer ← submitAccountMutation None (policy_submission intent safety event None);
  mret (settle note_load binding answer).
Definition submit_schedulable (binding asked : ResolvedBinding) (desired : bool) (reason : string) (event : Event) (flap : option FlapPolicy)
    : prog (ResolvedBinding * option error) :=
  try intent ← policySchedulableIntent asked desired reason catch err => mret (binding, Some err);
  let '(intent, safety) := intent in
  answer ← submitAccountMutation None (policy_submission intent safety event flap);
  mret (settle note_schedulable binding answer).

Definition would_load_event (kind severity message details : string) (binding : ResolvedBinding) (desired : option Z) (now : time) : Event :=
  engine_event kind severity (bindingMonitorID binding) (Some (acc_ID (rb_Account binding))) message
    (formatLoadFactor (acc_LoadFactor (rb_Account binding))) (formatLoadFactor desired) details "system" now.

Definition as_option {A} (r : result error A) : option error := match r with Ok _ => None | Err err => Some err end.

(** ** The load of an account *)

Definition automaticLoadNoopNone : string := "".
Definition automaticLoadNoopSuppress : string := "suppress".
Definition automaticLoadNoopRepairProjection : string := "repair_projection".

Definition projection_matches (control : AccountControl) (desired : option Z) (restore : bool) : bool :=
  if restore then
    sameLoadFactor (ct_ExpectedLoadFactor control) desired && negb (ct_OwnsLoadFactor control)
    && bool_decide (ct_OriginalLoadFactor control = None) && bool_decide (ct_LoadPinValue control = None)
    && bool_decide (ct_LoadPinUntil control = None) && bool_decide (ct_LoadOverrideUntil control = None)
  else sameLoadFactor (ct_ExpectedLoadFactor control) desired && ct_OwnsLoadFactor control.

Definition automaticLoadNoopDisposition (binding : ResolvedBinding) (control : AccountControl) (desired : option Z) (now : time)
    (restore : bool) : prog (result error string) :=
  let accountID := acc_ID (rb_Account binding) in
  if negb (sameLoadFactor (acc_LoadFactor (rb_Account binding)) desired) then mret (Ok automaticLoadNoopNone) else
  try pending ← account (ListPendingAccountMutations 1000) catch err => mret (Err err);
  if existsb (λ mutation, (mu_AccountID mutation =? accountID)%Z
                          && bool_decide (mu_Operation mutation = OperationSetAccountLoadFactor)) pending
  then mret (Ok automaticLoadNoopNone) else
  try overrides ← account (ListActiveAccountOverrides accountID OperationSetAccountLoadFactor now) catch err => mret (Err err);
  if (0 <? length overrides)%nat then mret (Ok automaticLoadNoopNone) else
  if negb (e_transitions e) then mret (Ok automaticLoadNoopNone) else
  try hasPending ← call (HasPendingAccountOverrideTransition accountID OperationSetAccountLoadFactor) catch err => mret (Err err);
  mret (Ok (if hasPending : bool then automaticLoadNoopNone else
            if projection_matches control desired restore then automaticLoadNoopSuppress else
            if restore || ct_OwnsLoadFactor control then automaticLoadNoopRepairProjection else automaticLoadNoopNone)).

Definition repaired_projection (control : AccountControl) (desired : option Z) (restore : bool) : AccountControl :=
  let control := control <| ct_ExpectedLoadFactor := desired |> <| ct_LastDecision := "projection_reconciled" |> in
  if restore then
    (set_stage HealthStageHealthy 0 None control) <| ct_OwnsLoadFactor := false |> <| ct_OriginalLoadFactor := None |>
      <| ct_LoadOverrideUntil := None |> <| ct_LoadPinValue := None |> <| ct_LoadPinUntil := None |>
      <| ct_LoadPinOwner := "" |> <| ct_LoadPinReason := "" |>
  else control.

Definition recordDesiredAlreadyApplied (binding : ResolvedBinding) (control : AccountControl) (desired : option Z) (now : time)
    : prog (option error) :=
  let accountID := acc_ID (rb_Account binding) in
  let seed := "desired_already_applied:" +:+ format_int accountID +:+ ":" +:+ ct_LoadStage control +:+ ":" +:+ formatLoadFactor desired in
  let snapshot := mkDecisionSnapshot (sha256_hex seed) (bindingMonitorID binding) (Some accountID) now "no_change" (ct_LoadStage control)
    0 "no_change" "desired_already_applied" "desired_already_applied" no_decision_evidence now in
  let event := engine_event "desired_already_applied" "info" (bindingMonitorID binding) (Some accountID)
    "自动策略目标已由上游和本地投影满足，未创建账号 Mutation" (formatLoadFactor desired) (formatLoadFactor desired) "" "system" now in
  inserted ← call (CommitDecisionSnapshot snapshot event);
  mret (as_option inserted).

(** The load the stage asks for, and whether it is the policy's own again. *)
Definition stage_load (binding : ResolvedBinding) (control : AccountControl) (settings : Settings) (now : time) : option (option Z * bool) :=
  let stage := ct_LoadStage control in
  let limited percent := Some (desiredLoadFactor (rb_Account binding) control percent, false) in
  if bool_decide (stage = HealthStageLimited80) then limited 80%Z else
  if bool_decide (stage = HealthStageLimited50) || bool_decide (stage = HealthStageDegraded) then limited (st_HealthDegradedPercent settings) else
  if bool_decide (stage = HealthStageLimited25) || bool_decide (stage = HealthStageRecovering25) then limited (st_HealthTrialPercent settings) else
  if bool_decide (stage = HealthStageRecovering50) then limited (st_HealthMidPercent settings) else
  if bool_decide (stage = HealthStageRecovering80) then limited 80%Z else
  if bool_decide (stage = HealthStageHealthy) && (ct_OwnsLoadFactor control || loadControlExpired control now)
  then Some (ct_OriginalLoadFactor control, true) else None.

Definition reasonForAdaptiveLoad (restore : bool) : string :=
  if restore then "账号健康恢复后还原原始负载" else "账号负载已按渠道健康状态调整".

Definition reconcileAdaptiveLoad (binding : ResolvedBinding) (control : AccountControl) (settings : Settings) (now : time)
    : prog (ResolvedBinding * AccountControl * option error) :=
  if negb (bool_decide (rb_State binding = "bound")) || bool_decide (rb_Monitor binding = None) then mret (binding, control, None) else
  match stage_load binding control settings now with
  | None => mret (binding, control, None)
  | Some (desired, restore) =>
  let '(eventType, message, severity) :=
    if (restore : bool) then ("load_factor_restored", "账号已恢复策略基线负载", "info")
    else ("load_factor_adjusted", "账号负载已按渠道健康状态调整", "warning") in
  if st_DryRun settings then
    committed ← call (CommitControlEvents control
      [would_load_event ("would_" +:+ eventType) severity message (actionDetails binding control message) binding desired now]);
    mret (binding, control, as_option committed)
  else
  try disposition ← automaticLoadNoopDisposition binding control desired now restore catch err => mret (binding, control, Some err);
  if negb (bool_decide (disposition = automaticLoadNoopNone)) then
    if bool_decide (disposition = automaticLoadNoopRepairProjection) then
      let control := repaired_projection control desired restore in
      try _ ← call (UpsertControl control) catch err => mret (binding, control, Some err);
      let binding := binding <| rb_Control := control |> in
      err ← recordDesiredAlreadyApplied binding control desired now;
      mret (binding, control, err)
    else
      err ← recordDesiredAlreadyApplied binding control desired now;
      mret (binding, control, err)
  else
  outcome ← submit_load binding desired (reasonForAdaptiveLoad restore) (bare_event eventType severity (bindingMonitorID binding) message);
  mret (outcome.1, control, outcome.2)
  end.

Definition reconcileExpiredLoadControl (binding : ResolvedBinding) (control : AccountControl) (settings : Settings) (now : time)
    : prog (ResolvedBinding * option error) :=
  if negb (loadControlExpired control now) then mret (binding, None) else
  let desired := ct_OriginalLoadFactor control in
  if st_DryRun settings || bool_decide (st_HealthMode settings = HealthModeObserve) then
    committed ← call (CommitControlEvents control
      [would_load_event "would_load_factor_restored" "info" "临时负载控制到期后将恢复策略基线" "" binding desired now]);
    mret (binding, as_option committed)
  else
  submit_load binding desired "临时负载控制已到期，恢复策略基线"
    (bare_event "load_factor_restored" "info" (bindingMonitorID binding) "临时负载控制已到期，账号恢复策略基线").

(** ** Pausing and resuming *)

Definition would_schedule_event (kind severity reason before after : string) (binding : ResolvedBinding) (control : AccountControl) (now : time) : Event :=
  engine_event kind severity (bindingMonitorID binding) (Some (acc_ID (rb_Account binding))) reason before after
    (actionDetails binding control reason) "system" now.

Definition applyPause (binding : ResolvedBinding) (control : AccountControl) (dryRun : bool) (reason : string) (now : time)
    : prog (ResolvedBinding * option error) :=
  let eventType := if ct_HealthLocked control then "automatic_pause" else
                   if ct_CostLocked control then "cost_pause" else "balance_pause" in
  if dryRun then
    let control := control <| ct_LastDecision := "would_pause" |> in
    committed ← call (CommitControlEvents control
      [would_schedule_event "would_pause" "warning" reason "schedulable" "paused" binding control now]);
    mret (binding, as_option committed)
  else
  let binding := binding <| rb_Control := control |> in
  let flap := if ct_HealthLocked control
              then Some (mkFlapPolicy (rb_FlapEnabled binding) (rb_FlapWindowMinutes binding) (rb_FlapPauseThreshold binding)
                           (maxInt (rb_BaseRecoveryThreshold binding) (rb_FlapRecoveryThreshold binding)))
              else None in
  submit_schedulable binding binding false reason (bare_event eventType "warning" (bindingMonitorID binding) reason) flap.

Definition applyResume (binding : ResolvedBinding) (control : AccountControl) (dryRun : bool) (reason : string) (now : time)
    : prog (ResolvedBinding * option error) :=
  if negb (ct_OwnsPause control) then mret (binding, None) else
  if dryRun then
    let control := control <| ct_LastDecision := "would_resume" |> in
    committed ← call (CommitControlEvents control
      [would_schedule_event "would_resume" "info" reason "paused" "schedulable" binding control now]);
    mret (binding, as_option committed)
  else
  let eventType := if bool_decide (ct_Owner control = "balance") then "balance_resume" else
                   if bool_decide (ct_Owner control = "cost") then "cost_resume" else "automatic_resume" in
  let policyBinding := binding <| rb_Control := control <| ct_FlapActive := false |> |> in
  submit_schedulable binding policyBinding true reason (bare_event eventType "info" (bindingMonitorID binding) reason) None.

(** ** One account *)

Definition lock_reason (control : AccountControl) : string :=
  if ct_CostLocked control && (ct_BalanceLocked control || ct_HealthLocked control) then "账号同时受到健康、余额或倍率策略限制" else
  if ct_BalanceLocked control && ct_HealthLocked control then "余额不足且渠道连续异常" else
  if ct_BalanceLocked control then "上游余额连续低于停用阈值" else
  if ct_HealthLocked control then "上游连续检测异常" else
  if ct_CostLocked control then "倍率池已有更低成本的可用上游，该账号转入待命" else "账号存在有效控制锁".

Definition policy_locked (control : AccountControl) : bool :=
  ct_HealthLocked control || ct_BalanceLocked control || ct_CostLocked control.

Definition reconcileAccount (binding : ResolvedBinding) (settings : Settings) (now : time) : prog (ResolvedBinding * option error) :=
  let control := (rb_Control binding) <| ct_AccountID := acc_ID (rb_Account binding) |> in
  let control := match bindingMonitorID binding with
                 | Some id => control <| ct_MonitorID := Some id |>
                 | None => control
                 end in
  let control := control <| ct_LastObserved := Some (acc_Schedulable (rb_Account binding)) |> in
  let effectiveDryRun := st_DryRun settings || bool_decide (st_HealthMode settings = HealthModeObserve) in
  let adaptive := bool_decide (st_HealthMode settings = HealthModeAdaptive) in
  let '(control, event) :=
    if adaptive then advanceAdaptiveHealthControl binding control settings now else
    if bool_decide (st_HealthMode settings = HealthModeLegacy) then (legacy_health_lock binding now control, None)
    else (control, None) in
  match event with Some event => record event | None => mret () end;;
  try _ ← call (UpsertControl control) catch err => mret (binding, Some err);
  let binding := binding <| rb_Control := control |> in
  loaded ← (if adaptive then reconcileAdaptiveLoad binding control settings now else
            outcome ← reconcileExpiredLoadControl binding control settings now;
            mret (outcome.1, control, outcome.2));
  let '(binding, control, err) := loaded in
  match err with
  | Some err => mret (binding, Some err)
  | None =>
      if policy_locked control then applyPause binding control effectiveDryRun (lock_reason control) now
      else applyResume binding control effectiveDryRun "全部控制锁均已解除" now
  end.
End accounts.
