(* ===== verification/EnginePass.v ===== *)
(** * A pass of the reconciliation

    [internal/reconcile/engine.go]: a pass reads settings, monitors, accounts and policies,
    brings every monitor's state up to date, resolves the bindings, and reconciles the
    accounts asked for; the failure of one account does not stop the others. *)

From S2P Require Import Prelude GoStd Float JsonText Model ModelHealth ModelFailover HealthV3 AccountTypes JsonRecords Requests Effects AccountService Matcher EngineCalls EngineHealth EngineControl EngineAccounts.

(** What a pass returns beside [nil]. *)
Inductive pass_failure :=
  | SyncFailure (err : error)
  | AccountReconcileErrors (issues : list AccountReconcileIssue).

Section pass.
Context `{UnicodeTables, FoldTable, UrlParser, JsonFloats} (e : Engine).

Definition syncFailed (err : error) : prog (option pass_failure) :=
  _ ← call (ModifySnapshot (λ snapshot, snapshot <| sn_LastSyncError := error_text err |>));
  record (engine_event "sync_failed" "error" None None (error_text err) "" "" "" "system" zero_time);;
  mret (Some (SyncFailure err)).

Definition conflict_event (kind severity conflict : string) : Event :=
  engine_event kind severity None None conflict "" "" "" "system" zero_time.

Definition auditConflicts (conflicts : list string) : prog unit :=
  known ← call GetConflicts;
  for_all (λ conflict _, if bool_decide (conflict ∈ known) then mret () else
                         record (conflict_event "binding_conflict" "warning" conflict)) conflicts ();;
  gone ← call (RangeTexts (elements known));
  for_all (λ conflict _, if bool_decide (conflict ∈ conflicts) then mret () else
                         record (conflict_event "binding_conflict_cleared" "info" conflict)) gone ();;
  call (SetConflicts (list_to_set conflicts)).

(** ** The control of an account, as stored and as the locks say *)

Definition read_control (accountID : Z) (flap : FlapPolicy) (now : time) : prog (result error AccountControl) :=
  try control ← account (GetControl accountID) catch err => mret (Err err);
  try recentPauses ← call (CountAutomaticPauses accountID (now + - wrap64 (fp_WindowMinutes flap * minute))%Z now)
    catch err => mret (Err err);
  let control := control <| ct_RecentAutomaticPauses := recentPauses |> in
  try balanceLock ← account (GetActiveBalanceLock accountID) catch err => mret (Err err);
  let control := control <| ct_BalanceLocked := bool_decide (is_Some balanceLock) |>
                         <| ct_BalanceSourceID := bl_SourceID <$> balanceLock |> in
  try costLock ← account (GetActiveCostLock accountID) catch err => mret (Err err);
  mret (Ok (control <| ct_CostLocked := bool_decide (is_Some costLock) |>
                    <| ct_CostSourceID := cl_SourceID <$> costLock |>
                    <| ct_CostPool := default "" (cl_Pool <$> costLock) |>)).

(** The thresholds of the settings, or of the policy where it has its own. *)
Definition with_thresholds (settings : Settings) (binding : ResolvedBinding) : ResolvedBinding :=
  let policy := rb_Policy binding in
  let base := default (st_RecoveryThreshold settings) (pol_RecoveryThreshold policy) in
  let base := if bool_decide (st_HealthMode settings = HealthModeAdaptive) then maxInt base (st_HealthRecoverySuccesses settings) else base in
  let flap := resolveFlapPolicy settings policy in
  binding <| rb_FailureThreshold := default (st_FailureThreshold settings) (pol_FailureThreshold policy) |>
    <| rb_BaseRecoveryThreshold := base |> <| rb_FlapEnabled := fp_Enabled flap |>
    <| rb_FlapWindowMinutes := fp_WindowMinutes flap |> <| rb_FlapPauseThreshold := fp_PauseThreshold flap |>
    <| rb_FlapRecoveryThreshold := fp_RecoveryThreshold flap |>.

(** The states of the monitor, and the decision. *)
Definition with_decision (states : gmap Z MonitorState) (healthStates : gmap Z MonitorHealthState) (now : time) (settings : Settings)
    (binding : ResolvedBinding) : prog (ResolvedBinding * option error) :=
  match rb_Monitor binding with
  | None => mret (binding, None)
  | Some monitor =>
      let binding := binding <| rb_MonitorState := default (mkMonitorState 0 None "" 0 0 "" zero_time) (states !! mon_ID monitor) |>
                             <| rb_HealthState := default no_health_state (healthStates !! mon_ID monitor) |> in
      try decision ← evaluateV3Decision binding now settings catch err => mret (binding, Some err);
      mret (binding <| rb_Decision := decision |>, None)
  end.

Definition flap_details (flap : FlapPolicy) (control : AccountControl) : string :=
  json_object [("pause_threshold", json_int (fp_PauseThreshold flap)); ("recent_pause_count", json_int (ct_RecentAutomaticPauses control));
               ("recovery_threshold", json_int (ct_FlapRecoveryRequired control)); ("window_minutes", json_int (fp_WindowMinutes flap))].

(** Flap protection that the policy no longer wants, or that an upgrade has to add. *)
Definition reconcile_flap (binding : ResolvedBinding) (flap : FlapPolicy) (now : time) (control : AccountControl)
    : prog (result error AccountControl) :=
  let accountID := Some (acc_ID (rb_Account binding)) in
  try control ← (if ct_FlapActive control && negb (fp_Enabled flap) then
                   let control := clearFlapState control in
                   try _ ← call (CommitControlEvents control
                     [flapClearedEvent accountID (ct_MonitorID control) "system" "账号策略已关闭抖动保护" now]) catch err => mret (Err err);
                   mret (Ok control)
                 else mret (Ok control)) catch err => mret (Err err);
  if fp_Enabled flap && negb (ct_FlapActive control) && ct_HealthLocked control
     && (fp_PauseThreshold flap <=? ct_RecentAutomaticPauses control)%Z then
    let control := control <| ct_FlapActive := true |> <| ct_FlapTriggeredAt := Some now |>
      <| ct_FlapRecoveryRequired := maxInt (rb_BaseRecoveryThreshold binding) (fp_RecoveryThreshold flap) |> in
    try _ ← call (CommitControlEvents control
      [engine_event "flap_protection_activated" "warning" (ct_MonitorID control) accountID
         "升级后检测到账号在滚动窗口内反复暂停，已补充抖动保护" "normal_recovery" "flap_protected" (flap_details flap control) "system" now])
      catch err => mret (Err err);
    mret (Ok control)
  else mret (Ok control).

Definition with_control (control : AccountControl) (binding : ResolvedBinding) : ResolvedBinding :=
  binding <| rb_RecoveryThreshold := effectiveRecoveryThreshold (rb_BaseRecoveryThreshold binding) control |> <| rb_Control := control |>.

(** The body of the loop over the bindings. *)
Definition reconcile_binding (settings : Settings) (states : gmap Z MonitorState) (healthStates : gmap Z MonitorHealthState)
    (now : time) (targeted : bool) (binding : ResolvedBinding) : prog (ResolvedBinding * option error) :=
  let binding := with_thresholds settings binding in
  let flap := resolveFlapPolicy settings (rb_Policy binding) in
  let accountID := acc_ID (rb_Account binding) in
  informed ← with_decision states healthStates now settings binding;
  let '(binding, err) := informed in
  match err with Some err => mret (binding, Some err) | None =>
  try control ← read_control accountID flap now catch err => mret (binding, Some err);
  if negb targeted then mret (with_control control binding, None) else
  try control ← reconcile_flap binding flap now control catch err => mret (binding, Some err);
  outcome ← reconcileAccount e (with_control control binding) settings now;
  let '(binding, err) := outcome in
  match err with Some err => mret (binding, Some err) | None =>
  try control ← read_control accountID flap now catch err => mret (binding, Some err);
  mret (with_control control binding, None)
  end end.

Definition issue_event (binding : ResolvedBinding) (issue : AccountReconcileIssue) : Event :=
  engine_event "account_action_failed" "error" (bindingMonitorID binding) (Some (acc_ID (rb_Account binding))) (error_text (is_Err issue)) "" ""
    (json_object [("account_context", actionDetails binding (rb_Control binding) "账号协调失败");
                  ("error_code", json_string (is_Code issue)); ("status", json_string (is_Status issue))]) "system" zero_time.

(** The bindings as they were left, and the accounts that failed. *)
Definition reconcile_bindings (settings : Settings) (states : gmap Z MonitorState) (healthStates : gmap Z MonitorHealthState)
    (now : time) (targets : option (gset Z)) (bindings : list ResolvedBinding)
    : prog (list ResolvedBinding * list AccountReconcileIssue) :=
  for_all (λ binding done,
    let targeted := match targets with None => true | Some targets => bool_decide (acc_ID (rb_Account binding) ∈ targets) end in
    outcome ← reconcile_binding settings states healthStates now targeted binding;
    let '(binding, err) := outcome in
    match err with
    | None => mret (done.1 ++ [binding], done.2)
    | Some err =>
        let issue := accountReconcileIssue (acc_ID (rb_Account binding)) err in
        record (issue_event binding issue);;
        mret (done.1 ++ [binding], done.2 ++ [issue])
    end) bindings ([], []).

(** ** The pass *)

Definition advance_monitors (monitors : list Monitor) (settings : Settings) (now : time)
    : prog (flow (gmap Z MonitorState * gmap Z MonitorHealthState) error) :=
  for_each (λ monitor done,
    try state ← advanceMonitorState monitor now catch err => mret (Return err);
    try healthState ← advanceHealthState monitor settings now catch err => mret (Return err);
    mret (Next (<[mon_ID monitor := state]> done.1, <[mon_ID monitor := healthState]> done.2))) monitors (∅, ∅).

(** Recovery of what an earlier process left, before a full pass. Its failure is logged. *)
Definition recover_pending : prog (option error) :=
  try _ ← call EnterMutation catch err => mret (Some (Errorf "等待账号恢复屏障" err));
  _ ← call ReconcilePendingAccountMutations;
  _ ← call LeaveMutation;
  mret None.

Definition reconcilePass (targets : option (gset Z)) : prog (option pass_failure) :=
  blocked ← match targets with None => recover_pending | Some _ => mret None end;
  match blocked with Some err => syncFailed err | None =>
  try settings ← call GetSettings catch err => syncFailed err;
  try persistedFreeze ← account (GetAgentFreezeState "global" "") catch err => syncFailed (Errorf "读取自动化冻结状态失败" err);
  freezeNow ← call EngineNow;
  let freeze := effectiveFreezeState persistedFreeze freezeNow in
  try monitors ← call ListMonitors catch err => syncFailed (Errorf "读取监控失败" err);
  try accounts ← account ListAccounts catch err => syncFailed (Errorf "读取账号失败" err);
  try policies ← call ListPolicies catch err => syncFailed err;
  now ← call EngineNow;
  advanced ← advance_monitors monitors settings now;
  match advanced with
  | Return err => syncFailed err
  | Next (states, healthStates) =>
  try _ ← call (DeleteMonitorObservationsBefore (now + - 14 * 24 * hour)%Z) catch err => syncFailed err;
  let '(bindings, unmatched, conflicts) := ResolveBindings monitors accounts policies in
  auditConflicts conflicts;;
  reconciled ← reconcile_bindings settings states healthStates now targets bindings;
  let '(bindings, accountIssues) := reconciled in
  syncedAt ← call EngineNow;
  let lastSyncError := if bool_decide (length accountIssues = 0) then "" else AccountReconcileErrors_Error accountIssues in
  _ ← call (ModifySnapshot (λ _, mkSnapshot bindings unmatched conflicts (Some syncedAt) lastSyncError settings freeze (e_startedAt e)));
  mret (if bool_decide (length accountIssues = 0) then None else Some (AccountReconcileErrors accountIssues))
  end end.

Definition ReconcileFull : prog (option pass_failure) := reconcilePass None.

Definition ReconcileAccounts (accountIDs : list Z) : prog (option pass_failure) :=
  let targets : gset Z := list_to_set (filter (λ accountID, 0 < accountID)%Z accountIDs) in
  if bool_decide (targets = ∅) then mret None else reconcilePass (Some targets).

(** ** Starting *)

Definition Start : prog unit :=
  pending ← account (ListPendingAccountMutations 100);
  entered ← call EnterMutation;
  match entered with
  | Err _ => mret ()
  | Ok _ => _ ← call ReconcilePendingAccountMutations; call LeaveMutation
  end;;
  let seenPending : gset Z := match pending with
                              | Ok pending => list_to_set (filter (λ accountID, 0 < accountID)%Z (mu_AccountID <$> pending))
                              | Err _ => ∅
                              end in
  _ ← call SpawnCoordinator;
  (if bool_decide (seenPending = ∅) then mret () else call (RequestAccountsFrom "startup_recovery" (elements seenPending)));;
  _ ← call (RequestFullFrom "startup");
  if e_expiry e then call SpawnExpiry else mret ().
End pass.

(** ** What the snapshot says *)

Definition positive_set (ids : list Z) : gset Z := list_to_set (filter (λ id, 0 < id)%Z ids).
Definition sorted_ids (ids : gset Z) : list Z := sort_slice Z.ltb (elements ids).

Definition bound_monitor (binding : ResolvedBinding) : option Monitor :=
  if bool_decide (rb_State binding = "bound") then rb_Monitor binding else None.

Definition AccountIDsForMonitors (snapshot : Snapshot) (monitorIDs : list Z) : list Z :=
  let requested := positive_set monitorIDs in
  sorted_ids (list_to_set (omap (λ binding,
    match bound_monitor binding with
    | Some monitor => if bool_decide (mon_ID monitor ∈ requested) then Some (acc_ID (rb_Account binding)) else None
    | None => None
    end) (sn_Bindings snapshot))).

Definition FilterReconcileAccountIDs `{UnicodeTables} (snapshot : Snapshot) (accountIDs : list Z) : list Z * list Z :=
  let requested := positive_set accountIDs in
  let bound : gset Z := list_to_set (omap (λ binding,
    let accountID := acc_ID (rb_Account binding) in
    if (0 <? accountID)%Z && bool_decide (is_Some (bound_monitor binding))
       && negb (contains (to_lower (trim_space (acc_Type (rb_Account binding)))) "oauth")
    then Some accountID else None) (sn_Bindings snapshot)) in
  (sorted_ids (filter (λ accountID, accountID ∈ bound) requested), sorted_ids (filter (λ accountID, accountID ∉ bound) requested)).
