(* ===== verification/EngineSandbox.v ===== *)
(** * A small environment to run the engine in

    One account with an upstream address and no monitor, the journal of account control's
    sandbox, a stored control and the lock of its balance: a concrete instance on which the
    engine's programs are run. *)

From S2P Require Import Prelude GoStd Model ModelHealth ModelFailover Health AccountTypes AccountQueue Requests Effects AccountSandbox JsonRecords EngineCalls.
From S2P Require Import Intent.
Import Samples.

Record bench := mkBench {
  bn_sandbox : sandbox;
  bn_settings : Settings;
  bn_control : AccountControl;
  bn_lock : option BalanceLock;
  bn_conflicts : gset string;
  bn_snapshot : Snapshot;
  bn_now : time;
}.

Definition relay_account : Account :=
  sample_account <| acc_Credentials := {["base_url" := AnyString "https://relay.example"]} |>.

Definition legacy_settings : Settings :=
  no_settings <| st_HealthMode := HealthModeLegacy |> <| st_FailureThreshold := 3%Z |> <| st_RecoveryThreshold := 3%Z |>.

(** The balance of the account's source has run out. *)
Definition unfunded_bench : bench :=
  mkBench (mkSandbox relay_account None None AgentFreezeModeActive) legacy_settings no_control
    (Some (mkBalanceLock 3 7 midnight)) ∅ no_snapshot (midnight + minute)%Z.

Definition bench_serve (R : Type) (s : bench) (c : EngineCall R) : R * bench :=
  match c in EngineCall R return R * bench with
  | AccountCall c =>
      match c in Call R return R * bench with
      | GetControl _ => (Ok (bn_control s), s)
      | GetActiveBalanceLock _ => (Ok (bn_lock s), s)
      | c => let '(r, box) := sandbox_serve _ (bn_sandbox s) c in (r, s <| bn_sandbox := box |>)
      end
  | GetSettings => (Ok (bn_settings s), s)
  | UpdateSettings settings => (Ok (), s <| bn_settings := settings |>)
  | ListPolicies => (Ok ∅, s)
  | GetMonitorState id => (Ok (mkMonitorState id None "" 0 0 "" zero_time), s)
  | GetMonitorHealthState _ => (Ok no_health_state, s)
  | InsertMonitorObservation _ | CommitDecisionSnapshot _ _ => (Ok true, s)
  | ListMonitorObservations _ _ _ => (Ok [], s)
  | ListMonitorHistory _ _ _ => (Ok [], s)
  | GetTrafficWindow _ _ _ => (Err (NewError "no traffic"), s)
  | ListAccountModelCapabilities _ => (Ok [], s)
  | UpsertControl c => (Ok (), s <| bn_control := c |>)
  | CountAutomaticPauses _ _ _ => (Ok 0%Z, s)
  | HasPendingAccountOverrideTransition _ _ => (Ok false, s)
  | ListMonitors => (Ok [], s)
  | GetSnapshot => (bn_snapshot s, s)
  | ModifySnapshot f => ((), s <| bn_snapshot := f (bn_snapshot s) |>)
  | GetConflicts => (bn_conflicts s, s)
  | SetConflicts conflicts => ((), s <| bn_conflicts := conflicts |>)
  | RangeTexts keys => (keys, s)
  | NewCommandID => (Ok "cmd-5a", s)
  | EngineNow => (bn_now s, s)
  | SetAgentFreezeState _ | UpsertPolicy _ | UpsertPolicies _ | UpsertMonitorState _ | UpsertMonitorHealthState _
  | DeleteMonitorObservationsBefore _ | AddEvent _ | CommitControlEvents _ _ | ReconcilePendingAccountMutations
  | EnterMutation | EnterFreeze => (Ok (), s)
  | LeaveMutation | LeaveFreeze | LockRun | UnlockRun | RequestAccountsFrom _ _ | RequestFullFrom _ | WakeExpiry
  | SpawnCoordinator | SpawnExpiry => ((), s)
  end.

Definition on_bench : Requests.environment EngineCall bench := mkEnvironment bench bench_serve.

(** The submissions a run offered. *)
Definition offered (tr : list (Requests.exchange EngineCall)) : list Submission :=
  omap (λ x, match x with Exchange (AccountCall (AddCandidate s)) _ => Some s | _ => None end) tr.

Definition plain_engine : Engine := mkEngine midnight true true false.
