(* ===== verification/EngineSafety.v ===== *)
(** * A pass submits only on grounds

    What a pass of the reconciliation may ask of account control, as a protocol over its
    requests: for the accounts it targets, outside dry run and observation, inside the
    barrier, a pause only while a lock is held, a resumption only of a pause the scheduler
    owns and with every lock lifted, and the load that the stage of the account asks for. *)

From S2P Require Import Prelude GoStd Float JsonText Intent Arbiter Model ModelHealth ModelFailover HealthV3 AccountTypes AccountQueue Bridge BridgeFacts JsonRecords Requests Effects AccountService Matcher EngineCalls EngineHealth EngineControl EngineAccounts EnginePass AccountSandbox EngineSandbox BalanceSandbox.

(** What was read and saved so far: whether the barrier was entered, the settings, the
    readings of the clock, the locks of the account whose control was read last, and the
    control saved last. *)
Record pass_watch := mkPassWatch {
  pw_lease : bool;
  pw_settings : option Settings;
  pw_clock : list time;
  pw_balance : option (Z * bool);
  pw_cost : option (Z * bool);
  pw_control : option AccountControl;
}.
Definition pass_start : pass_watch := mkPassWatch false None [] None None None.

(** Neither dry run nor observation. *)
Definition acting (settings : Settings) : Prop := st_DryRun settings = false ∧ st_HealthMode settings ≠ HealthModeObserve.

(** The percentages of the load at the stages that limit it. *)
Definition stage_percent (settings : Settings) (stage : string) : option Z :=
  if bool_decide (stage ∈ [HealthStageLimited80; HealthStageRecovering80]) then Some 80%Z else
  if bool_decide (stage ∈ [HealthStageLimited50; HealthStageDegraded]) then Some (st_HealthDegradedPercent settings) else
  if bool_decide (stage ∈ [HealthStageLimited25; HealthStageRecovering25]) then Some (st_HealthTrialPercent settings) else
  if bool_decide (stage = HealthStageRecovering50) then Some (st_HealthMidPercent settings) else None.

(** Why the state is asked for, with the control that was saved. *)
Inductive grounds (settings : Settings) (clock : list time) (c : AccountControl) : Operation → DesiredState → Prop :=
  | PauseGrounds : policy_locked c = true → grounds settings clock c OperationSetAccountSchedulable (schedulableState false)
  | ResumeGrounds : ct_OwnsPause c = true → policy_locked c = false →
      grounds settings clock c OperationSetAccountSchedulable (schedulableState true)
  | LimitGrounds account percent :
      st_HealthMode settings = HealthModeAdaptive → acc_ID account = ct_AccountID c →
      stage_percent settings (ct_LoadStage c) = Some percent →
      grounds settings clock c OperationSetAccountLoadFactor (load_state (desiredLoadFactor account c percent))
  | RestoreGrounds :
      st_HealthMode settings = HealthModeAdaptive ∧ ct_LoadStage c = HealthStageHealthy ∧ ct_OwnsLoadFactor c = true
      ∨ (∃ now, now ∈ clock ∧ loadControlExpired c now = true) →
      grounds settings clock c OperationSetAccountLoadFactor (load_state (ct_OriginalLoadFactor c)).

Section pass_protocol.
Context (targets : option (gset Z)).

Definition is_target (accountID : Z) : Prop := match targets with None => True | Some targets => accountID ∈ targets end.

Definition policy_submits (w : pass_watch) (s : Submission) : Prop :=
  ∃ settings c, pw_settings w = Some settings ∧ acting settings ∧ pw_control w = Some c ∧ is_target (ct_AccountID c)
  ∧ in_Producer (sb_Intent s) = ProducerPolicyScheduler ∧ in_Authority (sb_Intent s) = AuthorityActivePolicy
  ∧ in_Resource (sb_Intent s) = account_resource (ct_AccountID c)
  ∧ sb_PersistOverride s = false ∧ sb_RevokeOverrideID s = ""
  ∧ grounds settings (pw_clock w) c (in_Operation (sb_Intent s)) (in_DesiredState (sb_Intent s)).

(** The control says of the balance and cost locks what was read last. *)
Definition as_read (w : pass_watch) (c : AccountControl) : Prop :=
  pw_balance w = Some (ct_AccountID c, ct_BalanceLocked c) ∧ pw_cost w = Some (ct_AccountID c, ct_CostLocked c).

Definition pass_permitted (w : pass_watch) (R : Type) (c : EngineCall R) : Prop :=
  match c with
  | AccountCall c =>
      match c with
      | AddCandidate s => pw_lease w = true ∧ policy_submits w s
      | SetSchedulable _ _ | UpdateLoadFactor _ _ => pw_lease w = true
      | _ => True
      end
  | ReconcilePendingAccountMutations => pw_lease w = true
  | EnterMutation => pw_lease w = false
  | LeaveMutation => pw_lease w = true
  | UpsertControl c => as_read w c ∧ is_target (ct_AccountID c)
  | UpdateSettings _ | SetAgentFreezeState _ | UpsertPolicy _ | UpsertPolicies _ | EnterFreeze | LeaveFreeze => False
  | _ => True
  end.

Definition noted_lock {A} (accountID : Z) (r : result error (option A)) : option (Z * bool) :=
  match r with Ok lock => Some (accountID, bool_decide (is_Some lock)) | Err _ => None end.

Definition pass_observe (w : pass_watch) (R : Type) (c : EngineCall R) : R → pass_watch :=
  match c in EngineCall R return R → pass_watch with
  | AccountCall c =>
      match c in Call R return R → pass_watch with
      | GetActiveBalanceLock id => λ r, w <| pw_balance := noted_lock id r |>
      | GetActiveCostLock id => λ r, w <| pw_cost := noted_lock id r |>
      | _ => λ _, w
      end
  | GetSettings => λ r, w <| pw_settings := match r with Ok s => Some s | Err _ => None end |>
  | EngineNow => λ now, w <| pw_clock := now :: pw_clock w |>
  | EnterMutation => λ r, w <| pw_lease := is_ok r |>
  | LeaveMutation => λ _, w <| pw_lease := false |>
  | UpsertControl c => λ r, w <| pw_control := match r with Ok _ => Some c | Err _ => None end |>
  | _ => λ _, w
  end.

Definition pass_protocol : Requests.protocol EngineCall := mkProtocol pass_watch pass_permitted pass_observe.

(** ** Programs that only look at the clock *)

(** What is kept of the watch by a part of the pass; [locks] that the locks read last are. *)
Record grown (locks : bool) (w w' : pass_watch) : Prop := {
  gr_lease : pw_lease w' = pw_lease w;
  gr_settings : pw_settings w' = pw_settings w;
  gr_clock : pw_clock w ⊆ pw_clock w';
  gr_control : pw_control w' = pw_control w;
  gr_locks : locks = true → pw_balance w' = pw_balance w ∧ pw_cost w' = pw_cost w;
}.

Lemma grown_refl locks w : grown locks w w.
Proof. by constructor. Qed.
Lemma grown_trans locks w1 w2 w3 : grown locks w1 w2 → grown locks w2 w3 → grown locks w1 w3.
Proof.
  intros [L1 S1 K1 C1 B1] [L2 S2 K2 C2 B2]. constructor; [congruence..|set_solver|congruence|].
  intros Hl. destruct (B1 Hl), (B2 Hl). split; congruence.
Qed.
Lemma grown_locks locks w w' : grown true w w' → grown locks w w'.
Proof. intros [L S K C B]. constructor; auto. Qed.

Definition quiet_call : ∀ R, EngineCall R → Prop := λ R c,
  match c with
  | AccountCall c =>
      match c with
      | AddCandidate _ | SetSchedulable _ _ | UpdateLoadFactor _ _ | GetActiveBalanceLock _ | GetActiveCostLock _ => False
      | _ => True
      end
  | ReconcilePendingAccountMutations | EnterMutation | LeaveMutation | UpsertControl _ | UpdateSettings _ | SetAgentFreezeState _
  | UpsertPolicy _ | UpsertPolicies _ | EnterFreeze | LeaveFreeze | GetSettings => False
  | _ => True
  end.

Lemma quiet_step w R (c : EngineCall R) : quiet_call R c → pass_permitted w R c ∧ ∀ r, grown true w (pass_observe w R c r).
Proof.
  destruct c; try done; try (intros _; split; [exact I|intros r; apply grown_refl]).
  - destruct c; try done; intros _; split; try exact I; intros r; by constructor.
  - intros _. split; [exact I|]. intros now. destruct w. constructor; try done. by apply list_subseteq_cons.
Qed.
End pass_protocol.
Abbreviation quiet := (only quiet_call).

Section rules.
Context (targets : option (gset Z)).
#[local] Notation wp := (wp (pass_protocol targets)).

Lemma quiet_wp {A} (p : prog A) (w : pass_watch) (Q : A → pass_watch → Prop) :
  quiet p → (∀ a w', grown true w w' → Q a w') → wp p w Q.
Proof.
  intros Hp HQ. eapply wp_mono; [|apply (wp_only (pass_protocol targets) quiet_call (grown true w))]; [|..|exact Hp|apply grown_refl].
  - intros a w'. apply HQ.
  - intros w' R c Hw Hc. destruct (quiet_step targets w' R c Hc) as [Hpm Ho]. split; [exact Hpm|]. intros r.
    by eapply grown_trans.
Qed.

Lemma quiet_bind {A B} (f : A → prog B) (p : prog A) (w : pass_watch) Q :
  quiet p → (∀ a w', grown true w w' → wp (f a) w' Q) → wp (p ≫= f) w Q.
Proof. intros Hp Hf. rewrite wp_bind. by apply quiet_wp. Qed.
End rules.

Section parts.
Context `{UnicodeTables, FoldTable, UrlParser, JsonFloats} (e : Engine).

(** ** What a pass does without account control *)

Lemma quiet_account {R} (c : Call R) : quiet_call R (AccountCall c) → quiet (account c).
Proof. by split. Qed.
Lemma quiet_control {A} (p : Effects.prog A) : only (λ R c, quiet_call R (AccountCall c)) p → quiet (control p).
Proof. apply only_lift. Qed.

Ltac quiets := only_steps; try (apply quiet_account); auto; try done.

Lemma record_quiet event : quiet (record event).
Proof. unfold record. quiets. Qed.
#[local] Hint Resolve record_quiet : core.

Lemma advanceMonitorState_quiet monitor now : quiet (advanceMonitorState monitor now).
Proof. unfold advanceMonitorState. quiets. Qed.
Lemma advanceHealthState_quiet monitor settings now : quiet (advanceHealthState monitor settings now).
Proof. unfold advanceHealthState. quiets. Qed.
Lemma evaluateV3Decision_quiet binding now settings : quiet (evaluateV3Decision binding now settings).
Proof. unfold evaluateV3Decision. quiets. Qed.
#[local] Hint Resolve advanceMonitorState_quiet advanceHealthState_quiet evaluateV3Decision_quiet : core.

Lemma advance_monitors_quiet monitors settings now : quiet (advance_monitors monitors settings now).
Proof. unfold advance_monitors. apply only_for_each. intros monitor done. quiets. Qed.
Lemma auditConflicts_quiet conflicts : quiet (auditConflicts conflicts).
Proof. unfold auditConflicts. quiets; apply only_for_all; intros; quiets. Qed.
Lemma syncFailed_quiet err : quiet (syncFailed err).
Proof. unfold syncFailed. quiets. Qed.
Lemma with_decision_quiet states healthStates now settings binding : quiet (with_decision states healthStates now settings binding).
Proof. unfold with_decision. quiets. Qed.
Lemma reconcile_flap_quiet binding flap now control : quiet (reconcile_flap binding flap now control).
Proof. unfold reconcile_flap. quiets. Qed.

Lemma disposition_quiet binding control desired now restore : quiet (automaticLoadNoopDisposition e binding control desired now restore).
Proof. unfold automaticLoadNoopDisposition. quiets. Qed.
Lemma recordDesired_quiet binding control desired now : quiet (recordDesiredAlreadyApplied binding control desired now).
Proof. unfold recordDesiredAlreadyApplied. quiets. Qed.
Lemma snapshotVersion_quiet binding : quiet (stableSnapshotVersion binding).
Proof. unfold stableSnapshotVersion. quiets. Qed.
#[local] Hint Resolve snapshotVersion_quiet : core.
Lemma policyContext_quiet binding operation reason : quiet (policyContext binding operation reason).
Proof. unfold policyContext. quiets. Qed.
#[local] Hint Resolve policyContext_quiet : core.

(** ** What the policy asks for *)

Record policy_intent (accountID : Z) (operation : Operation) (desired : DesiredState) (i : Intent) : Prop := {
  pi_producer : in_Producer i = ProducerPolicyScheduler;
  pi_authority : in_Authority i = AuthorityActivePolicy;
  pi_resource : in_Resource i = account_resource accountID;
  pi_operation : in_Operation i = operation;
  pi_desired : in_DesiredState i = desired;
}.

Lemma mapped_policy rq d i : mapped_intent (adapt rq) = Ok i → demand rq = Some d → i = converted d.
Proof.
  unfold mapped_intent. destruct (MappedIntent (adapt rq)) as [i'|] eqn:Em; intros [= <-].
  apply mapped_converted in Em as (d' & -> & -> & _). by intros [= ->].
Qed.

Context (targets : option (gset Z)).
#[local] Notation wp := (wp (pass_protocol targets)).

Lemma policySchedulableIntent_wp binding desired reason w Q :
  (∀ err w', grown true w w' → Q (Err err) w') →
  (∀ i safety w', grown true w w' →
     policy_intent (acc_ID (rb_Account binding)) OperationSetAccountSchedulable (schedulableState desired) i → Q (Ok (i, safety)) w') →
  wp (policySchedulableIntent binding desired reason) w Q.
Proof.
  intros Herr Hok. apply quiet_bind; [apply policyContext_quiet|]. intros [[legacy safety]|err] w' Hw; [|by apply Herr].
  cbv beta iota zeta. destruct (mapped_intent _) as [i|err] eqn:Ei; [|by apply Herr]. apply Hok; [done|].
  eapply (mapped_policy (PolicySchedulable (mkAccountSchedulableInput legacy (acc_ID (rb_Account binding)) desired))) in Ei as ->; [|reflexivity]. by constructor.
Qed.

Lemma policyLoadIntent_wp binding desired reason w Q :
  (∀ err w', grown true w w' → Q (Err err) w') →
  (∀ i safety w', grown true w w' →
     policy_intent (acc_ID (rb_Account binding)) OperationSetAccountLoadFactor (load_state desired) i → Q (Ok (i, safety)) w') →
  wp (policyLoadIntent binding desired reason) w Q.
Proof.
  intros Herr Hok. apply quiet_bind; [apply policyContext_quiet|]. intros [[legacy safety]|err] w' Hw; [|by apply Herr].
  cbv beta iota zeta. destruct (mapped_intent _) as [i|err] eqn:Ei; [|by apply Herr]. apply Hok; [done|].
  eapply (mapped_policy (PolicyLoadFactor (mkAccountLoadFactorInput legacy (acc_ID (rb_Account binding)) desired))) in Ei as ->; [|reflexivity]. by constructor.
Qed.

(** ** Submitting *)

(** Inside the barrier account control offers the submission and nothing else. *)
Lemma submit_step s w R (c : Call R) : pw_lease w = true → policy_submits targets w s → submission_request s R c →
  pass_permitted targets w R (AccountCall c) ∧ ∀ r, grown false w (pass_observe w R (AccountCall c) r).
Proof.
  intros Hl Hs Hc. destruct c; (split; [first [exact I|exact Hl|idtac]|intros r; destruct w; by constructor]).
  by split; [exact Hl|rewrite Hc].
Qed.

Lemma policy_submits_grown s w w' : grown false w w' → policy_submits targets w s → policy_submits targets w' s.
Proof.
  intros [_ Hst Hclock Hct _] (settings & c & Hs & Ha & Hc & Ht & Hp & Hau & Hr & Ho & Hv & Hg). exists settings, c.
  rewrite Hst, Hct. split_and!; try done. destruct Hg; [by constructor..|by econstructor|]. constructor.
  naive_solver.
Qed.

Lemma submit_wp s w Q :
  pw_lease w = false → policy_submits targets w s → (∀ a w', grown false w w' → Q a w') → wp (submitAccountMutation e None s) w Q.
Proof.
  intros Hl Hs HQ. unfold submitAccountMutation. cbn [CommandContextFrom cc_AutomationLeaseHeld].
  rewrite wp_bind. eapply (wp_mono (pass_protocol targets) _ w (λ _ (w' : pass_watch), grown false w w')).
  { intros a w' Hw. apply quiet_bind; [quiets|]. intros [] w'' Hw'. apply HQ. by eapply grown_trans; [|apply grown_locks]. }
  apply wp_request; [exact Hl|]. intros [[]|err]; [|destruct w; by constructor].
  set (held := w <| pw_lease := true |>).
  assert (grown false held held) as Hheld by apply grown_refl.
  assert (pw_lease held = true ∧ policy_submits targets held s) as [Hh Hsh] by (destruct w; by split).
  rewrite wp_bind. eapply wp_mono; [|apply wp_lift, (wp_only (through (@AccountCall) (pass_protocol targets)) (submission_request s) (grown false held))].
  - intros a w' [L S K C _]. apply wp_request; [exact (eq_trans L Hh)|]. intros []. destruct w, w'. by constructor.
  - intros w' R c Hw Hc. destruct (submit_step s w' R c) as [Hp Ho]; [|exact (policy_submits_grown s held w' Hw Hsh)|done|].
    { by rewrite (gr_lease _ _ _ Hw). }
    split; [exact Hp|]. intros r. exact (grown_trans _ _ _ _ Hw (Ho r)).
  - apply Submit_offers.
  - done.
Qed.

(** ** One account *)

(** Between the accounts: outside the barrier, with the settings and the pass's time. *)
Definition idle (settings : Settings) (now : time) (w : pass_watch) : Prop :=
  pw_lease w = false ∧ pw_settings w = Some settings ∧ now ∈ pw_clock w.

Lemma idle_grown settings now w w' : grown false w w' → idle settings now w → idle settings now w'.
Proof. intros [L S K _ _] (Hl & Hs & Hk). rewrite <- L in Hl. rewrite <- S in Hs. split_and!; [done..|by apply K]. Qed.

Lemma idle_upsert settings now w o : idle settings now w → idle settings now (w <| pw_control := o |>).
Proof. by destruct w. Qed.

Lemma upserted w o : pw_control (w <| pw_control := o |>) = o.
Proof. by destruct w. Qed.

(** The control of the account was saved, and is the one at hand. *)
Record saved (settings : Settings) (now : time) (binding : ResolvedBinding) (c : AccountControl) (w : pass_watch) : Prop := {
  sv_idle : idle settings now w;
  sv_control : pw_control w = Some c;
  sv_account : acc_ID (rb_Account binding) = ct_AccountID c;
  sv_target : is_target targets (ct_AccountID c);
}.

Lemma saved_grown settings now binding c w w' : grown false w w' → saved settings now binding c w → saved settings now binding c w'.
Proof. intros Hg [Hi Hc Ha Ht]. split; [by eapply idle_grown|by rewrite (gr_control _ _ _ Hg)|done..]. Qed.

Lemma saved_submits settings now binding c w i safety event flap operation desired :
  saved settings now binding c w → acting settings → policy_intent (acc_ID (rb_Account binding)) operation desired i →
  grounds settings (pw_clock w) c operation desired → policy_submits targets w (policy_submission i safety event flap).
Proof.
  intros [(_ & Hs & _) Hc Ha Ht] Hacting [Hp Hau Hr <- <-] Hg. exists settings, c. rewrite Ha in Hr. by split_and!.
Qed.

Lemma grounds_grown settings w w' c operation desired :
  grown true w w' → grounds settings (pw_clock w) c operation desired → grounds settings (pw_clock w') c operation desired.
Proof.
  intros [_ _ Hclock _ _] Hg. destruct Hg; [by constructor..|by econstructor|]. constructor. naive_solver.
Qed.

Lemma settle_account note binding answer :
  (∀ b r, acc_ID (rb_Account (note b r)) = acc_ID (rb_Account b)) →
  acc_ID (rb_Account (settle note binding answer).1) = acc_ID (rb_Account binding).
Proof. intros Hn. unfold settle. destruct (expectedPolicyBlock _); [done|]. destruct answer.2; [done|]. apply Hn. Qed.

Lemma note_load_account b r : acc_ID (rb_Account (note_load b r)) = acc_ID (rb_Account b).
Proof. unfold note_load. destruct (rs_VerifiedAfter r); [|done]. by read_fields. Qed.

Lemma submit_schedulable_wp asked binding c desired reason event flap settings now w :
  acc_ID (rb_Account asked) = acc_ID (rb_Account binding) → saved settings now binding c w → acting settings →
  grounds settings (pw_clock w) c OperationSetAccountSchedulable (schedulableState desired) →
  wp (submit_schedulable e binding asked desired reason event flap) w (λ _, idle settings now).
Proof.
  intros Ha Hs Hacting Hg. unfold submit_schedulable. rewrite wp_bind. apply policySchedulableIntent_wp.
  { intros err w' Hw. eapply idle_grown; [by apply grown_locks|by destruct Hs]. }
  intros i safety w' Hw Hi. cbv beta iota zeta. rewrite wp_bind. rewrite Ha in Hi.
  assert (saved settings now binding c w') as Hs' by (eapply saved_grown; [by apply grown_locks|done]).
  apply submit_wp; [by destruct Hs' as [[]]|..].
  - eapply saved_submits; [done..|]. by eapply grounds_grown.
  - intros a w'' Hw'. eapply idle_grown; [done|by destruct Hs'].
Qed.

Lemma quiet_idle {A} (p : prog A) settings now w : quiet p → idle settings now w → wp p w (λ _, idle settings now).
Proof. intros Hp Hi. apply quiet_wp; [done|]. intros _ w' Hw. eapply idle_grown; [by apply grown_locks|done]. Qed.

Lemma pause_wp binding c dryRun reason now settings w :
  saved settings now binding c w → policy_locked c = true → (dryRun = false → acting settings) →
  wp (applyPause e binding c dryRun reason now) w (λ _, idle settings now).
Proof.
  intros Hs Hl Hd. unfold applyPause. destruct dryRun; [apply quiet_idle; [quiets|by destruct Hs]|].
  apply submit_schedulable_wp with (c := c); [done| |by apply Hd|by constructor].
  by destruct binding, Hs.
Qed.

Lemma resume_wp binding c dryRun reason now settings w :
  saved settings now binding c w → policy_locked c = false → (dryRun = false → acting settings) →
  wp (applyResume e binding c dryRun reason now) w (λ _, idle settings now).
Proof.
  intros Hs Hl Hd. unfold applyResume. destruct (ct_OwnsPause c) eqn:Eowns; cbn [negb]; [|by destruct Hs].
  destruct dryRun; [apply quiet_idle; [quiets|by destruct Hs]|].
  apply submit_schedulable_wp with (c := c); [by destruct binding|done|by apply Hd|by constructor].
Qed.

Lemma stage_load_grounds binding c settings clock now desired restore :
  st_HealthMode settings = HealthModeAdaptive → acc_ID (rb_Account binding) = ct_AccountID c → now ∈ clock →
  stage_load binding c settings now = Some (desired, restore) →
  grounds settings clock c OperationSetAccountLoadFactor (load_state desired).
Proof.
  intros Hmode Ha Hnow. unfold stage_load. cbv zeta.
  assert (∀ percent, stage_percent settings (ct_LoadStage c) = Some percent →
    Some (desiredLoadFactor (rb_Account binding) c percent, false) = Some (desired, restore) →
    grounds settings clock c OperationSetAccountLoadFactor (load_state desired)) as Hlimit.
  { intros percent Hp [= <- <-]. by constructor. }
  repeat (case_bool_decide as Hstage; cbn [orb]; [rewrite Hstage in Hlimit; by apply Hlimit|clear Hstage]).
  case_bool_decide as Hstage; cbn [andb]; [|done]. destruct (_ || _) eqn:Eor; [|done]. intros [= <- <-].
  constructor. apply orb_true_iff in Eor as [?|?]; [by left|right; by exists now].
Qed.

Lemma repaired_read c desired restore w : as_read w c → as_read w (repaired_projection c desired restore).
Proof. unfold as_read, repaired_projection, set_stage. by destruct c, restore. Qed.
Lemma repaired_account c desired restore : ct_AccountID (repaired_projection c desired restore) = ct_AccountID c.
Proof. by destruct c, restore. Qed.

(** What the load leaves: where it fails the pass goes on with the next account. *)
Definition loaded (settings : Settings) (now : time) (binding : ResolvedBinding) (c : AccountControl) (err : option error) (w : pass_watch) : Prop :=
  idle settings now w ∧ (err = None → saved settings now binding c w).

Lemma loaded_quiet {A} (p : prog A) (f : A → ResolvedBinding * AccountControl * option error) settings now w :
  quiet p → (∀ a, saved settings now (f a).1.1 (f a).1.2 w) →
  wp (a ← p; mret (f a)) w (λ out, loaded settings now out.1.1 out.1.2 out.2).
Proof.
  intros Hp Hs. apply quiet_bind; [done|]. intros a w' Hw%(grown_locks false).
  split; [eapply idle_grown; [done|apply (Hs a)]|]. intros _. by eapply saved_grown.
Qed.

Lemma submit_load_wp binding c desired reason event settings now w :
  saved settings now binding c w → acting settings →
  grounds settings (pw_clock w) c OperationSetAccountLoadFactor (load_state desired) →
  wp (submit_load e binding desired reason event) w (λ out, loaded settings now out.1 c out.2).
Proof.
  intros Hs Hacting Hg. unfold submit_load. rewrite wp_bind. apply policyLoadIntent_wp.
  { intros err w' Hw. split; [|done]. eapply idle_grown; [by apply grown_locks|by destruct Hs]. }
  intros i safety w' Hw Hi. cbv beta iota zeta. rewrite wp_bind.
  assert (saved settings now binding c w') as Hs' by (eapply saved_grown; [by apply grown_locks|done]).
  apply submit_wp; [by destruct Hs' as [[]]|..].
  - eapply saved_submits; [done..|]. by eapply grounds_grown.
  - intros a w'' Hw'. eapply saved_grown in Hs' as Hs''; [|exact Hw']. split; [by destruct Hs''|]. intros _.
    destruct Hs'' as [Hi'' Hc Hid Ht]. split; [done..| |done].
    rewrite (settle_account note_load binding a) by apply note_load_account. done.
Qed.

Lemma adaptive_load_wp binding c settings now w :
  saved settings now binding c w → as_read w c → st_HealthMode settings = HealthModeAdaptive →
  wp (reconcileAdaptiveLoad e binding c settings now) w (λ out, loaded settings now out.1.1 out.1.2 out.2).
Proof.
  intros Hs Hread Hmode. assert (idle settings now w) as Hi by apply Hs. assert (now ∈ pw_clock w) as Hnow by apply Hi. unfold reconcileAdaptiveLoad.
  destruct (_ || _); [by split|]. destruct (stage_load _ _ _ _) as [[desired restore]|] eqn:Eload; [|by split].
  eapply stage_load_grounds in Eload; [|done|by destruct Hs|exact Hnow].
  set (described := if restore then _ else _). destruct described as [[eventType message] severity].
  destruct (st_DryRun settings) eqn:Edry.
  { by apply (loaded_quiet _ (λ committed, (binding, c, as_option committed))); [quiets|]. }
  apply quiet_bind; [apply disposition_quiet|]. intros [disposition|err] w' Hw.
  2: { split; [|done]. by eapply idle_grown; [apply grown_locks|]. }
  assert (saved settings now binding c w') as Hs' by (eapply saved_grown; [by apply grown_locks|done]).
  destruct (negb _).
  - destruct (bool_decide _).
    + apply wp_request.
      { split; [|rewrite repaired_account; by destruct Hs']. apply repaired_read. unfold as_read in *.
        by destruct (gr_locks _ _ _ Hw eq_refl) as [-> ->]. }
      assert (∀ w'', idle settings now w'' → pw_control w'' = Some (repaired_projection c desired restore) →
        saved settings now (binding <| rb_Control := repaired_projection c desired restore |>) (repaired_projection c desired restore) w'') as Hrepaired.
      { intros w'' Hi'' Hc''. destruct Hs'. split; [done..|rewrite repaired_account; by destruct binding|by rewrite repaired_account]. }
      intros [[]|err].
      * apply (loaded_quiet _ (λ err, (_, _, err))); [apply recordDesired_quiet|]. intros ?. by apply Hrepaired; [apply idle_upsert; apply Hs'|apply upserted].
      * split; [apply idle_upsert; apply Hs'|done].
    + apply (loaded_quiet _ (λ err, (binding, c, err))); [apply recordDesired_quiet|done].
  - rewrite wp_bind. eapply wp_mono; [|apply submit_load_wp; [exact Hs'|..]].
    + by intros a w'' Ha.
    + split; [done|]. by rewrite Hmode.
    + by eapply grounds_grown.
Qed.

Lemma expired_load_wp binding c settings now w :
  saved settings now binding c w →
  wp (reconcileExpiredLoadControl e binding c settings now) w (λ out, loaded settings now out.1 c out.2).
Proof.
  intros Hs. assert (now ∈ pw_clock w) as Hnow by apply Hs. unfold reconcileExpiredLoadControl. destruct (loadControlExpired c now) eqn:Eexpired; cbn [negb].
  2: { split; [apply Hs|done]. }
  destruct (_ || _) eqn:Eacting.
  - apply quiet_bind; [quiets|]. intros r w' Hw%(grown_locks false). split; [by eapply idle_grown; [|apply Hs]|].
    intros _. by eapply saved_grown.
  - bool_facts. apply submit_load_wp; [done|by split|]. constructor. right. by exists now.
Qed.

Lemma health_only_read c c' w : moves_health_only c c' → as_read w c → as_read w c'.
Proof. intros ->. by destruct c. Qed.
Lemma health_only_account c c' : moves_health_only c c' → ct_AccountID c' = ct_AccountID c.
Proof. intros ->. by destruct c. Qed.
Lemma legacy_health_only binding now c : moves_health_only c (legacy_health_lock binding now c).
Proof. unfold moves_health_only, legacy_health_lock. destruct c. by repeat case_goal. Qed.

Lemma account_wp binding settings now w :
  idle settings now w → as_read w ((rb_Control binding) <| ct_AccountID := acc_ID (rb_Account binding) |>) →
  is_target targets (acc_ID (rb_Account binding)) →
  wp (reconcileAccount e binding settings now) w (λ _, idle settings now).
Proof.
  intros Hi Hread Htarget. unfold reconcileAccount. cbv zeta.
  set (observed := (match bindingMonitorID binding with Some id => _ | None => _ end) <| ct_LastObserved := _ |>).
  assert (as_read w observed ∧ ct_AccountID observed = acc_ID (rb_Account binding)) as [Ho Hid].
  { subst observed. revert Hread. destruct (rb_Control binding), (bindingMonitorID binding); done. }
  clearbody observed. clear Hread. set (advanced := if bool_decide (_ = HealthModeAdaptive) then _ else _).
  assert (moves_health_only observed advanced.1) as Hmoved.
  { subst advanced. destruct (bool_decide _); [eapply moved_health_only, advance_moved|].
    destruct (bool_decide _); [apply legacy_health_only|]. by destruct observed. }
  clearbody advanced. destruct advanced as [c event]. cbn [fst] in Hmoved.
  pose proof (health_only_read _ _ _ Hmoved Ho) as Hc. pose proof (health_only_account _ _ Hmoved) as Hcid. rewrite Hid in Hcid.
  apply quiet_bind; [destruct event; quiets|]. intros _ w1 Hw1.
  assert (as_read w1 c) as Hc1 by (unfold as_read in *; by destruct (gr_locks _ _ _ Hw1 eq_refl) as [-> ->]).
  assert (idle settings now w1) as Hi1 by (eapply idle_grown; [by apply grown_locks|done]).
  apply wp_request; [split; [done|by rewrite Hcid]|]. intros [[]|err]; [|by apply idle_upsert].
  set (b := binding <| rb_Control := c |>). set (w2 := w1 <| pw_control := Some c |>).
  change (observe _ _ _ _ _) with w2.
  assert (saved settings now b c w2) as Hs2.
  { split; [by apply idle_upsert|apply upserted|subst b; by destruct binding|by rewrite Hcid]. }
  assert (as_read w2 c) as Hc2 by (subst w2; by destruct w1).
  clearbody w2 b. rewrite wp_bind.
  eapply (wp_mono (pass_protocol targets) _ w2 (λ out w', loaded settings now out.1.1 out.1.2 out.2 w')).
  - intros [[b' c'] [err|]] w' [Hi' Hs']; [done|]. specialize (Hs' eq_refl).
    assert (st_DryRun settings || bool_decide (st_HealthMode settings = HealthModeObserve) = false → acting settings) as Hd.
    { intros Hd. bool_facts. by split. }
    destruct (policy_locked c') eqn:El; [by apply pause_wp|by apply resume_wp].
  - destruct (bool_decide _) eqn:Emode; bool_facts; [by apply adaptive_load_wp|].
    rewrite wp_bind. eapply wp_mono; [|by apply expired_load_wp]. by intros a w' Ha.
Qed.

(** ** The accounts one after the other *)

Lemma read_control_wp accountID flap now w Q :
  (∀ err w', grown false w w' → Q (Err err) w') →
  (∀ c w', grown false w w' → as_read w' (c <| ct_AccountID := accountID |>) → Q (Ok c) w') →
  wp (read_control accountID flap now) w Q.
Proof.
  intros Herr Hok. unfold read_control.
  apply quiet_bind; [quiets|]. intros [control|err] w1 Hw1; [|apply Herr; by apply grown_locks].
  apply quiet_bind; [quiets|]. intros [recent|err] w2 Hw2; [|apply Herr, grown_locks; by eapply grown_trans].
  assert (grown false w w2) as Hw by (apply grown_locks; by eapply grown_trans).
  apply wp_request; [exact I|]. intros [balance|err]; [|apply Herr; by destruct w2, Hw].
  apply wp_request; [exact I|]. intros [cost|err]; [|apply Herr; by destruct w2, Hw].
  apply Hok; [by destruct w2, Hw|]. by destruct w2, control.
Qed.

Lemma with_decision_wp states healthStates now settings binding w Q :
  (∀ b err w', grown true w w' → acc_ID (rb_Account b) = acc_ID (rb_Account binding) → Q (b, err) w') →
  wp (with_decision states healthStates now settings binding) w Q.
Proof.
  intros HQ. unfold with_decision. destruct (rb_Monitor binding); [|by apply HQ; [apply grown_refl|]].
  apply quiet_bind; [auto|]. intros [decision|err] w' Hw; (apply HQ; [done|by destruct binding]).
Qed.

Lemma flap_wp binding flap now c w Q :
  (∀ err w', grown true w w' → Q (Err err) w') →
  (∀ c' w', grown true w w' → ct_BalanceLocked c' = ct_BalanceLocked c → ct_CostLocked c' = ct_CostLocked c → Q (Ok c') w') →
  wp (reconcile_flap binding flap now c) w Q.
Proof.
  intros Herr Hok. unfold reconcile_flap. rewrite wp_bind. eapply (wp_mono (pass_protocol targets) _ w (λ r (w' : pass_watch),
    grown true w w' ∧ ∀ c', r = Ok c' → ct_BalanceLocked c' = ct_BalanceLocked c ∧ ct_CostLocked c' = ct_CostLocked c)).
  - intros [c1|err] w' [Hw Hl]; [|by apply Herr]. destruct (Hl c1 eq_refl) as [Hb Hc]. destruct (_ && _); [|by apply Hok].
    apply quiet_bind; [quiets|]. intros [[]|err] w'' Hw'; (assert (grown true w w'') by (by eapply grown_trans)); [|by apply Herr].
    apply Hok; [done|by destruct c1..].
  - destruct (_ && _); [|split; [apply grown_refl|by intros c' [= <-]]].
    apply quiet_bind; [quiets|]. intros [[]|err] w' Hw; (split; [exact Hw|intros c' [= <-]]). by destruct c.
Qed.

Lemma binding_wp settings states healthStates now targeted binding w :
  idle settings now w → (targeted = true → is_target targets (acc_ID (rb_Account binding))) →
  wp (reconcile_binding e settings states healthStates now targeted binding) w (λ _, idle settings now).
Proof.
  intros Hi Htarget. unfold reconcile_binding. cbv zeta.
  assert (acc_ID (rb_Account (with_thresholds settings binding)) = acc_ID (rb_Account binding)) as Hid by (by destruct binding).
  rewrite Hid. rewrite wp_bind. apply with_decision_wp. rewrite Hid. intros b [err|] w1 Hw1%(grown_locks false) Hb.
  { by eapply idle_grown. }
  eapply idle_grown in Hi as Hi1; [|exact Hw1]. rewrite wp_bind. apply read_control_wp.
  { intros err w2 Hw2. by eapply idle_grown. }
  intros c w2 Hw2 Hc. eapply idle_grown in Hi1 as Hi2; [|exact Hw2]. destruct targeted; [cbn [negb]|done].
  rewrite wp_bind. apply flap_wp.
  { intros err w3 Hw3. eapply idle_grown; [by apply grown_locks|done]. }
  intros c' w3 Hw3 Hbalance Hcost. rewrite wp_bind. eapply wp_mono; [|apply account_wp].
  - intros [b' [err|]] w4 Hi4; [done|]. rewrite wp_bind. apply read_control_wp.
    + intros err w5 Hw5. by eapply idle_grown.
    + intros c'' w5 Hw5 _. by eapply idle_grown.
  - eapply idle_grown; [by apply grown_locks|done].
  - destruct (gr_locks _ _ _ Hw3 eq_refl) as [Eb Ec]. unfold as_read in *. rewrite Eb, Ec. revert Hc. unfold with_control.
    read_fields. by rewrite Hbalance, Hcost, Hb.
  - unfold with_control. read_fields. rewrite Hb. by apply Htarget.
Qed.

Lemma bindings_wp settings states healthStates now bindings w :
  idle settings now w → wp (reconcile_bindings e settings states healthStates now targets bindings) w (λ _, idle settings now).
Proof.
  intros Hi. apply (wp_for_all (pass_protocol targets) _ (λ _ _, idle settings now)); [done|].
  intros binding rest done w' Hi'. rewrite wp_bind. eapply wp_mono; [|apply binding_wp; [exact Hi'|]].
  - intros [b [err|]] w'' Hi''; [|done]. apply quiet_bind; [apply record_quiet|]. intros _ w3 Hw3.
    eapply idle_grown; [by apply grown_locks|done].
  - unfold is_target. destruct targets; [|done]. by intros Ht%bool_decide_eq_true.
Qed.

(** Before the time of the pass is read. *)
Definition ready (settings : Settings) (w : pass_watch) : Prop := pw_lease w = false ∧ pw_settings w = Some settings.

Lemma ready_bind {A B} (f : A → prog B) (p : prog A) settings w Q :
  ready settings w → quiet p → (∀ a w', ready settings w' → wp (f a) w' Q) → wp (p ≫= f) w Q.
Proof.
  intros [Hl Hs] Hp Hf. apply quiet_bind; [done|]. intros a w' [L S _ _ _]. apply Hf. unfold ready. by rewrite L, S.
Qed.

Lemma idle_bind {A B} (f : A → prog B) (p : prog A) settings now w Q :
  idle settings now w → quiet p → (∀ a w', idle settings now w' → wp (f a) w' Q) → wp (p ≫= f) w Q.
Proof.
  intros Hi Hp Hf. apply quiet_bind; [done|]. intros a w' Hw. apply Hf. eapply idle_grown; [by apply grown_locks|done].
Qed.

Lemma recover_wp : wp recover_pending pass_start (λ _ w, pw_lease w = false).
Proof.
  apply wp_request; [done|]. intros [[]|err]; [|done]. apply wp_request; [done|]. intros r. by apply wp_request.
Qed.

Lemma pass_wp : wp (reconcilePass e targets) pass_start (λ _ _, True).
Proof.
  assert (∀ err w, wp (syncFailed err) w (λ _ _, True)) as Hfailed by (intros; by apply quiet_wp; [apply syncFailed_quiet|]).
  unfold reconcilePass. rewrite wp_bind.
  apply (wp_mono (pass_protocol targets) _ pass_start (λ _ (w : pass_watch), pw_lease w = false)).
  2: { set (recovered := match targets with Some _ => _ | None => _ end).
       assert (recovered = mret None ∨ recovered = recover_pending) as [->| ->] by (destruct targets; auto); [done|apply recover_wp]. }
  intros [err|] w Hl; [apply Hfailed|]. apply wp_request; [exact I|]. intros [settings|err]; [|apply Hfailed].
  set (w1 := w <| pw_settings := Some settings |>). change (observe _ _ _ _ _) with w1.
  assert (ready settings w1) as Hr by (by destruct w). clearbody w1. clear w Hl.
  apply (ready_bind _ _ settings); [done|quiets|]. clear w1 Hr. intros [freeze|err] w Hr; [|apply Hfailed].
  apply (ready_bind _ _ settings); [done|quiets|]. clear w Hr. intros freezeNow w Hr.
  apply (ready_bind _ _ settings); [done|quiets|]. clear w Hr. intros [monitors|err] w Hr; [|apply Hfailed].
  apply (ready_bind _ _ settings); [done|quiets|]. clear w Hr. intros [accounts|err] w Hr; [|apply Hfailed].
  apply (ready_bind _ _ settings); [done|quiets|]. clear w Hr. intros [policies|err] w Hr; [|apply Hfailed].
  apply wp_request; [exact I|]. intros now.
  set (w1 := w <| pw_clock := now :: pw_clock w |>). change (observe _ _ _ _ _) with w1.
  assert (idle settings now w1) as Hi. { subst w1. destruct w, Hr. split_and!; [done..|by left]. }
  clearbody w1. clear w Hr.
  apply (idle_bind _ _ settings now); [done|apply advance_monitors_quiet|]. clear w1 Hi. intros [[states healthStates]|err] w Hi; [|apply Hfailed].
  apply (idle_bind _ _ settings now); [done|quiets|]. clear w Hi. intros [[]|err] w Hi; [|apply Hfailed].
  destruct (ResolveBindings _ _ _) as [[bindings unmatched] conflicts].
  apply (idle_bind _ _ settings now); [done|apply auditConflicts_quiet|]. clear w Hi. intros [] w Hi.
  rewrite wp_bind. eapply wp_mono; [|apply bindings_wp; exact Hi]. intros [bindings' issues] w' _. by apply quiet_wp; [quiets|].
Qed.
End parts.

(** ** The theorem *)

(** C22: every run of a pass, to wherever it gets before it is stopped, asks account control
    only for what the control it saved for the account justifies: the account is one that
    the pass targets; the settings read say neither dry run nor observation; the request is
    the policy's own, revokes and persists no override, is made inside the barrier, and
    asks for a pause only while the health, balance or cost lock is held, for a resumption
    only of a pause the scheduler owns and with the three locks lifted, for the load of the
    stage it saved, or for the load from before once the account is healthy or a temporary
    control of it has ended at the pass's time. The control it saves carries the balance and
    cost locks read last for that account; settings, policies and the freeze state are left
    alone; and the barrier is entered once at a time. *)
Theorem reconcile_submits_on_grounds `{UnicodeTables, FoldTable, UrlParser, JsonFloats} (e : Engine) (targets : option (gset Z)) tr value :
  trace (reconcilePass e targets) tr value → respects (pass_protocol targets) pass_start tr.
Proof. intros Ht. by apply (wp_adequate _ _ _ _ tr value (pass_wp e targets)). Qed.

(** Of an account whose balance has run out the policy asks for a pause. *)
Lemma reconcile_submits_on_grounds_witness :
  let p := @reconcilePass plain_tables plain_folds plain_urls no_floats plain_engine (Some {[7%Z]}) in
  let tr := run_trace on_bench p unfunded_bench in
  (λ s, (in_Operation (sb_Intent s), in_DesiredState (sb_Intent s))) <$> offered tr
    = [(OperationSetAccountSchedulable, schedulableState false)]
  ∧ respects (pass_protocol (Some {[7%Z]})) pass_start tr.
Proof.
  split; [by vm_compute|]. eapply (reconcile_submits_on_grounds (H:=plain_tables) (H0:=plain_folds) (H1:=plain_urls) (H2:=no_floats)).
  apply run_traces.
Defined.
