(* ===== verification/EngineCommands.v ===== *)
(** * Commands of administrators and of the agent

    [internal/reconcile/account_control.go] and [engine.go]: commands become intents with
    the identity of the command, are submitted to account control, and release holds and
    pins; settings, policies and the freeze state are published. *)

From S2P Require Import Prelude GoStd Float JsonText Intent Arbiter Model ModelHealth ModelFailover AccountTypes Bridge JsonRecords Requests Effects AccountService EngineCalls EngineHealth EngineControl EngineAccounts Sha256 AccountQueue BridgeFacts AccountSandbox EngineSandbox.

Section commands.
Context `{UnicodeTables, JsonFloats} (e : Engine).

(** ** Identities *)

Definition administratorCommandRequestKey (commandID : string) : string :=
  stableDigest "administrator-command-v1-" [trim_space commandID].
Definition agentCommandRequestKey (commandID : string) : string :=
  stableDigest "agent-command-v1-" [trim_space commandID].

Definition fallbackReason (value fallback : string) : string :=
  let value := trim_space value in if bool_decide (value = "") then fallback else value.

Definition administratorContext (commandID actor reason : string) (created : time) (expires : option time) : LegacyContext :=
  mkLegacyContext SourceAdministratorRequest (trim_space commandID) (trim_space actor) (trim_space reason) [] "" "" created expires.

Definition explicitAdministrator (actor : string) : option error :=
  let actor := to_lower (trim_space actor) in
  if bool_decide (actor = "") || String.prefix "agent:" actor || bool_decide (actor = "administrator:agent")
  then Some (NewError "account command requires an explicit direct administrator") else None.

(** A retry takes over the lifetime that the first command was journaled with. *)
Definition reuse_lifetime (intent : Intent) (existing : option Mutation) : Intent :=
  match existing with
  | None => intent
  | Some existing =>
      let copy := intent <| in_CreatedAt := mu_CreatedAt existing |> <| in_ExpiresAt := mu_ExpiresAt existing |>
                         <| in_ID := mu_IntentID existing |> in
      match SemanticSignature copy with
      | Ok signature => if bool_decide (signature = mu_SemanticSignature existing) then copy else intent
      | Err _ => intent
      end
  end.

Definition submitConverted (ctx : option CommandContext) (conversion : ConversionResult) (submission : Submission) : prog answer :=
  match mapped_intent conversion with
  | Err err => mret (no_answer, Some err)
  | Ok intent =>
      let key := trim_space (sb_RequestIdempotencyKey submission) in
      let lookupKey := if bool_decide (key = "") then in_IdempotencyKey intent else key in
      try existing ← control (FindMutation lookupKey) catch err => mret (no_answer, Some err);
      submitAccountMutation e ctx (submission <| sb_Intent := reuse_lifetime intent existing |>)
  end.

(** [Event{Type: kind, Severity: severity, Message: message}] *)
Definition command_event (kind severity message : string) : Event := bare_event kind severity None message.

(** A command that persists an override; its intent is set by [submitConverted]. *)
Definition override_submission (commandID requestKey : string) (kind : OverrideKind) (revoke : string) (event : Event) : Submission :=
  mkSubmission commandID no_intent requestKey "" true kind revoke (mkSafetyContext true false) event None.

(** A command that revokes one, after which the policy's own state is asked for. *)
Definition release_submission (commandID : string) (intent : Intent) (requestKey signature revoke : string) (safety : SafetyContext)
    (event : Event) : Submission :=
  mkSubmission commandID intent requestKey signature false "" revoke safety event None.

Definition or_default (ttl : duration) : duration := if (ttl <=? 0)%Z then DefaultAdministratorTTL else ttl.

(** ** Administrators *)

Definition as_administrator (actor : string) (p : prog answer) : prog answer :=
  match explicitAdministrator actor with Some err => mret (no_answer, Some err) | None => p end.

Definition ManualPauseCommand (ctx : option CommandContext) (accountID : Z) (actor commandID : string) : prog answer :=
  as_administrator actor (
  created ← call EngineNow;
  let conversion := AdaptPermanentManualPause
    (mkAccountActionInput (administratorContext commandID actor "manual pause" created None) accountID) in
  submitConverted ctx conversion (override_submission commandID (administratorCommandRequestKey commandID) "" ""
    (command_event "manual_pause" "warning" "账号已由管理端暂停调度"))).

Definition ManualResumeCommand (ctx : option CommandContext) (accountID : Z) (actor commandID : string) (ttl : duration) : prog answer :=
  as_administrator actor (
  created ← call EngineNow;
  let conversion := AdaptTemporaryAdministratorAccountSchedulable
    (mkAccountSchedulableInput (administratorContext commandID actor "manual resume" created (Some (created + or_default ttl)%Z)) accountID true) in
  try hold ← control (FindActiveOverride accountID OperationSetAccountSchedulable AuthorityManualHold)
    catch err => mret (no_answer, Some err);
  submitConverted ctx conversion (override_submission commandID (administratorCommandRequestKey commandID) ""
    (match hold with Some hold => ov_ID hold | None => "" end)
    (command_event "manual_resume" "warning" "管理员临时恢复账号"))).

Definition ForceResumeCommand (ctx : option CommandContext) (accountID : Z) (actor reason commandID : string) (ttl : duration) : prog answer :=
  as_administrator actor (
  created ← call EngineNow;
  let conversion := AdaptTemporaryAdministratorAccountSchedulable
    (mkAccountSchedulableInput (administratorContext commandID actor (fallbackReason reason "administrator force resume") created
       (Some (created + or_default ttl)%Z)) accountID true) in
  submitConverted ctx conversion (override_submission commandID (administratorCommandRequestKey commandID) "" ""
    (command_event "admin_force_resume" "warning" "管理员已提交临时恢复命令"))).

Definition ForceSetLoadFactorCommand (ctx : option CommandContext) (accountID : Z) (value : option Z) (actor reason commandID : string)
    (ttl : duration) : prog answer :=
  as_administrator actor (
  created ← call EngineNow;
  let conversion := AdaptTemporaryAdministratorLoadFactor
    (mkAccountLoadFactorInput (administratorContext commandID actor (fallbackReason reason "administrator load adjustment") created
       (Some (created + or_default ttl)%Z)) accountID value) in
  submitConverted ctx conversion (override_submission commandID (administratorCommandRequestKey commandID) "" ""
    (command_event "admin_force_load_factor" "warning" "管理员已提交临时负载命令"))).

(** The conversion of a permanent pin. *)
Definition permanent_pin (accountID value : Z) (actor reason commandID : string) (created : time) : result error ConversionResult :=
  let metadata := mkIntentMetadata "pending" (stableDigest "pin-idem-v1-" [commandID; format_int accountID]) ProducerAdminUI
    AuthorityManualHold actor reason [] "" "" created None in
  match NewAccountLoadFactorIntent metadata accountID (Some value) with
  | Err err => Err (InvalidIntent err)
  | Ok intent =>
      let signature := match SemanticSignature intent with Ok signature => signature | Err _ => "" end in
      Ok (mkConversionResult (Some (intent <| in_ID := stableDigest "pin-intent-v1-" [in_IdempotencyKey intent; signature] |>))
            ConversionMapped GapNone "")
  end.

Definition PinLoadCommand (ctx : option CommandContext) (accountID value : Z) (until : option time) (permanent : bool)
    (actor reason commandID : string) : prog answer :=
  as_administrator actor (
  created ← call EngineNow;
  let legacy := administratorContext commandID actor (fallbackReason reason "administrator load pin") created until in
  let conversion :=
    if permanent then permanent_pin accountID value actor (lc_Reason legacy) commandID created else
    match until with
    | Some deadline =>
        if after deadline created then Ok (AdaptTemporaryAdministratorLoadFactor (mkAccountLoadFactorInput legacy accountID (Some value)))
        else Err (NewError "temporary load pin requires a future expiration")
    | None => Err (NewError "temporary load pin requires a future expiration")
    end in
  match conversion with
  | Err err => mret (no_answer, Some err)
  | Ok conversion =>
      submitConverted ctx conversion (override_submission commandID (administratorCommandRequestKey commandID) OverrideKindLoadPin ""
        (command_event "load_pin_set" "warning" "管理员已固定账号负载"))
  end).

(** ** Releasing *)

(** A command that was carried out before is answered from the journal. *)
Definition unless_replayed (requestKey signature : string) (p : prog answer) : prog answer :=
  replay ← control (LookupResult requestKey signature);
  match replay with
  | (Some result, err) => mret (result, err)
  | (None, Some err) => mret (no_answer, Some err)
  | (None, None) => p
  end.

Definition refused (text : string) : prog answer := mret (no_answer, Some (NewError text)).

(** The schedulable state the policy's locks ask for, once the hold is revoked. *)
Definition release_hold (ctx : option CommandContext) (accountID : Z) (reason commandID requestKey signature : string) (event : Event)
    : prog answer :=
  unless_replayed requestKey signature (
  try hold ← control (FindActiveOverride accountID OperationSetAccountSchedulable AuthorityManualHold)
    catch err => mret (no_answer, Some err);
  match hold with None => refused "account has no active schedulable ManualHold" | Some hold =>
  snapshot ← call GetSnapshot;
  match findBinding (sn_Bindings snapshot) accountID with
  | None => refused "account is not present in the current policy snapshot"
  | Some binding =>
      try intent ← policySchedulableIntent binding (negb (policy_locked (rb_Control binding))) reason
        catch err => mret (no_answer, Some err);
      let '(intent, safety) := intent in
      submitAccountMutation e ctx (release_submission commandID intent requestKey signature (ov_ID hold) safety event)
  end end).

(** The load the policy began from, once the pin is revoked. *)
Definition find_pin (accountID : Z) : prog (result error (option Override)) :=
  try override ← control (FindActiveOverride accountID OperationSetAccountLoadFactor AuthorityManualHold) catch err => mret (Err err);
  match override with
  | Some override => mret (Ok (Some override))
  | None => control (FindActiveOverride accountID OperationSetAccountLoadFactor AuthorityAdministratorCommand)
  end.

Definition release_pin (ctx : option CommandContext) (accountID : Z) (reason commandID requestKey signature : string) (event : Event)
    : prog answer :=
  unless_replayed requestKey signature (
  try override ← find_pin accountID catch err => mret (no_answer, Some err);
  match override with None => refused "account has no active load pin" | Some override =>
  snapshot ← call GetSnapshot;
  match findBinding (sn_Bindings snapshot) accountID with
  | None => refused "account is not present in the current policy snapshot"
  | Some binding =>
      try intent ← policyLoadIntent binding (ct_OriginalLoadFactor (rb_Control binding)) reason
        catch err => mret (no_answer, Some err);
      let '(intent, safety) := intent in
      submitAccountMutation e ctx (release_submission commandID intent requestKey signature (ov_ID override) safety event)
  end end).

Definition ReleaseManualHoldCommand (ctx : option CommandContext) (accountID : Z) (actor commandID : string) : prog answer :=
  as_administrator actor (
  release_hold ctx accountID "manual hold released" commandID (administratorCommandRequestKey commandID)
    (stableDigest "account-command-sem-v1-" ["release-manual-hold"; format_int accountID; actor])
    (command_event "manual_hold_released" "info" "管理员已解除永久人工保持")).

Definition ClearLoadPinCommand (ctx : option CommandContext) (accountID : Z) (actor reason commandID : string) : prog answer :=
  as_administrator actor (
  let reason := fallbackReason reason "load pin released" in
  release_pin ctx accountID reason commandID (administratorCommandRequestKey commandID)
    (stableDigest "account-command-sem-v1-" ["release-load-pin"; format_int accountID; actor; reason])
    (command_event "load_pin_cleared" "info" "管理员已解除账号负载固定")).

(** ** The agent *)

Definition consumedAdministratorCommand (ctx : option CommandContext) : result error CommandContext :=
  let command := CommandContextFrom ctx in
  if negb (cc_Administrator command) || bool_decide (trim_space (cc_GrantConsumptionID command) = "")
     || negb (bool_decide (cc_CommandID command = cc_GrantConsumptionID command))
  then Err (NewError "account release requires a consumed exact administrator grant") else Ok command.

(** [legacyMutationResult]: of an uncertain write the error is wrapped by [mutation.Wrap]. *)
Inductive legacy_error :=
  | PlainError (err : error)
  | UncertainMutation (operation : string) (err : error).
Definition legacyMutationResult (answer : answer) : option legacy_error :=
  match answer.2 with
  | None => None
  | Some err => Some (if rs_Uncertain answer.1 then UncertainMutation "account mutation" err else PlainError err)
  end.

Definition AgentReleaseManualHold (ctx : option CommandContext) (accountID : Z) (actor reason : string) : prog (option legacy_error) :=
  match consumedAdministratorCommand ctx with
  | Err err => mret (Some (PlainError err))
  | Ok command =>
      let reason := fallbackReason reason "administrator agent released manual hold" in
      answer ← release_hold ctx accountID reason (cc_CommandID command) (agentCommandRequestKey (cc_CommandID command))
        (stableDigest "account-command-sem-v1-" ["agent-release-manual-hold"; format_int accountID; actor; reason])
        (command_event "manual_hold_released" "info" "管理员通过 Agent 解除永久人工保持");
      mret (legacyMutationResult answer)
  end.

Definition AgentReleaseLoadPin (ctx : option CommandContext) (accountID : Z) (actor reason : string) : prog (option legacy_error) :=
  match consumedAdministratorCommand ctx with
  | Err err => mret (Some (PlainError err))
  | Ok command =>
      let reason := fallbackReason reason "administrator agent released load pin" in
      answer ← release_pin ctx accountID reason (cc_CommandID command) (agentCommandRequestKey (cc_CommandID command))
        (stableDigest "account-command-sem-v1-" ["agent-release-load-pin"; format_int accountID; actor; reason])
        (command_event "load_pin_cleared" "info" "管理员通过 Agent 解除负载固定");
      mret (legacyMutationResult answer)
  end.

Definition agentCommandMetadata (ctx : option CommandContext) (actor reason : string)
    : result error (LegacyContext * option AdministratorAuthorization) :=
  let command := CommandContextFrom ctx in
  if bool_decide (cc_CommandID command = "") || is_zero_time (cc_CreatedAt command)
  then Err (NewError "agent account action lacks a durable command identity") else
  if cc_Administrator command && bool_decide (trim_space (cc_GrantConsumptionID command) = "")
  then Err (NewError "administrator agent action lacks consumed exact grant") else
  let '(expires, namespace, authorization) :=
    if cc_Administrator command
    then (DefaultAdministratorTTL, SourceAdministratorGrantConsumption,
          Some (mkAdministratorAuthorization true true true (cc_GrantConsumptionID command)))
    else (DefaultAutonomousTTL, SourceAgentAction, None) in
  let expiresAt := match cc_ExpiresAt command with Some at_ => at_ | None => (cc_CreatedAt command + expires)%Z end in
  if negb (cc_Administrator command) && (MaximumAutonomousTTL <? sub_time expiresAt (cc_CreatedAt command))%Z
  then Err (NewError "autonomous agent override exceeds the two-hour maximum TTL") else
  Ok (mkLegacyContext namespace (cc_CommandID command) actor reason (cc_EvidenceRefs command) "" (cc_SnapshotVersion command)
        (cc_CreatedAt command) (Some expiresAt), authorization).

Definition agentSchedulable (ctx : option CommandContext) (accountID : Z) (value : bool) (actor reason : string) : prog answer :=
  match agentCommandMetadata ctx actor (fallbackReason reason "agent account action") with
  | Err err => mret (no_answer, Some err)
  | Ok (metadata, authorization) =>
      let input := mkAccountSchedulableInput metadata accountID value in
      let conversion := match authorization with
                        | Some authorization => AdaptAgentAdministratorAccountSchedulable input authorization
                        | None => AdaptAutonomousAgentAccountSchedulable input
                        end in
      submitConverted ctx conversion (override_submission (lc_StableSourceID metadata) (agentCommandRequestKey (lc_StableSourceID metadata)) "" ""
        (command_event (if value then "agent_resume" else "agent_pause") "warning" reason))
  end.

Definition agentLoad (ctx : option CommandContext) (accountID : Z) (value : option Z) (actor reason : string) : prog answer :=
  match agentCommandMetadata ctx actor (fallbackReason reason "agent load action") with
  | Err err => mret (no_answer, Some err)
  | Ok (metadata, authorization) =>
      let input := mkAccountLoadFactorInput metadata accountID value in
      let conversion := match authorization with
                        | Some authorization => AdaptAgentAdministratorLoadFactor input authorization
                        | None => AdaptAutonomousAgentLoadFactor input
                        end in
      submitConverted ctx conversion (override_submission (lc_StableSourceID metadata) (agentCommandRequestKey (lc_StableSourceID metadata))
        (cc_OverrideKind (CommandContextFrom ctx)) "" (command_event "agent_load_factor" "warning" reason))
  end.

(** ** The older methods, which make up a command identifier *)

Definition with_command (p : string → prog answer) : prog (option legacy_error) :=
  try commandID ← call NewCommandID catch err => mret (Some (PlainError err));
  answer ← p commandID;
  mret (legacyMutationResult answer).

Definition ManualPause ctx accountID actor := with_command (ManualPauseCommand ctx accountID actor).
Definition ManualResume ctx accountID actor :=
  with_command (λ commandID, ManualResumeCommand ctx accountID actor commandID DefaultAdministratorTTL).
Definition ForceResume ctx accountID actor reason :=
  with_command (λ commandID, ForceResumeCommand ctx accountID actor reason commandID DefaultAdministratorTTL).
Definition ForceSetLoadFactor ctx accountID value actor reason :=
  with_command (λ commandID, ForceSetLoadFactorCommand ctx accountID value actor reason commandID DefaultAdministratorTTL).
Definition PinLoad ctx accountID value (until : time) actor reason :=
  let permanent := is_zero_time until in
  with_command (PinLoadCommand ctx accountID value (if permanent then None else Some until) permanent actor reason).
Definition ClearLoadPin ctx accountID actor reason := with_command (ClearLoadPinCommand ctx accountID actor reason).
Definition ClearOverride ctx accountID actor := with_command (ReleaseManualHoldCommand ctx accountID actor).

Definition AgentPause ctx accountID actor reason : prog (option legacy_error) :=
  answer ← agentSchedulable ctx accountID false actor reason; mret (legacyMutationResult answer).
Definition AgentResume ctx accountID actor reason : prog (option legacy_error) :=
  answer ← agentSchedulable ctx accountID true actor reason; mret (legacyMutationResult answer).
Definition AgentSetLoadFactor ctx accountID value actor reason : prog (option legacy_error) :=
  answer ← agentLoad ctx accountID value actor reason; mret (legacyMutationResult answer).

(** ** Publishing settings, policies and the freeze state *)

Definition under_run {A} (p : prog A) : prog A :=
  _ ← call LockRun; outcome ← p; _ ← call UnlockRun; mret outcome.

Definition as_allowed (actor : string) (p : prog (option error)) : prog (option error) :=
  refusal ← ensureActorAutomationAllowed actor;
  match refusal with Some err => mret (Some err) | None => p end.

Definition requested_mode (state : FreezeState) : string :=
  let mode := trim_space (fs_Mode state) in
  if negb (bool_decide (mode = "")) then mode else
  if fs_AllAutomation state then AgentFreezeModeWritesFrozen else
  if fs_Agent state then AgentFreezeModeAgentPaused else AgentFreezeModeActive.

Definition UpdateFreezeState (state : FreezeState) (actor : string) : prog (option error) :=
  try _ ← call EnterFreeze catch err => mret (Some (Errorf "等待自动化冻结屏障" err));
  outcome ← under_run (
    let actor := trim_space actor in
    if bool_decide (actor = "") then mret (Some (NewError "冻结状态缺少操作者")) else
    try _ ← call (SetAgentFreezeState (mkAgentFreezeState "global" "" (requested_mode state) (trim_space (fs_Reason state)) actor
                                         (fs_ExpiresAt state) zero_time zero_time)) catch err => mret (Some err);
    try current ← FreezeState_read catch err => mret (Some err);
    _ ← call (ModifySnapshot (λ snapshot, snapshot <| sn_Freeze := current |>));
    record (engine_event "automation_freeze_updated" "warning" None None "自动化冻结状态已更新" "" "" (json_freeze current) actor zero_time);;
    _ ← call (RequestFullFrom "freeze_update");
    mret None);
  _ ← call LeaveFreeze;
  mret outcome.

Definition UpdateSettings_ (settings : Settings) (actor : string) : prog (option error) :=
  under_run (as_allowed actor (
    try _ ← call (UpdateSettings settings) catch err => mret (Some err);
    record (engine_event "settings_updated" "info" None None "调度策略已更新" "" "" (json_settings settings) actor zero_time);;
    _ ← call (RequestFullFrom "settings_update");
    mret None)).

(** Policies edited on the web belong to the account. *)
Definition own_policy (actor : string) (policy : Policy) : Policy :=
  if bool_decide (actor = "web")
  then policy <| pol_ScorePolicySource := "account" |> <| pol_ScorePolicyVersionID := None |> else policy.

Definition policy_event (message : string) (policy : Policy) (actor : string) : Event :=
  engine_event "binding_updated" "info" None (Some (pol_AccountID policy)) message "" "" (json_policy policy) actor zero_time.

Definition UpdatePolicy (policy : Policy) (actor : string) : prog (option error) :=
  under_run (as_allowed actor (
    let policy := own_policy actor policy in
    try _ ← call (UpsertPolicy policy) catch err => mret (Some err);
    record (policy_event "账号绑定规则已更新" policy actor);;
    _ ← call (RequestAccountsFrom "policy_update" [pol_AccountID policy]);
    mret None)).

Definition UpdatePolicies (policies : list Policy) (actor : string) : prog (option error) :=
  under_run (as_allowed actor (
    if bool_decide (length policies = 0) then mret (Some (NewError "批量策略不能为空")) else
    let policies := own_policy actor <$> policies in
    if negb (e_batch e) then mret (Some (NewError "策略存储不支持原子批量发布")) else
    try _ ← call (UpsertPolicies policies) catch err => mret (Some err);
    for_all (λ policy _, record (policy_event "账号池策略已原子更新" policy actor)) policies ();;
    _ ← call (RequestAccountsFrom "policy_update" (pol_AccountID <$> policies));
    mret None)).

Definition ClearFlapProtection (accountID : Z) (actor : string) : prog (option error) :=
  as_allowed actor (
    try control ← account (GetControl accountID) catch err => mret (Some err);
    if negb (ct_FlapActive control) then mret (Some (NewError "该账号未处于抖动保护")) else
    now ← call EngineNow;
    let control := clearFlapState control in
    try _ ← call (CommitControlEvents control [flapClearedEvent (Some accountID) (ct_MonitorID control) actor "管理端解除本次抖动保护" now])
      catch err => mret (Some err);
    _ ← call (RequestFullFrom "legacy_trigger");
    mret None).
End commands.

(** * A repeated command is the same command

    A command of an administrator that is issued again, under the identifier of the first
    time but at another time: what it submits is the intent that was journaled, with its
    lifetime and its identity, so that account control answers from the journal. *)

Import Samples.

Inductive AdministratorCommand :=
  | CommandPause
  | CommandResume (ttl : duration)
  | CommandForceResume (reason : string) (ttl : duration)
  | CommandSetLoad (value : option Z) (reason : string) (ttl : duration)
  | CommandPinLoad (value : Z) (until : option time) (permanent : bool) (reason : string).

(** A protocol without a memory. *)
Definition heedless {E : Type → Type} (ok : ∀ R, E R → Prop) : Requests.protocol E := mkProtocol unit (λ _, ok) (λ _ _ _ _, ()).

Lemma heedless_only {E : Type → Type} (ok : ∀ R, E R → Prop) {A} (p : Requests.prog E A) : only ok p → wp (heedless ok) p () (λ _ _, True).
Proof. induction p as [a|R c k IH]; cbn; [done|]. intros [Hc Hk]. split; [done|]. intros r. by apply IH. Qed.

(** An intent without its lifetime and its identity. *)
Definition timeless (i : Intent) : Intent := i <| in_CreatedAt := zero_time |> <| in_ExpiresAt := None |> <| in_ID := "" |>.

Section commands.
Context `{UnicodeTables, JsonFloats} (e : Engine).

Definition issue (ctx : option CommandContext) (accountID : Z) (actor commandID : string) (command : AdministratorCommand) : prog answer :=
  match command with
  | CommandPause => ManualPauseCommand e ctx accountID actor commandID
  | CommandResume ttl => ManualResumeCommand e ctx accountID actor commandID ttl
  | CommandForceResume reason ttl => ForceResumeCommand e ctx accountID actor reason commandID ttl
  | CommandSetLoad value reason ttl => ForceSetLoadFactorCommand e ctx accountID value actor reason commandID ttl
  | CommandPinLoad value until permanent reason => PinLoadCommand e ctx accountID value until permanent actor reason commandID
  end.

(** ** The intent but for its time *)

Definition at_no_time (d : Demand) : Demand :=
  mkDemand (dm_origin d) ((dm_context d) <| lc_CreatedAt := zero_time |> <| lc_ExpiresAt := None |>) (dm_resource d) (dm_operation d) (dm_state d).

Lemma timeless_converted d : timeless (converted d) = timeless (converted (at_no_time d)).
Proof. by destruct d as [origin [] resource operation state]. Qed.

Lemma mapped_timeless rq d i :
  mapped_intent (adapt rq) = Ok i → demand rq = Some d → timeless i = timeless (converted (at_no_time d)).
Proof.
  unfold mapped_intent. destruct (MappedIntent (adapt rq)) as [i'|] eqn:Em; intros [= <-].
  apply mapped_converted in Em as (d' & -> & -> & _). intros [= ->]. apply timeless_converted.
Qed.

(** The conversion of a command issued at a time. *)
Definition conversion_at (accountID : Z) (actor commandID : string) (command : AdministratorCommand) (created : time)
    : result error ConversionResult :=
  let context reason expires := administratorContext commandID actor reason created expires in
  match command with
  | CommandPause => Ok (AdaptPermanentManualPause (mkAccountActionInput (context "manual pause" None) accountID))
  | CommandResume ttl => Ok (AdaptTemporaryAdministratorAccountSchedulable
      (mkAccountSchedulableInput (context "manual resume" (Some (created + or_default ttl)%Z)) accountID true))
  | CommandForceResume reason ttl => Ok (AdaptTemporaryAdministratorAccountSchedulable
      (mkAccountSchedulableInput (context (fallbackReason reason "administrator force resume") (Some (created + or_default ttl)%Z)) accountID true))
  | CommandSetLoad value reason ttl => Ok (AdaptTemporaryAdministratorLoadFactor
      (mkAccountLoadFactorInput (context (fallbackReason reason "administrator load adjustment") (Some (created + or_default ttl)%Z)) accountID value))
  | CommandPinLoad value until permanent reason =>
      let legacy := context (fallbackReason reason "administrator load pin") until in
      if permanent then permanent_pin accountID value actor (lc_Reason legacy) commandID created
      else Ok (AdaptTemporaryAdministratorLoadFactor (mkAccountLoadFactorInput legacy accountID (Some value)))
  end.

Lemma permanent_same accountID value actor reason commandID c1 c2 v1 v2 i1 i2 :
  permanent_pin accountID value actor reason commandID c1 = Ok v1 → mapped_intent v1 = Ok i1 →
  permanent_pin accountID value actor reason commandID c2 = Ok v2 → mapped_intent v2 = Ok i2 → timeless i1 = timeless i2.
Proof.
  assert (∀ c v i, permanent_pin accountID value actor reason commandID c = Ok v → mapped_intent v = Ok i →
    ∃ r s, NewAccountResource accountID = Ok r ∧ loadFactorState (Some value) = Ok s ∧
      timeless i = mkIntent "" (trim_space (stableDigest "pin-idem-v1-" [commandID; format_int accountID])) ProducerAdminUI AuthorityManualHold
        r OperationSetAccountLoadFactor s (trim_space actor) (trim_space reason) (canonicalEvidenceRefs []) (trim_space "") (trim_space "")
        zero_time None) as Hshape.
  { intros c v i. unfold permanent_pin. cbv zeta. destruct (NewAccountLoadFactorIntent _ _ _) as [j|] eqn:Ej; [|done]. intros [= <-].
    unfold mapped_intent, MappedIntent. destruct (ConversionResult_Validate _); [|done]. cbn. intros [= <-].
    unfold NewAccountLoadFactorIntent, newIntent in Ej. inv_result. eauto. }
  intros E1 M1 E2 M2. destruct (Hshape _ _ _ E1 M1) as (r & s & Er & Es & ->), (Hshape _ _ _ E2 M2) as (r' & s' & Er' & Es' & ->).
  rewrite Er in Er'. rewrite Es in Es'. by inv_result.
Qed.

Lemma conversions_same accountID actor commandID command c1 c2 v1 v2 i1 i2 :
  conversion_at accountID actor commandID command c1 = Ok v1 → mapped_intent v1 = Ok i1 →
  conversion_at accountID actor commandID command c2 = Ok v2 → mapped_intent v2 = Ok i2 → timeless i1 = timeless i2.
Proof.
  assert (∀ rq1 rq2 d1 d2 i1 i2, mapped_intent (adapt rq1) = Ok i1 → mapped_intent (adapt rq2) = Ok i2 →
    demand rq1 = Some d1 → demand rq2 = Some d2 → at_no_time d1 = at_no_time d2 → timeless i1 = timeless i2) as Hsame.
  { intros rq1 rq2 d1 d2 j1 j2 M1 M2 D1 D2 E. by rewrite (mapped_timeless _ _ _ M1 D1), (mapped_timeless _ _ _ M2 D2), E. }
  unfold conversion_at. destruct command as [|ttl|reason ttl|value reason ttl|value until permanent reason]; cbv zeta.
  - intros [= <-] M1 [= <-] M2. by eapply (Hsame (PermanentManualPause _) (PermanentManualPause _)).
  - intros [= <-] M1 [= <-] M2. by eapply (Hsame (AdministratorSchedulable _) (AdministratorSchedulable _)).
  - intros [= <-] M1 [= <-] M2. by eapply (Hsame (AdministratorSchedulable _) (AdministratorSchedulable _)).
  - intros [= <-] M1 [= <-] M2. by eapply (Hsame (AdministratorLoadFactor _) (AdministratorLoadFactor _)).
  - destruct permanent; [apply permanent_same|]. intros [= <-] M1 [= <-] M2.
    by eapply (Hsame (AdministratorLoadFactor _) (AdministratorLoadFactor _)).
Qed.

(** ** What is offered *)

Definition offers (P : Submission → Prop) : ∀ R, EngineCall R → Prop := λ R c,
  match c with AccountCall (AddCandidate s) => P s | _ => True end.

(** Replies that are assumed of the journal. *)
Context (assume : ∀ R, EngineCall R → R → Prop).

#[local] Notation offering P p := (wp_assuming (heedless (offers P)) assume p () (λ _ _, True)).

Lemma offering_only {A} P (p : prog A) : only (offers P) p → offering P p.
Proof. intros Hp. by apply wp_assume, heedless_only. Qed.

Lemma offering_bind {A B} P (p : prog A) (f : A → prog B) : only (offers P) p → (∀ a, offering P (f a)) → offering P (p ≫= f).
Proof.
  intros Hp Hf. rewrite wp_assuming_bind. eapply wp_assuming_mono; [|by apply offering_only]. intros a [] _. apply Hf.
Qed.

Lemma submit_offers P ctx s : P s → only (offers P) (submitAccountMutation e ctx s).
Proof.
  intros Hs. assert (only (offers P) (control (Submit ctx s))) as Hsubmit.
  { apply only_lift. eapply only_mono; [|apply Submit_offers]. intros R c Hc. by destruct c; cbn in *; subst. }
  unfold submitAccountMutation. only_steps; auto; done.
Qed.

Lemma converted_offers P ctx conversion s :
  (∀ i existing, mapped_intent conversion = Ok i →
     assume _ (AccountCall (FindAccountMutationByIdempotency (trim_space (sb_RequestIdempotencyKey s)))) (Ok existing) →
     P (s <| sb_Intent := reuse_lifetime i existing |>)) →
  trim_space (sb_RequestIdempotencyKey s) ≠ "" → offering P (submitConverted e ctx conversion s).
Proof.
  intros HP Hkey. unfold submitConverted. destruct (mapped_intent conversion) as [i|err] eqn:Ei; [|done]. cbv zeta.
  rewrite bool_decide_false by done. unfold control, FindMutation. rewrite trim_space_idemp.
  split; [done|]. intros [existing|err] Hr; [|done]. apply offering_only, submit_offers. by apply HP.
Qed.

Lemma request_key commandID : trim_space (administratorCommandRequestKey commandID) = administratorCommandRequestKey commandID.
Proof. apply trim_space_digest, visible_text. by vm_compute. Qed.

Lemma issue_offers P ctx accountID actor commandID command :
  (∀ created conversion i existing s, conversion_at accountID actor commandID command created = Ok conversion →
     mapped_intent conversion = Ok i →
     assume _ (AccountCall (FindAccountMutationByIdempotency (administratorCommandRequestKey commandID))) (Ok existing) →
     sb_RequestIdempotencyKey s = administratorCommandRequestKey commandID → sb_RequestSemanticSignature s = "" →
     P (s <| sb_Intent := reuse_lifetime i existing |>)) →
  offering P (issue ctx accountID actor commandID command).
Proof.
  intros HP.
  assert (∀ created conversion kind revoke event, conversion_at accountID actor commandID command created = Ok conversion →
    offering P (submitConverted e ctx conversion
      (override_submission commandID (administratorCommandRequestKey commandID) kind revoke event))) as Hsubmit.
  { intros created conversion kind revoke event Hc. apply converted_offers; cbn [override_submission sb_RequestIdempotencyKey]; rewrite request_key.
    - intros i existing Hi Hr. by apply (HP created conversion).
    - intros E. by apply (f_equal String.length) in E. }
  destruct command as [|ttl|reason ttl|value reason ttl|value until permanent reason]; cbn [issue].
  - unfold ManualPauseCommand, as_administrator. destruct (explicitAdministrator actor); [done|].
    split; [done|]. intros created _. by apply (Hsubmit created).
  - unfold ManualResumeCommand, as_administrator. destruct (explicitAdministrator actor); [done|].
    split; [done|]. intros created _. apply offering_bind; [by apply only_lift|]. intros [hold|err]; [|done]. by apply (Hsubmit created).
  - unfold ForceResumeCommand, as_administrator. destruct (explicitAdministrator actor); [done|].
    split; [done|]. intros created _. by apply (Hsubmit created).
  - unfold ForceSetLoadFactorCommand, as_administrator. destruct (explicitAdministrator actor); [done|].
    split; [done|]. intros created _. by apply (Hsubmit created).
  - unfold PinLoadCommand, as_administrator. destruct (explicitAdministrator actor); [done|].
    split; [done|]. intros created _. cbv zeta. unfold conversion_at in Hsubmit. destruct permanent; cbn [prog_mbind prog_bind].
    + lazymatch goal with
      | |- context [permanent_pin ?a ?v ?b ?r ?c ?t] => destruct (permanent_pin a v b r c t) as [conversion|err] eqn:Ep; [|done]
      end. by apply (Hsubmit created).
    + destruct until as [until|]; [|done]. destruct (after until created); [|done]. by apply (Hsubmit created).
Qed.
End commands.

Section theorem.
Context `{UnicodeTables, JsonFloats} (e : Engine).

(** The journal holds the row under the key. *)
Definition journaled (key : string) (m : Mutation) : ∀ R, EngineCall R → R → Prop := λ R c,
  match c in EngineCall R return R → Prop with
  | AccountCall c =>
      match c in Call R return R → Prop with
      | FindAccountMutationByIdempotency k => λ r, k = key → r = Ok (Some m)
      | _ => λ _, True
      end
  | _ => λ _, True
  end.

Lemma offered_respects P w tr s : respects (heedless (offers P)) w tr → s ∈ offered tr → P s.
Proof.
  unfold offered. rewrite list_elem_of_omap. intros Hr (x & Hin & Hs). revert w Hr.
  induction tr as [|[R c r] tr IH]; intros w Hr; [by apply elem_of_nil in Hin|]. destruct Hr as [Hc Hr].
  apply elem_of_cons in Hin as [->|Hin]; [|by apply (IH Hin ())]. destruct c; try done. destruct c; try done. by injection Hs as ->.
Qed.

Lemma same_lifetime i j :
  timeless i = timeless j → i <| in_CreatedAt := in_CreatedAt j |> <| in_ExpiresAt := in_ExpiresAt j |> <| in_ID := in_ID j |> = j.
Proof. destruct i, j. unfold timeless, update. cbn. by intros [= -> -> -> -> -> -> -> -> -> -> ->]. Qed.

(** What the journal keeps of an intent. *)
Lemma journaled_intent mid s winner kind now m :
  newMutation mid s winner kind now = Ok m → sb_RequestSemanticSignature s = "" →
  mu_IntentID m = in_ID (sb_Intent s) ∧ mu_CreatedAt m = in_CreatedAt (sb_Intent s) ∧ mu_ExpiresAt m = in_ExpiresAt (sb_Intent s)
  ∧ SemanticSignature (sb_Intent s) = Ok (mu_SemanticSignature m).
Proof.
  unfold newMutation. destruct (SemanticSignature _) as [signature|] eqn:Es; [|done]. destruct (Resource_AccountID _) as [accountID ok].
  cbv zeta. intros [= <-] Hsig. rewrite Hsig, clone_time_id. change (trim_space "") with "". rewrite (bool_decide_true ("" = "")) by done.
  unfold setWinningMutation, setRequestedMutation.
  destruct (Schedulable (in_DesiredState (sb_Intent s))) as [? []], (LoadFactor (in_DesiredState (sb_Intent s))) as [[? []] []],
    (Schedulable (in_DesiredState winner)) as [? []], (LoadFactor (in_DesiredState winner)) as [[? []] []]; by split_and!.
Qed.

Definition from_command (accountID : Z) (actor commandID : string) (command : AdministratorCommand) (s : Submission) : Prop :=
  ∃ created conversion i, conversion_at accountID actor commandID command created = Ok conversion ∧ mapped_intent conversion = Ok i
    ∧ timeless (sb_Intent s) = timeless i ∧ sb_RequestSemanticSignature s = "".

(** C25: a command of an administrator that is issued again under its identifier, at whatever
    time, offers account control the very intent that the first one did, with its lifetime
    and identity, once that was journaled under the command's key, and so an intent with
    the signature of the journal's row, which account control answers from the journal. *)
Theorem retried_command_reuses_lifetime ctx1 ctx2 accountID actor commandID command tr1 v1 s1 mid winner kind now m tr2 v2 s2 :
  trace (issue e ctx1 accountID actor commandID command) tr1 v1 → s1 ∈ offered tr1 →
  newMutation mid s1 winner kind now = Ok m →
  trace (issue e ctx2 accountID actor commandID command) tr2 v2 →
  assumed (journaled (administratorCommandRequestKey commandID) m) tr2 → s2 ∈ offered tr2 →
  sb_Intent s2 = sb_Intent s1 ∧ SemanticSignature (sb_Intent s2) = Ok (mu_SemanticSignature m).
Proof.
  intros Ht1 Hs1 Hm Ht2 Has Hs2.
  assert (from_command accountID actor commandID command s1) as (c1 & v & i1 & Hv1 & Hi1 & Et & Hsig).
  { apply (offered_respects _ () tr1); [|exact Hs1].
    refine (proj1 (wp_assuming_adequate _ (λ _ _ _, True) _ _ _ tr1 v1 _ Ht1 _)); [|by apply Forall_true; intros []].
    apply issue_offers. intros created conversion i existing s Hc Hi _ _ Hs. exists created, conversion, i.
    split_and!; [done..| |by destruct s]. transitivity (timeless (reuse_lifetime i existing)); [by destruct s|].
    unfold reuse_lifetime. destruct existing as [existing|]; [|done]. destruct (SemanticSignature _); [|done].
    case_bool_decide; [by destruct i|done]. }
  destruct (journaled_intent _ _ _ _ _ _ Hm Hsig) as (Eid & Ecreated & Eexpires & Esig).
  assert (sb_Intent s2 = sb_Intent s1) as E; [|by rewrite E].
  apply (offered_respects (λ s2, sb_Intent s2 = sb_Intent s1) () tr2); [|exact Hs2].
  refine (proj1 (wp_assuming_adequate _ _ _ _ _ tr2 v2 _ Ht2 Has)). apply issue_offers.
  intros created conversion i existing s Hc Hi Hr _ _. injection (Hr eq_refl) as ->.
  transitivity (reuse_lifetime i (Some m)); [by destruct s|]. unfold reuse_lifetime. rewrite Eid, Ecreated, Eexpires.
  rewrite (same_lifetime i (sb_Intent s1)).
  - by rewrite Esig, bool_decide_true by done.
  - rewrite Et. exact (conversions_same _ _ _ _ _ _ _ _ _ _ Hc Hi Hv1 Hi1).
Qed.
End theorem.

(** ** A command issued twice *)

Lemma run_assumed {E : Type → Type} {S A} (env : Requests.environment E S) (assume : ∀ R, E R → R → Prop) (p : Requests.prog E A) s :
  (∀ s R c, assume R c (serve env s c).1) → assumed assume (run_trace env p s).
Proof.
  intros Ha. revert s. induction p as [a|R c k IH]; intros s; cbn; [constructor|].
  pose proof (Ha s R c) as Hr. destruct (serve env s c) as [r s']. constructor; [exact Hr|apply IH].
Qed.

(** The bench with a journal that holds a row. *)
Definition replay_serve (m : Mutation) (R : Type) (s : bench) (c : EngineCall R) : R * bench :=
  match c in EngineCall R return R * bench with
  | AccountCall c =>
      match c in Call R return R * bench with
      | FindAccountMutationByIdempotency _ => (Ok (Some m), s)
      | c => bench_serve _ s (AccountCall c)
      end
  | other => bench_serve _ s other
  end.

Definition replaying (m : Mutation) : Requests.environment EngineCall bench := mkEnvironment bench (replay_serve m).

Lemma replaying_journaled key m s R (c : EngineCall R) : journaled key m R c (serve (replaying m) s c).1.
Proof. destruct c; try done. destruct c; done. Qed.

(** A pin of the load that lasts an hour, issued again a minute later. *)
Definition the_pin : AdministratorCommand := CommandSetLoad (Some 40%Z) "too busy" hour.

Definition issuing : Requests.prog EngineCall answer := issue (H:=plain_tables) plain_engine None 7 "alice" "cmd-1" the_pin.

Definition issued_at (env : Requests.environment EngineCall bench) (now : time) : list (Requests.exchange EngineCall) :=
  run_trace env issuing (unfunded_bench <| bn_now := now |>).

Lemma issued_traces env now : ∃ v, trace issuing (issued_at env now) v.
Proof. eexists. apply run_traces. Qed.

Lemma replaying_assumed key m now : assumed (journaled key m) (issued_at (replaying m) now).
Proof. apply run_assumed. intros s R c. apply replaying_journaled. Qed.

Definition first_row : option Mutation :=
  s ← head (offered (issued_at on_bench midnight));
  match newMutation "m-1" s (sb_Intent s) (overrideKindForSubmission s) midnight with Ok m => Some m | Err _ => None end.

Definition retried : option (list (time * option time)) :=
  m ← first_row;
  Some ((λ s, (in_CreatedAt (sb_Intent s), in_ExpiresAt (sb_Intent s))) <$> offered (issued_at (replaying m) (midnight + minute)%Z)).

Lemma retried_command_reuses_lifetime_witness :
  retried = Some [(midnight, Some (midnight + hour)%Z)]
  ∧ ∀ s1 m s2, s1 ∈ offered (issued_at on_bench midnight) →
      newMutation "m-1" s1 (sb_Intent s1) (overrideKindForSubmission s1) midnight = Ok m →
      s2 ∈ offered (issued_at (replaying m) (midnight + minute)%Z) →
      sb_Intent s2 = sb_Intent s1 ∧ SemanticSignature (sb_Intent s2) = Ok (mu_SemanticSignature m).
Proof.
  split; [by vm_compute|]. intros s1 m s2 Hs1 Hm Hs2.
  destruct (issued_traces on_bench midnight) as [v1 H1], (issued_traces (replaying m) (midnight + minute)%Z) as [v2 H2].
  exact (retried_command_reuses_lifetime (H:=plain_tables) plain_engine None None 7 "alice" "cmd-1" the_pin
    _ v1 s1 "m-1" _ _ midnight m _ v2 s2 H1 Hs1 Hm H2 (replaying_assumed _ m _) Hs2).
Defined.
