(* ===== verification/AgentCommands.v ===== *)
(** * Scheduled commands in the store

    The table [agent_scheduled_commands] of [internal/store/agent_v2.go] and its methods:
    the claim of due commands under leases, their renewal, deferral, completion and
    failure, the mark that opens the gate of an external mutation, the quarantine of
    uncertain commands and its resolution, cancellation, the parts of
    [RecoverAgentV2State] and of the retention [CleanupAgentV2Data] that are about
    commands, and the completion of old rows when the store is opened. A method is what it does to the table
    when the engine accepts its statements; [carried] adds the engine's refusals. The
    clock of a method is an argument. [CreateScheduledCommand] is modelled after the
    normalisation of its JSON texts. *)

From S2P Require Import Prelude GoStd TimeText JsonText Json Requests Intent Model ModelFailover AccountTypes Sql AgentGrants AgentGate.

(** ** The data *)

Definition AgentCommandStatusPending : string := "pending".
Definition AgentCommandStatusLeased : string := "leased".
Definition AgentCommandStatusReconciling : string := "reconciling".
Definition AgentCommandStatusCompleted : string := "completed".
Definition AgentCommandStatusFailed : string := "failed".
Definition AgentCommandStatusCancelled : string := "cancelled".
Definition AgentCommandStatusExpired : string := "expired".

Definition validAgentCommandStatus (value : string) : bool :=
  bool_decide (value ∈ [AgentCommandStatusPending; AgentCommandStatusLeased; AgentCommandStatusReconciling; AgentCommandStatusCompleted;
    AgentCommandStatusFailed; AgentCommandStatusCancelled; AgentCommandStatusExpired]).
Definition terminalAgentCommand (status : string) : bool :=
  bool_decide (status ∈ [AgentCommandStatusCompleted; AgentCommandStatusFailed; AgentCommandStatusCancelled; AgentCommandStatusExpired]).

Record ScheduledCommand := mkScheduledCommand {
  sc_ID : Z;
  sc_GoalID : option Z;
  sc_StepID : option Z;
  sc_Capability : string;
  sc_Arguments : string;
  sc_Conditions : string;
  sc_IntentType : string;
  sc_ResourceType : string;
  sc_ResourceIDs : string;
  sc_Operation : string;
  sc_DesiredState : string;
  sc_Status : string;
  sc_Timezone : string;
  sc_ExecuteAt : time;
  sc_ExpiresAt : option time;
  sc_IdempotencyKey : string;
  sc_OccurrenceID : string;
  sc_MissedPolicy : string;
  sc_Authority : string;
  sc_LeaseOwner : string;
  sc_LeaseUntil : option time;
  sc_AttemptCount : Z;
  sc_MaxAttempts : Z;
  sc_MutationAttemptedAt : option time;
  sc_Result : string;
  sc_LastError : string;
  sc_CreatedBy : string;
  sc_CreatedAt : time;
  sc_UpdatedAt : time;
  sc_CompletedAt : option time;
}.

(** The columns of [scheduledCommandSelect]. *)
Definition scheduledCommandSelect : list string :=
  ["id"; "goal_id"; "step_id"; "capability"; "arguments_json"; "conditions_json"; "intent_type"; "resource_type"; "resource_ids_json"; "operation";
   "desired_state_json"; "status"; "timezone"; "execute_at"; "expires_at"; "idempotency_key"; "occurrence_id"; "missed_policy"; "authority";
   "lease_owner"; "lease_until"; "attempt_count"; "max_attempts"; "mutation_attempted_at"; "result_json"; "last_error"; "created_by";
   "created_at"; "updated_at"; "completed_at"].

Definition parseNullableTime (value : option string) : option time :=
  match value with
  | None => None
  | Some s => if bool_decide (s = "") || is_zero_time (parseTime s) then None else Some (parseTime s)
  end.
Definition formatOptionalTime (value : option time) : sqlval :=
  match value with None => SNull | Some t => if is_zero_time t then SNull else SText (formatTime t) end.

Definition scanScheduledCommand : list sqlval → result sql_error ScheduledCommand := scan (
  id ← int_cell; goalID ← null_int_cell; stepID ← null_int_cell; capability ← text_cell; arguments ← text_cell; conditions ← text_cell;
  intentType ← text_cell; resourceType ← text_cell; resourceIDs ← text_cell; operation ← text_cell; desiredState ← text_cell; status ← text_cell;
  timezone ← text_cell; executeAt ← text_cell; expiresAt ← null_text_cell; idempotencyKey ← text_cell; occurrenceID ← text_cell;
  missedPolicy ← text_cell; authority ← text_cell; leaseOwner ← text_cell; leaseUntil ← null_text_cell; attemptCount ← int_cell;
  maxAttempts ← int_cell; mutationAttemptedAt ← null_text_cell; result ← text_cell; lastError ← text_cell; createdBy ← text_cell;
  createdAt ← text_cell; updatedAt ← text_cell; completedAt ← null_text_cell;
  mret (mkScheduledCommand id goalID stepID capability arguments conditions intentType resourceType resourceIDs operation desiredState status
    timezone (parseTime executeAt) (parseNullableTime expiresAt) idempotencyKey occurrenceID missedPolicy authority leaseOwner
    (parseNullableTime leaseUntil) attemptCount maxAttempts (parseNullableTime mutationAttemptedAt) result lastError createdBy
    (parseTime createdAt) (parseTime updatedAt) (parseNullableTime completedAt))).

Inductive command_error :=
  | Refused (text : string)
  | CommandSQL (e : sql_error).

(** [json.Valid], of a text that is not empty. *)
Definition normalizedJSON (value : string) : result command_error string :=
  if bool_decide (value = "") then Ok "{}" else
  match json_parse value with Some _ => Ok value | None => Err (Refused "invalid JSON payload") end.

(** ** Statements *)

Definition int_of (c : string) (r : row) : Z := match column c r with SInt n => n | _ => 0%Z end.
Definition text_of_column (c : string) (r : row) : string := match column c r with SText s => s | _ => "" end.

(** [UPDATE ... SET ... WHERE ...], the assigned values reading the old row, with the
    number of rows affected. *)
Definition update_with (set : row → list (string * sqlval)) (condition : row → bool) (t : table) : Z * table :=
  (count_rows condition t, (λ r, if condition r then list_to_map (set r) ∪ r else r) <$> t).

Definition status_is (status : string) (r : row) : bool := where_eq "status" (SText status) r.
Definition row_is (id : Z) (r : row) : bool := where_eq "id" (SInt id) r.
Definition owned_by (worker : string) (r : row) : bool := status_is AgentCommandStatusLeased r && where_eq "lease_owner" (SText worker) r.

(** [MAX(attempt_count-1,0)], [attempt_count<max_attempts] *)
Definition one_less (r : row) : sqlval := SInt (Z.max (int_of "attempt_count" r - 1) 0).
Definition attempts_left (r : row) : bool := (int_of "attempt_count" r <? int_of "max_attempts" r)%Z.

(** The assignments that end a lease. *)
Definition end_lease (status : string) : list (string * sqlval) :=
  [("status", SText status); ("lease_owner", SText ""); ("lease_until", SNull)].

(** [UPDATE ... WHERE id=? AND ...] of exactly one row. *)
Definition update_one (set : row → list (string * sqlval)) (condition : row → bool) (refusal : string) (t : table)
    : result command_error unit * table :=
  let '(count, t') := update_with set condition t in
  (if (count =? 1)%Z then Ok () else Err (Refused refusal), t').

(** ** Claims *)

(** What a claim first does to the commands whose lease has run out, whose validity has
    ended or whose attempts are used up. *)
Definition lease_lost (nowText : string) (r : row) : bool :=
  status_is AgentCommandStatusLeased r && negb (is_null "lease_until" r) && where_le "lease_until" nowText r.
Definition release_unmarked (nowText : string) (t : table) : table :=
  (update_with (λ r, end_lease AgentCommandStatusPending ++
      [("attempt_count", one_less r); ("last_error", SText "执行租约在外部写入前失联，已安全重新排队"); ("completed_at", SNull); ("updated_at", SText nowText)])
    (λ r, lease_lost nowText r && is_null "mutation_attempted_at" r) t).2.
Definition quarantine_marked (nowText : string) (t : table) : table :=
  (update_with (λ r, end_lease AgentCommandStatusReconciling ++
      [("last_error", if bool_decide (column "last_error" r = SText "") then SText "执行租约已失联，必须回读实际状态" else column "last_error" r);
       ("updated_at", SText nowText)])
    (λ r, lease_lost nowText r && negb (is_null "mutation_attempted_at" r)) t).2.
Definition past_validity (nowText : string) (r : row) : bool :=
  status_is AgentCommandStatusPending r && negb (is_null "expires_at" r) && where_le "expires_at" nowText r.
Definition expire_pending (nowText : string) (t : table) : table :=
  (update_with (λ _, [("status", SText AgentCommandStatusExpired); ("last_error", SText "任务已超过有效期"); ("completed_at", SText nowText);
      ("updated_at", SText nowText)]) (past_validity nowText) t).2.
Definition exhaust_pending (nowText : string) (t : table) : table :=
  (update_with (λ _, [("status", SText AgentCommandStatusFailed); ("last_error", SText "任务重试次数已耗尽"); ("completed_at", SText nowText);
      ("updated_at", SText nowText)]) (λ r, status_is AgentCommandStatusPending r && negb (attempts_left r)) t).2.

Definition claimable (nowText : string) (r : row) : bool :=
  status_is AgentCommandStatusPending r && where_le "execute_at" nowText r && attempts_left r
  && (is_null "expires_at" r || where_gt "expires_at" nowText r).
(** [ORDER BY execute_at,id] *)
Definition by_execution (r1 r2 : row) : bool :=
  val_less (column "execute_at" r1) (column "execute_at" r2)
  || (bool_decide (column "execute_at" r1 = column "execute_at" r2) && val_less (column "id" r1) (column "id" r2)).

Definition get_command (id : Z) (t : table) : result command_error ScheduledCommand :=
  match scan_row scanScheduledCommand (select scheduledCommandSelect (row_is id) unordered t) with Ok item => Ok item | Err e => Err (CommandSQL e) end.

Definition lease_one (worker nowText untilText : string) (id : Z) (t : table) : Z * table :=
  update_with (λ r, [("status", SText AgentCommandStatusLeased); ("lease_owner", SText worker); ("lease_until", SText untilText);
      ("attempt_count", SInt (int_of "attempt_count" r + 1)); ("updated_at", SText nowText)])
    (λ r, row_is id r && status_is AgentCommandStatusPending r) t.

Fixpoint claim_each (worker nowText untilText : string) (ids : list Z) (t : table) : result command_error (list ScheduledCommand * table) :=
  match ids with
  | [] => Ok ([], t)
  | id :: ids =>
      let '(count, t) := lease_one worker nowText untilText id t in
      if negb (count =? 1)%Z then claim_each worker nowText untilText ids t else
      item ← get_command id t;
      claimed ← claim_each worker nowText untilText ids t;
      Ok (item :: claimed.1, claimed.2)
  end.

(** A transaction that is rolled back when its body fails. *)
Definition in_transaction {A} (body : table → result command_error (A * table)) (t : table) : result command_error A * table :=
  match body t with Ok (a, t') => (Ok a, t') | Err e => (Err e, t) end.

Definition ClaimDueScheduledCommands (clock : time) (worker : string) (now leaseDuration limit : Z) (t : table)
    : result command_error (list ScheduledCommand) * table :=
  let worker := trim_space worker in
  if bool_decide (worker = "") || (leaseDuration <=? 0)%Z then (Err (Refused "worker and positive lease duration are required"), t) else
  let limit := if (limit <? 1)%Z || (100 <? limit)%Z then 20%Z else limit in
  let now := if is_zero_time now then clock else now in
  let nowText := formatTime now in
  in_transaction (λ t,
    let t := exhaust_pending nowText (expire_pending nowText (quarantine_marked nowText (release_unmarked nowText t))) in
    ids ← match scan_all (scan int_cell) (take (Z.to_nat limit) (select ["id"] (claimable nowText) by_execution t)) with
          | Ok ids => Ok ids
          | Err e => Err (CommandSQL e)
          end;
    claim_each worker nowText (formatTime (now + leaseDuration)%Z) ids t) t.

Definition RenewScheduledCommandLease (clock : time) (id : Z) (worker : string) (now leaseDuration : Z) (t : table) : result command_error unit * table :=
  if (id <=? 0)%Z || bool_decide (trim_space worker = "") || (leaseDuration <=? 0)%Z then (Err (Refused "invalid scheduled command lease"), t) else
  let now := if is_zero_time now then clock else now in
  update_one (λ _, [("lease_until", SText (formatTime (now + leaseDuration)%Z)); ("updated_at", SText (formatTime now))])
    (λ r, row_is id r && owned_by (trim_space worker) r && where_gt "lease_until" (formatTime now) r)
    "scheduled command lease is not owned or has expired" t.

(** ** What the owner of a lease reports *)

Definition not_owned : string := "scheduled command lease is not owned".

Definition DeferLeasedScheduledCommand (clock : time) (id : Z) (worker message : string) (retryAt : time) (t : table) : result command_error unit * table :=
  if (id <=? 0)%Z || bool_decide (trim_space worker = "") || is_zero_time retryAt then (Err (Refused "invalid scheduled command deferral"), t) else
  update_one (λ r, end_lease AgentCommandStatusPending ++
      [("execute_at", SText (formatTime retryAt)); ("attempt_count", one_less r); ("mutation_attempted_at", SNull); ("result_json", SText "{}");
       ("last_error", SText (trim_space message)); ("updated_at", SText (formatTime clock))])
    (λ r, row_is id r && owned_by (trim_space worker) r) not_owned t.

Definition CompleteScheduledCommand (clock : time) (id : Z) (worker resultJSON : string) (completedAt : time) (t : table) : result command_error unit * table :=
  match normalizedJSON resultJSON with
  | Err err => (Err err, t)
  | Ok resultJSON =>
      let completedAt := if is_zero_time completedAt then clock else completedAt in
      update_one (λ _, end_lease AgentCommandStatusCompleted ++
          [("result_json", SText resultJSON); ("last_error", SText ""); ("completed_at", SText (formatTime completedAt)); ("updated_at", SText (formatTime completedAt))])
        (λ r, row_is id r && owned_by (trim_space worker) r) not_owned t
  end.

Section evidence.
Context `{FoldTable}.

(** [json.Unmarshal] into a structure with the one field [attempted_at]. *)
Definition decode_attempted (members : list (string * json)) : option time :=
  foldl (λ acc m, at_ ← acc; match field_named ["attempted_at"] m.1 with Some _ => decode_time m.2 at_ | None => Some at_ end)
    (Some zero_time) members.
Definition mutationEvidenceTimeMatches (raw : string) (attemptedAt : time) : bool :=
  match json_parse raw with
  | Some (JObject members) =>
      match decode_attempted members with Some at_ => negb (is_zero_time at_) && bool_decide (at_ = attemptedAt) | None => false end
  | _ => false
  end.

Definition RecordScheduledCommandAttemptState (clock : time) (id : Z) (worker resultJSON : string) (attemptedAt : time) (t : table)
    : result command_error unit * table :=
  if is_zero_time attemptedAt then (Err (Refused "scheduled command mutation attempt time is required"), t) else
  match normalizedJSON resultJSON with
  | Err err => (Err err, t)
  | Ok resultJSON =>
      if negb (mutationEvidenceTimeMatches resultJSON attemptedAt)
      then (Err (Refused "scheduled command mutation evidence does not match attempted time"), t) else
      update_one (λ _, [("result_json", SText resultJSON); ("mutation_attempted_at", SText (formatTime attemptedAt)); ("updated_at", SText (formatTime clock))])
        (λ r, row_is id r && owned_by (trim_space worker) r && is_null "mutation_attempted_at" r)
        "scheduled command is not eligible to enter a mutation" t
  end.
End evidence.

(** [retryAt]: when to try again, if at all. The reply is the new status. *)
Definition FailScheduledCommand (clock : time) (id : Z) (worker message : string) (retryAt : option time) (t : table) : result command_error string * table :=
  in_transaction (λ t,
    found ← match scan_row (scan (a ← int_cell; m ← int_cell; mret (a, m)))
              (select ["attempt_count"; "max_attempts"] (λ r, row_is id r && owned_by (trim_space worker) r) unordered t) with
            | Ok found => Ok found
            | Err NoRows => Err (Refused not_owned)
            | Err e => Err (CommandSQL e)
            end;
    let '(attempts, maxAttempts) := found in
    let again := match retryAt with Some at_ => if (attempts <? maxAttempts)%Z then Some at_ else None | None => None end in
    let status := if again then AgentCommandStatusPending else AgentCommandStatusFailed in
    let t := (update_with (λ r, end_lease status ++
        [("execute_at", match again with Some at_ => SText (formatTime at_) | None => column "execute_at" r end);
         ("last_error", SText (trim_space message)); ("completed_at", if again then SNull else SText (formatTime clock));
         ("updated_at", SText (formatTime clock)); ("mutation_attempted_at", if again then SNull else column "mutation_attempted_at" r)])
      (row_is id) t).2 in
    Ok (status, t)) t.

Definition MarkScheduledCommandReconcilingWithResult (clock : time) (id : Z) (worker message resultJSON : string) (t : table)
    : result command_error unit * table :=
  match (if bool_decide (resultJSON = "") then Ok "" else normalizedJSON resultJSON) with
  | Err err => (Err err, t)
  | Ok resultJSON =>
      update_one (λ _, end_lease AgentCommandStatusReconciling ++
          [("last_error", SText (trim_space message)); ("updated_at", SText (formatTime clock))]
          ++ (if bool_decide (resultJSON = "") then [] else [("result_json", SText resultJSON)]))
        (λ r, row_is id r && owned_by (trim_space worker) r) not_owned t
  end.
Definition MarkScheduledCommandReconciling (clock : time) (id : Z) (worker message : string) (t : table) : result command_error unit * table :=
  MarkScheduledCommandReconcilingWithResult clock id worker message "" t.

(** ** The reconciliation of uncertain commands *)

Definition TouchScheduledCommandReconciliation (clock : time) (id : Z) (resultJSON message : string) (t : table) : result command_error unit * table :=
  match normalizedJSON resultJSON with
  | Err err => (Err err, t)
  | Ok resultJSON =>
      update_one (λ _, [("result_json", SText resultJSON); ("last_error", SText (trim_space message)); ("updated_at", SText (formatTime clock))])
        (λ r, row_is id r && status_is AgentCommandStatusReconciling r) "scheduled command is not reconciling" t
  end.

Definition ResolveScheduledCommandReconciliation (clock : time) (id : Z) (status resultJSON message : string) (retryAt : option time) (t : table)
    : result command_error unit * table :=
  if negb (bool_decide (status ∈ [AgentCommandStatusPending; AgentCommandStatusCompleted; AgentCommandStatusFailed]))
  then (Err (Refused "invalid reconciliation result status"), t) else
  match normalizedJSON resultJSON with
  | Err err => (Err err, t)
  | Ok resultJSON =>
      let again := bool_decide (status = AgentCommandStatusPending) in
      if again && bool_decide (retryAt = None) then (Err (Refused "retry time is required when reconciliation returns to pending"), t) else
      in_transaction (λ t,
        found ← match scan_row (scan (a ← int_cell; m ← int_cell; e ← text_cell; mret (a, m, e)))
                  (select ["attempt_count"; "max_attempts"; "execute_at"] (λ r, row_is id r && status_is AgentCommandStatusReconciling r) unordered t) with
                | Ok found => Ok found
                | Err NoRows => Err (Refused "scheduled command is not reconciling")
                | Err e => Err (CommandSQL e)
                end;
        let '(attempts, maxAttempts, executeAt) := found in
        _ ← fail_if (again && (maxAttempts <=? attempts)%Z) (Refused "scheduled command retry limit is exhausted");
        Ok ((), (update_with (λ r, end_lease status ++
            [("execute_at", SText (if again then formatTime (default zero_time retryAt) else executeAt)); ("result_json", SText resultJSON);
             ("last_error", SText (trim_space message)); ("completed_at", if again then SNull else SText (formatTime clock));
             ("updated_at", SText (formatTime clock)); ("mutation_attempted_at", if again then SNull else column "mutation_attempted_at" r)])
          (λ r, row_is id r && status_is AgentCommandStatusReconciling r) t).2)) t
  end.

Definition CancelScheduledCommand (clock : time) (id : Z) (actor reason : string) (t : table) : result command_error unit * table :=
  update_one (λ _, end_lease AgentCommandStatusCancelled ++
      [("last_error", SText (trim_space actor +:+ ": " +:+ trim_space reason)); ("completed_at", SText (formatTime clock)); ("updated_at", SText (formatTime clock))])
    (λ r, row_is id r && where_in "status" [AgentCommandStatusPending; AgentCommandStatusReconciling] r)
    "scheduled command cannot be cancelled in its current state" t.

(** ** Creation *)

(** The values of the insert, without the identifier, which the engine chooses. *)
Definition commandArguments (item : ScheduledCommand) : list sqlval :=
  [nullableInt (sc_GoalID item); nullableInt (sc_StepID item); SText (sc_Capability item); SText (sc_Arguments item); SText (sc_Conditions item);
   SText (sc_IntentType item); SText (sc_ResourceType item); SText (sc_ResourceIDs item); SText (sc_Operation item); SText (sc_DesiredState item);
   SText (sc_Status item); SText (sc_Timezone item); SText (formatTime (sc_ExecuteAt item)); formatOptionalTime (sc_ExpiresAt item);
   SText (sc_IdempotencyKey item); SText (sc_OccurrenceID item); SText (sc_MissedPolicy item); SText (sc_Authority item); SText ""; SNull; SInt 0;
   SInt (sc_MaxAttempts item); formatOptionalTime (sc_MutationAttemptedAt item); SText (sc_Result item); SText (sc_LastError item);
   SText (sc_CreatedBy item); SText (formatTime (sc_CreatedAt item)); SText (formatTime (sc_UpdatedAt item)); SNull].

Definition sameScheduledCommandSemantics (left right : ScheduledCommand) : bool :=
  bool_decide (sc_Capability left = sc_Capability right) && bool_decide (sc_Arguments left = sc_Arguments right)
  && bool_decide (sc_Conditions left = sc_Conditions right) && bool_decide (sc_IntentType left = sc_IntentType right)
  && bool_decide (sc_ResourceType left = sc_ResourceType right) && bool_decide (sc_ResourceIDs left = sc_ResourceIDs right)
  && bool_decide (sc_Operation left = sc_Operation right) && bool_decide (sc_DesiredState left = sc_DesiredState right)
  && bool_decide (sc_Timezone left = sc_Timezone right) && bool_decide (sc_ExecuteAt left = sc_ExecuteAt right)
  && bool_decide (sc_ExpiresAt left = sc_ExpiresAt right) && bool_decide (sc_OccurrenceID left = sc_OccurrenceID right)
  && bool_decide (sc_MissedPolicy left = sc_MissedPolicy right) && bool_decide (sc_Authority left = sc_Authority right)
  && bool_decide (sc_CreatedBy left = sc_CreatedBy right).

(** The checks and defaults; [LoadLocation]: the time zones of the system. *)
Definition prepare_command (LoadLocation : string → bool) (item : ScheduledCommand) : result command_error ScheduledCommand :=
  _ ← fail_if (is_zero_time (sc_ExecuteAt item)) (Refused "invalid scheduled command");
  let item := item <| sc_Capability := trim_space (sc_Capability item) |> <| sc_IdempotencyKey := trim_space (sc_IdempotencyKey item) |> in
  _ ← fail_if (bool_decide (sc_Capability item = "")) (Refused "capability is required");
  _ ← fail_if (bool_decide (sc_IdempotencyKey item = "")) (Refused "idempotency_key is required");
  let item := if bool_decide (sc_Status item = "") then item <| sc_Status := AgentCommandStatusPending |> else item in
  _ ← fail_if (negb (bool_decide (sc_Status item = AgentCommandStatusPending))) (Refused "new scheduled command must be pending");
  let item := if bool_decide (sc_Timezone item = "") then item <| sc_Timezone := "Asia/Shanghai" |> else item in
  _ ← fail_if (negb (LoadLocation (sc_Timezone item))) (Refused "invalid scheduled command timezone");
  let item := if (sc_MaxAttempts item =? 0)%Z then item <| sc_MaxAttempts := 3%Z |> else item in
  _ ← fail_if ((sc_MaxAttempts item <? 1)%Z || (100 <? sc_MaxAttempts item)%Z) (Refused "scheduled command max attempts must be between 1 and 100");
  let item := if bool_decide (sc_IntentType item = "") then item <| sc_IntentType := "scheduled_action" |> else item in
  _ ← fail_if (negb (bool_decide (sc_IntentType item = "scheduled_action"))) (Refused "invalid scheduled command intent type");
  let item := if bool_decide (sc_MissedPolicy item = "") then item <| sc_MissedPolicy := "catch_up_once" |> else item in
  _ ← fail_if (negb (bool_decide (sc_MissedPolicy item ∈ ["skip"; "catch_up_once"]))) (Refused "invalid scheduled command missed policy");
  _ ← fail_if (bool_decide (sc_MissedPolicy item = "skip") && bool_decide (sc_ExpiresAt item = None)) (Refused "skip missed policy requires an expiry window");
  let item := if bool_decide (sc_OccurrenceID item = "") then item <| sc_OccurrenceID := sc_IdempotencyKey item |> else item in
  Ok (if bool_decide (sc_Authority item = "") then item <| sc_Authority := "autonomous_agent" |> else item).

(** The insert of a prepared command, after its JSON texts were normalised: [id] is the
    engine's choice if the row is new. The occurrence is unique where it is not empty. *)
Definition insert_command (clock : time) (id : Z) (item : ScheduledCommand) (t : table) : result command_error ScheduledCommand * table :=
  let item := if bool_decide (sc_CreatedBy item = "") then item <| sc_CreatedBy := "system" |> else item in
  let item := if is_zero_time (sc_CreatedAt item) then item <| sc_CreatedAt := clock |> else item in
  let item := item <| sc_UpdatedAt := clock |> in
  let unique := "id" :: "idempotency_key" :: (if bool_decide (sc_OccurrenceID item = "") then [] else ["occurrence_id"]) in
  match insert_into unique ∅ scheduledCommandSelect (SInt id :: commandArguments item) t with
  | Ok t' => (Ok (item <| sc_ID := id |>), t')
  | Err _ =>
      (match scan_row scanScheduledCommand
           (select scheduledCommandSelect (where_eq "idempotency_key" (SText (trim_space (sc_IdempotencyKey item)))) unordered t) with
       | Ok existing => if sameScheduledCommandSemantics existing item then Ok existing else Err (Refused "scheduled command idempotency conflict")
       | Err e => Err (CommandSQL e)
       end, t)
  end.

(** ** Recovery after a restart *)

(** Which capabilities can be read back. *)
Definition CapabilitySupportsRestartReadback (capability : string) : bool :=
  bool_decide (trim_space capability ∈ ["pause_account"; "resume_account"; "set_load_factor"; "pin_load_until"; "clear_load_pin";
    "clear_flap_protection"; "clear_manual_override"; "update_binding"; "update_upstream_control"; "transition_token_group_tier"]).

(** The counts of the summary, and the goals to plan again and to block. *)
Record recovered := mkRecovered {
  re_Expired : Z;
  re_Failed : Z;
  re_Requeued : Z;
  re_Reconciling : Z;
  re_Replan : gset Z;
  re_Blocked : gset Z;
}.
Definition add_goal (count : Z) (goal : option Z) (goals : gset Z) : gset Z :=
  match goal with Some g => if (count =? 1)%Z then {[g]} ∪ goals else goals | None => goals end.

Record recoveryCommand := mkRecoveryCommand {
  rc_ID : Z;
  rc_GoalID : option Z;
  rc_Status : string;
  rc_Capability : string;
  rc_Attempted : option string;
  rc_ExpiresAt : option string;
}.
Definition scan_recovery : list sqlval → result sql_error recoveryCommand := scan (
  id ← int_cell; goalID ← null_int_cell; status ← text_cell; capability ← text_cell; attempted ← null_text_cell; expiresAt ← null_text_cell;
  mret (mkRecoveryCommand id goalID status capability attempted expiresAt)).

Definition close_as (status message nowText : string) : list (string * sqlval) :=
  end_lease status ++ [("last_error", SText message); ("completed_at", SText nowText); ("updated_at", SText nowText)].

(** What the loop does with one command. *)
Definition recover_command (now : time) (c : recoveryCommand) (s : recovered * table) : recovered * table :=
  let '(summary, t) := s in
  let nowText := formatTime now in
  let leased := bool_decide (rc_Status c = AgentCommandStatusLeased) in
  let marked := bool_decide (is_Some (rc_Attempted c)) in
  if leased && negb marked then
    if match rc_ExpiresAt c with Some text => negb (after (parseTime text) now) | None => false end then
      let '(count, t) := update_with (λ _, close_as AgentCommandStatusExpired "任务在服务停止期间超过有效期，且确认尚未进入外部写入" nowText)
        (λ r, row_is (rc_ID c) r && status_is AgentCommandStatusLeased r && is_null "mutation_attempted_at" r) t in
      (summary <| re_Expired := (re_Expired summary + count)%Z |>, t)
    else
      let '(count, t) := update_with (λ r, end_lease AgentCommandStatusPending ++
          [("attempt_count", one_less r); ("last_error", SText "服务重启发生在外部写入前，已安全重新排队"); ("completed_at", SNull); ("updated_at", SText nowText)])
        (λ r, row_is (rc_ID c) r && status_is AgentCommandStatusLeased r && is_null "mutation_attempted_at" r) t in
      (summary <| re_Requeued := (re_Requeued summary + count)%Z |>, t)
  else if bool_decide (rc_Status c = AgentCommandStatusReconciling) && negb marked then
    let '(count, t) := update_with (λ _, close_as AgentCommandStatusFailed "旧版待核对命令缺少写入边界证据，已失败关闭且不会自动重放" nowText)
      (λ r, row_is (rc_ID c) r && status_is AgentCommandStatusReconciling r && is_null "mutation_attempted_at" r) t in
    (summary <| re_Failed := (re_Failed summary + count)%Z |> <| re_Blocked := add_goal count (rc_GoalID c) (re_Blocked summary) |>, t)
  else if negb (CapabilitySupportsRestartReadback (rc_Capability c)) then
    let '(count, t) := update_with (λ _, close_as AgentCommandStatusFailed "服务重启时该能力无法通过只读状态证明执行结果；旧命令已失败关闭，等待目标重新规划" nowText)
      (λ r, row_is (rc_ID c) r && where_in "status" [AgentCommandStatusLeased; AgentCommandStatusReconciling] r) t in
    (summary <| re_Failed := (re_Failed summary + count)%Z |> <| re_Replan := add_goal count (rc_GoalID c) (re_Replan summary) |>, t)
  else if negb leased then (summary, t)
  else
    let '(count, t) := update_with (λ r, end_lease AgentCommandStatusReconciling ++
        [("last_error", if bool_decide (column "last_error" r = SText "") then SText "服务重启，必须回读实际状态后再处理" else column "last_error" r);
         ("updated_at", SText nowText)])
      (λ r, row_is (rc_ID c) r && status_is AgentCommandStatusLeased r) t in
    (summary <| re_Reconciling := (re_Reconciling summary + count)%Z |>, t).

(** The commands' part of [RecoverAgentV2State]; [now] is not zero. *)
Definition recover_commands (now : time) (t : table) : result command_error recovered * table :=
  let nowText := formatTime now in
  in_transaction (λ t,
    let '(expired, t) := update_with (λ _, close_as AgentCommandStatusExpired "任务在服务停止期间超过有效期" nowText) (past_validity nowText) t in
    let '(failed, t) := update_with (λ _, close_as AgentCommandStatusFailed "任务在重启前已耗尽重试次数" nowText)
      (λ r, status_is AgentCommandStatusPending r && negb (attempts_left r)) t in
    commands ← match scan_all scan_recovery (select ["id"; "goal_id"; "status"; "capability"; "mutation_attempted_at"; "expires_at"]
                       (where_in "status" [AgentCommandStatusLeased; AgentCommandStatusReconciling]) unordered t) with
               | Ok commands => Ok commands
               | Err e => Err (CommandSQL e)
               end;
    Ok (foldl (λ s c, recover_command now c s) (mkRecovered expired failed 0 0 ∅ ∅, t) commands)) t.

(** ** Retention *)

(** [status IN (...) AND COALESCE(completed_at,updated_at)<?] *)
Definition retired (before : time) (r : row) : bool :=
  where_in "status" [AgentCommandStatusCompleted; AgentCommandStatusFailed; AgentCommandStatusCancelled; AgentCommandStatusExpired] r
  && where_lt (if is_null "completed_at" r then "updated_at" else "completed_at") (formatTime before) r.

(** [ON DELETE SET NULL] of a foreign key whose rows with these identifiers go. *)
Definition unlink (c : string) (ids : list Z) (t : table) : table :=
  (update_with (λ _, [(c, SNull)]) (λ r, existsb (λ id, where_eq c (SInt id) r) ids) t).2.

(** What [CleanupAgentV2Data] does to the commands; [steps], [goals]: the rows of the
    other two tables that it deletes, directly or by a cascade. *)
Definition CleanupAgentV2Data (before : time) (steps goals : list Z) (t : table) : result command_error unit * table :=
  if is_zero_time before then (Err (Refused "cleanup boundary is required"), t) else
  (Ok (), unlink "goal_id" goals (unlink "step_id" steps (filter (λ r, retired before r = false) t))).

(** ** Rows of older versions *)

Section migration.
Context `{FoldTable}.

(** The instant of the attempt in the evidence, where there is one. *)
Definition legacyAttempt (raw : string) : option time :=
  match json_parse raw with
  | Some (JObject members) =>
      match decode_attempted members with Some at_ => if is_zero_time at_ then None else Some at_ | None => None end
  | _ => None
  end.
(** [backfillAgentV2MutationAttempts], of one of the commands it has read: an update of
    its own for each. *)
Definition backfillMutationAttempt (id : Z) (t : table) : table :=
  (update_with (λ r, match legacyAttempt (text_of_column "result_json" r) with
                     | Some at_ => [("mutation_attempted_at", SText (formatTime at_))]
                     | None => []
                     end)
    (λ r, row_is id r && where_in "status" [AgentCommandStatusLeased; AgentCommandStatusReconciling] r && is_null "mutation_attempted_at" r) t).2.
End migration.

(** [UPDATE agent_scheduled_commands SET occurrence_id=idempotency_key WHERE occurrence_id=''] *)
Definition backfillOccurrences (t : table) : table :=
  (update_with (λ r, [("occurrence_id", column "idempotency_key" r)]) (where_eq "occurrence_id" (SText "")) t).2.

(** ** Calls of the store *)

Inductive command_call :=
  | CreateCall (clock : time) (id : Z) (item : ScheduledCommand)
  | ClaimCall (clock : time) (worker : string) (now leaseDuration limit : Z)
  | RenewCall (clock : time) (id : Z) (worker : string) (now leaseDuration : Z)
  | DeferCall (clock : time) (id : Z) (worker message : string) (retryAt : time)
  | CompleteCall (clock : time) (id : Z) (worker resultJSON : string) (completedAt : time)
  | AttemptCall (clock : time) (id : Z) (worker resultJSON : string) (attemptedAt : time)
  | FailCall (clock : time) (id : Z) (worker message : string) (retryAt : option time)
  | QuarantineCall (clock : time) (id : Z) (worker message resultJSON : string)
  | TouchCall (clock : time) (id : Z) (resultJSON message : string)
  | ResolveCall (clock : time) (id : Z) (status resultJSON message : string) (retryAt : option time)
  | CancelCall (clock : time) (id : Z) (actor reason : string)
  | RecoverCall (now : time)
  | CleanupCall (before : time) (steps goals : list Z)
  | BackfillCall (id : Z)
  | OccurrenceCall.

Inductive command_reply :=
  | Done
  | Created (item : ScheduledCommand)
  | Claimed (items : list ScheduledCommand)
  | FailedAs (status : string)
  | Recovered (summary : recovered).

Definition replied {A} (f : A → command_reply) (answer : result command_error A * table) : result command_error command_reply * table :=
  (match answer.1 with Ok a => Ok (f a) | Err e => Err e end, answer.2).

Section calls.
Context `{FoldTable}.

Definition perform (c : command_call) (t : table) : result command_error command_reply * table :=
  match c with
  | CreateCall clock id item => replied Created (insert_command clock id item t)
  | ClaimCall clock worker now leaseDuration limit => replied Claimed (ClaimDueScheduledCommands clock worker now leaseDuration limit t)
  | RenewCall clock id worker now leaseDuration => replied (λ _, Done) (RenewScheduledCommandLease clock id worker now leaseDuration t)
  | DeferCall clock id worker message retryAt => replied (λ _, Done) (DeferLeasedScheduledCommand clock id worker message retryAt t)
  | CompleteCall clock id worker resultJSON completedAt => replied (λ _, Done) (CompleteScheduledCommand clock id worker resultJSON completedAt t)
  | AttemptCall clock id worker resultJSON attemptedAt => replied (λ _, Done) (RecordScheduledCommandAttemptState clock id worker resultJSON attemptedAt t)
  | FailCall clock id worker message retryAt => replied FailedAs (FailScheduledCommand clock id worker message retryAt t)
  | QuarantineCall clock id worker message resultJSON => replied (λ _, Done) (MarkScheduledCommandReconcilingWithResult clock id worker message resultJSON t)
  | TouchCall clock id resultJSON message => replied (λ _, Done) (TouchScheduledCommandReconciliation clock id resultJSON message t)
  | ResolveCall clock id status resultJSON message retryAt => replied (λ _, Done) (ResolveScheduledCommandReconciliation clock id status resultJSON message retryAt t)
  | CancelCall clock id actor reason => replied (λ _, Done) (CancelScheduledCommand clock id actor reason t)
  | RecoverCall now => replied Recovered (recover_commands now t)
  | CleanupCall before steps goals => replied (λ _, Done) (CleanupAgentV2Data before steps goals t)
  | BackfillCall id => (Ok Done, backfillMutationAttempt id t)
  | OccurrenceCall => (Ok Done, backfillOccurrences t)
  end.

(** What the store may be asked to insert: a prepared command with an identifier that was
    never used. *)
Definition insertable (c : command_call) (used : list sqlval) : Prop :=
  match c with
  | CreateCall _ id item => SInt id ∉ used ∧ sc_Status item = AgentCommandStatusPending ∧ (1 ≤ sc_MaxAttempts item ≤ 100)%Z
  | _ => True
  end.

(** The table, and the identifiers of the rows that were deleted: the column is
    [AUTOINCREMENT], which never gives them again. *)
Definition books : Type := table * list sqlval.
Definition ids (t : table) : list sqlval := column "id" <$> t.
Definition after_call (s : books) (t : table) : books := (t, s.2 ++ filter (λ id, id ∉ ids t) (ids s.1)).

(** A call: done, or refused by the engine, before or after the commit. *)
Definition carried (s : books) (c : command_call) (r : result command_error command_reply) (s' : books) : Prop :=
  insertable c (ids s.1 ++ s.2)
  ∧ ∃ t, s' = after_call s t
      ∧ ((r, t) = perform c s.1 ∨ ∃ text, r = Err (CommandSQL (EngineError text)) ∧ (t = s.1 ∨ t = (perform c s.1).2)).

Inductive history : books → list (command_call * result command_error command_reply) → books → Prop :=
  | HistoryNone s : history s [] s
  | HistoryMore s log s' c r s'' : history s log s' → carried s' c r s'' → history s (log ++ [(c, r)]) s''.
End calls.

(** * What the table guarantees *)

(** ** Rows *)

(** The status of a command with its attempts, their bound, the lease, the mark of its
    mutation and the end. *)
Inductive shape : string → Z → Z → sqlval → sqlval → sqlval → sqlval → Prop :=
  | ShapePending n m mark : (0 ≤ n ≤ m)%Z → shape AgentCommandStatusPending n m (SText "") SNull mark SNull
  | ShapeLeased n m worker until mark : (1 ≤ n ≤ m)%Z → worker ≠ "" → shape AgentCommandStatusLeased n m (SText worker) (SText until) mark SNull
  | ShapeReconciling n m mark : (0 ≤ n ≤ m)%Z → shape AgentCommandStatusReconciling n m (SText "") SNull mark SNull
  | ShapeClosed status n m mark at_ : terminalAgentCommand status = true → (0 ≤ n ≤ m)%Z → shape status n m (SText "") SNull mark (SText at_).

Record seen (r : row) (status : string) (n m : Z) (owner until mark completed : sqlval) : Prop := {
  seen_status : column "status" r = SText status;
  seen_attempts : column "attempt_count" r = SInt n;
  seen_max : column "max_attempts" r = SInt m;
  seen_owner : column "lease_owner" r = owner;
  seen_until : column "lease_until" r = until;
  seen_mark : column "mutation_attempted_at" r = mark;
  seen_completed : column "completed_at" r = completed;
}.
Definition command_ok (r : row) : Prop :=
  ∃ status n m owner until mark completed, seen r status n m owner until mark completed ∧ shape status n m owner until mark completed.

Definition terminal (r : row) : Prop := terminalAgentCommand (text_of_column "status" r) = true.
Definition marked (r : row) : Prop := column "mutation_attempted_at" r ≠ SNull.
(** The attempts that have entered their mutation, or may have: all but one that is leased
    and has not. *)
Definition spent (r : row) : Z :=
  int_of "attempt_count" r - (if status_is AgentCommandStatusLeased r && is_null "mutation_attempted_at" r then 1 else 0).

(** The calls that clear the mark of a command. *)
Definition releases (c : command_call) (id : Z) : bool :=
  match c with
  | DeferCall _ id' _ _ _ => bool_decide (id' = id)
  | FailCall _ id' _ _ (Some _) => bool_decide (id' = id)
  | ResolveCall _ id' status _ _ _ => bool_decide (id' = id) && bool_decide (status = AgentCommandStatusPending)
  | _ => false
  end.
Definition deferral (c : command_call) (id : Z) : Z := match c with DeferCall _ id' _ _ _ => if bool_decide (id' = id) then 1 else 0 | _ => 0 end.

(** What may still happen to the row of a closed command: the goal or the step it belonged
    to is deleted, and an occurrence that older versions left empty is named. *)
Record closed_as (r r' : row) : Prop := {
  cl_same c : c ∉ ["goal_id"; "step_id"; "occurrence_id"] → column c r' = column c r;
  cl_goal : column "goal_id" r' = column "goal_id" r ∨ column "goal_id" r' = SNull;
  cl_step : column "step_id" r' = column "step_id" r ∨ column "step_id" r' = SNull;
  cl_occurrence : column "occurrence_id" r' = column "occurrence_id" r
    ∨ column "occurrence_id" r = SText "" ∧ column "occurrence_id" r' = column "idempotency_key" r;
}.
(** And the retention deletes it. *)
Definition discards (c : command_call) (r : row) : Prop :=
  match c with CleanupCall before _ _ => retired before r = true | _ => False end.

#[export] Instance closed_as_preorder : PreOrder closed_as.
Proof.
  split; [intros r; split; auto|]. intros r r1 r2 [H1 Hg1 Hs1 Ho1] [H2 Hg2 Hs2 Ho2]. split.
  - intros c Hc. by rewrite H2, H1.
  - destruct Hg2 as [E|E]; rewrite E; auto.
  - destruct Hs2 as [E|E]; rewrite E; auto.
  - rewrite (H1 "idempotency_key") in Ho2 by (apply (bool_decide_unpack _); by vm_compute).
    destruct Ho1 as [E|[E E']], Ho2 as [E2|[E2 E2']]; rewrite ?E, ?E2, ?E2' in *; auto.
Qed.

(** How one call may change one row. *)
Record moves (c : command_call) (r r' : row) : Prop := {
  moves_ok : command_ok r';
  moves_id : column "id" r' = column "id" r;
  moves_terminal : terminal r → closed_as r r';
  moves_spent id : column "id" r = SInt id → (spent r ≤ spent r' + deferral c id)%Z;
  moves_marked id : column "id" r = SInt id → releases c id = false → marked r → marked r';
}.

(** ** Updates *)

Fixpoint assigned (c : string) (set : list (string * sqlval)) : option sqlval :=
  match set with [] => None | (k, v) :: set => if String.eqb c k then Some v else assigned c set end.

Lemma column_set c set r : column c (list_to_map set ∪ r) = default (column c r) (assigned c set).
Proof.
  unfold column. induction set as [|[k v] set IH]; cbn; [by rewrite map_empty_union|].
  destruct (String.eqb_spec c k) as [->|Hne]; rewrite <-insert_union_l.
  - by rewrite lookup_insert_eq.
  - rewrite lookup_insert_ne by done. exact IH.
Qed.

Ltac read_assigned := rewrite ?column_set; cbn [assigned String.eqb Ascii.eqb Bool.eqb default from_option app end_lease close_as id].

Lemma status_is_iff status r : status_is status r = true ↔ column "status" r = SText status.
Proof. unfold status_is, where_eq. rewrite andb_true_iff, !bool_decide_eq_true. naive_solver. Qed.
Lemma row_is_iff id r : row_is id r = true ↔ column "id" r = SInt id.
Proof. unfold row_is, where_eq. rewrite andb_true_iff, !bool_decide_eq_true. naive_solver. Qed.
Lemma is_null_iff c r : is_null c r = true ↔ column c r = SNull.
Proof. unfold is_null. apply bool_decide_eq_true. Qed.

Lemma spent_seen r status n m owner until mark completed :
  seen r status n m owner until mark completed →
  spent r = (n - (if bool_decide (status = AgentCommandStatusLeased) && bool_decide (mark = SNull) then 1 else 0))%Z.
Proof.
  intros [Hs Ha _ _ _ Hk _]. unfold spent, int_of, status_is, where_eq, is_null. rewrite Hs, Ha, Hk.
  rewrite (bool_decide_true (SText AgentCommandStatusLeased ≠ SNull)) by done. cbn [andb].
  rewrite (bool_decide_ext (SText status = SText AgentCommandStatusLeased) (status = AgentCommandStatusLeased)) by naive_solver. done.
Qed.

(** An update of a row that is described before and after. *)
Lemma moves_seen c set (r : row) status n m owner until mark completed status' n' owner' until' mark' completed' :
  seen r status n m owner until mark completed →
  seen (list_to_map set ∪ r) status' n' m owner' until' mark' completed' → shape status' n' m owner' until' mark' completed' →
  assigned "id" set = None → terminalAgentCommand status = false →
  (∀ id, column "id" r = SInt id →
    (n - (if bool_decide (status = AgentCommandStatusLeased) && bool_decide (mark = SNull) then 1 else 0)
     ≤ n' - (if bool_decide (status' = AgentCommandStatusLeased) && bool_decide (mark' = SNull) then 1 else 0) + deferral c id)%Z
    ∧ (releases c id = false → mark ≠ SNull → mark' ≠ SNull)) →
  moves c r (list_to_map set ∪ r).
Proof.
  intros Hr Hr' Hshape Hid Hopen Hc. constructor.
  - by exists status', n', m, owner', until', mark', completed'.
  - rewrite column_set, Hid. done.
  - unfold terminal, text_of_column. rewrite (seen_status _ _ _ _ _ _ _ _ Hr), Hopen. done.
  - intros id E. destruct (Hc id E) as [Hle _]. erewrite (spent_seen r), (spent_seen (_ ∪ _)) by done. done.
  - intros id E Hrel. destruct (Hc id E) as [_ Hm]. unfold marked. rewrite (seen_mark _ _ _ _ _ _ _ _ Hr), (seen_mark _ _ _ _ _ _ _ _ Hr'). by apply Hm.
Qed.

Lemma moves_refl c r : command_ok r → (∀ id, 0 ≤ deferral c id)%Z → moves c r r.
Proof. intros Hok Hd. constructor; try done. intros id _. specialize (Hd id). lia. Qed.

Lemma deferral_nonneg c id : (0 ≤ deferral c id)%Z.
Proof. unfold deferral. destruct c; try done. by case_bool_decide. Qed.

Lemma moves_trans c r r' r'' : (∀ id, deferral c id = 0%Z) → moves c r r' → moves c r' r'' → moves c r r''.
Proof.
  intros Hd H1 H2. constructor.
  - apply H2.
  - rewrite (moves_id _ _ _ H2). apply H1.
  - intros Ht. pose proof (moves_terminal _ _ _ H1 Ht) as Hc. transitivity r'; [done|]. apply (moves_terminal _ _ _ H2).
    unfold terminal, text_of_column in *. rewrite (cl_same _ _ Hc "status"); [done|]. apply (bool_decide_unpack _). by vm_compute.
  - intros id E. pose proof (moves_spent _ _ _ H1 id E). pose proof (moves_spent _ _ _ H2 id ltac:(by rewrite (moves_id _ _ _ H1))). rewrite Hd in *. lia.
  - intros id E Hr Hm. apply (moves_marked _ _ _ H2 id); [by rewrite (moves_id _ _ _ H1)|done|]. by apply (moves_marked _ _ _ H1 id).
Qed.

(** ** Tables *)

Definition all_move (c : command_call) (t t' : table) : Prop := Forall2 (λ r r', command_ok r → moves c r r') t t'.

Lemma all_move_refl c t : all_move c t t.
Proof. apply Forall_Forall2_diag, Forall_forall. intros r _ Hok. apply moves_refl; [done|apply deferral_nonneg]. Qed.

Lemma all_move_trans c t t' t'' : (∀ id, deferral c id = 0%Z) → all_move c t t' → all_move c t' t'' → all_move c t t''.
Proof.
  intros Hd H1 H2. eapply Forall2_trans; [|exact H1|exact H2]. intros r r' r'' Hm Hm' Hok.
  pose proof (Hm Hok) as Hmove. eapply moves_trans; [done|done|]. apply Hm', Hmove.
Qed.

Lemma update_moves c set condition t :
  (∀ r, command_ok r → condition r = true → moves c r (list_to_map (set r) ∪ r)) → all_move c t (update_with set condition t).2.
Proof.
  intros Hset. unfold all_move, update_with. cbn. apply Forall2_fmap_r, Forall_Forall2_diag, Forall_forall.
  intros r _ Hok. destruct (condition r) eqn:E; [by apply Hset|]. apply moves_refl; [done|apply deferral_nonneg].
Qed.

Lemma update_one_moves c set condition refusal t :
  (∀ r, command_ok r → condition r = true → moves c r (list_to_map (set r) ∪ r)) → all_move c t (update_one set condition refusal t).2.
Proof. intros Hset. by apply (update_moves c set condition t). Qed.

(** ** Each method *)

Lemma where_le_text c text (r : row) : where_le c text r = true → ∃ s, column c r = SText s.
Proof. unfold where_le. destruct (column c r); try done. by eexists. Qed.

Lemma attempts_left_iff r status n m owner until mark completed :
  seen r status n m owner until mark completed → attempts_left r = (n <? m)%Z.
Proof. intros [_ Ha Hm _ _ _ _]. unfold attempts_left, int_of. by rewrite Ha, Hm. Qed.

Lemma not_closed status : terminalAgentCommand status = true →
  status ≠ AgentCommandStatusPending ∧ status ≠ AgentCommandStatusLeased ∧ status ≠ AgentCommandStatusReconciling.
Proof. intros H. split_and!; intros ->; by vm_compute in H. Qed.

(** A command with a status that is known. *)
Lemma leased_seen r : command_ok r → status_is AgentCommandStatusLeased r = true →
  ∃ n m worker until mark, seen r AgentCommandStatusLeased n m (SText worker) (SText until) mark SNull ∧ (1 ≤ n ≤ m)%Z ∧ worker ≠ "".
Proof.
  intros (s & n & m & o & u & k & e & Hseen & Hshape) Hst%status_is_iff. rewrite (seen_status _ _ _ _ _ _ _ _ Hseen) in Hst. injection Hst as ->.
  inversion Hshape as [|? ? worker until ? Hn Hw| |? ? ? ? ? Hclosed]; subst; [by exists n, m, worker, until, k|]. by apply not_closed in Hclosed as (_ & ? & _).
Qed.
Lemma pending_seen r : command_ok r → status_is AgentCommandStatusPending r = true →
  ∃ n m mark, seen r AgentCommandStatusPending n m (SText "") SNull mark SNull ∧ (0 ≤ n ≤ m)%Z.
Proof.
  intros (s & n & m & o & u & k & e & Hseen & Hshape) Hst%status_is_iff. rewrite (seen_status _ _ _ _ _ _ _ _ Hseen) in Hst. injection Hst as ->.
  inversion Hshape as [| | |? ? ? ? ? Hclosed]; subst; [by exists n, m, k|]. by apply not_closed in Hclosed as (? & _).
Qed.
Lemma reconciling_seen r : command_ok r → status_is AgentCommandStatusReconciling r = true →
  ∃ n m mark, seen r AgentCommandStatusReconciling n m (SText "") SNull mark SNull ∧ (0 ≤ n ≤ m)%Z.
Proof.
  intros (s & n & m & o & u & k & e & Hseen & Hshape) Hst%status_is_iff. rewrite (seen_status _ _ _ _ _ _ _ _ Hseen) in Hst. injection Hst as ->.
  inversion Hshape as [| | |? ? ? ? ? Hclosed]; subst; [by exists n, m, k|]. by apply not_closed in Hclosed as (_ & _ & ?).
Qed.

(** The row after an update, as it is seen from what is assigned and what was seen. *)
Ltac see_assigned Hseen :=
  destruct Hseen as [Hcs Hca Hcm Hco Hcu Hck Hcc]; constructor; read_assigned; unfold one_less, int_of; rewrite ?Hca; eauto.

(** The obligations of [moves_seen]: the new columns, the new shape and the two counts. *)
Ltac count_le := cbn [deferral]; repeat case_bool_decide; cbn [andb]; solve [done|lia].
Ltac count_moves Hd :=
  first [done | by (constructor; lia) | let i := fresh "i" in intros i _; rewrite ?Hd; split; [count_le|done]].

(** A row that is closed, its attempts and its mark as they were. *)
Lemma closing c set (r : row) status at_ :
  command_ok r → ¬ terminal r → terminalAgentCommand status = true →
  column "status" (list_to_map set ∪ r) = SText status → column "lease_owner" (list_to_map set ∪ r) = SText "" →
  column "lease_until" (list_to_map set ∪ r) = SNull → column "completed_at" (list_to_map set ∪ r) = SText at_ →
  assigned "id" set = None → assigned "attempt_count" set = None → assigned "max_attempts" set = None →
  default (column "mutation_attempted_at" r) (assigned "mutation_attempted_at" set) = column "mutation_attempted_at" r →
  moves c r (list_to_map set ∪ r).
Proof.
  intros (s & n & m & o & u & k & e & Hseen & Hshape) Hopen Hterm Hs Ho Hu Hc Hid Ha Hm Hk.
  assert (terminalAgentCommand s = false) as Hs'.
  { apply not_true_iff_false. intros Ht. apply Hopen. unfold terminal, text_of_column. by rewrite (seen_status _ _ _ _ _ _ _ _ Hseen). }
  apply (moves_seen _ _ _ _ _ _ _ _ _ _ status n (SText "") SNull k (SText at_) Hseen); [| |done|done|].
  - destruct Hseen as [Hcs Hca Hcm Hco Hcu Hck Hcc]. constructor; try done; rewrite column_set, ?Ha, ?Hm, ?Hk; done.
  - constructor; [done|]. by inversion Hshape; lia.
  - intros id _. split; [|done]. pose proof (deferral_nonneg c id). destruct (not_closed _ Hterm) as (_ & Hl & _).
    rewrite (bool_decide_false (status = _)) by done. cbn [andb]. destruct (bool_decide _ && bool_decide _); lia.
Qed.

Lemma open_status r status : status_is status r = true → terminalAgentCommand status = false → ¬ terminal r.
Proof. intros Hst%status_is_iff Hopen. unfold terminal, text_of_column. by rewrite Hst, Hopen. Qed.

Lemma pending_lease r : command_ok r → status_is AgentCommandStatusPending r = true → column "lease_owner" r = SText "" ∧ column "lease_until" r = SNull.
Proof. intros Hok Hst. by destruct (pending_seen r Hok Hst) as (n & m & mark & [] & _). Qed.

Lemma expired_moves c nowText t : all_move c t (expire_pending nowText t).
Proof.
  apply update_moves. intros r Hok Hp. unfold past_validity in Hp. rewrite !andb_true_iff in Hp. destruct Hp as [[Hst _] _].
  destruct (pending_lease r Hok Hst) as [Ho Hu].
  eapply closing; [exact Hok|by eapply open_status|apply (eq_refl : terminalAgentCommand AgentCommandStatusExpired = true)|by read_assigned..].
Qed.

Lemma exhausted_moves c nowText t : all_move c t (exhaust_pending nowText t).
Proof.
  apply update_moves. intros r Hok [Hst _]%andb_true_iff. destruct (pending_lease r Hok Hst) as [Ho Hu].
  eapply closing; [exact Hok|by eapply open_status|apply (eq_refl : terminalAgentCommand AgentCommandStatusFailed = true)|by read_assigned..].
Qed.

(** A leased command that is put aside: its mark stays. *)
Lemma aside set c (r : row) :
  command_ok r → status_is AgentCommandStatusLeased r = true → (∀ id, deferral c id = 0%Z) →
  assigned "status" set = Some (SText AgentCommandStatusReconciling) → assigned "lease_owner" set = Some (SText "") →
  assigned "lease_until" set = Some SNull → assigned "id" set = None → assigned "attempt_count" set = None → assigned "max_attempts" set = None →
  assigned "mutation_attempted_at" set = None → assigned "completed_at" set = None →
  moves c r (list_to_map set ∪ r).
Proof.
  intros Hok Hst Hd Hs Ho Hu Hid Ha Hm Hk Hc. destruct (leased_seen r Hok Hst) as (n & m & worker & until & mark & Hseen & Hn & Hw).
  apply (moves_seen _ _ _ _ _ _ _ _ _ _ AgentCommandStatusReconciling n (SText "") SNull mark SNull Hseen); [|count_moves Hd..].
  destruct Hseen as [Hcs Hca Hcm Hco Hcu Hck Hcc]. by constructor; rewrite column_set, ?Hs, ?Ho, ?Hu, ?Ha, ?Hm, ?Hk, ?Hc.
Qed.

Lemma quarantined_moves c nowText t : (∀ id, deferral c id = 0%Z) → all_move c t (quarantine_marked nowText t).
Proof.
  intros Hd. apply update_moves. intros r Hok [Hlost _]%andb_true_iff. unfold lease_lost in Hlost. rewrite !andb_true_iff in Hlost.
  destruct Hlost as [[Hst _] _]. by apply aside.
Qed.

Lemma leased_moves c worker nowText untilText id t :
  (∀ i, deferral c i = 0%Z) → worker ≠ "" → (∀ r, r ∈ t → row_is id r = true → status_is AgentCommandStatusPending r = true → attempts_left r = true) →
  all_move c t (lease_one worker nowText untilText id t).2.
Proof.
  intros Hd Hw Hleft. unfold all_move, lease_one, update_with. cbn [snd]. apply Forall2_fmap_r, Forall_Forall2_diag, Forall_forall. intros r Hr Hok.
  destruct (row_is id r && status_is AgentCommandStatusPending r) eqn:E; [|apply moves_refl; [done|apply deferral_nonneg]].
  apply andb_true_iff in E as [Hid Hst]. specialize (Hleft r Hr Hid Hst).
  destruct (pending_seen r Hok Hst) as (n & m & mark & Hseen & Hn). rewrite (attempts_left_iff _ _ _ _ _ _ _ _ Hseen), Z.ltb_lt in Hleft.
  apply (moves_seen _ _ _ _ _ _ _ _ _ _ AgentCommandStatusLeased (n + 1) (SText worker) (SText untilText) mark SNull Hseen);
    [see_assigned Hseen|apply ShapeLeased; [lia|done]|count_moves Hd..].
Qed.

Lemma requeued_moves c message nowText (r : row) : (∀ id, deferral c id = 0%Z) →
  command_ok r → status_is AgentCommandStatusLeased r = true → is_null "mutation_attempted_at" r = true →
  moves c r (list_to_map (end_lease AgentCommandStatusPending ++
    [("attempt_count", one_less r); ("last_error", SText message); ("completed_at", SNull); ("updated_at", SText nowText)]) ∪ r).
Proof.
  intros Hd Hok Hst Hnull%is_null_iff. destruct (leased_seen r Hok Hst) as (n & m & worker & until & mark & Hseen & Hn & Hw).
  rewrite (seen_mark _ _ _ _ _ _ _ _ Hseen) in Hnull. subst mark.
  apply (moves_seen _ _ _ _ _ _ _ _ _ _ AgentCommandStatusPending (Z.max (n - 1) 0) (SText "") SNull SNull SNull Hseen); [see_assigned Hseen|count_moves Hd..].
Qed.

Lemma released_moves c nowText t : (∀ id, deferral c id = 0%Z) → all_move c t (release_unmarked nowText t).
Proof.
  intros Hd. apply update_moves. intros r Hok [Hlost Hnull]%andb_true_iff. unfold lease_lost in Hlost. rewrite !andb_true_iff in Hlost.
  destruct Hlost as [[Hst _] _]. by apply requeued_moves.
Qed.

(** ** The calls *)

Lemma all_move_ok c t t' : all_move c t t' → Forall command_ok t → Forall command_ok t'.
Proof. intros Hm Ht. induction Hm as [|r r' t t' Hr _ IH]; inversion Ht; subst; constructor; [by apply moves_ok with c r, Hr|by apply IH]. Qed.

Lemma all_move_ids c t t' : all_move c t t' → Forall command_ok t → column "id" <$> t' = column "id" <$> t.
Proof.
  intros Hm Ht. induction Hm as [|r r' t t' Hr _ IH]; inversion Ht; subst; [done|]. rewrite !fmap_cons, (moves_id _ _ _ (Hr ltac:(done))), IH by done. done.
Qed.

(** A selected identifier is that of a row that fits. *)
Lemma selected_id condition order n t ids :
  scan_all (scan int_cell) (take n (select ["id"] condition order t)) = Ok ids →
  ∀ id, id ∈ ids → ∃ r, r ∈ t ∧ condition r = true ∧ column "id" r = SInt id.
Proof.
  intros Hs id Hid. assert (∃ v, v ∈ take n (select ["id"] condition order t) ∧ scan int_cell v = Ok id) as (v & Hv & Hscan).
  { revert ids Hs Hid. generalize (take n (select ["id"] condition order t)). intros l. induction l as [|v l IH]; intros ids Hs Hid.
    - injection Hs as <-. by apply elem_of_nil in Hid.
    - apply bind_ok in Hs as (x & Hx & Hs). apply bind_ok in Hs as (xs & Hxs & Hs). injection Hs as <-.
      apply elem_of_cons in Hid as [->|Hid]; [exists v; split; [by left|done]|]. destruct (IH xs Hxs Hid) as (w & Hw & Hsw). exists w. split; [by right|done]. }
  apply elem_of_take in Hv as (i & Hi & _). apply list_elem_of_lookup_2 in Hi. unfold select in Hi.
  apply list_elem_of_fmap in Hi as (r & -> & Hr). rewrite elem_of_sort_slice, list_elem_of_filter in Hr. destruct Hr as [Hc Hr].
  exists r. split_and!; [done..|]. unfold values in Hscan. cbn in Hscan. destruct (column "id" r); try done. by injection Hscan as ->.
Qed.

(** After a row was leased, the others are as they were and it is not pending. *)
Lemma lease_one_keeps worker nowText untilText id t (r' : row) :
  r' ∈ (lease_one worker nowText untilText id t).2 → status_is AgentCommandStatusPending r' = true → r' ∈ t.
Proof.
  unfold lease_one, update_with. cbn [snd]. intros (r & -> & Hr)%list_elem_of_fmap Hst.
  destruct (row_is id r && status_is AgentCommandStatusPending r); [|done]. apply status_is_iff in Hst. revert Hst. by read_assigned.
Qed.

Lemma claim_each_moves c worker nowText untilText ids t claimed t' :
  (∀ i, deferral c i = 0%Z) → worker ≠ "" →
  (∀ r id, r ∈ t → id ∈ ids → row_is id r = true → status_is AgentCommandStatusPending r = true → attempts_left r = true) →
  claim_each worker nowText untilText ids t = Ok (claimed, t') → all_move c t t'.
Proof.
  intros Hd Hw. revert t claimed t'. induction ids as [|id ids IH]; intros t claimed t' Hleft Hc; [injection Hc as _ <-; apply all_move_refl|].
  cbn [claim_each] in Hc. pose proof (lease_one_keeps worker nowText untilText id t) as Hkeep.
  assert (all_move c t (lease_one worker nowText untilText id t).2) as Hm.
  { apply leased_moves; [done..|]. intros r Hr. by apply Hleft; [|left]. }
  destruct (lease_one worker nowText untilText id t) as [count t1]. cbn [snd] in *.
  assert (∀ cl t2, claim_each worker nowText untilText ids t1 = Ok (cl, t2) → all_move c t t2) as Hrest.
  { intros cl t2 E. eapply all_move_trans; [done|exact Hm|]. apply (IH t1 cl t2); [|done]. intros r i Hr Hi Hrow Hst.
    apply (Hleft r i); [by apply Hkeep|by right|done..]. }
  destruct (negb (count =? 1)%Z); [by eapply Hrest|]. apply bind_ok in Hc as (item & _ & Hc). apply bind_ok in Hc as ([cl t2] & Hc & E).
  injection E as _ <-. by eapply Hrest.
Qed.

Lemma in_transaction_moves {A} c (body : table → result command_error (A * table)) t :
  (∀ a t', body t = Ok (a, t') → all_move c t t') → all_move c t (in_transaction body t).2.
Proof. intros Hb. unfold in_transaction. destruct (body t) as [[a t']|e]; [by eapply Hb|apply all_move_refl]. Qed.

(** Two rows of one identifier are one. *)
Definition keyed_by_id (t : table) : Prop := NoDup (column "id" <$> t).

Lemma keyed_eq (t : table) (r r' : row) id : keyed_by_id t → r ∈ t → r' ∈ t → column "id" r = SInt id → column "id" r' = SInt id → r = r'.
Proof.
  intros Hk Hr Hr' E E'. apply list_elem_of_lookup in Hr as [i Hi]. apply list_elem_of_lookup in Hr' as [j Hj].
  assert (i = j) as ->; [|by rewrite Hi in Hj; injection Hj]. apply (NoDup_lookup (column "id" <$> t) i j (SInt id) Hk); rewrite list_lookup_fmap.
  - by rewrite Hi, <-E.
  - by rewrite Hj, <-E'.
Qed.

Lemma claim_moves clock worker now leaseDuration limit t :
  keyed_by_id t → Forall command_ok t →
  all_move (ClaimCall clock worker now leaseDuration limit) t (ClaimDueScheduledCommands clock worker now leaseDuration limit t).2.
Proof.
  intros Hk Hok. unfold ClaimDueScheduledCommands. cbv zeta. destruct (bool_decide (trim_space worker = "") || _) eqn:E; [apply all_move_refl|].
  apply orb_false_iff in E as [Hw%bool_decide_eq_false _]. set (c := ClaimCall _ _ _ _ _). assert (∀ i, deferral c i = 0%Z) as Hd by done.
  apply in_transaction_moves. intros claimed t' Hc. set (nowText := formatTime _) in Hc.
  set (t1 := exhaust_pending nowText _) in Hc.
  assert (all_move c t t1) as Hm.
  { eapply all_move_trans; [done|by apply released_moves|]. eapply all_move_trans; [done|by apply quarantined_moves|].
    eapply all_move_trans; [done|apply expired_moves|apply exhausted_moves]. }
  apply bind_ok in Hc as (ids & Hids & Hc). eapply all_move_trans; [done|exact Hm|]. eapply claim_each_moves; [done|exact Hw| |exact Hc].
  intros r id Hr Hid Hrow%row_is_iff _. destruct (scan_all _ _) as [ids'|] eqn:Es; [|done]. injection Hids as ->.
  destruct (selected_id _ _ _ _ _ Es id Hid) as (r' & Hr' & Hclaim & Hrow').
  assert (r = r') as ->; [|unfold claimable in Hclaim; rewrite !andb_true_iff in Hclaim; tauto].
  eapply keyed_eq; [|exact Hr|exact Hr'|done|done]. unfold keyed_by_id. by rewrite (all_move_ids _ _ _ Hm).
Qed.

Lemma owned_iff worker r : owned_by worker r = true → status_is AgentCommandStatusLeased r = true.
Proof. unfold owned_by. by intros [? _]%andb_true_iff. Qed.

(** A leased command that stays leased. *)
Lemma still_leased c set (r : row) until mark' :
  command_ok r → status_is AgentCommandStatusLeased r = true → (∀ i, deferral c i = 0%Z) →
  assigned "status" set = None → assigned "lease_owner" set = None → assigned "id" set = None → assigned "attempt_count" set = None →
  assigned "max_attempts" set = None → assigned "completed_at" set = None →
  column "lease_until" (list_to_map set ∪ r) = SText until → column "mutation_attempted_at" (list_to_map set ∪ r) = mark' →
  (column "mutation_attempted_at" r ≠ SNull → mark' ≠ SNull) →
  moves c r (list_to_map set ∪ r).
Proof.
  intros Hok Hst Hd Hs Ho Hid Ha Hm Hc Hu Hk Hmark. destruct (leased_seen r Hok Hst) as (n & m & worker & until0 & mark & Hseen & Hn & Hw).
  apply (moves_seen _ _ _ _ _ _ _ _ _ _ AgentCommandStatusLeased n (SText worker) (SText until) mark' SNull Hseen); [|by apply ShapeLeased|done|done|].
  - destruct Hseen as [Hcs Hca Hcm Hco Hcu Hck Hcc]. constructor; try done; by rewrite column_set, ?Hs, ?Ho, ?Ha, ?Hm, ?Hc.
  - intros i _. rewrite Hd. rewrite (seen_mark _ _ _ _ _ _ _ _ Hseen) in Hmark. split; [|done].
    rewrite !(bool_decide_true (AgentCommandStatusLeased = _)) by done. cbn [andb].
    destruct (decide (mark = SNull)) as [->|Hne]; [rewrite (bool_decide_true (SNull = SNull)) by done; case_bool_decide; lia|].
    rewrite !bool_decide_false by (done || by apply Hmark). lia.
Qed.

Lemma renew_moves clock id worker now leaseDuration t :
  all_move (RenewCall clock id worker now leaseDuration) t (RenewScheduledCommandLease clock id worker now leaseDuration t).2.
Proof.
  unfold RenewScheduledCommandLease. destruct (_ || _ || _); [apply all_move_refl|]. apply update_one_moves. intros r Hok Hc.
  rewrite !andb_true_iff in Hc. destruct Hc as [[_ Hown%owned_iff] _].
  eapply still_leased; [exact Hok|exact Hown|done..|by read_assigned|by read_assigned|done].
Qed.

Lemma defer_moves clock id worker message retryAt t :
  all_move (DeferCall clock id worker message retryAt) t (DeferLeasedScheduledCommand clock id worker message retryAt t).2.
Proof.
  unfold DeferLeasedScheduledCommand. destruct (_ || _ || _); [apply all_move_refl|]. apply update_one_moves. intros r Hok [Hrow%row_is_iff Hown%owned_iff]%andb_true_iff.
  destruct (leased_seen r Hok Hown) as (n & m & w & until & mark & Hseen & Hn & Hw).
  apply (moves_seen _ _ _ _ _ _ _ _ _ _ AgentCommandStatusPending (Z.max (n - 1) 0) (SText "") SNull SNull SNull Hseen); [see_assigned Hseen|by (constructor; lia)|done|done|].
  intros i Hi. rewrite Hrow in Hi. injection Hi as <-. unfold deferral, releases. rewrite !(bool_decide_true (id = id)) by done. split; [|done].
  rewrite (bool_decide_false (AgentCommandStatusPending = _)) by done. cbn [andb]. destruct (_ && _); lia.
Qed.

Lemma complete_moves clock id worker resultJSON completedAt t :
  all_move (CompleteCall clock id worker resultJSON completedAt) t (CompleteScheduledCommand clock id worker resultJSON completedAt t).2.
Proof.
  unfold CompleteScheduledCommand. destruct (normalizedJSON resultJSON); [|apply all_move_refl]. apply update_one_moves.
  intros r Hok [_ Hown%owned_iff]%andb_true_iff.
  eapply closing; [exact Hok|by eapply open_status|apply (eq_refl : terminalAgentCommand AgentCommandStatusCompleted = true)|by read_assigned..].
Qed.

Lemma ok_state {E A B} (x y : A) (b b' : B) : @Ok E (A * B) (x, b) = Ok (y, b') → b = b'.
Proof. congruence. Qed.

Lemma fail_moves clock id worker message retryAt t :
  keyed_by_id t → all_move (FailCall clock id worker message retryAt) t (FailScheduledCommand clock id worker message retryAt t).2.
Proof.
  intros Hk. unfold FailScheduledCommand. apply in_transaction_moves. intros status t' Hf. apply bind_ok in Hf as ([n0 m0] & Hfound & Hf).
  set (again := match retryAt with Some _ => _ | None => _ end) in Hf. assert (is_Some again → is_Some retryAt) as Hagain by (unfold again; by destruct retryAt). clearbody again.
  apply ok_state in Hf as <-. unfold select in Hfound. rewrite sort_slice_unordered in Hfound.
  destruct (filter _ t) as [|r0 l] eqn:Ef; [done|]. assert (r0 ∈ filter (λ r, row_is id r && owned_by (trim_space worker) r = true) t) as Hr0 by (rewrite Ef; by left).
  apply list_elem_of_filter in Hr0 as [[Hrow0%row_is_iff Hown%owned_iff]%andb_true_iff Hin0].
  unfold all_move, update_with. cbn [snd]. apply Forall2_fmap_r, Forall_Forall2_diag, Forall_forall. intros r Hr Hok.
  destruct (row_is id r) eqn:Hrow; [|apply moves_refl; [done|apply deferral_nonneg]]. apply row_is_iff in Hrow.
  assert (r = r0) as -> by (by eapply keyed_eq). destruct (leased_seen r0 Hok Hown) as (n & m & w & until & mark & Hseen & Hn & Hw).
  destruct again as [at_|].
  - apply (moves_seen _ _ _ _ _ _ _ _ _ _ AgentCommandStatusPending n (SText "") SNull SNull SNull Hseen); [see_assigned Hseen|by (constructor; lia)|done|done|].
    intros i Hi. rewrite Hrow in Hi. injection Hi as <-. split; [count_le|]. unfold releases. destruct (Hagain ltac:(by eexists)) as [at' ->]. by rewrite bool_decide_true.
  - eapply closing; [exact Hok|by eapply open_status|apply (eq_refl : terminalAgentCommand AgentCommandStatusFailed = true)|by read_assigned..].
Qed.

Lemma quarantine_moves clock id worker message resultJSON t :
  all_move (QuarantineCall clock id worker message resultJSON) t (MarkScheduledCommandReconcilingWithResult clock id worker message resultJSON t).2.
Proof.
  unfold MarkScheduledCommandReconcilingWithResult.
  destruct (if bool_decide (resultJSON = "") then Ok "" else normalizedJSON resultJSON) as [text|]; [|apply all_move_refl]. apply update_one_moves.
  intros r Hok [_ Hown%owned_iff]%andb_true_iff. apply aside; try done; by case_bool_decide.
Qed.

(** A quarantined command that stays quarantined. *)
Lemma touch_moves clock id resultJSON message t :
  all_move (TouchCall clock id resultJSON message) t (TouchScheduledCommandReconciliation clock id resultJSON message t).2.
Proof.
  unfold TouchScheduledCommandReconciliation. destruct (normalizedJSON resultJSON); [|apply all_move_refl]. apply update_one_moves.
  intros r Hok [_ Hst]%andb_true_iff. destruct (reconciling_seen r Hok Hst) as (n & m & mark & Hseen & Hn).
  apply (moves_seen _ _ _ _ _ _ _ _ _ _ AgentCommandStatusReconciling n (SText "") SNull mark SNull Hseen); [see_assigned Hseen|by apply ShapeReconciling|done|done|].
  intros i _. split; [count_le|done].
Qed.

Lemma resolve_moves clock id status resultJSON message retryAt t :
  keyed_by_id t → all_move (ResolveCall clock id status resultJSON message retryAt) t (ResolveScheduledCommandReconciliation clock id status resultJSON message retryAt t).2.
Proof.
  intros Hk. unfold ResolveScheduledCommandReconciliation. destruct (bool_decide (status ∈ _)) eqn:Es; [|apply all_move_refl]. apply bool_decide_eq_true in Es.
  cbn [negb]. destruct (normalizedJSON resultJSON) as [text|]; [|apply all_move_refl]. cbv zeta. destruct (bool_decide (status = _) && _); [apply all_move_refl|].
  apply in_transaction_moves. intros [] t' Hf. apply bind_ok in Hf as ([[n0 m0] e0] & Hfound & Hf). apply bind_ok in Hf as ([] & Hleft%fail_if_ok & Hf).
  apply ok_state in Hf as <-. unfold select in Hfound. rewrite sort_slice_unordered in Hfound.
  destruct (filter _ t) as [|r0 l] eqn:Ef; [done|].
  assert (r0 ∈ filter (λ r, row_is id r && status_is AgentCommandStatusReconciling r = true) t) as Hr0 by (rewrite Ef; by left).
  apply list_elem_of_filter in Hr0 as [[Hrow0%row_is_iff _]%andb_true_iff Hin0].
  unfold all_move, update_with. cbn [snd]. apply Forall2_fmap_r, Forall_Forall2_diag, Forall_forall. intros r Hr Hok.
  destruct (row_is id r && status_is AgentCommandStatusReconciling r) eqn:E; [|apply moves_refl; [done|apply deferral_nonneg]].
  apply andb_true_iff in E as [Hrow%row_is_iff Hst]. destruct (reconciling_seen r Hok Hst) as (n & m & mark & Hseen & Hn).
  destruct (decide (status = AgentCommandStatusPending)) as [->|Hne].
  - rewrite !(bool_decide_true (AgentCommandStatusPending = AgentCommandStatusPending)) by done.
    apply (moves_seen _ _ _ _ _ _ _ _ _ _ AgentCommandStatusPending n (SText "") SNull SNull SNull Hseen); [see_assigned Hseen|by apply ShapePending|done|done|].
    intros i Hi. rewrite Hrow in Hi. injection Hi as <-. split; [count_le|]. unfold releases. by rewrite !bool_decide_true.
  - rewrite !(bool_decide_false (status = AgentCommandStatusPending)) by done.
    assert (terminalAgentCommand status = true) as Hterm.
    { unfold terminalAgentCommand. apply bool_decide_eq_true. set_solver. }
    eapply closing; [exact Hok|by eapply open_status|exact Hterm|by read_assigned..].
Qed.

Lemma cancel_moves clock id actor reason t :
  all_move (CancelCall clock id actor reason) t (CancelScheduledCommand clock id actor reason t).2.
Proof.
  unfold CancelScheduledCommand. apply update_one_moves. intros r Hok [_ Hst]%andb_true_iff.
  assert (¬ terminal r) as Hopen.
  { unfold where_in in Hst. cbn [existsb] in Hst. rewrite !orb_true_iff in Hst. destruct Hst as [Hst|[Hst|]]; [by eapply (open_status r AgentCommandStatusPending)|by eapply (open_status r AgentCommandStatusReconciling)|done]. }
  eapply closing; [exact Hok|exact Hopen|apply (eq_refl : terminalAgentCommand AgentCommandStatusCancelled = true)|by read_assigned..].
Qed.

Lemma recover_command_moves now c s :
  all_move (RecoverCall now) s.2 (recover_command now c s).2.
Proof.
  destruct s as [summary t]. unfold recover_command. cbn [snd]. cbv zeta.
  assert (∀ condition status message, (∀ r, condition r = true → ¬ terminal r) → terminalAgentCommand status = true →
    all_move (RecoverCall now) t (update_with (λ _, close_as status message (formatTime now)) condition t).2) as Hclose.
  { intros condition status message Hc Hterm. apply update_moves. intros r Hok Hr. eapply closing; [exact Hok|by apply Hc|exact Hterm|by read_assigned..]. }
  assert (∀ status r, status_is status r = true → terminalAgentCommand status = false → ¬ terminal r) as Hopen by (intros; by eapply open_status).
  destruct (bool_decide (rc_Status c = AgentCommandStatusLeased) && _).
  { destruct (match rc_ExpiresAt c with Some _ => _ | None => _ end).
    - destruct (update_with _ _ t) as [count t'] eqn:E. apply (f_equal snd) in E. cbn [snd] in *. rewrite <-E. apply Hclose; [|done].
      intros r Hr. rewrite !andb_true_iff in Hr. destruct Hr as [[_ Hst] _]. by eapply Hopen.
    - destruct (update_with _ _ t) as [count t'] eqn:E. apply (f_equal snd) in E. cbn [snd] in *. rewrite <-E. apply update_moves.
      intros r Hok Hr. rewrite !andb_true_iff in Hr. destruct Hr as [[_ Hst] Hnull]. by apply requeued_moves. }
  destruct (bool_decide (rc_Status c = AgentCommandStatusReconciling) && _).
  { destruct (update_with _ _ t) as [count t'] eqn:E. apply (f_equal snd) in E. cbn [snd] in *. rewrite <-E. apply Hclose; [|done].
    intros r Hr. rewrite !andb_true_iff in Hr. destruct Hr as [[_ Hst] _]. by eapply Hopen. }
  destruct (negb (CapabilitySupportsRestartReadback _)).
  { destruct (update_with _ _ t) as [count t'] eqn:E. apply (f_equal snd) in E. cbn [snd] in *. rewrite <-E. apply Hclose; [|done].
    intros r [_ Hst]%andb_true_iff. unfold where_in in Hst. cbn [existsb] in Hst. rewrite !orb_true_iff in Hst.
    destruct Hst as [Hst|[Hst|]]; [by eapply (Hopen AgentCommandStatusLeased)|by eapply (Hopen AgentCommandStatusReconciling)|done]. }
  destruct (negb _); [apply all_move_refl|].
  destruct (update_with _ _ t) as [count t'] eqn:E. apply (f_equal snd) in E. cbn [snd] in *. rewrite <-E. apply update_moves.
  intros r Hok [_ Hst]%andb_true_iff. by apply aside.
Qed.

Lemma recover_moves now t : all_move (RecoverCall now) t (recover_commands now t).2.
Proof.
  unfold recover_commands. apply in_transaction_moves. intros summary t' Hf.
  destruct (update_with _ (past_validity _) t) as [expired t1] eqn:E1. apply (f_equal snd) in E1. cbn [snd] in E1.
  destruct (update_with _ _ t1) as [failed t2] eqn:E2. apply (f_equal snd) in E2. cbn [snd] in E2.
  apply bind_ok in Hf as (commands & _ & Hf). injection Hf as Hf.
  eapply (all_move_trans _ _ t1); [done| |eapply (all_move_trans _ _ t2); [done| |]].
  - rewrite <-E1. apply update_moves. intros r Hok Hp. unfold past_validity in Hp. rewrite !andb_true_iff in Hp. destruct Hp as [[Hst _] _].
    eapply closing; [exact Hok|by eapply open_status|apply (eq_refl : terminalAgentCommand AgentCommandStatusExpired = true)|by read_assigned..].
  - rewrite <-E2. apply update_moves. intros r Hok [Hst _]%andb_true_iff.
    eapply closing; [exact Hok|by eapply open_status|apply (eq_refl : terminalAgentCommand AgentCommandStatusFailed = true)|by read_assigned..].
  - clear -Hf. revert Hf. generalize (mkRecovered expired failed 0 0 ∅ ∅). intros s Hf.
    change t2 with (s, t2).2 at 1. replace t' with (foldl (λ s c, recover_command now c s) (s, t2) commands).2 by (by rewrite Hf).
    clear Hf. generalize (s, t2). induction commands as [|c l IH]; intros p; [apply all_move_refl|]. cbn [foldl].
    eapply all_move_trans; [done|apply recover_command_moves|apply IH].
Qed.

Section attempts.
Context `{FoldTable}.

Lemma attempt_moves clock id worker resultJSON attemptedAt t :
  all_move (AttemptCall clock id worker resultJSON attemptedAt) t (RecordScheduledCommandAttemptState clock id worker resultJSON attemptedAt t).2.
Proof.
  unfold RecordScheduledCommandAttemptState. destruct (is_zero_time attemptedAt); [apply all_move_refl|].
  destruct (normalizedJSON resultJSON) as [text|]; [|apply all_move_refl]. destruct (negb _); [apply all_move_refl|]. apply update_one_moves.
  intros r Hok Hc. rewrite !andb_true_iff in Hc. destruct Hc as [[_ Hown%owned_iff] _].
  destruct (leased_seen r Hok Hown) as (n & m & w & until & mark & Hseen & Hn & Hw).
  eapply still_leased; [exact Hok|exact Hown|done..| | |]; [|by read_assigned|done]. read_assigned. apply Hseen.
Qed.

(** An attempt that was acknowledged: one leased command was not marked and is now. *)
Lemma attempt_acknowledged clock id worker resultJSON attemptedAt t :
  Forall command_ok t → (RecordScheduledCommandAttemptState clock id worker resultJSON attemptedAt t).1 = Ok () →
  ∃ k r r', t !! k = Some r ∧ (RecordScheduledCommandAttemptState clock id worker resultJSON attemptedAt t).2 !! k = Some r'
    ∧ column "id" r = SInt id ∧ ¬ marked r ∧ marked r' ∧ spent r' = (spent r + 1)%Z.
Proof.
  intros Hall. unfold RecordScheduledCommandAttemptState. destruct (is_zero_time attemptedAt); [done|].
  destruct (normalizedJSON resultJSON) as [text|]; [|done]. destruct (negb _); [done|].
  set (condition := λ r, row_is id r && _ && _). unfold update_one, update_with. cbn [fst snd]. intros Hcount.
  assert (∃ r, r ∈ filter (λ r, condition r = true) t) as (r & Hr).
  { unfold count_rows in Hcount. destruct (filter (λ r, condition r = true) t) as [|r l]; [done|]. exists r. by left. }
  apply list_elem_of_filter in Hr as [Hc Hr]. apply list_elem_of_lookup in Hr as [k Hk]. exists k, r. eexists.
  split; [done|]. split; [rewrite list_lookup_fmap, Hk; reflexivity|]. cbn beta. rewrite Hc. unfold condition in Hc. rewrite !andb_true_iff in Hc.
  destruct Hc as [[Hrow%row_is_iff Hown%owned_iff] Hnull]. pose proof Hnull as Hnull'%is_null_iff. split_and!; [done| | |].
  - intros Hm. by apply Hm.
  - unfold marked. by read_assigned.
  - pose proof (proj1 (Forall_lookup _ _) Hall k r Hk) as Hok. destruct (leased_seen r Hok Hown) as (n & m & w & until & mark & Hseen & Hn & Hw).
    rewrite (spent_seen r _ _ _ _ _ _ _ Hseen). rewrite (seen_mark _ _ _ _ _ _ _ _ Hseen) in Hnull'. subst mark.
    rewrite (spent_seen (_ ∪ r) AgentCommandStatusLeased n m (SText w) (SText until) (SText (formatTime attemptedAt)) SNull); [|see_assigned Hseen].
    rewrite (bool_decide_false (SText _ = SNull)) by done. rewrite !bool_decide_true by done. cbn [andb]. lia.
Qed.

(** ** Creation *)

Lemma insert_moves clock id item t :
  insertable (CreateCall clock id item) (ids t) →
  (insert_command clock id item t).2 = t
  ∨ ∃ r, (insert_command clock id item t).2 = t ++ [r] ∧ command_ok r ∧ column "id" r = SInt id ∧ SInt id ∉ (column "id" <$> t).
Proof.
  intros (Hid & Hst & Hmax). unfold insert_command. cbv zeta.
  set (item' := (if bool_decide (sc_CreatedBy item = "") then item <| sc_CreatedBy := "system" |> else item)).
  set (item2 := (if is_zero_time (sc_CreatedAt item') then item' <| sc_CreatedAt := clock |> else item')).
  assert (sc_Status item2 = AgentCommandStatusPending ∧ sc_MaxAttempts item2 = sc_MaxAttempts item) as [Hst2 Hmax2].
  { unfold item2. destruct (is_zero_time _); unfold item'; destruct (bool_decide _); by destruct item. }
  clearbody item2. clear item'. set (item3 := item2 <| sc_UpdatedAt := clock |>).
  assert (sc_Status item3 = AgentCommandStatusPending ∧ sc_MaxAttempts item3 = sc_MaxAttempts item) as [Hst3 Hmax3] by (unfold item3; by destruct item2).
  clearbody item3. destruct (insert_into _ _ _ _ t) as [t'|e] eqn:Ei; [|by left]. right. cbn [snd].
  unfold insert_into in Ei. destruct (negb _); [done|]. destruct (filter _ _); [|done]. injection Ei as <-. eexists. split; [reflexivity|].
  assert (∀ k c v, scheduledCommandSelect !! k = Some c → (SInt id :: commandArguments item3) !! k = Some v →
    column c (row_of scheduledCommandSelect (SInt id :: commandArguments item3) ∪ ∅) = v) as Hcol.
  { intros k c v Hc Hv. unfold column. rewrite map_union_empty, (row_of_lookup scheduledCommandSelect _ k c v); [done| |done..].
    apply (bool_decide_unpack _). by vm_compute. }
  split_and!; [| |done].
  - exists AgentCommandStatusPending, 0%Z, (sc_MaxAttempts item3), (SText ""), SNull, (formatOptionalTime (sc_MutationAttemptedAt item3)), SNull.
    split; [|apply ShapePending; lia]. rewrite <-Hst3. constructor; [by apply (Hcol 11)|by apply (Hcol 21)|by apply (Hcol 22)|by apply (Hcol 19)|by apply (Hcol 20)|by apply (Hcol 23)|by apply (Hcol 29)].
  - by apply (Hcol 0).
Qed.

Definition table_ok (t : table) : Prop := keyed_by_id t ∧ Forall command_ok t.

(** Columns that say nothing of the state of a command. *)
Definition aside_columns : list string := ["goal_id"; "step_id"; "occurrence_id"].

Lemma linked_moves c set (r : row) :
  command_ok r → closed_as r (list_to_map set ∪ r) → moves c r (list_to_map set ∪ r).
Proof.
  intros Hok Hc. assert (∀ k, k ∉ aside_columns → column k (list_to_map set ∪ r) = column k r) as Hk by apply Hc.
  assert (∀ status n m owner until mark completed, seen r status n m owner until mark completed →
    seen (list_to_map set ∪ r) status n m owner until mark completed) as Hseen.
  { intros status n m owner until mark completed []. constructor; rewrite Hk; try done; apply (bool_decide_unpack _); by vm_compute. }
  destruct Hok as (st & n & m & o & u & k & e & Hs & Hshape). constructor.
  - exists st, n, m, o, u, k, e. auto.
  - apply Hk. apply (bool_decide_unpack _). by vm_compute.
  - done.
  - intros id _. rewrite (spent_seen _ _ _ _ _ _ _ _ Hs), (spent_seen _ _ _ _ _ _ _ _ (Hseen _ _ _ _ _ _ _ Hs)).
    pose proof (deferral_nonneg c id). lia.
  - intros id _ _. unfold marked. rewrite Hk; [done|]. apply (bool_decide_unpack _). by vm_compute.
Qed.

Lemma unlink_moves c col removed t : col = "goal_id" ∨ col = "step_id" → all_move c t (unlink col removed t).
Proof.
  intros Hcol. apply update_moves. intros r Hok _. apply linked_moves; [done|].
  split; [intros k Hk| | |]; rewrite column_set; destruct Hcol as [->| ->]; cbn; auto;
    match goal with Hk : ?k ∉ _ |- _ = _ => case_match eqn:E; [apply String.eqb_eq in E; subst k; exfalso; apply Hk; listed|done] end.
Qed.

(** The rows that the retention leaves. *)
Lemma cleanup_moves before steps goals t :
  ∃ kept, kept `sublist_of` t ∧ (∀ x, x ∈ t → x ∈ kept ∨ retired before x = true)
    ∧ all_move (CleanupCall before steps goals) kept (CleanupAgentV2Data before steps goals t).2.
Proof.
  unfold CleanupAgentV2Data. destruct (is_zero_time before); cbn [snd].
  - exists t. split_and!; [done|by left|apply all_move_refl].
  - exists (filter (λ r, retired before r = false) t). split; [apply sublist_filter|]. split.
    + intros x Hx. rewrite list_elem_of_filter. destruct (retired before x); auto.
    + eapply all_move_trans; [done|apply unlink_moves; by right|apply unlink_moves; by left].
Qed.

Lemma backfill_moves id t : all_move (BackfillCall id) t (backfillMutationAttempt id t).
Proof.
  apply update_moves. intros r Hok Hc. rewrite !andb_true_iff in Hc. destruct Hc as [[_ Hst] _].
  destruct (legacyAttempt _) as [at_|]; [|cbn; rewrite map_empty_union; apply moves_refl; [done|apply deferral_nonneg]].
  unfold where_in in Hst. cbn [existsb] in Hst. rewrite !orb_true_iff in Hst. destruct Hst as [Hst|[Hst|]]; [|..|done].
  - destruct (leased_seen r Hok Hst) as (n & m & w & until & mark & Hseen & Hn & Hw).
    eapply still_leased; [exact Hok|exact Hst|done..| | |]; [|by read_assigned|done]. read_assigned. apply Hseen.
  - destruct (reconciling_seen r Hok Hst) as (n & m & mark & Hseen & Hn).
    apply (moves_seen _ _ _ _ _ _ _ _ _ _ AgentCommandStatusReconciling n (SText "") SNull (SText (formatTime at_)) SNull Hseen);
      [see_assigned Hseen|by apply ShapeReconciling|done|done|]. intros i _. split; [count_le|done].
Qed.

Lemma occurrence_moves t : all_move OccurrenceCall t (backfillOccurrences t).
Proof.
  apply update_moves. intros r Hok Hempty. apply linked_moves; [done|].
  unfold where_eq in Hempty. apply andb_true_iff in Hempty as [_ Hempty%bool_decide_eq_true].
  split; [intros k Hk| | |]; rewrite column_set; cbn; auto.
  destruct (String.eqb_spec k "occurrence_id") as [->|]; [exfalso; apply Hk; listed|done].
Qed.

(** Every row moves as its call may or is deleted by the retention, and there is at most
    one more. *)
Lemma perform_moves c t :
  table_ok t → insertable c (ids t) →
  ∃ kept t1 new, (perform c t).2 = t1 ++ new ∧ kept `sublist_of` t ∧ (∀ x, x ∈ t → x ∈ kept ∨ discards c x) ∧ all_move c kept t1
    ∧ (new = [] ∨ ∃ r id clock item, new = [r] ∧ c = CreateCall clock id item ∧ command_ok r ∧ column "id" r = SInt id).
Proof.
  intros [Hk Hok] Hins.
  assert (∀ t1, all_move c t t1 → (perform c t).2 = t1 → ∃ kept t1 new, (perform c t).2 = t1 ++ new ∧ kept `sublist_of` t
    ∧ (∀ x, x ∈ t → x ∈ kept ∨ discards c x) ∧ all_move c kept t1
    ∧ (new = [] ∨ ∃ r id clock item, new = [r] ∧ c = CreateCall clock id item ∧ command_ok r ∧ column "id" r = SInt id)) as Hsame.
  { intros t1 Hm E. exists t, t1, []. rewrite app_nil_r. split_and!; [done..|by left|done|by left]. }
  destruct c; unfold perform, replied in *; cbn [snd] in *;
    lazymatch type of Hins with
    | insertable (CreateCall _ _ _) _ => idtac
    | insertable (CleanupCall _ _ _) _ => idtac
    | _ => eapply Hsame; [|reflexivity]
    end.
  - destruct (insert_moves _ _ _ _ Hins) as [E|(r & E & Hr & Hid & Hnew)]; rewrite E; exists t, t.
    + exists []. rewrite app_nil_r. split_and!; [done..|by left|apply all_move_refl|by left].
    + exists [r]. split_and!; [done..|by left|apply all_move_refl|]. right. by exists r, id, clock, item.
  - by apply claim_moves.
  - apply renew_moves.
  - apply defer_moves.
  - apply complete_moves.
  - apply attempt_moves.
  - by apply fail_moves.
  - apply quarantine_moves.
  - apply touch_moves.
  - by apply resolve_moves.
  - apply cancel_moves.
  - apply recover_moves.
  - destruct (cleanup_moves before steps goals t) as (kept & Hsub & Hkept & Hm).
    exists kept, (CleanupAgentV2Data before steps goals t).2, []. rewrite app_nil_r. split_and!; [done..|by left].
  - apply backfill_moves.
  - apply occurrence_moves.
Qed.

(** ** Histories *)

(** The identifiers of deleted rows are of no row. *)
Definition books_ok (s : books) : Prop := table_ok s.1 ∧ ∀ id, id ∈ s.2 → id ∉ ids s.1.

Lemma insertable_fewer c used gone : insertable c (used ++ gone) → insertable c used.
Proof. destruct c; try done. intros (Hid & ? & ?). split; [|by split]. intros Hin. apply Hid, elem_of_app. by left. Qed.

Lemma sublist_ok kept t : kept `sublist_of` t → table_ok t → table_ok kept.
Proof.
  intros Hsub [Hk Hok]. split.
  - unfold keyed_by_id in *. eapply sublist_NoDup; [exact Hk|]. clear -Hsub. induction Hsub; by constructor.
  - apply Forall_forall. intros x Hx. apply (proj1 (Forall_forall _ _) Hok). by eapply elem_of_sublist.
Qed.

Lemma keyed_same (t : table) (r r' : row) : keyed_by_id t → r ∈ t → r' ∈ t → column "id" r = column "id" r' → r = r'.
Proof.
  intros Hk Hr Hr' E. apply list_elem_of_lookup in Hr as [i Hi]. apply list_elem_of_lookup in Hr' as [j Hj].
  assert (i = j) as ->; [|by rewrite Hi in Hj; injection Hj]. apply (NoDup_lookup (column "id" <$> t) i j (column "id" r) Hk); rewrite list_lookup_fmap.
  - by rewrite Hi.
  - by rewrite Hj, E.
Qed.

Lemma perform_ok c t : table_ok t → insertable c (ids t) → table_ok (perform c t).2.
Proof.
  intros Ht Hins. destruct (perform_moves c t Ht Hins) as (kept & t1 & new & E & Hsub & _ & Hm & Hnew).
  destruct (sublist_ok _ _ Hsub Ht) as [Hk Hok]. unfold table_ok, keyed_by_id. rewrite E.
  pose proof (all_move_ok _ _ _ Hm Hok) as Hok1. pose proof (all_move_ids _ _ _ Hm Hok) as Hids.
  destruct Hnew as [->|(r & id & clock & item & -> & -> & Hr & Hid)]; [rewrite app_nil_r, Hids; done|].
  rewrite fmap_app, Hids. split; [|by apply Forall_app; split; [|by constructor]]. apply NoDup_app. split_and!; [done| |by apply NoDup_singleton].
  intros v Hv Hv'. cbn in Hv'. apply list_elem_of_singleton in Hv' as ->. rewrite Hid in Hv. destruct Hins as [Hnew _]. apply Hnew.
  apply list_elem_of_fmap in Hv as (x & Ex & Hx). rewrite Ex. apply list_elem_of_fmap_2. by eapply elem_of_sublist.
Qed.

(** A row after a call: where it was, moved; or deleted by the retention. *)
Lemma perform_row c t (x : row) :
  table_ok t → insertable c (ids t) → x ∈ t →
  (∃ x', x' ∈ (perform c t).2 ∧ moves c x x') ∨ discards c x ∧ column "id" x ∉ ids (perform c t).2.
Proof.
  intros Ht Hins Hx. destruct (perform_moves c t Ht Hins) as (kept & t1 & new & E & Hsub & Hall & Hm & Hnew). rewrite E.
  destruct (decide (x ∈ kept)) as [Hin|Hout].
  - left. pose proof (proj1 (Forall_forall _ _) (proj2 Ht) x Hx) as Hok.
    apply list_elem_of_lookup in Hin as [k Hk]. destruct (Forall2_lookup_l _ _ _ _ _ Hm Hk) as (x' & Hk' & Hmove). exists x'.
    split; [apply elem_of_app; left; by eapply list_elem_of_lookup_2|by apply Hmove].
  - right. destruct (Hall x Hx) as [?|Hd]; [done|]. split; [done|].
    destruct Hnew as [->|(? & ? & ? & ? & _ & -> & _)]; [|done]. rewrite app_nil_r. unfold ids.
    rewrite (all_move_ids _ _ _ Hm) by apply (sublist_ok _ _ Hsub Ht). intros (y & Ey & Hy)%list_elem_of_fmap.
    rewrite (keyed_same t x y) in Hout; [done|apply Ht|done|by eapply elem_of_sublist|done].
Qed.

(** A row that is new has the identifier of the call. *)
Lemma perform_new c t (x' : row) :
  table_ok t → insertable c (ids t) → x' ∈ (perform c t).2 →
  column "id" x' ∈ ids t ∨ ∃ clock id item, c = CreateCall clock id item ∧ column "id" x' = SInt id.
Proof.
  intros Ht Hins Hx. destruct (perform_moves c t Ht Hins) as (kept & t1 & new & E & Hsub & _ & Hm & Hnew). rewrite E in Hx.
  apply elem_of_app in Hx as [Hx|Hx].
  - left. apply (list_elem_of_fmap_2 (column "id")) in Hx. rewrite (all_move_ids _ _ _ Hm) in Hx by apply (sublist_ok _ _ Hsub Ht).
    apply list_elem_of_fmap in Hx as (y & -> & Hy). apply list_elem_of_fmap_2. by eapply elem_of_sublist.
  - destruct Hnew as [->|(r & id & clock & item & -> & -> & _ & Hid)]; [by apply elem_of_nil in Hx|]. apply list_elem_of_singleton in Hx as ->.
    right. by exists clock, id, item.
Qed.

Lemma carried_table s c r s' : carried s c r s' → s'.1 = s.1 ∨ s'.1 = (perform c s.1).2.
Proof. intros (_ & t & -> & [E|(text & _ & [->| ->])]); cbn; [right; by rewrite <-E|by left|by right]. Qed.

Lemma carried_insertable s c r s' : carried s c r s' → insertable c (ids s.1).
Proof. intros [Hins _]. by eapply insertable_fewer. Qed.

Lemma carried_gone s c r s' : carried s c r s' → s'.2 = s.2 ++ filter (λ id, id ∉ ids s'.1) (ids s.1).
Proof. by intros (_ & t & -> & _). Qed.

Lemma carried_ok s c r s' : books_ok s → carried s c r s' → books_ok s'.
Proof.
  intros [Ht Hgone] Hc. pose proof (carried_insertable _ _ _ _ Hc) as Hins. split.
  - destruct (carried_table _ _ _ _ Hc) as [->| ->]; [done|by apply perform_ok].
  - intros id. rewrite (carried_gone _ _ _ _ Hc). intros [Hid|[Hid _]%list_elem_of_filter]%elem_of_app; [|done].
    destruct (carried_table _ _ _ _ Hc) as [->| ->]; [by apply Hgone|]. intros (x & -> & Hx)%list_elem_of_fmap.
    destruct (perform_new c s.1 x Ht Hins Hx) as [Hin|(clock & i & item & -> & Ei)]; [by apply (Hgone _ Hid)|].
    destruct Hc as [[Hnew _] _]. apply Hnew, elem_of_app. right. by rewrite <-Ei.
Qed.

Lemma history_ok s log s' : books_ok s → history s log s' → books_ok s'.
Proof. intros Hs Hh. induction Hh as [|s log s' c r s'' _ IH Hc]; [done|]. by eapply carried_ok, Hc; apply IH. Qed.

Lemma carried_gone_stays s c r s' id : carried s c r s' → id ∈ s.2 → id ∈ s'.2.
Proof. intros Hc Hid. rewrite (carried_gone _ _ _ _ Hc). apply elem_of_app. by left. Qed.

Lemma carried_row s c r s' (x : row) :
  books_ok s → carried s c r s' → x ∈ s.1 → (∃ x', x' ∈ s'.1 ∧ moves c x x') ∨ discards c x ∧ column "id" x ∈ s'.2.
Proof.
  intros [Ht _] Hc Hx. pose proof (carried_insertable _ _ _ _ Hc) as Hins.
  pose proof (proj1 (Forall_forall _ _) (proj2 Ht) x Hx) as Hokx. rewrite (carried_gone _ _ _ _ Hc).
  destruct (carried_table _ _ _ _ Hc) as [->| ->]; [left; exists x; split; [done|apply moves_refl; [done|apply deferral_nonneg]]|].
  destruct (perform_row c s.1 x Ht Hins Hx) as [?|[Hd Hid]]; [by left|right]. split; [done|]. apply elem_of_app. right.
  apply list_elem_of_filter. split; [done|]. by apply list_elem_of_fmap_2.
Qed.

(** How often the gate of a command was opened, with an acknowledgment, and how often it
    was deferred. *)
Definition opens (id : Z) (e : command_call * result command_error command_reply) : bool :=
  match e with (AttemptCall _ id' _ _ _, Ok _) => bool_decide (id' = id) | _ => false end.
Definition opened (id : Z) (log : list (command_call * result command_error command_reply)) : Z :=
  foldr (λ e n, if opens id e then n + 1 else n)%Z 0%Z log.
Definition deferred (id : Z) (log : list (command_call * result command_error command_reply)) : Z :=
  foldr (λ e n, n + deferral e.1 id)%Z 0%Z log.

Lemma opened_snoc id log e : opened id (log ++ [e]) = (opened id log + (if opens id e then 1 else 0))%Z.
Proof.
  unfold opened. induction log as [|e' log IH]; cbn [foldr app]; [by destruct (opens id e)|]. rewrite IH. destruct (opens id e'); lia.
Qed.
Lemma deferred_snoc id log e : deferred id (log ++ [e]) = (deferred id log + deferral e.1 id)%Z.
Proof. unfold deferred. induction log as [|e' log IH]; cbn [foldr app]; [lia|]. rewrite IH. lia. Qed.

(** An acknowledged opening, in the table. *)
Lemma opens_row s c r s' id :
  books_ok s → carried s c r s' → opens id (c, r) = true →
  ∃ x x', x ∈ s.1 ∧ x' ∈ s'.1 ∧ column "id" x = SInt id ∧ column "id" x' = SInt id ∧ ¬ marked x ∧ marked x' ∧ spent x' = (spent x + 1)%Z.
Proof.
  intros [[Hk Hok] _] (_ & t & -> & Hc) Ho. cbn [after_call fst]. destruct c; try done. destruct r as [reply|]; [|done]. cbn [opens] in Ho. apply bool_decide_eq_true in Ho as ->.
  destruct Hc as [E|(text & E & _)]; [|done]. unfold perform, replied in E.
  destruct (RecordScheduledCommandAttemptState clock id worker resultJSON attemptedAt s.1) as [[[]|] t0] eqn:Er; [|done]. injection E as _ ->.
  destruct (attempt_acknowledged clock id worker resultJSON attemptedAt s.1 Hok) as (k & x & x' & Hx & Hx' & Hid & Hm & Hm' & Hs); [by rewrite Er|].
  rewrite Er in Hx'. cbn [snd] in Hx'. pose proof (attempt_moves clock id worker resultJSON attemptedAt s.1) as Hmove. rewrite Er in Hmove. cbn [snd] in Hmove.
  destruct (Forall2_lookup_l _ _ _ _ _ Hmove Hx) as (x2 & Hx2 & Hmx). rewrite Hx' in Hx2. injection Hx2 as <-.
  pose proof (Hmx (proj1 (Forall_lookup _ _) Hok k x Hx)) as Hmx'.
  exists x, x'. split_and!; [by eapply list_elem_of_lookup_2..|done|by rewrite (moves_id _ _ _ Hmx')|done|done|done].
Qed.

(** Opened at most as often as attempts are spent and it was deferred. *)
Definition accounted (id : Z) (log : list (command_call * result command_error command_reply)) (t : table) : Prop :=
  ∀ x, x ∈ t → column "id" x = SInt id → (opened id log ≤ spent x + deferred id log)%Z.

Lemma spent_bounds x : command_ok x → (0 ≤ spent x ≤ int_of "max_attempts" x)%Z.
Proof.
  intros (s & n & m & o & u & k & e & Hseen & Hshape). rewrite (spent_seen _ _ _ _ _ _ _ _ Hseen). unfold int_of. rewrite (seen_max _ _ _ _ _ _ _ _ Hseen).
  inversion Hshape as [| | |? ? ? ? ? Hclosed]; subst; [..|apply not_closed in Hclosed as (_ & Hl & _)]; repeat case_bool_decide; cbn [andb]; solve [done|lia].
Qed.

Lemma row_unique t x x' id : table_ok t → x ∈ t → x' ∈ t → column "id" x = SInt id → column "id" x' = SInt id → x = x'.
Proof. intros [Hk _]. by apply keyed_eq. Qed.

Lemma books_row s x : books_ok s → x ∈ s.1 → command_ok x.
Proof. intros [[_ Hok] _] Hx. by apply (proj1 (Forall_forall _ _) Hok). Qed.

Lemma new_unopened s log s' id :
  books_ok s → history s log s' → SInt id ∉ ids s'.1 → SInt id ∉ s'.2 → opened id log = 0%Z.
Proof.
  intros Hs Hh. induction Hh as [s|s log s' c r s'' Hh IH Hc]; intros Hnone Hgone; [done|]. pose proof (history_ok _ _ _ Hs Hh) as Hs'.
  rewrite opened_snoc. destruct (opens id (c, r)) eqn:Eo.
  - destruct (opens_row _ _ _ _ _ Hs' Hc Eo) as (x & x' & _ & Hx' & _ & Hid' & _). destruct Hnone. rewrite <-Hid'. by apply list_elem_of_fmap_2.
  - rewrite IH; [done..| |].
    + intros (x & E & Hx)%list_elem_of_fmap. destruct (carried_row _ _ _ _ _ Hs' Hc Hx) as [(x' & Hx' & Hm)|[_ Hin]].
      * apply Hnone. rewrite E, <-(moves_id _ _ _ Hm). by apply list_elem_of_fmap_2.
      * apply Hgone. by rewrite E.
    + intros Hin. apply Hgone. by eapply carried_gone_stays.
Qed.

Lemma deferred_nonneg id log : (0 ≤ deferred id log)%Z.
Proof. unfold deferred. induction log as [|e log IH]; cbn [foldr]; [lia|]. pose proof (deferral_nonneg e.1 id). lia. Qed.

Lemma history_accounted s log s' id : books_ok s → history s log s' → accounted id log s'.1.
Proof.
  intros Hs Hh. induction Hh as [s|s log s' c r s'' Hh IH Hc]; intros x Hx Hid.
  - pose proof (spent_bounds x (books_row _ _ Hs Hx)). unfold opened, deferred. cbn [foldr]. lia.
  - pose proof (history_ok _ _ _ Hs Hh) as Hs'. pose proof (carried_ok _ _ _ _ Hs' Hc) as Hs''. rewrite opened_snoc, deferred_snoc. cbn [fst].
    destruct (opens id (c, r)) eqn:Eo; cbv iota.
    + destruct (opens_row _ _ _ _ _ Hs' Hc Eo) as (y & y' & Hy & Hy' & Hidy & Hidy' & _ & _ & Hsp).
      rewrite (row_unique s''.1 x y' id) by (done || apply Hs''). pose proof (IH Hs y Hy Hidy). pose proof (deferral_nonneg c id). lia.
    + destruct (decide (SInt id ∈ ids s'.1)) as [(y & E & Hy)%list_elem_of_fmap|Hnone].
      * destruct (carried_row _ _ _ _ _ Hs' Hc Hy) as [(y' & Hy' & Hmove)|[_ Hin]].
        -- assert (column "id" y' = SInt id) as Hidy' by (by rewrite (moves_id _ _ _ Hmove)). rewrite (row_unique s''.1 x y' id) by (done || apply Hs'').
           pose proof (IH Hs y Hy (eq_sym E)). pose proof (moves_spent _ _ _ Hmove id (eq_sym E)). lia.
        -- exfalso. destruct Hs'' as [_ Hgone]. apply (Hgone _ Hin). rewrite <-E, <-Hid. by apply list_elem_of_fmap_2.
      * rewrite (new_unopened s log s' id); [|done..|].
        -- pose proof (spent_bounds x (books_row _ _ Hs'' Hx)). pose proof (deferred_nonneg id log). pose proof (deferral_nonneg c id). lia.
        -- intros Hin. destruct Hs'' as [_ Hgone]. apply (Hgone (SInt id)); [by eapply carried_gone_stays|]. rewrite <-Hid. by apply list_elem_of_fmap_2.
Qed.

Lemma history_split s log1 log2 s' : history s (log1 ++ log2) s' → ∃ s1, history s log1 s1 ∧ history s1 log2 s'.
Proof.
  remember (log1 ++ log2) as log eqn:E. intros Hh. revert log2 E. induction Hh as [s|s log s' c r s'' Hh IH Hc]; intros log2 E.
  - symmetry in E. apply app_nil in E as [-> ->]. exists s. split; constructor.
  - destruct log2 as [|e log2 _] using rev_ind.
    + rewrite app_nil_r in E. subst log1. exists s''. split; [by econstructor|constructor].
    + rewrite app_assoc in E. apply app_inj_tail in E as [-> <-]. destruct (IH log2 eq_refl) as (s1 & H1 & H2). exists s1. split; [done|by econstructor].
Qed.

Lemma history_one s e s' : history s [e] s' → carried s e.1 e.2 s'.
Proof.
  remember [e] as log eqn:E. intros Hh. revert E. destruct Hh as [|s log s1 c r s2 Hprev Hc]; intros E; [done|].
  destruct log as [|e' log]; [|by destruct log]. injection E as <-. remember [] as none eqn:E in Hprev. revert E.
  destruct Hprev as [|? log ? ? ? ? _ _]; intros E; [done|by destruct log].
Qed.

(** A mark stays until a call that releases the command, or the command is deleted. *)
Lemma mark_stays s log s' x id :
  books_ok s → history s log s' → (∀ e, e ∈ log → releases e.1 id = false) → x ∈ s.1 → column "id" x = SInt id → marked x →
  (∃ x', x' ∈ s'.1 ∧ column "id" x' = SInt id ∧ marked x') ∨ SInt id ∈ s'.2.
Proof.
  intros Hs Hh. induction Hh as [s|s log s' c r s'' Hh IH Hc]; intros Hrel Hx Hid Hm; [left; by exists x|].
  destruct IH as [(y & Hy & Hidy & Hmy)|Hin]; [done| |done..| |right; by eapply carried_gone_stays].
  { intros e He. apply Hrel, elem_of_app. by left. }
  destruct (carried_row _ _ _ _ _ (history_ok _ _ _ Hs Hh) Hc Hy) as [(y' & Hy' & Hmove)|[_ Hin]]; [left|right; by rewrite <-Hidy].
  exists y'. split_and!; [done|by rewrite (moves_id _ _ _ Hmove)|].
  apply (moves_marked _ _ _ Hmove id Hidy); [|done]. apply (Hrel (c, r)). apply elem_of_app. right. by left.
Qed.

Lemma retired_closed before r r' : closed_as r r' → retired before r' = retired before r.
Proof.
  intros Hc. unfold retired, where_in, where_eq, where_lt, is_null. cbn [existsb].
  rewrite !(cl_same _ _ Hc "status"), !(cl_same _ _ Hc "completed_at") by (apply (bool_decide_unpack _); by vm_compute).
  destruct (bool_decide (column "completed_at" r = SNull)); [rewrite !(cl_same _ _ Hc "updated_at")|rewrite !(cl_same _ _ Hc "completed_at")];
    try done; apply (bool_decide_unpack _); by vm_compute.
Qed.

Lemma closed_stays s log s' x :
  books_ok s → history s log s' → x ∈ s.1 → terminal x →
  (∃ x', x' ∈ s'.1 ∧ closed_as x x')
  ∨ column "id" x ∈ s'.2 ∧ ∃ before steps goals r, (CleanupCall before steps goals, r) ∈ log ∧ retired before x = true.
Proof.
  intros Hs Hh. induction Hh as [s|s log s' c r s'' Hh IH Hc]; intros Hx Hterm; [left; by exists x|].
  destruct (IH Hs Hx Hterm) as [(y & Hy & Hclosed)|(Hgone & before & steps & goals & r' & Hin & Hr)].
  - assert (terminal y) as Hty.
    { unfold terminal, text_of_column in *. rewrite (cl_same _ _ Hclosed "status"); [done|]. apply (bool_decide_unpack _). by vm_compute. }
    destruct (carried_row _ _ _ _ _ (history_ok _ _ _ Hs Hh) Hc Hy) as [(y' & Hy' & Hmove)|[Hd Hin]].
    + left. exists y'. split; [done|]. transitivity y; [done|]. by apply (moves_terminal _ _ _ Hmove).
    + right. rewrite (cl_same _ _ Hclosed "id") in Hin by (apply (bool_decide_unpack _); by vm_compute). split; [done|].
      destruct c; try done. cbn in Hd. rewrite (retired_closed _ _ _ Hclosed) in Hd. exists before, steps, goals, r.
      split; [apply elem_of_app; right; left|done].
  - right. split; [by eapply carried_gone_stays|]. exists before, steps, goals, r'. split; [apply elem_of_app; by left|done].
Qed.

(** C32: whatever calls the table of scheduled commands serves, in whatever order, those of
    the retention and of the opening of the store included, and with whatever failures of
    the engine, before or after a commit: identifiers are unique and never given again; a
    command is pending, leased by a named worker until an instant with at least one
    attempt, in reconciliation, or closed with the instant of its end; it never has more
    attempts than it may; and a closed command is never changed again, but for the goal and
    the step it belonged to, which are forgotten when they are deleted, and an empty
    occurrence of older versions, which is named; until a run of the retention deletes it,
    with a boundary later than its end. *)
Theorem commands_stay_valid s log s' :
  books_ok s → history s log s' →
  books_ok s'
  ∧ ∀ x, x ∈ s.1 → terminal x →
      (∃ x', x' ∈ s'.1 ∧ closed_as x x')
      ∨ column "id" x ∈ s'.2 ∧ ∃ before steps goals r, (CleanupCall before steps goals, r) ∈ log ∧ retired before x = true.
Proof. intros Hs Hh. split; [by eapply history_ok|]. intros x. by eapply closed_stays. Qed.

(** C33: the gate of a command's mutation, once opened, is opened again only after a call
    that asked for it: between two acknowledged openings of one command somebody asked to
    defer it, to fail it with an instant to try again, or to resolve its reconciliation to
    pending. Leases that run out, restarts, claims, the retention and the opening of the
    store never bring it back. *)
Theorem reopening_needs_release s log s' id before e1 between e2 rest :
  books_ok s → history s log s' → log = before ++ e1 :: between ++ e2 :: rest →
  opens id e1 = true → opens id e2 = true → ∃ e, e ∈ between ∧ releases e.1 id = true.
Proof.
  intros Hs Hh -> Ho1 Ho2. apply history_split in Hh as (s1 & Hh1 & Hh). apply (history_split _ [e1]) in Hh as (s2 & Hc1%history_one & Hh).
  apply history_split in Hh as (s3 & Hh2 & Hh). apply (history_split _ [e2]) in Hh as (s4 & Hc2%history_one & _).
  pose proof (history_ok _ _ _ Hs Hh1) as Hs1. pose proof (carried_ok _ _ _ _ Hs1 Hc1) as Hs2. pose proof (history_ok _ _ _ Hs2 Hh2) as Hs3.
  destruct e1 as [c1 r1], e2 as [c2 r2]. cbn [fst snd] in *.
  destruct (opens_row _ _ _ _ _ Hs1 Hc1 Ho1) as (_ & x & _ & Hx & _ & Hidx & _ & Hmx & _).
  destruct (opens_row _ _ _ _ _ Hs3 Hc2 Ho2) as (y & _ & Hy & _ & Hidy & _ & Hmy & _).
  destruct (decide (Exists (λ e, releases e.1 id = true) between)) as [Hex|Hnone].
  - apply Exists_exists in Hex as (e & He & Hr). by exists e.
  - exfalso. destruct (mark_stays s2 between s3 x id Hs2 Hh2) as [(y' & Hy' & Hidy' & Hmy')|Hin]; [|done..| |].
    + intros e He. apply not_true_iff_false. intros Hr. apply Hnone, Exists_exists. by exists e.
    + apply Hmy. rewrite (row_unique s3.1 y y' id); [done|apply Hs3|done..].
    + destruct Hs3 as [_ Hgone]. apply (Hgone _ Hin). rewrite <-Hidy. by apply list_elem_of_fmap_2.
Qed.

(** The gate of a command is opened at most as often as it may be attempted, not
    counting as often as it was deferred, whatever expires, restarts or is resolved in
    between. *)
Theorem openings_bounded s log s' id x :
  books_ok s → history s log s' → x ∈ s'.1 → column "id" x = SInt id →
  (opened id log ≤ int_of "max_attempts" x + deferred id log)%Z.
Proof.
  intros Hs Hh Hx Hid. pose proof (history_accounted _ _ _ id Hs Hh x Hx Hid).
  pose proof (spent_bounds x (books_row _ _ (history_ok _ _ _ Hs Hh) Hx)). lia.
Qed.
End attempts.

(** ** A command's story *)

Import Samples.
#[local] Existing Instance plain_folds.

#[export] Instance insertable_dec c used : Decision (insertable c used).
Proof. destruct c; apply _. Defined.

(** Calls one after the other, the engine accepting every statement. *)
Fixpoint play (calls : list command_call) (s : books) : list (command_call * result command_error command_reply) * books :=
  match calls with
  | [] => ([], s)
  | c :: calls => let '(r, t) := perform c s.1 in let '(log, s) := play calls (after_call s t) in ((c, r) :: log, s)
  end.
Fixpoint playable (calls : list command_call) (s : books) : bool :=
  match calls with
  | [] => true
  | c :: calls => bool_decide (insertable c (ids s.1 ++ s.2)) && playable calls (after_call s (perform c s.1).2)
  end.

Lemma history_cons s c r s' log s'' : carried s c r s' → history s' log s'' → history s ((c, r) :: log) s''.
Proof.
  intros Hc Hh. induction Hh as [s'|s' log s1 c' r' s'' _ IH Hc']; [by apply (HistoryMore s [] s); [constructor|]|].
  change ((c, r) :: log ++ [(c', r')]) with (((c, r) :: log) ++ [(c', r')]). econstructor; [by apply IH|done].
Qed.

Lemma play_history calls s : playable calls s = true → history s (play calls s).1 (play calls s).2.
Proof.
  revert s. induction calls as [|c calls IH]; intros s Hp; [constructor|]. cbn [playable] in Hp. apply andb_true_iff in Hp as [Hi%bool_decide_eq_true Hp].
  cbn [play]. destruct (perform c s.1) as [r t1] eqn:E. cbn [snd] in Hp. specialize (IH _ Hp). destruct (play calls (after_call s t1)) as [log s2].
  cbn [fst snd] in *. apply (history_cons s c r (after_call s t1)); [|done]. split; [done|]. exists t1. split; [done|]. by left.
Qed.

Definition no_books : books := ([], []).
Lemma empty_ok : books_ok no_books.
Proof. split; [split; [apply NoDup_nil_2|constructor]|]. intros id Hid. by apply elem_of_nil in Hid. Qed.

Definition load_command : ScheduledCommand :=
  mkScheduledCommand 0 None None "set_load_factor" "{}" "{}" "scheduled_action" "" "[]" "" "{}" AgentCommandStatusPending "Asia/Shanghai" midnight None
    "key-1" "key-1" "catch_up_once" "autonomous_agent" "" None 0 3 None "{}" "" "agent" midnight midnight None.
Definition attempt_at (t : time) : string := quotes ("{'attempted_at':'" +:+ formatTime t +:+ "'}").

(** The command is claimed and enters its mutation; its worker is lost and another finds
    it in reconciliation, which says that nothing happened; it is claimed and entered
    again, and completed. *)
Definition before_entry : list command_call :=
  [CreateCall midnight 1 load_command; ClaimCall midnight "w1" (midnight + minute) minute 10].
Definition first_entry : command_call := AttemptCall (midnight + minute) 1 "w1" (attempt_at (midnight + minute)) (midnight + minute).
Definition between_entries : list command_call :=
  [ClaimCall midnight "w2" (midnight + hour) minute 10; ResolveCall (midnight + hour) 1 AgentCommandStatusPending "" "unchanged" (Some (midnight + hour)%Z);
   ClaimCall midnight "w2" (midnight + 2 * hour) minute 10].
Definition second_entry : command_call := AttemptCall (midnight + 2 * hour) 1 "w2" (attempt_at (midnight + 2 * hour)) (midnight + 2 * hour).
Definition after_entry : list command_call := [CompleteCall (midnight + 2 * hour) 1 "w1" "" zero_time; CompleteCall (midnight + 2 * hour) 1 "w2" "" zero_time].
Definition story : list command_call := before_entry ++ first_entry :: between_entries ++ second_entry :: after_entry.

Definition reply_text (r : result command_error command_reply) : string :=
  match r with
  | Ok (Claimed items) => String.concat "," ((λ item, format_int (sc_ID item) +:+ "@" +:+ sc_LeaseOwner item) <$> items)
  | Ok Done => "done"
  | Ok (Created item) => format_int (sc_ID item)
  | Ok _ => "ok"
  | Err (Refused text) => text
  | Err _ => "error"
  end.
Example story_told :
  reply_text ∘ snd <$> (play story no_books).1
  = ["1"; "1@w1"; "done"; ""; "done"; "1@w2"; "done"; "scheduled command lease is not owned"; "done"]
  ∧ (text_of_column "status" <$> (play story no_books).2.1) = ["completed"] ∧ opened 1 (play story no_books).1 = 2%Z.
Proof. split_and!; vm_compute; reflexivity. Qed.

Lemma story_history : history no_books (play story no_books).1 (play story no_books).2.
Proof. apply play_history. vm_compute. reflexivity. Qed.

Definition story_end : books := (play story no_books).2.
Lemma head_in (t : table) : length t = 1%nat → default ∅ (head t) ∈ t.
Proof. destruct t as [|r t]; [done|]. intros _. left. Qed.
Lemma story_length : length story_end.1 = 1%nat.
Proof. vm_compute. reflexivity. Qed.
Lemma story_end_ok : books_ok story_end.
Proof. exact (history_ok _ _ _ empty_ok story_history). Qed.

(** Cancelled too late, recovered, and kept by a retention whose boundary is before its
    end; then its goal is deleted, and at last the command. *)
Definition too_late : list command_call :=
  [CancelCall (midnight + 3 * hour) 1 "admin" "late"; RecoverCall (midnight + 3 * hour); CleanupCall midnight [] [7%Z]].
Definition at_last : list command_call := too_late ++ [CleanupCall (midnight + 72 * hour) [] []].
Example deleted_at_last :
  ids (play too_late story_end).2.1 = [SInt 1] ∧ (play at_last story_end).2 = ([], [SInt 1]).
Proof. split; vm_compute; reflexivity. Qed.

Lemma commands_stay_valid_witness :
  books_ok (play too_late story_end).2
  ∧ ∃ x, x ∈ story_end.1 ∧ terminal x ∧ ∃ x', x' ∈ (play too_late story_end).2.1 ∧ closed_as x x'.
Proof.
  assert (playable too_late story_end = true) as Hp by (vm_compute; reflexivity).
  destruct (commands_stay_valid story_end (play too_late story_end).1 (play too_late story_end).2 story_end_ok (play_history _ _ Hp)) as [H1 H2].
  split; [exact H1|]. exists (default ∅ (head story_end.1)).
  assert (default ∅ (head story_end.1) ∈ story_end.1) as Hin by exact (head_in _ story_length).
  assert (terminal (default ∅ (head story_end.1))) as Ht by (vm_compute; reflexivity).
  split; [exact Hin|]. split; [exact Ht|]. destruct (H2 _ Hin Ht) as [Hkept|[Hgone _]]; [exact Hkept|].
  assert ((play too_late story_end).2.2 = []) as E by (vm_compute; reflexivity). rewrite E in Hgone. exact (False_ind _ (not_elem_of_nil _ Hgone)).
Defined.

Lemma reopening_needs_release_witness :
  ∃ e, e ∈ take 3 (drop 3 (play story no_books).1) ∧ releases e.1 1 = true.
Proof.
  pose (log := (play story no_books).1).
  assert (log = take 2 log ++ nth 2 log (first_entry, Ok Done) :: take 3 (drop 3 log) ++ nth 6 log (second_entry, Ok Done) :: drop 7 log) as E
    by (vm_compute; reflexivity).
  apply (reopening_needs_release no_books log story_end 1 (take 2 log) (nth 2 log (first_entry, Ok Done)) (take 3 (drop 3 log)) (nth 6 log (second_entry, Ok Done)) (drop 7 log)
    empty_ok story_history E); vm_compute; reflexivity.
Defined.

Lemma openings_bounded_witness : (opened 1 (play story no_books).1 ≤ 3 + 0)%Z.
Proof.
  assert (default ∅ (head story_end.1) ∈ story_end.1) as Hin by exact (head_in _ story_length).
  assert (column "id" (default ∅ (head story_end.1)) = SInt 1) as Hid by (vm_compute; reflexivity).
  pose proof (openings_bounded no_books (play story no_books).1 story_end 1 _ empty_ok story_history Hin Hid) as H.
  exact H.
Defined.
