(* ===== verification/AgentWorker.v ===== *)
(** * The worker of scheduled commands

    [executeScheduledCommand] and one round of [scheduledCommandWorker] of
    [internal/agent/runtime_v2.go], as programs that make requests to the store of
    commands, the engine and the clock; the execution of a capability is a request, which
    [AgentGate] models. What the worker may do with a command, and how often a command is
    executed over the whole life of the table. *)

From S2P Require Import Prelude GoStd TimeText JsonText Json Requests Intent Model ModelFailover AccountTypes Sql AgentGrants AgentGate AgentCommands.

Definition commandLease : Z := (2 * minute)%Z.

(** ** The conditions of a command *)

Record conditions := mkConditions {
  cd_AdministratorGrant : option AdministratorGrant;
  cd_SnapshotVersion : string;
  cd_EvidenceRefs : list string;
  cd_LegacyAdministratorDirect : bool;
}.
Definition no_conditions : conditions := mkConditions None "" [] false.

(** [json.Unmarshal] into a field of which the value may have another type: the field
    stays and the decoding goes on. *)
Definition string_or (v : json) (old : string) : string := match v with JString s => s | _ => old end.
Definition bool_or (v : json) (old : bool) : bool := match v with JBool b => b | _ => old end.
Definition int_or (v : json) (old : Z) : Z := match v with JNumber literal => default old (atoi literal) | _ => old end.
Definition strings_or (v : json) (old : list string) : list string :=
  match v with
  | JNull => []
  | JArray items => imap (λ i item, string_or item (default "" (old !! i))) items
  | _ => old
  end.

Section worker.
Context `{UnicodeTables, FoldTable}.

Definition grant_fields : list string :=
  ["version"; "grant_id"; "grant_scope_id"; "command_hash"; "clause"; "capability"; "arguments_hash"; "resource_keys"; "target_capability";
   "target_arguments_hash"; "target_resource_keys"].
Definition decode_grant_member (g : AdministratorGrant) (m : string * json) : AdministratorGrant :=
  match field_named grant_fields m.1 with
  | None => g
  | Some field =>
      if bool_decide (field = "version") then g <| ag_Version := int_or m.2 (ag_Version g) |> else
      if bool_decide (field = "grant_id") then g <| ag_GrantID := string_or m.2 (ag_GrantID g) |> else
      if bool_decide (field = "grant_scope_id") then g <| ag_GrantScopeID := string_or m.2 (ag_GrantScopeID g) |> else
      if bool_decide (field = "command_hash") then g <| ag_CommandHash := string_or m.2 (ag_CommandHash g) |> else
      if bool_decide (field = "clause") then g <| ag_Clause := string_or m.2 (ag_Clause g) |> else
      if bool_decide (field = "capability") then g <| ag_Capability := string_or m.2 (ag_Capability g) |> else
      if bool_decide (field = "arguments_hash") then g <| ag_ArgumentsHash := string_or m.2 (ag_ArgumentsHash g) |> else
      if bool_decide (field = "resource_keys") then g <| ag_ResourceKeys := strings_or m.2 (ag_ResourceKeys g) |> else
      if bool_decide (field = "target_capability") then g <| ag_TargetCapability := string_or m.2 (ag_TargetCapability g) |> else
      if bool_decide (field = "target_arguments_hash") then g <| ag_TargetArgumentsHash := string_or m.2 (ag_TargetArgumentsHash g) |> else
      g <| ag_TargetResourceKeys := strings_or m.2 (ag_TargetResourceKeys g) |>
  end.
(** Into a pointer: a value that is no object still makes it point somewhere. *)
Definition decode_grant (v : json) (old : option AdministratorGrant) : option AdministratorGrant :=
  match v with
  | JNull => None
  | JObject members => Some (foldl decode_grant_member (default no_grant old) members)
  | _ => Some (default no_grant old)
  end.

Definition condition_fields : list string := ["administrator_grant"; "snapshot_version"; "evidence_refs"; "administrator_direct"].
Definition decode_condition (c : conditions) (m : string * json) : conditions :=
  match field_named condition_fields m.1 with
  | None => c
  | Some field =>
      if bool_decide (field = "administrator_grant") then c <| cd_AdministratorGrant := decode_grant m.2 (cd_AdministratorGrant c) |> else
      if bool_decide (field = "snapshot_version") then c <| cd_SnapshotVersion := string_or m.2 (cd_SnapshotVersion c) |> else
      if bool_decide (field = "evidence_refs") then c <| cd_EvidenceRefs := strings_or m.2 (cd_EvidenceRefs c) |> else
      c <| cd_LegacyAdministratorDirect := bool_or m.2 (cd_LegacyAdministratorDirect c) |>
  end.
(** Whatever could be decoded; the error is dropped. *)
Definition decode_conditions (text : string) : conditions :=
  match json_parse text with
  | Some (JObject members) => foldl decode_condition no_conditions members
  | _ => no_conditions
  end.

Definition isAutomationFreezeError (err : option error) : bool :=
  match err with
  | None => false
  | Some err => contains (error_text err) "自动化已被冻结" || contains (error_text err) "智能体已被冻结" || contains (error_text err) "冻结状态"
  end.

End worker.

(** ** Execution *)

Record scheduledReconciliationEvidence := mkEvidence {
  se_AttemptedAt : time;
  se_UncertainAt : option time;
  se_BeforeState : string;
  se_Execution : option CapabilityExecution;
}.

Inductive WorkerCall : Type → Type :=
  | WorkerFreezeState : WorkerCall (result error FreezeState)
  | WorkerNow : WorkerCall time
  | WorkerBeforeState (invocation : CapabilityInvocation) : WorkerCall string             (* [capabilityState] *)
  | ClaimDue (now : time) (leaseDuration limit : Z) : WorkerCall (result error (list ScheduledCommand))
  | FailCommand (id : Z) (message : string) (retryAt : option time) : WorkerCall (result error string)
  | DeferCommand (id : Z) (message : string) (retryAt : time) : WorkerCall (result error unit)
  | RecordAttempt (id : Z) (evidence : scheduledReconciliationEvidence) (attemptedAt : time) : WorkerCall (result error unit)
  | CompleteCommand (id : Z) (execution : CapabilityExecution) (completedAt : time) : WorkerCall (result error unit)
  | QuarantineCommand (id : Z) (message : string) (evidence : scheduledReconciliationEvidence) : WorkerCall (result error unit)
  | Execute (invocation : CapabilityInvocation) : WorkerCall (CapabilityExecution * option error)   (* [ExecuteCapability] *)
  | RuntimeEvent (type severity : string) : WorkerCall unit                                (* [appendRuntimeEvent] *)
  | WorkerWarn (message : string) : WorkerCall unit.

Abbreviation worker_prog := (Requests.prog WorkerCall).

Section execution.
Context `{UnicodeTables, FoldTable}.

(** The invocation of a command: its run was not stored, so it has no number. *)
Definition command_invocation (command : ScheduledCommand) (c : conditions) : CapabilityInvocation :=
  mkInvocation (sc_Capability command) (sc_Arguments command) 0 (default 0%Z (sc_GoalID command)) (default 0%Z (sc_StepID command)) 0 ""
    (sc_CreatedBy command) (sc_IdempotencyKey command) (cd_AdministratorGrant c) false (sc_CreatedAt command) (sc_ExpiresAt command)
    (cd_SnapshotVersion c) (cd_EvidenceRefs c).

(** What is reported of an execution. *)
Definition report_execution (command : ScheduledCommand) (evidence : scheduledReconciliationEvidence) (execution : CapabilityExecution)
    (execErr : option error) : worker_prog unit :=
  now ← call WorkerNow;
  match execErr with
  | None =>
      call (CompleteCommand (sc_ID command) execution now);;
      call (RuntimeEvent "scheduled_command_completed" "info")
  | Some err =>
      if isAutomationFreezeError execErr then
        call (DeferCommand (sc_ID command) "能力执行前检测到自动化冻结，未发生外部写入" (now + 30 * second)%Z);;
        call (RuntimeEvent "scheduled_command_deferred_by_freeze" "warning")
      else
        (if ce_Retryable execution
         then call (QuarantineCommand (sc_ID command) ("外部写入结果不明确，等待只读核对: " +:+ error_text err)
                (evidence <| se_UncertainAt := Some now |> <| se_Execution := Some execution |>));; mret ()
         else call (FailCommand (sc_ID command) (error_text err) None);; mret ());;
        call (RuntimeEvent "scheduled_command_failed" "error")
  end.

Definition run_command (command : ScheduledCommand) (c : conditions) : worker_prog unit :=
  call WorkerNow;;                                   (* the start of the run *)
  let invocation := command_invocation command c in
  attemptedAt ← call WorkerNow;
  before ← call (WorkerBeforeState invocation);
  let evidence := mkEvidence attemptedAt None before None in
  try _ ← call (RecordAttempt (sc_ID command) evidence attemptedAt) catch err =>
    call (FailCommand (sc_ID command) ("写入动作基线保存失败，已拒绝执行: " +:+ error_text err) None);; call WorkerNow;; mret ();
  answer ← call (Execute invocation);
  report_execution command evidence answer.1 answer.2.

Definition executeScheduledCommand (command : ScheduledCommand) : worker_prog unit :=
  let c := decode_conditions (sc_Conditions command) in
  if cd_LegacyAdministratorDirect c && bool_decide (cd_AdministratorGrant c = None) then
    call (FailCommand (sc_ID command) "旧版管理员布尔授权已失效，定时命令必须由管理员重新确认" None);;
    call (RuntimeEvent "legacy_administrator_command_rejected" "error")
  else
    freeze ← call WorkerFreezeState;
    let reason := match freeze with
      | Err err => Some ("定时命令领取后无法确认冻结状态，未进入能力执行: " +:+ error_text err)
      | Ok f => if fs_Agent f || fs_AllAutomation f then Some "定时命令领取后检测到自动化冻结，未进入能力执行" else None
      end in
    match reason with
    | Some reason =>
        now ← call WorkerNow;
        try _ ← call (DeferCommand (sc_ID command) reason (now + 30 * second)%Z) catch err => call (WorkerWarn "agent_command_freeze_deferral_failed");
        mret ()
    | None => run_command command c
    end.

Fixpoint execute_all (commands : list ScheduledCommand) : worker_prog unit :=
  match commands with [] => mret () | command :: commands => executeScheduledCommand command;; execute_all commands end.

(** A tick of [scheduledCommandWorker]. *)
Definition scheduled_tick : worker_prog unit :=
  freeze ← call WorkerFreezeState;
  match freeze with
  | Err _ => mret ()
  | Ok f =>
      if fs_Agent f || fs_AllAutomation f then mret () else
      now ← call WorkerNow;
      try commands ← call (ClaimDue now commandLease 10) catch err => call (WorkerWarn "agent_command_claim_failed");
      execute_all commands
  end.
End execution.

(** * What the worker guarantees *)

(** What has happened to the command so far: automation was last read as thawed, the gate
    of the mutation was acknowledged as open, the capability answered, the outcome was
    reported. *)
Record phase := mkPhase {
  ph_Thawed : bool;
  ph_Opened : bool;
  ph_Answer : option (CapabilityExecution * option error);
  ph_Reported : bool;
}.
Definition claimed_phase : phase := mkPhase false false None false.

Section protocol.
Context `{UnicodeTables, FoldTable}.
Variable command : ScheduledCommand.

Definition watch_worker (w : phase) (R : Type) (c : WorkerCall R) : R → phase :=
  match c in WorkerCall R return R → phase with
  | WorkerFreezeState => λ r, mkPhase (match r with Ok f => negb (fs_Agent f || fs_AllAutomation f) | Err _ => false end) (ph_Opened w) (ph_Answer w) (ph_Reported w)
  | RecordAttempt _ _ _ => λ r, mkPhase (ph_Thawed w) (match r with Ok _ => true | Err _ => ph_Opened w end) (ph_Answer w) (ph_Reported w)
  | Execute _ => λ r, mkPhase (ph_Thawed w) (ph_Opened w) (Some r) (ph_Reported w)
  | FailCommand _ _ _ => λ _, mkPhase (ph_Thawed w) (ph_Opened w) (ph_Answer w) true
  | DeferCommand _ _ _ => λ _, mkPhase (ph_Thawed w) (ph_Opened w) (ph_Answer w) true
  | CompleteCommand _ _ _ => λ _, mkPhase (ph_Thawed w) (ph_Opened w) (ph_Answer w) true
  | QuarantineCommand _ _ _ => λ _, mkPhase (ph_Thawed w) (ph_Opened w) (ph_Answer w) true
  | _ => λ _, w
  end.

(** The error's text has one of the phrases that are read as a freeze. *)
Definition freeze_phrases : list string := ["自动化已被冻结"; "智能体已被冻结"; "冻结状态"].
Definition says_frozen (err : error) : Prop :=
  ∃ phrase before after, phrase ∈ freeze_phrases ∧ error_text err = before +:+ phrase +:+ after.

(** The grounds of each request. *)
Definition worker_permits (w : phase) (R : Type) (c : WorkerCall R) : Prop :=
  match c with
  | RecordAttempt id evidence attemptedAt =>
      id = sc_ID command ∧ ph_Thawed w = true ∧ ph_Opened w = false ∧ ph_Answer w = None ∧ ph_Reported w = false ∧ attemptedAt = se_AttemptedAt evidence
  | Execute invocation =>
      invocation = command_invocation command (decode_conditions (sc_Conditions command))
      ∧ (cd_LegacyAdministratorDirect (decode_conditions (sc_Conditions command)) = true → is_Some (iv_AdministratorGrant invocation))
      ∧ ph_Thawed w = true ∧ ph_Opened w = true ∧ ph_Answer w = None ∧ ph_Reported w = false
  | CompleteCommand id execution _ => id = sc_ID command ∧ ph_Reported w = false ∧ ph_Answer w = Some (execution, None)
  | FailCommand id _ retryAt => id = sc_ID command ∧ ph_Reported w = false ∧ retryAt = None
      ∧ match ph_Answer w with
        | None => ph_Opened w = false
        | Some (execution, err) => ∃ e, err = Some e ∧ ¬ says_frozen e ∧ ce_Retryable execution = false
        end
  | DeferCommand id _ _ => id = sc_ID command ∧ ph_Reported w = false
      ∧ match ph_Answer w with None => ph_Thawed w = false ∧ ph_Opened w = false | Some (_, err) => ∃ e, err = Some e ∧ says_frozen e end
  | QuarantineCommand id _ evidence => id = sc_ID command ∧ ph_Reported w = false
      ∧ ∃ execution err, ph_Answer w = Some (execution, Some err) ∧ ¬ says_frozen err ∧ ce_Retryable execution = true
          ∧ se_Execution evidence = Some execution
  | ClaimDue _ _ _ => False
  | _ => True
  end.
Definition worker_protocol : Requests.protocol WorkerCall := mkProtocol phase worker_permits watch_worker.

Definition wpw {A} (p : worker_prog A) (w : phase) (Q : A → phase → Prop) : Prop := wp worker_protocol p w Q.

Lemma wpw_bind {A B} (p : worker_prog A) (f : A → worker_prog B) w Q : wpw p w (λ a w, wpw (f a) w Q) → wpw (p ≫= f) w Q.
Proof. intros Hp. by apply wp_bind. Qed.
Lemma wpw_call {R B} (c : WorkerCall R) (k : R → worker_prog B) w Q :
  worker_permits w R c → (∀ r, wpw (k r) (watch_worker w R c r) Q) → wpw (call c ≫= k) w Q.
Proof. intros Hc Hk. apply (wp_request worker_protocol c k w Q Hc Hk). Qed.
Lemma wpw_last {R} (c : WorkerCall R) w (Q : R → phase → Prop) :
  worker_permits w R c → (∀ r, Q r (watch_worker w R c r)) → wpw (call c) w Q.
Proof. intros Hc Hk. split; [exact Hc|exact Hk]. Qed.

Lemma freeze_error_iff err : isAutomationFreezeError (Some err) = true ↔ says_frozen err.
Proof.
  unfold isAutomationFreezeError, says_frozen, freeze_phrases. rewrite !orb_true_iff, !contains_iff. split.
  - intros [[(b & a & E)|(b & a & E)]|(b & a & E)]; eexists _, b, a; (split; [|exact E]); listed.
  - intros (phrase & b & a & Hin & E). rewrite !elem_of_cons, elem_of_nil in Hin. destruct Hin as [->|[->|[->|[]]]]; eauto 6.
Qed.

Lemma report_wp evidence execution err w :
  ph_Answer w = Some (execution, err) → ph_Reported w = false →
  wpw (report_execution command evidence execution err) w (λ _ w', ph_Reported w' = true).
Proof.
  intros Ha Hr. unfold report_execution. apply wpw_call; [done|]. intros now. cbn [watch_worker]. destruct err as [err|].
  - destruct (isAutomationFreezeError (Some err)) eqn:Ef;
      [apply freeze_error_iff in Ef|rewrite <-not_true_iff_false, freeze_error_iff in Ef].
    + apply wpw_call; [split_and!; [done..|]; rewrite Ha; by exists err|]. intros r. by apply wpw_last.
    + destruct (ce_Retryable execution) eqn:Ere.
      * apply wpw_bind, wpw_call; [split_and!; [done..|]; exists execution, err; split_and!; try done; by destruct evidence|]. intros r. by apply wpw_last.
      * apply wpw_bind, wpw_call; [split_and!; [done..|]; rewrite Ha; by exists err|]. intros r. by apply wpw_last.
  - apply wpw_call; [by split_and!|]. intros r. by apply wpw_last.
Qed.

Lemma execute_wp : wpw (executeScheduledCommand command) claimed_phase (λ _ w', ph_Reported w' = true).
Proof.
  unfold executeScheduledCommand. cbv zeta. set (c := decode_conditions _).
  destruct (cd_LegacyAdministratorDirect c && bool_decide (cd_AdministratorGrant c = None)) eqn:El.
  - apply wpw_call; [by split_and!|]. intros r. by apply wpw_last.
  - apply wpw_call; [done|]. intros freeze. destruct (match freeze with Err _ => _ | Ok _ => _ end) as [reason|] eqn:Ereason.
    + apply wpw_call; [done|]. intros now. apply wpw_call; [|intros [[]|err]; [done|by apply wpw_last]].
      split_and!; try done. cbn. destruct freeze as [f|]; [|done]. by destruct (fs_Agent f || fs_AllAutomation f).
    + assert (watch_worker claimed_phase _ WorkerFreezeState freeze = mkPhase true false None false) as ->.
      { destruct freeze as [f|]; [|done]. cbn. by destruct (fs_Agent f || fs_AllAutomation f). }
      unfold run_command. apply wpw_call; [done|]. intros start. apply wpw_call; [done|]. intros attemptedAt. apply wpw_call; [done|]. intros before.
      apply wpw_call; [by split_and!|]. intros [[]|err].
      * apply wpw_call; [|intros [execution err]; by apply report_wp]. split_and!; try done.
        intros Hlegacy. fold c in Hlegacy |- *. rewrite Hlegacy in El. cbn [andb] in El. apply bool_decide_eq_false in El. cbn.
        by destruct (cd_AdministratorGrant c).
      * apply wpw_call; [by split_and!|]. intros r. apply wpw_call; [done|]. intros now. done.
Qed.

(** C34: in every run of [executeScheduledCommand], to wherever it gets, the capability is
    executed at most once, as the command says, after automation was read as thawed and
    the store acknowledged that the gate of the mutation is open, and never on the old
    flag of an administrator alone. The outcome is reported once, and which report it is
    follows from the capability's answer alone: success closes the command; an error whose
    text has one of the three phrases for a freeze defers it, whatever else the answer
    says; any other error sends it to reconciliation with its evidence when the execution
    is marked as one that may be tried again, and fails it for good when it is not. Before
    an answer, it is deferred only when automation was not read as thawed, and failed only
    when the gate was not opened. (The phrases are all that tells a freeze from another
    error: [ticks] shows a refusal that is deferred for its wording.) *)
Theorem worker_reports_by_the_answer tr value :
  trace (executeScheduledCommand command) tr value →
  respects worker_protocol claimed_phase tr ∧ (is_Some value → ph_Reported (watch_after worker_protocol claimed_phase tr) = true).
Proof.
  intros Ht. destruct (wp_adequate worker_protocol _ _ _ _ _ execute_wp Ht) as [Hr Hv]. split; [done|]. intros [a Ha]. by apply (Hv a).
Qed.
End protocol.

(** ** How often a command is executed *)

Definition executions (tr : list (exchange WorkerCall)) : Z :=
  foldr (λ x n, match x with Exchange c _ => match c with Execute _ => n + 1 | _ => n end end)%Z 0%Z tr.
(** The acknowledgments of its gate. *)
Definition acknowledged_attempts (id : Z) (tr : list (exchange WorkerCall)) : Z :=
  foldr (λ x n, match x with Exchange c r =>
    match c in WorkerCall R return R → Z with
    | RecordAttempt id' _ _ => λ r, match r with Ok _ => if bool_decide (id' = id) then n + 1 else n | Err _ => n end
    | _ => λ _, n
    end r end)%Z 0%Z tr.
Definition total (f : list (exchange WorkerCall) → Z) (runs : list (ScheduledCommand * list (exchange WorkerCall))) : Z :=
  foldr (λ run n, f run.2 + n)%Z 0%Z runs.

Section bound.
Context `{UnicodeTables, FoldTable}.

Lemma execution_acknowledged command w tr :
  respects (worker_protocol command) w tr →
  (executions tr ≤ acknowledged_attempts (sc_ID command) tr + (if ph_Opened w && bool_decide (ph_Answer w = None) then 1 else 0))%Z.
Proof.
  revert w. induction tr as [|[R c r] tr IH]; intros w Hr; [by destruct (_ && _)|]. destruct Hr as [Hc Hr]. specialize (IH _ Hr).
  cbn [executions acknowledged_attempts foldr]. fold (executions tr) (acknowledged_attempts (sc_ID command) tr).
  destruct c; cbn [observe worker_protocol watch_worker ph_Opened ph_Answer] in IH; try exact IH.
  - destruct Hc as (-> & _ & Ho & Ha & _). rewrite Ho, Ha in *. rewrite (bool_decide_true (sc_ID command = _)) by done.
    destruct r as [[]|]; cbn in IH |- *; lia.
  - destruct Hc as (_ & _ & _ & Ho & Ha & _). rewrite Ho, Ha in *. cbn in IH |- *. rewrite ?(bool_decide_false (Some r = None)) in IH by done. lia.
Qed.

(** C35: over the whole life of the table, whoever claims what and whatever expires,
    restarts, is deferred, resolved or retained in between, the runs of the workers execute
    a command that is still in the table at most as often as it may be attempted, not
    counting as often as a deferral was asked for it: every execution has an acknowledged
    opening of its own. *)
Theorem command_executions_bounded s log s' id x runs :
  books_ok s → history s log s' → x ∈ s'.1 → column "id" x = SInt id →
  Forall (λ run, sc_ID run.1 = id ∧ ∃ value, trace (executeScheduledCommand run.1) run.2 value) runs →
  (total (acknowledged_attempts id) runs ≤ opened id log)%Z →
  (total executions runs ≤ int_of "max_attempts" x + deferred id log)%Z.
Proof.
  intros Hs Hh Hx Hid Hruns Hlog.
  assert (total executions runs ≤ total (acknowledged_attempts id) runs)%Z as Hle.
  { clear Hlog. induction Hruns as [|[command tr] runs [<- [value Htr]] _ IH]; cbn [total foldr fst snd] in *; [lia|].
    destruct (wp_adequate (worker_protocol command) _ _ _ _ _ (execute_wp command) Htr) as [Hr _].
    pose proof (execution_acknowledged command claimed_phase tr Hr) as H1. cbn in H1. unfold total in IH. lia. }
  pose proof (history_accounted _ _ _ id Hs Hh x Hx Hid) as Ha.
  pose proof (spent_bounds x (books_row _ _ (history_ok _ _ _ Hs Hh) Hx)). lia.
Qed.
End bound.

(** ** Concrete runs *)

Import Samples.
#[local] Existing Instance plain_folds.

(** A process over the table, with the calls of the store that were made; the capability
    gives [answer]. *)
Definition worker_bench (frozen : bool) (clock : time) (answer : CapabilityExecution * option error)
    : environment WorkerCall (list (command_call * result command_error command_reply) * table) :=
  let serve_call {A} (c : command_call) (f : command_reply → A) (s : list (command_call * result command_error command_reply) * table) :=
    let '(r, t) := perform c s.2 in
    (match r with Ok reply => Ok (f reply) | Err (Refused text) => Err (NewError text) | Err (CommandSQL _) => Err (NewError "database") end,
     (s.1 ++ [(c, r)], t)) in
  mkEnvironment _ (λ R s c,
    match c in WorkerCall R return R * (list (command_call * result command_error command_reply) * table) with
    | WorkerFreezeState => (Ok (mkFreezeState frozen false "" "" "" None midnight), s)
    | WorkerNow => (clock, s)
    | WorkerBeforeState _ => ("{}", s)
    | ClaimDue now leaseDuration limit => serve_call (ClaimCall clock "w1" now leaseDuration limit) (λ reply, match reply with Claimed items => items | _ => [] end) s
    | FailCommand id message retryAt => serve_call (FailCall clock id "w1" message retryAt) (λ reply, match reply with FailedAs status => status | _ => "" end) s
    | DeferCommand id message retryAt => serve_call (DeferCall clock id "w1" message retryAt) (λ _, ()) s
    | RecordAttempt id _ attemptedAt => serve_call (AttemptCall clock id "w1" (attempt_at attemptedAt) attemptedAt) (λ _, ()) s
    | CompleteCommand id _ completedAt => serve_call (CompleteCall clock id "w1" "" completedAt) (λ _, ()) s
    | QuarantineCommand id message _ => serve_call (QuarantineCall clock id "w1" message "") (λ _, ()) s
    | Execute _ => (answer, s)
    | RuntimeEvent _ _ | WorkerWarn _ => ((), s)
    end).

Definition done_answer : CapabilityExecution * option error := (mkExecution "set_load_factor" "completed" false "" "" "" false "", None).
Definition failed_answer (retryable : bool) (message : string) : CapabilityExecution * option error :=
  (mkExecution "set_load_factor" "failed" false "" "" "" retryable message, Some (NewError message)).
Definition with_command : table := (play [CreateCall midnight 1 load_command] no_books).2.1.
Definition ticked (frozen : bool) (answer : CapabilityExecution * option error) : list string * list string * Z :=
  let '(_, (log, t)) := run (worker_bench frozen (midnight + minute) answer) scheduled_tick ([], with_command) in
  (reply_text ∘ snd <$> log, text_of_column "status" <$> t, opened 1 log).

(** The refusal of a switch whose group has changed mentions a freeze and is deferred,
    without counting as an attempt, although automation is not frozen. *)
Definition protected_text : string := "上游令牌实际分组已变化，已进入人工保护或冻结状态".
Example ticks :
  ticked false done_answer = (["1@w1"; "done"; "done"], ["completed"], 1%Z)
  ∧ ticked true done_answer = ([], ["pending"], 0%Z)
  ∧ ticked false (failed_answer true "timeout") = (["1@w1"; "done"; "done"], ["reconciling"], 1%Z)
  ∧ ticked false (failed_answer false "refused") = (["1@w1"; "done"; "ok"], ["failed"], 1%Z)
  ∧ ticked false (failed_answer false protected_text) = (["1@w1"; "done"; "done"], ["pending"], 1%Z).
Proof. split_and!; vm_compute; reflexivity. Qed.

Definition claimed_command : ScheduledCommand := load_command <| sc_ID := 1%Z |>.
Definition claimed_table : table := (play before_entry no_books).2.1.
Definition worker_trace (answer : CapabilityExecution * option error) : list (exchange WorkerCall) :=
  run_trace (worker_bench false (midnight + minute) answer) (executeScheduledCommand claimed_command) ([], claimed_table).

Lemma worker_traces answer :
  trace (executeScheduledCommand claimed_command) (worker_trace answer)
    (Some (run (worker_bench false (midnight + minute) answer) (executeScheduledCommand claimed_command) ([], claimed_table)).1).
Proof. apply run_traces. Qed.

Lemma worker_reports_by_the_answer_witness :
  executions (worker_trace done_answer) = 1%Z ∧ respects (worker_protocol claimed_command) claimed_phase (worker_trace done_answer)
  ∧ ph_Reported (watch_after (worker_protocol claimed_command) claimed_phase (worker_trace done_answer)) = true.
Proof.
  split; [vm_compute; reflexivity|].
  destruct (worker_reports_by_the_answer claimed_command _ _ (worker_traces done_answer)) as [Hr Hv]. exact (conj Hr (Hv (ex_intro _ _ eq_refl))).
Defined.

(** The runs of the two entries of the story: the first is uncertain, the second done. *)
Definition story_runs : list (ScheduledCommand * list (exchange WorkerCall)) :=
  [(claimed_command, worker_trace (failed_answer true "timeout")); (claimed_command, worker_trace done_answer)].

Lemma command_executions_bounded_witness : total executions story_runs = 2%Z ∧ (total executions story_runs ≤ 3 + 0)%Z.
Proof.
  split; [vm_compute; reflexivity|].
  assert (default ∅ (head story_end.1) ∈ story_end.1) as Hin by exact (head_in _ story_length).
  assert (column "id" (default ∅ (head story_end.1)) = SInt 1) as Hid by (vm_compute; reflexivity).
  assert (total (acknowledged_attempts 1) story_runs ≤ opened 1 (play story no_books).1)%Z as Hle by (vm_compute; discriminate).
  assert (Forall (λ run, sc_ID run.1 = 1%Z ∧ ∃ value, trace (executeScheduledCommand run.1) run.2 value) story_runs) as Hruns.
  { repeat constructor; eexists; apply worker_traces. }
  pose proof (command_executions_bounded no_books (play story no_books).1 story_end 1 _ story_runs empty_ok story_history Hin Hid Hruns Hle) as H.
  exact H.
Defined.
